(* ===== verification/_CoqProject ===== *)
-Q . S2P
Prelude.v
Klib.v
Lock.v
Libm.v
Sbi.v
Trap.v
Buddy.v
PageAlloc.v
PageTable.v
PtMap.v
Kheap.v
Vmar.v
Boot.v
Cstring.v
Printf.v
Ring.v
Sched.v
Pipe.v
Heap.v
Bytes.v
Custom.v
Bcache.v
PtUnmap.v
Fat.v
FatFile.v
FatDir.v
FatName.v
Path.v
Vfs.v
File.v
FileSys.v
Ramfs.v
FdInv.v
FdCalls.v
FileClaims.v
Signal.v
Syscall.v
Futex.v
Timer.v
Virtio.v
Scatter.v
ScatterClaims.v
Pager.v
PagerClaims.v
PagerFree.v
Ld.v
Umem.v
UmemClaims.v
Exec.v
Proc.v
Cred.v
