(* ===== verification/Prelude.v ===== *)
(** * LuoOS verification library

    LuoOS is a RISC-V kernel in C++ (src/kernel, src/include, src/utils). This
    library translates the parts that carry its logic into executable Rocq
    definitions and proves what they do, on their error paths too.

    ** The parts and the files that model them

    - Page allocation: PageMgr of kernel/alloc.cc is a buddy allocator over an
      array of node values. [Buddy] has the array code and its invariant (a tree
      of free orders that the array represents); [PageAlloc] the ledger of
      allocated blocks and the properties.
    - Page tables: kernel/vm/pagetable.cc. [PageTable] has the entries, the
      translation and the recursive createMapping/removeMapping over a physical
      memory of 512-entry tables; [PtMap] proves createMapping against the walk,
      [PtUnmap] removeMapping (the return of nodes is the interface [PageReturn]).
    - Address spaces: VMAR of include/vm.hh and kernel/vm/vm.cc with the calls
      of kernel/syscall/mm.cc and Process::brk are in [Vmar]; page tables and
      memory objects are used through an interface ([VmoSource]).
    - The kernel's own memory: HeapMgr of kernel/alloc.cc is in [Kheap], over the
      page allocator and an interface without laws to the TLSF allocator
      ([Tlsf]);
      memInit and createKernelMapping of kernel/kernel.cc and the mappings of a
      new process are in [Boot], over the address spaces.
    - C library: utils/klibc.cc, strings in [Cstring], formatting in [Printf],
      ceilf in [Libm]. The ring buffer of include/klib.hh with the console, the
      UART routines of include/platform.h and the logger of utils/klib.cc are in
      [Ring].
    - Firmware: kernel/sbi.cc and include/sbi.hh are in [Sbi], over a firmware
      that is a parameter ([SbiBase]); its module [Harts] has init of
      kernel/kernel.cc as steps of two harts, the parts of the set-up being
      parameters that may fail.
    - Traps: trap entry and exit, the saved contexts and the switch of
      kernel/trap.cc and kernel/sched.cc are in [Trap], over the registers of a
      hart and a memory that the page-fault handler changes; the table of system calls of kernel/syscall.cc is in [Syscall].
    - Locks: the spin lock and LockedObject of include/lock.hh are in [Lock], one
      step per atomic access, on any number of harts.
    - Scheduling: kernel/sched.cc, kernel/lock.cc and the yield/sleep of
      kernel/kernel.cc are in [Sched], one task switch per call, as
      the first hart sees it; the two halves of kernel::sleep are also given apart.
    - Pipes: struct Pipe of include/ipc.hh is in [Pipe], a ring with wrapping
      counters whose blocking points return to the caller.
    - Buffer cache: shared_lru and BlockBuf of include/bio.hh and
      kernel/fs/bio.cc are in [Bcache], over an interface to the page allocator
      ([PageSource], [PageLaws]) that the buddy allocator implements.
    - FAT32: kernel/fs/fat.cc. [Fat] has the volume, the allocation table,
      cluster I/O and file read/write/truncate over an array of sectors;
      [FatFile] their properties; [FatDir] names, on-disk entries, the entry
      cache, create/remove/link; [FatName] the properties of names and entries.
    - Paths and the virtual file system: kernel/fs/fs.cc and include/fs.hh.
      [Path] has the string algorithms; [Vfs] the inode interface ([INodeOps]),
      directory entries, lookup, creation, removal, links and mounting.
    - Open files: [File] has File objects with their ownership and destruction,
      read, write, lSeek, sendFile, pathOpen and the descriptor table of a
      process; [FileSys] every handler of kernel/syscall/file.cc, with clone and
      the reaping of processes as far as the tables are concerned. [Ramfs] is
      include/fs/ramfs.hh, an instance of the inode interface and its laws.
      [FdInv] and [FdCalls] prove the invariant of the file layer over all
      calls; [FileClaims] the properties.
    - The files of /proc and /dev (kernel/syscall/custom.cc) are in [Custom].
    - Signals: kernel/ipc.cc and kernel/syscall/signal.cc with the system call
      entry of kernel/trap.cc are in [Signal].
    - Futexes: kernel/syscall/futex.cc is in [Futex].
    - Timers: include/time.hh, kernel/time.cc, kernel/syscall/time.cc and
      condition_variable::wait_for are in [Timer], over the heap of EASTL's
      priority_queue in [Heap].
    - Block device: kernel/virtio_disk.cc is in [Virtio], a driver whose calls,
      interrupts and returns interleave with a device ([BlkDevice]).
    - Scattered I/O: include/scatterio.hh, File::readv and File::writev and the
      calls of kernel/syscall/uio.cc are in [Scatter], over kernel memory
      ([KMemory], laws [KMemLaws]) and destinations of a copy ([ScatterDst],
      laws [DstLaws]); [ScatterClaims] has their properties.
    - Memory objects: the pagers and VMOs of include/vm/*.hh are in [Pager],
      over the buddy allocator and a memory of frames; [PagerClaims] proves what
      a page shows; [PagerFree] has the destruction of objects, pagers and page
      buffers, and the accounts of their frames.
    - User memory: VMOMapper, VMAR::copyin, copyinstr, copyout, the Writer and the
      copy constructor of VMAR are in [Umem], with the process's and the kernel's
      address space in one state over page tables and pagers; [UmemClaims] follows
      a copy through page fault, table and window.
    - Programs: kernel/ld.cc is in [Ld], over the pagers and the address space;
      the arguments and the stack of execve (kernel/syscall/proc.cc) in [Exec].
    - Processes: kernel/proc.cc with clone, exit and waitpid is in [Proc], over
      the scheduler; identifiers, groups and limits
      (kernel/syscall/procmisc.cc) are in [Cred].
    - [Prelude] has the outcome monad, machine integers and arrays, [Klib] the
      small templates of include/klib.hh, [Bytes] byte arrays and little-endian
      words.

    The parts meet as in the code: pipes block through the scheduler, open files
    use pipes, directory entries and the page allocator, system calls use the
    descriptor table and user memory, FAT and ramfs sit below the inode
    interface. User memory in the file and signal calls is the interface
    [UserMem] (copyin, copyinstr, copyout) with the laws [UserMemLaws]: what the
    calls are written for, kept by any mapped range of one page. [UmemClaims] shows how far the code keeps them: copyout
    within a mapping does, copyin only within a page ([copyin_first_page]).

    ** How code becomes definitions

    A function returns an [outcome]: [Done], [Panic] (a failed assert or panic),
    [Undef] (an access the language leaves undefined: out of bounds, a null or
    expired pointer, a shift that is too wide) or [Diverge]. Unsigned arithmetic
    that can wrap is written with [u32] or [u64], conversions to int with
    [i32]; a pointer or shared_ptr is a number into a map; memory that the code
    leaves uninitialised is an argument. Loops with a data-dependent bound take
    fuel: the length of the buffer for pipes and files, the number of mappings
    for unmap and protect (twice, since a turn can insert one), the tree depth
    for the allocator, the number of clusters or entries for FAT, the number of
    pieces and two more for a scattered copy, the depth of the chain of pagers
    and of interpreters, the number of pagers for their destruction, the ring size for the disk interrupt, the
    number of bytes for copyout, the retries of the heap. The theorems
    state results as [Done], so that running out of fuel would contradict them,
    except where they quantify over the states that calls reach.

    ** What is proved

    - Allocator: the ledger of allocated blocks and the free pages of the tree
      are exact after any sequence of calls, in a region whose size is not a power
      of two; alloc succeeds whenever a block aligned within the region is free;
      the kernel heap records every span of pages it takes.
    - Paging: createMapping maps exactly the given range and keeps every other
      translation, removeMapping removes exactly the given range and returns
      exactly the nodes that became empty; memInit leaves exactly the segments of
      the kernel mapped. They fail only when fewer pages are free than a stated
      bound ([few]). What unmap and protect do to the list of mappings is exact
      ([unmap_exact], [protect_exact]) and not what munmap and mprotect mean:
      the part of a mapping in front of the region is lost, and mprotect reaches
      every page of a contiguous object ([munmap_loses_head],
      [mprotect_reaches_object]).
    - Traps: the harts with their saved contexts refine one processor per task,
      whatever the interleaving of the traps that are handled; the entry of a system
      call reaches the handler of its number.
    - Locks: operations on a locked object are atomic on any number of harts.
    - Firmware: which calls reach it after sbi_init; init on the two harts runs
      each part of the set-up at most once and in order, and stops only where a
      part fails.
    - Scheduler: invariant of the queues over yield, sleep, wake-up and new
      tasks, round-robin, and the lost wake-up of sleep.
    - Pipes: a FIFO queue refined by the ring.
    - Buffer cache: simulation of a plain map from sectors to bytes; why asking
      again for a held sector, and a second device number, are not safe.
    - Block device: the driver refines a queue of two requests under every
      interleaving with the device in which no request times out; one that does
      leads to undefined behaviour ([late_completion_undefined]).
    - FAT: write and truncate are exact, what is written is read back, a
      created entry is found by the directory scan.
    - Files: the end counts of pipes are exact, what is written to a file on ramfs
      is read back.
    - Scattered I/O: readv spreads exactly the bytes of the file over the vector
      when every window shows its mapping at the addresses the pieces name
      ([readv_exact]).
    - Memory objects: the copy of a paged VMO is a snapshot, and the original
      still shows what it showed; over every sequence of making, loading, sharing
      and dropping objects no frame is lost or freed twice.
    - User memory: copyout changes exactly the bytes the process sees in the range
      and leaves the kernel's address space as it was; copyin is right within a
      page only; the copy of an address space has the layout of the original.
    - Programs: the pages of a segment show the file and then zeros; the stack
      of execve has the layout of the ABI.
    - Processes: the processes form a forest of parents under every sequence of
      calls; waitpid on every branch.
    - Signals: a delivered signal and sigReturn restore the interrupted context when
      no other signal is delivered between them, and not otherwise
      ([nested_signal_breaks_return]).
    - Futexes: wake is FIFO in the order of arrival.
    - Timers: one interrupt ends, fires exactly the due events in order, enters
      the intervals again and arms the earliest event.
    - Library: snprintf stays within the buffer, and what it leaves there; the
      ring buffer is a queue.
    - Devices: the date read from the clock device is valid and, turned back into
      seconds, the count of the clock.
    - Paths: pathBuild equals splitting at slashes.

    Theorems without a claim number complete these (for example
    [buddy_free_exact], [find_correct], [pipe_read_amount], [fat_read_exact],
    [fdAlloc_least], [sigProcMask_exact], [pathHitTable_longest],
    [timespec_roundtrip], [format_renders], [groups_roundtrip],
    [VMAR_copy_layout], [descriptors_sound], [readv_exact], [memcpy_memmove_correct], [ceilf_exact],
    [log_dump_exact], [locked_object_progress], [console_write_exact],
    [sbi_version_roundtrip], [sbi_services], [interrupts_read]) or show further defects ([pushdown_loses_tail],
    [deleted_entry_listed], [sendfile_moves_input],
    [long_console_write_hangs], [sigkill_masked_in_handler],
    [sigreturn_clobbers_a0], [futex_requeue_forgets],
    [held_sector_again_undefined], [gettimeofday_nanoseconds],
    [late_completion_undefined], [bss_not_cleared], [waitpid_misses_512],
    [copyout_overruns_mapping], [masked_signal_lost], [buddy_pow2_unusable],
    [root_first_entry_lost], [unchecked_descriptor_crashes],
    [writev_stops_at_size], [pselect_looks_once], [orphan_exit_panics],
    [rlimit_roundtrip_overruns], [reentrant_lock_stolen], [ring_overwrites],
    [nonblocking_sends_255], [getc_ignores_input], [proc_read_overruns],
    [user_exception_panics], [kernel_address_panics],
    [negative_syscall_undefined], [page_behind_segment_mapped]).

    ** Not modelled

    Compiler support (cxa.cc, typeinfo.hh) and third-party code (TLSF, EASTL
    apart from its heap) are not this program; the tests under src/tests and the
    programs under src/user are not the kernel. The UART and PLIC registers that
    boot sets have no effect on the modelled state. Left: the path and file steps
    of execve and testFATInit, which builds /proc and /dev. A directory entry that nobody
    refers to any more is destroyed in the code; the model keeps it until the
    environment removes it from the table, and the theorems hold for both. *)

From stdpp Require Export base list gmap strings.
From Stdlib Require Export ZArith Lia.

(** ** Outcomes of kernel code

    A kernel function either returns ([Done]), calls [panic] or fails an
    [assert] (utils/klibc.cc; both end in [sbi_shutdown]) ([Panic]), reads or
    writes outside an object, which C++ leaves undefined ([Undef]), or is still
    running when the step budget given to a loop is used up ([Diverge]). *)
Inductive outcome (A : Type) : Type :=
| Done (a : A)
| Panic
| Undef
| Diverge.
Arguments Done {A} a.
Arguments Panic {A}.
Arguments Undef {A}.
Arguments Diverge {A}.

Definition obind {A B : Type} (m : outcome A) (k : A -> outcome B) : outcome B :=
  match m with
  | Done a => k a
  | Panic => Panic
  | Undef => Undef
  | Diverge => Diverge
  end.

Declare Scope luo_scope.
Delimit Scope luo_scope with luo.
Notation "'let*' x ':=' m 'in' k" := (obind m (fun x => k))
  (at level 10, x pattern, m at level 100, k at level 200) : luo_scope.
Notation "m ';;;' k" := (obind m (fun _ => k))
  (at level 100, k at level 200, right associativity) : luo_scope.
Open Scope luo_scope.
Local Open Scope Z_scope.

(** [assert(cond)] of include/klib.h. *)
Definition passert (b : bool) : outcome unit := if b then Done tt else Panic.

(** ** Machine integers: a [w]-bit unsigned value is the representative in
    [0, 2^w), a signed one the representative in [-2^(w-1), 2^(w-1)). *)
Definition uwrap (w x : Z) : Z := x mod 2 ^ w.
Definition swrap (w x : Z) : Z := (x + 2 ^ (w - 1)) mod 2 ^ w - 2 ^ (w - 1).
Definition u8 (x : Z) : Z := x mod 256.
Definition u16 (x : Z) : Z := x mod 65536.
Definition u32 (x : Z) : Z := x mod 4294967296.
Definition u64 (x : Z) : Z := x mod 18446744073709551616.
Definition i32 (x : Z) : Z := (x + 2147483648) mod 4294967296 - 2147483648.
Definition i64 (x : Z) : Z :=
  (x + 9223372036854775808) mod 18446744073709551616 - 9223372036854775808.

Lemma u8_small x : 0 <= x < 256 -> u8 x = x.
Proof. apply Z.mod_small. Qed.
Lemma u16_small x : 0 <= x < 65536 -> u16 x = x.
Proof. apply Z.mod_small. Qed.
Lemma u32_small x : 0 <= x < 4294967296 -> u32 x = x.
Proof. apply Z.mod_small. Qed.
Lemma u64_small x : 0 <= x < 18446744073709551616 -> u64 x = x.
Proof. apply Z.mod_small. Qed.
Lemma i32_small x : -2147483648 <= x < 2147483648 -> i32 x = x.
Proof. intros. unfold i32. rewrite Z.mod_small; lia. Qed.
Lemma i64_small x : -9223372036854775808 <= x < 9223372036854775808 -> i64 x = x.
Proof. intros. unfold i64. rewrite Z.mod_small; lia. Qed.
Lemma u8_range x : 0 <= u8 x < 256.
Proof. unfold u8. apply Z.mod_pos_bound. lia. Qed.
Lemma u32_range x : 0 <= u32 x < 4294967296.
Proof. unfold u32. apply Z.mod_pos_bound. lia. Qed.
Lemma u64_range x : 0 <= u64 x < 18446744073709551616.
Proof. unfold u64. apply Z.mod_pos_bound. lia. Qed.

(** ** Arrays

    A C array is a [list]; an access outside it is [Undef]. [vat] is the total
    read used in specifications. *)
Definition aget {A : Type} (l : list A) (i : Z) : outcome A :=
  if i <? 0 then Undef
  else match l !! Z.to_nat i with Some v => Done v | None => Undef end.
Definition upd {A : Type} (l : list A) (i : Z) (v : A) : list A := <[Z.to_nat i := v]> l.
Definition aset {A : Type} (l : list A) (i : Z) (v : A) : outcome (list A) :=
  if (i <? 0) || (Z.of_nat (length l) <=? i) then Undef else Done (upd l i v).
Definition vat (l : list Z) (i : Z) : Z := default 0 (l !! Z.to_nat i).

Lemma last_removelast {A} (l : list A) x : last l = Some x -> l = removelast l ++ [x].
Proof. intros E. apply last_Some in E as [l' ->]. by rewrite removelast_last. Qed.

Lemma aget_vat (l : list Z) i :
  0 <= i < Z.of_nat (length l) -> aget l i = Done (vat l i).
Proof.
  intros H. unfold aget, vat.
  destruct (Z.ltb_spec i 0); [lia|].
  destruct (l !! Z.to_nat i) eqn:E; [done|].
  apply lookup_ge_None_1 in E. lia.
Qed.

Lemma aset_upd {A} (l : list A) i v :
  0 <= i < Z.of_nat (length l) -> aset l i v = Done (upd l i v).
Proof.
  intros H. unfold aset.
  destruct (Z.ltb_spec i 0); [lia|].
  destruct (Z.leb_spec (Z.of_nat (length l)) i); [lia|done].
Qed.

Lemma length_upd {A} (l : list A) i v : length (upd l i v) = length l.
Proof. apply length_insert. Qed.

Lemma vat_upd_eq l i v : 0 <= i < Z.of_nat (length l) -> vat (upd l i v) i = v.
Proof.
  intros H. unfold vat, upd. rewrite list_lookup_insert_eq; [done|lia].
Qed.

Lemma vat_upd_ne l i j v : 0 <= i -> 0 <= j -> i <> j -> vat (upd l i v) j = vat l j.
Proof.
  intros Hi Hj H. unfold vat, upd. rewrite list_lookup_insert_ne; [done|lia].
Qed.

Lemma aset_Done {A} (l l' : list A) i v :
  aset l i v = Done l' -> 0 <= i < Z.of_nat (length l) /\ l' = upd l i v.
Proof.
  unfold aset. destruct (Z.ltb_spec i 0); [done|].
  destruct (Z.leb_spec (Z.of_nat (length l)) i); [done|]. intros [=<-]. split; [lia|done].
Qed.

(** ** Computations that stop *)
Definition stops {A} (m : outcome A) : Prop := m <> Diverge.
Lemma stops_Done {A} (a : A) : stops (Done a).
Proof. done. Qed.
Lemma stops_Panic {A} : stops (@Panic A).
Proof. done. Qed.
Lemma stops_Undef {A} : stops (@Undef A).
Proof. done. Qed.
Lemma stops_bind {A B} (m : outcome A) (k : A -> outcome B) :
  stops m -> (forall a, m = Done a -> stops (k a)) -> stops (obind m k).
Proof. intros Hm Hk. destruct m; [by apply Hk|done..]. Qed.
Lemma stops_passert b : stops (passert b).
Proof. by destruct b. Qed.
Lemma stops_aget {A} (l : list A) i : stops (aget l i).
Proof. unfold aget. by repeat case_match. Qed.
Lemma stops_aset {A} (l : list A) i v : stops (aset l i v).
Proof. unfold aset. by case_match. Qed.

(** [ends m P]: [m] stops, and what it returns satisfies [P]. *)
Definition ends {A} (m : outcome A) (P : A -> Prop) : Prop :=
  match m with Done a => P a | Diverge => False | _ => True end.
Lemma ends_bind {A B} (m : outcome A) (k : A -> outcome B) (P : A -> Prop) (Q : B -> Prop) :
  ends m P -> (forall a, m = Done a -> P a -> ends (k a) Q) -> ends (obind m k) Q.
Proof. intros Hm Hk. destruct m; cbn in *; auto. Qed.
Lemma stops_ends {A} (m : outcome A) : stops m -> ends m (fun _ => True).
Proof. intros H. destruct m; cbn; auto. Qed.
Lemma ends_stops {A} (m : outcome A) P : ends m P -> stops m.
Proof. by destruct m. Qed.
Lemma ends_Done {A} (m : outcome A) (P : A -> Prop) a : ends m P -> m = Done a -> P a.
Proof. by intros H ->. Qed.

(** [rets m P]: what [m] returns, if it returns, satisfies [P]. *)
Definition rets {A} (m : outcome A) (P : A -> Prop) : Prop :=
  match m with Done a => P a | _ => True end.
Lemma rets_bind {A B} (m : outcome A) (k : A -> outcome B) (P : A -> Prop) (Q : B -> Prop) :
  rets m P -> (forall a, m = Done a -> P a -> rets (k a) Q) -> rets (obind m k) Q.
Proof. intros Hm Hk. destruct m; cbn in *; auto. Qed.
Lemma rets_skip {A B} (m : outcome A) (k : A -> outcome B) (Q : B -> Prop) :
  (forall a, m = Done a -> rets (k a) Q) -> rets (obind m k) Q.
Proof. intros Hk. destruct m; cbn in *; auto. Qed.
Lemma rets_mono {A} (m : outcome A) (P Q : A -> Prop) : rets m P -> (forall a, P a -> Q a) -> rets m Q.
Proof. destruct m; cbn; auto. Qed.
Lemma rets_Done {A} (m : outcome A) (P : A -> Prop) a : rets m P -> m = Done a -> P a.
Proof. by intros H ->. Qed.

(** ** Filters that keep nothing or everything *)
Lemma filter_none {B} (P : B -> Prop) `{!forall x, Decision (P x)} (l : list B) :
  (forall x, x ∈ l -> ~ P x) -> filter P l = [].
Proof.
  induction l as [|x l IH]; intros Hn; [done|]. rewrite filter_cons, decide_False by (apply Hn; set_solver).
  apply IH. set_solver.
Qed.
Lemma filter_all {B} (P : B -> Prop) `{!forall x, Decision (P x)} (l : list B) :
  (forall x, x ∈ l -> P x) -> filter P l = l.
Proof.
  induction l as [|x l IH]; intros Hn; [done|]. rewrite filter_cons, decide_True by (apply Hn; set_solver).
  f_equal. apply IH. set_solver.
Qed.

(** ** Tactics and hints of the library *)
Create HintDb luo.
Create Rewrite HintDb luo.
#[export] Hint Resolve u8_range u32_range u64_range : luo.
#[export] Hint Rewrite @length_upd : luo.

(** Split on the boolean comparison that guards a [match] or [if]. *)
Ltac bdestr :=
  match goal with
  | |- context [Z.ltb ?a ?b] => destruct (Z.ltb_spec a b)
  | |- context [Z.leb ?a ?b] => destruct (Z.leb_spec a b)
  | |- context [Z.eqb ?a ?b] => destruct (Z.eqb_spec a b)
  | H : context [Z.ltb ?a ?b] |- _ => destruct (Z.ltb_spec a b)
  | H : context [Z.leb ?a ?b] |- _ => destruct (Z.leb_spec a b)
  | H : context [Z.eqb ?a ?b] |- _ => destruct (Z.eqb_spec a b)
  end.

(** Split on the first equality test of the goal, naming the fact. *)
Ltac zeq E :=
  match goal with |- context [Z.eqb ?a ?b] => destruct (Z.eqb_spec a b) as [E|E] end.

(** Take a [let*] chain in a hypothesis apart. *)
Ltac odestr H :=
  match type of H with
  | obind ?m _ = Done _ =>
      let E := fresh "E" in destruct m eqn:E; cbn [obind] in H; [|discriminate H..]
  end.

#[export] Hint Resolve stops_Done stops_Panic stops_Undef stops_passert stops_aget stops_aset : luo.
(** Show that a [let*] chain stops, step by step. *)
Ltac stops_step :=
  match goal with
  | |- stops (obind _ _) => apply stops_bind; [|intros ? ?]
  | |- stops (let '(_, _) := ?x in _) => destruct x
  | |- stops (if ?b then _ else _) => destruct b eqn:?
  | |- stops (match ?x with _ => _ end) => destruct x eqn:?
  | |- stops _ => solve [eauto with luo]
  end.
Ltac stops_tac := repeat stops_step.

(** Powers of two at concrete or successor exponents. *)
Lemma pow2_S (k : nat) : 2 ^ Z.of_nat (S k) = 2 * 2 ^ Z.of_nat k.
Proof. rewrite Nat2Z.inj_succ, Z.pow_succ_r; lia. Qed.
Lemma pow2_pos (k : nat) : 0 < 2 ^ Z.of_nat k.
Proof. apply Z.pow_pos_nonneg; lia. Qed.
#[export] Hint Resolve pow2_pos : luo.
