(* ===== verification/Klib.v ===== *)
(** * Klib: the small templates of include/klib.hh

    [min], [max], [log2up] and the inclusive interval [Segment] that the
    memory-management components share, with the facts they rely on. *)

From S2P Require Import Prelude.
Local Open Scope Z_scope.

(** klib::min and klib::max: [a<b?a:b] and [a>b?a:b]. *)
Definition kmin (a b : Z) : Z := if a <? b then a else b.
Definition kmax (a b : Z) : Z := if b <? a then a else b.

(** The loop of klib::log2up: [for(i=0;a>1;a>>=1,i++) r|=a&1]. The binary
    representation of the positive [a] drives the recursion: dropping the
    lowest digit is [a>>=1], the digit itself is [a&1], and [xH] is [a==1]. *)
Fixpoint log2up_loop (a : positive) (i r : Z) : Z * Z :=
  match a with
  | xH => (i, r)
  | xO a' => log2up_loop a' (i + 1) (Z.lor r 0)
  | xI a' => log2up_loop a' (i + 1) (Z.lor r 1)
  end.

Definition log2up (a : Z) : Z :=
  match a with
  | Zpos p => let '(i, r) := log2up_loop p 0 0 in i + r
  | _ => 0
  end.

(** klib::Segment<T>: both ends included; [operator bool] is [l<=r]. *)
Record Segment : Type := mkSegment { sl : Z; sr : Z }.
Definition seg_and (a b : Segment) : Segment :=
  mkSegment (kmax (sl a) (sl b)) (kmin (sr a) (sr b)).
Definition seg_bool (a : Segment) : bool := sl a <=? sr a.
Definition seg_length (a : Segment) : Z := u64 (sr a - sl a + 1).

Lemma kmin_spec a b : kmin a b = Z.min a b.
Proof. unfold kmin. destruct (Z.ltb_spec a b); lia. Qed.
Lemma kmax_spec a b : kmax a b = Z.max a b.
Proof. unfold kmax. destruct (Z.ltb_spec b a); lia. Qed.
#[export] Hint Rewrite kmin_spec kmax_spec : luo.

(** The loop counts the digits and records whether one of them was set. *)
Lemma log2up_loop_spec p i r :
  (r = 0 \/ r = 1) ->
  let '(i', r') := log2up_loop p i r in
  i' = i + Z.log2 (Zpos p) /\
  r' = (if decide (Zpos p = 2 ^ Z.log2 (Zpos p)) then r else 1).
Proof.
  revert i r. induction p as [p IH|p IH|]; intros i r Hr.
  - cbn [log2up_loop].
    specialize (IH (i + 1) (Z.lor r 1)).
    assert (E : Z.lor r 1 = 1) by (destruct Hr as [-> | ->]; done).
    rewrite E in IH |- *. specialize (IH (or_intror eq_refl)).
    destruct (log2up_loop p (i + 1) 1) as [i' r'].
    rewrite Pos2Z.inj_xI, Z.log2_succ_double by lia.
    destruct IH as [-> ->]. split; [lia|].
    pose proof (Z.log2_nonneg (Zpos p)).
    rewrite Z.pow_succ_r by lia.
    repeat case_decide; try done; lia.
  - cbn [log2up_loop].
    specialize (IH (i + 1) (Z.lor r 0)). rewrite Z.lor_0_r in IH |- *.
    specialize (IH Hr). destruct (log2up_loop p (i + 1) r) as [i' r'].
    rewrite Pos2Z.inj_xO, Z.log2_double by lia.
    destruct IH as [-> ->]. split; [lia|].
    pose proof (Z.log2_nonneg (Zpos p)).
    rewrite Z.pow_succ_r by lia.
    repeat case_decide; try done; lia.
  - cbn. split; [lia|]. by rewrite decide_True.
Qed.

(** [log2up] rounds the binary logarithm up, and is 0 at 0. *)
Lemma log2up_log2_up a : 0 <= a -> log2up a = Z.log2_up a.
Proof.
  intros Ha. destruct a as [|p|p]; [done| |lia]. unfold log2up.
  pose proof (log2up_loop_spec p 0 0 (or_introl eq_refl)) as H.
  destruct (log2up_loop p 0 0) as [i' r']. destruct H as [-> ->].
  pose proof (Z.le_log2_log2_up (Zpos p)).
  pose proof (Z.le_log2_up_succ_log2 (Zpos p)).
  case_decide as E.
  - enough (Z.log2_up (Zpos p) = Z.log2 (Zpos p)) by lia.
    rewrite E at 1. apply Z.log2_up_pow2, Z.log2_nonneg.
  - enough (Z.log2_up (Zpos p) <> Z.log2 (Zpos p)) by lia.
    intros E'. apply E. symmetry in E'. apply Z.log2_log2_up_exact in E' as [b Hb]; [|lia].
    destruct (Z.le_gt_cases 0 b) as [Hb0|Hb0].
    + rewrite Hb at 2. by rewrite Z.log2_pow2.
    + rewrite Z.pow_neg_r in Hb; lia.
Qed.

Lemma log2up_bounds a : 1 <= a -> 0 <= log2up a /\ a <= 2 ^ log2up a /\
  (1 < a -> 2 ^ (log2up a - 1) < a).
Proof.
  intros Ha. rewrite log2up_log2_up by lia.
  split; [apply Z.log2_up_nonneg|].
  destruct (Z.eq_dec a 1) as [->|]; [done|].
  pose proof (Z.log2_up_spec a ltac:(lia)) as H.
  rewrite Z.sub_1_r. lia.
Qed.

Lemma log2up_pow2 (k : nat) : log2up (2 ^ Z.of_nat k) = Z.of_nat k.
Proof.
  rewrite log2up_log2_up by (pose proof (pow2_pos k); lia).
  apply Z.log2_up_pow2. lia.
Qed.

(** Two intervals meet exactly when their intersection is non-empty. *)
Lemma seg_and_in a b x :
  sl (seg_and a b) <= x <= sr (seg_and a b) <->
  (sl a <= x <= sr a) /\ (sl b <= x <= sr b).
Proof. unfold seg_and; cbn. rewrite kmax_spec, kmin_spec. lia. Qed.
