(* ===== verification/Lock.v ===== *)
(** * Lock: spin locks and guarded objects (include/lock.hh)

    [mutex::spinlock<reentrantalbe>] is a word taken by compare-and-exchange, and a
    depth for the reentrant variant. Its two functions are sequences of atomic
    accesses, one per step, so that several harts can interleave between them. A
    [LockedObject] hands out a [LockedPtr] whose constructor locks and whose
    destructor unlocks; the access in between reads the object and writes it back.
    The scheduler, the tables of tasks and processes and the heap use
    [spinlock<false>]; the page allocator and the kernel's address space use the
    default, the reentrant one. *)

From S2P Require Import Prelude.
Local Open Scope Z_scope.

Module Lock.

(** ** The lock *)

Record spinlock : Type := mkSpin { spin : Z; count : Z }.
Definition spinlock_new : spinlock := mkSpin 0 0.

(** std::atomic::compare_exchange_strong(expected, desired): success, the word and
    the value left in [expected]. *)
Definition compare_exchange_strong (word expected desired : Z) : bool * Z * Z :=
  if word =? expected then (true, desired, expected) else (false, word, word).

(** kernel::threadId: an int, which becomes an unsigned word in [lockedby]. *)
Definition kthreadIdBase : Z := i32 2147483648.
Definition threadId (hart : Z) : Z := i32 (kthreadIdBase + hart).

(** std::numeric_limits<count_t>::max() for the default [count_t]. *)
Definition count_max : Z := 18446744073709551615.

(** Where a hart is in lock(): before the first exchange of a turn (with [lockedby]
    and the turns left), before the second one, after the loop with [!b], returned. *)
Inductive lockpc : Type :=
| L_try (lockedby n : Z)
| L_own (lockedby n : Z)
| L_won
| L_ret (b : bool).

Section Spin.
Context (reentrantalbe : bool) (maxloops : Z).

Definition lock_enter (hart : Z) : lockpc :=
  L_try (if reentrantalbe then u32 (threadId hart) else 1) maxloops.

(** One atomic access of lock(). The second exchange is given [lockedby] for
    [expected] as well, and overwrites it when it fails. *)
Definition lock_step (p : lockpc) (l : spinlock) : lockpc * spinlock :=
  match p with
  | L_try lockedby n =>
      if n <=? 0 then
        (if maxloops =? count_max then L_try lockedby maxloops else L_ret false, l)
      else
        let '(ok, w, _) := compare_exchange_strong (spin l) 0 lockedby in
        (if ok then L_won
         else if reentrantalbe then L_own lockedby n else L_try lockedby (n - 1),
         mkSpin w (count l))
  | L_own lockedby n =>
      let '(ok, w, lockedby') := compare_exchange_strong (spin l) lockedby lockedby in
      (if ok then L_won else L_try lockedby' (n - 1), mkSpin w (count l))
  | L_won => (L_ret true, if reentrantalbe then mkSpin (spin l) (i32 (count l + 1)) else l)
  | L_ret b => (L_ret b, l)
  end.

Inductive unlockpc : Type := U_enter | U_test | U_ret.
Definition unlock_step (p : unlockpc) (l : spinlock) : unlockpc * spinlock :=
  match p with
  | U_enter =>
      if reentrantalbe then (U_test, mkSpin (spin l) (i32 (count l - 1)))
      else (U_ret, mkSpin 0 (count l))
  | U_test => (U_ret, if count l =? 0 then mkSpin 0 (count l) else l)
  | U_ret => (U_ret, l)
  end.

(** The functions run by one hart alone. *)
Fixpoint lock_run (fuel : nat) (p : lockpc) (l : spinlock) : outcome (bool * spinlock) :=
  match p with
  | L_ret b => Done (b, l)
  | _ => match fuel with
         | O => Diverge
         | S fuel => let '(p, l) := lock_step p l in lock_run fuel p l
         end
  end.
Definition lock (fuel : nat) (hart : Z) (l : spinlock) : outcome (bool * spinlock) :=
  lock_run fuel (lock_enter hart) l.
Definition unlock (l : spinlock) : spinlock :=
  let '(p, l) := unlock_step U_enter l in
  match p with U_ret => l | _ => snd (unlock_step p l) end.
End Spin.

(** ** Guarded objects on several harts *)

Section Guard.
Context {A : Type} (reentrantalbe : bool).
Implicit Types (op : A -> A).

(** A hart outside the object, in the constructor of the LockedPtr, in the access
    (before it reads the object, before it writes the object back) or in the
    destructor. *)
Inductive hartpc : Type :=
| Out
| Locking op (p : lockpc)
| Reading op
| Writing op (a : A)
| Unlocking (p : unlockpc).

(** [hist] is not state of the program: the accesses in the order of their writes. *)
Record LockedObject : Type := mkObj {
  lk : spinlock; object : A; harts : list hartpc; hist : list (A -> A) }.

Definition LockedObject_new (n : nat) (a : A) : LockedObject :=
  mkObj spinlock_new a (replicate n Out) [].

(** The constructor of lock_guard does not look at what lock() returned. *)
Definition hart_step (h : nat) (s : LockedObject) (p : hartpc) : LockedObject :=
  let go p l := mkObj l (object s) (<[h := p]> (harts s)) (hist s) in
  match p with
  | Out => s
  | Locking op (L_ret _) => go (Reading op) (lk s)
  | Locking op p =>
      let '(p, l) := lock_step reentrantalbe count_max p (lk s) in go (Locking op p) l
  | Reading op => go (Writing op (object s)) (lk s)
  | Writing op a =>
      mkObj (lk s) (op a) (<[h := Unlocking U_enter]> (harts s)) (hist s ++ [op])
  | Unlocking U_ret => go Out (lk s)
  | Unlocking p =>
      let '(p, l) := unlock_step reentrantalbe p (lk s) in go (Unlocking p) l
  end.

(** A hart begins an access through [operator->], or executes its next step. *)
Inductive label : Type := Call (h : nat) op | Run (h : nat).
Definition exec (e : label) (s : LockedObject) : option LockedObject :=
  match e with
  | Call h op =>
      match harts s !! h with
      | Some Out =>
          Some (mkObj (lk s) (object s)
                  (<[h := Locking op (lock_enter reentrantalbe count_max (Z.of_nat h))]> (harts s))
                  (hist s))
      | _ => None
      end
  | Run h => p ← harts s !! h; Some (hart_step h s p)
  end.
Fixpoint execs (es : list label) (s : LockedObject) : option LockedObject :=
  match es with [] => Some s | e :: es => s ← exec e s; execs es s end.

Inductive reachable (n : nat) (a : A) : LockedObject -> Prop :=
| reach_new : reachable n a (LockedObject_new n a)
| reach_step s e s' : reachable n a s -> exec e s = Some s' -> reachable n a s'.

(** A hart that owns the lock: it has taken it and not given it back. *)
Definition inside (p : hartpc) : bool :=
  match p with
  | Locking _ (L_won | L_ret _) | Reading _ | Writing _ _ | Unlocking U_enter => true
  | _ => false
  end.
Definition apply_all (a : A) (fs : list (A -> A)) : A := foldl (fun a f => f a) a fs.
End Guard.
Arguments LockedObject A : clear implicits.
Arguments hartpc A : clear implicits.
Arguments label A : clear implicits.

(** ** The plain lock: one hart at a time *)

Section Exclusion.
Context {A : Type} (a0 : A).
Implicit Types (s : LockedObject A).

(** The hart that owns the lock, if there is one, is the one that is inside. *)
Definition owned (o : option nat) (w : Z) (hs : list (hartpc A)) : Prop :=
  (w = match o with Some _ => 1 | None => 0 end /\
   match o with Some h => (h < length hs)%nat | None => True end) /\
  forall h p, hs !! h = Some p -> (inside p = true <-> o = Some h).

(** What the plain lock keeps: the positions it has, and a hart about to write has
    read the current object. *)
Definition pc_ok (a : A) (p : hartpc A) : Prop :=
  match p with
  | Locking _ (L_try lockedby _) => lockedby = 1
  | Locking _ (L_own _ _) | Unlocking U_test => False
  | Writing _ b => b = a
  | _ => True
  end.
Definition guarded s : Prop :=
  (exists o, owned o (spin (lk s)) (harts s)) /\
  (forall h p, harts s !! h = Some p -> pc_ok (object s) p) /\
  object s = apply_all a0 (hist s).

Lemma owned_same o w hs h p q :
  owned o w hs -> hs !! h = Some p -> inside q = inside p -> owned o w (<[h := q]> hs).
Proof.
  intros [Hw Ho] Hp E. split; [by rewrite length_insert|]. intros k r Hr.
  apply list_lookup_insert_Some in Hr as [(<- & <- & _)|[_ Hr]]; [|by apply Ho].
  rewrite E. by apply Ho.
Qed.
Lemma owned_take o hs h p q :
  owned o 0 hs -> hs !! h = Some p -> inside q = true -> owned (Some h) 1 (<[h := q]> hs).
Proof.
  intros [[Hw _] Ho] Hp E. destruct o; [done|]. split.
  { split; [done|]. rewrite length_insert. by eapply lookup_lt_Some. }
  intros k r Hr.
  apply list_lookup_insert_Some in Hr as [(<- & <- & _)|[Hn Hr]].
  - by rewrite E.
  - rewrite (Ho _ _ Hr). naive_solver.
Qed.
Lemma owned_give o w hs h p q :
  owned o w hs -> hs !! h = Some p -> inside p = true -> inside q = false ->
  owned None 0 (<[h := q]> hs).
Proof.
  intros [Hw Ho] Hp E E'. split; [done|]. intros k r Hr.
  assert (o = Some h) as -> by by apply (Ho _ _ Hp).
  apply list_lookup_insert_Some in Hr as [(<- & <- & _)|[Hn Hr]].
  - rewrite E'. naive_solver.
  - rewrite (Ho _ _ Hr). naive_solver.
Qed.
(** With a hart inside, the word is set and the others are outside. *)
Lemma owned_inside o w hs h p :
  owned o w hs -> hs !! h = Some p -> inside p = true ->
  w = 1 /\ forall k q, hs !! k = Some q -> inside q = true -> k = h.
Proof.
  intros [[Hw _] Ho] Hp E. assert (o = Some h) as -> by by apply (Ho _ _ Hp). split; [done|].
  intros k q Hq Hi. apply (Ho _ _ Hq) in Hi. congruence.
Qed.

Lemma pcs_insert (a : A) (hs : list (hartpc A)) h q :
  (forall k p, hs !! k = Some p -> pc_ok a p) -> pc_ok a q ->
  forall k p, <[h := q]> hs !! k = Some p -> pc_ok a p.
Proof.
  intros H Hq k p Hp. apply list_lookup_insert_Some in Hp as [(<- & <- & _)|[_ Hp]]; eauto.
Qed.

Lemma guarded_new n : guarded (LockedObject_new n a0).
Proof.
  split; [|split; [|done]].
  - exists None. split; [done|]. cbn. intros h p [-> _]%lookup_replicate. naive_solver.
  - cbn. by intros h p [-> _]%lookup_replicate.
Qed.

(** A step that leaves the object alone and keeps its hart on its side of the lock. *)
Lemma guarded_move s h p q l :
  guarded s -> harts s !! h = Some p -> inside q = inside p -> spin l = spin (lk s) ->
  pc_ok (object s) q -> guarded (mkObj l (object s) (<[h := q]> (harts s)) (hist s)).
Proof.
  intros ([o Ho] & Hp & E) Hh Hi Hl Hq. split; [exists o|split; [|done]]; cbn; [|by apply pcs_insert].
  rewrite Hl. by eapply owned_same.
Qed.

Lemma guarded_try s h op lockedby n :
  guarded s -> harts s !! h = Some (Locking op (L_try lockedby n)) ->
  guarded (hart_step false h s (Locking op (L_try lockedby n))).
Proof.
  intros HG Hh. destruct (HG) as ([o Ho] & Hp & E). pose proof (Hp _ _ Hh) as Hk. cbn in Hk.
  subst lockedby. unfold hart_step, lock_step, compare_exchange_strong. cbn -[count_max].
  destruct (n <=? 0).
  { by eapply guarded_move. }
  destruct (Z.eqb_spec (spin (lk s)) 0) as [E0|E0]; [|by eapply guarded_move].
  split; [exists (Some h)|split; [|done]]; cbn; [|by apply pcs_insert].
  rewrite E0 in Ho. by eapply owned_take.
Qed.

(** The write of a hart inside: nobody else has read the old object. *)
Lemma guarded_write s h op a :
  guarded s -> harts s !! h = Some (Writing op a) ->
  guarded (hart_step false h s (Writing op a)).
Proof.
  intros ([o Ho] & Hp & E) Hh. pose proof (Hp _ _ Hh) as Ha. cbn in Ha. subst a. cbn.
  split; [exists o|split]; cbn.
  - by eapply owned_same.
  - intros k p [(<- & <- & _)|[Hn Hk]]%list_lookup_insert_Some; [done|].
    pose proof (Hp _ _ Hk). destruct p as [| |op' |op' b|[]]; try done. exfalso. apply Hn. symmetry.
    by eapply (owned_inside _ _ _ _ _ Ho Hh).
  - unfold apply_all in *. rewrite foldl_app. cbn. by rewrite <- E.
Qed.

Lemma guarded_hart_step s h p :
  guarded s -> harts s !! h = Some p -> guarded (hart_step false h s p).
Proof.
  intros HG Hh. destruct (HG) as ([o Ho] & Hp & E). pose proof (Hp _ _ Hh) as Hk.
  destruct p as [|op [?|?| |?]|op|op a|[]]; try done.
  - by apply guarded_try.
  - by eapply guarded_move.
  - by eapply guarded_move.
  - by eapply guarded_move.
  - by apply guarded_write.
  - split; [exists None|split; [|done]]; cbn; [|by apply pcs_insert]. by eapply owned_give.
  - by eapply guarded_move.
Qed.

Lemma guarded_exec e s s' : guarded s -> exec false e s = Some s' -> guarded s'.
Proof.
  intros HG. destruct e as [h op|h]; cbn.
  - destruct (harts s !! h) as [[]|] eqn:Hh; try done. intros [= <-]. by eapply guarded_move.
  - destruct (harts s !! h) as [p|] eqn:Hh; [|done]. intros [= <-]. by apply guarded_hart_step.
Qed.

Lemma guarded_reachable n s : reachable false n a0 s -> guarded s.
Proof. induction 1; [apply guarded_new|by eapply guarded_exec]. Qed.
End Exclusion.

(** C8. A LockedObject under the plain spin lock, with any number of harts and any
    interleaving of the atomic accesses of lock() and unlock() and of the reads and
    writes in between: at most one hart is inside at a time, the word of the lock is
    1 exactly while one is, and the object is always what the accesses give when they
    are applied one after the other, so that no update is lost. *)
Theorem locked_object_atomic {A} n (a0 : A) s :
  reachable false n a0 s ->
  (forall i j p q, harts s !! i = Some p -> harts s !! j = Some q ->
     inside p = true -> inside q = true -> i = j) /\
  (spin (lk s) = 1 <-> exists h p, harts s !! h = Some p /\ inside p = true) /\
  object s = apply_all a0 (hist s).
Proof.
  intros ([o Ho] & _ & E)%guarded_reachable. split; [|split; [split|done]].
  - intros i j p q Hi Hj Pi Pj. by eapply (owned_inside _ _ _ _ _ Ho Hj).
  - destruct Ho as [[Hw Hl] Ho], o as [h|]; [intros _|lia].
    apply lookup_lt_is_Some in Hl as [p Hp]. exists h, p. split; [done|by apply (Ho _ _ Hp)].

  - intros (h & p & Hp & Hi). by eapply (owned_inside _ _ _ _ _ Ho Hp).
Qed.

Lemma reachable_execs {A} b n (a0 : A) es s s' :
  reachable b n a0 s -> execs b es s = Some s' -> reachable b n a0 s'.
Proof.
  revert s. induction es as [|e es IH]; cbn; intros s Hs; [by intros [= <-]|].
  destruct (exec b e s) as [t|] eqn:E; [|done]. apply IH. by eapply reach_step.
Qed.

(** The example run: hart 1 finds the object taken by hart 0 and waits for it. *)
Definition two_harts : list (label Z) :=
  [Call 0 (Z.add 1); Run 0; Call 1 (Z.mul 3); Run 1; Run 0; Run 0; Run 0; Run 1; Run 0; Run 0;
   Run 0; Run 1; Run 1; Run 1; Run 1].

Lemma locked_object_atomic_witness :
  exists s, execs false two_harts (LockedObject_new 2 5) = Some s /\
    harts s = [Out; Writing (Z.mul 3) 6] /\ object s = apply_all 5 (hist s).
Proof.
  destruct (execs false two_harts (LockedObject_new 2 5)) as [s|] eqn:E; [|by vm_compute in E].
  exists s. split; [done|]. split; [by vm_compute in E; injection E as <-|].
  apply (locked_object_atomic 2 5 s). eapply reachable_execs; [apply reach_new|exact E].
Defined.

(** ** Progress: a hart that runs alone leaves the object *)

Definition steps_left {A} (p : hartpc A) : nat :=
  match p with
  | Locking _ (L_try _ n) => if n <=? 0 then 9 else 8
  | Locking _ (L_own _ _) => 0
  | Locking _ L_won => 7 | Locking _ (L_ret _) => 6
  | Reading _ => 5 | Writing _ _ => 4
  | Unlocking U_enter => 3 | Unlocking U_test => 2 | Unlocking U_ret => 1
  | Out => 0
  end.

Lemma exec_run {A} b h (s : LockedObject A) p :
  harts s !! h = Some p -> exec b (Run h) s = Some (hart_step b h s p).
Proof. intros H. cbn. by rewrite H. Qed.
Lemma lookup_insert_self {B} (l : list B) h p q : l !! h = Some p -> <[h := q]> l !! h = Some q.
Proof. intros H. apply list_lookup_insert_eq. by eapply lookup_lt_Some. Qed.

(** A hart that is inside, or that finds the word free, gets nearer to leaving. *)
Lemma solo_step {A} (s : LockedObject A) h p :
  harts s !! h = Some p -> pc_ok (object s) p -> p <> Out -> inside p = true \/ spin (lk s) = 0 ->
  let s' := hart_step false h s p in
  exists q, harts s' !! h = Some q /\ pc_ok (object s') q /\ (steps_left q < steps_left p)%nat /\
    (inside q = true \/ spin (lk s') = 0).
Proof.
  intros Hh Hp Ho Hi. destruct p as [|op [lb n|?| |?]|op|op a|[]]; try done;
    try (eexists; split; [by eapply lookup_insert_self|]; cbn in *; auto with lia; fail).
  cbn in Hp, Hi. subst lb. destruct Hi as [?|Hi]; [done|].
  unfold hart_step, lock_step, compare_exchange_strong. rewrite Hi. cbn -[count_max].
  destruct (Z.leb_spec n 0);
    (eexists; split; [by eapply lookup_insert_self|]; cbn -[count_max]; split; [done|]).
  - destruct (Z.leb_spec n 0); [|lia]. split; [vm_compute; lia|by right].
  - destruct (Z.leb_spec n 0); [lia|]. split; [lia|by left].
Qed.

Lemma solo_leaves {A} k (s : LockedObject A) h p :
  (steps_left p <= k)%nat -> harts s !! h = Some p -> pc_ok (object s) p ->
  inside p = true \/ spin (lk s) = 0 ->
  exists m s', (m <= k)%nat /\ execs false (replicate m (Run h)) s = Some s' /\ harts s' !! h = Some Out.
Proof.
  revert s p. induction k as [|k IH]; intros s p Hk Hh Hp Hi.
  - destruct p as [|op [lb n|?| |?]|op|op a|[]]; cbn in Hk; try lia; try done; [by exists 0%nat, s|].
    case_match; lia.
  - assert (p = Out \/ p <> Out) as [->|Hn] by (destruct p; auto); [exists 0%nat, s; auto with lia|].
    destruct (solo_step s h p Hh Hp Hn Hi) as (q & Hq & Hq' & Hlt & Hi').
    destruct (IH (hart_step false h s p) q) as (m & s' & Hm & Hs & Ho); [lia|done..|].
    exists (S m), s'. split; [lia|]. split; [|done]. cbn [replicate execs].
    by rewrite (exec_run _ _ _ _ Hh).
Qed.

(** The plain lock does not deadlock: as long as a hart wants the object or holds
    it, there is one that has left it after at most nine steps of its own. *)
Theorem locked_object_progress {A} n (a0 : A) s h p :
  reachable false n a0 s -> harts s !! h = Some p -> p <> Out ->
  exists k p' m s', harts s !! k = Some p' /\ p' <> Out /\ (m <= 9)%nat /\
    execs false (replicate m (Run k)) s = Some s' /\ harts s' !! k = Some Out.
Proof.
  intros ([o Ho] & Hp & _)%guarded_reachable Hh Hn.
  assert (exists k q, harts s !! k = Some q /\ q <> Out /\ (inside q = true \/ spin (lk s) = 0))
    as (k & q & Hk & Hq & Hi).
  { destruct Ho as [[Hw Hl] Ho], o as [k|]; [|by eauto 10].
    apply lookup_lt_is_Some in Hl as [q Hq]. exists k, q.
    assert (inside q = true) as Hi by by apply (Ho _ _ Hq). split; [done|]. split; [|by left].
    by intros ->. }
  destruct (solo_leaves 9 s k q) as (m & s' & Hm & Hs & Hout); eauto 20.
  clear. destruct q as [|op [lb m|?| |?]|op|op a|[]]; cbn; try lia. destruct (m <=? 0); lia.
Qed.

(** ** The reentrant lock *)

(** The word that names a hart. *)
Definition holder (hart : Z) : Z := u32 (threadId hart).
Lemma holder_val hart : 0 <= hart < 2147483648 -> holder hart = 2147483648 + hart.
Proof.
  intros H. unfold holder, threadId, kthreadIdBase, i32, u32.
  replace ((2147483648 + 2147483648) mod 4294967296 - 2147483648) with (-2147483648) by done.
  rewrite (Z.mod_small (-2147483648 + hart + 2147483648)) by lia.
  rewrite <- (Z.mod_add _ 1) by lia. rewrite Z.mod_small; lia.
Qed.

(** The lock held [d] times by a hart that nobody disturbs. *)
Definition held (hart : Z) (d : nat) : spinlock :=
  mkSpin (match d with O => 0 | S _ => holder hart end) (Z.of_nat d).

(** A well-bracketed piece of code on one hart: [true] locks, [false] unlocks. *)
Fixpoint bracket (hart : Z) (ops : list bool) (l : spinlock) : outcome spinlock :=
  match ops with
  | [] => Done l
  | true :: ops => let* r := lock true count_max 3 hart l in bracket hart ops (snd r)
  | false :: ops => bracket hart ops (unlock true l)
  end.
Fixpoint depth (ops : list bool) (d : nat) : option nat :=
  match ops with
  | [] => Some d
  | true :: ops => depth ops (S d)
  | false :: ops => match d with O => None | S d => depth ops d end
  end.

Lemma lock_held hart d :
  0 <= hart < 2147483648 -> Z.of_nat d < 2147483647 ->
  lock true count_max 3 hart (held hart d) = Done (true, held hart (S d)).
Proof.
  intros Hh Hd. pose proof (holder_val hart Hh) as E. unfold lock, lock_enter, held. fold (holder hart).
  destruct d as [|d]; cbn -[holder i32 Z.of_nat]; [done|].
  unfold compare_exchange_strong at 1. destruct (Z.eqb_spec (holder hart) 0); [lia|].
  cbn -[holder i32 Z.of_nat]. unfold compare_exchange_strong. rewrite Z.eqb_refl.
  cbn -[holder i32 Z.of_nat]. rewrite i32_small by lia. repeat f_equal. lia.
Qed.
Lemma unlock_held hart d : Z.of_nat d < 2147483647 -> unlock true (held hart (S d)) = held hart d.
Proof.
  intros Hd. unfold unlock. cbn -[holder i32 Z.of_nat]. rewrite i32_small by lia.
  replace (Z.of_nat (S d) - 1) with (Z.of_nat d) by lia. by destruct d.
Qed.

(** Nested locking by one hart: whatever well-bracketed code it runs, every call
    returns, the lock stays with the hart until the outermost unlock, and the count
    is the depth. *)
Theorem reentrant_nesting hart ops d d' :
  0 <= hart < 2147483648 -> Z.of_nat d + Z.of_nat (length ops) < 2147483647 ->
  depth ops d = Some d' -> bracket hart ops (held hart d) = Done (held hart d').
Proof.
  intros Hh. revert d. induction ops as [|[] ops IH]; intros d; cbn [bracket depth length]; [naive_solver|..].
  - intros Hd E. rewrite lock_held by lia. cbn -[held]. apply IH; [lia|done].
  - intros Hd E. destruct d as [|d]; [done|]. rewrite unlock_held by lia. apply IH; [lia|done].
Qed.

(** The plain lock taken again by its holder never returns. *)
Theorem plain_relock_hangs fuel hart c :
  lock false count_max fuel hart (mkSpin 1 c) = Diverge.
Proof.
  unfold lock, lock_enter. generalize count_max at 2 as n. revert c.
  induction fuel as [|fuel IH]; intros c n; [done|]. cbn -[count_max].
  destruct (n <=? 0); cbn -[count_max]; apply IH.
Qed.

(** The turns of a hart that waits for another one: the second exchange fails and
    leaves the word of the holder in [lockedby], with which the next turn succeeds. *)
Lemma try_fails w c lockedby n :
  w <> 0 -> 0 < n ->
  lock_step true count_max (L_try lockedby n) (mkSpin w c) = (L_own lockedby n, mkSpin w c).
Proof.
  intros Hw Hn. cbn -[count_max]. destruct (Z.leb_spec n 0); [lia|].
  unfold compare_exchange_strong. cbn. by destruct (Z.eqb_spec w 0).
Qed.
Lemma own_fails w c lockedby n :
  w <> lockedby ->
  lock_step true count_max (L_own lockedby n) (mkSpin w c) = (L_try w (n - 1), mkSpin w c).
Proof. intros Hw. cbn. unfold compare_exchange_strong. by destruct (Z.eqb_spec w lockedby). Qed.
Lemma own_succeeds w c n :
  lock_step true count_max (L_own w n) (mkSpin w c) = (L_won, mkSpin w c).
Proof. cbn. unfold compare_exchange_strong. by rewrite Z.eqb_refl. Qed.

Section Stolen.
Context {A : Type} (l : spinlock) (a : A) (hs : list (hartpc A)) (hi : list (A -> A)).
Implicit Types (es : list (label A)).

Lemma run_locking b h op p q l' es :
  hs !! h = Some (Locking op p) -> lock_step b count_max p l = (q, l') -> (forall r, p <> L_ret r) ->
  execs b (Run h :: es) (mkObj l a hs hi) = execs b es (mkObj l' a (<[h := Locking op q]> hs) hi).
Proof.
  intros Hh E Hr. cbn [execs exec harts]. rewrite Hh. cbn [mbind option_bind hart_step].
  destruct p; try (cbn [lk]; rewrite E; done). by destruct (Hr b0).
Qed.
Lemma run_entered b h op r es :
  hs !! h = Some (Locking op (L_ret r)) ->
  execs b (Run h :: es) (mkObj l a hs hi) = execs b es (mkObj l a (<[h := Reading op]> hs) hi).
Proof. intros Hh. cbn [execs exec harts]. by rewrite Hh. Qed.
Lemma run_call b h op es :
  hs !! h = Some Out ->
  execs b (Call h op :: es) (mkObj l a hs hi)
  = execs b es (mkObj l a (<[h := Locking op (lock_enter b count_max (Z.of_nat h))]> hs) hi).
Proof. intros Hh. cbn [execs exec harts]. by rewrite Hh. Qed.
End Stolen.

(** The next step of lock() at the head of a run, by [tac]. *)
Ltac lock_go tac :=
  erewrite run_locking; [|by eapply lookup_insert_self|tac|done]; rewrite list_insert_insert_eq.

(** The reentrant lock, the default of LockedObject, does not exclude: whatever
    hart owns it, another one that calls lock() goes in after two turns of its loop,
    while the first is still inside, because the failed exchange of the first turn has
    replaced its own name by the owner's. The word and the object are as they were,
    the count is one higher. *)
Theorem reentrant_lock_stolen {A} (s : LockedObject A) i op :
  harts s !! i = Some Out -> spin (lk s) <> 0 -> spin (lk s) <> holder (Z.of_nat i) ->
  execs true (Call i op :: replicate 6 (Run i)) s
  = Some (mkObj (mkSpin (spin (lk s)) (i32 (count (lk s) + 1))) (object s)
            (<[i := Reading op]> (harts s)) (hist s)).
Proof.
  destruct s as [[w c] a hs hi]. cbn [harts lk spin object count hist]. intros Hi Hw Hn.
  rewrite run_call by done. cbn [replicate]. unfold lock_enter. fold (holder (Z.of_nat i)).
  lock_go ltac:(by apply try_fails). lock_go ltac:(by apply own_fails).
  lock_go ltac:(by apply try_fails). lock_go ltac:(by apply own_succeeds).
  lock_go ltac:(reflexivity).
  erewrite run_entered; [|by eapply lookup_insert_self].
  by rewrite list_insert_insert_eq.
Qed.

(** Hart 1 owns the object of two harts and has read it. *)
Definition taken : list (label Z) := [Call 1 (Z.add 1); Run 1; Run 1; Run 1; Run 1].

Lemma reentrant_lock_stolen_witness :
  exists s s', execs true taken (LockedObject_new 2 7) = Some s /\
    execs true (Call 0 (Z.mul 2) :: replicate 6 (Run 0)) s = Some s' /\
    harts s' = [Reading (Z.mul 2); Writing (Z.add 1) 7].
Proof.
  destruct (execs true taken (LockedObject_new 2 7)) as [s|] eqn:E; [|by vm_compute in E].
  exists s. eexists. split; [done|]. split.
  - apply (reentrant_lock_stolen s 0 (Z.mul 2)); vm_compute in E; by injection E as <-.
  - vm_compute in E. by injection E as <-.
Defined.

(** With it an update is lost: two harts access the object, both leave it, the lock
    is free again, and the object is what one of the two accesses makes of it. *)
Definition lost_run {A} (f g : A -> A) : list (label A) :=
  [Call 1 f; Run 1; Run 1; Run 1; Run 1; Call 0 g] ++ replicate 11 (Run 0) ++ replicate 4 (Run 1).
Theorem reentrant_update_lost {A} (a : A) f g :
  execs true (lost_run f g) (LockedObject_new 2 a)
  = Some (mkObj spinlock_new (f a) [Out; Out] [g; f]).
Proof. reflexivity. Qed.

End Lock.
