(* ===== verification/Libm.v ===== *)
(** * Libm: ceilf on the bits of a float (utils/klibc.cc)

    The hash tables of the kernel size themselves with [ceilf]. The function works
    on the 32-bit pattern of its argument; the number a pattern stands for is an
    integer multiple of 2^-149, the smallest positive float, so that the result can
    be compared with the mathematical ceiling over the integers. *)

From S2P Require Import Prelude.
Local Open Scope Z_scope.

Module Libm.

(** ceilf. The argument and the result are bit patterns (asuint, asfloat); [fadd] is
    the addition of the floating-point unit, used for infinities and NaNs only. *)
Definition ceilf (fadd : Z -> Z -> Z) (x : Z) : Z :=
  let i0 := i32 x in
  let ix := Z.land i0 2147483647 in
  let j0 := Z.shiftr ix 23 - 127 in
  if j0 <? 23 then
    if j0 <? 0 then
      if i0 <? 0 then 2147483648
      else if negb (ix =? 0) then 1065353216 else u32 i0
    else
      let i := Z.shiftr 8388607 j0 in
      if Z.land (u32 i0) i =? 0 then x
      else
        let i0 := if 0 <? i0 then i32 (i0 + Z.shiftr 8388608 j0) else i0 in
        Z.land (u32 i0) (u32 (Z.lnot i))
  else if negb (ix <? 2139095040) then fadd x x
  else x.

(** ** The number of a pattern *)

(** Exponent field and fraction of the low 31 bits, in units of 2^-149. *)
Definition mag (ix : Z) : Z :=
  let e := ix / 8388608 in let m := ix mod 8388608 in
  if e =? 0 then m else (8388608 + m) * 2 ^ (e - 1).
Definition fval (w : Z) : Z :=
  if w <? 2147483648 then mag w else - mag (w - 2147483648).
Definition one : Z := 2 ^ 149.
(** The least integer at or above [a / b], as [b] times it. *)
Definition ceil_to (b a : Z) : Z := b * - ((- a) / b).

Lemma mag_at e m : 1 <= e -> 0 <= m <= 8388608 -> mag (e * 8388608 + m) = (8388608 + m) * 2 ^ (e - 1).
Proof.
  intros He Hm. unfold mag. destruct (decide (m = 8388608)) as [->|Hne].
  - replace (e * 8388608 + 8388608) with ((e + 1) * 8388608) by lia.
    rewrite Z.div_mul, Z.mod_mul by lia. destruct (Z.eqb_spec (e + 1) 0); [lia|].
    replace (e + 1 - 1) with (Z.succ (e - 1)) by lia. rewrite Z.pow_succ_r by lia. lia.
  - rewrite Z.div_add_l, Z.div_small, (Z.add_comm (e * _)), Z.mod_add, Z.mod_small by lia.
    rewrite Z.add_0_r. destruct (Z.eqb_spec e 0); [lia|done].
Qed.
Lemma mag_nonneg ix : 0 <= ix -> 0 <= mag ix.
Proof.
  intros H. unfold mag. pose proof (Z.mod_pos_bound ix 8388608 ltac:(lia)).
  destruct (_ =? 0); [lia|]. pose proof (Z.pow_nonneg 2 (ix / 8388608 - 1)). nia.
Qed.
(** Below the pattern of 1.0 the number is below one. *)
Lemma mag_small ix : 0 <= ix -> ix / 8388608 < 127 -> mag ix < one.
Proof.
  intros H He. unfold mag, one. pose proof (Z.mod_pos_bound ix 8388608 ltac:(lia)).
  pose proof (Z.div_pos ix 8388608 H ltac:(lia)).
  destruct (Z.eqb_spec (ix / 8388608) 0); [lia|].
  assert (2 ^ (ix / 8388608 - 1) <= 2 ^ 125) by (apply Z.pow_le_mono_r; lia).
  pose proof (Z.pow_pos_nonneg 2 (ix / 8388608 - 1) ltac:(lia) ltac:(lia)). nia.
Qed.
Lemma mag_pos ix : 0 < ix -> 0 < mag ix.
Proof.
  intros H. unfold mag. pose proof (Z.mod_pos_bound ix 8388608 ltac:(lia)).
  pose proof (Z.div_mod ix 8388608 ltac:(lia)). pose proof (Z.div_pos ix 8388608 ltac:(lia) ltac:(lia)).
  destruct (Z.eqb_spec (ix / 8388608) 0); [lia|].
  pose proof (Z.pow_pos_nonneg 2 (ix / 8388608 - 1) ltac:(lia) ltac:(lia)). nia.
Qed.

(** [n] is the ceiling of a number between [n-1] and [n]. *)
Lemma ceil_unique b a n : 0 < b -> b * (n - 1) < a <= b * n -> ceil_to b a = b * n.
Proof.
  intros Hb Ha. unfold ceil_to. f_equal.
  assert ((- a) / b = - n) as ->; [|lia]. symmetry. apply (Z.div_unique _ _ _ (b * n - a)); lia.
Qed.

(** Clearing the low bits of a word. *)
Lemma clear_low x k : 0 <= x < 4294967296 -> 0 <= k -> Z.land x (u32 (Z.lnot (Z.ones k))) = x - x mod 2 ^ k.
Proof.
  intros Hx Hk. unfold u32. change 4294967296 with (2 ^ 32). rewrite <- Z.land_ones by lia.
  rewrite (Z.land_comm (Z.lnot _)), Z.land_assoc, Z.land_ones, Z.mod_small by lia.
  rewrite <- Z.ldiff_land, Z.ldiff_ones_r, Z.shiftl_mul_pow2, Z.shiftr_div_pow2 by lia.
  pose proof (Z.div_mod x (2 ^ k) ltac:(lia)). lia.
Qed.

(** A number from 1 to 2^23: the exponent is [127+j] and [k = 23-j] bits of the
    fraction are behind the point. *)
Section Middle.
Context (j m : Z) (Hj : 0 <= j < 23) (Hm : 0 <= m < 8388608).
Let k := 23 - j.
Let ix := (127 + j) * 8388608 + m.
Let q := (8388608 + m) / 2 ^ k.
Let r := m mod 2 ^ k.

Lemma middle_split : 8388608 = 2 ^ k * 2 ^ j /\ 8388608 + m = 2 ^ k * q + r /\ 0 <= r < 2 ^ k.
Proof.
  assert (8388608 = 2 ^ k * 2 ^ j) as E.
  { unfold k. rewrite <- Z.pow_add_r by lia. by replace (23 - j + j) with 23 by lia. }
  pose proof (Z.pow_pos_nonneg 2 k ltac:(lia) ltac:(lia)).
  split; [done|]. unfold q, r. split; [|by apply Z.mod_pos_bound].
  rewrite E, Z.add_comm, (Z.mul_comm (2 ^ k)), Z.div_add by lia.
  pose proof (Z.div_mod m (2 ^ k) ltac:(lia)). lia.
Qed.
Lemma middle_one : one = 2 ^ k * 2 ^ (126 + j).
Proof. unfold one, k. rewrite <- Z.pow_add_r by lia. f_equal. lia. Qed.
Lemma middle_low : ix mod 2 ^ k = r.
Proof.
  destruct middle_split as (E & _). unfold ix, r. rewrite E at 1.
  replace ((127 + j) * (2 ^ k * 2 ^ j) + m) with (m + ((127 + j) * 2 ^ j) * 2 ^ k) by lia.
  apply Z.mod_add. pose proof (Z.pow_pos_nonneg 2 k ltac:(lia) ltac:(lia)). lia.
Qed.
Lemma middle_mag : mag ix = (2 ^ k * q + r) * 2 ^ (126 + j).
Proof.
  destruct middle_split as (_ & E & _). unfold ix. rewrite mag_at by lia. rewrite <- E.
  f_equal. f_equal. lia.
Qed.
Lemma middle_down : mag (ix - r) = one * q.
Proof.
  destruct middle_split as (E1 & E & Hr). rewrite middle_one. unfold ix.
  replace ((127 + j) * 8388608 + m - r) with ((127 + j) * 8388608 + (m - r)) by lia.
  assert (r <= m) by (unfold r; apply Z.mod_le; lia).
  rewrite mag_at by lia. replace (127 + j - 1) with (126 + j) by lia. nia.
Qed.
Lemma middle_up : 0 < r -> mag (ix - r + 2 ^ k) = one * (q + 1).
Proof.
  intros Hr0. destruct middle_split as (E1 & E & Hr). rewrite middle_one. unfold ix.
  replace ((127 + j) * 8388608 + m - r + 2 ^ k) with ((127 + j) * 8388608 + (m - r + 2 ^ k)) by lia.
  assert (r <= m) by (unfold r; apply Z.mod_le; lia).
  assert (m - r + 2 ^ k <= 8388608).
  { assert (0 < 2 ^ k) by lia. assert (0 < 2 ^ j) by (apply Z.pow_pos_nonneg; lia).
    assert (q < 2 * 2 ^ j) by nia. nia. }
  rewrite mag_at by lia. replace (127 + j - 1) with (126 + j) by lia. nia.
Qed.
End Middle.

Lemma one_pos : 0 < one.
Proof. by vm_compute. Qed.
Lemma ceil_to_multiple b n : 0 < b -> ceil_to b (b * n) = b * n.
Proof. intros Hb. apply ceil_unique; nia. Qed.

(** The fields of a pattern as ceilf reads them. *)
Lemma fields (neg : bool) ix :
  0 <= ix < 2147483648 -> let w := (if neg then 2147483648 else 0) + ix in
  i32 w = ix - (if neg then 2147483648 else 0) /\ u32 (i32 w) = w /\ Z.land (i32 w) 2147483647 = ix.
Proof.
  intros Hx w. assert (i32 w = ix - (if neg then 2147483648 else 0)) as E.
  { unfold w, i32. destruct neg; [|rewrite Z.mod_small; lia].
    replace (2147483648 + ix + 2147483648) with (ix + 1 * 4294967296) by lia.
    rewrite Z.mod_add, Z.mod_small by lia. lia. }
  split; [done|]. rewrite E. split.
  - unfold u32, w. destruct neg; [|rewrite Z.mod_small; lia].
    rewrite <- (Z.mod_add _ 1) by lia. rewrite Z.mod_small; lia.
  - change 2147483647 with (Z.ones 31). rewrite Z.land_ones by lia. destruct neg.
    + rewrite <- (Z.mod_add _ 1) by lia. rewrite Z.mod_small; lia.
    + rewrite Z.mod_small; lia.
Qed.
Lemma fval_sign (neg : bool) ix : 0 <= ix < 2147483648 ->
  fval ((if neg then 2147483648 else 0) + ix) = if neg then - mag ix else mag ix.
Proof.
  intros H. unfold fval. destruct neg, (Z.ltb_spec (2147483648 + ix) 2147483648),
    (Z.ltb_spec (0 + ix) 2147483648); try lia; f_equal; f_equal; lia.
Qed.

(** Magnitudes from 2^23 on are integers. *)
Lemma mag_integral ix : 0 <= ix -> 150 <= ix / 8388608 -> exists n, mag ix = one * n.
Proof.
  intros H He. unfold mag, one. destruct (Z.eqb_spec (ix / 8388608) 0); [lia|].
  exists ((8388608 + ix mod 8388608) * 2 ^ (ix / 8388608 - 150)).
  replace (ix / 8388608 - 1) with (149 + (ix / 8388608 - 150)) by lia.
  rewrite Z.pow_add_r by lia. lia.
Qed.

Lemma ceilf_middle fadd (neg : bool) ix :
  0 <= ix < 2139095040 -> 127 <= ix / 8388608 < 150 ->
  let w := (if neg then 2147483648 else 0) + ix in fval (ceilf fadd w) = ceil_to one (fval w).
Proof.
  intros Hx He w. destruct (fields neg ix ltac:(lia)) as (E1 & E2 & E3). fold w in E1, E2, E3.
  pose proof (Z.div_mod ix 8388608 ltac:(lia)) as Ed. pose proof (Z.mod_pos_bound ix 8388608 ltac:(lia)).
  remember (ix / 8388608 - 127) as j eqn:Ej. set (m := ix mod 8388608) in *.
  assert (ix = (127 + j) * 8388608 + m) as Ex by lia.
  destruct (middle_split j m ltac:(lia)) as (_ & Hq & Hr).
  pose proof (middle_low j m ltac:(lia)) as Hlow. rewrite <- Ex in Hlow.
  pose proof (middle_mag j m ltac:(lia) ltac:(lia)) as Hmag. rewrite <- Ex in Hmag.
  pose proof (middle_down j m ltac:(lia) ltac:(lia)) as Hdn. rewrite <- Ex in Hdn.
  pose proof (middle_up j m ltac:(lia) ltac:(lia)) as Hup. rewrite <- Ex in Hup.
  pose proof (middle_one j m ltac:(lia)) as Hone. pose proof one_pos.
  remember (23 - j) as k eqn:Ek. remember ((8388608 + m) / 2 ^ k) as q. remember (m mod 2 ^ k) as r.
  assert (Z.shiftr 8388607 j = Z.ones k) as Ei.
  { change 8388607 with (Z.ones 23). rewrite Z.shiftr_div_pow2, Z.ones_div_pow2 by lia. by subst k. }
  assert (Z.shiftr 8388608 j = 2 ^ k) as Es.
  { change 8388608 with (2 ^ 23). rewrite Z.shiftr_div_pow2, <- Z.pow_sub_r by lia. by subst k. }
  assert (0 < 2 ^ k <= 8388608).
  { split; [apply Z.pow_pos_nonneg; lia|]. change 8388608 with (2 ^ 23). apply Z.pow_le_mono_r; lia. }
  assert (w mod 2 ^ k = r) as Hw.
  { unfold w. destruct neg; [|by rewrite Z.add_0_l].
    replace (2147483648 + ix) with (ix + 2 ^ (31 - k) * 2 ^ k);
      [by rewrite Z.mod_add by lia|]. rewrite <- Z.pow_add_r by lia.
    replace (31 - k + k) with 31 by lia. lia. }
  assert (0 < 2 ^ (126 + j)) by (apply Z.pow_pos_nonneg; lia).
  assert (one * q + r * 2 ^ (126 + j) = mag ix /\ 0 <= r * 2 ^ (126 + j) < one) as [Ha Hb] by nia.
  clear Hmag Hone Heqq Hq.
  unfold ceilf. rewrite E3, E2, Z.shiftr_div_pow2 by lia. change (2 ^ 23) with 8388608.
  rewrite <- Ej, Ei, Es, Z.land_ones, Hw by lia.
  destruct (Z.ltb_spec j 23); [|lia]. destruct (Z.ltb_spec j 0); [lia|].
  destruct (Z.eqb_spec r 0) as [E0|E0].
  { unfold w. rewrite fval_sign by lia. symmetry. rewrite E0 in Ha. destruct neg.
    - replace (- mag ix) with (one * (- q)) by lia. by apply ceil_to_multiple.
    - replace (mag ix) with (one * q) by lia. by apply ceil_to_multiple. }
  assert (0 < r * 2 ^ (126 + j)) by nia. rewrite E1. unfold w. rewrite fval_sign by lia.
  symmetry. destruct neg.
  - destruct (Z.ltb_spec 0 (ix - 2147483648)); [lia|]. rewrite <- E1, E2.
    rewrite clear_low, Hw by (unfold w; lia).
    replace (w - r) with (2147483648 + (ix - r)) by (unfold w; lia).
    rewrite (fval_sign true) by (pose proof (Z.mod_le ix (2 ^ k)); lia). rewrite Hdn.
    replace (- (one * q)) with (one * (- q)) by lia. apply ceil_unique; lia.
  - rewrite Z.sub_0_r. destruct (Z.ltb_spec 0 ix); [|lia].
    rewrite i32_small, u32_small by lia. rewrite clear_low by lia.
    rewrite <- (Z.mul_1_l (2 ^ k)) at 2. rewrite Z.mod_add, Hlow by lia.
    replace (ix + 2 ^ k - r) with (0 + (ix - r + 2 ^ k)) by lia.
    rewrite (fval_sign false) by (pose proof (Z.mod_le ix (2 ^ k)); lia). rewrite Hup by lia.
    apply ceil_unique; lia.
Qed.

(** ceilf computes the ceiling: for every bit pattern that is a number (neither
    infinite nor NaN), positive, negative, zero or subnormal, the result is the pattern
    of the least integer at or above it. *)
Theorem ceilf_exact fadd w :
  0 <= w < 4294967296 -> w mod 2147483648 < 2139095040 ->
  fval (ceilf fadd w) = ceil_to one (fval w).
Proof.
  intros Hw Hf. pose proof one_pos as Hone.
  assert (0 <= w mod 2147483648) by (apply Z.mod_pos_bound; lia).
  assert (exists neg : bool, w = (if neg then 2147483648 else 0) + w mod 2147483648) as [neg E].
  { exists (2147483648 <=? w). destruct (Z.leb_spec 2147483648 w).
    - rewrite <- (Z.mod_add w (-1)), Z.mod_small by lia. lia.
    - rewrite Z.mod_small; lia. }
  remember (w mod 2147483648) as ix. clear Heqix. subst w.
  destruct (decide (127 <= ix / 8388608 < 150)); [by apply ceilf_middle|].
  destruct (fields neg ix ltac:(lia)) as (E1 & E2 & E3).
  unfold ceilf. rewrite E3, E2, Z.shiftr_div_pow2 by lia. change (2 ^ 23) with 8388608.
  destruct (Z.ltb_spec (ix / 8388608 - 127) 23).
  - destruct (Z.ltb_spec (ix / 8388608 - 127) 0); [|lia].
    pose proof (mag_small ix ltac:(lia) ltac:(lia)). pose proof (mag_nonneg ix ltac:(lia)).
    rewrite E1, fval_sign by lia. symmetry. destruct neg.
    + destruct (Z.ltb_spec (ix - 2147483648) 0); [|lia].
      change (fval 2147483648) with (one * 0). apply ceil_unique; lia.
    + destruct (Z.ltb_spec (ix - 0) 0); [lia|]. destruct (Z.eqb_spec ix 0) as [->|]; cbn [negb].
      * change (fval _) with (one * 0). change (mag 0) with (one * 0). by apply ceil_to_multiple.
      * change (fval 1065353216) with (one * 1). pose proof (mag_pos ix ltac:(lia)).
        apply ceil_unique; lia.
  - destruct (Z.ltb_spec ix 2139095040); [|lia]. cbn [negb]. rewrite fval_sign by lia.
    destruct (mag_integral ix) as [n' ->]; [lia..|]. symmetry. destruct neg.
    + replace (- (one * n')) with (one * (- n')) by lia. by apply ceil_to_multiple.
    + by apply ceil_to_multiple.
Qed.

(** 2.25, whose ceiling is 3. *)
Lemma ceilf_exact_witness :
  ceilf Z.add 1074790400 = 1077936128 /\ fval (ceilf Z.add 1074790400) = ceil_to one (fval 1074790400).
Proof. split; [done|]. apply (ceilf_exact Z.add 1074790400); [lia|done]. Defined.

End Libm.
