(* ===== verification/Sbi.v ===== *)
(** * Firmware calls and the start of the harts (kernel/sbi.cc, include/sbi.hh,
    kernel/kernel.cc)

    The machine-mode firmware is a parameter: a state and its answer to an
    [ecall] with the eight registers the kernel puts up. [SbiBase] has what the
    SBI specification says of the base extension. The three function pointers of
    sbi.cc are options: a call through a pointer that sbi_init has not set is
    [Undef]. What is printed is one event and an effect on the console, whatever
    [puts] points to at that time; the last part models [init] on the two
    harts. *)

From S2P Require Import Prelude.
Local Open Scope Z_scope.

Module Sbi.

(** ** Constants of include/sbi.hh *)
Definition SBI_EXT_0_1_CONSOLE_PUTCHAR := 0x1.
Definition SBI_EXT_0_1_SHUTDOWN := 0x8.
Definition SBI_EXT_BASE := 0x10.
Definition SBI_EXT_TIME := 0x54494D45.
Definition SBI_EXT_IPI := 0x735049.
Definition SBI_EXT_RFENCE := 0x52464E43.
Definition SBI_EXT_HSM := 0x48534D.
Definition SBI_EXT_SRST := 0x53525354.

Definition SBI_EXT_BASE_GET_SPEC_VERSION := 0.
Definition SBI_EXT_BASE_GET_IMP_ID := 1.
Definition SBI_EXT_BASE_GET_IMP_VERSION := 2.
Definition SBI_EXT_BASE_PROBE_EXT := 3.
Definition SBI_EXT_BASE_GET_MVENDORID := 4.
Definition SBI_EXT_BASE_GET_MARCHID := 5.
Definition SBI_EXT_BASE_GET_MIMPID := 6.
Definition SBI_EXT_TIME_SET_TIMER := 0.
Definition SBI_EXT_IPI_SEND_IPI := 0.

Definition SBI_EXT_RFENCE_REMOTE_FENCE_I := 0.
Definition SBI_EXT_RFENCE_REMOTE_SFENCE_VMA := 1.
Definition SBI_EXT_RFENCE_REMOTE_SFENCE_VMA_ASID := 2.
Definition SBI_EXT_RFENCE_REMOTE_HFENCE_GVMA_VMID := 3.
Definition SBI_EXT_RFENCE_REMOTE_HFENCE_GVMA := 4.
Definition SBI_EXT_RFENCE_REMOTE_HFENCE_VVMA_ASID := 5.
Definition SBI_EXT_RFENCE_REMOTE_HFENCE_VVMA := 6.

Definition SBI_EXT_HSM_HART_START := 0.
Definition SBI_EXT_HSM_HART_STATUS := 2.
Definition SBI_EXT_SRST_RESET := 0.
Definition SBI_SRST_RESET_TYPE_SHUTDOWN := 0.
Definition SBI_SRST_RESET_REASON_NONE := 0.

Definition SBI_SPEC_VERSION_DEFAULT := 0x1.
Definition SBI_SPEC_VERSION_MAJOR_SHIFT := 24.
Definition SBI_SPEC_VERSION_MAJOR_MASK := 0x7f.
Definition SBI_SPEC_VERSION_MINOR_MASK := 0xffffff.

Definition sbi_major_version (version : Z) : Z :=
  Z.land (Z.shiftr version SBI_SPEC_VERSION_MAJOR_SHIFT) SBI_SPEC_VERSION_MAJOR_MASK.
Definition sbi_minor_version (version : Z) : Z :=
  Z.land version SBI_SPEC_VERSION_MINOR_MASK.
Definition sbi_mk_version (major minor : Z) : Z :=
  Z.lor (u64 (Z.shiftl (Z.land major SBI_SPEC_VERSION_MAJOR_MASK) SBI_SPEC_VERSION_MAJOR_SHIFT)) minor.
Definition sbi_spec_is_0_1 (version : Z) : bool := version =? SBI_SPEC_VERSION_DEFAULT.

(** [sbi_err_map_linux_errno(int err)]: the identity on int. *)
Definition sbi_err_map_linux_errno (err : Z) : Z := i32 err.

(** ** Calls *)
Record sbiret := Sbiret { error : Z; value : Z }.

(** The registers a0 to a7 of one [ecall]. *)
Record ecall := Ecall { a0 : Z; a1 : Z; a2 : Z; a3 : Z; a4 : Z; a5 : Z; a6 : Z; a7 : Z }.

Inductive event :=
| Call (c : ecall)
| Print (fmt : string) (args : list Z).

(** The functions the pointers of sbi.cc can point to. *)
Inductive timer_fn := sbi_set_timer_v02_ptr.
Inductive ipi_fn := sbi_send_ipi_v02_ptr.
Inductive rfence_fn := sbi_rfence_v02_ptr.

Record sbi {F : Type} := Sbi_ {
  sbi_spec_version : Z;
  p_set_timer : option timer_fn;
  p_send_ipi : option ipi_fn;
  p_rfence : option rfence_fn;
  fw : F;
  events : list event
}.
Arguments sbi : clear implicits.

Definition calls_of (l : list event) : list ecall :=
  omap (fun e => match e with Call c => Some c | Print _ _ => None end) l.

Section Firmware.
Context {F : Type}.
(** The answer of the firmware: the registers a0 and a1 afterwards. *)
Variable firmware : ecall -> F -> (Z * Z) * F.
(** What printing does to the console behind [puts]. *)
Variable console : string -> list Z -> F -> F.

Definition pr (fmt : string) (args : list Z) (s : sbi F) : sbi F :=
  Sbi_ F (sbi_spec_version s) (p_set_timer s) (p_send_ipi s) (p_rfence s)
    (console fmt args (fw s)) (events s ++ [Print fmt args]).

Definition sbi_ecall (ext fid arg0 arg1 arg2 arg3 arg4 arg5 : Z) (s : sbi F) : sbiret * sbi F :=
  let c := Ecall (u64 arg0) (u64 arg1) (u64 arg2) (u64 arg3) (u64 arg4) (u64 arg5)
             (u64 fid) (u64 ext) in
  let '((ra0, ra1), f) := firmware c (fw s) in
  (Sbiret (i64 ra0) (i64 ra1),
   Sbi_ F (sbi_spec_version s) (p_set_timer s) (p_send_ipi s) (p_rfence s) f
     (events s ++ [Call c])).

Definition sbi_set_timer_v02 (stime_value : Z) (s : sbi F) : sbi F :=
  (sbi_ecall SBI_EXT_TIME SBI_EXT_TIME_SET_TIMER stime_value 0 0 0 0 0 s).2.

Definition sbi_send_ipi_v02 (cpu : Z) (s : sbi F) : sbi F :=
  let '(ret, s) := sbi_ecall SBI_EXT_IPI SBI_EXT_IPI_SEND_IPI 1 cpu 0 0 0 0 s in
  if error ret =? 0 then s
  else pr "%s: hbase = [%lu] failed (error [%d])" [cpu; sbi_err_map_linux_errno (error ret)] s.

(** [__sbi_rfence_v02_call]: the arguments that each function of the extension
    takes; an unknown function is -1 without a call. *)
Definition sbi_rfence_v02_call (fid hmask hbase start size arg4 arg5 : Z) (s : sbi F)
  : Z * sbi F :=
  let ext := SBI_EXT_RFENCE in
  let finish '(ret, s) :=
    if error ret =? 0 then (0, s)
    else let result := sbi_err_map_linux_errno (error ret) in
         (result, pr "%s: hbase = [%lu] hmask = [0x%lx] failed (error [%d])" [hbase; hmask; result] s) in
  if fid =? SBI_EXT_RFENCE_REMOTE_FENCE_I then
    finish (sbi_ecall ext fid hmask hbase 0 0 0 0 s)
  else if fid =? SBI_EXT_RFENCE_REMOTE_SFENCE_VMA then
    finish (sbi_ecall ext fid hmask hbase start size 0 0 s)
  else if fid =? SBI_EXT_RFENCE_REMOTE_SFENCE_VMA_ASID then
    finish (sbi_ecall ext fid hmask hbase start size arg4 0 s)
  else if fid =? SBI_EXT_RFENCE_REMOTE_HFENCE_GVMA then
    finish (sbi_ecall ext fid hmask hbase start size 0 0 s)
  else if fid =? SBI_EXT_RFENCE_REMOTE_HFENCE_GVMA_VMID then
    finish (sbi_ecall ext fid hmask hbase start size arg4 0 s)
  else if fid =? SBI_EXT_RFENCE_REMOTE_HFENCE_VVMA then
    finish (sbi_ecall ext fid hmask hbase start size 0 0 s)
  else if fid =? SBI_EXT_RFENCE_REMOTE_HFENCE_VVMA_ASID then
    finish (sbi_ecall ext fid hmask hbase start size arg4 0 s)
  else (-1, pr "unknown function ID [%lu] for SBI extension [%d]" [fid; ext] s).

(** [__sbi_rfence_v02]: the loop over the harts is commented out. *)
Definition sbi_rfence_v02 (fid cpu_mask start size arg4 arg5 : Z) (s : sbi F) : Z * sbi F :=
  (0, pr "unimplemented!" [] s).

(** *** Calls through the pointers *)
Definition sbi_set_timer (stime_value : Z) (s : sbi F) : outcome (sbi F) :=
  match p_set_timer s with
  | Some sbi_set_timer_v02_ptr => Done (sbi_set_timer_v02 stime_value s)
  | None => Undef
  end.
Definition sbi_send_ipi (cpu : Z) (s : sbi F) : outcome (sbi F) :=
  match p_send_ipi s with
  | Some sbi_send_ipi_v02_ptr => Done (sbi_send_ipi_v02 cpu s)
  | None => Undef
  end.
Definition sbi_rfence (fid cpu_mask start size arg4 arg5 : Z) (s : sbi F) : outcome (Z * sbi F) :=
  match p_rfence s with
  | Some sbi_rfence_v02_ptr => Done (sbi_rfence_v02 fid cpu_mask start size arg4 arg5 s)
  | None => Undef
  end.

Definition sbi_remote_fence_i (cpu_mask : Z) (s : sbi F) : outcome (Z * sbi F) :=
  sbi_rfence SBI_EXT_RFENCE_REMOTE_FENCE_I cpu_mask 0 0 0 0 s.
Definition sbi_remote_sfence_vma (cpu_mask start size : Z) (s : sbi F) : outcome (Z * sbi F) :=
  sbi_rfence SBI_EXT_RFENCE_REMOTE_SFENCE_VMA cpu_mask start size 0 0 s.
Definition sbi_remote_sfence_vma_asid (cpu_mask start size asid : Z) (s : sbi F)
  : outcome (Z * sbi F) :=
  sbi_rfence SBI_EXT_RFENCE_REMOTE_SFENCE_VMA_ASID cpu_mask start size asid 0 s.
Definition sbi_remote_hfence_gvma (cpu_mask start size : Z) (s : sbi F) : outcome (Z * sbi F) :=
  sbi_rfence SBI_EXT_RFENCE_REMOTE_HFENCE_GVMA cpu_mask start size 0 0 s.
Definition sbi_remote_hfence_gvma_vmid (cpu_mask start size vmid : Z) (s : sbi F)
  : outcome (Z * sbi F) :=
  sbi_rfence SBI_EXT_RFENCE_REMOTE_HFENCE_GVMA_VMID cpu_mask start size vmid 0 s.
Definition sbi_remote_hfence_vvma (cpu_mask start size : Z) (s : sbi F) : outcome (Z * sbi F) :=
  sbi_rfence SBI_EXT_RFENCE_REMOTE_HFENCE_VVMA cpu_mask start size 0 0 s.
Definition sbi_remote_hfence_vvma_asid (cpu_mask start size asid : Z) (s : sbi F)
  : outcome (Z * sbi F) :=
  sbi_rfence SBI_EXT_RFENCE_REMOTE_HFENCE_VVMA_ASID cpu_mask start size asid 0 s.

Definition sbi_srst_reset (type reason : Z) (s : sbi F) : sbi F :=
  let s := (sbi_ecall SBI_EXT_SRST SBI_EXT_SRST_RESET type reason 0 0 0 0 s).2 in
  pr "%s: type=0x%lx reason=0x%lx failed" [type; reason] s.
Definition sbi_srst_power_off (s : sbi F) : sbi F :=
  sbi_srst_reset SBI_SRST_RESET_TYPE_SHUTDOWN SBI_SRST_RESET_REASON_NONE s.

(** *** The base extension *)
Definition sbi_probe_extension (extid : Z) (s : sbi F) : Z * sbi F :=
  let '(ret, s) := sbi_ecall SBI_EXT_BASE SBI_EXT_BASE_PROBE_EXT extid 0 0 0 0 0 s in
  ((if error ret =? 0 then value ret else 0), s).
Definition sbi_base_ecall (fid : Z) (s : sbi F) : Z * sbi F :=
  let '(ret, s) := sbi_ecall SBI_EXT_BASE fid 0 0 0 0 0 0 s in
  ((if error ret =? 0 then value ret else sbi_err_map_linux_errno (error ret)), s).
Definition sbi_get_spec_version := sbi_base_ecall SBI_EXT_BASE_GET_SPEC_VERSION.
Definition sbi_get_firmware_id := sbi_base_ecall SBI_EXT_BASE_GET_IMP_ID.
Definition sbi_get_firmware_version := sbi_base_ecall SBI_EXT_BASE_GET_IMP_VERSION.
Definition sbi_get_mvendorid := sbi_base_ecall SBI_EXT_BASE_GET_MVENDORID.
Definition sbi_get_marchid := sbi_base_ecall SBI_EXT_BASE_GET_MARCHID.
Definition sbi_get_mimpid := sbi_base_ecall SBI_EXT_BASE_GET_MIMPID.

Definition set_version (v : Z) (s : sbi F) : sbi F :=
  Sbi_ F v (p_set_timer s) (p_send_ipi s) (p_rfence s) (fw s) (events s).
Definition set_pointers (t : option timer_fn) (i : option ipi_fn) (r : option rfence_fn)
  (s : sbi F) : sbi F := Sbi_ F (sbi_spec_version s) t i r (fw s) (events s).

(** [sbi_init]. The two arguments of the second message are function calls whose
    order C++ leaves open; they are taken from left to right. *)
Definition sbi_init (s : sbi F) : sbi F :=
  let '(v, s) := sbi_get_spec_version s in
  let ret := i32 v in
  let s := if 0 <? ret then set_version ret s else s in
  let s := pr "SBI specification v%ld.%ld detected"
             [sbi_major_version (sbi_spec_version s); sbi_minor_version (sbi_spec_version s)] s in
  if sbi_spec_is_0_1 (sbi_spec_version s) then s
  else
    let '(id, s) := sbi_get_firmware_id s in
    let '(ver, s) := sbi_get_firmware_version s in
    let s := pr "SBI implementation ID=0x%lx Version=0x%lx" [id; ver] s in
    let '(p, s) := sbi_probe_extension SBI_EXT_TIME s in
    let s := if p =? 0 then s
             else pr "SBI TIME extension detected" []
                    (set_pointers (Some sbi_set_timer_v02_ptr) (p_send_ipi s) (p_rfence s) s) in
    let '(p, s) := sbi_probe_extension SBI_EXT_IPI s in
    let s := if p =? 0 then s
             else pr "SBI IPI extension detected" []
                    (set_pointers (p_set_timer s) (Some sbi_send_ipi_v02_ptr) (p_rfence s) s) in
    let '(p, s) := sbi_probe_extension SBI_EXT_RFENCE s in
    let s := if p =? 0 then s
             else pr "SBI RFENCE extension detected" []
                    (set_pointers (p_set_timer s) (p_send_ipi s) (Some sbi_rfence_v02_ptr) s) in
    if sbi_mk_version 0 3 <=? sbi_spec_version s then
      let '(p, s) := sbi_probe_extension SBI_EXT_SRST s in
      if p =? 0 then s else pr "SBI SRST extension detected" [] s
    else s.

(** *** Console, power and harts *)
Definition sbi_console_putchar (ch : Z) (s : sbi F) : sbi F :=
  (sbi_ecall SBI_EXT_0_1_CONSOLE_PUTCHAR 0 ch 0 0 0 0 0 s).2.
(** The loop of [sbi_debug_console_write]: [num_bytes] turns. *)
Fixpoint console_loop (num_bytes : nat) (mem : Z -> Z) (base : Z) (s : sbi F) : sbi F :=
  match num_bytes with
  | O => s
  | S n => console_loop n mem (u64 (base + 1)) (sbi_console_putchar (mem base) s)
  end.
Definition sbi_debug_console_write (num_bytes base_addr_lo base_addr_hi : Z) (mem : Z -> Z)
  (s : sbi F) : sbiret * sbi F :=
  (Sbiret 0 0, console_loop (Z.to_nat num_bytes) mem base_addr_lo s).
Definition sbi_shutdown (s : sbi F) : sbi F :=
  (sbi_ecall SBI_EXT_0_1_SHUTDOWN 0 0 0 0 0 0 0 s).2.
Definition sbi_hsm_hart_start (hartid saddr arg1 : Z) (s : sbi F) : Z * sbi F :=
  let '(ret, s) := sbi_ecall SBI_EXT_HSM SBI_EXT_HSM_HART_START hartid saddr arg1 0 0 0 s in
  ((if error ret =? 0 then 0 else sbi_err_map_linux_errno (error ret)), s).
Definition sbi_hsm_hart_get_status (hartid : Z) (s : sbi F) : Z * sbi F :=
  let '(ret, s) := sbi_ecall SBI_EXT_HSM SBI_EXT_HSM_HART_STATUS hartid 0 0 0 0 0 s in
  ((if error ret =? 0 then i32 (value ret) else sbi_err_map_linux_errno (error ret)), s).

(** ** What the specification of the firmware says of the base extension *)
Definition base_call (fid arg : Z) : ecall := Ecall (u64 arg) 0 0 0 0 0 fid SBI_EXT_BASE.
Record SbiBase (version : Z) (exts : gset Z) : Prop := {
  base_version : forall f, (firmware (base_call SBI_EXT_BASE_GET_SPEC_VERSION 0) f).1 = (0, version);
  base_probe : forall id f, 0 <= id < 2 ^ 31 -> exists v,
    (firmware (base_call SBI_EXT_BASE_PROBE_EXT id) f).1 = (0, v) /\
    0 <= v < 2 ^ 63 /\ (v <> 0 <-> id ∈ exts)
}.

(** ** Lemmas *)
Lemma ecall_frame ext fid b0 b1 b2 b3 b4 b5 s ret s' :
  sbi_ecall ext fid b0 b1 b2 b3 b4 b5 s = (ret, s') ->
  sbi_spec_version s' = sbi_spec_version s /\ p_set_timer s' = p_set_timer s /\
  p_send_ipi s' = p_send_ipi s /\ p_rfence s' = p_rfence s /\
  events s' = events s ++ [Call (Ecall (u64 b0) (u64 b1) (u64 b2) (u64 b3) (u64 b4) (u64 b5)
                                   (u64 fid) (u64 ext))].
Proof. unfold sbi_ecall. destruct firmware as [[x y] f]. by intros [= <- <-]. Qed.

Lemma base_frame fid s v s' :
  sbi_base_ecall fid s = (v, s') ->
  sbi_spec_version s' = sbi_spec_version s /\ p_set_timer s' = p_set_timer s /\
  p_send_ipi s' = p_send_ipi s /\ p_rfence s' = p_rfence s.
Proof.
  unfold sbi_base_ecall. destruct sbi_ecall as [ret s1] eqn:E. intros [= <- <-].
  apply ecall_frame in E. tauto.
Qed.

Section Laws.
Context {version : Z} {exts : gset Z}.
Hypothesis (Base : SbiBase version exts).

Lemma version_spec s v s' : 0 <= version < 2 ^ 63 ->
  sbi_get_spec_version s = (v, s') -> v = version.
Proof.
  intros Hv. unfold sbi_get_spec_version, sbi_base_ecall, sbi_ecall.
  pose proof (base_version _ _ Base (fw s)) as E. unfold base_call in E.
  change (u64 0) with 0. change (u64 SBI_EXT_BASE_GET_SPEC_VERSION) with SBI_EXT_BASE_GET_SPEC_VERSION.
  change (u64 SBI_EXT_BASE) with SBI_EXT_BASE. change (u64 0) with 0 in E.
  destruct firmware as [[x y] f]. cbn in E. injection E as -> ->. cbn.
  intros [= <- <-]. rewrite i64_small; lia.
Qed.

Lemma probe_spec id s v s' : 0 <= id < 2 ^ 31 ->
  sbi_probe_extension id s = (v, s') ->
  (v <> 0 <-> id ∈ exts) /\
  sbi_spec_version s' = sbi_spec_version s /\ p_set_timer s' = p_set_timer s /\
  p_send_ipi s' = p_send_ipi s /\ p_rfence s' = p_rfence s.
Proof.
  intros Hid. unfold sbi_probe_extension. destruct sbi_ecall as [ret s1] eqn:E. intros [= <- <-].
  pose proof E as Fr. apply ecall_frame in Fr as (-> & -> & -> & -> & _). split; [|done].
  destruct (base_probe _ _ Base id (fw s) Hid) as (v & Ev & Hv & Hin).
  unfold sbi_ecall in E. unfold base_call in Ev. change (u64 0) with 0 in E.
  change (u64 SBI_EXT_BASE_PROBE_EXT) with SBI_EXT_BASE_PROBE_EXT in E.
  change (u64 SBI_EXT_BASE) with SBI_EXT_BASE in E.
  destruct firmware as [[x y] f]. cbn in Ev. injection Ev as -> ->. injection E as <- <-.
  cbn. rewrite Z.eqb_refl, i64_small by lia. exact Hin.
Qed.
End Laws.

Lemma console_loop_calls n : forall mem base s,
  calls_of (events (console_loop n mem base s)) =
  calls_of (events s) ++
  map (fun i => Ecall (u64 (mem (if Z.of_nat i =? 0 then base else u64 (base + Z.of_nat i))))
                  0 0 0 0 0 0 SBI_EXT_0_1_CONSOLE_PUTCHAR) (seq 0 n).
Proof.
  induction n as [|n IH]; intros mem base s; [by rewrite app_nil_r|].
  cbn [console_loop]. rewrite IH. unfold sbi_console_putchar.
  destruct sbi_ecall as [ret s1] eqn:E. apply ecall_frame in E as (_ & _ & _ & _ & E). cbn [snd].
  rewrite E. unfold calls_of. rewrite omap_app, <- app_assoc. f_equal.
  cbn [omap list_omap seq map]. change (u64 0) with 0. cbn [Z.of_nat]. cbn [app]. f_equal.
  rewrite <- seq_shift, map_map. apply map_ext. intros i.
  f_equal. f_equal. rewrite Nat2Z.inj_succ.
  replace (Z.succ (Z.of_nat i) =? 0) with false by (symmetry; apply Z.eqb_neq; lia).
  f_equal. destruct (Z.eqb_spec (Z.of_nat i) 0) as [->|]; [done|].
  unfold u64. rewrite Zplus_mod_idemp_l. f_equal. lia.
Qed.

(** *** What is selected *)
Definition usable (version : Z) (exts : gset Z) (id : Z) : bool :=
  negb (version =? 1) && bool_decide (id ∈ exts).
Definition select {A} (b : bool) (f : A) : option A := if b then Some f else None.

Lemma probe_select {A} version exts id p (f : A) :
  negb (version =? 1) = true -> (p <> 0 <-> id ∈ exts) ->
  (if p =? 0 then None else Some f) = select (usable version exts id) f.
Proof.
  intros Hv Hp. unfold usable, select. rewrite Hv. cbn [andb].
  destruct (Z.eqb_spec p 0) as [E|E].
  - rewrite bool_decide_false; [done|]. intros Hin. by apply Hp in Hin.
  - rewrite bool_decide_true; [done|]. by apply Hp.
Qed.

Lemma sbi_init_pointers version exts s :
  SbiBase version exts -> 0 < version < 2 ^ 31 ->
  p_set_timer s = None -> p_send_ipi s = None -> p_rfence s = None ->
  let s' := sbi_init s in
  sbi_spec_version s' = version /\
  p_set_timer s' = select (usable version exts SBI_EXT_TIME) sbi_set_timer_v02_ptr /\
  p_send_ipi s' = select (usable version exts SBI_EXT_IPI) sbi_send_ipi_v02_ptr /\
  p_rfence s' = select (usable version exts SBI_EXT_RFENCE) sbi_rfence_v02_ptr.
Proof.
  intros Base Hv Ht Hi Hr. unfold sbi_init.
  destruct (sbi_get_spec_version s) as [v s1] eqn:E1.
  pose proof (version_spec Base _ _ _ ltac:(lia) E1) as ->.
  apply base_frame in E1 as (V1 & T1 & I1 & R1).
  rewrite i32_small by lia. destruct (Z.ltb_spec 0 version); [|lia].
  unfold sbi_spec_is_0_1. cbn [sbi_spec_version pr set_version].
  destruct (version =? SBI_SPEC_VERSION_DEFAULT) eqn:E01.
  { cbn [p_set_timer p_send_ipi p_rfence pr set_version sbi_spec_version].
    unfold usable. change SBI_SPEC_VERSION_DEFAULT with 1 in E01. rewrite E01. cbn. by rewrite T1, I1, R1. }
  assert (N : negb (version =? 1) = true) by (by change 1 with SBI_SPEC_VERSION_DEFAULT; rewrite E01).
  destruct (sbi_get_firmware_id _) as [id s2] eqn:E2. apply base_frame in E2 as (V2 & T2 & I2 & R2).
  destruct (sbi_get_firmware_version _) as [ver s3] eqn:E3. apply base_frame in E3 as (V3 & T3 & I3 & R3).
  destruct (sbi_probe_extension SBI_EXT_TIME _) as [p4 s4] eqn:E4.
  apply (probe_spec Base) in E4 as (P4 & V4 & T4 & I4 & R4); [|done].
  set (s5 := if p4 =? 0 then s4 else _).
  destruct (sbi_probe_extension SBI_EXT_IPI _) as [p6 s6] eqn:E6.
  apply (probe_spec Base) in E6 as (P6 & V6 & T6 & I6 & R6); [|done].
  set (s7 := if p6 =? 0 then s6 else _).
  destruct (sbi_probe_extension SBI_EXT_RFENCE _) as [p8 s8] eqn:E8.
  apply (probe_spec Base) in E8 as (P8 & V8 & T8 & I8 & R8); [|done].
  set (s9 := if p8 =? 0 then s8 else _).
  cbn [sbi_spec_version p_set_timer p_send_ipi p_rfence pr set_version] in *.
  assert (G : sbi_spec_version s9 = version /\
    p_set_timer s9 = select (usable version exts SBI_EXT_TIME) sbi_set_timer_v02_ptr /\
    p_send_ipi s9 = select (usable version exts SBI_EXT_IPI) sbi_send_ipi_v02_ptr /\
    p_rfence s9 = select (usable version exts SBI_EXT_RFENCE) sbi_rfence_v02_ptr).
  { rewrite <- (probe_select version exts _ p4 _ N P4), <- (probe_select version exts _ p6 _ N P6),
      <- (probe_select version exts _ p8 _ N P8).
    subst s9 s7 s5.
    destruct (p8 =? 0), (p6 =? 0), (p4 =? 0);
      cbn [sbi_spec_version p_set_timer p_send_ipi p_rfence pr set_pointers] in *;
      repeat split; congruence. }
  destruct (sbi_mk_version 0 3 <=? _); [|exact G].
  destruct (sbi_probe_extension SBI_EXT_SRST _) as [p10 s10] eqn:E10.
  apply (probe_spec Base) in E10 as (P10 & V10 & T10 & I10 & R10); [|done].
  rewrite <- V10, <- T10, <- I10, <- R10 in G. by destruct (p10 =? 0).
Qed.

End Firmware.

(** ** Versions *)
Lemma mk_version_sum ma mi : 0 <= ma < 128 -> 0 <= mi < 2 ^ 24 ->
  sbi_mk_version ma mi = ma * 2 ^ 24 + mi.
Proof.
  intros Ha Hi. unfold sbi_mk_version, SBI_SPEC_VERSION_MAJOR_MASK, SBI_SPEC_VERSION_MAJOR_SHIFT.
  change 127 with (Z.ones 7). rewrite Z.land_ones, Z.mod_small, Z.shiftl_mul_pow2 by lia.
  rewrite u64_small by lia. rewrite <- Z.lxor_lor, <- Z.add_nocarry_lxor; [done|..];
    apply Z.bits_inj'; intros n Hn; rewrite Z.land_spec, Z.bits_0, Z.mul_pow2_bits by lia;
    (destruct (Z.lt_ge_cases n 24); [by rewrite (Z.testbit_neg_r ma) by lia|]);
    rewrite (Z.bits_above_log2 mi n), ?andb_false_r; try done; try lia;
    (destruct (Z.eq_dec mi 0) as [->|]; [cbn; lia|apply Z.log2_lt_pow2; [lia|]]);
    (apply Z.lt_le_trans with (2 ^ 24); [lia|apply Z.pow_le_mono_r; lia]).
Qed.

(** Version words. Composing a version and taking it apart gives the two numbers
    back, and comparing two words is comparing major versions first: the guard
    [sbi_spec_version >= sbi_mk_version(0, 3)] is "0.3 or later". *)
Theorem sbi_version_roundtrip ma mi : 0 <= ma < 128 -> 0 <= mi < 2 ^ 24 ->
  sbi_major_version (sbi_mk_version ma mi) = ma /\
  sbi_minor_version (sbi_mk_version ma mi) = mi /\
  (sbi_mk_version 0 3 <= sbi_mk_version ma mi <-> ma <> 0 \/ 3 <= mi).
Proof.
  intros Ha Hi. rewrite !mk_version_sum by lia.
  unfold sbi_major_version, sbi_minor_version, SBI_SPEC_VERSION_MAJOR_MASK,
    SBI_SPEC_VERSION_MINOR_MASK, SBI_SPEC_VERSION_MAJOR_SHIFT.
  change 127 with (Z.ones 7). change 16777215 with (Z.ones 24).
  rewrite !Z.land_ones, Z.shiftr_div_pow2 by lia. split; [|split].
  - rewrite Z.div_add_l, (Z.div_small mi) by lia. rewrite Z.add_0_r. apply Z.mod_small. lia.
  - rewrite Z.add_comm, Z.mod_add by lia. apply Z.mod_small. lia.
  - lia.
Qed.

Section Claims.
Context {F : Type} (firmware : ecall -> F -> (Z * Z) * F) (console : string -> list Z -> F -> F).

Definition set_timer_call (t : Z) : ecall := Ecall (u64 t) 0 0 0 0 0 SBI_EXT_TIME_SET_TIMER SBI_EXT_TIME.
Definition send_ipi_call (cpu : Z) : ecall := Ecall 1 (u64 cpu) 0 0 0 0 SBI_EXT_IPI_SEND_IPI SBI_EXT_IPI.

(** Services of the firmware after boot. With a firmware that keeps the base
    extension of the specification, sbi_init takes over its version, and
    afterwards: setting the timer and sending an IPI is exactly one call with the
    right registers when the firmware is newer than 0.1 and has the extension,
    and a call through a null pointer otherwise; a remote fence returns success
    without any call at all. *)
Theorem sbi_services version exts (s0 : sbi F) :
  SbiBase firmware version exts -> 0 < version < 2 ^ 31 ->
  p_set_timer s0 = None -> p_send_ipi s0 = None -> p_rfence s0 = None ->
  let s := sbi_init firmware console s0 in
  sbi_spec_version s = version /\
  (forall t, if usable version exts SBI_EXT_TIME
             then exists s', sbi_set_timer firmware t s = Done s' /\
                    events s' = events s ++ [Call (set_timer_call t)]
             else sbi_set_timer firmware t s = Undef) /\
  (forall cpu, if usable version exts SBI_EXT_IPI
             then exists s', sbi_send_ipi firmware console cpu s = Done s' /\
                    calls_of (events s') = calls_of (events s) ++ [send_ipi_call cpu]
             else sbi_send_ipi firmware console cpu s = Undef) /\
  (forall mask start size, if usable version exts SBI_EXT_RFENCE
             then exists s', sbi_remote_sfence_vma console mask start size s = Done (0, s') /\
                    calls_of (events s') = calls_of (events s)
             else sbi_remote_sfence_vma console mask start size s = Undef).
Proof.
  intros Base Hv Ht Hi Hr s.
  destruct (sbi_init_pointers firmware console version exts s0 Base Hv Ht Hi Hr) as (V & T & I & R).
  fold s in V, T, I, R. split; [exact V|].
  unfold sbi_set_timer, sbi_send_ipi, sbi_remote_sfence_vma, sbi_rfence. rewrite T, I, R.
  clearbody s. split; [|split]; intros;
    (match goal with |- context [usable version exts ?x] => destruct (usable version exts x) end;
     [cbn [select]; eexists; (split; [reflexivity|])|reflexivity]).
  - unfold sbi_set_timer_v02. destruct sbi_ecall as [ret s1] eqn:E.
    apply ecall_frame in E as (_ & _ & _ & _ & E). exact E.
  - unfold sbi_send_ipi_v02. destruct sbi_ecall as [ret s1] eqn:E.
    apply ecall_frame in E as (_ & _ & _ & _ & E).
    destruct (error ret =? 0); cbn [events pr]; rewrite E; unfold calls_of; rewrite ?omap_app; cbn;
      by rewrite ?app_nil_r.
  - cbn. unfold calls_of. rewrite omap_app. cbn. by rewrite app_nil_r.
Qed.

(** A string of [n] bytes reaches the console byte by byte, in order, by the calls
    of SBI 0.1. *)
Theorem console_write_exact (n : nat) base hi mem (s : sbi F) :
  0 <= base -> base + Z.of_nat n <= 2 ^ 64 ->
  (forall i, 0 <= mem i < 256) ->
  let '(ret, s') := sbi_debug_console_write firmware (Z.of_nat n) base hi mem s in
  error ret = 0 /\
  calls_of (events s') = calls_of (events s) ++
    map (fun i => Ecall (mem (base + Z.of_nat i)) 0 0 0 0 0 0 SBI_EXT_0_1_CONSOLE_PUTCHAR) (seq 0 n).
Proof.
  intros Hb Hn Hm. cbn. split; [done|]. rewrite Nat2Z.id, console_loop_calls. f_equal.
  apply map_ext_in. intros i Hi%in_seq. f_equal.
  destruct (Z.eqb_spec (Z.of_nat i) 0) as [->|].
  - rewrite Z.add_0_r. apply u64_small. specialize (Hm base). lia.
  - rewrite (u64_small (base + _)) by lia. apply u64_small. specialize (Hm (base + Z.of_nat i)). lia.
Qed.
End Claims.

(** A firmware of version 0.2 with the timer extension only, which counts calls. *)
Definition ex_firmware (c : ecall) (f : Z) : (Z * Z) * Z :=
  ((0, if (a7 c =? SBI_EXT_BASE) then
         if a6 c =? SBI_EXT_BASE_GET_SPEC_VERSION then 2
         else if a6 c =? SBI_EXT_BASE_PROBE_EXT then
           if a0 c =? SBI_EXT_TIME then 1 else if a0 c =? SBI_EXT_RFENCE then 1 else 0
         else 0
       else 0), f + 1).
Definition ex_exts : gset Z := {[SBI_EXT_TIME; SBI_EXT_RFENCE]}.
Lemma ex_firmware_base : SbiBase ex_firmware 2 ex_exts.
Proof.
  split; [done|]. intros id f Hid.
  exists (if id =? SBI_EXT_TIME then 1 else if id =? SBI_EXT_RFENCE then 1 else 0).
  unfold ex_firmware, base_call, a0, a6, a7. cbn [fst]. rewrite !Z.eqb_refl, u64_small by lia.
  change (SBI_EXT_BASE_PROBE_EXT =? SBI_EXT_BASE_GET_SPEC_VERSION) with false. cbn [fst].
  unfold ex_exts. split; [done|].
  destruct (Z.eqb_spec id SBI_EXT_TIME), (Z.eqb_spec id SBI_EXT_RFENCE);
    split; (lia || set_solver).
Qed.
Definition ex_boot : sbi Z := Sbi_ Z 1 None None None 0 [].

Lemma sbi_services_witness :
  let s := sbi_init ex_firmware (fun _ _ f => f) ex_boot in
  (exists s', sbi_set_timer ex_firmware 77 s = Done s' /\
     events s' = events s ++ [Call (set_timer_call 77)]) /\
  sbi_send_ipi ex_firmware (fun _ _ f => f) 1 s = Undef /\
  (exists s', sbi_remote_sfence_vma (fun _ _ f => f) 1 0 0x84000000 s = Done (0, s') /\
     calls_of (events s') = calls_of (events s)).
Proof.
  destruct (sbi_services ex_firmware (fun _ _ f => f) 2 ex_exts ex_boot ex_firmware_base
              ltac:(lia) eq_refl eq_refl eq_refl) as (_ & T & I & R).
  exact (conj (T 77) (conj (I 1) (R 1 0 0x84000000))).
Defined.

Lemma sbi_version_roundtrip_witness :
  sbi_major_version (sbi_mk_version 2 5) = 2 /\ sbi_minor_version (sbi_mk_version 2 5) = 5.
Proof. destruct (sbi_version_roundtrip 2 5) as (A & B & _); [lia|lia|]. exact (conj A B). Defined.

Example console_write_hi :
  calls_of (events (sbi_debug_console_write ex_firmware 2 100 0 (fun a => a - 28) ex_boot).2) =
  [Ecall 72 0 0 0 0 0 0 1; Ecall 73 0 0 0 0 0 0 1].
Proof. reflexivity. Qed.

End Sbi.

(** ** [init] of kernel/kernel.cc on the two harts *)
Module Harts.

(** The parts of the set-up that [init] calls, in its order: eight on the first hart,
    three on hart 0. Each of them may fail; [Sbi.sbi_init], [Boot.memInit],
    [Syscall.init], [Ld.loadElf], [Virtio], [Bcache] and [Timer] model them. *)
Inductive part :=
| SbiInit | MemInit | SyscallInit | CreateProcess | LoadElf | DiskInit | BioInit | SigInit
| TimerInit | PlicInit | CreateIdle.
Definition setup_parts : list part :=
  [SbiInit; MemInit; SyscallInit; CreateProcess; LoadElf; DiskInit; BioInit; SigInit].
Definition hart0_parts : list part := [TimerInit; PlicInit; CreateIdle].
Definition all_parts : list part := setup_parts ++ hart0_parts.

(** Where a hart is in [init]: the counter, the parts of the set-up, starting the other
    hart, the loop on [started], the remote fence, the branch of the second hart, the
    lock test, the common rest, [idle]. *)
Inductive point := Off | Enter | Part (p : part) | Start | Wait | Fence | Second | LockTest | Lru | Idle.
#[export] Instance part_eq : EqDecision part.
Proof. solve_decision. Defined.
#[export] Instance point_eq : EqDecision point.
Proof. solve_decision. Defined.

Record hart := Hart { at_ : point; stvec : bool; satp : bool; sum : bool }.
Definition goto (x : hart) (p : point) : hart := Hart p (stvec x) (satp x) (sum x).
(** What comes after a part, and the control registers that are written with it: stvec
    after sbi_init, satp in memInit, sstatus.sum after syscall::init. *)
Definition after (x : hart) (p : part) : hart :=
  match p with
  | SbiInit => Hart (Part MemInit) true (satp x) (sum x)
  | MemInit => Hart (Part SyscallInit) (stvec x) true (sum x)
  | SyscallInit => Hart (Part CreateProcess) (stvec x) (satp x) true
  | CreateProcess => goto x (Part LoadElf)
  | LoadElf => goto x (Part DiskInit)
  | DiskInit => goto x (Part BioInit)
  | BioInit => goto x (Part SigInit)
  | SigInit => goto x Start
  | TimerInit => goto x (Part PlicInit)
  | PlicInit => goto x (Part CreateIdle)
  | CreateIdle => goto x Idle
  end.

Section Boot.
(** The kernel's state apart from this, and what the parts do to it. *)
Context {W : Type} (phase : part -> W -> outcome W).

Record boot := Boot {
  harts : list hart;   (** harts 0 and 1 *)
  started : Z;         (** std::atomic<uint32_t> started *)
  parts : list part;   (** the parts that have run *)
  lru_made : nat;      (** placement new on fs::vmolru *)
  world : W
}.

Definition hart_of (b : boot) (h : nat) : outcome hart :=
  match harts b !! h with Some x => Done x | None => Undef end.
Definition put (b : boot) (h : nat) (x : hart) : boot :=
  Boot (<[h := x]> (harts b)) (started b) (parts b) (lru_made b) (world b).

(** [sbi_hsm_hart_start(hartid^1, 0x80200000, 0)]: the firmware, if it can, lets a
    stopped hart enter the kernel; the result is not looked at. *)
Definition hart_start (works : bool) (h : nat) (b : boot) : boot :=
  match harts b !! h with
  | Some x => if works && bool_decide (at_ x = Off) then put b h (goto x Enter) else b
  | None => b
  end.

(** One step of hart [h]. *)
Definition init_step (works : bool) (h : nat) (b : boot) : outcome boot :=
  let* x := hart_of b h in
  match at_ x with
  | Off | Idle => Done b
  | Enter =>
      let prevStarted := started b in
      let b := Boot (harts b) (u32 (started b + 1)) (parts b) (lru_made b) (world b) in
      Done (put b h (goto x (if prevStarted =? 0 then Part SbiInit else Second)))
  | Part p =>
      let* w := phase p (world b) in
      Done (put (Boot (harts b) (started b) (parts b ++ [p]) (lru_made b) w) h (after x p))
  | Start => Done (hart_start works (1 - h) (put b h (goto x Wait)))
  | Wait => Done (if started b <? 2 then b else put b h (goto x Fence))
  | Fence => Done (put b h (goto x LockTest))
  | Second => Done (put b h (Hart LockTest true (satp x) true))
  | LockTest => Done (put b h (goto x Lru))
  | Lru =>
      let b := Boot (harts b) (started b) (parts b) (S (lru_made b)) (world b) in
      passert ((h =? 1)%nat || (h =? 0)%nat) ;;;
      Done (put b h (goto x (if (h =? 0)%nat then Part TimerInit else Idle)))
  end.

Fixpoint run (works : bool) (sched : list nat) (b : boot) : outcome boot :=
  match sched with
  | [] => Done b
  | h :: sched => let* b := init_step works h b in run works sched b
  end.

Definition stopped : hart := Hart Off false false false.
(** The firmware enters the kernel on hart [h] only. *)
Definition reset (h : nat) (w : W) : boot :=
  Boot (<[h := Hart Enter false false false]> [stopped; stopped]) 0 [] 0 w.

(** ** The invariant *)

(** The parts one after the other. *)
Fixpoint run_parts (l : list part) (w : W) : outcome W :=
  match l with [] => Done w | p :: l => let* w := phase p w in run_parts l w end.
Lemma run_parts_app l1 l2 w : run_parts (l1 ++ l2) w = let* w := run_parts l1 w in run_parts l2 w.
Proof. revert w. induction l1 as [|p l1 IH]; intros w; cbn; [done|]. destruct (phase p w); cbn; auto. Qed.

(** How many parts of the set-up the first hart has behind it at a point, and how many of
    its own hart 0 has. *)
Definition first_done (p : point) : nat :=
  match p with
  | Off | Enter | Part SbiInit => 0
  | Part MemInit => 1 | Part SyscallInit => 2 | Part CreateProcess => 3 | Part LoadElf => 4
  | Part DiskInit => 5 | Part BioInit => 6 | Part SigInit => 7 | _ => 8
  end.
Definition hart0_done (p : point) : nat :=
  match p with Part PlicInit => 1 | Part CreateIdle => 2 | Idle => 3 | _ => 0 end.
Definition early (p : point) : bool := (first_done p <? 8)%nat.
Definition second (zero : bool) (p : point) : bool :=
  match p with
  | Off | Enter | Second | LockTest | Lru | Idle => true
  | Part TimerInit | Part PlicInit | Part CreateIdle => zero
  | _ => false
  end.
Definition waiting (p : point) : bool :=
  early p || bool_decide (p = Start) || bool_decide (p = Wait).

Record inv (w0 : W) (works : bool) (f : nat) (b : boot) : Prop := {
  inv_first : exists x y,
    harts b = (if (f =? 0)%nat then [x; y] else [y; x]) /\
    at_ x <> Off /\ at_ x <> Second /\
    parts b = take (first_done (at_ x) + hart0_done (at_ (if (f =? 0)%nat then x else y))) all_parts /\
    (f = 1%nat -> at_ x <> Part TimerInit /\ at_ x <> Part PlicInit /\ at_ x <> Part CreateIdle) /\
    satp y = false /\ second (negb (f =? 0)%nat) (at_ y) = true /\
    started b = (if bool_decide (at_ x = Enter) then 0 else 1) +
                (if bool_decide (at_ y = Off) || bool_decide (at_ y = Enter) then 0 else 1) /\
    (at_ y <> Off -> works = true /\ early (at_ x) = false /\ at_ x <> Start) /\
    (waiting (at_ x) = false -> at_ y <> Off /\ at_ y <> Enter);
  inv_world : run_parts (parts b) w0 = Done (world b)
}.

Lemma inv_reset w works f : (f < 2)%nat -> inv w works f (reset f w).
Proof.
  intros Hf. split; [|done]. exists (Hart Enter false false false), stopped.
  destruct f as [|[|f]]; [..|lia]; repeat split; done.
Qed.

(** A step keeps the invariant, or ends as the part that it runs does, the next one in the
    order. *)
Definition same_failure {A B} (o : outcome A) (o' : outcome B) : Prop :=
  match o, o' with Panic, Panic | Undef, Undef | Diverge, Diverge => True | _, _ => False end.
Definition stops {A} (w0 : W) (o : outcome A) : Prop :=
  exists l p w, l ++ [p] `prefix_of` all_parts /\ run_parts l w0 = Done w /\ same_failure (phase p w) o.

Lemma inv_step w0 works f h b :
  (f < 2)%nat -> (h < 2)%nat -> inv w0 works f b ->
  (exists b', init_step works h b = Done b' /\ inv w0 works f b') \/ stops w0 (init_step works h b).
Proof.
  intros Hf Hh [(x & y & Eh & Ho & H2 & Hset & H0 & Hy & Hsec & Hst & Hrun & Hw) Hwd].
  destruct b as [hs st se lr w]; cbn in *; subst hs se st.
  destruct x as [px xv xs xm], y as [py yv ys ym]; cbn in *; subst ys.
  assert (Hf' : f = 0%nat \/ f = 1%nat) by lia. assert (Hh' : h = 0%nat \/ h = 1%nat) by lia.
  assert (Hp : forall p l w', run_parts l w0 = Done w' -> l ++ [p] `prefix_of` all_parts ->
    (exists w'', phase p w' = Done w'' /\ run_parts (l ++ [p]) w0 = Done w'') \/
    (forall {A} (k : W -> outcome A), stops w0 (let* w := phase p w' in k w))).
  { intros p l w' El Hl. destruct (phase p w') as [w''| | |] eqn:Ep.
    1: left; exists w''; split; [done|]; rewrite run_parts_app, El; cbn; by rewrite Ep.
    all: right; intros A k; exists l, p, w'; rewrite Ep; done. }
  destruct works, Hf' as [-> | ->], Hh' as [-> | ->]; cbn -[run_parts all_parts] in *;
    (destruct px as [| |[]| | | | | | |]; try done; cbn -[run_parts all_parts] in *);
    (destruct py as [| |[]| | | | | | |]; try done; cbn -[run_parts all_parts] in *);
    try (destruct (H0 eq_refl) as (? & ? & ?); done);
    try (destruct (Hrun ltac:(done)) as (? & ? & ?); done);
    try (destruct (Hw eq_refl) as [? ?]; done);
    try (left; eexists; split; [reflexivity|]; split; cbn -[run_parts all_parts]; [|exact Hwd];
         eexists _, _; split; [reflexivity|]; cbn -[run_parts all_parts]; repeat split; done);
    (match goal with |- context [phase ?p ?w'] =>
       destruct (Hp p _ w' Hwd) as [(w'' & -> & Ew)|Hs]; [by eexists|cbn [obind]|right; apply Hs] end;
     left; eexists; split; [reflexivity|]; split; cbn -[run_parts all_parts]; [|exact Ew];
     eexists _, _; split; [reflexivity|]; cbn -[run_parts all_parts]; repeat split; done).
Qed.

Lemma inv_run w0 works f sched : forall b,
  (f < 2)%nat -> Forall (fun h => (h < 2)%nat) sched -> inv w0 works f b ->
  (exists b', run works sched b = Done b' /\ inv w0 works f b') \/ stops w0 (run works sched b).
Proof.
  induction sched as [|h sched IH]; intros b Hf Hs Hi; cbn; [eauto|].
  inversion Hs; subst. destruct (inv_step w0 works f h b) as [(b' & -> & Hi')|(l & p & w & Hl & Hr & Hsf)]; [done..| |].
  - by apply IH.
  - right. exists l, p, w. split; [done|]. split; [done|].
    destruct (init_step works h b), (phase p w); done.
Qed.

(** C33. Bring-up. Whichever of the two harts the firmware enters first and however they
    interleave, the parts of the set-up (sbi_init, memInit, syscall::init, the first
    process and its program, the disk, the buffer cache, signals on the first hart; timer,
    interrupt controller and idle task on hart 0) run one after the other, each at most
    once and in this order, on the state that the ones before it left; [init] fails only
    where one of these parts fails. The other hart does not enter the kernel before the
    eight parts of the first hart are done, and never turns translation on; and when the
    firmware does not start it, the first hart stays in the loop on [started] for ever. *)
Theorem bring_up w0 works f sched :
  (f < 2)%nat -> Forall (fun h => (h < 2)%nat) sched ->
  stops w0 (run works sched (reset f w0)) \/
  exists b x y, run works sched (reset f w0) = Done b /\
    harts b !! f = Some x /\ harts b !! (1 - f)%nat = Some y /\
    parts b `prefix_of` all_parts /\ run_parts (parts b) w0 = Done (world b) /\
    (at_ y <> Off -> setup_parts `prefix_of` parts b) /\
    satp y = false /\
    (works = false -> at_ y = Off /\ waiting (at_ x) = true).
Proof.
  intros Hf Hs.
  destruct (inv_run w0 works f sched (reset f w0) Hf Hs (inv_reset w0 works f Hf)) as [(b & -> & I)|?]; [right|by left].
  destruct I as [(x & y & Eh & _ & _ & Hset & _ & Hy & _ & _ & Hrun & Hw) Hwd].
  exists b, x, y. rewrite Eh. split; [done|].
  assert (L : (if (f =? 0)%nat then [x; y] else [y; x]) !! f = Some x /\
              (if (f =? 0)%nat then [x; y] else [y; x]) !! (1 - f)%nat = Some y).
  { destruct f as [|[|f]]; [done|done|lia]. }
  destruct L as [-> ->]. split; [done|]. split; [done|]. split; [rewrite Hset; apply prefix_take|]. split; [done|]. split.
  { intros Hn. destruct (Hrun Hn) as (_ & He & _). rewrite Hset. exists (take (hart0_done (at_ (if (f =? 0)%nat then x else y))) hart0_parts).
    assert (first_done (at_ x) = 8%nat) as ->; [|done].
    unfold early in He. destruct (at_ x) as [| |[]| | | | | | |]; done. }
  split; [done|]. intros ->.
  destruct (decide (at_ y = Off)) as [E|E]; [|by destruct (Hrun E)].
  split; [done|]. destruct (waiting (at_ x)); [done|]. by destruct (Hw eq_refl).
Qed.
End Boot.

(** Parts that count how often they ran; the disk may be missing. *)
Definition ex_phase (disk : bool) (p : part) (w : nat) : outcome nat :=
  match p with DiskInit => if disk then Done (S w) else Panic | _ => Done (S w) end.
Definition ex_sched : list nat :=
  [1; 1; 1; 1; 1; 1; 1; 1; 1; 1; 1; 0; 1; 0; 1; 1; 1; 0; 1; 0; 0; 0; 0; 0; 0]%nat.
Example bring_up_ends :
  run (ex_phase true) true ex_sched (reset 1 0%nat) =
  Done (Boot [Hart Idle true false true; Hart Idle true true true] 2 all_parts 2 11%nat).
Proof. reflexivity. Qed.
Example bring_up_panics : run (ex_phase false) true ex_sched (reset 1 0%nat) = Panic.
Proof. reflexivity. Qed.

Lemma bring_up_witness :
  exists b x y, run (ex_phase true) false ex_sched (reset 1 0%nat) = Done b /\
    harts b !! 1%nat = Some x /\ harts b !! 0%nat = Some y /\
    at_ y = Off /\ waiting (at_ x) = true.
Proof.
  destruct (bring_up (ex_phase true) 0%nat false 1 ex_sched) as [(l & p & w & _ & _ & H)|(b & x & y & R & X & Y & _ & _ & _ & _ & W)]; [lia| |..].
  - repeat constructor.
  - exfalso. destruct (ex_phase true p w) eqn:E; [exact H|destruct p; discriminate E..].
  - exact (ex_intro _ b (ex_intro _ x (ex_intro _ y
      (conj R (conj X (conj Y (W eq_refl))))))).
Defined.

End Harts.
