(* ===== verification/Trap.v ===== *)
(** * Trap: entering and leaving the kernel (kernel/trap.cc, include/rvcsr.hh, kernel/sched.cc)

    A hart runs user code or kernel code of its current task. A trap from user mode
    goes through strapwrapper: _strapenter saves the registers in the task,
    straphandler dispatches on the cause, _strapexit restores them. schedule() changes
    the current task in between. The model has the registers, the control registers
    and the task structures that this code touches; kernel code between these points
    is not executed, its register contents are arguments. A task structure is at the
    address that is its key in the map of tasks, and is mapped for the user at the
    same address (Process::newTrapframe), so that [sscratch] names the task. *)

From S2P Require Import Prelude.
Local Open Scope Z_scope.

Module Trap.

(** ** Control registers *)

(** Bits of sstatus (csr::mstatus::fields). *)
Definition sie : Z := 1.
Definition spie : Z := 5.
Definition spp : Z := 8.
(** csrSet, csrClear and a test of a bit. *)
Definition csr_set (v bit : Z) : Z := Z.setbit v bit.
Definition csr_clear (v bit : Z) : Z := Z.clearbit v bit.

(** csr::mcause::isInterrupt, and the code without the top bit. *)
Definition isInterrupt (scause : Z) : bool := Z.testbit scause 63.
Definition cause_code (scause : Z) : Z := Z.shiftr (u64 (Z.shiftl scause 1)) 1.

Inductive vector : Type := strapwrapper_ | ktrapwrapper_.

(** The registers x1 to x31 and the control registers of a hart. *)
Record Hart : Type := mkHart {
  xs : list Z; hpc : Z; stvec : vector; sscratch : Z; satp : Z; sepc : Z; scause : Z; sstatus : Z }.
Definition with_xs (h : Hart) (v : list Z) : Hart :=
  mkHart v (hpc h) (stvec h) (sscratch h) (satp h) (sepc h) (scause h) (sstatus h).
Definition with_csrs (h : Hart) (tv : vector) (ss sa ep st : Z) : Hart :=
  mkHart (xs h) (hpc h) tv ss sa ep (scause h) st.

(** What the hardware does at a trap from user mode, and for sret to user mode. *)
Definition hw_trap (h : Hart) (cause : Z) : Hart :=
  let st := csr_clear (sstatus h) spp in
  let st := if Z.testbit st sie then csr_set st spie else csr_clear st spie in
  mkHart (xs h) (hpc h) (stvec h) (sscratch h) (satp h) (hpc h) cause (csr_clear st sie).
(** The same at a trap from kernel mode. *)
Definition hw_ktrap (h : Hart) (cause : Z) : Hart :=
  let st := csr_set (sstatus h) spp in
  let st := if Z.testbit st sie then csr_set st spie else csr_clear st spie in
  mkHart (xs h) (hpc h) (stvec h) (sscratch h) (satp h) (hpc h) cause (csr_clear st sie).
Definition hw_sret (h : Hart) : Hart :=
  let st := if Z.testbit (sstatus h) spie then csr_set (sstatus h) sie else csr_clear (sstatus h) sie in
  mkHart (xs h) (sepc h) (stvec h) (sscratch h) (satp h) (sepc h) (scause h)
    (csr_clear (csr_set st spie) spp).

(** ** Tasks *)

Inductive Priv : Type := User | Kernel | AlwaysKernel.
Record Context : Type := mkCtx { gpr : list Z; pc : Z }.
Record Task : Type := mkTask {
  ctx : Context; kgpr : list Z; kpc : Z; ksatp : Z; vaddr : Z; lastpriv : Priv }.
Definition with_ctx (t : Task) (c : Context) : Task :=
  mkTask c (kgpr t) (kpc t) (ksatp t) (vaddr t) (lastpriv t).
Definition with_kgpr (t : Task) (g : list Z) : Task :=
  mkTask (ctx t) g (kpc t) (ksatp t) (vaddr t) (lastpriv t).
Definition with_priv (t : Task) (p : Priv) : Task :=
  mkTask (ctx t) (kgpr t) (kpc t) (ksatp t) (vaddr t) p.

Section Memory.
(** The address spaces and the memory behind them ([Vmar] models them). *)
Context {M : Type}.

(** A kernel with one active hart: [user] tells whether it runs user code; [other] is
    the current task of the other hart; [irqcnt] counts the external interrupts; [mm] are
    the address spaces. *)
Record Kern : Type := mkKern {
  hart : Hart; user : bool; tasks : gmap Z Task; cur : Z; other : Z; irqcnt : list Z; mm : M }.
Definition with_hart (k : Kern) (h : Hart) (u : bool) : Kern :=
  mkKern h u (tasks k) (cur k) (other k) (irqcnt k) (mm k).
Definition put_task (k : Kern) (a : Z) (t : Task) : Kern :=
  mkKern (hart k) (user k) (<[a := t]> (tasks k)) (cur k) (other k) (irqcnt k) (mm k).
Definition with_mm (k : Kern) (m : M) : Kern :=
  mkKern (hart k) (user k) (tasks k) (cur k) (other k) (irqcnt k) m.
Definition task_get (k : Kern) (a : Z) : outcome Task :=
  match tasks k !! a with Some t => Done t | None => Undef end.

Section Trap.
(** offsetof(Task, ctx.gpr), offsetof(Task, kctx.gpr), the value of the kernel's satp
    and the number of the hart. *)
Context (off koff ksatp_ hartid : Z).
(** VMAR::pfhandler of the address space of a task's process, and of the kernel's. *)
Context (pfhandler : Z -> M -> Z -> outcome M) (kpfhandler : M -> Z -> outcome M).

(** ** Saving and restoring *)

(** saveContext, given the array that t6 points to: x1 to x30 are stored, x30 is
    loaded from sscratch and stored in the place of x31. *)
Fixpoint store_regs (i n : nat) (x g : list Z) : list Z :=
  match n with
  | O => g
  | S n => store_regs (S i) n x (<[i := default 0 (x !! i)]> g)
  end.
Definition saveContext (x : list Z) (ss : Z) (g : list Z) : list Z * list Z :=
  let g := store_regs 0 30 x g in
  let x := <[29%nat := ss]> x in
  (x, <[30%nat := default 0 (x !! 29%nat)]> g).
(** restoreContext: x1 to x30 are loaded through t6, then t6 itself. *)
Fixpoint load_regs (i n : nat) (g x : list Z) : list Z :=
  match n with
  | O => x
  | S n => load_regs (S i) n g (<[i := default 0 (g !! i)]> x)
  end.
Definition restoreContext (g x : list Z) : list Z :=
  <[30%nat := default 0 (g !! 30%nat)]> (load_regs 0 30 g x).

(** csrSwap(sscratch,t6). *)
Definition swap_t6 (h : Hart) : Hart :=
  mkHart (<[30%nat := sscratch h]> (xs h)) (hpc h) (stvec h) (default 0 (xs h !! 30%nat)) (satp h)
    (sepc h) (scause h) (sstatus h).

(** _strapenter<true>: the registers go to the task that sscratch names, the program
    counter to the task the hart has as current. *)
Definition _strapenter (k : Kern) : outcome Kern :=
  let h := swap_t6 (hart k) in
  let t6 := default 0 (xs h !! 30%nat) in
  let a := t6 - off in
  let* t := task_get k a in
  let '(x, g) := saveContext (xs h) (sscratch h) (gpr (ctx t)) in
  let t := with_ctx t (mkCtx g (pc (ctx t))) in
  let k := put_task k a t in
  let x := <[3%nat := default 0 (kgpr t !! 3%nat)]> x in
  let x := <[1%nat := cur k + 8192]> x in
  let h := with_csrs (with_xs h x) ktrapwrapper_ (a + koff) ksatp_ (sepc h) (sstatus h) in
  let* c := task_get k (cur k) in
  let k := put_task k (cur k) (with_ctx c (mkCtx (gpr (ctx c)) (sepc h))) in
  Done (with_hart k h false).

(** _strapexit, up to and including sret. *)
Definition _strapexit (k : Kern) : outcome Kern :=
  let* t := task_get k (cur k) in
  match lastpriv t with
  | User =>
      let gprvaddr := vaddr t + off in
      passert (negb ((2149580800 <=? pc (ctx t)) && (pc (ctx t) <=? 2150629376))) ;;;
      let h := hart k in
      let st := csr_set (csr_clear (sstatus h) spp) spie in
      let h := with_csrs h strapwrapper_ gprvaddr (ksatp t) (pc (ctx t)) st in
      let* f := task_get k (sscratch h - off) in
      let x := restoreContext (gpr (ctx f)) (<[30%nat := sscratch h]> (xs h)) in
      Done (with_hart k (hw_sret (with_xs h x)) true)
  | _ => Panic
  end.

(** ** Switching *)

(** schedule() once the scheduler has chosen [next]; [kr] are the registers of the
    kernel code that calls it. The caller's registers go to the kernel context of the
    previous task; a task that was in user mode is left through _strapexit, another
    one goes on in its kernel context. *)
Definition schedule (k : Kern) (next : Z) (kr : list Z) : outcome Kern :=
  let prv := cur k in
  let* t := task_get k next in
  let t := with_kgpr t (<[3%nat := hartid]> (kgpr t)) in
  let k := put_task k next t in
  let k := mkKern (hart k) (user k) (tasks k) next (other k) (irqcnt k) (mm k) in
  passert (negb (next =? other k)) ;;;
  let* p := task_get k prv in
  let '(x, g) := saveContext (<[30%nat := prv + koff]> kr) (sscratch (hart k)) (kgpr p) in
  let k := with_hart (put_task k prv (with_kgpr p g)) (with_xs (hart k) x) false in
  let* t := task_get k next in
  match lastpriv t with
  | User => _strapexit k
  | _ => Done (with_hart k (with_xs (hart k) (restoreContext (kgpr t) (<[30%nat := next + koff]> x))) false)
  end.

(** ** Handlers *)

Inductive kind : Type := KTimer | KExternal | KEcall | KFault | KNothing.
(** The two switches of straphandler. *)
Definition classify (cause : Z) : outcome kind :=
  if isInterrupt cause then
    let c := cause_code cause in
    if c =? 5 then Done KTimer else if c =? 9 then Done KExternal else Panic
  else if cause =? 8 then Done KEcall
  else if cause =? 7 then Done KNothing
  else if (cause =? 12) || (cause =? 13) || (cause =? 15) then Done KFault
  else Panic.

(** timerInterruptHandler, before timer->next(): an interrupt of kernel code that is
    not the idle task's is not expected. *)
Definition timer_check (k : Kern) : outcome unit :=
  let* t := task_get k (cur k) in
  passert (match lastpriv t with AlwaysKernel => true | _ => negb (Z.testbit (sstatus (hart k)) spp) end).

(** externalInterruptHandler for the interrupt [irq] that the controller hands out. *)
Definition externalInterruptHandler (k : Kern) (irq : Z) : outcome Kern :=
  let* c := aget (irqcnt k) irq in
  let* cs := aset (irqcnt k) irq (u64 (c + 1)) in
  if (irq =? 0) || (irq =? 10) || (irq =? 1) then
    Done (mkKern (hart k) (user k) (tasks k) (cur k) (other k) cs (mm k))
  else Panic.

(** isPrevPriv and pagefaultHandler: a fault of kernel code must come from the kernel's
    address space and is handled there, one of user code by the process. *)
Definition isPrevPriv (k : Kern) : bool := Z.testbit (sstatus (hart k)) spp.
Definition pagefaultHandler (k : Kern) (addr : Z) : outcome Kern :=
  let* m := (if isPrevPriv k then
               passert (satp (hart k) =? ksatp_) ;;;
               kpfhandler (mm k) addr
             else pfhandler (cur k) (mm k) addr) in
  Done (with_mm k m).

(** The first half of uecallHandler: past the instruction, in kernel mode. *)
Definition uecall_enter (k : Kern) : outcome Kern :=
  let* t := task_get k (cur k) in
  Done (put_task k (cur k) (with_priv (with_ctx t (mkCtx (gpr (ctx t)) (u64 (pc (ctx t) + 4)))) Kernel)).
(** The second half: the result, if the call has a handler, and back to user mode. *)
Definition uecall_leave (k : Kern) (r : option Z) : outcome Kern :=
  let* t := task_get k (cur k) in
  let c := ctx t in
  let c := match r with Some v => mkCtx (<[9%nat := v]> (gpr c)) (pc c) | None => c end in
  Done (put_task k (cur k) (with_priv (with_ctx t c) User)).

(** The end of straphandler: signals of a task that goes back to user mode. [sig] is
    what sigHandler makes of the context. *)
Definition deliver (k : Kern) (sig : Context -> Context) : outcome Kern :=
  let* t := task_get k (cur k) in
  match lastpriv t with
  | User => Done (put_task k (cur k) (with_priv (with_ctx t (sig (ctx t))) User))
  | _ => Done k
  end.

(** ** A hart, step by step *)

(** What the outside decides about a trap: the number of an external interrupt, the
    address of a fault, the task and the registers if the handler calls schedule(), the
    effect of signals. *)
Record event : Type := mkEvent {
  ev_irq : Z; ev_stval : Z; ev_switch : option (Z * list Z); ev_sig : Context -> Context }.

(** A user instruction, a trap from user mode with its cause, the return of a system
    call with its result, a call of schedule() in kernel code, a trap from kernel code
    with its cause, the end of such a trap after a switch. *)
Inductive label : Type :=
| LInstr (x : list Z) (p : Z)
| LTrap (cause : Z) (e : event)
| LReturn (r : option Z) (sig : Context -> Context)
| LSwitch (next : Z) (kr : list Z)
| LKtrap (cause : Z) (e : event)
| LKtail.

Definition finish (k : Kern) (sig : Context -> Context) : outcome Kern :=
  let* k := deliver k sig in _strapexit k.

(** The handler that straphandler calls, up to the point where a timer interrupt may
    call schedule() and a system call runs its function. *)
Definition handle (k : Kern) (c : kind) (e : event) : outcome Kern :=
  match c with
  | KTimer => timer_check k ;;; Done k
  | KExternal => externalInterruptHandler k (ev_irq e)
  | KEcall => uecall_enter k
  | KFault => pagefaultHandler k (ev_stval e)
  | KNothing => Done k
  end.

(** strapwrapper, from the trap to user mode again or to the kernel code of a call. *)
Definition strapwrapper (k : Kern) (cause : Z) (e : event) : outcome Kern :=
  let* k := _strapenter (with_hart k (hw_trap (hart k) cause) false) in
  let* c := classify cause in
  let* k := handle k c e in
  match c, ev_switch e with
  | KTimer, Some (next, kr) => schedule k next kr
  | KEcall, _ => Done k
  | _, _ => finish k (ev_sig e)
  end.

(** ktrapwrapper1: kernel code of the current task is interrupted and, unless the timer
    switches to another task, continued. Kernel code makes no user system call. *)
Definition ktrap_exit (k : Kern) : outcome Kern :=
  let* t := task_get k (cur k) in
  let h := hart k in
  let st := csr_set (sstatus h) spp in
  let st := match lastpriv t with AlwaysKernel => csr_set st spie | _ => csr_clear st spie end in
  Done (with_hart k (with_csrs h (stvec h) (sscratch h) (satp h) (sepc h) st) false).
Definition ktrapwrapper1 (k : Kern) (cause : Z) (e : event) : outcome Kern :=
  let k := with_hart k (hw_ktrap (hart k) cause) false in
  let* t := task_get k (cur k) in
  let k := put_task k (cur k) (mkTask (ctx t) (kgpr t) (sepc (hart k)) (ksatp t) (vaddr t) (lastpriv t)) in
  let* c := classify cause in
  match c, ev_switch e with
  | KEcall, _ => Undef
  | KTimer, Some (next, kr) => let* k := handle k c e in schedule k next kr
  | _, _ => let* k := handle k c e in let* k := deliver k (ev_sig e) in ktrap_exit k
  end.

Definition step (l : label) (k : Kern) : outcome Kern :=
  match l, user k with
  | LInstr x p, true =>
      Done (with_hart k (mkHart x p (stvec (hart k)) (sscratch (hart k)) (satp (hart k)) (sepc (hart k))
                           (scause (hart k)) (sstatus (hart k))) true)
  | LTrap cause e, true => strapwrapper k cause e
  | LReturn r sig, false => let* k := uecall_leave k r in finish k sig
  | LSwitch next kr, false => schedule k next kr
  | LKtrap cause e, false => ktrapwrapper1 k cause e
  | LKtail, false => ktrap_exit k
  | _, _ => Undef
  end.
Fixpoint steps (ls : list label) (k : Kern) : outcome Kern :=
  match ls with [] => Done k | l :: ls => let* k := step l k in steps ls k end.

(** ** The specification: a processor for every task *)

Record Cpu : Type := mkCpu { cctx : Context; cpriv : Priv }.
Record Cpus : Type := mkCpus { cpus : gmap Z Cpu; running : Z; inuser : bool; cmem : M }.
Definition cpu_upd (s : Cpus) (f : Cpu -> Cpu) (u : bool) : Cpus :=
  mkCpus (alter f (running s) (cpus s)) (running s) u (cmem s).
Definition set_mem (s : Cpus) (m : M) : Cpus := mkCpus (cpus s) (running s) (inuser s) m.
Definition on_ctx (f : Context -> Context) (c : Cpu) : Cpu := mkCpu (f (cctx c)) (cpriv c).

Definition past_ecall (c : Context) : Context := mkCtx (gpr c) (u64 (pc c + 4)).
Definition set_a0 (r : option Z) (c : Context) : Context :=
  match r with Some v => mkCtx (<[9%nat := v]> (gpr c)) (pc c) | None => c end.

(** Running another task leaves all contexts alone. *)
Definition run_task (s : Cpus) (next : Z) : option Cpus :=
  c ← cpus s !! next;
  Some (mkCpus (cpus s) next (match cpriv c with User => true | _ => false end) (cmem s)).
Definition spec (l : label) (s : Cpus) : option Cpus :=
  match l, inuser s with
  | LInstr x p, true => Some (cpu_upd s (on_ctx (fun _ => mkCtx x p)) true)
  | LTrap cause e, true =>
      match classify cause with
      | Done KTimer =>
          match ev_switch e with
          | Some (next, _) => run_task s next
          | None => Some (cpu_upd s (on_ctx (ev_sig e)) true)
          end
      | Done KEcall => Some (cpu_upd s (fun c => mkCpu (past_ecall (cctx c)) Kernel) false)
      | Done KFault =>
          match pfhandler (running s) (cmem s) (ev_stval e) with
          | Done m => Some (cpu_upd (set_mem s m) (on_ctx (ev_sig e)) true)
          | _ => None
          end
      | Done _ => Some (cpu_upd s (on_ctx (ev_sig e)) true)
      | _ => None
      end
  | LReturn r sig, false =>
      c ← cpus s !! running s;
      match cpriv c with
      | Kernel => Some (cpu_upd s (fun c => mkCpu (sig (set_a0 r (cctx c))) User) true)
      | _ => None
      end
  | LSwitch next _, false => run_task s next
  | LKtrap cause e, false =>
      match classify cause with
      | Done KTimer =>
          c ← cpus s !! running s;
          match cpriv c with
          | AlwaysKernel => match ev_switch e with Some (next, _) => run_task s next | None => Some s end
          | _ => None
          end
      | Done KFault => match kpfhandler (cmem s) (ev_stval e) with Done m => Some (set_mem s m) | _ => None end
      | Done KExternal | Done KNothing => Some s
      | _ => None
      end
  | LKtail, false => Some s
  | _, _ => None
  end.
End Trap.

(** ** Saved registers are the registers *)

Lemma length_store_regs n i x g : length (store_regs i n x g) = length g.
Proof. revert i g. induction n as [|n IH]; intros i g; cbn; [done|]. by rewrite IH, length_insert. Qed.
Lemma lookup_store_regs n i x g j :
  (i + n <= length g)%nat ->
  store_regs i n x g !! j = if decide (i <= j < i + n)%nat then Some (default 0 (x !! j)) else g !! j.
Proof.
  revert i g. induction n as [|n IH]; intros i g Hl; cbn; [by rewrite decide_False by lia|].
  rewrite IH by (rewrite length_insert; lia). destruct (decide (i = j)) as [->|Hne].
  - rewrite decide_False, decide_True, list_lookup_insert_eq by lia. done.
  - rewrite list_lookup_insert_ne by done. repeat case_decide; try done; lia.
Qed.
Lemma load_is_store n i g x : load_regs i n g x = store_regs i n g x.
Proof. revert i x. induction n as [|n IH]; intros i x; cbn; auto. Qed.

Lemma lookup_some_default (l : list Z) j : (j < length l)%nat -> Some (default 0 (l !! j)) = l !! j.
Proof. intros Hj. destruct (lookup_lt_is_Some_2 l j Hj) as [v ->]. done. Qed.

(** After the exchange of t6 and sscratch, saveContext stores the registers as they
    were before it. *)
Lemma saveContext_swapped x g a :
  length x = 31%nat -> length g = 31%nat ->
  snd (saveContext (<[30%nat := a]> x) (default 0 (x !! 30%nat)) g) = x.
Proof.
  intros Hx Hg. unfold saveContext. cbn [snd].
  rewrite list_lookup_insert_eq by (rewrite length_insert; lia). cbn [default id].
  apply list_eq. intros j. destruct (decide (j = 30%nat)) as [->|Hj].
  - rewrite list_lookup_insert_eq by (rewrite length_store_regs; lia). apply lookup_some_default. lia.
  - rewrite list_lookup_insert_ne, lookup_store_regs by lia.
    case_decide; [rewrite list_lookup_insert_ne by lia; apply lookup_some_default; lia|].
    rewrite !lookup_ge_None_2; [done|lia..].
Qed.
Lemma length_saveContext x ss g :
  length (fst (saveContext x ss g)) = length x /\ length (snd (saveContext x ss g)) = length g.
Proof. unfold saveContext. cbn [fst snd]. by rewrite !length_insert, length_store_regs. Qed.
Lemma restoreContext_exact g x :
  length x = 31%nat -> length g = 31%nat -> restoreContext g x = g.
Proof.
  intros Hx Hg. unfold restoreContext. rewrite load_is_store. apply list_eq. intros j.
  destruct (decide (j = 30%nat)) as [->|Hj].
  - rewrite list_lookup_insert_eq by (rewrite length_store_regs; lia). apply lookup_some_default. lia.
  - rewrite list_lookup_insert_ne, lookup_store_regs by lia.
    case_decide; [apply lookup_some_default; lia|]. rewrite !lookup_ge_None_2; [done|lia..].
Qed.

(** ** The invariant and the relation *)

Section Refine.
Context (off koff ksatp_ hartid : Z) (pfhandler : Z -> M -> Z -> outcome M) (kpfhandler : M -> Z -> outcome M).
Notation step := (step off koff ksatp_ hartid pfhandler kpfhandler).
Notation spec := (spec pfhandler kpfhandler).

Record task_wf (a : Z) (t : Task) : Prop := mkTaskWf {
  tw_gpr : length (gpr (ctx t)) = 31%nat;
  tw_kgpr : length (kgpr t) = 31%nat;
  tw_vaddr : lastpriv t <> AlwaysKernel -> vaddr t = a }.
(** In user mode the control registers lead back to the current task. *)
Definition user_wf (h : Hart) (a : Z) (t : Task) : Prop :=
  lastpriv t = User /\ sscratch h = a + off /\ stvec h = strapwrapper_ /\ satp h = ksatp t /\
  Z.testbit (sstatus h) spp = false.
Record kern_wf (k : Kern) : Prop := mkKernWf {
  kw_tasks : map_Forall task_wf (tasks k);
  kw_xs : length (xs (hart k)) = 31%nat;
  kw_irq : length (irqcnt k) = 1024%nat;
  kw_cur : exists t, tasks k !! cur k = Some t /\
             if user k then user_wf (hart k) (cur k) t else lastpriv t <> User /\ satp (hart k) = ksatp_ }.

(** The context of a task: in the registers while it runs, else in its structure. *)
Definition view (k : Kern) (a : Z) (t : Task) : Cpu :=
  mkCpu (if user k && (a =? cur k) then mkCtx (xs (hart k)) (hpc (hart k)) else ctx t) (lastpriv t).
Definition shows (k : Kern) (s : Cpus) : Prop :=
  running s = cur k /\ inuser s = user k /\ cmem s = mm k /\ forall a, cpus s !! a = view k a <$> tasks k !! a.

(** What a step needs: register files have 31 entries, the interrupt is one of the
    three known ones, the other hart does not run the chosen task, and the task that
    goes to user mode does not have its program counter in the text of the kernel. *)
Definition pc_ok (s : Cpus) : Prop :=
  forall c, inuser s = true -> cpus s !! running s = Some c ->
    ~ (2149580800 <= pc (cctx c) <= 2150629376).
Definition keeps (f : Context -> Context) : Prop :=
  forall c, length (gpr c) = 31%nat -> length (gpr (f c)) = 31%nat.
Definition allowed (oth : Z) (l : label) (s' : Cpus) : Prop :=
  match l with
  | LInstr x _ => length x = 31%nat
  | LTrap _ e | LKtrap _ e =>
      keeps (ev_sig e) /\ (ev_irq e = 0 \/ ev_irq e = 1 \/ ev_irq e = 10) /\ pc_ok s' /\
      match ev_switch e with Some (n, kr) => n <> oth /\ length kr = 31%nat | None => True end
  | LReturn _ sig => keeps sig /\ pc_ok s'
  | LSwitch n kr => n <> oth /\ length kr = 31%nat /\ pc_ok s'
  | LKtail => True
  end.

(** Inside the kernel all contexts are in the structures. *)
Definition saved (t : Task) : Cpu := mkCpu (ctx t) (lastpriv t).
Record parked (k : Kern) (s : Cpus) : Prop := mkParked {
  pk_run : running s = cur k;
  pk_cpus : forall a, cpus s !! a = saved <$> tasks k !! a;
  pk_tasks : map_Forall task_wf (tasks k);
  pk_xs : length (xs (hart k)) = 31%nat;
  pk_irq : length (irqcnt k) = 1024%nat;
  pk_mem : cmem s = mm k;
  pk_satp : satp (hart k) = ksatp_ }.

Lemma task_get_some k a t : tasks k !! a = Some t -> task_get k a = Done t.
Proof. unfold task_get. by intros ->. Qed.
Lemma parked_cur k s c :
  parked k s -> cpus s !! running s = Some c -> exists t, tasks k !! cur k = Some t /\ c = saved t.
Proof.
  intros [Hr Hc _ _ _ _ _]. rewrite Hr, Hc. destruct (tasks k !! cur k) as [t|]; [|done].
  intros [= <-]. by exists t.
Qed.
Lemma parked_kernel k s : kern_wf k -> shows k s -> user k = false -> parked k s.
Proof.
  intros [Ht Hx Hi (t0 & _ & H0)] (Hr & Hu & Hmm & Hc) E. rewrite E in H0. constructor; try done; [|apply H0]. intros a. rewrite Hc.
  apply option_fmap_ext. intros t. unfold view. by rewrite E.
Qed.
(** A change of the current task's structure is one of its processor. *)
Lemma parked_put k s t t' f u :
  parked k s -> tasks k !! cur k = Some t -> task_wf (cur k) t' -> f (saved t) = saved t' ->
  parked (put_task k (cur k) t') (cpu_upd s f u).
Proof.
  intros [Hr Hc Ht Hx Hi Hmm Hsat] Ec Hw Hf. constructor; try done; cbn.
  - intros a. rewrite Hr. destruct (decide (a = cur k)) as [->|Hne].
    + by rewrite lookup_alter_eq, lookup_insert_eq, Hc, Ec; cbn; rewrite Hf.
    + by rewrite lookup_alter_ne, lookup_insert_ne, Hc by done.
  - by apply map_Forall_insert_2.
Qed.
Lemma parked_hart k s h u : parked k s -> length (xs h) = 31%nat -> satp h = ksatp_ -> parked (with_hart k h u) s.
Proof. intros [Hr Hc Ht Hx Hi Hmm Hsat] Hl Hs. by constructor. Qed.

Lemma bits_after_exit st : Z.testbit (csr_clear (csr_set st spie) spp) spp = false.
Proof. unfold csr_clear. apply Z.clearbit_eq. Qed.

Lemma exit_ok k s t :
  parked k s -> tasks k !! cur k = Some t -> lastpriv t = User ->
  ~ (2149580800 <= pc (ctx t) <= 2150629376) ->
  exists k', _strapexit off k = Done k' /\ kern_wf k' /\ other k' = other k /\
    shows k' (mkCpus (cpus s) (running s) true (cmem s)).
Proof.
  intros [Hr Hc Ht Hx Hi Hmm Hsat] Ec Hp Hpc. destruct (Ht _ _ Ec) as [Hg Hk Hv].
  unfold _strapexit. rewrite (task_get_some k (cur k) t Ec). cbn [obind]. rewrite Hp.
  assert ((2149580800 <=? pc (ctx t)) && (pc (ctx t) <=? 2150629376) = false) as ->
    by (apply andb_false_iff; lia).
  cbn [negb passert obind sscratch with_csrs xs]. rewrite Hv by (by rewrite Hp).
  replace (cur k + off - off) with (cur k) by lia. rewrite (task_get_some k (cur k) t Ec). cbn [obind].
  rewrite restoreContext_exact by (rewrite ?length_insert; done). eexists. split; [done|].
  split; [|split; [done|]].
  - constructor; cbn; try done. exists t. split; [done|]. repeat split; try done.
    apply bits_after_exit.
  - split; [done|]. split; [done|]. split; [done|]. intros a. cbn. rewrite Hc.
    destruct (tasks k !! a) as [u|] eqn:Eu; [|done]. cbn. f_equal. unfold view, saved. cbn.
    destruct (Z.eqb_spec a (cur k)) as [->|]; [|done]. rewrite Ec in Eu. injection Eu as <-.
    by destruct (ctx t).
Qed.

Lemma deliver_ok k s t sig :
  parked k s -> tasks k !! cur k = Some t -> lastpriv t = User -> keeps sig ->
  exists k' t', deliver k sig = Done k' /\ parked k' (cpu_upd s (on_ctx sig) true) /\ other k' = other k /\
    tasks k' !! cur k' = Some t' /\ lastpriv t' = User /\ ctx t' = sig (ctx t).
Proof.
  intros Hk Ec Hp Hs. destruct (pk_tasks _ _ Hk _ _ Ec) as [Hg Hkg Hv].
  unfold deliver. rewrite (task_get_some k (cur k) t Ec). cbn [obind]. rewrite Hp.
  eexists _, _. split; [done|]. split; [|split; [done|]]; [|cbn; rewrite lookup_insert_eq; done].
  eapply parked_put; [done|done| |]; [|unfold saved, on_ctx; cbn; by rewrite Hp].
  constructor; cbn; [by apply Hs|done|]. intros _. apply Hv. by rewrite Hp.
Qed.

(** The end of a trap: signals, then user mode. *)
Lemma finish_ok k s t sig :
  parked k s -> tasks k !! cur k = Some t -> lastpriv t = User -> keeps sig ->
  pc_ok (cpu_upd s (on_ctx sig) true) ->
  exists k', finish off k sig = Done k' /\ kern_wf k' /\ other k' = other k /\
    shows k' (cpu_upd s (on_ctx sig) true).
Proof.
  intros Hk Ec Hp Hs Hpc.
  destruct (deliver_ok k s t sig Hk Ec Hp Hs) as (k1 & t1 & Hd & Hk1 & Ho & Ec1 & Hp1 & Hc1).
  unfold finish. rewrite Hd. cbn [obind].
  destruct (exit_ok k1 _ t1 Hk1 Ec1 Hp1) as (k2 & E & Hw & Ho2 & Hsh).
  - apply (Hpc (saved t1)); [done|]. rewrite (pk_run _ _ Hk1), (pk_cpus _ _ Hk1), Ec1. done.
  - exists k2. split; [done|]. split; [done|]. split; [congruence|done].
Qed.

Lemma parked_kgpr k s a t g :
  parked k s -> tasks k !! a = Some t -> length g = 31%nat -> parked (put_task k a (with_kgpr t g)) s.
Proof.
  intros [Hr Hc Ht Hx Hi Hmm Hsat] Ea Hg. constructor; try done; cbn.
  - intros b. rewrite Hc. destruct (decide (b = a)) as [->|Hne].
    + by rewrite lookup_insert_eq, Ea.
    + by rewrite lookup_insert_ne by done.
  - apply map_Forall_insert_2; [|done]. destruct (Ht _ _ Ea). by constructor.
Qed.
(** The structures after a change of kernel registers have the same contexts. *)
Lemma put_kgpr_lookup k a g t b u :
  tasks k !! a = Some t -> tasks k !! b = Some u ->
  exists u', tasks (put_task k a (with_kgpr t g)) !! b = Some u' /\ saved u' = saved u.
Proof.
  intros Ea Eb. cbn. destruct (decide (b = a)) as [->|Hne].
  - rewrite lookup_insert_eq. rewrite Ea in Eb. injection Eb as <-. by eexists.
  - rewrite lookup_insert_ne by done. by exists u.
Qed.
Lemma parked_next k s next u :
  parked k s -> parked (mkKern (hart k) (user k) (tasks k) next (other k) (irqcnt k) (mm k)) (mkCpus (cpus s) next u (cmem s)).
Proof. intros [Hr Hc Ht Hx Hi Hmm Hsat]. by constructor. Qed.

(** Kernel code that goes on. *)
Lemma resume_ok k s t x :
  parked k s -> tasks k !! cur k = Some t -> lastpriv t <> User -> inuser s = false -> length x = 31%nat ->
  kern_wf (with_hart k (with_xs (hart k) x) false) /\ shows (with_hart k (with_xs (hart k) x) false) s.
Proof.
  intros [Hr Hc Ht Hx Hi Hmm Hsat] Et Hp Hu Hl. split; [constructor; cbn; try done; by exists t|].
  split; [done|]. split; [done|]. split; [done|]. exact Hc.
Qed.

Lemma schedule_switches k s s' next kr :
  parked k s -> is_Some (tasks k !! cur k) -> run_task s next = Some s' -> next <> other k ->
  length kr = 31%nat -> pc_ok s' ->
  exists k', schedule off koff hartid k next kr = Done k' /\ kern_wf k' /\ other k' = other k /\ shows k' s'.
Proof.
  intros Hk [p0 Ep0] Hrun Ho Hkr Hpc. unfold run_task in Hrun. rewrite (pk_cpus _ _ Hk) in Hrun.
  destruct (tasks k !! next) as [t|] eqn:Et; [|done]. cbn in Hrun. injection Hrun as Es'.
  unfold schedule. rewrite (task_get_some _ _ _ Et). cbn [obind].
  set (g1 := <[3%nat := hartid]> (kgpr t)). assert (length g1 = 31%nat) as Hg1.
  { unfold g1. rewrite length_insert. apply (pk_tasks _ _ Hk _ _ Et). }
  pose proof (parked_kgpr k s next t g1 Hk Et Hg1) as Hk1.
  destruct (put_kgpr_lookup k next g1 t next t Et Et) as (t1 & Et1 & Hs1).
  destruct (put_kgpr_lookup k next g1 t (cur k) p0 Et Ep0) as (p1 & Ep1 & _).
  set (k1 := put_task k next (with_kgpr t g1)) in *.
  pose proof (parked_next k1 s next (inuser s') Hk1) as Hk2.
  set (k2 := mkKern _ _ _ next _ _ _) in *. cbn [other k2].
  destruct (Z.eqb_spec next (other k1)); [done|]. cbn [negb passert obind].
  rewrite (task_get_some k2 (cur k) p1 Ep1). cbn [obind].
  destruct (saveContext _ _ _) as [x g] eqn:Esv.
  pose proof (length_saveContext (<[30%nat := cur k + koff]> kr) (sscratch (hart k2)) (kgpr p1)) as [Hlx Hlg].
  rewrite Esv in Hlx, Hlg. cbn in Hlx, Hlg. rewrite length_insert in Hlx.
  assert (length g = 31%nat) as Hg by (rewrite Hlg; apply (pk_tasks _ _ Hk2 _ _ Ep1)).
  pose proof (parked_kgpr k2 _ (cur k) p1 g Hk2 Ep1 Hg) as Hk3.
  destruct (put_kgpr_lookup k2 (cur k) g p1 next t1 Ep1 Et1) as (t3 & Et3 & Hs3).
  set (k3 := put_task k2 (cur k) (with_kgpr p1 g)) in *.
  pose proof (parked_hart k3 _ (with_xs (hart k2) x) false Hk3 ltac:(cbn; lia) (pk_satp _ _ Hk3)) as Hk4.
  change (hart k3) with (hart k2). set (k4 := with_hart k3 _ false) in *.
  assert (tasks k4 !! next = Some t3) as Et4 by exact Et3. rewrite (task_get_some k4 next t3 Et4). cbn [obind].
  assert (saved t3 = saved t) as Hs by congruence. injection Hs as Hc3 Hp3. rewrite Hp3.
  pose proof (restoreContext_exact (kgpr t3) (<[30%nat := next + koff]> x)
    ltac:(rewrite length_insert; lia) (tw_kgpr _ _ (pk_tasks _ _ Hk4 _ _ Et4))) as Hrc.
  destruct (lastpriv t) eqn:Hp; rewrite <- Es' in *.
  - destruct (exit_ok k4 _ t3 Hk4 Et4 Hp3) as (k5 & E & Hw & Ho5 & Hsh).
    + apply (Hpc (saved t3)); [done|]. cbn. rewrite (pk_cpus _ _ Hk), Et. cbn. unfold saved. by rewrite Hc3, Hp3, Hp.
    + by exists k5.
  - destruct (resume_ok k4 _ t3 (kgpr t3) Hk4 Et4 ltac:(by rewrite Hp3) eq_refl) as [Hw Hsh];
      [apply (pk_tasks _ _ Hk4 _ _ Et4)|].
    eexists. split; [rewrite Hrc; reflexivity|]. done.
  - destruct (resume_ok k4 _ t3 (kgpr t3) Hk4 Et4 ltac:(by rewrite Hp3) eq_refl) as [Hw Hsh];
      [apply (pk_tasks _ _ Hk4 _ _ Et4)|].
    eexists. split; [rewrite Hrc; reflexivity|]. done.
Qed.

Lemma bits_after_trap st :
  Z.testbit (csr_clear (if Z.testbit (csr_clear st spp) sie then csr_set (csr_clear st spp) spie
                        else csr_clear (csr_clear st spp) spie) sie) spp = false.
Proof.
  unfold csr_clear, csr_set, spp, sie, spie. rewrite Z.clearbit_neq by done.
  destruct (Z.testbit _ 1); [rewrite Z.setbit_neq by done|rewrite Z.clearbit_neq by done]; apply Z.clearbit_eq.
Qed.

Lemma bits_after_ktrap st :
  Z.testbit (csr_clear (if Z.testbit (csr_set st spp) sie then csr_set (csr_set st spp) spie
                        else csr_clear (csr_set st spp) spie) sie) spp = true.
Proof.
  unfold csr_clear, csr_set, spp, sie, spie. rewrite Z.clearbit_neq by done.
  destruct (Z.testbit _ 1); [rewrite Z.setbit_neq by done|rewrite Z.clearbit_neq by done]; apply Z.setbit_eq; lia.
Qed.

Lemma enter_ok k s cause :
  kern_wf k -> shows k s -> user k = true ->
  exists k1 t1, _strapenter off koff ksatp_ (with_hart k (hw_trap (hart k) cause) false) = Done k1 /\
    parked k1 s /\ other k1 = other k /\ user k1 = false /\ tasks k1 !! cur k1 = Some t1 /\
    lastpriv t1 = User /\ Z.testbit (sstatus (hart k1)) spp = false.
Proof.
  intros [Ht Hx Hi (t & Et & Hu)] (Hr & Hui & Hmm & Hc) Eu. rewrite Eu in Hu.
  destruct Hu as (Hp & Hss & Htv & Hsa & Hspp). destruct (Ht _ _ Et) as [Hg Hkg Hv].
  unfold _strapenter, swap_t6. cbn -[saveContext hw_trap Z.testbit]. cbn [sscratch hw_trap xs].
  rewrite list_lookup_insert_eq by lia. cbn [default id]. rewrite Hss.
  replace (cur k + off - off) with (cur k) by lia. unfold task_get at 1. cbn [tasks with_hart].
  rewrite Et. cbn [obind]. destruct (saveContext _ _ _) as [x g] eqn:Es.
  pose proof (saveContext_swapped (xs (hart k)) (gpr (ctx t)) (cur k + off) Hx Hg) as Eg.
  rewrite Es in Eg. cbn in Eg. subst g.
  pose proof (length_saveContext (<[30%nat := cur k + off]> (xs (hart k)))
    (default 0 (xs (hart k) !! 30%nat)) (gpr (ctx t))) as [Hl _]. rewrite Es in Hl. cbn in Hl.
  rewrite length_insert in Hl.
  unfold task_get. cbn [tasks put_task]. rewrite lookup_insert_eq. cbn [obind].
  eexists _, _. split; [reflexivity|]. split; [|repeat split].
  - constructor; try done; cbn [tasks with_hart put_task].
    + intros a. rewrite Hc. destruct (decide (a = cur k)) as [->|Hne].
      * rewrite Et, lookup_insert_eq. cbn. unfold view, saved. cbn. by rewrite Eu, Z.eqb_refl.
      * rewrite !lookup_insert_ne by done. destruct (tasks k !! a); [|done]. cbn. unfold view.
        destruct (Z.eqb_spec a (cur k)); [done|]. by rewrite andb_false_r.
    + rewrite insert_insert_eq. apply map_Forall_insert_2; [|done]. by constructor.
    + cbn. rewrite !length_insert. lia.
  - cbn [tasks cur with_hart put_task]. apply lookup_insert_eq.
  - done.
  - apply bits_after_trap.
Qed.

(** ** The steps *)

Definition refined (k k' : Kern) (s' : Cpus) : Prop :=
  kern_wf k' /\ other k' = other k /\ shows k' s'.

Lemma instr_ok k s x p :
  kern_wf k -> shows k s -> user k = true -> length x = 31%nat ->
  exists k', step (LInstr x p) k = Done k' /\ refined k k' (cpu_upd s (on_ctx (fun _ => mkCtx x p)) true).
Proof.
  intros [Ht Hx Hi (t & Et & Hu)] (Hr & Hui & Hmm & Hc) Eu Hl. unfold step. rewrite Eu. eexists. split; [done|].
  rewrite Eu in Hu. split; [|split; [done|]].
  - constructor; cbn -[Z.testbit]; try done. by exists t.
  - split; [done|]. split; [done|]. split; [done|]. intros a. cbn. rewrite Hr. destruct (decide (a = cur k)) as [->|Hne].
    + rewrite lookup_alter_eq, Hc, Et. cbn. unfold view, on_ctx. cbn. by rewrite Z.eqb_refl.
    + rewrite lookup_alter_ne, Hc by done. destruct (tasks k !! a); [|done]. cbn. unfold view. cbn.
      destruct (Z.eqb_spec a (cur k)); [done|]. by rewrite andb_false_r.
Qed.

Lemma external_ok k s irq :
  parked k s -> irq = 0 \/ irq = 1 \/ irq = 10 ->
  exists k', externalInterruptHandler k irq = Done k' /\ parked k' s /\ other k' = other k /\
    tasks k' = tasks k /\ cur k' = cur k /\ user k' = user k.
Proof.
  intros [Hr Hc Ht Hx Hi Hmm Hsat] Hq. unfold externalInterruptHandler.
  destruct (lookup_lt_is_Some_2 (irqcnt k) (Z.to_nat irq)) as [c Ec]; [lia|].
  assert (aget (irqcnt k) irq = Done c) as ->.
  { unfold aget. destruct (Z.ltb_spec irq 0); [lia|]. by rewrite Ec. }
  cbn [obind]. rewrite aset_upd by lia. cbn [obind].
  assert ((irq =? 0) || (irq =? 10) || (irq =? 1) = true) as -> by (destruct Hq as [->|[->| ->]]; done).
  eexists. split; [done|]. split; [|done]. constructor; try done. cbn. by rewrite length_upd.
Qed.

Lemma enter_call_ok k s t :
  parked k s -> tasks k !! cur k = Some t -> lastpriv t = User -> user k = false ->
  exists k', uecall_enter k = Done k' /\
    refined k k' (cpu_upd s (fun c => mkCpu (past_ecall (cctx c)) Kernel) false).
Proof.
  intros Hk Ec Hp Hu. destruct (pk_tasks _ _ Hk _ _ Ec) as [Hg Hkg Hv].
  unfold uecall_enter. rewrite (task_get_some k (cur k) t Ec). cbn [obind]. eexists. split; [done|].
  set (t' := with_priv _ Kernel).
  assert (parked (put_task k (cur k) t') (cpu_upd s (fun c => mkCpu (past_ecall (cctx c)) Kernel) false)) as Hk'.
  { eapply parked_put; [done|done| |done]. constructor; cbn; [done|done|]. intros _. apply Hv. by rewrite Hp. }
  destruct Hk' as [Hr' Hc' Ht' Hx' Hi' Hmm' Hsat']. split; [|split; [done|]].
  - constructor; try done. exists t'. cbn. by rewrite lookup_insert_eq, Hu.
  - split; [done|]. split; [done|]. split; [done|]. intros a. rewrite Hc'. apply option_fmap_ext. intros u. unfold view. cbn.
    by rewrite Hu.
Qed.

Lemma leave_ok k s t r sig :
  parked k s -> tasks k !! cur k = Some t -> lastpriv t = Kernel -> keeps sig ->
  let s' := cpu_upd s (fun c => mkCpu (sig (set_a0 r (cctx c))) User) true in
  pc_ok s' -> exists k', (let* k := uecall_leave k r in finish off k sig) = Done k' /\ refined k k' s'.
Proof.
  intros Hk Ec Hp Hs s' Hpc. destruct (pk_tasks _ _ Hk _ _ Ec) as [Hg Hkg Hv].
  unfold uecall_leave. rewrite (task_get_some k (cur k) t Ec). cbn [obind].
  set (t' := with_priv (with_ctx t _) User).
  assert (parked (put_task k (cur k) t') (cpu_upd s (fun c => mkCpu (set_a0 r (cctx c)) User) true)) as Hk'.
  { eapply parked_put; [done|done| |by destruct r]. constructor; [|done|].
    - cbn. destruct r; cbn; [by rewrite length_insert|done].
    - intros _. apply Hv. by rewrite Hp. }
  assert (s' = cpu_upd (cpu_upd s (fun c => mkCpu (set_a0 r (cctx c)) User) true) (on_ctx sig) true) as Es.
  { unfold s', cpu_upd. cbn. rewrite alter_alter_eq. done. }
  rewrite Es in Hpc |- *. apply (finish_ok _ _ t' sig Hk'); try done. cbn. apply lookup_insert_eq.
Qed.

(** The page-fault handler changes the address spaces only. *)
Lemma parked_mm k s m : parked k s -> parked (with_mm k m) (set_mem s m).
Proof. intros [Hr Hc Ht Hx Hi Hmm Hsat]. by constructor. Qed.
Lemma fault_ok k s addr m :
  parked k s -> (if isPrevPriv k then kpfhandler (cmem s) addr else pfhandler (running s) (cmem s) addr) = Done m ->
  pagefaultHandler ksatp_ pfhandler kpfhandler k addr = Done (with_mm k m).
Proof.
  intros Hk E. unfold pagefaultHandler. rewrite (pk_mem _ _ Hk), (pk_run _ _ Hk) in E. rewrite (pk_satp _ _ Hk).
  destruct (isPrevPriv k); [rewrite Z.eqb_refl; cbn [passert obind]|]; by rewrite E.
Qed.

Lemma trap_ok k s s' cause e :
  kern_wf k -> shows k s -> user k = true -> spec (LTrap cause e) s = Some s' ->
  allowed (other k) (LTrap cause e) s' ->
  exists k', strapwrapper off koff ksatp_ hartid pfhandler kpfhandler k cause e = Done k' /\ refined k k' s'.
Proof.
  intros Hw Hsh Eu Hsp (Hsig & Hq & Hpc & Hsw).
  destruct (enter_ok k s cause Hw Hsh Eu) as (k1 & t1 & E1 & Hk1 & Ho1 & Hu1 & Et1 & Hp1 & Hspp).
  unfold strapwrapper. rewrite E1. cbn [obind]. unfold spec in Hsp.
  destruct Hsh as (_ & Hu & _). rewrite Hu, Eu in Hsp.
  destruct (classify cause) as [c| | |]; [|done..]. cbn [obind].
  assert (forall k2 s2, parked k2 s2 -> tasks k2 = tasks k1 -> cur k2 = cur k1 -> other k2 = other k1 ->
    s' = cpu_upd s2 (on_ctx (ev_sig e)) true ->
    exists k', finish off k2 (ev_sig e) = Done k' /\ refined k k' s') as Hfin.
  { intros k2 s2 Hk2 Et2 Ec2 Eo2 ->. destruct (finish_ok k2 s2 t1 (ev_sig e)) as (k' & E & Hw' & Ho' & Hs');
      [done|by rewrite Et2, Ec2|done..|]. exists k'. split; [done|]. split; [done|]. split; [congruence|done]. }
  destruct c; cbn [handle].
  - unfold timer_check. rewrite (task_get_some k1 _ _ Et1). cbn [obind]. rewrite Hp1, Hspp.
    cbn [negb passert obind]. destruct (ev_switch e) as [[next kr]|].
    + destruct Hsw as [Hne Hkr]. destruct (schedule_switches k1 s s' next kr) as (k' & E & Hw' & Ho' & Hs');
        try done; [congruence|]. exists k'. split; [done|]. split; [done|]. split; [congruence|done].
    + injection Hsp as <-. by apply (Hfin k1 s).
  - destruct (external_ok k1 s (ev_irq e) Hk1 Hq) as (k2 & -> & Hk2 & Ho2 & Et2 & Ec2 & _). cbn [obind].
    injection Hsp as <-. by apply (Hfin k2 s).
  - injection Hsp as <-. destruct (enter_call_ok k1 s t1) as (k' & -> & Hw' & Ho' & Hs'); [done..|].
    exists k'. split; [done|]. split; [done|]. split; [congruence|done].
  - destruct (pfhandler _ _ _) as [m| | |] eqn:Em; try done. injection Hsp as <-.
    rewrite (fault_ok k1 s (ev_stval e) m Hk1) by (unfold isPrevPriv; by rewrite Hspp). cbn [obind].
    apply (Hfin (with_mm k1 m) (set_mem s m)); try done. by apply parked_mm.
  - injection Hsp as <-. by apply (Hfin k1 s).
Qed.

(** Inside the kernel the processors and their tasks are as the specification has them. *)
Lemma parked_shows k s t :
  parked k s -> tasks k !! cur k = Some t -> lastpriv t <> User -> user k = false -> inuser s = false ->
  kern_wf k /\ shows k s.
Proof.
  intros [Hr Hc Ht Hx Hi Hmm Hsat] Et Hp Hu Hs. split.
  - constructor; try done. exists t. by rewrite Hu.
  - split; [done|]. split; [congruence|]. split; [done|]. intros a. rewrite Hc. apply option_fmap_ext. intros u.
    unfold view. by rewrite Hu.
Qed.
Lemma ktail_ok k s t :
  parked k s -> tasks k !! cur k = Some t -> lastpriv t <> User -> inuser s = false ->
  exists k', ktrap_exit k = Done k' /\ refined k k' s.
Proof.
  intros Hk Et Hp Hs. unfold ktrap_exit. rewrite (task_get_some k _ _ Et). cbn [obind]. eexists. split; [done|].
  match goal with |- refined _ ?k' _ => assert (parked k' s) as Hk' by
    (apply parked_hart; [done|apply (pk_xs _ _ Hk)|apply (pk_satp _ _ Hk)]) end.
  destruct (parked_shows _ _ t Hk') as [? ?]; try done.
Qed.

Lemma ktrap_ok k s s' cause e :
  kern_wf k -> shows k s -> user k = false -> spec (LKtrap cause e) s = Some s' ->
  allowed (other k) (LKtrap cause e) s' ->
  exists k', ktrapwrapper1 off koff ksatp_ hartid pfhandler kpfhandler k cause e = Done k' /\ refined k k' s'.
Proof.
  intros Hw Hsh Hu Hsp (Hsig & Hq & Hpc & Hsw). pose proof (parked_kernel k s Hw Hsh Hu) as Hk.
  destruct Hw as [_ _ _ (t & Et & Hp)]. rewrite Hu in Hp. destruct Hp as [Hp _].
  unfold ktrapwrapper1. set (k0 := with_hart k (hw_ktrap (hart k) cause) false).
  assert (Hk0 : parked k0 s) by (apply parked_hart; [done|apply (pk_xs _ _ Hk)|apply (pk_satp _ _ Hk)]).
  rewrite (task_get_some k0 (cur k0) t Et). cbn [obind].
  set (t1 := mkTask (ctx t) (kgpr t) (sepc (hart k0)) (ksatp t) (vaddr t) (lastpriv t)).
  set (k1 := put_task k0 (cur k0) t1).
  assert (Et1 : tasks k1 !! cur k1 = Some t1) by apply lookup_insert_eq.
  assert (Hk1 : parked k1 s).
  { destruct Hk0 as [Hr Hc Ht Hx Hi Hmm Hsat]. destruct (Ht _ _ Et) as [Hg Hkg Hv]. constructor; try done; cbn [k1 tasks put_task].
    - intros a. rewrite Hc. destruct (decide (a = cur k0)) as [->|Hne]; [|by rewrite lookup_insert_ne].
      rewrite lookup_insert_eq. change (cur k0) with (cur k). change (tasks k0) with (tasks k). by rewrite Et.
    - apply map_Forall_insert_2; [by constructor|done]. }
  assert (Hspp : isPrevPriv k1 = true) by exact (bits_after_ktrap _).
  assert (Hin : inuser s = false) by (by rewrite (proj1 (proj2 Hsh)), Hu).
  unfold spec in Hsp. rewrite Hin in Hsp.
  assert (forall k2 s2, parked k2 s2 -> tasks k2 = tasks k1 -> cur k2 = cur k1 -> other k2 = other k -> inuser s2 = false ->
    exists k', (let* k := deliver k2 (ev_sig e) in ktrap_exit k) = Done k' /\ refined k k' s2) as Hfin.
  { intros k2 s2 Hk2 Et2 Ec2 Eo2 Hi2. assert (tasks k2 !! cur k2 = Some t1) as Ec by by rewrite Et2, Ec2.
    unfold deliver. rewrite (task_get_some k2 _ _ Ec). cbn [obind].
    assert ((match lastpriv t1 with User => Done (put_task k2 (cur k2) (with_priv (with_ctx t1 (ev_sig e (ctx t1))) User)) | _ => Done k2 end)
      = Done k2) as -> by (by destruct (lastpriv t1) eqn:El). cbn [obind].
    destruct (ktail_ok k2 s2 t1) as (k' & E & Hw' & Ho' & Hs'); [done..|]. exists k'. split; [done|]. split; [done|]. split; [congruence|done]. }
  destruct (classify cause) as [[]| | |]; try done; cbn [obind handle].
  - rewrite (pk_cpus _ _ Hk1) in Hsp. rewrite (pk_run _ _ Hk1), Et1 in Hsp. cbn in Hsp.
    unfold timer_check. rewrite (task_get_some k1 _ _ Et1). cbn [obind]. change (lastpriv t1) with (lastpriv t) in *.
    destruct (lastpriv t) eqn:El; try done. cbn [passert obind].
    destruct (ev_switch e) as [[next kr]|]; [|injection Hsp as <-; by apply Hfin].
    destruct Hsw as [Hne Hkr].
    destruct (schedule_switches k1 s s' next kr) as (k' & E & Hw' & Ho' & Hs'); try done.
    exists k'. split; [done|]. split; [done|]. split; [rewrite Ho'; done|done].
  - injection Hsp as <-. destruct (external_ok k1 s (ev_irq e) Hk1 Hq) as (k2 & -> & Hk2 & Ho2 & Et2 & Ec2 & _). cbn [obind].
    destruct (ev_switch e) as [[]|]; by apply Hfin.
  - destruct (kpfhandler _ _) as [m| | |] eqn:Em; try done. injection Hsp as <-.
    rewrite (fault_ok k1 s (ev_stval e) m Hk1) by (by rewrite Hspp). cbn [obind].
    destruct (ev_switch e) as [[]|]; (apply Hfin; [by apply parked_mm|done..]).
  - injection Hsp as <-. destruct (ev_switch e) as [[]|]; by apply Hfin.
Qed.

Lemma step_ok l k s s' :
  kern_wf k -> shows k s -> spec l s = Some s' -> allowed (other k) l s' ->
  exists k', step l k = Done k' /\ refined k k' s'.
Proof.
  intros Hw Hsh Hsp Ha. pose proof (proj1 (proj2 Hsh)) as Hu.
  destruct l as [x p|cause e|r sig|next kr|cause e|]; cbn [step]; unfold spec in Hsp; rewrite Hu in Hsp;
    destruct (user k) eqn:Eu; try done.
  - injection Hsp as <-. destruct (instr_ok k s x p Hw Hsh Eu Ha) as (k' & E & H). unfold step in E.
    rewrite Eu in E. by exists k'.
  - apply (trap_ok k s s' cause e); try done. unfold spec. by rewrite Hu.
  - pose proof (parked_kernel k s Hw Hsh Eu) as Hk. destruct (cpus s !! running s) as [c|] eqn:Ec; [|done].
    destruct (parked_cur k s c Hk Ec) as (t & Et & ->). cbn in Hsp. destruct (lastpriv t) eqn:Ep; [done| |done].
    injection Hsp as <-. destruct Ha as [Hs Hpc]. by apply (leave_ok k s t r sig).
  - destruct Ha as (Hne & Hkr & Hpc). pose proof (parked_kernel k s Hw Hsh Eu) as Hk.
    apply (schedule_switches k s s'); try done. destruct Hw as [_ _ _ (t & Et & _)]. by exists t.
  - apply (ktrap_ok k s s' cause e); try done. unfold spec. by rewrite Hu.
  - injection Hsp as <-. pose proof (parked_kernel k s Hw Hsh Eu) as Hk. destruct Hw as [_ _ _ (t & Et & Hp)].
    rewrite Eu in Hp. destruct Hp as [Hp _]. by apply (ktail_ok k s t).
Qed.

(** A run of the specification, every step of which is allowed. *)
Fixpoint spec_run (oth : Z) (ls : list label) (s s' : Cpus) : Prop :=
  match ls with
  | [] => s' = s
  | l :: ls => exists s1, spec l s = Some s1 /\ allowed oth l s1 /\ spec_run oth ls s1 s'
  end.

(** C7. Every user task has a processor of its own. Consider a run of user instructions,
    traps, page faults, system calls and switches in any order on one hart that the kernel
    is meant to handle: the cause of every trap is a timer or external interrupt, a
    system call, a page fault or a store access fault (any other one panics, see
    user_exception_panics), the external interrupts are numbers 0, 1 and 10, the timer
    interrupts kernel code only of the idle task, every page fault is one that the address
    space can handle, no task returns to user mode at an address of the kernel's text
    (0x80200000 to 0x80300000, see kernel_address_panics), the scheduler does not choose
    the task of the other hart, and a signal handler's context has 31 registers. Then the
    kernel's saving and restoring of registers runs without a failure, and each task finds
    the registers and the program counter exactly as it left them, but for the result of a
    system call (past the ecall, in a0) and for the signals that are delivered to it; the
    address spaces are changed by the page faults only. In user mode the control registers
    lead the next trap to the task that is running. *)
Theorem trap_refines_cpus ls k s s' :
  kern_wf k -> shows k s -> spec_run (other k) ls s s' ->
  exists k', steps off koff ksatp_ hartid pfhandler kpfhandler ls k = Done k' /\ kern_wf k' /\ shows k' s'.
Proof.
  revert k s. induction ls as [|l ls IH]; intros k s Hw Hsh; cbn [spec_run steps].
  - intros ->. by exists k.
  - intros (s1 & Hsp & Ha & Hrun). destruct (step_ok l k s s1 Hw Hsh Hsp Ha) as (k1 & -> & Hw1 & Ho & Hs1).
    cbn [obind]. apply (IH k1 s1 Hw1 Hs1). by rewrite Ho.
Qed.

(** The processors that a kernel shows. *)
Definition cpus_of (k : Kern) : Cpus :=
  mkCpus (map_imap (fun a t => Some (view k a t)) (tasks k)) (cur k) (user k) (mm k).
Lemma shows_of k : shows k (cpus_of k).
Proof.
  split; [done|]. split; [done|]. split; [done|]. intros a. cbn. rewrite map_lookup_imap. by destruct (tasks k !! a).
Qed.

(** A user program can bring the kernel down: an exception that is neither a system
    call nor a page fault nor a failed store (an illegal instruction, a breakpoint, a
    misaligned access, a load from an address without memory) ends in panic. *)
Theorem user_exception_panics k s cause e :
  kern_wf k -> shows k s -> user k = true ->
  isInterrupt cause = false -> cause ∉ [7; 8; 12; 13; 15] ->
  step (LTrap cause e) k = Panic.
Proof.
  intros Hw Hsh Eu Hi Hc. unfold step. rewrite Eu. unfold strapwrapper.
  destruct (enter_ok k s cause Hw Hsh Eu) as (k1 & t1 & -> & _). cbn [obind]. unfold classify. rewrite Hi.
  destruct (Z.eqb_spec cause 8), (Z.eqb_spec cause 7), (Z.eqb_spec cause 12), (Z.eqb_spec cause 13),
    (Z.eqb_spec cause 15); subst; try done; set_solver.
Qed.
(** So can one that jumps into the text of the kernel: the next trap that would lead
    back to it fails the assertion of _strapexit. *)
Theorem kernel_address_panics k s :
  kern_wf k -> shows k s -> user k = true -> 2149580800 <= hpc (hart k) <= 2150629376 ->
  step (LTrap 7 (mkEvent 0 0 None (fun c => c))) k = Panic.
Proof.
  intros Hw Hsh Eu Hpc. unfold step. rewrite Eu. unfold strapwrapper.
  destruct (enter_ok k s 7 Hw Hsh Eu) as (k1 & t1 & -> & Hk1 & _ & _ & Et1 & Hp1 & _). cbn [obind].
  assert (finish off k1 (fun c => c) = Panic) as Hf; [|exact Hf].
  destruct (deliver_ok k1 s t1 (fun c => c) Hk1 Et1 Hp1 ltac:(by intros ?)) as (k2 & t2 & Hd & Hk2 & _ & Et2 & Hp2 & Hc2).
  unfold finish. rewrite Hd. cbn [obind]. unfold _strapexit. rewrite (task_get_some k2 _ _ Et2). cbn [obind].
  rewrite Hp2, Hc2.
  assert (ctx t1 = mkCtx (xs (hart k)) (hpc (hart k))) as ->.
  { pose proof (pk_cpus _ _ Hk1 (cur k1)) as E. rewrite Et1, <- (pk_run _ _ Hk1) in E.
    destruct Hsh as (Hr & Hu & _ & Hc'). rewrite Hr, Hc' in E. destruct Hw as [_ _ _ (t & Et & _)].
    rewrite Et in E. cbn in E. unfold view in E. rewrite Eu, Z.eqb_refl in E. cbn in E. by injection E. }
  cbn [pc]. assert ((2149580800 <=? hpc (hart k)) && (hpc (hart k) <=? 2150629376) = true) as ->; [|done].
  apply andb_true_iff; lia.
Qed.
End Refine.
End Memory.

(** ** Two tasks that take turns *)

Definition timer_cause : Z := 2 ^ 63 + 5.
Definition ex_task (v p : Z) (a : Z) : Task :=
  mkTask (mkCtx (replicate 31 v) p) (replicate 31 0) 0 (a + 1) a User.
(** A memory in which a fault on a page records the page of the task. *)
Definition ex_fault (t : Z) (m : list (Z * Z)) (addr : Z) : outcome (list (Z * Z)) :=
  if addr <? 4096 then Panic else Done ((t, addr / 4096) :: m).
Definition ex_kern : Kern (M := list (Z * Z)) :=
  mkKern (mkHart (replicate 31 7) 65536 strapwrapper_ (4096 + 16) 4097 0 0 0) true
    (<[4096 := ex_task 1 0 4096]> (<[8192 := ex_task 2 65600 8192]> ∅)) 4096 0 (replicate 1024 0) [].
Definition turn (next : Z) : label := LTrap timer_cause (mkEvent 0 0 (Some (next, replicate 31 5)) (fun c => c)).
Definition ex_regs : list Z := seq 100 31 ≫= fun x => [Z.of_nat x].
Definition ex_run : list label := [LInstr ex_regs 65540; turn 8192; LTrap 13 (mkEvent 0 20480 None (fun c => c)); turn 4096].

Lemma ex_kern_wf : kern_wf 16 9 ex_kern.
Proof.
  constructor; [|done..|].
  - apply map_Forall_insert_2; [by constructor|]. apply map_Forall_insert_2; [by constructor|].
    apply map_Forall_empty.
  - eexists. split; [reflexivity|]. by repeat split.
Qed.
Lemma trap_refines_cpus_witness :
  exists k' s', steps 16 512 9 0 ex_fault (ex_fault 0) ex_run ex_kern = Done k' /\ kern_wf 16 9 k' /\ shows k' s' /\
    xs (hart k') = ex_regs /\ hpc (hart k') = 65540 /\ mm k' = [(8192, 5)].
Proof.
  assert (exists s', spec_run ex_fault (ex_fault 0) 0 ex_run (cpus_of ex_kern) s') as [s' Hs].
  { eexists. unfold ex_run. eexists. split; [reflexivity|]. split; [done|].
    do 3 (eexists; split; [reflexivity|]; split;
      [split; [by intros ?|]; split; [by left|]; split; [|by repeat split]; intros c _ Hc; vm_compute in Hc; injection Hc as <-; cbn; lia|]).
    reflexivity. }
  destruct (trap_refines_cpus 16 512 9 0 ex_fault (ex_fault 0) ex_run ex_kern (cpus_of ex_kern) s' ex_kern_wf (shows_of ex_kern) Hs)
    as (k' & E & Hw & Hsh).
  exists k', s'. split; [done|]. split; [done|]. split; [done|].
  vm_compute in E. by injection E as <-.
Defined.

End Trap.
