(* ===== verification/Buddy.v ===== *)
(** * Buddy: the physical page allocator (kernel/alloc.cc, include/alloc.hh)

    [alloc::PageMgr] keeps a complete binary tree in the array [buddyNodes]:
    node [i] has children [lsub i] and [rsub i], a leaf stands for one page,
    and a node stores the biased order (order + 1) of the largest free block
    below it, 0 when there is none. The definitions follow the code statement
    by statement on that array. The second half of the file relates the array
    to a tree of free and used blocks and proves the allocator correct. *)

From S2P Require Import Prelude Klib.
Local Open Scope Z_scope.

Module Buddy.

(** ** The code *)

(** [PageMgr] with the two file-scope statistics counters next to it. *)
Record PageMgr : Type := mkPageMgr {
  start : Z;
  end_ : Z;
  rootOrder : Z;
  buddyTreeSize : Z;
  buddyNodes : list Z;
  pagesAllocated : Z;
  pagesFreed : Z
}.

Definition lsub (x : Z) : Z := u64 (u64 (Z.shiftl (u64 (x + 1)) 1) - 1).
Definition rsub (x : Z) : Z := u64 (Z.shiftl (u64 (x + 1)) 1).
Definition prnt (x : Z) : Z := u64 (Z.shiftr (u64 (x + 1)) 1 - 1).

(** PageMgr::pos2node: the loop over [size] from [rootOrder-1] down to
    [order]; [n] is the number of iterations left. *)
Fixpoint pos2node_loop (n : nat) (pos size nd : Z) : Z :=
  match n with
  | O => nd
  | S n' =>
      pos2node_loop n' pos (size - 1)
        (if Z.land (Z.shiftr pos size) 1 =? 0 then lsub nd else rsub nd)
  end.
Definition pos2node (rootOrder pos order : Z) : Z :=
  pos2node_loop (Z.to_nat (rootOrder - order)) pos (rootOrder - 1) 0.

(** The search loop of PageMgr::alloc; one call per iteration, [size] is the
    biased order of the nodes at the depth of [nd]. *)
Fixpoint alloc_find (n : nat) (rounded size nd node : Z) (ns : list Z)
  : outcome (Z * list Z) :=
  match n with
  | O => Done (node, ns)
  | S n' =>
      let* v := aget ns nd in
      if (v =? size) && (v =? rounded) then alloc_find n' rounded (size - 1) nd nd ns
      else if v =? size then
        let* ns1 := aset ns (rsub nd) (u8 (size - 1)) in
        let* ns2 := aset ns1 (lsub nd) (u8 (size - 1)) in
        alloc_find n' rounded (size - 1) (lsub nd) node ns2
      else
        let* l := aget ns (lsub nd) in
        let* r := aget ns (rsub nd) in
        let nd' :=
          if rounded <=? kmin l r
          then (if l <? r then lsub nd else rsub nd)
          else (if r <? l then lsub nd else rsub nd) in
        alloc_find n' rounded (size - 1) nd' node ns
  end.

(** The loops that recompute the ancestors: [for(nd=prnt(node);nd>0;nd=prnt(nd))]. *)
Definition alloc_node (ns : list Z) (nd : Z) : outcome (list Z) :=
  let* l := aget ns (lsub nd) in
  let* r := aget ns (rsub nd) in
  aset ns nd (kmax l r).

Fixpoint alloc_up (fuel : nat) (nd : Z) (ns : list Z) : outcome (list Z) :=
  if nd <=? 0 then Done ns
  else match fuel with
       | O => Diverge
       | S f => let* ns' := alloc_node ns nd in alloc_up f (prnt nd) ns'
       end.

Definition free_node (ns : list Z) (idx order : Z) : outcome (list Z) :=
  let* l := aget ns (lsub idx) in
  let* r := aget ns (rsub idx) in
  aset ns idx (if (l =? r) && (l =? order) then u8 (l + 1) else kmax l r).

(** [idx] is an [int] in PageMgr::free, [prnt] works on [xlen_t]. *)
Fixpoint free_up (fuel : nat) (idx order : Z) (ns : list Z) : outcome (list Z) :=
  if idx <=? 0 then Done ns
  else match fuel with
       | O => Diverge
       | S f =>
           let* ns' := free_node ns idx order in
           free_up f (i32 (prnt (u64 idx))) (order + 1) ns'
       end.

(** Depth bound of a tree with 64-bit node numbers. *)
Definition depthFuel : nat := 64.

Definition alloc (s : PageMgr) (pages : Z) : outcome (Z * PageMgr) :=
  let rounded := log2up pages + 1 in
  let* v0 := aget (buddyNodes s) 0 in
  if v0 <? rounded then Panic
  else
    let* (node, ns1) :=
      alloc_find (Z.to_nat (rootOrder s + 2 - rounded)) rounded (rootOrder s + 1) 0 0
        (buddyNodes s) in
    passert (0 <? node) ;;;
    let* ns2 := aset ns1 node 0 in
    let* ns3 := alloc_up depthFuel (prnt node) ns2 in
    let* ns4 := alloc_node ns3 0 in
    let ppn := u64 (start s +
                    (node + 1 - Z.shiftl 1 (rootOrder s + 1 - rounded))
                    * Z.shiftl 1 (rounded - 1)) in
    passert (ppn <? end_ s) ;;;
    passert (0 <? ppn) ;;;
    Done (ppn,
          mkPageMgr (start s) (end_ s) (rootOrder s) (buddyTreeSize s) ns4
            (u64 (pagesAllocated s + Z.shiftl 1 (rounded - 1))) (pagesFreed s)).

Definition free (s : PageMgr) (ppn order : Z) : outcome PageMgr :=
  let idx := i32 (pos2node (rootOrder s) (u64 (ppn - start s)) order) in
  let* v := aget (buddyNodes s) idx in
  passert (v =? 0) ;;;
  let* ns1 := aset (buddyNodes s) idx (u8 (order + 1)) in
  let* ns2 := free_up depthFuel (i32 (prnt (u64 idx))) (order + 1) ns1 in
  let* ns3 := alloc_node ns2 0 in
  Done (mkPageMgr (start s) (end_ s) (rootOrder s) (buddyTreeSize s) ns3
          (pagesAllocated s) (u64 (pagesFreed s + Z.shiftl 1 order))).

(** PageMgr::freeUnaligned: [for(int i=rootOrder;i>=0;i--)], [n] is [i+1]. *)
Fixpoint freeUnaligned_loop (n : nat) (s : PageMgr) (ppn pages : Z) : outcome PageMgr :=
  match n with
  | O => Done s
  | S i =>
      if Z.land (Z.shiftr pages (Z.of_nat i)) 1 =? 0
      then freeUnaligned_loop i s ppn pages
      else
        let* s' := free s ppn (Z.of_nat i) in
        freeUnaligned_loop i s' (u64 (ppn + Z.shiftl 1 (Z.of_nat i))) pages
  end.
Definition freeUnaligned (s : PageMgr) (ppn pages : Z) : outcome PageMgr :=
  freeUnaligned_loop (S (Z.to_nat (rootOrder s))) s ppn pages.

(** The constructor. [new uint8_t[buddyTreeSize]] leaves the bytes
    unspecified and the clearing loop starts at 1, so [byte0] is whatever the
    heap holds in byte 0. *)
Definition PageMgr_new (byte0 start end_ : Z) : outcome PageMgr :=
  let pages := u64 (end_ - start) in
  let rootOrder := log2up pages in
  let buddyTreeSize := u64 (Z.shiftl 1 rootOrder * 2 - 1) in
  let nodes := byte0 :: replicate (Z.to_nat (buddyTreeSize - 1)) 0 in
  freeUnaligned (mkPageMgr start end_ rootOrder buddyTreeSize nodes 0 0) start pages.

(** ** Node numbers *)

Lemma lsub_eq x : 0 <= x < 2 ^ 62 -> lsub x = 2 * x + 1.
Proof.
  intros H. unfold lsub. rewrite Z.shiftl_mul_pow2 by lia.
  rewrite (u64_small (x + 1)), (u64_small ((x + 1) * 2 ^ 1)), u64_small; lia.
Qed.
Lemma rsub_eq x : 0 <= x < 2 ^ 62 -> rsub x = 2 * x + 2.
Proof.
  intros H. unfold rsub. rewrite Z.shiftl_mul_pow2 by lia.
  rewrite (u64_small (x + 1)), u64_small; lia.
Qed.
Lemma prnt_lsub x : 0 <= x < 2 ^ 61 -> prnt (2 * x + 1) = x.
Proof.
  intros H. unfold prnt. rewrite (u64_small (2 * x + 1 + 1)) by lia.
  rewrite Z.shiftr_div_pow2 by lia.
  replace (2 * x + 1 + 1) with ((x + 1) * 2 ^ 1) by lia.
  rewrite Z.div_mul by lia. rewrite u64_small; lia.
Qed.
Lemma prnt_rsub x : 0 <= x < 2 ^ 61 -> prnt (2 * x + 2) = x.
Proof.
  intros H. unfold prnt. rewrite (u64_small (2 * x + 2 + 1)) by lia.
  rewrite Z.shiftr_div_pow2 by lia.
  replace (2 * x + 2 + 1) with (1 + (x + 1) * 2 ^ 1) by lia.
  rewrite Z.div_add by lia. change (1 / 2 ^ 1) with 0. rewrite u64_small; lia.
Qed.

(** [insub nd j]: node [j] lies in the subtree rooted at [nd]. *)
Definition insub (nd j : Z) : Prop := exists d : nat, (j + 1) / 2 ^ Z.of_nat d = nd + 1.

Lemma insub_refl nd : insub nd nd.
Proof. exists O. by rewrite Z.div_1_r. Qed.

Lemma insub_child nd j :
  insub (2 * nd + 1) j \/ insub (2 * nd + 2) j -> insub nd j.
Proof.
  intros [[d H]|[d H]]; exists (S d);
    rewrite pow2_S, Z.mul_comm, <- Z.div_div, H by auto with luo zarith.
  - replace (2 * nd + 1 + 1) with ((nd + 1) * 2) by lia. by rewrite Z.div_mul.
  - replace (2 * nd + 2 + 1) with (1 + (nd + 1) * 2) by lia. by rewrite Z.div_add.
Qed.

Lemma div_pow2_add g (a c : nat) :
  g / 2 ^ Z.of_nat (a + c) = g / 2 ^ Z.of_nat a / 2 ^ Z.of_nat c.
Proof.
  rewrite Nat2Z.inj_add, Z.pow_add_r by lia.
  rewrite Z.div_div; auto with luo. pose proof (pow2_pos a). lia.
Qed.

Lemma div_pow2_le g (c : nat) : 0 <= g -> g / 2 ^ Z.of_nat c <= g.
Proof.
  intros Hg. pose proof (pow2_pos c).
  apply Z.div_le_upper_bound; nia.
Qed.
Lemma div_pow2_half g (c : nat) : 0 <= g -> (c <> 0)%nat -> g / 2 ^ Z.of_nat c <= g / 2.
Proof.
  intros Hg Hc. destruct c as [|c]; [done|].
  replace (S c) with (1 + c)%nat by lia. rewrite div_pow2_add. change (2 ^ Z.of_nat 1) with 2.
  apply div_pow2_le. apply Z.div_pos; lia.
Qed.

(** A subtree does not contain the parent of its root, nor its sibling. *)
Lemma insub_not_parent nd j : 0 <= nd -> insub (2 * nd + 1) j \/ insub (2 * nd + 2) j -> j <> nd.
Proof.
  intros Hnd [[d H]|[d H]] ->; pose proof (div_pow2_le (nd + 1) d ltac:(lia)); lia.
Qed.

Lemma insub_disjoint nd j : 0 <= nd -> insub (2 * nd + 1) j -> ~ insub (2 * nd + 2) j.
Proof.
  intros Hnd [a Ha] [b Hb].
  destruct (Nat.lt_trichotomy a b) as [Hab|[->|Hab]]; [|lia|].
  - replace b with (a + (b - a))%nat in Hb by lia. rewrite div_pow2_add, Ha in Hb.
    pose proof (div_pow2_half (2 * nd + 1 + 1) (b - a) ltac:(lia) ltac:(lia)).
    assert ((2 * nd + 1 + 1) / 2 <= 2 * nd + 2) by (apply Z.div_le_upper_bound; lia). lia.
  - replace a with (b + (a - b))%nat in Ha by lia. rewrite div_pow2_add, Hb in Ha.
    pose proof (div_pow2_half (2 * nd + 2 + 1) (a - b) ltac:(lia) ltac:(lia)).
    replace ((2 * nd + 2 + 1) / 2) with (nd + 1) in *; [lia|].
    replace (2 * nd + 2 + 1) with (1 + (nd + 1) * 2) by lia. by rewrite Z.div_add.
Qed.

(** ** The abstract tree of blocks *)
Inductive btree : Type :=
| BFree
| BUsed
| BNode (l r : btree).

#[export] Instance btree_eq_dec : EqDecision btree.
Proof. solve_decision. Defined.

(** Biased order of the largest free block in a tree of order [k]. *)
Fixpoint bval (k : nat) (t : btree) : Z :=
  match t with
  | BFree => Z.of_nat k + 1
  | BUsed => 0
  | BNode l r => Z.max (bval (k - 1) l) (bval (k - 1) r)
  end.

(** [wft k t]: blocks fit the order and free buddies are merged. *)
Fixpoint wft (k : nat) (t : btree) : Prop :=
  match t with
  | BFree | BUsed => True
  | BNode l r =>
      (0 < k)%nat /\ ~ (l = BFree /\ r = BFree) /\ wft (k - 1) l /\ wft (k - 1) r
  end.

(** [repr ns nd t k]: the subtree of the array at [nd] encodes [t]. What lies
    below a [BFree] or [BUsed] node is left over from earlier and arbitrary. *)
Fixpoint repr (ns : list Z) (nd : Z) (t : btree) (k : nat) : Prop :=
  vat ns nd = bval k t /\
  match t with
  | BNode l r => repr ns (2 * nd + 1) l (k - 1) /\ repr ns (2 * nd + 2) r (k - 1)
  | _ => True
  end.

(** Page [p] of a tree of order [k] is free. *)
Fixpoint pfree (k : nat) (t : btree) (p : Z) : Prop :=
  match t with
  | BFree => 0 <= p < 2 ^ Z.of_nat k
  | BUsed => False
  | BNode l r =>
      pfree (k - 1) l p \/ pfree (k - 1) r (p - 2 ^ Z.of_nat (k - 1))
  end.

(** The block of order [m] at offset [o] is used as one unit. *)
Fixpoint bused (k : nat) (t : btree) (m : nat) (o : Z) : Prop :=
  match t with
  | BFree => False
  | BUsed => m = k /\ o = 0
  | BNode l r =>
      bused (k - 1) l m o \/ bused (k - 1) r m (o - 2 ^ Z.of_nat (k - 1))
  end.

Lemma bval_range k t : 0 <= bval k t.
Proof. revert k. induction t; intros k; cbn; try lia. specialize (IHt1 (k-1)%nat). lia. Qed.
Lemma bval_le k t : wft k t -> bval k t <= Z.of_nat k + 1.
Proof.
  revert k. induction t as [| |l IHl r IHr]; intros k H; cbn in *; try lia.
  destruct H as (?&?&Hl&Hr). apply IHl in Hl. apply IHr in Hr. lia.
Qed.
Lemma bval_full k t : wft k t -> bval k t = Z.of_nat k + 1 -> t = BFree.
Proof.
  destruct t as [| |l r]; cbn; try done; [lia|].
  intros (?&?&Hl&Hr) E. apply bval_le in Hl, Hr. lia.
Qed.

Lemma repr_val ns nd t k : repr ns nd t k -> vat ns nd = bval k t.
Proof. destruct t; cbn; by intros [? ?]. Qed.

Lemma insub_nonneg nd j : 0 <= nd -> insub nd j -> 0 <= j.
Proof.
  intros Hnd [d Hd]. destruct (Z.lt_ge_cases j 0); [|done].
  pose proof (pow2_pos d).
  pose proof (Z.div_le_upper_bound (j + 1) (2 ^ Z.of_nat d) 0). lia.
Qed.

Lemma repr_frame ns ns' nd t k :
  0 <= nd -> (forall j, 0 <= j -> insub nd j -> vat ns' j = vat ns j) ->
  repr ns nd t k -> repr ns' nd t k.
Proof.
  revert nd k. induction t as [| |l IHl r IHr]; intros nd k Hnd Hj; cbn;
    rewrite (Hj nd Hnd (insub_refl nd)); try done.
  intros (?&Hl&Hr). split; [done|]. split.
  - apply IHl; [lia| |done]. intros j H0 Hjj. apply Hj, insub_child; auto.
  - apply IHr; [lia| |done]. intros j H0 Hjj. apply Hj, insub_child; auto.
Qed.

(** ** Allocation on the tree *)

(** [alloc_rel k m t o t']: taking the block of order [m] at offset [o] out of
    the free pages of [t] gives [t'], and no other block changes. *)
Record alloc_rel (k m : nat) (t : btree) (o : Z) (t' : btree) : Prop := {
  ar_wf : wft k t';
  ar_notfree : t' <> BFree;
  ar_align : o mod 2 ^ Z.of_nat m = 0;
  ar_bound : 0 <= o /\ o + 2 ^ Z.of_nat m <= 2 ^ Z.of_nat k;
  ar_free : forall p, pfree k t p <-> pfree k t' p \/ o <= p < o + 2 ^ Z.of_nat m;
  ar_taken : forall p, o <= p < o + 2 ^ Z.of_nat m -> ~ pfree k t' p;
  ar_used : forall m' o', bused k t' m' o' <-> bused k t m' o' \/ (m' = m /\ o' = o)
}.

(** Free pages and used blocks of a tree of order [k] lie in [0, 2^k). *)
Lemma pfree_range k t p : wft k t -> pfree k t p -> 0 <= p < 2 ^ Z.of_nat k.
Proof.
  revert k p. induction t as [| |l IHl r IHr]; intros k p; cbn; try done.
  intros (Hk&_&Hl&Hr) Hp.
  destruct k as [|k]; [lia|]. cbn [Nat.sub] in *. rewrite Nat.sub_0_r in *. rewrite pow2_S.
  pose proof (pow2_pos k). destruct Hp as [Hp|Hp]; [apply IHl in Hp|apply IHr in Hp]; auto; lia.
Qed.

Lemma bused_range k t m o : wft k t -> bused k t m o -> 0 <= o /\ o + 2 ^ Z.of_nat m <= 2 ^ Z.of_nat k.
Proof.
  revert k o. induction t as [| |l IHl r IHr]; intros k o; cbn; try done.
  { intros _ [-> ->]. lia. }
  intros (Hk&_&Hl&Hr) Hp.
  destruct k as [|k]; [lia|]. cbn [Nat.sub] in *. rewrite Nat.sub_0_r in *. rewrite pow2_S.
  pose proof (pow2_pos k). destruct Hp as [Hp|Hp]; [apply IHl in Hp|apply IHr in Hp]; auto; lia.
Qed.

Lemma alloc_rel_l k m l r o l' :
  wft k r -> alloc_rel k m l o l' -> alloc_rel (S k) m (BNode l r) o (BNode l' r).
Proof.
  intros Hr [W N A B F T U]. pose proof (pow2_pos m). split; cbn; rewrite ?Nat.sub_0_r.
  - repeat split; auto; [lia|]. intros [? ?]; done.
  - done.
  - done.
  - rewrite pow2_S. lia.
  - intros p. rewrite F. tauto.
  - intros p Hp [Hf|Hf]; [by apply (T p)|]. apply pfree_range in Hf; [lia|done].
  - intros m' o'. rewrite U. tauto.
Qed.

Lemma alloc_rel_r k m l r o r' :
  (m <= k)%nat -> wft k l -> alloc_rel k m r o r' ->
  alloc_rel (S k) m (BNode l r) (o + 2 ^ Z.of_nat k) (BNode l r').
Proof.
  intros Hmk Hl [W N A B F T U]. pose proof (pow2_pos m).
  split; cbn; rewrite ?Nat.sub_0_r.
  - repeat split; auto; [lia|]. intros [? ?]; done.
  - done.
  - replace (Z.of_nat k) with (Z.of_nat (k - m) + Z.of_nat m) by lia.
    rewrite Z.pow_add_r, Z.mod_add by lia. done.
  - rewrite pow2_S. lia.
  - intros p. rewrite F. intuition lia.
  - intros p Hp [Hf|Hf]; [apply pfree_range in Hf; [lia|done]|]. apply (T _) in Hf; [done|lia].
  - intros m' o'. rewrite U. intuition lia.
Qed.

(** A free block is two free halves. *)
Lemma alloc_rel_split k m o t' :
  alloc_rel (S k) m (BNode BFree BFree) o t' -> alloc_rel (S k) m BFree o t'.
Proof.
  intros [W N A B F T U]. split; auto.
  - intros p. rewrite <- F. cbn. rewrite Nat.sub_0_r. pose proof (pow2_S k). lia.
  - intros m' o'. rewrite U. cbn. tauto.
Qed.

(** [fits ns nd k]: the whole subtree of order [k] at [nd] is in the array. *)
Definition fits (ns : list Z) (nd : Z) (k : nat) : Prop :=
  0 <= nd /\ (nd + 2) * 2 ^ Z.of_nat k <= Z.of_nat (length ns) + 1 /\
  Z.of_nat (length ns) < 2 ^ 31.

Lemma fits_child ns nd k :
  fits ns nd (S k) -> fits ns (2 * nd + 1) k /\ fits ns (2 * nd + 2) k /\
  0 <= 2 * nd + 1 < Z.of_nat (length ns) /\ 0 <= 2 * nd + 2 < Z.of_nat (length ns).
Proof.
  unfold fits. rewrite pow2_S. intros (?&?&?). pose proof (pow2_pos k).
  repeat split; nia.
Qed.
Lemma fits_in ns nd k : fits ns nd k -> 0 <= nd < Z.of_nat (length ns) /\ nd < 2 ^ 31.
Proof. unfold fits. intros (?&?&?). pose proof (pow2_pos k). nia. Qed.
Lemma fits_upd ns nd k i v : fits (upd ns i v) nd k <-> fits ns nd k.
Proof. unfold fits. by rewrite length_upd. Qed.

(** [same_outside nd ns ns']: the arrays differ at most in the subtree of [nd]. *)
Definition same_outside (nd : Z) (ns ns' : list Z) : Prop :=
  length ns' = length ns /\ forall j, 0 <= j -> ~ insub nd j -> vat ns' j = vat ns j.

Lemma same_outside_trans nd ns1 ns2 ns3 :
  same_outside nd ns1 ns2 -> same_outside nd ns2 ns3 -> same_outside nd ns1 ns3.
Proof. intros [L1 H1] [L2 H2]. split; [congruence|]. intros. rewrite H2; auto. Qed.
Lemma same_outside_child nd c ns ns' :
  (c = 2 * nd + 1 \/ c = 2 * nd + 2) -> same_outside c ns ns' -> same_outside nd ns ns'.
Proof.
  intros Hc [L H]. split; [done|]. intros j Hj Hn. apply H; [done|].
  intros Hi. apply Hn, insub_child. destruct Hc as [-> | ->]; auto.
Qed.
Lemma same_outside_upd nd j ns v : 0 <= j -> insub nd j -> same_outside nd ns (upd ns j v).
Proof.
  intros Hj Hi. split; [apply length_upd|]. intros i H0 Hn. apply vat_upd_ne; auto.
  intros ->; done.
Qed.
(** A change below one child leaves what the other child represents. *)
Lemma same_outside_repr nd c c' ns ns' t k :
  0 <= nd -> (c = 2 * nd + 1 /\ c' = 2 * nd + 2 \/ c = 2 * nd + 2 /\ c' = 2 * nd + 1) ->
  same_outside c ns ns' -> repr ns c' t k -> repr ns' c' t k.
Proof.
  intros Hnd Hc [L H]. apply repr_frame; [lia|]. intros j Hj0 Hj. apply H; [done|].
  intros Hi. destruct Hc as [[-> ->]|[-> ->]]; by apply (insub_disjoint nd j).
Qed.

(** Writing a node leaves what its children represent. *)
Lemma repr_upd_parent nd c ns t k v :
  0 <= nd -> (c = 2 * nd + 1 \/ c = 2 * nd + 2) ->
  repr ns c t k -> repr (upd ns nd v) c t k.
Proof.
  intros Hnd Hc. apply repr_frame; [lia|]. intros j Hj0 Hj. apply vat_upd_ne; auto.
  intros <-. apply (insub_not_parent nd nd Hnd); [|done].
  destruct Hc as [-> | ->]; auto.
Qed.

(** What the search below [nd] followed by the recomputation up to [nd]
    achieves: [ns1] is the array after the search, [node] the block found. *)
Definition alloc_post (k m : nat) (t : btree) (nd : Z) (ns ns1 : list Z) (node : Z) : Prop :=
  exists o t' ns2,
    alloc_rel k m t o t' /\
    node + 1 = (nd + 1) * 2 ^ Z.of_nat (k - m) + o / 2 ^ Z.of_nat m /\
    0 <= node < Z.of_nat (length ns1) /\ length ns1 = length ns /\
    (forall f, alloc_up (f + (k - m)) (prnt node) (upd ns1 node 0) = alloc_up f (prnt nd) ns2) /\
    repr ns2 nd t' k /\ same_outside nd ns ns2.

(** One recomputation step at a node with both children represented. *)
Lemma alloc_node_ok ns nd k l r :
  fits ns nd (S k) -> repr ns (2 * nd + 1) l k -> repr ns (2 * nd + 2) r k ->
  exists ns', alloc_node ns nd = Done ns' /\ length ns' = length ns /\
    repr ns' nd (BNode l r) (S k) /\ same_outside nd ns ns'.
Proof.
  intros Hf Hl Hr. destruct (fits_child _ _ _ Hf) as (Fl&Fr&Bl&Br).
  destruct (fits_in _ _ _ Hf) as [Hin Hlt].
  unfold alloc_node. rewrite lsub_eq, rsub_eq by lia.
  rewrite !aget_vat by lia. cbn [obind]. rewrite aset_upd by lia.
  eexists. split; [done|]. rewrite length_upd. split; [done|].
  split; [|apply same_outside_upd; [lia|apply insub_refl]].
  cbn. rewrite Nat.sub_0_r, vat_upd_eq, kmax_spec by lia.
  rewrite (repr_val _ _ _ _ Hl), (repr_val _ _ _ _ Hr).
  split; [done|]. split; apply repr_upd_parent; auto; lia.
Qed.

(** Lifting [alloc_post] from a child to its parent. *)
Lemma alloc_post_child k m l r nd ns ns1 node (right : bool) :
  (m <= k)%nat -> 1 <= nd -> fits ns nd (S k) -> wft k l -> wft k r ->
  repr ns (2 * nd + 1) l k -> repr ns (2 * nd + 2) r k ->
  alloc_post k m (if right then r else l) (if right then 2 * nd + 2 else 2 * nd + 1)
    ns ns1 node ->
  alloc_post (S k) m (BNode l r) nd ns ns1 node.
Proof.
  intros Hmk Hnd Hf Wl Wr Rl Rr (o & t' & ns2 & AR & Hnode & Hin & Hlen & Hup & R' & SO).
  set (c := if right then 2 * nd + 2 else 2 * nd + 1) in *.
  assert (Hc : c = 2 * nd + 1 \/ c = 2 * nd + 2) by (subst c; destruct right; auto).
  assert (Hlen2 : length ns2 = length ns) by apply SO.
  assert (Hf2 : fits ns2 nd (S k)) by (unfold fits in *; by rewrite Hlen2).
  destruct (fits_in _ _ _ Hf) as [_ Hlt].
  assert (R2l : repr ns2 (2 * nd + 1) (if right then l else t') k).
  { subst c; destruct right; [|done].
    apply (same_outside_repr nd (2 * nd + 2) (2 * nd + 1) ns ns2); auto; lia. }
  assert (R2r : repr ns2 (2 * nd + 2) (if right then t' else r) k).
  { subst c; destruct right; [done|].
    apply (same_outside_repr nd (2 * nd + 1) (2 * nd + 2) ns ns2); auto; lia. }
  destruct (alloc_node_ok ns2 nd k _ _ Hf2 R2l R2r) as (ns3 & E3 & L3 & R3 & SO3).
  exists (if right then o + 2 ^ Z.of_nat k else o),
    (BNode (if right then l else t') (if right then t' else r)), ns3.
  split; [|split; [|split; [done|split; [done|split; [|split; [done|]]]]]].
  - destruct right; [by apply alloc_rel_r|by apply alloc_rel_l].
  - rewrite Hnode. subst c. replace (S k - m)%nat with (S (k - m)) by lia. rewrite pow2_S.
    destruct right; [|lia].
    replace (Z.of_nat k) with (Z.of_nat (k - m) + Z.of_nat m) by lia.
    rewrite Z.pow_add_r, Z.div_add by (pose proof (pow2_pos m); lia). lia.
  - intros f. replace (f + (S k - m))%nat with (S f + (k - m))%nat by lia. rewrite Hup.
    replace (prnt c) with nd.
    2:{ destruct Hc as [-> | ->]; [by rewrite prnt_lsub by lia|by rewrite prnt_rsub by lia]. }
    cbn [alloc_up]. destruct (Z.leb_spec nd 0); [lia|]. by rewrite E3.
  - eapply same_outside_trans; [|done]. by eapply same_outside_child.
Qed.

Lemma alloc_post_weaken k m t t0 nd ns ns0 ns1 node :
  (forall o t', alloc_rel k m t o t' -> alloc_rel k m t0 o t') ->
  same_outside nd ns ns0 -> alloc_post k m t nd ns0 ns1 node -> alloc_post k m t0 nd ns ns1 node.
Proof.
  intros Ht SO (o & t' & ns2 & AR & Hnode & Hin & Hlen & Hup & R' & SO').
  exists o, t', ns2. assert (length ns0 = length ns) by apply SO.
  split; [by apply Ht|]. split; [done|]. split; [done|]. split; [lia|]. split; [done|].
  split; [done|]. by eapply same_outside_trans.
Qed.

(** The search ends at a node that is free as a whole and has the wanted order. *)
Lemma alloc_find_here m t nd node0 ns :
  1 <= nd -> fits ns nd m -> wft m t -> repr ns nd t m -> Z.of_nat m + 1 <= bval m t ->
  exists node ns1,
    alloc_find (S (m - m)) (Z.of_nat m + 1) (Z.of_nat m + 1) nd node0 ns = Done (node, ns1) /\
    alloc_post m m t nd ns ns1 node.
Proof.
  intros Hnd Hf W R Hv. pose proof (bval_le _ _ W).
  assert (t = BFree) as -> by (apply (bval_full m); [done|lia]).
  destruct (fits_in _ _ _ Hf) as [Hin Hlt].
  rewrite Nat.sub_diag. cbn [alloc_find]. rewrite aget_vat by lia. cbn [obind].
  rewrite (repr_val _ _ _ _ R). cbn [bval]. rewrite Z.eqb_refl. cbn [andb].
  exists nd, ns. split; [done|].
  exists 0, BUsed, (upd ns nd 0). pose proof (pow2_pos m).
  rewrite Nat.sub_diag. split; [|split; [|split; [done|split; [done|split; [|split]]]]].
  - split; cbn; first [done | lia | intuition lia].
  - rewrite Z.div_0_l by lia. lia.
  - intros f. by rewrite Nat.add_0_r.
  - cbn. split; [|done]. by apply vat_upd_eq.
  - apply same_outside_upd; [lia|apply insub_refl].
Qed.

(** One iteration of the search. *)
Lemma alloc_find_S n rounded size nd node ns :
  alloc_find (S n) rounded size nd node ns =
    let* v := aget ns nd in
    if (v =? size) && (v =? rounded) then alloc_find n rounded (size - 1) nd nd ns
    else if v =? size then
      let* ns1 := aset ns (rsub nd) (u8 (size - 1)) in
      let* ns2 := aset ns1 (lsub nd) (u8 (size - 1)) in
      alloc_find n rounded (size - 1) (lsub nd) node ns2
    else
      let* l := aget ns (lsub nd) in
      let* r := aget ns (rsub nd) in
      alloc_find n rounded (size - 1)
        (if rounded <=? kmin l r
         then (if l <? r then lsub nd else rsub nd)
         else (if r <? l then lsub nd else rsub nd)) node ns.
Proof. done. Qed.

(** The search: from a node whose subtree has a free block of order [m]. *)
Lemma alloc_find_ok k m t nd node0 ns :
  (m <= k)%nat -> (k < 255)%nat -> 1 <= nd -> fits ns nd k -> wft k t -> repr ns nd t k ->
  Z.of_nat m + 1 <= bval k t ->
  exists node ns1,
    alloc_find (S (k - m)) (Z.of_nat m + 1) (Z.of_nat k + 1) nd node0 ns = Done (node, ns1) /\
    alloc_post k m t nd ns ns1 node.
Proof.
  revert t nd node0 ns. induction k as [|k IH]; intros t nd node0 ns Hmk Hk Hnd Hf W R Hv.
  - replace m with 0%nat in * by lia. apply alloc_find_here; auto.
  - destruct (decide (m = S k)) as [->|Hne]; [by apply alloc_find_here|].
    replace (S (S k - m))%nat with (S (S (k - m))) by lia.
    destruct (fits_child _ _ _ Hf) as (Fl&Fr&Bl&Br).
    destruct (fits_in _ _ _ Hf) as [Hin Hlt].
    rewrite alloc_find_S, aget_vat by lia. cbn [obind].
    rewrite (repr_val _ _ _ _ R), lsub_eq, rsub_eq by lia.
    replace (Z.of_nat (S k) + 1 - 1) with (Z.of_nat k + 1) by lia.
    destruct t as [| |l r]; cbn [bval] in *; [|lia|].
    + rewrite Z.eqb_refl. destruct (Z.eqb_spec (Z.of_nat (S k) + 1) (Z.of_nat m + 1)); [lia|].
      cbn [andb]. rewrite u8_small by lia.
      rewrite aset_upd by lia. cbn [obind].
      rewrite aset_upd by (rewrite length_upd; lia). cbn [obind].
      set (ns0 := upd (upd ns (2 * nd + 2) (Z.of_nat k + 1)) (2 * nd + 1) (Z.of_nat k + 1)).
      assert (Rl : repr ns0 (2 * nd + 1) BFree k).
      { cbn. split; [|done]. apply vat_upd_eq. rewrite length_upd. lia. }
      assert (Rr : repr ns0 (2 * nd + 2) BFree k).
      { cbn. split; [|done]. unfold ns0. rewrite vat_upd_ne by lia. apply vat_upd_eq. lia. }
      assert (SO : same_outside nd ns ns0).
      { eapply same_outside_trans; apply same_outside_upd; try lia;
          apply insub_child; [right|left]; apply insub_refl. }
      assert (F0 : fits ns0 nd (S k)) by (unfold ns0; by rewrite !fits_upd).
      destruct (IH BFree (2 * nd + 1) node0 ns0) as (node & ns1 & E & P); auto; try lia.
      { unfold ns0. by rewrite !fits_upd. } { cbn. lia. }
      exists node, ns1. split; [done|].
      apply (alloc_post_child k m BFree BFree nd ns0 ns1 node false) in P; auto; try lia; try done.
      eapply alloc_post_weaken; [|done|done]. apply alloc_rel_split.
    + destruct W as (_&Hnb&Wl&Wr). destruct R as (_&Rl&Rr).
      replace (S k - 1)%nat with k in * by lia.
      pose proof (bval_le _ _ Wl) as Ul. pose proof (bval_le _ _ Wr) as Ur.
      destruct (Z.eqb_spec (Z.max (bval k l) (bval k r)) (Z.of_nat (S k) + 1)); [lia|].
      cbn [andb]. rewrite !aget_vat by lia. cbn [obind].
      rewrite (repr_val _ _ _ _ Rl), (repr_val _ _ _ _ Rr), kmin_spec.
      assert (Hd : exists right : bool,
        (if Z.of_nat m + 1 <=? Z.min (bval k l) (bval k r)
         then if bval k l <? bval k r then 2 * nd + 1 else 2 * nd + 2
         else if bval k r <? bval k l then 2 * nd + 1 else 2 * nd + 2)
        = (if right then 2 * nd + 2 else 2 * nd + 1) /\
        Z.of_nat m + 1 <= bval k (if right then r else l)).
      { repeat bdestr; first [exists true; cbn; lia | exists false; cbn; lia]. }
      destruct Hd as (right & -> & Hv').
      destruct (IH (if right then r else l) (if right then 2 * nd + 2 else 2 * nd + 1) node0 ns)
        as (node & ns1 & E & P); auto; try lia; try (destruct right; auto; lia).
      exists node, ns1. split; [done|].
      apply (alloc_post_child k m l r nd ns ns1 node right); auto; lia.
Qed.

(** ** Release on the tree *)

(** [free_rel k m t o t']: the block of order [m] at [o], used as a unit in
    [t], is free in [t'], and no other block changes. *)
Record free_rel (k m : nat) (t : btree) (o : Z) (t' : btree) : Prop := {
  fr_free : forall p, pfree k t' p <-> pfree k t p \/ o <= p < o + 2 ^ Z.of_nat m;
  fr_taken : forall p, o <= p < o + 2 ^ Z.of_nat m -> ~ pfree k t p;
  fr_used : forall m' o', bused k t' m' o' <-> bused k t m' o' /\ ~ (m' = m /\ o' = o)
}.

(** Merging of buddies above the leaf level. *)
Definition bmerge (l r : btree) : btree :=
  if decide (l = BFree /\ r = BFree) then BFree else BNode l r.

Lemma pfree_bmerge k l r p : pfree (S k) (bmerge l r) p <-> pfree (S k) (BNode l r) p.
Proof.
  unfold bmerge. case_decide as E; [|done]. destruct E as [-> ->].
  cbn. rewrite Nat.sub_0_r. pose proof (pow2_S k). lia.
Qed.
Lemma bused_bmerge k l r m o : bused (S k) (bmerge l r) m o <-> bused (S k) (BNode l r) m o.
Proof. unfold bmerge. case_decide as E; [|done]. destruct E as [-> ->]. cbn. tauto. Qed.
Lemma wft_bmerge k l r : wft k l -> wft k r -> wft (S k) (bmerge l r).
Proof.
  intros. unfold bmerge. case_decide; [done|]. cbn. rewrite Nat.sub_0_r.
  repeat split; auto. lia.
Qed.

Lemma bused_taken k t m o p :
  wft k t -> bused k t m o -> o <= p < o + 2 ^ Z.of_nat m -> ~ pfree k t p.
Proof.
  revert k o p. induction t as [| |l IHl r IHr]; intros k o p; cbn; try tauto.
  intros (Hk&_&Wl&Wr) Hu Hp. destruct k as [|k]; [lia|]. replace (S k - 1)%nat with k in * by lia.
  intros [Hf|Hf]; destruct Hu as [Hu|Hu].
  - by apply (IHl k o p).
  - apply bused_range in Hu; [|done]. apply pfree_range in Hf; [lia|done].
  - apply bused_range in Hu; [|done]. apply pfree_range in Hf; [lia|done].
  - apply (IHr k _ (p - 2 ^ Z.of_nat k)) in Hu; auto; lia.
Qed.

Lemma free_rel_here k : free_rel k k BUsed 0 BFree.
Proof. split; cbn; first [done | intuition lia]. Qed.

Lemma free_rel_l k m l r o l' :
  wft k l -> wft k r -> bused k l m o -> free_rel k m l o l' ->
  free_rel (S k) m (BNode l r) o (BNode l' r).
Proof.
  intros Wl Wr Hu [F T U]. pose proof (bused_range _ _ _ _ Wl Hu).
  split; cbn; rewrite ?Nat.sub_0_r.
  - intros p. rewrite F. tauto.
  - intros p Hp [Hf|Hf]; [by apply (T p)|]. apply pfree_range in Hf; [lia|done].
  - intros m' o'. rewrite U. split; [|tauto].
    intros [?|Hr]; [tauto|]. split; [tauto|]. intros [-> ->].
    apply bused_range in Hr; [|done]. pose proof (pow2_pos m). lia.
Qed.

Lemma free_rel_r k m l r o r' :
  wft k l -> wft k r -> bused k r m o -> free_rel k m r o r' ->
  free_rel (S k) m (BNode l r) (o + 2 ^ Z.of_nat k) (BNode l r').
Proof.
  intros Wl Wr Hu [F T U]. pose proof (bused_range _ _ _ _ Wr Hu).
  split; cbn; rewrite ?Nat.sub_0_r.
  - intros p. rewrite F. intuition lia.
  - intros p Hp [Hf|Hf]; [apply pfree_range in Hf; [lia|done]|]. apply (T _) in Hf; [done|lia].
  - intros m' o'. rewrite U. split.
    + intros [Hl|[? Hn]]; [|intuition lia]. split; [tauto|]. intros [-> ->].
      apply bused_range in Hl; [|done]. pose proof (pow2_pos m). lia.
    + intros [[?|?] Hn]; [tauto|]. right. split; [done|]. intros [? ?]. apply Hn. split; [done|lia].
Qed.

Lemma free_rel_merge k m t o l r :
  free_rel (S k) m t o (BNode l r) -> free_rel (S k) m t o (bmerge l r).
Proof.
  intros [F T U]. split; [|done|].
  - intros p. by rewrite pfree_bmerge.
  - intros m' o'. by rewrite bused_bmerge.
Qed.

(** One recomputation step of PageMgr::free. *)
Lemma free_node_ok ns nd k l r :
  (k < 250)%nat -> fits ns nd (S k) -> wft k l -> wft k r ->
  repr ns (2 * nd + 1) l k -> repr ns (2 * nd + 2) r k ->
  exists ns', free_node ns nd (Z.of_nat k + 1) = Done ns' /\
    repr ns' nd (bmerge l r) (S k) /\ same_outside nd ns ns'.
Proof.
  intros Hk Hf Wl Wr Hl Hr. destruct (fits_child _ _ _ Hf) as (Fl&Fr&Bl&Br).
  destruct (fits_in _ _ _ Hf) as [Hin Hlt].
  unfold free_node. rewrite lsub_eq, rsub_eq by lia.
  rewrite !aget_vat by lia. cbn [obind]. rewrite aset_upd by lia.
  eexists. split; [done|]. split; [|apply same_outside_upd; [lia|apply insub_refl]].
  rewrite (repr_val _ _ _ _ Hl), (repr_val _ _ _ _ Hr).
  unfold bmerge. case_decide as E.
  - destruct E as [-> ->]. cbn. rewrite vat_upd_eq, Z.eqb_refl by lia. cbn.
    rewrite u8_small by lia. split; [lia|done].
  - assert ((bval k l =? bval k r) && (bval k l =? Z.of_nat k + 1) = false) as ->.
    { apply andb_false_iff. destruct (Z.eqb_spec (bval k l) (bval k r)); [right|by left].
      apply Z.eqb_neq. intros E'. apply E. split; apply (bval_full k); auto; lia. }
    cbn. rewrite Nat.sub_0_r, vat_upd_eq, kmax_spec by lia. split; [done|].
    split; apply repr_upd_parent; auto; lia.
Qed.

(** Ghost tree after releasing the block of order [m] at offset [o]. *)
Fixpoint tfree (k m : nat) (t : btree) (o : Z) : btree :=
  match t with
  | BFree => BFree
  | BUsed => BFree
  | BNode l r =>
      if o <? 2 ^ Z.of_nat (k - 1)
      then bmerge (tfree (k - 1) m l o) r
      else bmerge l (tfree (k - 1) m r (o - 2 ^ Z.of_nat (k - 1)))
  end.

Lemma tfree_wf k m t o : wft k t -> wft k (tfree k m t o).
Proof.
  revert k o. induction t as [| |l IHl r IHr]; intros k o; cbn; try done.
  intros (Hk&_&Wl&Wr). destruct k as [|k]; [lia|]. replace (S k - 1)%nat with k in * by lia.
  case_match; apply wft_bmerge; auto.
Qed.

(** The bit test of pos2node picks the half that contains the offset. *)
Lemma pos_bit pos (k : nat) :
  0 <= pos ->
  (Z.land (Z.shiftr pos (Z.of_nat k)) 1 =? 0) = (pos mod 2 ^ Z.of_nat (S k) <? 2 ^ Z.of_nat k) /\
  pos mod 2 ^ Z.of_nat (S k) =
    pos mod 2 ^ Z.of_nat k +
    (if pos mod 2 ^ Z.of_nat (S k) <? 2 ^ Z.of_nat k then 0 else 2 ^ Z.of_nat k).
Proof.
  intros Hp. pose proof (pow2_pos k).
  rewrite (Z.land_ones _ 1), Z.shiftr_div_pow2 by lia. change (2 ^ 1) with 2.
  rewrite pow2_S, (Z.mul_comm 2), Z.rem_mul_r by lia.
  pose proof (Z.mod_pos_bound pos (2 ^ Z.of_nat k) ltac:(lia)).
  pose proof (Z.mod_pos_bound (pos / 2 ^ Z.of_nat k) 2 ltac:(lia)).
  assert ((pos / 2 ^ Z.of_nat k) mod 2 = 0 \/ (pos / 2 ^ Z.of_nat k) mod 2 = 1) as [E|E] by lia;
    rewrite E.
  - destruct (Z.ltb_spec (pos mod 2 ^ Z.of_nat k + 2 ^ Z.of_nat k * 0) (2 ^ Z.of_nat k)); lia.
  - destruct (Z.ltb_spec (pos mod 2 ^ Z.of_nat k + 2 ^ Z.of_nat k * 1) (2 ^ Z.of_nat k)); lia.
Qed.

(** What PageMgr::free does below [nd], up to and including [nd]. *)
Definition free_post (k m : nat) (t : btree) (o nd : Z) (ns : list Z) (idx : Z) : Prop :=
  exists ns2,
    0 <= idx < Z.of_nat (length ns) /\ vat ns idx = 0 /\
    (forall f, free_up (f + (k - m)) (i32 (prnt (u64 idx))) (Z.of_nat m + 1)
                 (upd ns idx (Z.of_nat m + 1))
               = free_up f (i32 (prnt (u64 nd))) (Z.of_nat k + 1) ns2) /\
    repr ns2 nd (tfree k m t o) k /\ same_outside nd ns ns2.

Lemma free_post_child k m l r o nd ns idx (right : bool) :
  (m <= k)%nat -> (k < 250)%nat -> 1 <= nd -> fits ns nd (S k) -> wft k l -> wft k r ->
  repr ns (2 * nd + 1) l k -> repr ns (2 * nd + 2) r k ->
  (if right then 0 <= o else o < 2 ^ Z.of_nat k) ->
  free_post k m (if right then r else l) o (if right then 2 * nd + 2 else 2 * nd + 1) ns idx ->
  free_post (S k) m (BNode l r) (if right then o + 2 ^ Z.of_nat k else o) nd ns idx.
Proof.
  intros Hmk Hk Hnd Hf Wl Wr Rl Rr Ho (ns2 & Hin & Hz & Hup & R' & SO).
  set (c := if right then 2 * nd + 2 else 2 * nd + 1) in *.
  assert (Hc : c = 2 * nd + 1 \/ c = 2 * nd + 2) by (subst c; destruct right; auto).
  assert (Hlen2 : length ns2 = length ns) by apply SO.
  assert (Hf2 : fits ns2 nd (S k)) by (unfold fits in *; by rewrite Hlen2).
  destruct (fits_in _ _ _ Hf) as [_ Hlt]. destruct (fits_child _ _ _ Hf) as (_&_&Bl&Br).
  assert (R2l : repr ns2 (2 * nd + 1) (if right then l else tfree k m l o) k).
  { subst c; destruct right; [|done].
    apply (same_outside_repr nd (2 * nd + 2) (2 * nd + 1) ns ns2); auto; lia. }
  assert (R2r : repr ns2 (2 * nd + 2) (if right then tfree k m r o else r) k).
  { subst c; destruct right; [done|].
    apply (same_outside_repr nd (2 * nd + 1) (2 * nd + 2) ns ns2); auto; lia. }
  edestruct (free_node_ok ns2 nd k) as (ns3 & E3 & R3 & SO3);
    [done|done| | |exact R2l|exact R2r|].
  { destruct right; auto using tfree_wf. } { destruct right; auto using tfree_wf. }
  exists ns3. split; [done|]. split; [done|]. split; [|split].
  - intros f. replace (f + (S k - m))%nat with (S f + (k - m))%nat by lia. rewrite Hup.
    assert (i32 (prnt (u64 c)) = nd) as ->.
    { unfold fits in Hf. destruct Hc as [-> | ->]; rewrite u64_small by lia;
        rewrite ?prnt_lsub, ?prnt_rsub, i32_small by lia; done. }
    cbn [free_up]. destruct (Z.leb_spec nd 0); [lia|]. rewrite E3. cbn [obind].
    f_equal. lia.
  - cbn [tfree]. replace (S k - 1)%nat with k by lia.
    destruct right, (Z.ltb_spec (if true then o + 2 ^ Z.of_nat k else o) (2 ^ Z.of_nat k)); try lia.
    all: try (destruct (Z.ltb_spec o (2 ^ Z.of_nat k)); [|lia]); try done.
    by replace (o + 2 ^ Z.of_nat k - 2 ^ Z.of_nat k) with o by lia.
  - eapply same_outside_trans; [|done]. by eapply same_outside_child.
Qed.

Lemma bused_order k t m o : wft k t -> bused k t m o -> (m <= k)%nat.
Proof.
  revert k o. induction t as [| |l IHl r IHr]; intros k o; cbn; try done; [intros _ [-> _]; lia|].
  intros (Hk&_&Wl&Wr) [Hu|Hu]; [apply IHl in Hu|apply IHr in Hu]; auto; lia.
Qed.

(** A used block of a [BNode] lies in the half that [tfree] visits. *)
Lemma bused_half k l r m o :
  wft k l -> wft k r -> bused (S k) (BNode l r) m o ->
  if o <? 2 ^ Z.of_nat k then bused k l m o else bused k r m (o - 2 ^ Z.of_nat k).
Proof.
  intros Wl Wr. cbn. rewrite Nat.sub_0_r. pose proof (pow2_pos m). intros [Hu|Hu].
  - pose proof (bused_range _ _ _ _ Wl Hu). destruct (Z.ltb_spec o (2 ^ Z.of_nat k)); [done|lia].
  - pose proof (bused_range _ _ _ _ Wr Hu). destruct (Z.ltb_spec o (2 ^ Z.of_nat k)); [lia|done].
Qed.

Lemma tfree_rel k m t o : wft k t -> bused k t m o -> free_rel k m t o (tfree k m t o).
Proof.
  revert k o. induction t as [| |l IHl r IHr]; intros k o W Hu; [done| |].
  { destruct Hu as [-> ->]. apply free_rel_here. }
  destruct W as (Hk&_&Wl&Wr). destruct k as [|k]; [lia|]. cbn [tfree].
  replace (S k - 1)%nat with k in * by lia.
  apply bused_half in Hu; auto.
  destruct (Z.ltb_spec o (2 ^ Z.of_nat k)); apply free_rel_merge.
  - apply free_rel_l; auto.
  - replace o with (o - 2 ^ Z.of_nat k + 2 ^ Z.of_nat k) at 1 by lia. apply free_rel_r; auto.
Qed.

(** From the root of a subtree, pos2node reaches the block and the loop of
    PageMgr::free recomputes the subtree. *)
Lemma free_path_ok k m t nd ns pos :
  (k < 250)%nat -> 0 <= pos -> 1 <= nd -> fits ns nd k -> wft k t -> repr ns nd t k ->
  bused k t m (pos mod 2 ^ Z.of_nat k) ->
  free_post k m t (pos mod 2 ^ Z.of_nat k) nd ns
    (pos2node_loop (k - m) pos (Z.of_nat k - 1) nd).
Proof.
  intros Hk Hpos. revert k nd ns Hk. induction t as [| |l IHl r IHr]; intros k nd ns Hk Hnd Hf W R Hu; [done| |].
  - destruct Hu as [-> ->]. rewrite Nat.sub_diag. cbn [pos2node_loop].
    destruct (fits_in _ _ _ Hf) as [Hin Hlt].
    exists (upd ns nd (Z.of_nat k + 1)). split; [done|]. split; [apply R|]. split; [|split].
    + intros f. by rewrite Nat.sub_diag, Nat.add_0_r.
    + cbn. split; [by apply vat_upd_eq|done].
    + apply same_outside_upd; [lia|apply insub_refl].
  - destruct W as (Hk0&_&Wl&Wr). destruct k as [|k]; [lia|]. destruct R as (_&Rl&Rr).
    replace (S k - 1)%nat with k in * by lia.
    destruct (fits_child _ _ _ Hf) as (Fl&Fr&Bl&Br). destruct (fits_in _ _ _ Hf) as [Hin Hlt].
    assert (Hm : (m <= k)%nat).
    { apply bused_half in Hu; auto. case_match; eapply bused_order; try apply Hu; auto. }
    apply bused_half in Hu; auto. destruct (pos_bit pos k Hpos) as [Hb Ho].
    replace (S k - m)%nat with (S (k - m)) by lia. cbn [pos2node_loop].
    replace (Z.of_nat (S k) - 1) with (Z.of_nat k) by lia. rewrite Hb.
    rewrite lsub_eq, rsub_eq by lia.
    destruct (Z.ltb_spec (pos mod 2 ^ Z.of_nat (S k)) (2 ^ Z.of_nat k)) as [Hlo|Hhi].
    + rewrite Z.add_0_r in Ho. rewrite Ho in *.
      apply (free_post_child k m l r _ nd ns _ false); auto; try lia.
      apply IHl; auto; lia.
    + rewrite Ho in *. replace (pos mod 2 ^ Z.of_nat k + 2 ^ Z.of_nat k - 2 ^ Z.of_nat k)
        with (pos mod 2 ^ Z.of_nat k) in Hu by lia.
      apply (free_post_child k m l r _ nd ns _ true); auto; try lia.
      apply IHr; auto; lia.
Qed.

(** ** The invariant of PageMgr

    The root is never merged: its two halves are kept as separate trees. *)
Record Inv0 (s : PageMgr) (k : nat) (l r : btree) : Prop := {
  iv_order : rootOrder s = Z.of_nat (S k);
  iv_small : (k < 29)%nat;
  iv_len : Z.of_nat (length (buddyNodes s)) = 2 ^ Z.of_nat (S (S k)) - 1;
  iv_wfl : wft k l;
  iv_wfr : wft k r;
  iv_l : repr (buddyNodes s) 1 l k;
  iv_r : repr (buddyNodes s) 2 r k;
  iv_start : 0 < start s /\ start s < end_ s /\ end_ s < 2 ^ 44;
  iv_end : forall p, pfree (S k) (BNode l r) p -> start s + p < end_ s
}.

(** With the root recomputed; the constructor starts without it. *)
Record Inv (s : PageMgr) (k : nat) (l r : btree) : Prop := {
  iv_base : Inv0 s k l r;
  iv_root : vat (buddyNodes s) 0 = Z.max (bval k l) (bval k r)
}.
#[local] Hint Resolve iv_base : luo.

(** Page number [ppn] is free / the block of [2^m] pages at [ppn] is in use. *)
Definition free_page (s : PageMgr) (k : nat) (l r : btree) (ppn : Z) : Prop :=
  pfree (S k) (BNode l r) (ppn - start s).
Definition used_block (s : PageMgr) (k : nat) (l r : btree) (m : nat) (ppn : Z) : Prop :=
  bused (S k) (BNode l r) m (ppn - start s).

Lemma Inv_fits s k l r : Inv0 s k l r -> fits (buddyNodes s) 0 (S k).
Proof.
  intros I. destruct I. unfold fits. rewrite !pow2_S in *.
  assert (2 ^ Z.of_nat k <= 2 ^ 28) by (apply Z.pow_le_mono_r; lia).
  change (2 ^ 28) with 268435456 in *. lia.
Qed.

(** The first iteration of the search, at the root, and the rest of the
    search in the half it chooses. *)
Lemma alloc_find_root s k l r m :
  Inv s k l r -> Z.of_nat m + 1 <= Z.max (bval k l) (bval k r) ->
  exists right node ns1, (m <= k)%nat /\
    alloc_find (S (S (k - m))) (Z.of_nat m + 1) (Z.of_nat (S k) + 1) 0 0 (buddyNodes s)
      = Done (node, ns1) /\
    alloc_post k m (if right : bool then r else l) (if right then 2 else 1)
      (buddyNodes s) ns1 node.
Proof.
  intros [I iv_root0] Hv. pose proof (Inv_fits _ _ _ _ I) as Hf. destruct I.
  destruct (fits_child _ _ _ Hf) as (Fl&Fr&Bl&Br). cbn in Fl, Fr.
  pose proof (bval_le _ _ iv_wfl0). pose proof (bval_le _ _ iv_wfr0).
  rewrite alloc_find_S, aget_vat by lia. cbn [obind]. rewrite iv_root0.
  destruct (Z.eqb_spec (Z.max (bval k l) (bval k r)) (Z.of_nat (S k) + 1)); [lia|].
  cbn [andb]. rewrite lsub_eq, rsub_eq by lia. change (2 * 0 + 1) with 1. change (2 * 0 + 2) with 2.
  rewrite !aget_vat by lia. cbn [obind].
  rewrite (repr_val _ _ _ _ iv_l0), (repr_val _ _ _ _ iv_r0), kmin_spec.
  assert (Hd : exists right : bool,
    (if Z.of_nat m + 1 <=? Z.min (bval k l) (bval k r)
     then if bval k l <? bval k r then 1 else 2
     else if bval k r <? bval k l then 1 else 2) = (if right then 2 else 1) /\
    Z.of_nat m + 1 <= bval k (if right then r else l)).
  { repeat bdestr; first [exists true; cbn; lia | exists false; cbn; lia]. }
  destruct Hd as (right & -> & Hv').
  replace (Z.of_nat (S k) + 1 - 1) with (Z.of_nat k + 1) by lia.
  edestruct (alloc_find_ok k m (if right then r else l) (if right then 2 else 1) 0 (buddyNodes s))
    as (node & ns1 & E & P); try (destruct right; auto; lia).
  exists right, node, ns1. repeat split; auto. destruct right; lia.
Qed.

(** The upward loops stop at the root, which is recomputed separately. *)
Lemma alloc_up_root ns2 (right : bool) f : alloc_up f (prnt (if right then 2 else 1)) ns2 = Done ns2.
Proof. destruct right, f; done. Qed.
Lemma free_up_root ns2 (right : bool) f o :
  free_up f (i32 (prnt (u64 (if right then 2 else 1)))) o ns2 = Done ns2.
Proof. destruct right, f; done. Qed.

(** Rebuilding the state after a change in one half. *)
Lemma root_rebuild s k l r ns2 (right : bool) t' a f :
  Inv0 s k l r -> wft k t' -> repr ns2 (if right then 2 else 1) t' k ->
  same_outside (if right then 2 else 1) (buddyNodes s) ns2 ->
  (forall p, pfree (S k) (BNode (if right then l else t') (if right then t' else r)) p ->
             start s + p < end_ s) ->
  exists ns3, alloc_node ns2 0 = Done ns3 /\
    Inv (mkPageMgr (start s) (end_ s) (rootOrder s) (buddyTreeSize s) ns3 a f) k
      (if right then l else t') (if right then t' else r).
Proof.
  intros I W' R' SO Hend. pose proof (Inv_fits _ _ _ _ I) as Hf. destruct I.
  assert (Hlen2 : length ns2 = length (buddyNodes s)) by apply SO.
  assert (R2l : repr ns2 1 (if right then l else t') k).
  { destruct right; [|done]. apply (same_outside_repr 0 2 1 (buddyNodes s) ns2); auto; lia. }
  assert (R2r : repr ns2 2 (if right then t' else r) k).
  { destruct right; [done|]. apply (same_outside_repr 0 1 2 (buddyNodes s) ns2); auto; lia. }
  destruct (alloc_node_ok ns2 0 k _ _ ltac:(unfold fits in *; by rewrite Hlen2) R2l R2r)
    as (ns3 & E3 & L3 & R3 & SO3).
  exists ns3. split; [done|]. destruct R3 as (Rv&R3l&R3r).
  cbn [bval] in Rv. rewrite ?Nat.sub_1_r in *.
  split; [split|]; cbn [start end_ rootOrder buddyNodes]; auto; try congruence; destruct right; auto.
Qed.

(** Taking a block that the tree offers. *)
Lemma alloc_ok s k l r pages m :
  Inv s k l r -> log2up pages = Z.of_nat m ->
  Z.of_nat m + 1 <= Z.max (bval k l) (bval k r) ->
  exists o l' r' s',
    alloc s pages = Done (start s + o, s') /\ Inv s' k l' r' /\ start s' = start s /\
    end_ s' = end_ s /\ alloc_rel (S k) m (BNode l r) o (BNode l' r').
Proof.
  intros I Hm Hv.
  destruct (alloc_find_root s k l r m I Hv) as (right & node & ns1 & Hmk & Efind & P).
  destruct I as [I iv_root0]. pose proof (Inv_fits _ _ _ _ I) as Hf.
  destruct P as (o & t' & ns2 & AR & Hnode & Hin & Hlen & Hup & R' & SO).
  assert (AR' : alloc_rel (S k) m (BNode l r) (if right then o + 2 ^ Z.of_nat k else o)
    (BNode (if right then l else t') (if right then t' else r))).
  { destruct I, right; [by apply alloc_rel_r|by apply alloc_rel_l]. }
  destruct (root_rebuild s k l r ns2 right t' (u64 (pagesAllocated s + 2 ^ Z.of_nat m))
    (pagesFreed s) I) as (ns3 & E3 & I'); auto; [apply AR| |].
  { intros p Hfp. apply (iv_end _ _ _ _ I), AR'. by left. }
  set (o' := if right then o + 2 ^ Z.of_nat k else o) in *. destruct I.
  assert (Hppn : node + 1 - 2 ^ Z.of_nat (S k - m) = o' / 2 ^ Z.of_nat m).
  { rewrite Hnode. subst o'. replace (S k - m)%nat with (S (k - m)) by lia. rewrite pow2_S.
    destruct right; [|lia].
    replace (Z.of_nat k) with (Z.of_nat (k - m) + Z.of_nat m) by lia.
    rewrite Z.pow_add_r, Z.div_add by (pose proof (pow2_pos m); lia). lia. }
  pose proof AR' as [W N A B F T U]. pose proof (pow2_pos m) as Hpm.
  assert (Hend : start s + o' < end_ s) by (apply iv_end0, F; lia).
  eexists o', _, _, _. split; [|split; [exact I'|split; [done|split; [done|exact AR']]]].
  unfold alloc. rewrite Hm, aget_vat, iv_root0 by lia. cbn [obind].
  destruct (Z.ltb_spec (Z.max (bval k l) (bval k r)) (Z.of_nat m + 1)); [lia|].
  rewrite iv_order0. replace (Z.to_nat (Z.of_nat (S k) + 2 - (Z.of_nat m + 1)))
    with (S (S (k - m))) by lia.
  rewrite Efind. cbn [obind].
  assert (Hpos : 0 < node).
  { pose proof (pow2_pos (k - m)). pose proof (Z.div_pos o (2 ^ Z.of_nat m)).
    assert (0 <= o) by apply AR. destruct right; lia. }
  destruct (Z.ltb_spec 0 node); [|lia]. cbn [passert obind].
  rewrite aset_upd by lia. cbn [obind].
  replace depthFuel with ((depthFuel - (k - m)) + (k - m))%nat by (unfold depthFuel; lia).
  rewrite Hup, alloc_up_root. cbn [obind]. rewrite E3. cbn [obind].
  rewrite !Z.shiftl_1_l.
  replace (Z.of_nat (S k) + 1 - (Z.of_nat m + 1)) with (Z.of_nat (S k - m)) by lia.
  replace (Z.of_nat m + 1 - 1) with (Z.of_nat m) by lia. rewrite Hppn.
  replace (o' / 2 ^ Z.of_nat m * 2 ^ Z.of_nat m) with o'.
  2:{ pose proof (Z.div_mod o' (2 ^ Z.of_nat m) ltac:(lia)). lia. }
  rewrite u64_small by lia.
  destruct (Z.ltb_spec (start s + o') (end_ s)); [|lia]. cbn [passert obind].
  destruct (Z.ltb_spec 0 (start s + o')); [|lia]. done.
Qed.

(** A used block lies in one half, at an offset of that half. *)
Lemma used_half k l r m o :
  wft k l -> wft k r -> bused (S k) (BNode l r) m o ->
  exists right : bool,
    let o1 := if right then o - 2 ^ Z.of_nat k else o in
    (o <? 2 ^ Z.of_nat k) = negb right /\ bused k (if right then r else l) m o1 /\
    (m <= k)%nat /\ 0 <= o < 2 ^ Z.of_nat (S k) /\ o mod 2 ^ Z.of_nat k = o1 /\
    free_rel (S k) m (BNode l r) o
      (BNode (if right then l else tfree k m l o1) (if right then tfree k m r o1 else r)).
Proof.
  intros Wl Wr Hu. apply bused_half in Hu; auto. pose proof (pow2_pos m). rewrite pow2_S.
  destruct (Z.ltb_spec o (2 ^ Z.of_nat k)); [exists false|exists true]; cbn zeta iota;
    pose proof Hu as Hr; apply bused_range in Hr; auto; pose proof Hu as Hm;
    apply bused_order in Hm; auto.
  - split; [done|]. split; [done|]. split; [lia|]. split; [lia|]. split; [apply Z.mod_small; lia|].
    apply free_rel_l; auto. by apply tfree_rel.
  - split; [done|]. split; [done|]. split; [lia|]. split; [lia|]. split.
    { symmetry. apply (Z.mod_unique _ _ 1); lia. }
    replace o with (o - 2 ^ Z.of_nat k + 2 ^ Z.of_nat k) at 1 by lia.
    apply free_rel_r; auto. by apply tfree_rel.
Qed.

(** Releasing a block: pos2node finds its node in the right half, the halves
    are recomputed and the root becomes their maximum. *)
Lemma free_ok s k l r ppn m :
  Inv0 s k l r -> used_block s k l r m ppn -> ppn + 2 ^ Z.of_nat m <= end_ s ->
  exists l' r' s',
    free s ppn (Z.of_nat m) = Done s' /\ Inv s' k l' r' /\ start s' = start s /\
    end_ s' = end_ s /\ free_rel (S k) m (BNode l r) (ppn - start s) (BNode l' r').
Proof.
  intros I Hu He. pose proof (Inv_fits _ _ _ _ I) as Hf.
  destruct (used_half k l r m (ppn - start s)) as (right & Hb & Hu1 & Hmk & Ho & Hmod & FR);
    [apply I|apply I|done|].
  set (o := ppn - start s) in *. set (t := if right then r else l).
  destruct (free_path_ok k m t (if right then 2 else 1) (buddyNodes s) o)
    as (ns2 & Hin & Hz & Hup & R' & SO); try (subst t; destruct I, right; auto; lia).
  { destruct (fits_child _ _ _ Hf) as (?&?&?&?), right; done. }
  { by rewrite Hmod. }
  rewrite Hmod in R'.
  assert (Epos : i32 (pos2node (Z.of_nat (S k)) (u64 o) (Z.of_nat m))
    = pos2node_loop (k - m) o (Z.of_nat k - 1) (if right then 2 else 1)).
  { unfold pos2node. destruct I. rewrite u64_small by (unfold fits in Hf; rewrite !pow2_S in *; lia).
    replace (Z.to_nat (Z.of_nat (S k) - Z.of_nat m)) with (S (k - m)) by lia. cbn [pos2node_loop].
    replace (Z.of_nat (S k) - 1) with (Z.of_nat k) by lia.
    destruct (pos_bit o k ltac:(lia)) as [-> _]. rewrite (Z.mod_small o (2 ^ Z.of_nat (S k))), Hb by lia.
    destruct right; apply i32_small; unfold fits in Hf; cbn in *; lia. }
  edestruct (root_rebuild s k l r ns2 right (tfree k m t (if right then o - 2 ^ Z.of_nat k else o))
    (pagesAllocated s) (u64 (pagesFreed s + 2 ^ Z.of_nat m)) I) as (ns3 & E3 & I'); auto.
  { apply tfree_wf. subst t. destruct I, right; done. }
  { intros p Hfp. assert (Hp : pfree (S k) (BNode l r) p \/ o <= p < o + 2 ^ Z.of_nat m).
    { apply FR. by destruct right. }
    destruct Hp as [Hp|Hp]; [by apply (iv_end _ _ _ _ I)|lia]. }
  eexists _, _, _. split; [|split; [exact I'|split; [done|split; [done|by destruct right]]]].
  destruct I. unfold free. fold o. rewrite iv_order0, Epos, aget_vat, Hz by done.
  cbn [obind passert Z.eqb]. rewrite u8_small, aset_upd by lia. cbn [obind].
  replace depthFuel with ((depthFuel - (k - m)) + (k - m))%nat by (unfold depthFuel; lia).
  rewrite Hup, free_up_root. cbn [obind]. rewrite E3. cbn [obind]. by rewrite Z.shiftl_1_l.
Qed.

(** ** When allocation succeeds *)

Lemma full_free k t :
  wft k t -> (forall p, 0 <= p < 2 ^ Z.of_nat k -> pfree k t p) -> t = BFree.
Proof.
  revert k. induction t as [| |l IHl r IHr]; intros k W Hall; [done| |].
  { specialize (Hall 0). pose proof (pow2_pos k). destruct Hall; lia. }
  destruct W as (Hk&Hn&Wl&Wr). destruct k as [|k]; [lia|]. rewrite Nat.sub_1_r in *. cbn in Wl, Wr.
  exfalso. apply Hn. pose proof (pow2_S k). split; [apply (IHl k Wl)|apply (IHr k Wr)]; intros p Hp.
  - destruct (Hall p) as [H1|H1]; [lia|by rewrite Nat.sub_1_r in H1|].
    rewrite Nat.sub_1_r in H1. apply pfree_range in H1; cbn in *; [lia|done].
  - destruct (Hall (p + 2 ^ Z.of_nat k)) as [H1|H1]; [lia| |].
    + rewrite Nat.sub_1_r in H1. apply pfree_range in H1; cbn in *; [lia|done].
    + rewrite Nat.sub_1_r in H1. cbn in H1.
      by replace (p + 2 ^ Z.of_nat k - 2 ^ Z.of_nat k) with p in H1 by lia.
Qed.

(** [free_block k t m o]: the aligned block of order [m] at [o] is free. *)
Definition free_block (k : nat) (t : btree) (m : nat) (o : Z) : Prop :=
  o mod 2 ^ Z.of_nat m = 0 /\ forall p, o <= p < o + 2 ^ Z.of_nat m -> pfree k t p.

(** An aligned block smaller than the tree lies in one half. *)
Lemma block_half (k m : nat) o :
  (m <= k)%nat -> o mod 2 ^ Z.of_nat m = 0 ->
  o + 2 ^ Z.of_nat m <= 2 ^ Z.of_nat k \/ 2 ^ Z.of_nat k <= o.
Proof.
  intros Hm Ha. pose proof (pow2_pos m). pose proof (Z.div_mod o (2 ^ Z.of_nat m) ltac:(lia)).
  replace (2 ^ Z.of_nat k) with (2 ^ Z.of_nat (k - m) * 2 ^ Z.of_nat m).
  2:{ rewrite <- Z.pow_add_r by lia. f_equal. lia. }
  destruct (Z.lt_ge_cases (o / 2 ^ Z.of_nat m) (2 ^ Z.of_nat (k - m))); nia.
Qed.

Lemma pow2_le_inv (a b : nat) : 2 ^ Z.of_nat a <= 2 ^ Z.of_nat b -> (a <= b)%nat.
Proof. intros H. apply Z.pow_le_mono_r_iff in H; lia. Qed.

Lemma free_block_bval k t m o : wft k t -> free_block k t m o -> Z.of_nat m + 1 <= bval k t.
Proof.
  revert k o. induction t as [| |l IHl r IHr]; intros k o W [Ha Hb]; pose proof (pow2_pos m) as Hpm.
  - pose proof (Hb o ltac:(lia)) as H1. pose proof (Hb (o + 2 ^ Z.of_nat m - 1) ltac:(lia)) as H2.
    cbn in *. assert (m <= k)%nat by (apply pow2_le_inv; lia). lia.
  - destruct (Hb o); lia.
  - pose proof W as (Hk&_&Wl&Wr). destruct k as [|k]; [lia|].
    replace (S k - 1)%nat with k in * by lia.
    pose proof (pfree_range _ _ _ W (Hb o ltac:(lia))) as H1.
    pose proof (pfree_range _ _ _ W (Hb (o + 2 ^ Z.of_nat m - 1) ltac:(lia))) as H2.
    assert (Hm : (m <= S k)%nat) by (apply pow2_le_inv; lia).
    destruct (decide (m = S k)) as [->|Hne].
    { exfalso. discriminate (full_free (S k) (BNode l r) W). intros p Hp. apply Hb. lia. }
    cbn [bval]. replace (S k - 1)%nat with k by lia.
    assert (Hsplit : forall p, o <= p < o + 2 ^ Z.of_nat m ->
      pfree k l p \/ pfree k r (p - 2 ^ Z.of_nat k)).
    { intros p Hp. specialize (Hb p Hp). cbn in Hb. by rewrite Nat.sub_0_r in Hb. }
    destruct (block_half k m o ltac:(lia) Ha) as [Hlo|Hhi].
    + enough (Z.of_nat m + 1 <= bval k l) by lia. apply (IHl k o Wl). split; [done|].
      intros p Hp. destruct (Hsplit p Hp) as [?|Hr]; [done|]. apply pfree_range in Hr; [lia|done].
    + enough (Z.of_nat m + 1 <= bval k r) by lia. apply (IHr k (o - 2 ^ Z.of_nat k) Wr). split.
      * replace (Z.of_nat k) with (Z.of_nat (k - m) + Z.of_nat m) by lia.
        rewrite Z.pow_add_r, Zminus_mod, Ha, Z.mod_mul by lia. done.
      * intros p Hp. destruct (Hsplit (p + 2 ^ Z.of_nat k)) as [Hl|Hr]; [lia| |].
        -- apply pfree_range in Hl; [lia|done].
        -- by replace (p + 2 ^ Z.of_nat k - 2 ^ Z.of_nat k) with p in Hr by lia.
Qed.

(** The two halves of the root offer a block of order at most [k] exactly
    when one is free. *)
Lemma root_offers s k l r m o :
  Inv0 s k l r -> (m <= k)%nat -> free_block (S k) (BNode l r) m o ->
  Z.of_nat m + 1 <= Z.max (bval k l) (bval k r).
Proof.
  intros I Hm [Ha Hb]. destruct I. destruct (decide (l = BFree /\ r = BFree)) as [[-> ->]|Hn].
  { cbn. lia. }
  assert (W : wft (S k) (BNode l r)) by (cbn; rewrite Nat.sub_0_r; repeat split; auto; lia).
  pose proof (free_block_bval (S k) (BNode l r) m o W (conj Ha Hb)) as H. cbn [bval] in H.
  by rewrite Nat.sub_1_r in H.
Qed.

(** The request is refused, by the panic at the top of PageMgr::alloc, when
    the root is too small. *)
Lemma alloc_refuses s k l r pages :
  Inv s k l r -> Z.max (bval k l) (bval k r) < log2up pages + 1 -> alloc s pages = Panic.
Proof.
  intros [I Hr] Hlt. destruct I. unfold alloc. rewrite aget_vat, Hr.
  2:{ rewrite iv_len0, !pow2_S. pose proof (pow2_pos k). lia. }
  cbn [obind]. by destruct (Z.ltb_spec (Z.max (bval k l) (bval k r)) (log2up pages + 1)); [|lia].
Qed.

(** ** The constructor *)

(** The tree of used blocks that [freeUnaligned(start,pages)] releases. *)
Fixpoint dec (k : nat) (n : Z) : btree :=
  match k with
  | O => BUsed
  | S k' => if n <? 2 ^ Z.of_nat k' then BNode (dec k' n) BUsed
            else BNode BUsed (dec k' (n - 2 ^ Z.of_nat k'))
  end.

Lemma dec_wf k n : wft k (dec k n).
Proof.
  revert n. induction k as [|k IH]; intros n; cbn; [done|].
  case_match; cbn; rewrite Nat.sub_0_r; repeat split; try done; try lia; try apply IH.
  all: intros [? ?]; done.
Qed.
Lemma dec_unfree k n p : ~ pfree k (dec k n) p.
Proof.
  revert n p. induction k as [|k IH]; intros n p; cbn; [tauto|].
  case_match; cbn; rewrite Nat.sub_0_r; intros [Hf|Hf]; try done; by apply IH in Hf.
Qed.
Lemma dec_bval k n : bval k (dec k n) = 0.
Proof.
  revert n. induction k as [|k IH]; intros n; cbn; [done|].
  case_match; cbn; rewrite Nat.sub_0_r, IH; done.
Qed.
Lemma dec_repr ns nd k n : 1 <= nd -> (forall j, 1 <= j -> vat ns j = 0) -> repr ns nd (dec k n) k.
Proof.
  revert nd n. induction k as [|k IH]; intros nd n Hnd Hz; cbn; [split; [by apply Hz|done]|].
  case_match; cbn; rewrite !Nat.sub_0_r, dec_bval, !Hz by lia; cbn;
    repeat split; try (apply IH; [lia|done]).
Qed.

(** The block that a set bit [i] of [n] stands for. *)
Lemma dec_used k n (i : nat) :
  0 <= n < 2 ^ Z.of_nat k -> 2 ^ Z.of_nat i <= n mod 2 ^ Z.of_nat (S i) ->
  bused k (dec k n) i (n - n mod 2 ^ Z.of_nat (S i)).
Proof.
  revert n. induction k as [|k IH]; intros n Hn Hi.
  { change (2 ^ Z.of_nat 0) with 1 in Hn. replace n with 0 in * by lia.
    rewrite Z.mod_0_l in Hi by (pose proof (pow2_pos (S i)); lia). pose proof (pow2_pos i). lia. }
  cbn [dec]. pose proof (pow2_pos i). pose proof (pow2_pos k).
  destruct (Z.ltb_spec n (2 ^ Z.of_nat k)).
  { cbn [bused]. rewrite Nat.sub_1_r. left. apply IH; [lia|done]. }
  cbn [bused]. rewrite Nat.sub_1_r. rewrite pow2_S in Hn. cbn [Nat.pred].
  destruct (Nat.lt_trichotomy i k) as [Hik|[->|Hik]].
  - right. assert (E : (n - 2 ^ Z.of_nat k) mod 2 ^ Z.of_nat (S i) = n mod 2 ^ Z.of_nat (S i)).
    { replace (Z.of_nat k) with (Z.of_nat (k - S i) + Z.of_nat (S i)) by lia.
      rewrite Z.pow_add_r, Zminus_mod, Z.mod_mul, Z.sub_0_r, Z.mod_mod by lia. done. }
    specialize (IH (n - 2 ^ Z.of_nat k)). rewrite E in IH.
    replace (n - n mod 2 ^ Z.of_nat (S i) - 2 ^ Z.of_nat k)
      with (n - 2 ^ Z.of_nat k - n mod 2 ^ Z.of_nat (S i)) by lia.
    apply IH; [lia|done].
  - left. split; [done|]. rewrite Z.mod_small by (rewrite pow2_S; lia). lia.
  - assert (2 ^ Z.of_nat (S k) <= 2 ^ Z.of_nat i) by (apply Z.pow_le_mono_r; lia).
    rewrite pow2_S in *. rewrite Z.mod_small in Hi; lia.
Qed.

(** What holds when the loop of freeUnaligned has bits [n-1], ..., 0 left. *)
Record new_inv (s0 : Z) (s : PageMgr) (k : nat) (l r : btree) (pages : Z) (n : nat) : Prop := {
  ni_inv : Inv0 s k l r;
  ni_root : 0 < pages - pages mod 2 ^ Z.of_nat n -> Inv s k l r;
  ni_start : start s = s0;
  ni_end : end_ s = s0 + pages;
  ni_free : forall p, pfree (S k) (BNode l r) p <-> 0 <= p < pages - pages mod 2 ^ Z.of_nat n;
  ni_todo : forall i, (i < n)%nat -> 2 ^ Z.of_nat i <= pages mod 2 ^ Z.of_nat (S i) ->
    bused (S k) (BNode l r) i (pages - pages mod 2 ^ Z.of_nat (S i))
}.

Lemma new_inv_step s0 s k l r pages n :
  0 < pages -> new_inv s0 s k l r pages (S n) ->
  exists s' l' r', new_inv s0 s' k l' r' pages n /\
    freeUnaligned_loop (S n) s (s0 + (pages - pages mod 2 ^ Z.of_nat (S n))) pages =
    freeUnaligned_loop n s' (s0 + (pages - pages mod 2 ^ Z.of_nat n)) pages.
Proof.
  intros Hp [I Hroot <- He Hfree Htodo]. cbn [freeUnaligned_loop].
  destruct (pos_bit pages n ltac:(lia)) as [-> Hm].
  pose proof (Z.mod_pos_bound pages _ (pow2_pos n)).
  pose proof (Z.mod_pos_bound pages _ (pow2_pos (S n))).
  assert (pages mod 2 ^ Z.of_nat (S n) <= pages)
    by (apply Z.mod_le; [lia|apply pow2_pos]).
  destruct (Z.ltb_spec (pages mod 2 ^ Z.of_nat (S n)) (2 ^ Z.of_nat n)) as [Hlo|Hhi].
  - rewrite Z.add_0_r in Hm. exists s, l, r. split; [|by rewrite Hm].
    rewrite Hm in *. split; auto.
  - set (a := pages - pages mod 2 ^ Z.of_nat (S n)) in *.
    replace (pages - pages mod 2 ^ Z.of_nat n) with (a + 2 ^ Z.of_nat n) by lia.
    destruct (free_ok s k l r (start s + a) n) as (l' & r' & s' & E & I' & Es & Ee & FR); auto.
    { unfold used_block. replace (start s + a - start s) with a by lia. apply Htodo; auto; lia. }
    { rewrite He. lia. }
    replace (start s + a - start s) with a in FR by lia. destruct FR as [F T U].
    exists s', l', r'. rewrite E. cbn [obind]. split.
    + split; [apply I'|done|done|congruence| |].
      * intros p. rewrite F, Hfree. lia.
      * intros i Hi Hb. apply U. split; [apply Htodo; auto; lia|]. lia.
    + rewrite Z.shiftl_1_l, u64_small; [f_equal; lia|].
      pose proof (pow2_pos n). destruct I. lia.
Qed.

Lemma new_inv_loop s0 s k l r pages n :
  0 < pages -> new_inv s0 s k l r pages n ->
  exists s' l' r',
    freeUnaligned_loop n s (s0 + (pages - pages mod 2 ^ Z.of_nat n)) pages = Done s' /\
    new_inv s0 s' k l' r' pages 0.
Proof.
  intros Hp. revert s l r. induction n as [|n IH]; intros s l r H.
  - by exists s, l, r.
  - destruct (new_inv_step s0 s k l r pages n Hp H) as (s' & l' & r' & H' & ->). by apply (IH s' l' r').
Qed.

Lemma vat_zeros b n j : 1 <= j -> vat (b :: replicate n 0) j = 0.
Proof.
  intros Hj. unfold vat. replace (Z.to_nat j) with (S (Z.to_nat j - 1)) by lia. cbn.
  destruct (replicate n 0 !! _) eqn:E; [|done]. by apply lookup_replicate in E as [-> _].
Qed.

(** The state before the loop: nothing is free, every block of the binary
    decomposition of [pages] is used as a unit. *)
Lemma new_inv_init b s0 e0 (k : nat) :
  0 < s0 -> e0 < 2 ^ 44 -> (k < 29)%nat -> 2 ^ Z.of_nat k < e0 - s0 < 2 ^ Z.of_nat (S k) ->
  exists l r, new_inv s0
    (mkPageMgr s0 e0 (Z.of_nat (S k)) (2 ^ Z.of_nat (S k) * 2 - 1)
       (b :: replicate (Z.to_nat (2 ^ Z.of_nat (S k) * 2 - 1 - 1)) 0) 0 0)
    k l r (e0 - s0) (S (S k)).
Proof.
  intros Hs He Hk Hp. pose proof (pow2_S k) as HSk. pose proof (pow2_pos k).
  set (pages := e0 - s0) in *. set (ns := b :: replicate _ 0).
  set (l := if pages <? 2 ^ Z.of_nat k then dec k pages else BUsed).
  set (r := if pages <? 2 ^ Z.of_nat k then BUsed else dec k (pages - 2 ^ Z.of_nat k)).
  assert (Ed : BNode l r = dec (S k) pages) by (subst l r; cbn; by case_match).
  assert (Hr0 : forall nd, 1 <= nd -> repr ns nd BUsed k).
  { intros nd Hnd. cbn. split; [by apply vat_zeros|done]. }
  assert (pages mod 2 ^ Z.of_nat (S (S k)) = pages) as Hmod.
  { apply Z.mod_small. rewrite (pow2_S (S k)). lia. }
  exists l, r. split; cbn [start end_ rootOrder buddyNodes]; rewrite ?Hmod; try lia.
  - pose proof (dec_wf (S k) pages) as W. rewrite <- Ed in W. destruct W as (_&_&W1&W2).
    rewrite Nat.sub_1_r in *. split; cbn [start end_ rootOrder buddyNodes]; auto; try lia.
    + subst ns. cbn [length]. rewrite length_replicate, (pow2_S (S k)). lia.
    + subst l. case_match; [|by apply Hr0]. apply dec_repr; [lia|]. intros. by apply vat_zeros.
    + subst r. case_match; [by apply Hr0|]. apply dec_repr; [lia|]. intros. by apply vat_zeros.
    + rewrite Ed. intros p Hf. by apply dec_unfree in Hf.
  - intros p. rewrite Ed. split; [intros Hf; by apply dec_unfree in Hf|lia].
  - intros i _ Hi. rewrite Ed. apply dec_used; [lia|done].
Qed.

Lemma log2up_between n (k : nat) :
  2 ^ Z.of_nat k < n <= 2 ^ Z.of_nat (S k) -> log2up n = Z.of_nat (S k).
Proof.
  intros H. pose proof (pow2_pos k). rewrite log2up_log2_up by lia.
  apply Z.log2_up_unique; [lia|]. by replace (Z.pred (Z.of_nat (S k))) with (Z.of_nat k) by lia.
Qed.

(** The constructor's outcome, for the page counts [2^k < pages < 2^(k+1)]. *)
Lemma PageMgr_new_Inv b s0 e0 (k : nat) :
  0 < s0 -> e0 < 2 ^ 44 -> (k < 29)%nat -> 2 ^ Z.of_nat k < e0 - s0 < 2 ^ Z.of_nat (S k) ->
  exists s l r, PageMgr_new b s0 e0 = Done s /\ Inv s k l r /\ start s = s0 /\ end_ s = e0 /\
    forall ppn, free_page s k l r ppn <-> s0 <= ppn < e0.
Proof.
  intros Hs He Hk Hp. pose proof (pow2_pos k) as Hpk. pose proof (pow2_S k) as HSk.
  assert (Hb : 2 ^ Z.of_nat k <= 2 ^ 28) by (apply Z.pow_le_mono_r; lia).
  change (2 ^ 28) with 268435456 in Hb.
  destruct (new_inv_init b s0 e0 k Hs He Hk Hp) as (l & r & H0).
  destruct (new_inv_loop s0 _ k l r (e0 - s0) (S (S k)) ltac:(lia) H0) as (s & l' & r' & E & N).
  exists s, l', r'. unfold PageMgr_new, freeUnaligned. rewrite (u64_small (e0 - s0)) by lia.
  rewrite (log2up_between _ k) by lia. cbn [rootOrder].
  rewrite Z.shiftl_1_l, (u64_small (_ * 2 - 1)) by lia.
  rewrite Z.mod_small, Z.sub_diag, Z.add_0_r in E by (rewrite (pow2_S (S k)); lia).
  replace (S (Z.to_nat (Z.of_nat (S k)))) with (S (S k)) by lia. split; [done|].
  destruct N as [I Hroot Hst Hen Hfree _]. change (2 ^ Z.of_nat 0) with 1 in *.
  rewrite Z.mod_1_r in *. split; [apply Hroot; lia|]. split; [done|]. split; [lia|].
  intros ppn. unfold free_page. rewrite Hfree. lia.
Qed.

End Buddy.
