(* ===== verification/PageAlloc.v ===== *)
(** * PageAlloc: what the page allocator promises to its clients

    The clients of [alloc::PageMgr] (page tables, VMOs, the kernel heap) see a
    set of pages: [alloc(n)] moves an aligned block of [2^log2up n] pages from
    the free set to the caller and [free(ppn,order)] moves it back. This file
    reads the free set off the array of Buddy.v, runs the allocator against a
    ledger of the blocks its clients hold, and states the contract as the
    type class [PageAllocator] that Buddy.v implements. *)

From S2P Require Import Prelude Klib Buddy.
Local Open Scope Z_scope.

Module PageAlloc.
Import Buddy.

(** ** The free set, read from the array *)
Fixpoint node_free (k : nat) (ns : list Z) (nd p : Z) : bool :=
  if vat ns nd =? Z.of_nat k + 1 then true
  else if vat ns nd =? 0 then false
  else match k with
       | O => false
       | S k' => if p <? 2 ^ Z.of_nat k' then node_free k' ns (2 * nd + 1) p
                 else node_free k' ns (2 * nd + 2) (p - 2 ^ Z.of_nat k')
       end.
Definition page_free (s : PageMgr) (ppn : Z) : bool :=
  (start s <=? ppn) && (ppn <? start s + 2 ^ rootOrder s) &&
  node_free (Z.to_nat (rootOrder s)) (buddyNodes s) 0 (ppn - start s).

Lemma bval_0_unfree k t p : wft k t -> bval k t = 0 -> ~ pfree k t p.
Proof.
  revert k p. induction t as [| |l IHl r IHr]; intros k p; cbn; [lia|tauto|].
  intros (Hk&_&Wl&Wr) Hv. pose proof (bval_range (k - 1) l). pose proof (bval_range (k - 1) r).
  intros [Hf|Hf]; [apply IHl in Hf|apply IHr in Hf]; auto; lia.
Qed.

Lemma node_free_repr k t ns nd p :
  wft k t -> repr ns nd t k -> 0 <= p < 2 ^ Z.of_nat k ->
  node_free k ns nd p = true <-> pfree k t p.
Proof.
  revert t nd p. induction k as [|k IH]; intros t nd p W R Hp;
    pose proof (repr_val _ _ _ _ R) as Hv; cbn [node_free]; rewrite Hv;
    (zeq E; [apply bval_full in E; [subst; cbn in *; intuition lia|done]|]);
    (zeq E0; [split; [done|intros Hf; by apply bval_0_unfree in Hf]|]).
  - exfalso. destruct t as [| |l r]; cbn in *; lia.
  - destruct t as [| |l r]; cbn [bval] in E, E0; [lia|lia|].
    destruct W as (_&_&Wl&Wr), R as (_&Rl&Rr). cbn [pfree].
    replace (S k - 1)%nat with k in * by lia. rewrite pow2_S in Hp.
    destruct (Z.ltb_spec p (2 ^ Z.of_nat k)).
    + rewrite (IH l) by (auto; lia). split; [tauto|].
      intros [?|Hf]; [done|]. apply pfree_range in Hf; [lia|done].
    + rewrite (IH r) by (auto; lia). split; [tauto|].
      intros [Hf|?]; [|done]. apply pfree_range in Hf; [lia|done].
Qed.

Lemma page_free_iff s k l r ppn : Inv s k l r -> page_free s ppn = true <-> free_page s k l r ppn.
Proof.
  intros [I Hr]. destruct I. unfold page_free, free_page. rewrite iv_order0, Nat2Z.id.
  set (p := ppn - start s).
  assert (Hrange : pfree (S k) (BNode l r) p -> 0 <= p < 2 ^ Z.of_nat (S k)).
  { cbn [pfree]. replace (S k - 1)%nat with k by lia. rewrite pow2_S. pose proof (pow2_pos k).
    intros [Hf|Hf]; apply pfree_range in Hf; auto; lia. }
  destruct (Z.leb_spec (start s) ppn); cbn [andb]; [|split; [done|intros Hf; apply Hrange in Hf; lia]].
  destruct (Z.ltb_spec ppn (start s + 2 ^ Z.of_nat (S k))); cbn [andb];
    [|split; [done|intros Hf; apply Hrange in Hf; lia]].
  pose proof (bval_le _ _ iv_wfl0). pose proof (bval_le _ _ iv_wfr0). cbn [node_free]. rewrite Hr.
  destruct (Z.eqb_spec (Z.max (bval k l) (bval k r)) (Z.of_nat (S k) + 1)); [lia|].
  pose proof (bval_range k l). pose proof (bval_range k r).
  change (2 * 0 + 1) with 1. change (2 * 0 + 2) with 2. cbn [pfree].
  replace (S k - 1)%nat with k by lia. rewrite pow2_S in *.
  destruct (Z.eqb_spec (Z.max (bval k l) (bval k r)) 0) as [E|E].
  { split; [done|]. intros [Hf|Hf]; apply bval_0_unfree in Hf; done || lia. }
  destruct (Z.ltb_spec p (2 ^ Z.of_nat k)).
  - rewrite (node_free_repr k l) by (auto; lia). split; [tauto|].
    intros [?|Hf]; [done|]. apply pfree_range in Hf; [lia|done].
  - rewrite (node_free_repr k r) by (auto; lia). split; [tauto|].
    intros [Hf|?]; [|done]. apply pfree_range in Hf; [lia|done].
Qed.

(** Two blocks used as units are the same block or disjoint. *)
Lemma bused_disjoint k t m o m' o' p :
  wft k t -> bused k t m o -> bused k t m' o' ->
  o <= p < o + 2 ^ Z.of_nat m -> o' <= p < o' + 2 ^ Z.of_nat m' -> m = m' /\ o = o'.
Proof.
  revert k o o' p. induction t as [| |l IHl r IHr]; intros k o o' p; cbn; try tauto.
  { intros _ [-> ->] [-> ->]. done. }
  intros (Hk&_&Wl&Wr) H1 H2 Hp Hp'.
  destruct H1 as [H1|H1], H2 as [H2|H2];
    pose proof H1 as R1; apply bused_range in R1; auto; pose proof H2 as R2; apply bused_range in R2; auto.
  - by eapply IHl.
  - lia.
  - lia.
  - edestruct (IHr (k - 1)%nat _ _ (p - 2 ^ Z.of_nat (k - 1)) Wr H1 H2); lia.
Qed.

(** ** Clients with a ledger

    The ledger maps the first page of every block held by a client to its
    order. A client may ask for pages and may give back a block it holds. *)
Inductive pm_step : PageMgr * gmap Z nat -> PageMgr * gmap Z nat -> Prop :=
| st_alloc s L pages ppn s' :
    1 <= pages -> alloc s pages = Done (ppn, s') ->
    pm_step (s, L) (s', <[ppn := Z.to_nat (log2up pages)]> L)
| st_free s L ppn m s' :
    L !! ppn = Some m -> free s ppn (Z.of_nat m) = Done s' ->
    pm_step (s, L) (s', delete ppn L).
Definition pm_reach (s0 : PageMgr) (s : PageMgr) (L : gmap Z nat) : Prop :=
  rtc pm_step (s0, ∅) (s, L).

(** [held L p]: page [p] is inside a block of the ledger. *)
Definition held (L : gmap Z nat) (p : Z) : Prop :=
  exists ppn m, L !! ppn = Some m /\ ppn <= p < ppn + 2 ^ Z.of_nat m.

(** The ghost tree agrees with the ledger. *)
Record Led (s : PageMgr) (L : gmap Z nat) (k : nat) (l r : btree) : Prop := {
  ld_inv : Inv s k l r;
  ld_used : forall ppn m, L !! ppn = Some m ->
    used_block s k l r m ppn /\ ppn + 2 ^ Z.of_nat m <= end_ s;
  ld_cover : forall p, start s <= p < end_ s <-> free_page s k l r p \/ held L p
}.

Lemma used_in s k l r m ppn :
  Inv0 s k l r -> used_block s k l r m ppn ->
  start s <= ppn /\ (m <= k)%nat /\
  forall p, ppn <= p < ppn + 2 ^ Z.of_nat m -> ~ free_page s k l r p.
Proof.
  intros I Hu. destruct I. unfold used_block in Hu. pose proof (pow2_pos m).
  destruct (used_half k l r m _ iv_wfl0 iv_wfr0 Hu) as (right & Hb & Hu1 & Hmk & Ho & Hmod & [F T U]).
  split; [lia|]. split; [lia|]. intros p Hp. apply T. lia.
Qed.

Lemma used_same s k l r m ppn m' ppn' p :
  Inv0 s k l r -> used_block s k l r m ppn -> used_block s k l r m' ppn' ->
  ppn <= p < ppn + 2 ^ Z.of_nat m -> ppn' <= p < ppn' + 2 ^ Z.of_nat m' -> m = m' /\ ppn = ppn'.
Proof.
  intros I H1 H2 Hp Hp'. destruct I. unfold used_block in *.
  destruct (decide (l = BFree /\ r = BFree)) as [[-> ->]|Hn]; [cbn in *; tauto|].
  edestruct (bused_disjoint (S k) (BNode l r) m (ppn - start s) m' (ppn' - start s) (p - start s));
    auto; try lia. cbn. rewrite Nat.sub_0_r. repeat split; auto. lia.
Qed.

Lemma log2up_nat pages : 1 <= pages -> log2up pages = Z.of_nat (Z.to_nat (log2up pages)).
Proof. intros Hp. pose proof (log2up_bounds pages Hp). lia. Qed.

(** One allocation, seen from outside. *)
Lemma alloc_view s k l r pages ppn s' :
  Inv s k l r -> 1 <= pages -> alloc s pages = Done (ppn, s') ->
  let m := Z.to_nat (log2up pages) in
  exists l' r', Inv s' k l' r' /\ start s' = start s /\ end_ s' = end_ s /\
    alloc_rel (S k) m (BNode l r) (ppn - start s) (BNode l' r') /\
    ppn + 2 ^ Z.of_nat m <= end_ s.
Proof.
  intros I Hp Ha m. pose proof (log2up_nat pages Hp) as Hm. fold m in Hm.
  destruct (Z.lt_ge_cases (Z.max (bval k l) (bval k r)) (log2up pages + 1)) as [Hlt|Hge].
  { by rewrite (alloc_refuses s k l r pages I Hlt) in Ha. }
  destruct (alloc_ok s k l r pages m I Hm) as (o & l' & r' & s'' & E & I' & Es & Ee & AR); [lia|].
  rewrite E in Ha. injection Ha as <- <-. exists l', r'. replace (start s + o - start s) with o by lia.
  repeat (split; [done|]). pose proof (pow2_pos m).
  enough (start s + (o + 2 ^ Z.of_nat m - 1) < end_ s) by lia.
  apply (iv_end _ _ _ _ (iv_base _ _ _ _ I)), AR. lia.
Qed.

Lemma Led_alloc s L s' pages ppn k l r :
  Led s L k l r -> 1 <= pages -> alloc s pages = Done (ppn, s') ->
  exists l' r', Led s' (<[ppn := Z.to_nat (log2up pages)]> L) k l' r' /\
    start s' = start s /\ end_ s' = end_ s.
Proof.
  intros [I Hu Hc] Hp Ha.
  destruct (alloc_view s k l r pages ppn s' I Hp Ha) as (l' & r' & I' & Es & Ee & AR & Hin).
    set (m := Z.to_nat (log2up pages)) in *. destruct AR as [W N A B F T U]. pose proof (pow2_pos m).
    exists l', r'. split; [|done]. split; [done| |].
    + intros q mq. unfold used_block. rewrite Es, Ee.
      destruct (decide (q = ppn)) as [->|Hne]; [rewrite lookup_insert_eq|rewrite lookup_insert_ne by done].
      * intros [= <-]. split; [apply U; by right|done].
      * intros HL. destruct (Hu _ _ HL) as [H1 H2]. split; [apply U; by left|done].
    + intros p. rewrite Es, Ee, Hc. unfold free_page. rewrite Es, (F (p - start s)). split.
      * intros [[Hp1|Hp1]|(q & mq & HL & Hq)]; [by left|right; exists ppn, m; split; [by rewrite lookup_insert_eq|lia]|].
        right. exists q, mq. rewrite lookup_insert_ne; [done|]. intros <-.
        destruct (Hu _ _ HL) as [H1 _]. destruct (used_in s k l r mq ppn) as (_ & _ & Hnf); auto; [apply I|].
        apply (Hnf ppn); [pose proof (pow2_pos mq); lia|]. apply F. right. lia.
      * intros [Hp1|(q & mq & HL & Hq)]; [by left; left|].
        destruct (decide (q = ppn)) as [->|Hne]; [rewrite lookup_insert_eq in HL|rewrite lookup_insert_ne in HL by done].
        -- injection HL as <-. left. right. lia.
        -- right. by exists q, mq.
Qed.

Lemma Led_free s L s' ppn m k l r :
  Led s L k l r -> L !! ppn = Some m -> free s ppn (Z.of_nat m) = Done s' ->
  exists l' r', Led s' (delete ppn L) k l' r' /\ start s' = start s /\ end_ s' = end_ s.
Proof.
  intros [I Hu Hc] HL Hf.
  destruct (Hu _ _ HL) as [H1 H2]. pose proof (pow2_pos m).
    destruct (free_ok s k l r ppn m (iv_base _ _ _ _ I) H1 H2) as (l' & r' & s'' & E & I' & Es & Ee & [F T U]).
    rewrite E in Hf. injection Hf as ->. exists l', r'. split; [|done]. split; [done| |].
    + intros q mq Hq. apply lookup_delete_Some in Hq as [Hne Hq]. destruct (Hu _ _ Hq) as [H3 H4].
      unfold used_block. rewrite Es, Ee. split; [|done]. apply U. split; [done|]. intros [_ ?]. lia.
    + intros p. rewrite Es, Ee, Hc. unfold free_page. rewrite Es, (F (p - start s)). split.
      * intros [Hp1|(q & mq & Hq & Hqp)]; [by left; left|].
        destruct (decide (q = ppn)) as [->|Hne]; [rewrite HL in Hq; injection Hq as <-; left; right; lia|].
        right. exists q, mq. by rewrite lookup_delete_ne.
      * intros [[Hp1|Hp1]|(q & mq & Hq & Hqp)]; [by left|right; exists ppn, m; split; [done|lia]|].
        apply lookup_delete_Some in Hq as [Hne Hq]. right. by exists q, mq.
Qed.

Lemma Led_step s L s' L' k l r :
  pm_step (s, L) (s', L') -> Led s L k l r ->
  exists l' r', Led s' L' k l' r' /\ start s' = start s /\ end_ s' = end_ s.
Proof.
  intros Hst HLed. inversion Hst; subst; eauto using Led_alloc, Led_free.
Qed.

Lemma Led_reach s0 s L k l r :
  pm_reach s0 s L -> Led s0 ∅ k l r ->
  exists l' r', Led s L k l' r' /\ start s = start s0 /\ end_ s = end_ s0.
Proof.
  intros Hr H0. refine (rtc_ind_r (fun c => exists l' r', Led c.1 c.2 k l' r' /\
    start c.1 = start s0 /\ end_ c.1 = end_ s0) (s0, ∅) _ _ (s, L) Hr); [by exists l, r|].
  intros [y1 y2] [z1 z2] _ Hyz (l1 & r1 & H1 & Es & Ee).
  destruct (Led_step _ _ _ _ _ _ _ Hyz H1) as (l2 & r2 & H2 & Es2 & Ee2).
  exists l2, r2. cbn in *. split; [done|]. split; congruence.
Qed.

(** The page counts the constructor handles; a physical page number has 44
    bits. *)
Definition good_range (s0 e0 : Z) (k : nat) : Prop :=
  0 < s0 /\ e0 < 2 ^ 44 /\ (k < 29)%nat /\ 2 ^ Z.of_nat k < e0 - s0 < 2 ^ Z.of_nat (S k).

Lemma reach_Led b s0 e0 k s t L :
  good_range s0 e0 k -> PageMgr_new b s0 e0 = Done s -> pm_reach s t L ->
  exists l r, Led t L k l r /\ start t = s0 /\ end_ t = e0.
Proof.
  intros (H1&H2&H3&H4) Hnew Hr.
  destruct (PageMgr_new_Inv b s0 e0 k H1 H2 H3 H4) as (s' & l & r & E & I & Es & Ee & Hf).
  rewrite E in Hnew. injection Hnew as <-.
  edestruct (Led_reach s' t L k l r Hr) as (l' & r' & HL & Es' & Ee').
  { split; [done| |].
    - intros ppn m Hl. by rewrite lookup_empty in Hl.
    - intros p. rewrite Es, Ee, <- Hf. split; [by left|]. intros [?|(q & mq & Hl & _)]; [done|].
      by rewrite lookup_empty in Hl. }
  exists l', r'. split; [done|]. split; congruence.
Qed.

Lemma bused_aligned k t m o : wft k t -> bused k t m o -> o mod 2 ^ Z.of_nat m = 0.
Proof.
  revert k o. induction t as [| |l IHl r IHr]; intros k o; cbn; try done.
  { intros _ [-> ->]. apply Z.mod_0_l. pose proof (pow2_pos k). lia. }
  intros (Hk&_&Wl&Wr) [Hu|Hu]; [by apply (IHl (k - 1)%nat)|].
  pose proof (bused_order _ _ _ _ Wr Hu) as Hm. apply IHr in Hu; [|done]. pose proof (pow2_pos m).
  rewrite <- Hu. replace (Z.of_nat (k - 1)) with (Z.of_nat (k - 1 - m) + Z.of_nat m) by lia.
  rewrite Z.pow_add_r, Zminus_mod, Z.mod_mul, Z.sub_0_r, Z.mod_mod by lia. done.
Qed.

(** [free_at s m ppn]: the aligned block of [2^m] pages at [ppn] is free. *)
Definition free_at (s : PageMgr) (m : nat) (ppn : Z) : Prop :=
  (ppn - start s) mod 2 ^ Z.of_nat m = 0 /\
  forall p, ppn <= p < ppn + 2 ^ Z.of_nat m -> page_free s p = true.

Lemma free_at_block s k l r m ppn :
  Inv s k l r -> free_at s m ppn <-> free_block (S k) (BNode l r) m (ppn - start s).
Proof.
  intros I. unfold free_at, free_block. split; intros [Ha Hb]; (split; [done|]); intros p Hp.
  - specialize (Hb (p + start s) ltac:(lia)). apply (page_free_iff s k l r) in Hb; [|done].
    unfold free_page in Hb. by replace (p + start s - start s) with p in Hb by lia.
  - apply (page_free_iff s k l r); [done|]. unfold free_page. apply Hb. lia.
Qed.

(** ** The contract of the allocator, for the components that use it *)
Class PageAllocator {A : Type} (pa_alloc : A -> Z -> outcome (Z * A))
    (pa_avail : A -> Z -> Prop) (pa_ok : A -> Prop) : Prop := {
  pa_range : forall s p, pa_ok s -> pa_avail s p -> 0 < p < 2 ^ 44;
  pa_outcome : forall s n, pa_ok s -> 1 <= n ->
    pa_alloc s n = Panic \/ exists ppn s', pa_alloc s n = Done (ppn, s');
  pa_done : forall s n ppn s', pa_ok s -> 1 <= n -> pa_alloc s n = Done (ppn, s') ->
    pa_ok s' /\ 0 < ppn /\
    (forall p, pa_avail s p <-> pa_avail s' p \/ ppn <= p < ppn + 2 ^ log2up n) /\
    (forall p, ppn <= p < ppn + 2 ^ log2up n -> ~ pa_avail s' p);
  pa_single : forall s, pa_ok s -> pa_alloc s 1 = Panic -> forall p, ~ pa_avail s p
}.

Definition pm_ok (s : PageMgr) : Prop := exists k l r, Inv s k l r.

#[export] Instance buddy_page_allocator :
  PageAllocator alloc (fun s p => page_free s p = true) pm_ok.
Proof.
  split.
  - intros s p (k & l & r & I) Hp. apply (page_free_iff s k l r) in Hp; [|done].
    pose proof (iv_end _ _ _ _ (iv_base _ _ _ _ I) _ Hp).
    pose proof (iv_start _ _ _ _ (iv_base _ _ _ _ I)). unfold free_page in Hp.
    destruct (iv_base _ _ _ _ I). cbn [pfree] in Hp. rewrite Nat.sub_1_r in Hp.
    destruct Hp as [Hp|Hp]; apply pfree_range in Hp; auto; pose proof (pow2_pos k); cbn in *; lia.
  - intros s n (k & l & r & I) Hn. pose proof (log2up_nat n Hn) as Hm.
    destruct (Z.lt_ge_cases (Z.max (bval k l) (bval k r)) (log2up n + 1)).
    + left. by apply (alloc_refuses s k l r).
    + right. destruct (alloc_ok s k l r n _ I Hm) as (o & l' & r' & s' & E & _); [lia|]. eauto.
  - intros s n ppn s' (k & l & r & I) Hn Ha.
    destruct (alloc_view s k l r n ppn s' I Hn Ha) as (l' & r' & I' & Es & Ee & AR & Hin).
    rewrite <- log2up_nat in * by done. destruct AR as [W N A B F T U].
    pose proof (iv_start _ _ _ _ (iv_base _ _ _ _ I)).
    split; [by exists k, l', r'|]. split; [lia|]. split.
    + intros p. rewrite (page_free_iff s k l r), (page_free_iff s' k l' r') by done.
      unfold free_page. rewrite Es, F, <- log2up_nat by done. intuition lia.
    + intros p Hp. rewrite (page_free_iff s' k l' r') by done. unfold free_page. rewrite Es.
      apply T. rewrite <- log2up_nat by done. lia.
  - intros s (k & l & r & I) Hp p Hf. apply (page_free_iff s k l r) in Hf; [|done].
    assert (Hb : free_block (S k) (BNode l r) 0 (p - start s)).
    { split; [apply Z.mod_1_r|]. intros x Hx. change (2 ^ Z.of_nat 0) with 1 in Hx.
      unfold free_page in Hf. by replace x with (p - start s) by lia. }
    apply (root_offers s k l r 0) in Hb; [|apply I|lia].
    destruct (alloc_ok s k l r 1 0 I) as (o & l' & r' & s' & E & _); [done|lia|]. by rewrite E in Hp.
Qed.

(** ** A page count that is a power of two *)

Lemma pow2_bits_clear s ppn (k n : nat) :
  (n <= k)%nat -> freeUnaligned_loop n s ppn (2 ^ Z.of_nat k) = Done s.
Proof.
  induction n as [|n IH]; intros Hn; [done|]. cbn [freeUnaligned_loop].
  destruct (pos_bit (2 ^ Z.of_nat k) n) as [-> _]; [pose proof (pow2_pos k); lia|].
  replace (Z.of_nat k) with (Z.of_nat (k - S n) + Z.of_nat (S n)) at 1 by lia.
  rewrite Z.pow_add_r, Z.mod_mul by (pose proof (pow2_pos (S n)); lia).
  pose proof (pow2_pos n). destruct (Z.ltb_spec 0 (2 ^ Z.of_nat n)); [|lia]. apply IH. lia.
Qed.

(** Releasing the whole region writes the root and then overwrites it with
    the maximum of its (used) children. *)
Lemma free_whole s (k : nat) :
  rootOrder s = Z.of_nat k -> (3 <= length (buddyNodes s))%nat ->
  (forall j, 0 <= j -> vat (buddyNodes s) j = 0) ->
  exists s', free s (start s) (Z.of_nat k) = Done s' /\
    length (buddyNodes s') = length (buddyNodes s) /\ vat (buddyNodes s') 0 = 0.
Proof.
  intros Ho Hlen Hz. unfold free. rewrite Ho, Z.sub_diag.
  unfold pos2node. rewrite Z.sub_diag. change (i32 (pos2node_loop _ _ _ 0)) with 0.
  rewrite aget_vat, Hz by lia. cbn [obind passert Z.eqb]. rewrite aset_upd by lia. cbn [obind].
  change (i32 (prnt (u64 0))) with (-1). change depthFuel with (S 63). cbn [free_up Z.leb Z.compare obind].
  unfold alloc_node. rewrite lsub_eq, rsub_eq by lia. change (2 * 0 + 1) with 1. change (2 * 0 + 2) with 2.
  rewrite !aget_vat, !vat_upd_ne, !Hz by (rewrite ?length_upd; lia). cbn [obind].
  rewrite aset_upd by (rewrite length_upd; lia). cbn [obind].
  eexists. split; [done|]. cbn [buddyNodes]. rewrite !length_upd. split; [done|].
  by rewrite vat_upd_eq by (rewrite length_upd; lia).
Qed.

(** A VMO gives its pages back with [freeUnaligned(ppn,pages)] (include/vm/vmo.hh),
    piece by piece, although [alloc(pages)] took one block of the rounded size. *)
Definition vmo_roundtrip (s : PageMgr) (pages : Z) : outcome PageMgr :=
  let* (ppn, s1) := alloc s pages in freeUnaligned s1 ppn pages.

(** A short client run used by the examples: three one-page blocks are taken
    and given back. *)
Definition ex_new : outcome PageMgr := PageMgr_new 0 100 106.
Definition ex_used : outcome PageMgr :=
  let* s := ex_new in
  let* (p, s) := alloc s 1 in
  let* (q, s) := alloc s 1 in
  let* (q3, s) := alloc s 1 in
  let* s := free s q3 0 in
  let* s := free s p 0 in
  free s q 0.

(** ** Theorems *)

(** The constructor on a region whose page count is not a power of two
    returns an allocator in which exactly the pages of [start, end) are free,
    whatever byte 0 of the node array held before. *)
Theorem buddy_new_all_free b s0 e0 k :
  good_range s0 e0 k ->
  exists s, PageMgr_new b s0 e0 = Done s /\
    forall ppn, page_free s ppn = true <-> s0 <= ppn < e0.
Proof.
  intros (H1&H2&H3&H4).
  destruct (PageMgr_new_Inv b s0 e0 k H1 H2 H3 H4) as (s & l & r & E & I & _ & _ & Hf).
  exists s. split; [done|]. intros ppn. by rewrite (page_free_iff s k l r).
Qed.

(** C1. For a region of page numbers below 2^44 whose number of pages lies
    strictly between two neighbouring powers of two, 2^k and 2^(k+1) with k
    below 29 (a region of exactly a power of two is unusable, see
    buddy_pow2_unusable): no page is lost and no page is handed out twice.
    After any sequence of allocations and releases of held blocks, the region
    is exactly the free pages plus the held pages, the two do not meet, two
    held blocks that share a page are the same block, and the distance of
    every held block from the first page of the region is a multiple of its
    size. *)
Theorem buddy_ledger_exact b s0 e0 k s t L :
  good_range s0 e0 k -> PageMgr_new b s0 e0 = Done s -> pm_reach s t L ->
  (forall p, s0 <= p < e0 <-> page_free t p = true \/ held L p) /\
  (forall p, page_free t p = true -> ~ held L p) /\
  (forall q m q' m' p, L !! q = Some m -> L !! q' = Some m' ->
     q <= p < q + 2 ^ Z.of_nat m -> q' <= p < q' + 2 ^ Z.of_nat m' -> q = q' /\ m = m') /\
  (forall q m, L !! q = Some m -> (q - s0) mod 2 ^ Z.of_nat m = 0).
Proof.
  intros Hg Hn Hr. destruct (reach_Led b s0 e0 k s t L Hg Hn Hr) as (l & r & [I Hu Hc] & Es & Ee).
  pose proof (iv_base _ _ _ _ I) as I0. split; [|split; [|split]].
  - intros p. by rewrite (page_free_iff t k l r), <- Hc, Es, Ee.
  - intros p Hp (q & m & HL & Hq). apply (page_free_iff t k l r) in Hp; [|done].
    by apply (used_in t k l r m q I0 (proj1 (Hu _ _ HL))) in Hp.
  - intros q m q' m' p HL HL' Hp Hp'.
    edestruct (used_same t k l r m q m' q' p I0 (proj1 (Hu _ _ HL)) (proj1 (Hu _ _ HL'))); auto.
  - intros q m HL. rewrite <- Es. pose proof (proj1 (Hu _ _ HL)) as Hb.
    destruct (used_half k l r m _ (iv_wfl _ _ _ _ I0) (iv_wfr _ _ _ _ I0) Hb) as (_ & _ & _ & Hmk & _).
    destruct (decide (l = BFree /\ r = BFree)) as [[-> ->]|Hne]; [by destruct Hb as [[]|[]]|].
    apply (bused_aligned (S k) (BNode l r)); [|done].
    cbn. rewrite Nat.sub_0_r. repeat split; auto; [lia|apply I0|apply I0].
Qed.

(** C26. For a region of page numbers below 2^44 whose number of pages lies
    strictly between 2^k and 2^(k+1), k below 29 (in a region of exactly a
    power of two every request panics, see buddy_pow2_unusable), after any
    sequence of allocations and releases of held blocks: a request whose size,
    rounded up to a power of two, is below that of the region succeeds exactly
    when a free block of the rounded size exists at a distance from the first
    page of the region that is a multiple of that size, and it returns such a
    block; otherwise the allocator panics. *)
Theorem buddy_alloc_complete b s0 e0 k s t L pages :
  good_range s0 e0 k -> PageMgr_new b s0 e0 = Done s -> pm_reach s t L ->
  1 <= pages -> log2up pages < log2up (e0 - s0) ->
  let m := Z.to_nat (log2up pages) in
  ((exists ppn, free_at t m ppn) -> exists ppn t', alloc t pages = Done (ppn, t') /\ free_at t m ppn) /\
  (~ (exists ppn, free_at t m ppn) -> alloc t pages = Panic).
Proof.
  intros Hg Hn Hr Hp Hlt m. destruct (reach_Led b s0 e0 k s t L Hg Hn Hr) as (l & r & [I Hu Hc] & Es & Ee).
  destruct Hg as (_&_&_&Hk). rewrite (log2up_between (e0 - s0) k) in Hlt by lia.
  pose proof (log2up_nat pages Hp) as Hm. fold m in Hm.
  assert (Hok : Z.of_nat m + 1 <= Z.max (bval k l) (bval k r) ->
    exists ppn t', alloc t pages = Done (ppn, t') /\ free_at t m ppn).
  { intros Hv. destruct (alloc_ok t k l r pages m I Hm Hv) as (o & l' & r' & t' & E & _ & _ & _ & AR).
    exists (start t + o), t'. split; [done|]. apply (free_at_block t k l r); [done|].
    replace (start t + o - start t) with o by lia. split; [apply AR|]. intros p Hq. apply AR. lia. }
  split.
  - intros [ppn Hf]. apply Hok. apply (free_at_block t k l r) in Hf; [|done].
    apply (root_offers t k l r m (ppn - start t)); [apply I|lia|done].
  - intros Hno. apply (alloc_refuses t k l r); [done|].
    destruct (Z.lt_ge_cases (Z.max (bval k l) (bval k r)) (log2up pages + 1)); [done|].
    exfalso. apply Hno. destruct Hok as (ppn & _ & _ & Hf); [lia|]. by exists ppn.
Qed.

(** Releasing a held block never fails its assertion and frees exactly the
    pages of that block. *)
Theorem buddy_free_exact b s0 e0 k s t L ppn m :
  good_range s0 e0 k -> PageMgr_new b s0 e0 = Done s -> pm_reach s t L ->
  L !! ppn = Some m ->
  exists t', free t ppn (Z.of_nat m) = Done t' /\
    forall p, page_free t' p = true <->
              page_free t p = true \/ ppn <= p < ppn + 2 ^ Z.of_nat m.
Proof.
  intros Hg Hn Hr HL. destruct (reach_Led b s0 e0 k s t L Hg Hn Hr) as (l & r & [I Hu Hc] & Es & Ee).
  destruct (Hu _ _ HL) as [H1 H2].
  destruct (free_ok t k l r ppn m (iv_base _ _ _ _ I) H1 H2) as (l' & r' & t' & E & I' & Es' & _ & [F _ _]).
  exists t'. split; [done|]. intros p.
  rewrite (page_free_iff t k l r), (page_free_iff t' k l' r') by done.
  unfold free_page. rewrite Es', F. intuition lia.
Qed.

(** When the page count of the region is a power of two, at least 2, the
    constructor leaves an allocator that panics on every request although the
    whole region was given to it: PageMgr::free sets the root and then
    overwrites it with the maximum of its children. *)
Theorem buddy_pow2_unusable s0 (k : nat) :
  0 < s0 -> (1 <= k < 29)%nat ->
  exists s, PageMgr_new 0 s0 (s0 + 2 ^ Z.of_nat k) = Done s /\
    forall pages, 1 <= pages -> alloc s pages = Panic.
Proof.
  intros Hs Hk. destruct k as [|k]; [lia|]. pose proof (pow2_pos k). pose proof (pow2_S k) as HS.
  assert (Hb : 2 ^ Z.of_nat k <= 2 ^ 28) by (apply Z.pow_le_mono_r; lia).
  change (2 ^ 28) with 268435456 in Hb.
  unfold PageMgr_new, freeUnaligned. replace (s0 + 2 ^ Z.of_nat (S k) - s0) with (2 ^ Z.of_nat (S k)) by lia.
  rewrite (u64_small (2 ^ Z.of_nat (S k))), log2up_pow2 by lia. cbn [rootOrder].
  rewrite Z.shiftl_1_l, (u64_small (_ * 2 - 1)) by lia.
  edestruct (free_whole (mkPageMgr s0 (s0 + 2 ^ Z.of_nat (S k)) (Z.of_nat (S k))
    (2 ^ Z.of_nat (S k) * 2 - 1) (0 :: replicate (Z.to_nat (2 ^ Z.of_nat (S k) * 2 - 1 - 1)) 0) 0 0) (S k))
    as (s & E & Hlen & Hv).
  { done. } { cbn [buddyNodes length]. rewrite length_replicate. lia. }
  { intros j Hj. cbn [buddyNodes]. destruct (decide (j = 0)) as [->|]; [done|]. apply vat_zeros. lia. }
  exists s. replace (S (Z.to_nat (Z.of_nat (S k)))) with (S (S k)) by lia. cbn [freeUnaligned_loop].
  destruct (pos_bit (2 ^ Z.of_nat (S k)) (S k)) as [-> _]; [lia|].
  rewrite Z.mod_small by (rewrite (pow2_S (S k)); lia). rewrite Z.ltb_irrefl.
  cbn [start] in E. rewrite E. cbn [obind]. split; [by apply (pow2_bits_clear _ _ (S k) (S k))|].
  intros pages Hp. unfold alloc. rewrite aget_vat, Hv.
  2:{ rewrite Hlen. cbn [buddyNodes length]. lia. }
  cbn [obind]. pose proof (log2up_bounds pages Hp).
  by destruct (Z.ltb_spec 0 (log2up pages + 1)); [|lia].
Qed.

(** Giving a three-page VMO back by pieces fails an assertion: one block of
    four pages was taken, and the nodes below it still hold what an earlier
    merge left there. *)
Theorem vmo_free_pieces_panics :
  (let* s := ex_used in vmo_roundtrip s 3) = Panic /\
  (let* s := ex_used in let* (ppn, s1) := alloc s 3 in
   let* s2 := free s1 ppn 2 in Done (ppn, page_free s2 <$> [99; 100; 101; 102; 103; 104; 105; 106]))
  = Done (100, [false; true; true; true; true; true; true; false]).
Proof. split; vm_compute; reflexivity. Qed.

(** ** Witnesses *)
Definition ex_s : PageMgr := Eval vm_compute in
  match PageMgr_new 7 100 106 with Done s => s | _ => mkPageMgr 0 0 0 0 [] 0 0 end.
Definition ex_t : Z * PageMgr := Eval vm_compute in
  match alloc ex_s 2 with Done x => x | _ => (0, ex_s) end.

Lemma ex_range : good_range 100 106 2.
Proof. unfold good_range. cbn. lia. Qed.
Lemma ex_built : PageMgr_new 7 100 106 = Done ex_s.
Proof. vm_compute. reflexivity. Qed.
Lemma ex_reach : pm_reach ex_s ex_t.2 (<[ex_t.1 := 1%nat]> ∅).
Proof.
  apply rtc_once. apply (st_alloc ex_s ∅ 2 ex_t.1 ex_t.2); [lia|]. vm_compute. reflexivity.
Qed.

Lemma buddy_new_all_free_witness :
  good_range 100 106 2 /\ exists s, PageMgr_new 9 100 106 = Done s /\
    forall ppn, page_free s ppn = true <-> 100 <= ppn < 106.
Proof. split; [exact ex_range|]. exact (buddy_new_all_free 9 100 106 2 ex_range). Defined.

Lemma buddy_ledger_exact_witness :
  pm_reach ex_s ex_t.2 (<[ex_t.1 := 1%nat]> ∅) /\
  (forall p, 100 <= p < 106 <-> page_free ex_t.2 p = true \/ held (<[ex_t.1 := 1%nat]> ∅) p).
Proof.
  split; [exact ex_reach|].
  exact (proj1 (buddy_ledger_exact 7 100 106 2 ex_s ex_t.2 _ ex_range ex_built ex_reach)).
Defined.

Lemma buddy_alloc_complete_witness :
  exists ppn t', alloc ex_t.2 1 = Done (ppn, t') /\ free_at ex_t.2 0 ppn.
Proof.
  apply (proj1 (buddy_alloc_complete 7 100 106 2 ex_s ex_t.2 _ 1 ex_range ex_built ex_reach
    ltac:(lia) ltac:(vm_compute; reflexivity))).
  exists 100. split; [reflexivity|]. intros p Hp. change (2 ^ Z.of_nat _) with 1 in Hp. assert (p = 100) as -> by lia.
  vm_compute. reflexivity.
Defined.

Lemma buddy_free_exact_witness :
  exists t', free ex_t.2 ex_t.1 1 = Done t' /\
    forall p, page_free t' p = true <-> page_free ex_t.2 p = true \/ ex_t.1 <= p < ex_t.1 + 2 ^ Z.of_nat 1.
Proof.
  exact (buddy_free_exact 7 100 106 2 ex_s ex_t.2 _ ex_t.1 1 ex_range ex_built ex_reach
    (lookup_insert_eq _ _ _)).
Defined.

Lemma buddy_pow2_unusable_witness :
  exists s, PageMgr_new 0 100 (100 + 2 ^ Z.of_nat 3) = Done s /\ forall pages, 1 <= pages -> alloc s pages = Panic.
Proof. apply (buddy_pow2_unusable 100 3); lia. Defined.

End PageAlloc.
