(* ===== verification/PageTable.v ===== *)
(** * PageTable: Sv39 page tables (include/vm.hh, kernel/vm/pagetable.cc)

    Table nodes live in physical pages: the memory maps a page number to the
    512 entries it holds. An entry is the raw 64-bit word; the bit fields of
    the union [PageTableEntry] are read and written with masks and shifts. The
    page allocator is a parameter with the contract [PageAllocator]. *)

From S2P Require Import Prelude Klib PageAlloc.
From stdpp Require Import gmap.
Local Open Scope Z_scope.

Module PageTable.
Import PageAlloc.

Definition pn2addr (pn : Z) : Z := u64 (Z.shiftl pn 12).
Definition addr2pn (addr : Z) : Z := Z.shiftr addr 12.
Definition pageSize : Z := 4096.
Definition vpnMask : Z := 511.
Definition addr2offset (addr : Z) : Z := Z.land addr (pageSize - 1).
Definition bytes2pages (bytes : Z) : Z :=
  bytes / pageSize + (if 0 <? bytes mod pageSize then 1 else 0).
Definition ceil (addr : Z) : Z := u64 (bytes2pages addr * pageSize).

(** ** Entries *)
Definition isValid (e : Z) : bool := Z.testbit e 0.
Definition isLeaf (e : Z) : bool := negb (Z.land e 14 =? 0).
Definition entry_perm (e : Z) : Z := Z.land e 255.
Definition entry_ppn (e : Z) : Z := Z.land (Z.shiftr e 10) (2 ^ 44 - 1).
Definition setValid (e : Z) : Z := Z.lor e 1.
Definition setInvalid (e : Z) : Z := Z.ldiff e 255.
Definition setPTNode (e : Z) : Z := Z.ldiff e 14.
Definition setPerm (e perm : Z) : Z := Z.lor (Z.ldiff e 255) (Z.land perm 255).
Definition setPPN (e ppn : Z) : Z :=
  Z.lor (Z.ldiff e (Z.shiftl (2 ^ 44 - 1) 10)) (Z.shiftl (Z.land ppn (2 ^ 44 - 1)) 10).

Section Walk.
Context {A : Type} (palloc : A -> Z -> outcome (Z * A)) (pfree : A -> Z -> Z -> outcome A).

Record PT : Type := mkPT { pmem : gmap Z (list Z); pmgr : A }.

(** [table[i]]; a page that holds no table is not readable as one. *)
Definition entry_get (s : PT) (t i : Z) : outcome Z :=
  match pmem s !! t with Some es => aget es i | None => Undef end.
Definition entry_set (s : PT) (t i e : Z) : outcome PT :=
  match pmem s !! t with
  | Some es => let* es' := aset es i e in Done (mkPT (<[t := es']> (pmem s)) (pmgr s))
  | None => Undef
  end.

Definition createPTNode (s : PT) : outcome (Z * PT) :=
  let* (ppn, m) := palloc (pmgr s) 1 in
  Done (ppn, mkPT (<[ppn := replicate 512 0]> (pmem s)) m).

(** PageTable::freePTNode: the page is returned when no entry is valid. *)
Definition freePTNode (s : PT) (t : Z) : outcome (bool * PT) :=
  match pmem s !! t with
  | Some es =>
      if existsb isValid es then Done (false, s)
      else let* m := pfree (pmgr s) t 0 in Done (true, mkPT (delete t (pmem s)) m)
  | None => Undef
  end.

(** PageTable::trans: three levels, then the shift leaves no page size. *)
Fixpoint trans_loop (fuel : nat) (s : PT) (table vpn bigPageSize : Z) : outcome Z :=
  match fuel with
  | O => Undef
  | S f =>
      let* e := entry_get s table (Z.land (vpn / bigPageSize) vpnMask) in
      passert (isValid e) ;;;
      if isLeaf e then Done (u64 (entry_ppn e + Z.land vpn (bigPageSize - 1)))
      else trans_loop f s (entry_ppn e) vpn (Z.shiftr bigPageSize 9)
  end.
Definition trans (s : PT) (root vpn : Z) : outcome Z := trans_loop 3 s root vpn (Z.shiftl 1 18).
Definition transaddr (s : PT) (root addr : Z) : outcome Z :=
  let* p := trans s root (addr2pn addr) in Done (u64 (pn2addr p + addr2offset addr)).

(** The middle loop of createMapping: whole entries from index [i]. *)
Fixpoint map_whole (n : nat) (s : PT) (table i ppn perm bigPageSize : Z) : outcome PT :=
  match n with
  | O => Done s
  | S n' =>
      let* e := entry_get s table i in
      let* s1 := entry_set s table i (setPPN (setPerm (setValid e) perm) ppn) in
      map_whole n' s1 table (i + 1) (u64 (ppn + bigPageSize)) perm bigPageSize
  end.

(** The sub-table for a partially covered entry: the existing one, or a new
    one into which a big page is pushed down by [push]. [cm] is createMapping
    one level below. *)
Definition sub_table (cm : PT -> Z -> Z -> Z -> Z -> Z -> outcome PT)
    (s : PT) (table idx pvpn ppushed ppages : Z) : outcome (Z * PT) :=
  let* e := entry_get s table idx in
  if isValid e && negb (isLeaf e) then Done (entry_ppn e, s)
  else
    let* (sub, s1) := createPTNode s in
    let* s2 :=
      (if isValid e && isLeaf e
       then
         let* s' := entry_set s1 table idx (setPTNode e) in
         cm s' sub pvpn (u64 (entry_ppn e + ppushed)) ppages (entry_perm e)
       else Done s1) in
    let* e2 := entry_get s2 table idx in
    let* s3 := entry_set s2 table idx (setPPN (setValid e2) sub) in
    Done (sub, s3).

(** PageTable::createMapping; the level is the recursion argument, a call
    below level 0 shifts by a negative amount. *)
Fixpoint createMapping (level : nat) (s : PT) (table vpn ppn pages perm : Z) : outcome PT :=
  let below := match level with
               | O => fun _ _ _ _ _ _ => Undef
               | S l => createMapping l
               end in
  let bigPageSize := Z.shiftl 1 (9 * Z.of_nat level) in
  let unaligned := Z.land vpn (bigPageSize - 1) in
  let* (s, vpn, ppn, pages) :=
    (if unaligned =? 0 then Done (s, vpn, ppn, pages)
     else
       let partial := kmin (bigPageSize - unaligned) pages in
       let* (sub, s1) := sub_table below s table (Z.land (vpn / bigPageSize) vpnMask)
                           (u64 (vpn - unaligned)) 0 unaligned in
       let* s2 := below s1 sub vpn ppn partial perm in
       Done (s2, u64 (vpn + partial), u64 (ppn + partial), pages - partial)) in
  let whole := pages / bigPageSize in
  let* s := map_whole (Z.to_nat whole) s table (Z.land (vpn / bigPageSize) vpnMask) ppn perm bigPageSize in
  let vpn := u64 (vpn + whole * bigPageSize) in
  let ppn := u64 (ppn + whole * bigPageSize) in
  let pages := pages - whole * bigPageSize in
  if pages =? 0 then Done s
  else
    let* (sub, s1) := sub_table below s table (Z.land (vpn / bigPageSize) vpnMask)
                        (u64 (vpn + pages)) pages (bigPageSize - pages) in
    below s1 sub vpn ppn pages perm.

(** A partially covered entry of removeMapping. *)
Definition remove_part (rm : PT -> Z -> Z -> Z -> outcome PT) (s : PT) (table idx vpn pages : Z)
  : outcome PT :=
  let* e := entry_get s table idx in
  if isValid e then
    passert (negb (isLeaf e)) ;;;
    let sub := entry_ppn e in
    let* s1 := rm s sub vpn pages in
    let* (freed, s2) := freePTNode s1 sub in
    if freed then let* e' := entry_get s2 table idx in entry_set s2 table idx (setInvalid e')
    else Done s2
  else Done s.

Fixpoint remove_whole (n : nat) (rm : PT -> Z -> Z -> Z -> outcome PT) (s : PT)
    (table i vpn bigPageSize : Z) : outcome PT :=
  match n with
  | O => Done s
  | S n' =>
      let* e := entry_get s table i in
      let* s1 :=
        (if isValid e then
           if isLeaf e then entry_set s table i (setInvalid e)
           else
             let* s' := rm s (entry_ppn e) vpn bigPageSize in
             let* (freed, s'') := freePTNode s' (entry_ppn e) in
             passert freed ;;;
             let* e' := entry_get s'' table i in entry_set s'' table i (setInvalid e')
         else Done s) in
      remove_whole n' rm s1 table (i + 1) (u64 (vpn + bigPageSize)) bigPageSize
  end.

Fixpoint removeMapping (level : nat) (s : PT) (table vpn pages : Z) : outcome PT :=
  let below := match level with
               | O => fun _ _ _ _ => Undef
               | S l => removeMapping l
               end in
  let bigPageSize := Z.shiftl 1 (9 * Z.of_nat level) in
  let unaligned := Z.land vpn (bigPageSize - 1) in
  let* (s, vpn, pages) :=
    (if unaligned =? 0 then Done (s, vpn, pages)
     else
       let partial := kmin (bigPageSize - unaligned) pages in
       let* s1 := remove_part below s table (Z.land (vpn / bigPageSize) vpnMask) vpn partial in
       Done (s1, u64 (vpn + partial), pages - partial)) in
  let whole := pages / bigPageSize in
  let* s := remove_whole (Z.to_nat whole) below s table (Z.land (vpn / bigPageSize) vpnMask) vpn bigPageSize in
  let vpn := u64 (vpn + whole * bigPageSize) in
  let pages := pages - whole * bigPageSize in
  if pages =? 0 then Done s
  else remove_part below s table (Z.land (vpn / bigPageSize) vpnMask) vpn pages.

(** PageTable::toSATP: mode 8 (Sv39), asid 0, the root's page number. *)
Definition toSATP (root : Z) : Z := Z.lor (Z.shiftl 8 60) (Z.land root (2 ^ 44 - 1)).

End Walk.
Arguments PT A : clear implicits.
Arguments mkPT {A} _ _.

End PageTable.
