(* ===== verification/PtMap.v ===== *)
(** * PtMap: createMapping maps exactly the pages it is asked to map

    The table nodes reachable from a root form a tree; [walk] reads the
    translation of a page off the memory. The main lemma says that
    createMapping changes the translation of the requested range only, as long
    as no big page lies across its border, and stays within the tree and pages
    taken from the allocator. *)

From S2P Require Import Prelude Klib PageAlloc PageTable.
From stdpp Require Import gmap.
Local Open Scope Z_scope.

Module PtMap.
Import PageAlloc PageTable.

#[local] Arguments isValid : simpl never.
#[local] Arguments isLeaf : simpl never.

(** ** Bits of an entry *)
Lemma testbit_ones_44 i : 0 <= i -> Z.testbit (2 ^ 44 - 1) i = (i <? 44).
Proof.
  intros Hi. replace (2 ^ 44 - 1) with (Z.ones 44) by reflexivity.
  rewrite Z.testbit_ones by lia. destruct (Z.leb_spec 0 i); [done|lia].
Qed.
Lemma testbit_255 i : 0 <= i -> Z.testbit 255 i = (i <? 8).
Proof.
  intros Hi. change 255 with (Z.ones 8). rewrite Z.testbit_ones by lia.
  destruct (Z.leb_spec 0 i); [done|lia].
Qed.
Lemma entry_ppn_range e : 0 <= entry_ppn e < 2 ^ 44.
Proof.
  unfold entry_ppn. change (2 ^ 44 - 1) with (Z.ones 44). rewrite Z.land_ones by lia.
  apply Z.mod_pos_bound. lia.
Qed.

Lemma entry_ppn_setPPN e p : 0 <= p < 2 ^ 44 -> entry_ppn (setPPN e p) = p.
Proof.
  intros Hp. unfold entry_ppn, setPPN.
  apply Z.bits_inj'. intros i Hi. rewrite Z.land_spec, Z.shiftr_spec, Z.lor_spec, Z.ldiff_spec by lia.
  rewrite !Z.shiftl_spec, Z.land_spec by lia. replace (i + 10 - 10) with i by lia.
  rewrite testbit_ones_44 by lia. destruct (Z.ltb_spec i 44) as [Hlt|Hge].
  - cbn. rewrite andb_false_r, andb_true_r. cbn. by rewrite andb_true_r.
  - rewrite andb_false_r. symmetry. apply Z.bits_above_log2; [lia|].
    destruct (decide (p = 0)) as [->|]; [cbn; lia|]. enough (Z.log2 p < 44) by lia. apply Z.log2_lt_pow2; lia.
Qed.
Lemma low_setPPN e p i : 0 <= i < 10 -> Z.testbit (setPPN e p) i = Z.testbit e i.
Proof.
  intros Hi. unfold setPPN. rewrite Z.lor_spec, Z.ldiff_spec, !Z.shiftl_spec by lia.
  rewrite !(Z.testbit_neg_r _ (i - 10)) by lia. cbn. by rewrite andb_true_r, orb_false_r.
Qed.
Lemma land_low_eq a b m :
  0 <= m < 256 -> (forall i, 0 <= i < 8 -> Z.testbit a i = Z.testbit b i) -> Z.land a m = Z.land b m.
Proof.
  intros Hm H. apply Z.bits_inj'. intros i Hi. rewrite !Z.land_spec.
  destruct (Z.lt_ge_cases i 8); [by rewrite H by lia|].
  enough (Z.testbit m i = false) as -> by (by rewrite !andb_false_r).
  destruct (decide (m = 0)) as [->|]; [apply Z.testbit_0_l|].
  apply Z.bits_above_log2; [lia|]. enough (Z.log2 m < 8) by lia. apply Z.log2_lt_pow2; lia.
Qed.
Lemma setPPN_low e p :
  isValid (setPPN e p) = isValid e /\ isLeaf (setPPN e p) = isLeaf e /\ entry_perm (setPPN e p) = entry_perm e.
Proof.
  assert (H : forall i, 0 <= i < 8 -> Z.testbit (setPPN e p) i = Z.testbit e i).
  { intros. apply low_setPPN. lia. }
  unfold isValid, isLeaf, entry_perm. rewrite H by lia.
  by rewrite (land_low_eq _ e 14), (land_low_eq _ e 255) by (done || lia).
Qed.
Lemma bit_setPerm e q i : 0 <= i < 8 -> Z.testbit (setPerm e q) i = Z.testbit q i.
Proof.
  intros Hi. unfold setPerm. rewrite Z.lor_spec, Z.ldiff_spec, Z.land_spec, testbit_255 by lia.
  destruct (Z.ltb_spec i 8); [|lia]. cbn. by rewrite andb_false_r, andb_true_r.
Qed.
Lemma bit_setValid e i : 0 <= i -> Z.testbit (setValid e) i = (i =? 0) || Z.testbit e i.
Proof.
  intros Hi. unfold setValid. rewrite Z.lor_spec. replace (Z.testbit 1 i) with (i =? 0); [apply orb_comm|].
  destruct (Z.eqb_spec i 0) as [->|]; [done|]. symmetry. apply Z.bits_above_log2; [lia|]. cbn. lia.
Qed.

(** The entry written for a whole big page. *)
Lemma leaf_entry e q p :
  0 <= q < 256 -> isValid q = true -> isLeaf q = true -> 0 <= p < 2 ^ 44 ->
  let e' := setPPN (setPerm (setValid e) q) p in
  isValid e' = true /\ isLeaf e' = true /\ entry_ppn e' = p /\ entry_perm e' = q.
Proof.
  intros Hq Hv Hl Hp e'. subst e'. rewrite entry_ppn_setPPN by done.
  destruct (setPPN_low (setPerm (setValid e) q) p) as (-> & -> & ->).
  assert (H : forall i, 0 <= i < 8 -> Z.testbit (setPerm (setValid e) q) i = Z.testbit q i).
  { intros. by apply bit_setPerm. }
  unfold isValid, isLeaf, entry_perm in *. rewrite H by lia.
  rewrite (land_low_eq (setPerm (setValid e) q) q 14), (land_low_eq (setPerm (setValid e) q) q 255) by (done || lia).
  repeat split; auto.
  change 255 with (Z.ones 8). rewrite Z.land_ones by lia. by apply Z.mod_small.
Qed.
(** The entry that points to a new node, written over an invalid one. *)
Lemma node_entry e p :
  isValid e = false -> isLeaf e = false -> 0 <= p < 2 ^ 44 ->
  let e' := setPPN (setValid e) p in
  isValid e' = true /\ isLeaf e' = false /\ entry_ppn e' = p.
Proof.
  intros Hv Hl Hp e'. subst e'. rewrite entry_ppn_setPPN by done.
  destruct (setPPN_low (setValid e) p) as (-> & -> & _). split; [|split; [|done]].
  - unfold isValid. by rewrite bit_setValid.
  - unfold isLeaf in *. rewrite <- Hl. f_equal. f_equal. apply Z.bits_inj'. intros i Hi.
    rewrite !Z.land_spec, bit_setValid by lia. destruct (Z.eqb_spec i 0) as [->|]; [|done].
    cbn. by rewrite andb_false_r.
Qed.

(** ** Sizes and indices *)
Definition big (l : nat) : Z := 2 ^ (9 * Z.of_nat l).
Lemma big_pos l : 0 < big l.
Proof. unfold big. apply Z.pow_pos_nonneg; lia. Qed.
Lemma big_S l : big (S l) = 512 * big l.
Proof.
  unfold big. replace (9 * Z.of_nat (S l)) with (9 + 9 * Z.of_nat l) by lia.
  rewrite Z.pow_add_r by lia. done.
Qed.
Lemma shift_big l : Z.shiftl 1 (9 * Z.of_nat l) = big l.
Proof. by rewrite Z.shiftl_1_l. Qed.
Definition idx (l : nat) (v : Z) : nat := Z.to_nat ((v / big l) mod 512).
Lemma idx_land l v : 0 <= v -> Z.land (v / big l) vpnMask = Z.of_nat (idx l v).
Proof.
  intros Hv. unfold idx, vpnMask. change 511 with (Z.ones 9). rewrite Z.land_ones by lia.
  change (2 ^ 9) with 512. pose proof (Z.mod_pos_bound (v / big l) 512). lia.
Qed.
Lemma idx_lt l v : (idx l v < 512)%nat.
Proof. unfold idx. pose proof (Z.mod_pos_bound (v / big l) 512). lia. Qed.
Lemma land_big l v : Z.land v (big l - 1) = v mod big l.
Proof.
  unfold big. replace (2 ^ (9 * Z.of_nat l) - 1) with (Z.ones (9 * Z.of_nat l)) by (rewrite Z.ones_equiv; lia).
  by rewrite Z.land_ones by lia.
Qed.
(** In one span of a level-[l] table the index determines the big page. *)
Lemma idx_same l a b : a / big (S l) = b / big (S l) -> idx l a = idx l b <-> a / big l = b / big l.
Proof.
  intros H. unfold idx. split; [|by intros ->]. intros E. pose proof (big_pos l).
  rewrite !big_S, !(Z.mul_comm 512), <- !Z.div_div in H by lia.
  pose proof (Z.mod_pos_bound (a / big l) 512). pose proof (Z.mod_pos_bound (b / big l) 512).
  pose proof (Z.div_mod (a / big l) 512). pose proof (Z.div_mod (b / big l) 512). lia.
Qed.

(** ** The tree of nodes *)
Definition is_node (e : Z) : bool := isValid e && negb (isLeaf e).

(** Translation of page [v]: the level of its leaf, its frame, its bits. *)
Fixpoint walk (l : nat) (m : gmap Z (list Z)) (t v : Z) : option (nat * Z * Z) :=
  match m !! t with
  | None => None
  | Some es =>
      match es !! idx l v with
      | None => None
      | Some e =>
          if isValid e then
            if isLeaf e then Some (l, entry_ppn e + v mod big l, entry_perm e)
            else match l with O => None | S l' => walk l' m (entry_ppn e) v end
          else None
      end
  end.
Definition ewalk (l : nat) (m : gmap Z (list Z)) (e v : Z) : option (nat * Z * Z) :=
  if isValid e then
    if isLeaf e then Some (l, entry_ppn e + v mod big l, entry_perm e)
    else match l with O => None | S l' => walk l' m (entry_ppn e) v end
  else None.

(** [inn l m t u]: page [u] holds a node of the table [t] of level [l]. *)
Fixpoint inn (l : nat) (m : gmap Z (list Z)) (t u : Z) : Prop :=
  u = t \/
  match l with
  | O => False
  | S l' => exists es i e, m !! t = Some es /\ es !! i = Some e /\ is_node e = true /\
                           inn l' m (entry_ppn e) u
  end.
Definition einn (l : nat) (m : gmap Z (list Z)) (e u : Z) : Prop :=
  is_node e = true /\ match l with O => False | S l' => inn l' m (entry_ppn e) u end.

Fixpoint tree (l : nat) (m : gmap Z (list Z)) (t : Z) : Prop :=
  exists es, m !! t = Some es /\ length es = 512%nat /\
    (forall i e, es !! i = Some e ->
       (isValid e = false -> isLeaf e = false) /\
       (is_node e = true ->
        match l with O => False | S l' => tree l' m (entry_ppn e) end) /\
       ~ einn l m e t) /\
    (forall i j e e' u, i <> j -> es !! i = Some e -> es !! j = Some e' ->
       einn l m e u -> einn l m e' u -> False).
Definition etree (l : nat) (m : gmap Z (list Z)) (e : Z) : Prop :=
  (isValid e = false -> isLeaf e = false) /\
  (is_node e = true -> match l with O => False | S l' => tree l' m (entry_ppn e) end).

Lemma walk_entry l m t v es e :
  m !! t = Some es -> es !! idx l v = Some e -> walk l m t v = ewalk l m e v.
Proof. intros H1 H2. destruct l; cbn; by rewrite H1, H2. Qed.

Lemma inn_entry l m t es u :
  m !! t = Some es -> inn l m t u <-> u = t \/ exists i e, es !! i = Some e /\ einn l m e u.
Proof.
  intros Hm. destruct l as [|l]; cbn.
  - split; [intros [?|[]]; by left|]. intros [?|(i & e & _ & _ & [])]. by left.
  - split; (intros [?|H]; [by left|right]).
    + destruct H as (es' & i & e & H1 & H2 & H3 & H4). exists i, e. rewrite Hm in H1. injection H1 as <-.
      split; [done|]. by split.
    + destruct H as (i & e & H2 & H3 & H4). by exists es, i, e.
Qed.
Lemma inn_self l m t : inn l m t t.
Proof. destruct l; by left. Qed.

(** Memories that agree on the nodes of a tree give it the same meaning. *)
Lemma inn_frame l m m' t :
  (forall u, inn l m t u -> m' !! u = m !! u) -> forall u, inn l m' t u <-> inn l m t u.
Proof.
  revert t. induction l as [|l IH]; intros t H u; [done|]. cbn.
  assert (Ht : m' !! t = m !! t) by (apply H, inn_self).
  assert (Hc : forall es i e, m !! t = Some es -> es !! i = Some e -> is_node e = true ->
    forall w, inn l m' (entry_ppn e) w <-> inn l m (entry_ppn e) w).
  { intros es i e H1 H2 H3. apply IH. intros w Hw. apply H. right. by exists es, i, e. }
  rewrite Ht. split; (intros [?|(es & i & e & H1 & H2 & H3 & H4)]; [by left|right]; exists es, i, e);
    repeat (split; [done|]); by apply (Hc es i e H1 H2 H3).
Qed.

Lemma walk_frame l m m' t v :
  (forall u, inn l m t u -> m' !! u = m !! u) -> walk l m' t v = walk l m t v.
Proof.
  revert t. induction l as [|l IH]; intros t H; cbn; rewrite (H t (inn_self _ _ _)).
  - done.
  - destruct (m !! t) as [es|] eqn:Em; [|done]. destruct (es !! idx (S l) v) as [e|] eqn:Ee; [|done].
    destruct (isValid e) eqn:Ev; [|done]. destruct (isLeaf e) eqn:El; [done|]. apply IH.
    intros u Hu. apply H. right. exists es, (idx (S l) v), e. unfold is_node. by rewrite Ev, El.
Qed.

Lemma tree_frame l m m' t :
  (forall u, inn l m t u -> m' !! u = m !! u) -> tree l m t -> tree l m' t.
Proof.
  revert t. induction l as [|l IH]; intros t H (es & Hm & Hl & He & Hd);
    exists es; rewrite (H t (inn_self _ _ _)); split; auto; split; auto.
  assert (Hs : forall i e, es !! i = Some e -> is_node e = true ->
    forall u, inn l m (entry_ppn e) u -> m' !! u = m !! u).
  { intros i e Hi Hn u Hu. apply H. right. by exists es, i, e. }
  assert (Hi : forall i e u, es !! i = Some e -> einn (S l) m' e u <-> einn (S l) m e u).
  { intros i e u Hi. unfold einn. split; (intros [Hn Hu]; split; [done|]);
      by apply (inn_frame l m m' (entry_ppn e) (Hs i e Hi Hn)). }
  split.
  - intros i e Hie. destruct (He i e Hie) as (H1 & H2 & H3). split; [done|]. split.
    + intros Hn. apply IH; [by apply (Hs i e)|by apply H2].
    + by rewrite (Hi i e t Hie).
  - intros i j e e' u Hij Hie Hje. rewrite (Hi i e u Hie), (Hi j e' u Hje). by apply (Hd i j e e' u).
Qed.

(** Replacing one entry of a table, while the other sub-tables keep their
    contents and the new entry's sub-table is apart from them. *)
Lemma retable l m m' t es i0 e' :
  tree l m t -> m !! t = Some es -> (i0 < 512)%nat -> m' !! t = Some (<[i0 := e']> es) ->
  (forall i e u, i <> i0 -> es !! i = Some e -> einn l m e u -> m' !! u = m !! u) ->
  etree l m' e' -> ~ einn l m' e' t ->
  (forall i e u, i <> i0 -> es !! i = Some e -> einn l m e u -> ~ einn l m' e' u) ->
  tree l m' t /\
  (forall u, inn l m' t u -> inn l m t u \/ einn l m' e' u) /\
  (forall v, idx l v <> i0 -> walk l m' t v = walk l m t v) /\
  (forall v, idx l v = i0 -> walk l m' t v = ewalk l m' e' v).
Proof.
  intros Ht Hm Hi0 Hm' Hfr [Hz Hn'] Hnt Hdis.
  assert (Ht2 : exists es0, m !! t = Some es0 /\ length es0 = 512%nat /\
    (forall i e, es0 !! i = Some e -> etree l m e /\ ~ einn l m e t) /\
    (forall i j e e' u, i <> j -> es0 !! i = Some e -> es0 !! j = Some e' ->
       einn l m e u -> einn l m e' u -> False)).
  { destruct l; destruct Ht as (es0 & H1 & H2 & H3 & H4); exists es0; (split; [done|]); (split; [done|]);
      (split; [|done]); intros i e Hie; destruct (H3 i e Hie) as (?&?&?); done. }
  destruct Ht2 as (es0 & H1 & Hl & He & Hd). rewrite Hm in H1. injection H1 as <-.
  assert (Hk : forall i e, i <> i0 -> es !! i = Some e ->
    etree l m' e /\ (forall u, einn l m' e u <-> einn l m e u) /\ forall v, ewalk l m' e v = ewalk l m e v).
  { intros i e Hne Hie. destruct (He i e Hie) as [[Hz1 Ht1] _]. unfold etree, einn, ewalk in *.
    destruct (is_node e) eqn:En.
    - destruct l as [|l]; [by destruct (Ht1 eq_refl)|].
      assert (Hs : forall u, inn l m (entry_ppn e) u -> m' !! u = m !! u).
      { intros u Hu. apply (Hfr i e u Hne Hie). unfold einn. by rewrite En. }
      split; [split; [done|]; intros _; by apply (tree_frame l m m'), Ht1|].
      split; [intros u; by rewrite (inn_frame l m m' _ Hs)|].
      intros v. by rewrite (walk_frame l m m' _ v Hs).
    - split; [by split|]. split; [by intros u; split; intros []|]. intros v.
      unfold is_node in En. destruct (isValid e), (isLeaf e); done. }
  assert (Hlk : forall i e, <[i0 := e']> es !! i = Some e -> (i = i0 /\ e = e') \/ (i <> i0 /\ es !! i = Some e)).
  { intros i e. destruct (decide (i = i0)) as [->|Hne].
    - rewrite list_lookup_insert_eq by lia. intros [= <-]. by left.
    - rewrite list_lookup_insert_ne by done. by right. }
  assert (HT : exists es', m' !! t = Some es' /\ length es' = 512%nat /\
    (forall i e, es' !! i = Some e -> etree l m' e /\ ~ einn l m' e t) /\
    (forall i j e e' u, i <> j -> es' !! i = Some e -> es' !! j = Some e' ->
       einn l m' e u -> einn l m' e' u -> False)).
  { exists (<[i0 := e']> es). split; [done|]. split; [by rewrite length_insert|]. split.
    - intros i e [[-> ->]|[Hne Hie]]%Hlk; [by split|]. destruct (Hk i e Hne Hie) as (K1 & K2 & _).
      split; [done|]. rewrite K2. by apply (He i e).
    - intros i j e1 e2 u Hij [[-> ->]|[Hne Hie]]%Hlk [[-> ->]|[Hne' Hje]]%Hlk; [done| | |].
      + intros A1 A2. apply (Hk j e2 Hne' Hje) in A2. by apply (Hdis j e2 u).
      + intros A1 A2. apply (Hk i e1 Hne Hie) in A1. by apply (Hdis i e1 u).
      + intros A1 A2. apply (Hk i e1 Hne Hie) in A1. apply (Hk j e2 Hne' Hje) in A2. by apply (Hd i j e1 e2 u). }
  split; [|split; [|split]].
  - destruct HT as (es' & A1 & A2 & A3 & A4). destruct l; exists es'; (split; [done|]); (split; [done|]);
      (split; [|done]); intros i e Hie; destruct (A3 i e Hie) as [[B1 B2] B3]; done.
  - intros u. rewrite (inn_entry l m' t _ u Hm'), (inn_entry l m t es u Hm).
    intros [->|(i & e & [[-> ->]|[Hne Hie]]%Hlk & Hu)]; [left; by left|by right|].
    left. right. exists i, e. split; [done|]. by apply (Hk i e Hne Hie).
  - intros v Hv. destruct (es !! idx l v) as [e|] eqn:Ee.
    + rewrite (walk_entry l m t v es e Hm Ee).
      rewrite (walk_entry l m' t v _ e Hm'); [by apply (Hk (idx l v) e Hv Ee)|]. by rewrite list_lookup_insert_ne.
    + exfalso. apply lookup_ge_None_1 in Ee. pose proof (idx_lt l v). lia.
  - intros v Hv. apply (walk_entry l m' t v _ e' Hm'). rewrite Hv. by rewrite list_lookup_insert_eq by lia.
Qed.

(** ** Ownership *)
Section Own.
Context {A : Type} (palloc : A -> Z -> outcome (Z * A)) (avail : A -> Z -> Prop) (okA : A -> Prop).
Context `{PA : !PageAllocator palloc avail okA}.

(** The table [t] is a tree and none of its nodes is free in the allocator. *)
Definition Own (l : nat) (t : Z) (s : PT A) : Prop :=
  tree l (pmem s) t /\ okA (pmgr s) /\ forall u, inn l (pmem s) t u -> ~ avail (pmgr s) u.
(** [s'] extends [s]: nodes are old nodes or pages that were free, and other
    pages keep their contents. *)
Definition Ext (l : nat) (t : Z) (s s' : PT A) : Prop :=
  Own l t s' /\ (forall u, avail (pmgr s') u -> avail (pmgr s) u) /\
  (forall u, inn l (pmem s') t u -> inn l (pmem s) t u \/ avail (pmgr s) u) /\
  (forall u, ~ inn l (pmem s) t u -> ~ avail (pmgr s) u -> pmem s' !! u = pmem s !! u).

Lemma Ext_refl l t s : Own l t s -> Ext l t s s.
Proof. intros H. split; [done|]. split; [done|]. split; [by left|done]. Qed.
Lemma Ext_trans l t s1 s2 s3 : Ext l t s1 s2 -> Ext l t s2 s3 -> Ext l t s1 s3.
Proof.
  intros (O2 & A2 & N2 & F2) (O3 & A3 & N3 & F3). split; [done|]. split; [auto|]. split.
  - intros u Hu. destruct (N3 u Hu) as [H|H]; auto.
  - intros u Hn Ha. rewrite F3, F2; auto. intros H. by destruct (N2 u H).
Qed.

Lemma tree_unfold l m t :
  tree l m t -> exists es, m !! t = Some es /\ length es = 512%nat /\
    (forall i e, es !! i = Some e -> etree l m e /\ ~ einn l m e t) /\
    (forall i j e e' u, i <> j -> es !! i = Some e -> es !! j = Some e' ->
       einn l m e u -> einn l m e' u -> False).
Proof.
  intros Ht. destruct l; destruct Ht as (es & H1 & H2 & H3 & H4); exists es; (split; [done|]);
    (split; [done|]); (split; [|done]); intros i e Hie; destruct (H3 i e Hie) as (?&?&?); done.
Qed.

(** Writing a leaf entry. *)
Lemma set_leaf l t s i e' :
  Own l t s -> (i < 512)%nat -> isValid e' = true -> isLeaf e' = true ->
  exists s', entry_set s t (Z.of_nat i) e' = Done s' /\ Ext l t s s' /\
    (forall v, idx l v <> i -> walk l (pmem s') t v = walk l (pmem s) t v) /\
    (forall v, idx l v = i -> walk l (pmem s') t v = Some (l, entry_ppn e' + v mod big l, entry_perm e')).
Proof.
  intros (Ht & Ho & Ha) Hi Hv Hl. destruct (tree_unfold _ _ _ Ht) as (es & Hm & Hlen & He & Hd).
  assert (Hnn : forall m u, ~ einn l m e' u).
  { intros m u [Hn _]. unfold is_node in Hn. by rewrite Hv, Hl in Hn. }
  unfold entry_set. rewrite Hm, aset_upd by lia. cbn [obind]. unfold upd. rewrite Nat2Z.id.
  set (s' := mkPT (<[t := <[i := e']> es]> (pmem s)) (pmgr s)).
  assert (Hne : forall j e u, es !! j = Some e -> einn l (pmem s) e u -> u <> t).
  { intros j e u Hj Hu ->. by apply (He j e Hj). }
  destruct (retable l (pmem s) (pmem s') t es i e') as (T' & N' & W1 & W2); auto.
  { cbn. by rewrite lookup_insert_eq. }
  { intros j e u _ Hj Hu. cbn. rewrite lookup_insert_ne; [done|]. intros <-. by apply (Hne j e t Hj). }
  { split; [by rewrite Hv|]. intros Hn. unfold is_node in Hn. by rewrite Hv, Hl in Hn. }
  exists s'. split; [done|]. split; [|split; [done|]].
  - split; [split; [done|]; split; [done|]; intros u Hu; cbn; apply Ha; by destruct (N' u Hu) as [?|?%Hnn]|].
    split; [done|]. split; [intros u Hu; left; by destruct (N' u Hu) as [?|?%Hnn]|].
    intros u Hu _. cbn. rewrite lookup_insert_ne; [done|]. intros <-. by apply Hu, inn_self.
  - intros v Ev. rewrite (W2 v Ev). unfold ewalk. by rewrite Hv, Hl.
Qed.

(** The permission bits of a mapping: valid, and readable, writable or
    executable. *)
Definition leaf_perm (q : Z) : Prop := 0 <= q < 256 /\ isValid q = true /\ isLeaf q = true.

Lemma map_whole_ok n l t s i p q :
  Own l t s -> leaf_perm q -> (i + n <= 512)%nat -> 0 <= p -> p + Z.of_nat n * big l <= 2 ^ 44 ->
  exists s', map_whole n s t (Z.of_nat i) p q (big l) = Done s' /\ Ext l t s s' /\
    (forall v, ~ (i <= idx l v < i + n)%nat -> walk l (pmem s') t v = walk l (pmem s) t v) /\
    (forall v, (i <= idx l v < i + n)%nat ->
       walk l (pmem s') t v = Some (l, p + Z.of_nat (idx l v - i) * big l + v mod big l, q)).
Proof.
  intros Hown (Hq & Hqv & Hql). pose proof (big_pos l) as HD. revert s i p Hown.
  induction n as [|n IH]; intros s i p Hown Hi Hp0 Hp; cbn [map_whole].
  { exists s. split; [done|]. split; [by apply Ext_refl|]. split; [done|]. lia. }
  destruct (tree_unfold _ _ _ (proj1 Hown)) as (es & Hm & Hlen & _ & _).
  destruct (es !! i) as [e|] eqn:Ee; [|apply lookup_ge_None_1 in Ee; lia].
  unfold entry_get. rewrite Hm. unfold aget. destruct (Z.ltb_spec (Z.of_nat i) 0); [lia|].
  rewrite Nat2Z.id, Ee. cbn [obind].
  destruct (leaf_entry e q p Hq Hqv Hql ltac:(nia)) as (L1 & L2 & L3 & L4).
  destruct (set_leaf l t s i _ Hown ltac:(lia) L1 L2) as (s1 & -> & X1 & W1 & W2). cbn [obind].
  rewrite L3, L4 in W2. rewrite u64_small by (pose proof (big_pos l); nia).
  replace (Z.of_nat i + 1) with (Z.of_nat (S i)) by lia.
  destruct (IH s1 (S i) (p + big l)) as (s2 & -> & X2 & V1 & V2); [apply X1|lia|lia|lia|].
  exists s2. split; [done|]. split; [by eapply Ext_trans|]. split; intros v Hv.
  - rewrite V1, W1 by lia. done.
  - destruct (decide (idx l v = i)) as [E|Hne].
    + rewrite V1, (W2 v E) by lia. do 3 f_equal. rewrite E. lia.
    + rewrite V2 by lia. do 3 f_equal. replace (idx l v - i)%nat with (S (idx l v - S i)) by lia. lia.
Qed.

(** ** Partially covered entries *)

(** The leaf of level [lv] that translates [v] is apart from [a, a+n) or
    inside it. *)
Definition clear (v : Z) (lv : nat) (a n : Z) : Prop :=
  let b := v - v mod big lv in
  b + big lv <= a \/ a + n <= b \/ (a <= b /\ b + big lv <= a + n).
(** No big page lies across the border of [vpn, vpn+pages). *)
Definition no_straddle (l : nat) (m : gmap Z (list Z)) (t vpn pages : Z) : Prop :=
  forall v lv p q, v / big (S l) = vpn / big (S l) -> walk l m t v = Some (lv, p, q) -> clear v lv vpn pages.
(** Effect of a mapping on the translation within the span of the table. *)
Definition mapped (l : nat) (t : Z) (s s' : PT A) (vpn ppn pages q : Z) : Prop :=
  forall v, v / big (S l) = vpn / big (S l) ->
    (vpn <= v < vpn + pages -> exists lv, walk l (pmem s') t v = Some (lv, ppn + (v - vpn), q)) /\
    (~ vpn <= v < vpn + pages -> walk l (pmem s') t v = walk l (pmem s) t v).
(** Fewer than [n] pages are free. *)
Definition few (n : nat) (s : PT A) : Prop :=
  exists L, (length L < n)%nat /\ forall u, avail (pmgr s) u -> u ∈ L.
(** At most [n] pages that are free in [s] are taken in [s']. *)
Definition spends (n : nat) (s s' : PT A) : Prop :=
  exists L, (length L <= n)%nat /\ forall u, avail (pmgr s) u -> avail (pmgr s') u \/ u ∈ L.
Lemma spends_none n s s' : (forall u, avail (pmgr s) u -> avail (pmgr s') u) -> spends n s s'.
Proof. intros H. exists []. split; [cbn; lia|]. auto. Qed.
Lemma spends_refl n s s' : pmgr s' = pmgr s -> spends n s s'.
Proof. intros E. apply spends_none. by rewrite E. Qed.
Lemma spends_le n m s s' : (n <= m)%nat -> spends n s s' -> spends m s s'.
Proof. intros Hn (L & Hl & H). exists L. split; [lia|done]. Qed.
Lemma spends_trans n m s s1 s2 : spends n s s1 -> spends m s1 s2 -> spends (n + m) s s2.
Proof.
  intros (L & Hl & H) (M & Hm & G). exists (L ++ M). rewrite length_app. split; [lia|]. intros u Hu.
  destruct (H u Hu) as [[?|?]%G|?]; [by left|right; apply elem_of_app; auto..].
Qed.
Lemma spends_few n m s s1 : spends n s s1 -> few m s1 -> few (n + m) s.
Proof.
  intros (L & Hl & H) (M & Hm & G). exists (L ++ M). rewrite length_app. split; [lia|]. intros u Hu.
  destruct (H u Hu) as [?%G|?]; apply elem_of_app; auto.
Qed.
Lemma few_le n m s : (n <= m)%nat -> few n s -> few m s.
Proof. intros Hn (L & Hl & H). exists L. split; [lia|done]. Qed.
(** The most pages a call of createMapping takes for new nodes: at each end of the range
    it may enter a table of the level below that has to be created first. *)
Fixpoint half_cost (l : nat) : nat := match l with O => O | S l' => S (half_cost l' + half_cost l') end.
Definition cost (l : nat) : nat := (half_cost l + half_cost l)%nat.
Definition CM (l : nat) : Prop :=
  forall s t vpn ppn pages q,
    Own l t s -> leaf_perm q -> 0 <= vpn -> vpn + pages < 2 ^ 63 -> 0 < pages ->
    vpn mod big (S l) + pages <= big (S l) -> 0 <= ppn -> ppn + pages <= 2 ^ 44 ->
    no_straddle l (pmem s) t vpn pages ->
    (createMapping palloc l s t vpn ppn pages q = Panic /\ few (cost l) s) \/
    exists s', createMapping palloc l s t vpn ppn pages q = Done s' /\ Ext l t s s' /\
      mapped l t s s' vpn ppn pages q /\ spends (cost l) s s'.

Lemma walk_level l m t v lv p q : walk l m t v = Some (lv, p, q) -> (lv <= l)%nat.
Proof.
  revert t. induction l as [|l IH]; intros t; cbn.
  - destruct (m !! t) as [es|]; [|done]. destruct (es !! _) as [e|]; [|done].
    destruct (isValid e); [|done]. destruct (isLeaf e); [|done]. by intros [= <- _ _].
  - destruct (m !! t) as [es|]; [|done]. destruct (es !! _) as [e|]; [|done].
    destruct (isValid e); [|done]. destruct (isLeaf e); [by intros [= <- _ _]|]. intros H. apply IH in H. lia.
Qed.

Lemma zeros_tree l (m : gmap Z (list Z)) p :
  m !! p = Some (replicate 512 0) ->
  tree l m p /\ (forall u, inn l m p u -> u = p) /\ forall v, walk l m p v = None.
Proof.
  intros Hp. assert (He : forall i e, replicate 512 0 !! i = Some e -> e = 0).
  { intros i e Hie. by apply lookup_replicate in Hie as [-> _]. }
  assert (Hn : forall i e u, replicate 512 0 !! i = Some e -> ~ einn l m e u).
  { intros i e u Hie%He [Hn _]. by subst. }
  split; [|split].
  - destruct l; exists (replicate 512 0); (split; [done|]); (split; [done|]); (split;
      [intros i e Hie; split; [by rewrite (He i e Hie)|split; [|by apply (Hn i e)]]; rewrite (He i e Hie); done
      |intros i j e e' u _ Hie _ Hu; by apply (Hn i e) in Hu]).
  - intros u. rewrite (inn_entry l m p _ u Hp). intros [?|(i & e & Hie & Hu)]; [done|]. by apply (Hn i e) in Hu.
  - intros v. destruct (replicate 512 0 !! idx l v) as [e|] eqn:E.
    + rewrite (walk_entry l m p v _ e Hp E). by rewrite (He _ _ E).
    + destruct l; cbn; by rewrite Hp, E.
Qed.

(** Attaching what a call one level below did to the entry at index [i0]. *)
Lemma attach l t s s0 s' c i0 e' es :
  Own (S l) t s -> pmem s !! t = Some es -> (i0 < 512)%nat ->
  is_node e' = true -> isLeaf e' = false -> isValid e' = true -> entry_ppn e' = c ->
  (* [s0] is [s] with entry [i0] set to [e'] and perhaps a new node [c] *)
  pmem s0 !! t = Some (<[i0 := e']> es) ->
  (forall u, u <> t -> ~ avail (pmgr s) u -> pmem s0 !! u = pmem s !! u) ->
  (forall u, avail (pmgr s0) u -> avail (pmgr s) u) ->
  (forall u, inn l (pmem s0) c u -> avail (pmgr s) u \/
     exists e, es !! i0 = Some e /\ einn (S l) (pmem s) e u) ->
  Ext l c s0 s' ->
  Ext (S l) t s s' /\
  (forall v, idx (S l) v <> i0 -> walk (S l) (pmem s') t v = walk (S l) (pmem s) t v) /\
  (forall v, idx (S l) v = i0 -> walk (S l) (pmem s') t v = walk l (pmem s') c v).
Proof.
  intros (Ht & Ho & Ha) Hm Hi0 Hn Hlf Hv Hc Hm0 Hf0 Ha0 Hc0 ((T' & O' & A') & Av & N' & F').
  destruct (tree_unfold _ _ _ Ht) as (es1 & H1 & Hlen & He & Hd). rewrite Hm in H1. injection H1 as <-.
  assert (Hold : forall i e u, es !! i = Some e -> einn (S l) (pmem s) e u -> ~ avail (pmgr s) u).
  { intros i e u Hie Hu. apply Ha. apply (inn_entry _ _ _ es); [done|]. right. by exists i, e. }
  assert (Hta : ~ avail (pmgr s) t) by apply Ha, inn_self.
  assert (Htc : ~ inn l (pmem s0) c t).
  { intros H. destruct (Hc0 t H) as [?|(e & Hie & Hu)]; [done|]. by apply (He i0 e Hie). }
  assert (Hoth : forall i e u, i <> i0 -> es !! i = Some e -> einn (S l) (pmem s) e u ->
    u <> t /\ ~ inn l (pmem s0) c u).
  { intros i e u Hne Hie Hu. split; [intros ->; by apply (He i e Hie)|]. intros H.
    destruct (Hc0 u H) as [Hav|(e0 & Hie0 & Hu0)]; [by apply (Hold i e u)|]. by apply (Hd i i0 e e0 u). }
  destruct (retable (S l) (pmem s) (pmem s') t es i0 e') as (R1 & R2 & R3 & R4); auto.
  { rewrite F'; auto. }
  { intros i e u Hne Hie Hu. destruct (Hoth i e u Hne Hie Hu) as [Hut Huc].
    pose proof (Hold i e u Hie Hu). rewrite F', Hf0; auto. }
  { split; [by rewrite Hv|]. intros _. by rewrite Hc. }
  { intros [_ H]. rewrite Hc in H. destruct (N' t H); auto. }
  { intros i e u Hne Hie Hu [_ H]. rewrite Hc in H. destruct (Hoth i e u Hne Hie Hu) as [Hut Huc].
    destruct (N' u H) as [?|?]; [done|]. by apply (Hold i e u Hie Hu), Ha0. }
  split; [|split; [done|]].
  - split; [|split; [auto|split]].
    + split; [done|]. split; [done|]. intros u Hu Hav. destruct (R2 u Hu) as [H|[_ H]].
      * apply (Ha u H). auto.
      * rewrite Hc in H. by apply (A' u H).
    + intros u Hu. destruct (R2 u Hu) as [H|[_ H]]; [by left|]. rewrite Hc in H.
      destruct (N' u H) as [H1|H1]; [|right; auto]. destruct (Hc0 u H1) as [?|(e & Hie & Hu0)]; [by right|].
      left. apply (inn_entry _ _ _ es); [done|]. right. by exists i0, e.
    + intros u Hu Hav. assert (u <> t) by (intros ->; by apply Hu, inn_self).
      rewrite F', Hf0; auto. intros H1. destruct (Hc0 u H1) as [?|(e & Hie & Hu0)]; [done|].
      apply Hu. apply (inn_entry _ _ _ es); [done|]. right. by exists i0, e.
  - intros v Ev. rewrite (R4 v Ev). unfold ewalk. by rewrite Hv, Hlf, Hc.
Qed.

Definition part_run (l : nat) (s : PT A) (t i a ppn n q pv pp pg : Z) : outcome (PT A) :=
  let* (sub, s1) := sub_table palloc (createMapping palloc l) s t i pv pp pg in
  createMapping palloc l s1 sub a ppn n q.

(** What a partially covered entry contributes. *)
Definition part_done (l : nat) (t : Z) (s s' : PT A) (a ppn n q : Z) : Prop :=
  Ext (S l) t s s' /\
  (forall v, idx (S l) v <> idx (S l) a -> walk (S l) (pmem s') t v = walk (S l) (pmem s) t v) /\
  (forall v, v / big (S l) = a / big (S l) ->
     (a <= v < a + n -> exists lv, walk (S l) (pmem s') t v = Some (lv, ppn + (v - a), q)) /\
     (~ a <= v < a + n -> walk (S l) (pmem s') t v = walk (S l) (pmem s) t v)).

(** The two ways to obtain the sub-table, seen through [attach]. *)
Lemma part_finish l t s s0 s' c e' es a ppn n q :
  Own (S l) t s -> pmem s !! t = Some es ->
  is_node e' = true -> isLeaf e' = false -> isValid e' = true -> entry_ppn e' = c ->
  pmem s0 !! t = Some (<[idx (S l) a := e']> es) ->
  (forall u, u <> t -> ~ avail (pmgr s) u -> pmem s0 !! u = pmem s !! u) ->
  (forall u, avail (pmgr s0) u -> avail (pmgr s) u) ->
  (forall u, inn l (pmem s0) c u -> avail (pmgr s) u \/
     exists e, es !! idx (S l) a = Some e /\ einn (S l) (pmem s) e u) ->
  (forall v, v / big (S l) = a / big (S l) -> walk l (pmem s0) c v = walk (S l) (pmem s) t v) ->
  Ext l c s0 s' -> mapped l c s0 s' a ppn n q -> part_done l t s s' a ppn n q.
Proof.
  intros Hown Hm Hn Hl Hv Hc Hm0 Hf0 Ha0 Hc0 Hw0 X M.
  destruct (attach l t s s0 s' c (idx (S l) a) e' es Hown Hm (idx_lt _ _) Hn Hl Hv Hc Hm0 Hf0 Ha0 Hc0 X)
    as (X' & W1 & W2).
  split; [done|]. split; [done|]. intros v Ev.
  assert (Ei : idx (S l) v = idx (S l) a) by (unfold idx; by rewrite Ev).
  rewrite (W2 v Ei), <- (Hw0 v Ev). exact (M v Ev).
Qed.

Lemma part_ok l s t a ppn n q pv pp pg es e :
  CM l -> Own (S l) t s -> leaf_perm q -> 0 <= a -> a + n < 2 ^ 63 -> 0 < n ->
  a mod big (S l) + n <= big (S l) -> 0 <= ppn -> ppn + n <= 2 ^ 44 ->
  pmem s !! t = Some es -> es !! idx (S l) a = Some e -> isValid e && isLeaf e = false ->
  (forall v lv p qq, v / big (S l) = a / big (S l) -> walk (S l) (pmem s) t v = Some (lv, p, qq) -> clear v lv a n) ->
  let r := part_run l s t (Z.of_nat (idx (S l) a)) a ppn n q pv pp pg in
  (r = Panic /\ few (half_cost (S l)) s) \/
  exists s', r = Done s' /\ part_done l t s s' a ppn n q /\ spends (half_cost (S l)) s s'.
Proof.
  intros IH Hown Hq Ha0 Ha1 Hn Hmod Hp0 Hp1 Hm He Hnl Hns r. subst r. unfold part_run, sub_table.
  pose proof Hown as (Ht & Ho & Hav). destruct (tree_unfold _ _ _ Ht) as (es1 & H1 & Hlen & Hes & Hd).
  rewrite Hm in H1. injection H1 as <-. destruct (Hes _ _ He) as [[Hz Hsub] Hnt].
  assert (Hold : forall u, einn (S l) (pmem s) e u -> ~ avail (pmgr s) u).
  { intros u Hu. apply Hav, (inn_entry _ _ _ es); [done|]. right. eauto. }
  assert (Eg : entry_get s t (Z.of_nat (idx (S l) a)) = Done e).
  { unfold entry_get, aget. rewrite Hm. destruct (Z.ltb_spec (Z.of_nat (idx (S l) a)) 0); [lia|].
    by rewrite Nat2Z.id, He. }
  rewrite Eg. cbn [obind].
  assert (Ew : forall v, v / big (S l) = a / big (S l) -> walk (S l) (pmem s) t v = ewalk (S l) (pmem s) e v).
  { intros v Ev. apply (walk_entry _ _ _ _ es); [done|]. unfold idx. rewrite Ev. exact He. }
  destruct (isValid e && negb (isLeaf e)) eqn:En; cbn [obind].
  - assert (Hnode : is_node e = true) by done.
    apply andb_true_iff in En as [Ev El]. apply negb_true_iff in El.
    assert (Hw : forall v, v / big (S l) = a / big (S l) ->
      walk l (pmem s) (entry_ppn e) v = walk (S l) (pmem s) t v).
    { intros v Hv. rewrite (Ew v Hv). unfold ewalk. by rewrite Ev, El. }
    assert (Own l (entry_ppn e) s) as Hown'.
    { split; [by apply Hsub|]. split; [done|]. intros u Hu. apply Hold. by split. }
    destruct (IH s (entry_ppn e) a ppn n q Hown' Hq Ha0 Ha1 Hn Hmod Hp0 Hp1) as [[-> Hoom]|(s' & -> & X & M & Sp)].
    { intros v lv p qq Hv. rewrite (Hw v Hv). by apply Hns. }
    + left. split; [done|]. revert Hoom. apply few_le. unfold cost; cbn; lia.
    + right. exists s'. split; [done|]. split; [|revert Sp; apply spends_le; unfold cost; cbn; lia].
      apply (part_finish l t s s s' (entry_ppn e) e es); auto.
      * by rewrite list_insert_id.
      * intros u Hu. right. exists e. split; [done|]. by split.
  - assert (Ev : isValid e = false) by (destruct (isValid e), (isLeaf e); done).
    rewrite Ev. cbn [andb]. specialize (Hz Ev).
    unfold createPTNode. destruct (pa_outcome (pmgr s) 1 Ho ltac:(lia)) as [Ep|(p & m1 & Ep)]; rewrite Ep.
    { left. split; [done|]. exists []. split; [cbn; lia|]. intros u Hu. by destruct (pa_single (pmgr s) Ho Ep u). }
    cbn [obind].
    destruct (pa_done (pmgr s) 1 p m1 Ho ltac:(lia) Ep) as (Ho1 & Hp & Hfr & Htk).
    change (2 ^ log2up 1) with 1 in *.
    assert (Hpav : avail (pmgr s) p) by (apply Hfr; lia). assert (Hpn : ~ avail m1 p) by (apply Htk; lia).
    assert (Hpt : p <> t) by (intros ->; by apply (Hav t (inn_self _ _ _))).
    unfold entry_get, entry_set. cbn [pmem]. rewrite lookup_insert_ne, Hm by done.
    unfold aget. destruct (Z.ltb_spec (Z.of_nat (idx (S l) a)) 0); [lia|]. rewrite Nat2Z.id, He. cbn [obind].
    pose proof (idx_lt (S l) a). rewrite aset_upd by lia. cbn [obind]. unfold upd. rewrite Nat2Z.id.
    cbn [pmem pmgr].
    destruct (node_entry e p Ev Hz) as (N1 & N2 & N3).
    { destruct (pa_range (pmgr s) p Ho Hpav). lia. }
    set (e' := setPPN (setValid e) p) in *.
    set (s0 := mkPT (<[t := <[idx (S l) a := e']> es]> (<[p := replicate 512 0]> (pmem s))) m1).
    assert (Hp0' : pmem s0 !! p = Some (replicate 512 0)) by (cbn; rewrite lookup_insert_ne by done; by rewrite lookup_insert_eq).
    destruct (zeros_tree l (pmem s0) p Hp0') as (Tz & Iz & Wz).
    assert (Own l p s0) as Hown'.
    { split; [done|]. split; [done|]. intros u Hu%Iz. by rewrite Hu. }
    assert (Hone : spends 1 s s0).
    { exists [p]. split; [done|]. intros u [?|?]%Hfr; [by left|]. right. assert (u = p) by lia. set_solver. }
    destruct (IH s0 p a ppn n q Hown' Hq Ha0 Ha1 Hn Hmod Hp0 Hp1) as [[-> Hoom]|(s' & -> & X & M & Sp)].
    { intros v lv pp' qq Hv. by rewrite Wz. }
    + left. split; [done|]. exact (spends_few 1 (cost l) s s0 Hone Hoom).
    + right. exists s'. split; [done|]. split; [|exact (spends_trans 1 (cost l) s s0 s' Hone Sp)].
      apply (part_finish l t s s0 s' p e' es); auto.
      * unfold is_node. by rewrite N1, N2.
      * cbn. by rewrite lookup_insert_eq.
      * intros u Hut Hua. cbn. rewrite !lookup_insert_ne by congruence. done.
      * intros u Hu. cbn in Hu. apply Hfr. by left.
      * intros u Hu%Iz. left. by rewrite Hu.
      * intros v Hv. rewrite Wz, (Ew v Hv). unfold ewalk. by rewrite Ev.
Qed.

(** ** The three phases of createMapping *)
Definition below (l : nat) : PT A -> Z -> Z -> Z -> Z -> Z -> outcome (PT A) :=
  match l with O => fun _ _ _ _ _ _ => Undef | S l' => createMapping palloc l' end.
Definition phase1 (l : nat) (s : PT A) (t vpn ppn pages q : Z) : outcome (PT A * Z * Z * Z) :=
  let unaligned := Z.land vpn (big l - 1) in
  if unaligned =? 0 then Done (s, vpn, ppn, pages)
  else
    let partial := kmin (big l - unaligned) pages in
    let* (sub, s1) := sub_table palloc (below l) s t (Z.land (vpn / big l) vpnMask)
                        (u64 (vpn - unaligned)) 0 unaligned in
    let* s2 := below l s1 sub vpn ppn partial q in
    Done (s2, u64 (vpn + partial), u64 (ppn + partial), pages - partial).
Definition phase23 (l : nat) (s : PT A) (t vpn ppn pages q : Z) : outcome (PT A) :=
  let whole := pages / big l in
  let* s := map_whole (Z.to_nat whole) s t (Z.land (vpn / big l) vpnMask) ppn q (big l) in
  let vpn := u64 (vpn + whole * big l) in
  let ppn := u64 (ppn + whole * big l) in
  let pages := pages - whole * big l in
  if pages =? 0 then Done s
  else
    let* (sub, s1) := sub_table palloc (below l) s t (Z.land (vpn / big l) vpnMask)
                        (u64 (vpn + pages)) pages (big l - pages) in
    below l s1 sub vpn ppn pages q.
Lemma createMapping_phases l s t vpn ppn pages q :
  createMapping palloc l s t vpn ppn pages q =
  let* (s1, v, p, n) := phase1 l s t vpn ppn pages q in phase23 l s1 t v p n q.
Proof. destruct l; cbn [createMapping]; rewrite shift_big; reflexivity. Qed.

Definition CMbelow (l : nat) : Prop := match l with O => True | S l' => CM l' end.

(** A leaf of level at most [l] stays within its big page of level [l]. *)
Lemma leaf_block (l lv : nat) v k :
  (lv <= l)%nat -> v / big l = k ->
  k * big l <= v - v mod big lv /\ v - v mod big lv + big lv <= (k + 1) * big l.
Proof.
  intros Hl Hk. pose proof (big_pos lv) as HB. set (B := big lv) in *.
  assert (Hc : exists c, 0 < c /\ big l = c * B).
  { exists (2 ^ (9 * (Z.of_nat l - Z.of_nat lv))). split; [apply Z.pow_pos_nonneg; lia|].
    unfold B, big. rewrite <- Z.pow_add_r by lia. f_equal. lia. }
  destruct Hc as (c & Hc & EB). rewrite EB in *.
  rewrite (Z.mul_comm c), <- Z.div_div in Hk by lia.
  pose proof (Z.div_mod v B ltac:(lia)). pose proof (Z.div_mod (v / B) c ltac:(lia)).
  pose proof (Z.mod_pos_bound (v / B) c ltac:(lia)). rewrite Hk in *. nia.
Qed.

Lemma mapped_0 l t s vpn ppn q : mapped l t s s vpn ppn 0 q.
Proof. intros v _. split; [lia|done]. Qed.

Lemma div_same D v a : 0 < D -> a - a mod D <= v < a - a mod D + D -> v / D = a / D.
Proof.
  intros HD Hv. pose proof (Z.div_mod a D ltac:(lia)). symmetry.
  apply (Z.div_unique_pos v D (a / D) (v - D * (a / D))); lia.
Qed.
Lemma div_range D v a : 0 < D -> v / D = a / D -> a - a mod D <= v < a - a mod D + D.
Proof.
  intros HD E. pose proof (Z.div_mod a D ltac:(lia)). pose proof (Z.div_mod v D ltac:(lia)).
  pose proof (Z.mod_pos_bound v D HD). rewrite E in *. lia.
Qed.

(** Phase 1 covers the part up to the next boundary. *)
Lemma phase1_ok l s t vpn ppn pages q :
  CMbelow l -> Own l t s -> leaf_perm q -> 0 <= vpn -> vpn + pages < 2 ^ 63 -> 0 < pages ->
  vpn mod big (S l) + pages <= big (S l) -> 0 <= ppn -> ppn + pages <= 2 ^ 44 ->
  no_straddle l (pmem s) t vpn pages ->
  (phase1 l s t vpn ppn pages q = Panic /\ few (half_cost l) s) \/
  exists s1 k, phase1 l s t vpn ppn pages q = Done (s1, vpn + k, ppn + k, pages - k) /\
    0 <= k <= pages /\ (k = pages \/ (vpn + k) mod big l = 0) /\
    Ext l t s s1 /\ mapped l t s s1 vpn ppn k q /\ spends (half_cost l) s s1.
Proof.
  intros IH Hown Hq Hv0 Hv1 Hn Hspan Hp0 Hp1 Hns. unfold phase1. rewrite land_big.
  pose proof (big_pos l) as HD. pose proof (Z.mod_pos_bound vpn (big l) HD) as Hu.
  zeq E0.
  { right. exists s, 0. rewrite !Z.add_0_r, Z.sub_0_r. split; [done|]. split; [lia|]. split; [by right|].
    split; [by apply Ext_refl|]. split; [apply mapped_0|by apply spends_refl]. }
  destruct l as [|l]; [exfalso; apply E0; apply Z.mod_1_r|]. cbn [below CMbelow] in *.
  set (n := kmin (big (S l) - vpn mod big (S l)) pages).
  assert (En : n = Z.min (big (S l) - vpn mod big (S l)) pages) by apply kmin_spec.
  rewrite idx_land by lia.
  destruct (tree_unfold _ _ _ (proj1 Hown)) as (es & Hm & Hlen & Hes & Hd).
  destruct (es !! idx (S l) vpn) as [e|] eqn:Ee.
  2:{ apply lookup_ge_None_1 in Ee. pose proof (idx_lt (S l) vpn). lia. }
  assert (Hnl : isValid e && isLeaf e = false).
  { destruct (isValid e && isLeaf e) eqn:E; [|done]. apply andb_true_iff in E as [E1 E2]. exfalso.
    assert (W : walk (S l) (pmem s) t vpn = Some (S l, entry_ppn e + vpn mod big (S l), entry_perm e)).
    { rewrite (walk_entry _ _ _ _ es e Hm Ee). unfold ewalk. by rewrite E1, E2. }
    destruct (Hns _ _ _ _ eq_refl W) as [?|[?|?]]; lia. }
  destruct (part_ok l s t vpn ppn n q (u64 (vpn - vpn mod big (S l))) 0 (vpn mod big (S l)) es e)
    as [[E Hoom]|(s' & E & (X & P1 & P2) & Sp)]; auto; try lia.
  { intros v lv p qq Ev W. pose proof (walk_level _ _ _ _ _ _ _ W) as Hlv.
    assert (Es : v / big (S (S l)) = vpn / big (S (S l))).
    { rewrite !(big_S (S l)), !(Z.mul_comm 512), <- !Z.div_div by lia. by rewrite Ev. }
    destruct (leaf_block (S l) lv v _ Hlv Ev) as [_ Hb]. pose proof (Z.div_mod vpn (big (S l)) ltac:(lia)).
    destruct (Hns v lv p qq Es W) as [?|[?|?]]; unfold clear; lia. }
  - left. unfold part_run in E. destruct (sub_table _ _ _ _ _ _ _ _) as [[sub s1]| | |]; try done. cbn [obind] in *.
    by rewrite E.
  - right. exists s', n. unfold part_run in E.
    destruct (sub_table _ _ _ _ _ _ _ _) as [[sub s1]| | |]; try done. cbn [obind] in *. rewrite E. cbn [obind].
    rewrite !u64_small by lia. split; [done|]. split; [lia|]. split; [|split; [done|split; [|exact Sp]]].
    + destruct (Z.le_gt_cases pages (big (S l) - vpn mod big (S l))); [left; lia|right].
      replace (vpn + n) with ((vpn / big (S l) + 1) * big (S l)).
      2:{ pose proof (Z.div_mod vpn (big (S l)) ltac:(lia)). lia. }
      apply Z.mod_mul. lia.
    + intros v Es. destruct (decide (v / big (S l) = vpn / big (S l))) as [Ev|Ev]; [by apply P2|].
      split; [|intros _; apply P1; by rewrite (idx_same (S l) v vpn Es)].
      intros Hin. exfalso. apply Ev. apply div_same; lia.
Qed.

(** Within a span, the index of an aligned page and the room after it. *)
Lemma idx_room l a n :
  0 <= a -> a mod big l = 0 -> 0 < n -> a mod big (S l) + n <= big (S l) ->
  Z.of_nat (idx l a) * big l = a mod big (S l).
Proof.
  intros Ha Hm Hn Hs. pose proof (big_pos l). unfold idx.
  rewrite Z2Nat.id by (pose proof (Z.mod_pos_bound (a / big l) 512); lia).
  rewrite big_S, (Z.mul_comm 512), Z.rem_mul_r, Hm by lia. lia.
Qed.

(** Two pages of one span, by the big pages they lie in. *)
Lemma idx_diff l a v :
  v / big (S l) = a / big (S l) -> a mod big l = 0 ->
  Z.of_nat (idx l v) * big l = Z.of_nat (idx l a) * big l + (v - v mod big l - a).
Proof.
  intros Es Ha. pose proof (big_pos l). unfold idx.
  rewrite !Z2Nat.id by (try pose proof (Z.mod_pos_bound (v / big l) 512); try pose proof (Z.mod_pos_bound (a / big l) 512); lia).
  rewrite !big_S, !(Z.mul_comm 512), <- !Z.div_div in Es by lia.
  pose proof (Z.div_mod (v / big l) 512 ltac:(lia)). pose proof (Z.div_mod (a / big l) 512 ltac:(lia)).
  pose proof (Z.div_mod v (big l) ltac:(lia)). pose proof (Z.div_mod a (big l) ltac:(lia)). nia.
Qed.

Lemma map_whole_pmgr n (s : PT A) t i p q b s' : map_whole n s t i p q b = Done s' -> pmgr s' = pmgr s.
Proof.
  revert s i p. induction n as [|n IH]; intros s i p; cbn [map_whole]; [by intros [= ->]|].
  destruct (entry_get s t i) as [e| | |]; try done. cbn [obind]. unfold entry_set.
  destruct (pmem s !! t); try done. destruct (aset _ _ _); try done. cbn [obind]. intros H%IH. done.
Qed.
(** Phase 2 covers the whole big pages that follow. *)
Lemma phase2_ok l s t a p n q :
  Own l t s -> leaf_perm q -> 0 <= a -> 0 < n -> a mod big l = 0 ->
  a mod big (S l) + n <= big (S l) -> 0 <= p -> p + n <= 2 ^ 44 ->
  let w := n / big l in
  exists s', map_whole (Z.to_nat w) s t (Z.land (a / big l) vpnMask) p q (big l) = Done s' /\
    Ext l t s s' /\ mapped l t s s' a p (w * big l) q /\ pmgr s' = pmgr s.
Proof.
  intros Hown Hq Ha Hn Hal Hs Hp0 Hp1 w. pose proof (big_pos l) as HD.
  pose proof (idx_room l a n Ha Hal Hn Hs) as Hi. rewrite idx_land by lia.
  assert (Hw : 0 <= w /\ w * big l <= n).
  { subst w. pose proof (Z.div_mod n (big l) ltac:(lia)). pose proof (Z.mod_pos_bound n (big l) HD).
    split; [apply Z.div_pos; lia|lia]. }
  assert (Hroom : Z.of_nat (idx l a) + w <= 512).
  { rewrite big_S in Hs at 2. apply (Z.mul_le_mono_pos_r _ _ (big l)); lia. }
  destruct (map_whole_ok (Z.to_nat w) l t s (idx l a) p q Hown Hq) as (s' & Em & X & W1 & W2);
    [lia|done|rewrite Z2Nat.id by lia; lia|].
  exists s'. split; [done|]. split; [done|]. split; [|by eapply map_whole_pmgr]. intros v Es. pose proof (idx_diff l a v Es Hal) as Hd.
  pose proof (Z.mod_pos_bound v (big l) HD).
  assert (Hvm : (v - v mod big l) = big l * (v / big l)) by (pose proof (Z.div_mod v (big l) ltac:(lia)); lia).
  assert (Ham : a = big l * (a / big l)) by (pose proof (Z.div_mod a (big l) ltac:(lia)); lia).
  split; intros Hv.
  - exists l. rewrite W2 by nia. do 3 f_equal. rewrite Nat2Z.inj_sub by nia. lia.
  - apply W1. intros Hin. apply Hv. nia.
Qed.

Lemma mapped_trans l t s s1 s2 vpn ppn k n q :
  0 <= k -> 0 <= n -> (vpn + k) / big (S l) = vpn / big (S l) ->
  mapped l t s s1 vpn ppn k q -> mapped l t s1 s2 (vpn + k) (ppn + k) n q ->
  mapped l t s s2 vpn ppn (k + n) q.
Proof.
  intros Hk Hn Hsp M1 M2 v Es.
  destruct (M1 v Es) as [A1 B1]. destruct (M2 v) as [A2 B2]; [by rewrite Hsp|]. split; intros Hv.
  - destruct (decide (v < vpn + k)).
    + rewrite B2 by lia. apply A1. lia.
    + destruct A2 as [lv E]; [lia|]. exists lv. rewrite E. do 3 f_equal. lia.
  - rewrite B2, B1 by lia. done.
Qed.

(** A leaf at the entry of an unfinished page would lie across the border. *)
Lemma no_leaf_at l (s s2 : PT A) t vpn pages a r es e :
  no_straddle l (pmem s) t vpn pages -> a / big (S l) = vpn / big (S l) ->
  vpn <= a -> a + r = vpn + pages -> 0 < r < big l -> a mod big l = 0 ->
  walk l (pmem s2) t a = walk l (pmem s) t a ->
  pmem s2 !! t = Some es -> es !! idx l a = Some e -> isValid e && isLeaf e = false.
Proof.
  intros Hns Esp Hva Har Hr Hal W2 Hm Ee.
  destruct (isValid e && isLeaf e) eqn:E; [|done]. apply andb_true_iff in E as [E1 E2]. exfalso.
  assert (W : walk l (pmem s) t a = Some (l, entry_ppn e + a mod big l, entry_perm e)).
  { rewrite <- W2, (walk_entry _ _ _ _ es e Hm Ee). unfold ewalk. by rewrite E1, E2. }
  destruct (Hns _ _ _ _ Esp W) as [?|[?|?]]; lia.
Qed.

(** Phase 3 covers what is left of the last big page. *)
Lemma phase3_ok l s s2 t vpn ppn pages a p r q :
  CMbelow l -> Own l t s2 -> leaf_perm q -> 0 <= vpn -> vpn <= a -> a + r = vpn + pages -> 0 < r < big l ->
  a mod big l = 0 -> a / big (S l) = vpn / big (S l) -> vpn + pages < 2 ^ 63 -> 0 <= p -> p + r <= 2 ^ 44 ->
  no_straddle l (pmem s) t vpn pages ->
  mapped l t s s2 vpn ppn (a - vpn) q ->
  let run := (let* (sub, s1) := sub_table palloc (below l) s2 t (Z.land (a / big l) vpnMask)
                 (u64 (a + r)) r (big l - r) in below l s1 sub a p r q) in
  (run = Panic /\ few (half_cost l) s2) \/
  exists s', run = Done s' /\ Ext l t s2 s' /\ mapped l t s2 s' a p r q /\ spends (half_cost l) s2 s'.
Proof.
  intros IH Hown Hq Hv0 Hva Har Hr Hal Esp Hv1 Hp0 Hp1 Hns M run. pose proof (big_pos l) as HD.
  destruct l as [|l]; [change (big 0) with 1 in Hr; lia|]. cbn [below CMbelow] in *. subst run.
  rewrite idx_land by lia.
  destruct (tree_unfold _ _ _ (proj1 Hown)) as (es & Hm & Hlen & Hes & Hd).
  destruct (es !! idx (S l) a) as [e|] eqn:Ee.
  2:{ apply lookup_ge_None_1 in Ee. pose proof (idx_lt (S l) a). lia. }
  assert (Hw : forall v, v / big (S (S l)) = vpn / big (S (S l)) -> a <= v ->
    walk (S l) (pmem s2) t v = walk (S l) (pmem s) t v).
  { intros v Es Hv. apply (M v Es). lia. }
  assert (Hnl : isValid e && isLeaf e = false).
  { apply (no_leaf_at (S l) s s2 t vpn pages a r es e); auto. apply Hw; [done|lia]. }
  destruct (part_ok l s2 t a p r q (u64 (a + r)) r (big (S l) - r) es e) as [[E Hoom]|(s' & E & (X & P1 & P2) & Sp)]; auto; try lia.
  { intros v lv pp qq Ev W. pose proof (walk_level _ _ _ _ _ _ _ W) as Hlv.
    assert (Es : v / big (S (S l)) = vpn / big (S (S l))).
    { rewrite <- Esp. rewrite !(big_S (S l)), !(Z.mul_comm 512), <- !Z.div_div by lia. by rewrite Ev. }
    pose proof (div_range _ _ _ HD Ev). destruct (leaf_block (S l) lv v _ Hlv Ev) as [Hb _].
    pose proof (Z.div_mod a (big (S l)) ltac:(lia)).
    rewrite Hw in W by (auto; lia). destruct (Hns v lv pp qq Es W) as [?|[?|?]]; unfold clear; lia. }
  right. exists s'. split; [exact E|]. split; [done|]. split; [|exact Sp]. intros v Es.
  destruct (decide (v / big (S l) = a / big (S l))) as [Ev|Ev]; [by apply P2|].
  split; [|intros _; apply P1; by rewrite (idx_same (S l) v a Es)].
  intros Hin. exfalso. apply Ev. apply div_same; lia.
Qed.

Lemma span_same l vpn k n :
  0 <= vpn -> 0 <= k -> 0 < n -> vpn mod big (S l) + k + n <= big (S l) ->
  (vpn + k) / big (S l) = vpn / big (S l) /\ (vpn + k) mod big (S l) = vpn mod big (S l) + k.
Proof.
  intros Hv Hk Hn Hs. pose proof (big_pos (S l)) as HB. pose proof (Z.mod_pos_bound vpn (big (S l)) HB).
  assert (E : (vpn + k) / big (S l) = vpn / big (S l)) by (apply div_same; lia). split; [done|].
  pose proof (Z.div_mod vpn (big (S l)) ltac:(lia)). pose proof (Z.div_mod (vpn + k) (big (S l)) ltac:(lia)). lia.
Qed.

Lemma createMapping_step l : CMbelow l -> CM l.
Proof.
  intros IH s t vpn ppn pages q Hown Hq Hv0 Hv1 Hn Hspan Hp0 Hp1 Hns. pose proof (big_pos l) as HD.
  rewrite createMapping_phases.
  destruct (phase1_ok l s t vpn ppn pages q) as [[-> Hoom]|(s1 & k & -> & Hk & Hal & X1 & M1 & Sp1)]; auto.
  { left. split; [done|]. revert Hoom. apply few_le. unfold cost. lia. }
  cbn [obind]. unfold phase23. destruct (decide (k = pages)) as [->|Hne].
  { rewrite Z.sub_diag, Z.div_0_l by lia. cbn. right. exists s1. split; [done|]. split; [done|]. split; [done|].
    revert Sp1. apply spends_le. unfold cost. lia. }
  destruct Hal as [?|Hal]; [done|].
  destruct (span_same l vpn k (pages - k)) as [Esp Emod]; [lia..|].
  destruct (phase2_ok l s1 t (vpn + k) (ppn + k) (pages - k) q) as (s2 & -> & X2 & M2 & Em2); [apply X1|done|lia..|].
  cbn [obind]. set (w := (pages - k) / big l) in *.
  assert (Hw : 0 <= w /\ 0 <= pages - k - w * big l < big l).
  { subst w. pose proof (Z.div_mod (pages - k) (big l) ltac:(lia)).
    pose proof (Z.mod_pos_bound (pages - k) (big l) HD). split; [apply Z.div_pos; lia|lia]. }
  rewrite (u64_small (vpn + k + w * big l)), (u64_small (ppn + k + w * big l)) by nia.
  assert (M12 : mapped l t s s2 vpn ppn (k + w * big l) q) by (apply (mapped_trans l t s s1 s2); auto; nia).
  assert (Sp2 : spends (half_cost l) s s2).
  { rewrite <- (Nat.add_0_r (half_cost l)). apply (spends_trans _ _ s s1); [done|by apply spends_refl]. }
  zeq E0.
  { right. exists s2. split; [done|]. split; [by eapply Ext_trans|].
    split; [by replace (k + w * big l) with pages in M12 by lia|]. revert Sp2. apply spends_le. unfold cost. lia. }
  destruct (span_same l vpn (k + w * big l) (pages - k - w * big l)) as [Esp2 _]; [lia|nia|lia|nia|].
  destruct (phase3_ok l s s2 t vpn ppn pages (vpn + (k + w * big l)) (ppn + (k + w * big l))
    (pages - k - w * big l) q) as [[E Hoom]|(s' & E & X3 & M3 & Sp3)]; auto; try nia.
  { apply X2. } { rewrite Z.add_assoc, Z.mod_add by lia. done. }
  { by replace (vpn + (k + w * big l) - vpn) with (k + w * big l) by lia. }
  - left. rewrite !Z.add_assoc in E. split; [exact E|]. exact (spends_few _ _ s s2 Sp2 Hoom).
  - right. exists s'. rewrite !Z.add_assoc in E. split; [exact E|].
    split; [by eapply Ext_trans; [|exact X3]; eapply Ext_trans|]. split; [|exact (spends_trans _ _ s s2 s' Sp2 Sp3)].
    replace pages with ((k + w * big l) + (pages - k - w * big l)) by lia.
    apply (mapped_trans l t s s2 s'); auto; nia.
Qed.

Lemma createMapping_CM l : CM l.
Proof. induction l as [|l IH]; by apply createMapping_step. Qed.

(** ** The translation the code computes *)
Lemma trans_loop_walk l (s : PT A) t v :
  tree l (pmem s) t -> 0 <= v ->
  trans_loop (S l) s t v (big l) =
  match walk l (pmem s) t v with Some (_, p, _) => Done (u64 p) | None => Panic end.
Proof.
  intros Ht Hv. revert t Ht. induction l as [|l IH]; intros t Ht;
    destruct (tree_unfold _ _ _ Ht) as (es & Hm & Hlen & Hes & _);
    match goal with |- context [walk ?k _ _ _] => pose proof (idx_lt k v) as Hi;
      destruct (es !! idx k v) as [e|] eqn:Ee; [|apply lookup_ge_None_1 in Ee; lia];
      rewrite (walk_entry k _ _ _ es e Hm Ee) end;
    cbn [trans_loop]; rewrite idx_land by lia; unfold entry_get; rewrite Hm; unfold aget;
    match goal with |- context [Z.of_nat ?n <? 0] => destruct (Z.ltb_spec (Z.of_nat n) 0); [lia|] end;
    rewrite Nat2Z.id, Ee; cbn [obind]; unfold ewalk;
    (destruct (isValid e) eqn:Ev; cbn [passert obind]; [|done]);
    (destruct (isLeaf e) eqn:El; [by rewrite land_big|]).
  - destruct (Hes _ _ Ee) as [[_ Hn] _]. destruct Hn. unfold is_node. by rewrite Ev, El.
  - destruct (Hes _ _ Ee) as [[_ Hn] _].
    replace (Z.shiftr (big (S l)) 9) with (big l).
    2:{ rewrite big_S, Z.shiftr_div_pow2 by lia. change (2 ^ 9) with 512. rewrite Z.mul_comm, Z.div_mul; lia. }
    apply IH, Hn. unfold is_node. by rewrite Ev, El.
Qed.
Lemma trans_walk (s : PT A) root v :
  tree 2 (pmem s) root -> 0 <= v ->
  trans s root v = match walk 2 (pmem s) root v with Some (_, p, _) => Done (u64 p) | None => Panic end.
Proof. intros Ht Hv. exact (trans_loop_walk 2 s root v Ht Hv). Qed.

(** The page of a root table: Sv39 has 27 bits of virtual page number. *)
Lemma sv39_span v : 0 <= v < 2 ^ 27 -> v / big 3 = 0 /\ v mod big 3 = v.
Proof. intros Hv. change (big 3) with (2 ^ 27). split; [by apply Z.div_small|by apply Z.mod_small]. Qed.

(** C3. createMapping on a root table maps the requested virtual pages to the
    requested frames and leaves every other translation as it was, provided
    the permission is that of a leaf, the pages lie below 2^27 and the frames
    below 2^44, and no existing big page lies across the border of the range.
    It takes at most six pages for new nodes, and it panics only when fewer
    than six pages are free; afterwards the table is again a tree of nodes
    none of which is free, and no frame outside the table and the pages that
    were free has changed. *)
Theorem createMapping_exact (s : PT A) root vpn ppn pages q :
  Own 2 root s -> leaf_perm q -> 0 <= vpn -> 0 < pages -> vpn + pages <= 2 ^ 27 ->
  0 <= ppn -> ppn + pages <= 2 ^ 44 -> no_straddle 2 (pmem s) root vpn pages ->
  (createMapping palloc 2 s root vpn ppn pages q = Panic /\ few 6 s) \/
  exists s', createMapping palloc 2 s root vpn ppn pages q = Done s' /\ Own 2 root s' /\ spends 6 s s' /\
    (forall v, vpn <= v < vpn + pages -> trans s' root v = Done (ppn + (v - vpn))) /\
    (forall v, 0 <= v < 2 ^ 27 -> ~ vpn <= v < vpn + pages -> trans s' root v = trans s root v) /\
    (forall u, ~ inn 2 (pmem s) root u -> ~ avail (pmgr s) u -> pmem s' !! u = pmem s !! u).
Proof.
  intros Hown Hq Hv0 Hn Hv1 Hp0 Hp1 Hns. destruct (sv39_span vpn) as [S1 S2]; [lia|].
  destruct (createMapping_CM 2 s root vpn ppn pages q Hown Hq Hv0 ltac:(lia) Hn) as [[-> ?]|(s' & -> & X & M & Sp)]; auto.
  { rewrite S2. change (big 3) with (2 ^ 27). lia. }
  right. exists s'. split; [done|]. split; [apply X|]. split; [exact Sp|]. split; [|split; [|apply X]].
  - intros v Hv. rewrite trans_walk by (try apply X; lia).
    destruct (M v) as [Hin _]. { rewrite S1. apply sv39_span. lia. }
    destruct (Hin Hv) as [lv ->]. by rewrite u64_small by lia.
  - intros v Hv Hv2. rewrite !trans_walk by (try apply X; try apply Hown; lia).
    destruct (M v) as [_ Hout]. { rewrite S1. by apply sv39_span. }
    by rewrite Hout.
Qed.

End Own.

(** ** The push-down of a big page *)
Definition ex_pt : PT Buddy.Buddy.PageMgr := mkPT (<[50 := replicate 512 0]> ∅) PageAlloc.ex_s.
Definition ex_big : outcome (PT Buddy.Buddy.PageMgr) :=
  createMapping Buddy.Buddy.alloc 2 ex_pt 50 512 5120 512 15.

(** Mapping one page inside a big page drops the part of the big page
    after it: the push-down copies only the pages before the new one, so the
    page that follows it loses its translation. *)
Theorem pushdown_loses_tail :
  (let* s := ex_big in trans s 50 601) = Done 5209 /\
  (let* s := ex_big in
   let* s := createMapping Buddy.Buddy.alloc 2 s 50 600 9 1 15 in trans s 50 599) = Done 5207 /\
  (let* s := ex_big in
   let* s := createMapping Buddy.Buddy.alloc 2 s 50 600 9 1 15 in trans s 50 600) = Done 9 /\
  (let* s := ex_big in
   let* s := createMapping Buddy.Buddy.alloc 2 s 50 600 9 1 15 in trans s 50 601) = Panic.
Proof. split; [|split; [|split]]; vm_compute; reflexivity. Qed.

(** ** Witness *)
Lemma ex_pm_ok : pm_ok PageAlloc.ex_s.
Proof.
  destruct PageAlloc.ex_range as (H1 & H2 & H3 & H4).
  destruct (Buddy.Buddy.PageMgr_new_Inv 7 100 106 2 H1 H2 H3 H4) as (s & l & r & E & I & _).
  rewrite PageAlloc.ex_built in E. injection E as <-. by exists 2%nat, l, r.
Qed.
Lemma ex_own : Own (fun s p => page_free s p = true) pm_ok 2 50 ex_pt.
Proof.
  destruct (zeros_tree 2 (pmem ex_pt) 50) as (T & I & W); [done|]. split; [done|]. split; [exact ex_pm_ok|].
  intros u Hu%I. subst u. vm_compute. discriminate.
Qed.
Notation ex_free := (fun s p => page_free s p = true).
(** As many distinct free pages as the list has are not fewer. *)
Lemma not_few {A} (avail : A -> Z -> Prop) (s : PT A) (L : list Z) :
  NoDup L -> (forall u, u ∈ L -> avail (pmgr s) u) -> ~ few avail (length L) s.
Proof.
  intros Hd Ha (M & Hm & Hf). assert (L ⊆+ M) as HL%submseteq_length by (apply NoDup_submseteq; auto). lia.
Qed.
Lemma ex_six : ~ few ex_free 6 ex_pt.
Proof.
  apply (not_few ex_free ex_pt [100; 101; 102; 103; 104; 105]); [apply (bool_decide_unpack _); vm_compute; exact I|].
  intros u Hu. repeat (apply elem_of_cons in Hu as [->|Hu]; [vm_compute; reflexivity|]). by apply not_elem_of_nil in Hu.
Qed.
Lemma createMapping_exact_witness :
  exists s', createMapping Buddy.Buddy.alloc 2 ex_pt 50 1000 5000 700 15 = Done s' /\
    Own ex_free pm_ok 2 50 s' /\ spends ex_free 6 ex_pt s' /\
    (forall v, 1000 <= v < 1000 + 700 -> trans s' 50 v = Done (5000 + (v - 1000))) /\
    (forall v, 0 <= v < 2 ^ 27 -> ~ 1000 <= v < 1000 + 700 -> trans s' 50 v = trans ex_pt 50 v) /\
    (forall u, ~ inn 2 (pmem ex_pt) 50 u -> ~ page_free (pmgr ex_pt) u = true -> pmem s' !! u = pmem ex_pt !! u).
Proof.
  destruct (createMapping_exact Buddy.Buddy.alloc ex_free pm_ok ex_pt 50 1000 5000 700 15 ex_own) as [[_ Hf]|H]; try lia.
  - split; [lia|]. split; reflexivity.
  - intros v lv p q _ W. destruct (zeros_tree 2 (pmem ex_pt) 50) as (_ & _ & W0); [done|]. by rewrite W0 in W.
  - by destruct ex_six.
  - exact H.
Defined.

End PtMap.
