(* ===== verification/Kheap.v ===== *)
(** * Kheap: the kernel heap (kernel/alloc.cc, include/alloc.hh)

    HeapMgrGrowable serves new and delete from the TLSF allocator and gives it another
    block of pages when a request fails. TLSF (the vendored src/thirdparty) is an interface
    without laws: nothing is assumed of which requests it serves. The spans taken from the page allocator are in the list [dynPages], whose first
    node is always allocated in advance, since the list takes its nodes from the heap
    it extends. *)

From S2P Require Import Prelude Klib PageTable Buddy PageAlloc.
Local Open Scope Z_scope.

(** TLSF: 0 is the null pointer. *)
Class Tlsf (T : Type) : Type := mkTlsf {
  tlsf_malloc : T -> Z -> Z * T;
  tlsf_memalign : T -> Z -> Z -> Z * T;
  tlsf_free : T -> Z -> T;
  tlsf_add_pool : T -> Z -> Z -> T
}.
Module Kheap.
Import PageTable.

Section Heap.
Context {T A : Type} `{!Tlsf T} (palloc : A -> Z -> outcome (Z * A)).

(** HeapMgrGrowable: TLSF, the page allocator it refers to and the list of spans. *)
Record HeapMgr : Type := mkHeap { tlsf : T; pmgr : A; dynPages : list (Z * Z) }.

(** sizeof(SListNode<Span>). *)
Definition node_size : Z := 24.
(** dynPages.push_front: a node from tlsf_malloc, which is not checked for null. *)
Definition push_front (h : HeapMgr) (s : Z * Z) : outcome HeapMgr :=
  let '(p, t) := tlsf_malloc (tlsf h) node_size in
  if p =? 0 then Undef else Done (mkHeap t (pmgr h) (s :: dynPages h)).

(** The constructors. *)
Definition HeapMgr_new (t : T) (a : A) : outcome HeapMgr := push_front (mkHeap t a []) (0, 0).

(** growsize of growHeap; a shift into the sign bit of an int is undefined. *)
Definition growsize (size : Z) : outcome Z :=
  let k := log2up (bytes2pages size) in
  if 30 <=? k then Undef else Done (kmax (Z.shiftl 2 k) 32).
Definition growHeap (h : HeapMgr) (size : Z) : outcome HeapMgr :=
  let* n := growsize size in
  let* (ppn, a) := palloc (pmgr h) n in
  match dynPages h with
  | [] => Undef
  | _ :: rest =>
      let t := tlsf_add_pool (tlsf h) (pn2addr ppn) (u64 (n * pageSize)) in
      push_front (mkHeap t a ((ppn, i32 n) :: rest)) (0, 0)
  end.

(** The loop of alloc and alligned_alloc; [try] is the call of TLSF. *)
Fixpoint retry_loop (try : T -> Z * T) (n : nat) (h : HeapMgr) (size : Z) : outcome (Z * HeapMgr) :=
  match n with
  | O => Done (0, h)
  | S n =>
      let '(p, t) := try (tlsf h) in
      let h := mkHeap t (pmgr h) (dynPages h) in
      if negb (p =? 0) then Done (p, h)
      else let* h := growHeap h size in retry_loop try n h size
  end.
Definition retryLimit : nat := 2.
Definition alloc (h : HeapMgr) (size : Z) : outcome (Z * HeapMgr) :=
  if size =? 0 then Done (0, h) else retry_loop (fun t => tlsf_malloc t size) retryLimit h size.
Definition alligned_alloc (h : HeapMgr) (size alignment : Z) : outcome (Z * HeapMgr) :=
  retry_loop (fun t => tlsf_memalign t alignment size) retryLimit h size.
Definition free (h : HeapMgr) (ptr : Z) : HeapMgr := mkHeap (tlsf_free (tlsf h) ptr) (pmgr h) (dynPages h).

(** A use of the heap. *)
Inductive heapop : Type := New (size : Z) | NewAligned (size alignment : Z) | Delete (ptr : Z).
Definition heap_op (h : HeapMgr) (o : heapop) : outcome (Z * HeapMgr) :=
  match o with
  | New n => alloc h n
  | NewAligned n al => alligned_alloc h n al
  | Delete p => Done (0, free h p)
  end.
Fixpoint heap_run (os : list heapop) (h : HeapMgr) : outcome HeapMgr :=
  match os with
  | [] => Done h
  | o :: os => let* (_, h) := heap_op h o in heap_run os h
  end.

(** ** The size of a new pool *)

Lemma log2up_nonneg a : 0 <= log2up a.
Proof.
  unfold log2up. destruct a as [|q|q]; [lia| |lia].
  pose proof (log2up_loop_spec q 0 0 (or_introl eq_refl)) as H. destruct (log2up_loop q 0 0) as [i r].
  destruct H as [-> ->]. pose proof (Z.log2_nonneg (Z.pos q)). case_decide; lia.
Qed.
Lemma bytes2pages_bounds b :
  0 < b -> 1 <= bytes2pages b /\ b <= bytes2pages b * 4096 < b + 4096.
Proof.
  intros Hb. unfold bytes2pages, pageSize. pose proof (Z.div_mod b 4096 ltac:(lia)).
  pose proof (Z.mod_pos_bound b 4096 ltac:(lia)). destruct (Z.ltb_spec 0 (b mod 4096)); lia.
Qed.

(** The new pool is a power of two of pages, at least 32 and twice the request. *)
Definition pool_pages (size n : Z) : Prop := exists j, n = 2 ^ j /\ 5 <= j <= 30 /\ 2 * size <= n * 4096.
Lemma growsize_pool size n : 0 <= size -> growsize size = Done n -> pool_pages size n.
Proof.
  intros Hs. unfold growsize. pose proof (log2up_nonneg (bytes2pages size)) as H0.
  set (k := log2up (bytes2pages size)) in *. destruct (Z.leb_spec 30 k) as [|Hk]; [done|]. intros [= <-].
  rewrite Z.shiftl_mul_pow2, kmax_spec by lia.
  replace (2 * 2 ^ k) with (2 ^ (k + 1)) by (rewrite Z.pow_add_r by lia; lia).
  assert (Z.max (2 ^ (k + 1)) 32 = 2 ^ Z.max (k + 1) 5) as ->.
  { destruct (Z.le_gt_cases (k + 1) 5).
    - rewrite (Z.max_r (k + 1)) by lia. apply Z.max_r. change 32 with (2 ^ 5). apply Z.pow_le_mono_r; lia.
    - rewrite (Z.max_l (k + 1)) by lia. apply Z.max_l. change 32 with (2 ^ 5). apply Z.pow_le_mono_r; lia. }
  exists (Z.max (k + 1) 5). split; [done|]. split; [lia|].
  assert (2 ^ (k + 1) <= 2 ^ Z.max (k + 1) 5) by (apply Z.pow_le_mono_r; lia).
  replace (2 ^ (k + 1)) with (2 * 2 ^ k) in * by (rewrite Z.pow_add_r by lia; lia).
  destruct (Z.eq_dec size 0) as [->|]; [lia|]. destruct (bytes2pages_bounds size ltac:(lia)) as [H1 H2].
  destruct (log2up_bounds (bytes2pages size) H1) as (_ & H4 & _). fold k in H4. lia.
Qed.
Lemma pool_pages_i32 size n : pool_pages size n -> i32 n = n.
Proof.
  intros (j & -> & Hj & _). apply i32_small. assert (2 ^ j <= 2 ^ 30) by (apply Z.pow_le_mono_r; lia).
  pose proof (Z.pow_pos_nonneg 2 j ltac:(lia) ltac:(lia)). lia.
Qed.

(** ** Every span is recorded *)

(** The page allocator after the spans, the oldest last in the list, have been taken. *)
Fixpoint take_spans (a : A) (spans : list (Z * Z)) : outcome A :=
  match spans with
  | [] => Done a
  | (ppn, n) :: older =>
      let* a := take_spans a older in
      let* (p, a) := palloc a n in
      if p =? ppn then Done a else Undef
  end.
(** The bytes a use of the heap asks for, and whether it asks for any. *)
Definition op_size (o : heapop) : Z := match o with New n | NewAligned n _ => n | Delete _ => 0 end.
Definition is_new (o : heapop) : bool := match o with Delete _ => false | _ => true end.
(** The heap over [a0] after the requests [os] has taken exactly the spans it has in its
    list, at most two for a request, each of the size growHeap gives for some request. *)
Definition recorded (a0 : A) (os : list heapop) (h : HeapMgr) : Prop :=
  exists spans, dynPages h = (0, 0) :: spans /\ take_spans a0 spans = Done (pmgr h) /\
    (length spans <= retryLimit * length (List.filter is_new os))%nat /\
    Forall (fun s => exists o, o ∈ os /\ is_new o = true /\ pool_pages (op_size o) (snd s)) spans.
Definition more (a0 : A) (k : nat) (size : Z) (h h' : HeapMgr) : Prop :=
  forall spans, dynPages h = (0, 0) :: spans -> take_spans a0 spans = Done (pmgr h) ->
  exists new, dynPages h' = (0, 0) :: new ++ spans /\ take_spans a0 (new ++ spans) = Done (pmgr h') /\
    (length new <= k)%nat /\ Forall (fun s => pool_pages size (snd s)) new.

Lemma grow_more a0 h size h' : 0 <= size -> growHeap h size = Done h' -> more a0 1 size h h'.
Proof.
  intros Hz Hg spans Hd Ht. unfold growHeap in Hg.
  destruct (growsize size) as [n| | |] eqn:En; cbn [obind] in Hg; [|done..]. apply growsize_pool in En; [|done].
  destruct (palloc (pmgr h) n) as [[ppn a]| | |] eqn:Ea; cbn [obind] in Hg; [|done..].
  rewrite Hd in Hg. unfold push_front in Hg. cbn [tlsf pmgr dynPages] in Hg. destruct (tlsf_malloc _ node_size) as [p t].
  destruct (p =? 0); [done|]. injection Hg as <-. rewrite (pool_pages_i32 _ _ En). exists [(ppn, n)]. split; [done|].
  cbn [app take_spans length]. rewrite Ht. cbn [obind]. rewrite Ea. cbn [obind]. rewrite Z.eqb_refl.
  split; [done|]. split; [lia|]. by repeat constructor.
Qed.
Lemma retry_more a0 try n h size p h' :
  0 <= size -> retry_loop try n h size = Done (p, h') -> more a0 n size h h'.
Proof.
  intros Hz. revert h. induction n as [|n IH]; intros h; cbn [retry_loop].
  { intros [= _ <-] spans Hd Ht. exists []. split_and!; [done|done|cbn; lia|constructor]. }
  destruct (try (tlsf h)) as [q t]. destruct (negb (q =? 0)).
  { intros [= _ <-] spans Hd Ht. exists []. split_and!; [done|done|cbn; lia|constructor]. }
  destruct (growHeap _ size) as [h1| | |] eqn:Eg; cbn [obind]; [|done..]. intros Hr spans Hd Ht.
  destruct (grow_more a0 _ _ _ Hz Eg spans Hd Ht) as (n1 & Hd1 & Ht1 & Hl1 & Hf1).
  destruct (IH _ Hr _ Hd1 Ht1) as (n2 & Hd2 & Ht2 & Hl2 & Hf2). exists (n2 ++ n1). rewrite <- app_assoc.
  rewrite length_app. split_and!; [done|done|lia|by apply Forall_app].
Qed.
Lemma op_more a0 h o p h' :
  0 <= op_size o -> heap_op h o = Done (p, h') -> more a0 (if is_new o then retryLimit else O) (op_size o) h h'.
Proof.
  intros Hz. destruct o as [n|n al|q]; cbn [heap_op is_new op_size] in *.
  - unfold alloc. destruct (n =? 0); [|by apply retry_more].
    intros [= _ <-] spans Hd Ht. exists []. split_and!; [done|done|cbn; lia|constructor].
  - by apply retry_more.
  - intros [= _ <-] spans Hd Ht. exists []. split_and!; [done|done|cbn; lia|constructor].
Qed.
Lemma op_recorded a0 os h o p h' :
  0 <= op_size o -> recorded a0 os h -> heap_op h o = Done (p, h') -> recorded a0 (os ++ [o]) h'.
Proof.
  intros Hz (spans & Hd & Ht & Hl & Hf) Ho. destruct (op_more a0 h o p h' Hz Ho spans Hd Ht) as (new & Hd' & Ht' & Hl' & Hf').
  exists (new ++ spans). split; [done|]. split; [done|]. split.
  - rewrite List.filter_app, !length_app. cbn [List.filter]. destruct (is_new o); cbn [length] in *; lia.
  - apply Forall_app. split.
    + destruct (is_new o) eqn:En.
      * eapply Forall_impl; [exact Hf'|]. intros s Hs. exists o. split; [set_solver|done].
      * destruct new; [constructor|cbn in Hl'; lia].
    + eapply Forall_impl; [exact Hf|]. intros s (o' & Hin & Hs). exists o'. split; [set_solver|done].
Qed.

End Heap.

(** ** A heap of one pool at a time *)

(** A TLSF that serves from the pool it was given last. *)
Definition bump_alloc (t : Z * Z) (n : Z) : Z * (Z * Z) :=
  if (0 <? n) && (n <=? snd t) then (fst t, (fst t + n, snd t - n)) else (0, t).
Definition bump_align (t : Z * Z) (al n : Z) : Z * (Z * Z) :=
  if (0 <? n) && (n <=? snd t) then (fst t, (fst t + n, snd t - n)) else (0, t).
#[export] Instance bump_tlsf : Tlsf (Z * Z) :=
  {| tlsf_malloc := bump_alloc; tlsf_memalign := bump_align; tlsf_free t p := t;
     tlsf_add_pool t a b := (Z.max a 1, b) |}.
Definition ex_palloc (a n : Z) : outcome (Z * Z) := Done (a, a + n).
Definition ex_heap : HeapMgr := mkHeap (1024, 976) 1024 [(0, 0)].
Definition ex_ops : list heapop := [New 100; New 200000; Delete 1024; NewAligned 5000 64; New 400000].
Definition ex_heap' : HeapMgr := match heap_run ex_palloc ex_ops ex_heap with Done h => h | _ => ex_heap end.
End Kheap.
