(* ===== verification/Vmar.v ===== *)
(** * Vmar: address spaces (include/vm.hh, kernel/vm/vm.cc, kernel/syscall/mm.cc)

    A [VMAR] is a [std::set] of mappings ordered by their first page and the
    page table that realises them. The set is a list sorted by [vpn] in which
    [set_insert] keeps the element already present when the keys are equal, as
    [std::set::insert] does; an iterator is the element it points to. The VMOs
    and the physical memory behind them are a parameter: [vreq] answers
    VMO::req and may allocate pages. *)

From S2P Require Import Prelude Klib PageTable Buddy PageAlloc PtMap.
From Stdlib Require Import Sorted.
Local Open Scope Z_scope.

Module Vmar.
Import PageTable.

Inductive MappingType : Type := system | file | anon.
(** SharingType is a byte; the system call casts any value into it. *)
Definition privt : Z := 0.
Definition shared : Z := 1.
#[export] Instance MappingType_eq_dec : EqDecision MappingType.
Proof. solve_decision. Defined.

(** VMO identities are numbers. *)
Record PageMapping : Type := mkMapping {
  vpn : Z;
  len : Z;
  offset : Z;
  vmo : Z;
  perm : Z;
  mapping : MappingType;
  sharing : Z
}.
Definition vend (m : PageMapping) : Z := u64 (vpn m + len m - 1).
Definition vsegment (m : PageMapping) : Segment := mkSegment (vpn m) (vend m).
Definition splitChild (m : PageMapping) (region : Segment) (newperm : Z) : PageMapping :=
  mkMapping (sl region) (seg_length region) (u64 (offset m + sl region - vpn m)) (vmo m)
    (if newperm =? 0 then perm m else newperm) (mapping m) (sharing m).
(** PROT_NONE gives the user bit only; otherwise valid, user and the three
    protection bits. *)
Definition prot2perm (prot : Z) : Z :=
  if prot =? 0 then 16 else u8 (Z.lor 17 (Z.shiftl (Z.land prot 15) 1)).
Definition m_contains (m : PageMapping) (addr : Z) : bool :=
  (vpn m <=? addr2pn addr) && (addr2pn addr <=? vend m).

(** ** std::set<PageMapping> *)
Fixpoint set_insert (m : PageMapping) (l : list PageMapping) : list PageMapping :=
  match l with
  | [] => [m]
  | x :: l' => if vpn m <? vpn x then m :: l
               else if vpn x <? vpn m then x :: set_insert m l'
               else l
  end.
Definition set_erase (k : Z) (l : list PageMapping) : list PageMapping :=
  filter (fun x => vpn x <> k) l.
(** The element an iterator at key [k] moves to, and the iterator returned by
    [erase]: the first one with a larger key. *)
Definition set_next (k : Z) (l : list PageMapping) : option PageMapping :=
  head (filter (fun x => k < vpn x) l).

(** VMAR::find: [upper_bound], one step back unless at the beginning. On an
    empty set the end iterator is dereferenced. *)
Definition find (l : list PageMapping) (addr : Z) : outcome (option PageMapping) :=
  let below := filter (fun x => vpn x <= addr2pn addr) l in
  match last below with
  | Some m => Done (if m_contains m addr then Some m else None)
  | None => match l with
            | [] => Undef
            | m :: _ => Done (if m_contains m addr then Some m else None)
            end
  end.
Definition contains (l : list PageMapping) (addr : Z) : bool := existsb (fun m => m_contains m addr) l.

(** VMOContiguous::req: the whole VMO, whatever page is asked for. *)
Definition cont_req {A : Type} (ppn pages : Z) (a : A) (offset : Z) : outcome (Z * Z * Z * A) :=
  Done (0, ppn, pages, a).

Section Space.
Context {A : Type} (palloc : A -> Z -> outcome (Z * A)) (pfree : A -> Z -> Z -> outcome A)
  (vreq : A -> Z -> Z -> outcome (Z * Z * Z * A)).

Record VMAR : Type := mkVMAR { mappings : list PageMapping; root : Z; pt : PT A }.

(** PageMapping::req on the shared state. *)
Definition m_req (s : PT A) (m : PageMapping) (i : Z) : outcome (Z * Z * Z * PT A) :=
  let* (off, ppn, n, a) := vreq (pmgr s) (vmo m) (u64 (offset m + i)) in
  Done (off, ppn, n, mkPT (pmem s) a).

(** The loop of VMAR::map over the slices of the VMO. *)
Fixpoint map_loop (fuel : nat) (s : PT A) (rt : Z) (m : PageMapping) (i : Z) : outcome (PT A) :=
  if i <? len m then
    match fuel with
    | O => Diverge
    | S f =>
        let* (off, ppn, n, s1) := m_req s m i in
        let voff := u64 (off - offset m) in
        let* s2 := createMapping palloc 2 s1 rt (u64 (vpn m + voff)) ppn n (perm m) in
        map_loop f s2 rt m (u64 (voff + n))
    end
  else Done s.
Definition map (v : VMAR) (m : PageMapping) (ondemand : bool) : outcome VMAR :=
  let* s := (if ondemand then Done (pt v) else map_loop (S (Z.to_nat (len m))) (pt v) (root v) m 0) in
  Done (mkVMAR (set_insert m (mappings v)) (root v) s).

(** VMAR::pfhandler. *)
Definition pfhandler (v : VMAR) (addr : Z) : outcome VMAR :=
  let p := addr2pn addr in
  let* r := find (mappings v) addr in
  match r with
  | None => Panic
  | Some m =>
      let* (off, ppn, n, s1) := m_req (pt v) m (u64 (p - vpn m)) in
      let voff := u64 (off - offset m) in
      let* s2 := createMapping palloc 2 s1 (root v) (u64 (vpn m + voff)) ppn n (perm m) in
      Done (mkVMAR (mappings v) (root v) s2)
  end.

Definition remove_mapping (v : VMAR) (m : PageMapping) : outcome VMAR :=
  let* s := removeMapping pfree 2 (pt v) (root v) (vpn m) (len m) in
  Done (mkVMAR (mappings v) (root v) s).
Definition erase (v : VMAR) (m : PageMapping) : VMAR :=
  mkVMAR (set_erase (vpn m) (mappings v)) (root v) (pt v).

(** The left and right remainders that unmap and protect map again. *)
Definition left_part (v : VMAR) (m : PageMapping) (ovlp : Segment) : outcome VMAR :=
  let lregion := mkSegment (vpn m) (u64 (sl ovlp - 1)) in
  if seg_bool lregion then map v (splitChild m lregion 0) false else Done v.
Definition right_part (v : VMAR) (m : PageMapping) (ovlp : Segment) : outcome VMAR :=
  let rregion := mkSegment (u64 (sr ovlp + 1)) (vend m) in
  if seg_bool rregion then map v (splitChild m rregion 0) false else Done v.

Fixpoint unmap_loop (fuel : nat) (v : VMAR) (region : Segment) (i : option PageMapping) : outcome VMAR :=
  match i with
  | None => Done v
  | Some m =>
      match fuel with
      | O => Diverge
      | S f =>
          let ovlp := seg_and (vsegment m) region in
          if seg_bool ovlp then
            let* v1 := left_part v m ovlp in
            let* v2 := right_part v1 m ovlp in
            let* v3 := remove_mapping v2 m in
            let v4 := erase v3 m in
            unmap_loop f v4 region (set_next (vpn m) (mappings v4))
          else unmap_loop f v region (set_next (vpn m) (mappings v))
      end
  end.
(** Every turn moves to a larger key and inserts at most one element. *)
Definition unmap (v : VMAR) (region : Segment) : outcome VMAR :=
  unmap_loop (2 * length (mappings v) + 1) v region (head (mappings v)).

Fixpoint protect_loop (fuel : nat) (v : VMAR) (region : Segment) (pm : Z) (i : option PageMapping)
  : outcome VMAR :=
  match i with
  | None => Done v
  | Some m =>
      match fuel with
      | O => Diverge
      | S f =>
          let ovlp := seg_and (vsegment m) region in
          if seg_bool ovlp then
            let* v1 := remove_mapping v m in
            let* v2 := left_part v1 m ovlp in
            let* v3 := right_part v2 m ovlp in
            let newmapping := splitChild m ovlp pm in
            let v4 := erase v3 m in
            let nxt := set_next (vpn m) (mappings v4) in
            let* v5 := map v4 newmapping false in
            protect_loop f v5 region pm nxt
          else protect_loop f v region pm (set_next (vpn m) (mappings v))
      end
  end.
Definition protect (v : VMAR) (region : Segment) (pm : Z) : outcome VMAR :=
  protect_loop (2 * length (mappings v) + 1) v region pm (head (mappings v)).

Fixpoint reset_loop (fuel : nat) (v : VMAR) (i : option PageMapping) : outcome VMAR :=
  match i with
  | None => Done v
  | Some m =>
      match fuel with
      | O => Diverge
      | S f =>
          if decide (mapping m = system) then reset_loop f v (set_next (vpn m) (mappings v))
          else
            let* v1 := remove_mapping v m in
            let v2 := erase v1 m in
            reset_loop f v2 (set_next (vpn m) (mappings v2))
      end
  end.
Definition reset (v : VMAR) : outcome VMAR :=
  reset_loop (length (mappings v) + 1) v (head (mappings v)).

(** ** The system calls on the address space of the current process *)
Record Proc : Type := mkProc { vmar : VMAR; heapTop : Z; heapBottom : Z }.
Definition UserHeapSize : Z := 67108864.
Definition EINVAL : Z := 22.
Definition ENOMEM : Z := 12.
Definition Err (e : Z) : Z := u64 (- e).

(** [newvmo a pages pager swap] makes a VMOPaged over [pager], through a fresh
    SwapPager when [swap]. *)
Context (newvmo : A -> Z -> option Z -> bool -> outcome (Z * A)).

Definition with_alloc (v : VMAR) (a : A) : VMAR := mkVMAR (mappings v) (root v) (mkPT (pmem (pt v)) a).

Definition brk (p : Proc) (addr : Z) : outcome (Z * Proc) :=
  if (u64 (heapBottom p + UserHeapSize) <=? addr) || (addr <=? heapBottom p) then Done (heapTop p, p)
  else if contains (mappings (vmar p)) addr then Done (addr, mkProc (vmar p) addr (heapBottom p))
  else
    let curtop := bytes2pages (heapTop p) in
    let pages := u64 (bytes2pages addr - curtop) in
    let* (o, a) := newvmo (pmgr (pt (vmar p))) pages None true in
    let* v := map (with_alloc (vmar p) a) (mkMapping curtop pages 0 o 31 anon privt) false in
    Done (addr, mkProc v addr (heapBottom p)).

(** [fdpager fd] is the pager behind the open file [fd]; a descriptor without
    one is dereferenced. *)
Definition mmap (fdpager : Z -> option Z) (p : Proc) (addr length prot flags fd : Z) : outcome (Z * Proc) :=
  let '(vp, p1) :=
    (if addr =? 0 then
       let rt := ceil (heapTop p) in
       (addr2pn rt, mkProc (vmar p) (ceil (u64 (rt + length))) (heapBottom p))
     else (addr2pn addr, p)) in
  let pages := bytes2pages length in
  if pages =? 0 then Done (u64 (-1), p1)
  else
    let* pager := (if fd =? -1 then Done None
                   else match fdpager fd with Some x => Done (Some x) | None => Undef end) in
    let mappingType := if fd =? -1 then file else anon in
    let sharingType := u8 (Z.shiftr flags 8) in
    let swap := (sharingType =? privt) || (fd =? -1) in
    let* (o, a) := newvmo (pmgr (pt (vmar p1))) pages pager swap in
    let* v := map (with_alloc (vmar p1) a)
                (mkMapping vp pages 0 o (prot2perm prot) mappingType sharingType) false in
    Done (pn2addr vp, mkProc v (heapTop p1) (heapBottom p1)).

Definition munmap (p : Proc) (addr length : Z) : outcome (Z * Proc) :=
  if negb (Z.land addr (pageSize - 1) =? 0) then Done (Err EINVAL, p)
  else
    let region := mkSegment (addr2pn addr) (addr2pn (u64 (addr + length - 1))) in
    let* v := unmap (vmar p) region in Done (0, mkProc v (heapTop p) (heapBottom p)).

Definition mprotect (p : Proc) (addr length prot : Z) : outcome (Z * Proc) :=
  if negb (Z.land addr (pageSize - 1) =? 0) then Done (Err EINVAL, p)
  else
    let* v := protect (vmar p) (mkSegment (addr2pn addr) (addr2pn (u64 (addr + length - 1)))) (prot2perm prot) in
    Done (0, mkProc v (heapTop p) (heapBottom p)).

Definition mremap (p : Proc) (oldaddr oldsize newsize : Z) : outcome (Z * Proc) :=
  if negb (Z.land oldaddr (pageSize - 1) =? 0) then Done (Err EINVAL, p)
  else
    let oldpages := bytes2pages oldsize in
    let newpages := bytes2pages newsize in
    if oldpages <? newpages then Done (Err ENOMEM, p)
    else
      let oldvpn := addr2pn oldaddr in
      let* v := unmap (vmar p) (mkSegment (u64 (oldvpn + newpages)) (u64 (oldvpn + oldpages - 1))) in
      Done (oldaddr, mkProc v (heapTop p) (heapBottom p)).

(** ** The mapping list under unmap *)

(** A mapping within the 52 bits of page numbers. *)
Definition wfm (m : PageMapping) : Prop := 0 < vpn m /\ 0 < len m /\ vpn m + len m <= 2 ^ 52.
(** Mappings in order, none overlapping the next. *)
Definition apart (a b : PageMapping) : Prop := vend a < vpn b.
Definition wfl (l : list PageMapping) : Prop := Forall wfm l /\ StronglySorted apart l.

Lemma vend_wf m : wfm m -> vend m = vpn m + len m - 1.
Proof. intros (H1 & H2 & H3). unfold vend. apply u64_small. lia. Qed.

(** The part of [m] that stays when [region] is unmapped: everything when it
    does not meet the region, else what lies after it. *)
Definition remains (region : Segment) (m : PageMapping) : list PageMapping :=
  let ovlp := seg_and (vsegment m) region in
  if seg_bool ovlp then
    let rregion := mkSegment (sr ovlp + 1) (vend m) in
    if seg_bool rregion then [splitChild m rregion 0] else []
  else [m].

Lemma wfl_app l1 l2 :
  wfl (l1 ++ l2) <-> wfl l1 /\ wfl l2 /\ forall a b, a ∈ l1 -> b ∈ l2 -> apart a b.
Proof.
  unfold wfl. rewrite Forall_app. induction l1 as [|x l1 IH]; cbn.
  - split.
    + intros [[_ ?] ?]. split; [split; constructor|]. split; [done|]. set_solver.
    + intros (_ & [? ?] & _). split; [|done]. by split; [constructor|].
  - rewrite !Forall_cons. split.
    + intros [[[Hx H1] H2] Hs]. inversion Hs as [|? ? Hs' Hf]; subst.
      destruct IH as [IH _]. destruct IH as ([A1 A2] & [B1 B2] & C); [by repeat split|].
      apply Forall_app in Hf as [Hf1 Hf2]. split; [split; [done|by constructor]|]. split; [done|].
      intros a b [->|Ha]%elem_of_cons Hb; [|by apply C]. by apply (proj1 (Forall_forall _ _) Hf2).
    + intros ([[Hx H1] Hs] & [H2 Hs2] & C). inversion Hs as [|? ? Hs' Hf]; subst. split; [done|].
      constructor.
      * apply IH. split; [done|]. split; [done|]. intros a b Ha Hb. apply C; [set_solver|done].
      * apply Forall_app. split; [done|]. apply Forall_forall. intros b Hb. apply C; [set_solver|done].
Qed.

Lemma wfl_vpn pre m post x :
  wfl (pre ++ m :: post) -> (x ∈ pre -> vpn x < vpn m) /\ (x ∈ post -> vend m < vpn x).
Proof.
  intros (Hp & Hm & Hc)%wfl_app. assert (Hwm : wfm m) by (destruct Hm as [H _]; by inversion H).
  split; intros Hx.
  - pose proof (Hc x m Hx ltac:(set_solver)) as H. unfold apart in H.
    assert (Hwx : wfm x) by (by apply (proj1 (Forall_forall _ _) (proj1 Hp))).
    rewrite vend_wf in H by done. destruct Hwx as (?&?&?). lia.
  - destruct Hm as [_ Hs]. inversion Hs as [|? ? _ Hf]; subst. by apply (proj1 (Forall_forall _ _) Hf).
Qed.

(** Insertion of a key that is present, and of one that follows [m]. *)
Lemma set_insert_same pre m post x :
  wfl (pre ++ m :: post) -> vpn x = vpn m -> set_insert x (pre ++ m :: post) = pre ++ m :: post.
Proof.
  intros Hw Hx. induction pre as [|y pre IH]; cbn.
  - rewrite Hx. by rewrite Z.ltb_irrefl.
  - assert (vpn y < vpn m) by (eapply (wfl_vpn (y :: pre)); [done|set_solver]).
    destruct (Z.ltb_spec (vpn x) (vpn y)); [lia|]. destruct (Z.ltb_spec (vpn y) (vpn x)); [|lia].
    f_equal. apply IH. apply (wfl_app [y]) in Hw. apply Hw.
Qed.
Lemma set_insert_after pre m post x :
  wfl (pre ++ m :: post) -> vpn m < vpn x -> vpn x <= vend m ->
  set_insert x (pre ++ m :: post) = pre ++ m :: x :: post.
Proof.
  intros Hw Hx Hv. induction pre as [|y pre IH]; cbn.
  - destruct (Z.ltb_spec (vpn x) (vpn m)); [lia|]. destruct (Z.ltb_spec (vpn m) (vpn x)); [|lia].
    f_equal. destruct post as [|z post]; [done|]. cbn.
    assert (vend m < vpn z) by (eapply (wfl_vpn []); [done|set_solver]).
    destruct (Z.ltb_spec (vpn x) (vpn z)); [done|lia].
  - assert (vpn y < vpn m) by (eapply (wfl_vpn (y :: pre)); [done|set_solver]).
    destruct (Z.ltb_spec (vpn x) (vpn y)); [lia|]. destruct (Z.ltb_spec (vpn y) (vpn x)); [|lia].
    f_equal. apply IH. apply (wfl_app [y]) in Hw. apply Hw.
Qed.

Lemma erase_at pre m post :
  wfl (pre ++ m :: post) -> forall ins, (forall x, x ∈ ins -> vpn m < vpn x) ->
  set_erase (vpn m) (pre ++ m :: ins ++ post) = pre ++ ins ++ post /\
  set_next (vpn m) (pre ++ ins ++ post) = head (ins ++ post) /\
  set_next (vpn m) (pre ++ m :: post) = head post.
Proof.
  intros Hw ins Hins.
  assert (H1 : forall x, x ∈ pre -> vpn x < vpn m) by (intros x Hx; by eapply wfl_vpn).
  assert (H2 : forall x, x ∈ post -> vpn m < vpn x).
  { intros x Hx. assert (vend m < vpn x) by (by eapply wfl_vpn).
    apply wfl_app in Hw as (_ & [Hf _] & _). inversion Hf as [|? ? Hwm _]; subst.
    rewrite vend_wf in H by done. destruct Hwm as (?&?&?). lia. }
  unfold set_erase, set_next. split; [|split].
  - rewrite filter_app, filter_cons, decide_False by (intros Hn; by apply Hn).
    rewrite filter_app. rewrite !filter_all; [done|..]; intros x Hx E;
      [specialize (H2 x Hx)|specialize (Hins x Hx)|specialize (H1 x Hx)]; lia.
  - rewrite filter_app, filter_none; [rewrite filter_all; [done|]|].
    + intros x [?|?]%elem_of_app; auto.
    + intros x Hx. specialize (H1 x Hx). lia.
  - rewrite filter_app, filter_none; [|intros x Hx; specialize (H1 x Hx); lia].
    rewrite filter_cons, decide_False by lia. by rewrite filter_all.
Qed.

(** The right remainder of a mapping. *)
Definition right_rest (m : PageMapping) (ovlp : Segment) : list PageMapping :=
  if sr ovlp + 1 <=? vend m then [splitChild m (mkSegment (sr ovlp + 1) (vend m)) 0] else [].

Lemma right_rest_in m ovlp x :
  wfm m -> vpn m <= sr ovlp -> x ∈ right_rest m ovlp ->
  wfm x /\ vpn x = sr ovlp + 1 /\ vend x = vend m /\ vpn m < vpn x.
Proof.
  intros Hm Ho. unfold right_rest. destruct (Z.leb_spec (sr ovlp + 1) (vend m)) as [Hle|]; [|set_solver].
  intros ->%list_elem_of_singleton. pose proof (vend_wf m Hm) as Ev. destruct Hm as (H1 & H2 & H3).
  assert (El : seg_length (mkSegment (sr ovlp + 1) (vend m)) = vend m - sr ovlp).
  { unfold seg_length. cbn. rewrite u64_small; lia. }
  assert (Hx : wfm (splitChild m (mkSegment (sr ovlp + 1) (vend m)) 0)).
  { unfold wfm, splitChild. cbn [vpn len sl]. rewrite El. lia. }
  split; [done|]. split; [done|]. rewrite (vend_wf _ Hx). cbn [vpn len splitChild sl]. rewrite El. lia.
Qed.

Lemma wfl_replace pre m post ins :
  wfl (pre ++ m :: post) -> wfl ins ->
  (forall x, x ∈ ins -> vpn m <= vpn x /\ vend x <= vend m) -> wfl (pre ++ ins ++ post).
Proof.
  intros (Hp & Hm & Hc)%wfl_app Hl Hi. apply (wfl_app [m] post) in Hm as (Hm & Hpost & Hmp).
  apply wfl_app. split; [done|]. split.
  - apply wfl_app. split; [done|split; [done|]].
    intros a b Ha Hb. destruct (Hi a Ha) as [_ Ev]. pose proof (Hmp m b ltac:(set_solver) Hb). unfold apart in *. lia.
  - intros a b Ha [Hb|Hb]%elem_of_app; [|apply Hc; set_solver].
    pose proof (Hc a m Ha ltac:(set_solver)) as H. unfold apart in *. destruct (Hi b Hb) as [? _]. lia.
Qed.
Lemma wfl_single m : wfm m -> wfl [m].
Proof. intros Hm. split; [by apply Forall_singleton|]. constructor; [constructor|by apply Forall_nil]. Qed.
Lemma right_rest_wfl m ovlp : wfm m -> vpn m <= sr ovlp -> wfl (right_rest m ovlp).
Proof.
  intros Hm Ho. pose proof (fun x => right_rest_in m ovlp x Hm Ho) as H. unfold right_rest in *.
  case_match; [|split; constructor]. apply wfl_single. apply H. set_solver.
Qed.

Lemma ovlp_bounds m region :
  let ovlp := seg_and (vsegment m) region in
  vpn m <= sl ovlp /\ sr ovlp <= vend m /\ sr ovlp <= sr region /\
  sl ovlp = Z.max (vpn m) (sl region) /\ sr ovlp = Z.min (vend m) (sr region).
Proof. cbn. rewrite kmax_spec, kmin_spec. lia. Qed.

Lemma remains_eq region m :
  remains region m =
  if sl (seg_and (vsegment m) region) <=? sr (seg_and (vsegment m) region)
  then right_rest m (seg_and (vsegment m) region) else [m].
Proof. reflexivity. Qed.

(** What lies after the region does not meet it. *)
Lemma remains_right region m x :
  wfm m -> let ovlp := seg_and (vsegment m) region in
  sl ovlp <= sr ovlp -> x ∈ right_rest m ovlp -> remains region x = [x].
Proof.
  intros Hm ovlp Ho Hx. pose proof (ovlp_bounds m region) as (B1 & B2 & B3 & B4 & B5). fold ovlp in B1, B2, B3, B4, B5.
  destruct (right_rest_in m ovlp x Hm ltac:(lia) Hx) as (Hwx & Ex & Evx & _).
  unfold right_rest in Hx. destruct (Z.leb_spec (sr ovlp + 1) (vend m)); [|set_solver].
  rewrite remains_eq. pose proof (ovlp_bounds x region) as (C1 & C2 & C3 & C4 & C5).
  destruct (Z.leb_spec (sl (seg_and (vsegment x) region)) (sr (seg_and (vsegment x) region))); [lia|done].
Qed.

(** ** Termination of the loops *)
Lemma entry_get_stops (s : PT A) t i : stops (entry_get s t i).
Proof. unfold entry_get. stops_tac. Qed.
Lemma entry_set_stops (s : PT A) t i e : stops (entry_set s t i e).
Proof. unfold entry_set. stops_tac. Qed.
#[local] Hint Resolve entry_get_stops entry_set_stops : luo.

Lemma removeMapping_stops level s table vp pages :
  (forall a p o, stops (pfree a p o)) -> stops (removeMapping pfree level s table vp pages).
Proof.
  intros Hf. revert s table vp pages. 
  assert (Hfree : forall s t, stops (freePTNode pfree s t)) by (intros; unfold freePTNode; stops_tac).
  assert (Hpart : forall rm s t i vp pages, (forall s t vp pages, stops (rm s t vp pages)) ->
    stops (remove_part pfree rm s t i vp pages)) by (intros; unfold remove_part; stops_tac).
  assert (Hwhole : forall n rm s t i vp b, (forall s t vp pages, stops (rm s t vp pages)) ->
    stops (remove_whole pfree n rm s t i vp b)).
  { induction n; intros; cbn [remove_whole]; stops_tac. }
  induction level; intros; cbn [removeMapping]; stops_tac; auto with luo; (apply Hpart || apply Hwhole); intros; auto with luo.
Qed.

Lemma createMapping_stops level s table vp ppn pages q :
  (forall a n, stops (palloc a n)) -> stops (createMapping palloc level s table vp ppn pages q).
Proof.
  intros Ha. revert s table vp ppn pages q.
  assert (Hnew : forall s, stops (createPTNode palloc s)) by (intros; unfold createPTNode; stops_tac).
  assert (Hsub : forall cm s t i a b c, (forall s t vp p n q, stops (cm s t vp p n q)) ->
    stops (sub_table palloc cm s t i a b c)) by (intros; unfold sub_table; stops_tac).
  assert (Hwhole : forall n s t i p q b, stops (map_whole (A:=A) n s t i p q b)).
  { induction n; intros; cbn [map_whole]; stops_tac. }
  induction level; intros; cbn [createMapping]; stops_tac; auto with luo; apply Hsub; intros; auto with luo.
Qed.

(** What the address space relies on: the page allocator and the VMOs stop,
    and the slice a VMO of [vlen o] pages answers with holds the page asked
    for. *)
Class VmoSource (vlen : Z -> Z) : Prop := {
  palloc_stops : forall a n, stops (palloc a n);
  pfree_stops : forall a p o, stops (pfree a p o);
  vlen_bound : forall o, vlen o < 2 ^ 63;
  vreq_covers : forall a o k, 0 <= k < vlen o ->
    ends (vreq a o k) (fun '(off, ppn, n, _) => 0 <= off <= k /\ k < off + n /\ off + n < 2 ^ 63)
}.

Section Loops.
Context (vlen : Z -> Z) `{!VmoSource vlen}.

(** The window of a mapping lies in its VMO. *)
Definition wfo (m : PageMapping) : Prop := 0 <= offset m /\ offset m + len m <= vlen (vmo m).

Lemma map_loop_stops fuel s rt m i :
  wfo m -> 0 <= i -> len m - i < Z.of_nat fuel -> stops (map_loop fuel s rt m i).
Proof.
  intros [Hm1 Hm2]. pose proof (vlen_bound (vlen:=vlen) (vmo m)).
  revert s i. induction fuel as [|fuel IH]; intros s i Hi Hf; cbn [map_loop];
    (destruct (Z.ltb_spec i (len m)); [|apply stops_Done]); [lia|].
  unfold m_req. rewrite (u64_small (offset m + i)) by lia.
  pose proof (vreq_covers (vlen:=vlen) (pmgr s) (vmo m) (offset m + i) ltac:(lia)) as Hc.
  destruct (vreq (pmgr s) (vmo m) (offset m + i)) as [[[[off ppn] n] a]| | |]; cbn [ends] in Hc; try done.
  cbn [obind]. apply stops_bind; [apply createMapping_stops, palloc_stops|]. intros s2 _.
  assert (E : u64 (u64 (off - offset m) + n) = off + n - offset m).
  { unfold u64. rewrite Zplus_mod_idemp_l. replace (off - offset m + n) with (off + n - offset m) by lia.
    apply Z.mod_small. lia. }
  rewrite E. apply IH; lia.
Qed.

Lemma map_ends v m :
  wfo m -> 0 <= len m -> ends (map v m false) (fun v' => mappings v' = set_insert m (mappings v)).
Proof.
  intros Hm Hl. unfold map. eapply ends_bind; [apply stops_ends, map_loop_stops; [done|done|rewrite Nat2Z.inj_succ, Z2Nat.id by done; lia]|].
  by intros s _ _.
Qed.
Lemma remove_ends v m : ends (remove_mapping v m) (fun v' => mappings v' = mappings v).
Proof.
  unfold remove_mapping. eapply ends_bind; [apply stops_ends, removeMapping_stops, pfree_stops|]. by intros s _ _.
Qed.

(** The parts of a mapping that are mapped again. *)
Lemma left_ends pre m post v ovlp :
  wfl (pre ++ m :: post) -> wfo m -> mappings v = pre ++ m :: post ->
  vpn m <= sl ovlp -> sl ovlp <= vend m ->
  ends (left_part v m ovlp) (fun v' => mappings v' = mappings v).
Proof.
  intros Hw [Ho1 Ho2] Hv Hl Hr.
  assert (Hm : wfm m) by (apply wfl_app in Hw as (_ & [Hf _] & _); by inversion Hf).
  pose proof (vend_wf m Hm). pose proof Hm as (?&?&?). pose proof (vlen_bound (vlen:=vlen) (vmo m)).
  unfold left_part. rewrite (u64_small (sl ovlp - 1)) by lia. unfold seg_bool. cbn [sl sr].
  destruct (Z.leb_spec (vpn m) (sl ovlp - 1)); [|done].
  assert (El : seg_length (mkSegment (vpn m) (sl ovlp - 1)) = sl ovlp - vpn m).
  { unfold seg_length. cbn. rewrite u64_small; lia. }
  assert (Eo : u64 (offset m + vpn m - vpn m) = offset m).
  { replace (offset m + vpn m - vpn m) with (offset m) by lia. apply u64_small. lia. }
  rewrite Hv, <- (set_insert_same pre m post (splitChild m (mkSegment (vpn m) (sl ovlp - 1)) 0)), <- Hv by done.
  apply map_ends; unfold wfo; cbn [splitChild len offset vmo sl]; rewrite El, ?Eo; lia.
Qed.

Lemma right_ends pre m post v ovlp :
  wfl (pre ++ m :: post) -> wfo m -> mappings v = pre ++ m :: post ->
  vpn m <= sr ovlp -> sr ovlp <= vend m ->
  ends (right_part v m ovlp) (fun v' => mappings v' = pre ++ m :: right_rest m ovlp ++ post).
Proof.
  intros Hw [Ho1 Ho2] Hv Hl Hr.
  assert (Hm : wfm m) by (apply wfl_app in Hw as (_ & [Hf _] & _); by inversion Hf).
  pose proof (vend_wf m Hm). pose proof Hm as (?&?&?). pose proof (vlen_bound (vlen:=vlen) (vmo m)).
  unfold right_part. rewrite (u64_small (sr ovlp + 1)) by lia. unfold seg_bool, right_rest. cbn [sl sr].
  destruct (Z.leb_spec (sr ovlp + 1) (vend m)); [|done].
  assert (El : seg_length (mkSegment (sr ovlp + 1) (vend m)) = vend m - sr ovlp).
  { unfold seg_length. cbn. rewrite u64_small; lia. }
  assert (Eo : u64 (offset m + (sr ovlp + 1) - vpn m) = offset m + (sr ovlp + 1) - vpn m).
  { apply u64_small. lia. }
  cbn [app]. rewrite <- (set_insert_after pre m post), <- Hv by (done || cbn; lia).
  apply map_ends; unfold wfo; cbn [splitChild len offset vmo sl]; rewrite El, ?Eo; lia.
Qed.

(** A turn over an overlapped mapping may be followed by one over its right
    remainder. *)
Definition cost (region : Segment) (m : PageMapping) : nat :=
  if seg_bool (seg_and (vsegment m) region) then 2 else 1.
Definition costs (region : Segment) (l : list PageMapping) : nat := sum_list (cost region <$> l).
Lemma costs_le region l : (costs region l <= 2 * length l)%nat.
Proof. induction l as [|m l IH]; cbn; [lia|]. unfold costs, cost in *. case_match; lia. Qed.

Lemma right_rest_wfo m ovlp x :
  wfm m -> wfo m -> vpn m <= sr ovlp -> x ∈ right_rest m ovlp -> wfo x.
Proof.
  intros Hm [Ho1 Ho2] Ho. unfold right_rest. destruct (Z.leb_spec (sr ovlp + 1) (vend m)) as [Hle|]; [|set_solver].
  intros ->%list_elem_of_singleton. pose proof (vend_wf m Hm) as Ev. destruct Hm as (H1 & H2 & H3).
  pose proof (vlen_bound (vlen:=vlen) (vmo m)).
  assert (El : seg_length (mkSegment (sr ovlp + 1) (vend m)) = vend m - sr ovlp).
  { unfold seg_length. cbn. rewrite u64_small; lia. }
  unfold wfo, splitChild. cbn [offset len vmo sl]. rewrite El, u64_small; lia.
Qed.

(** The list after the turn over an overlapped mapping [m]. *)
Lemma overlap_turn pre m post region :
  let ovlp := seg_and (vsegment m) region in
  wfl (pre ++ m :: post) -> sl ovlp <= sr ovlp -> Forall wfo (m :: post) ->
  wfl (pre ++ right_rest m ovlp ++ post) /\ Forall wfo (right_rest m ovlp ++ post) /\
  set_erase (vpn m) (pre ++ m :: right_rest m ovlp ++ post) = pre ++ right_rest m ovlp ++ post /\
  set_next (vpn m) (pre ++ right_rest m ovlp ++ post) = head (right_rest m ovlp ++ post) /\
  flat_map (remains region) (right_rest m ovlp) = right_rest m ovlp /\
  (costs region (right_rest m ovlp ++ post) < costs region (m :: post))%nat.
Proof.
  intros ovlp Hw Ho Hf. pose proof (ovlp_bounds m region) as (B1 & B2 & _). fold ovlp in B1, B2.
  assert (Hm : wfm m) by (apply wfl_app in Hw as (_ & [Hf' _] & _); by inversion Hf').
  apply Forall_cons in Hf as [Hom Hop].
  assert (Hin : forall x, x ∈ right_rest m ovlp -> wfm x /\ vpn x = sr ovlp + 1 /\ vend x = vend m /\ vpn m < vpn x).
  { intros x. apply right_rest_in; [done|lia]. }
  assert (Hr : forall x, x ∈ right_rest m ovlp -> remains region x = [x]) by (intros x; by apply remains_right).
  assert (Hlen : (length (right_rest m ovlp) <= 1)%nat) by (unfold right_rest; case_match; cbn; lia).
  split. { apply (wfl_replace pre m post); [done|apply right_rest_wfl; [done|lia]|].
    intros x Hx. destruct (Hin x Hx) as (?&?&?&?). lia. }
  split. { apply Forall_app. split; [|done]. apply Forall_forall. intros x. apply right_rest_wfo; [done..|lia]. }
  destruct (erase_at pre m post Hw (right_rest m ovlp)) as (D1 & D2 & _); [intros x Hx; by apply Hin|].
  split; [done|]. split; [done|].
  assert (Hc : cost region m = 2%nat).
  { unfold cost, seg_bool. fold ovlp. by destruct (Z.leb_spec (sl ovlp) (sr ovlp)); [|lia]. }
  unfold costs. rewrite fmap_app. cbn [fmap list_fmap sum_list]. rewrite Hc.
  destruct (right_rest m ovlp) as [|x [|]]; [cbn; split; [done|lia]| |cbn in Hlen; lia].
  specialize (Hr x ltac:(set_solver)). split; [cbn; by rewrite Hr|]. cbn.
  enough (cost region x = 1%nat) as -> by lia. rewrite remains_eq in Hr. unfold cost, seg_bool.
  destruct (Z.leb_spec (sl (seg_and (vsegment x) region)) (sr (seg_and (vsegment x) region))); [|done].
  destruct (Hin x ltac:(set_solver)) as (Hx & _).
  unfold right_rest in Hr. case_match; [|done]. injection Hr as Hr. apply (f_equal vpn) in Hr. cbn in Hr.
  rewrite kmin_spec in Hr. pose proof (ovlp_bounds x region) as (? & ? & ? & ? & ?). lia.
Qed.

Lemma unmap_loop_ends fuel region v pre rest :
  wfl (pre ++ rest) -> Forall wfo rest -> mappings v = pre ++ rest -> (costs region rest <= fuel)%nat ->
  ends (unmap_loop fuel v region (head rest)) (fun v' => mappings v' = pre ++ flat_map (remains region) rest).
Proof.
  revert v pre rest. induction fuel as [|fuel IH]; intros v pre rest Hw Hfo Hv Hf;
    (destruct rest as [|m post]; [done|]); cbn [head unmap_loop].
  { revert Hf. cbn. unfold cost. case_match; lia. }
  cbn [flat_map]. rewrite remains_eq. unfold seg_bool.
  pose proof (ovlp_bounds m region) as (B1 & B2 & _). pose proof (overlap_turn pre m post region) as T.
  cbn zeta in T. set (ovlp := seg_and (vsegment m) region) in *.
  assert (Hom : wfo m) by (by inversion Hfo).
  destruct (Z.leb_spec (sl ovlp) (sr ovlp)) as [Ho|Ho].
  - destruct T as (Hw2 & Hfo2 & D1 & D2 & Hr & Hc); [done..|].
    eapply ends_bind; [eapply left_ends; [done..|lia]|]. cbn beta. intros v1 _ E1. rewrite Hv in E1.
    eapply ends_bind; [eapply right_ends; [done..|lia|lia]|]. cbn beta. intros v2 _ E2.
    eapply ends_bind; [apply remove_ends|]. cbn beta. intros v3 _ E3. rewrite E2 in E3.
    unfold erase. rewrite E3, D1. cbn [mappings]. rewrite D2.
    specialize (IH (mkVMAR (pre ++ right_rest m ovlp ++ post) (root v3) (pt v3)) pre (right_rest m ovlp ++ post)).
    rewrite flat_map_app, Hr in IH. apply IH; [done..|lia].
  - destruct (erase_at pre m post Hw []) as (_ & _ & D3); [set_solver|]. rewrite Hv, D3.
    specialize (IH v (pre ++ [m]) post). rewrite <- !app_assoc in IH. apply IH; [done| |done|].
    + by inversion Hfo.
    + revert Hf. cbn. unfold costs, cost. case_match; lia.
Qed.

Lemma set_insert_between pre post x :
  (forall y, y ∈ pre -> vpn y < vpn x) -> (forall y, y ∈ post -> vpn x < vpn y) ->
  set_insert x (pre ++ post) = pre ++ x :: post.
Proof.
  intros H1 H2. induction pre as [|y pre IH]; cbn.
  - destruct post as [|z post]; [done|]. cbn. specialize (H2 z ltac:(set_solver)).
    by destruct (Z.ltb_spec (vpn x) (vpn z)); [|lia].
  - specialize (H1 y ltac:(set_solver)) as Hy. destruct (Z.ltb_spec (vpn x) (vpn y)); [lia|].
    destruct (Z.ltb_spec (vpn y) (vpn x)); [|lia]. f_equal. apply IH. set_solver.
Qed.

(** *** What the loops leave, page by page *)
Definition covers (m : PageMapping) (p : Z) : Prop := vpn m <= p <= vend m.
(** The VMO, the page of it and the permissions behind page [p]. *)
Definition backing (m : PageMapping) (p : Z) : Z * Z * Z := (vmo m, offset m + (p - vpn m), perm m).
Definition maps (l : list PageMapping) (p : Z) (b : Z * Z * Z) : Prop :=
  exists m, m ∈ l /\ covers m p /\ backing m p = b.

Lemma splitChild_facts m g q :
  wfm m -> wfo m -> vpn m <= sl g -> sl g <= sr g -> sr g <= vend m ->
  let c := splitChild m g q in
  wfm c /\ vpn c = sl g /\ vend c = sr g /\
  (forall p, backing c p = (vmo m, offset m + (p - vpn m), if q =? 0 then perm m else q)).
Proof.
  intros Hm [Ho1 Ho2] H1 H2 H3. pose proof (vend_wf m Hm). destruct Hm as (M1 & M2 & M3).
  pose proof (vlen_bound (vlen:=vlen) (vmo m)).
  assert (El : seg_length g = sr g - sl g + 1) by (unfold seg_length; rewrite u64_small; lia).
  cbn zeta. assert (Hc : wfm (splitChild m g q)) by (unfold wfm, splitChild; cbn [vpn len]; rewrite El; lia).
  split; [done|]. split; [done|]. split; [rewrite (vend_wf _ Hc); unfold splitChild; cbn [vpn len]; rewrite El; lia|].
  intros p. unfold backing, splitChild. cbn [vpn offset vmo perm]. rewrite u64_small by lia. f_equal. f_equal. lia.
Qed.

Lemma remains_maps m region p b :
  wfm m -> wfo m -> sl region <= sr region ->
  maps (remains region m) p b <->
  covers m p /\ backing m p = b /\ ~ sl region <= p <= sr region /\ ~ p < sl region <= vend m.
Proof.
  intros Hm Ho Hr. rewrite remains_eq. pose proof (ovlp_bounds m region) as (B1 & B2 & B3 & B4 & B5).
  set (ovlp := seg_and (vsegment m) region) in *. clearbody ovlp. unfold maps, covers.
  pose proof (vend_wf m Hm) as Ev. pose proof Hm as (M1 & M2 & M3).
  destruct (Z.leb_spec (sl ovlp) (sr ovlp)).
  - unfold right_rest. destruct (Z.leb_spec (sr ovlp + 1) (vend m)).
    + destruct (splitChild_facts m (mkSegment (sr ovlp + 1) (vend m)) 0) as (_ & F1 & F2 & F3); cbn [sl sr]; [done..|lia|lia|lia|].
      split.
      * intros (x & ->%list_elem_of_singleton & Hx & Hb). rewrite F1, F2 in Hx. rewrite F3 in Hb. cbn in Hx.
        unfold backing. cbn in Hb. split; [lia|]. split; [done|]. lia.
      * intros (H2 & Hb & H3 & H4). eexists. split; [by apply list_elem_of_singleton|]. rewrite F1, F2, F3. cbn.
        split; [lia|done].
    + split; [set_solver|]. intros (H2 & Hb & H3 & H4). lia.
  - split.
    + intros (x & ->%list_elem_of_singleton & Hx & Hb). split; [done|]. split; [done|]. lia.
    + intros (H2 & Hb & _). exists m. set_solver.
Qed.

Lemma maps_flat_map (f : PageMapping -> list PageMapping) l p b :
  maps (flat_map f l) p b <-> exists m, m ∈ l /\ maps (f m) p b.
Proof.
  unfold maps. setoid_rewrite list_elem_of_In. setoid_rewrite in_flat_map. naive_solver.
Qed.

(** The list of mappings under unmap (the page table is not described). Unmapping a
    region of an address space whose mappings do not overlap always stops, and when it
    ends without a failure a page stays mapped (to the
    same page of the same VMO, with the same permissions) exactly when it lies
    outside the region and not before it in a mapping that reaches into it:
    the part of a mapping before the region goes as well. *)
Theorem unmap_exact v region :
  wfl (mappings v) -> Forall wfo (mappings v) -> sl region <= sr region ->
  ends (unmap v region) (fun v' =>
    forall p b, maps (mappings v') p b <->
      exists m, m ∈ mappings v /\ covers m p /\ backing m p = b /\
        ~ sl region <= p <= sr region /\ ~ p < sl region <= vend m).
Proof.
  intros Hw Hfo Hr. pose proof (costs_le region (mappings v)).
  pose proof (unmap_loop_ends (2 * length (mappings v) + 1) region v [] (mappings v) Hw Hfo eq_refl ltac:(lia)) as H0.
  fold (unmap v region) in H0. destruct (unmap v region) as [v'| | |]; cbn [ends] in *; try done.
  intros p b. cbn [app] in H0. rewrite H0, maps_flat_map. apply exist_proper. intros m.
  split; intros [Hm Hx]; (split; [done|]); apply remains_maps; try done.
  all: destruct Hw as [Hw _]; rewrite Forall_forall in Hw, Hfo; auto.
Qed.

(** What [protect] makes of one mapping. *)
Definition protects (region : Segment) (pm : Z) (m : PageMapping) : list PageMapping :=
  let ovlp := seg_and (vsegment m) region in
  if seg_bool ovlp then splitChild m ovlp pm :: right_rest m ovlp else [m].

Lemma protects_right m region pm :
  wfm m -> let ovlp := seg_and (vsegment m) region in sl ovlp <= sr ovlp ->
  flat_map (protects region pm) (right_rest m ovlp) = right_rest m ovlp.
Proof.
  intros Hm ovlp Ho. pose proof (ovlp_bounds m region) as (B1 & B2 & B3 & B4 & B5).
  fold ovlp in B1, B2, B3, B4, B5. clearbody ovlp.
  pose proof (fun x => right_rest_in m ovlp x Hm ltac:(lia)) as H. unfold right_rest in *.
  destruct (Z.leb_spec (sr ovlp + 1) (vend m)); [|done].
  destruct (H _ (list_elem_of_here _ _)) as (_ & H1 & H2 & _). cbn [flat_map app]. unfold protects, seg_bool.
  pose proof (ovlp_bounds (splitChild m (mkSegment (sr ovlp + 1) (vend m)) 0) region) as (C1 & C2 & C3 & C4 & C5).
  by destruct (Z.leb_spec (sl (seg_and (vsegment (splitChild m (mkSegment (sr ovlp + 1) (vend m)) 0)) region))
    (sr (seg_and (vsegment (splitChild m (mkSegment (sr ovlp + 1) (vend m)) 0)) region))); [lia|].
Qed.

(** The list after the overlapped mapping has been replaced. *)
Lemma protect_turn pre m post region pm :
  let ovlp := seg_and (vsegment m) region in
  wfl (pre ++ m :: post) -> sl ovlp <= sr ovlp -> wfo m ->
  wfo (splitChild m ovlp pm) /\ 0 <= len (splitChild m ovlp pm) /\
  wfl (pre ++ splitChild m ovlp pm :: right_rest m ovlp ++ post) /\
  set_insert (splitChild m ovlp pm) (pre ++ right_rest m ovlp ++ post) =
    pre ++ splitChild m ovlp pm :: right_rest m ovlp ++ post.
Proof.
  intros ovlp Hw Ho Hom. pose proof (ovlp_bounds m region) as (B1 & B2 & B3 & _). fold ovlp in B1, B2, B3.
  clearbody ovlp. assert (Hm : wfm m) by (apply wfl_app in Hw as (_ & [Hf' _] & _); by inversion Hf').
  destruct (splitChild_facts m ovlp pm) as (Hc & F1 & F2 & _); [done..|].
  pose proof (vend_wf _ Hc) as Ec. pose proof (vend_wf m Hm) as Ev. pose proof Hc as (C1 & C2 & C3).
  destruct Hm as (M1 & M2 & M3). pose proof (vlen_bound (vlen:=vlen) (vmo m)). pose proof Hom as [O1 O2].
  assert (Hin : forall x, x ∈ right_rest m ovlp -> wfm x /\ vpn x = sr ovlp + 1 /\ vend x = vend m /\ vpn m < vpn x).
  { intros x. apply right_rest_in; [done|lia]. }
  split. { unfold wfo. change (vmo (splitChild m ovlp pm)) with (vmo m).
    change (offset (splitChild m ovlp pm)) with (u64 (offset m + sl ovlp - vpn m)). rewrite u64_small; lia. }
  split; [lia|]. split.
  - apply (wfl_replace pre m post (_ :: _)); [done| |].
    + apply (wfl_app [_]). split; [by apply wfl_single|]. split; [apply right_rest_wfl; [done|lia]|].
      intros a b ->%list_elem_of_singleton Hb. unfold apart. destruct (Hin b Hb) as (_ & ? & _). lia.
    + intros x [->|Hx]%elem_of_cons; [lia|]. destruct (Hin x Hx) as (?&?&?&?). lia.
  - apply set_insert_between; rewrite F1.
    + intros y Hy. assert (vpn y < vpn m) by (by eapply wfl_vpn). lia.
    + intros y [Hy|Hy]%elem_of_app; [destruct (Hin y Hy) as (_ & ? & _); lia|].
      assert (vend m < vpn y) by (by eapply wfl_vpn). lia.
Qed.

Lemma protect_loop_ends fuel region pm v pre rest :
  wfl (pre ++ rest) -> Forall wfo rest -> mappings v = pre ++ rest -> (costs region rest <= fuel)%nat ->
  ends (protect_loop fuel v region pm (head rest))
    (fun v' => mappings v' = pre ++ flat_map (protects region pm) rest).
Proof.
  revert v pre rest. induction fuel as [|fuel IH]; intros v pre rest Hw Hfo Hv Hf;
    (destruct rest as [|m post]; [done|]); cbn [head protect_loop].
  { revert Hf. cbn. unfold cost. case_match; lia. }
  cbn [flat_map]. unfold protects at 1, seg_bool.
  pose proof (ovlp_bounds m region) as (B1 & B2 & _). pose proof (overlap_turn pre m post region) as T.
  pose proof (protect_turn pre m post region pm) as T2. pose proof (protects_right m region pm) as T3.
  cbn zeta in T, T2, T3. set (ovlp := seg_and (vsegment m) region) in *.
  assert (Hom : wfo m) by (by inversion Hfo).
  assert (Hm : wfm m) by (apply wfl_app in Hw as (_ & [Hf' _] & _); by inversion Hf').
  destruct (Z.leb_spec (sl ovlp) (sr ovlp)) as [Ho|Ho].
  - destruct T as (_ & Hfo2 & D1 & D2 & _ & Hc); [done..|]. destruct T2 as (N1 & N2 & N3 & N4); [done..|].
    eapply ends_bind; [apply remove_ends|]. cbn beta. intros v1 _ E1. rewrite Hv in E1.
    eapply ends_bind; [eapply left_ends; [done..|lia]|]. cbn beta. intros v2 _ E2. rewrite E1 in E2.
    eapply ends_bind; [eapply right_ends; [done..|lia|lia]|]. cbn beta. intros v3 _ E3.
    unfold erase. rewrite E3, D1. cbn [mappings]. rewrite D2.
    eapply ends_bind; [apply (map_ends _ _ N1 N2)|]. cbn beta. cbn [mappings]. rewrite N4. intros v5 _ E5.
    specialize (IH v5 (pre ++ [splitChild m ovlp pm]) (right_rest m ovlp ++ post)).
    rewrite flat_map_app, T3, <- !app_assoc in IH by done. cbn [app] in *. apply IH; [done..|lia].
  - destruct (erase_at pre m post Hw []) as (_ & _ & D3); [set_solver|]. rewrite Hv, D3.
    specialize (IH v (pre ++ [m]) post). rewrite <- !app_assoc in IH. apply IH; [done| |done|].
    + by inversion Hfo.
    + revert Hf. cbn. unfold costs, cost. case_match; lia.
Qed.

Lemma protects_maps m region pm p o k q :
  wfm m -> wfo m -> sl region <= sr region -> pm <> 0 ->
  maps (protects region pm m) p (o, k, q) <->
  covers m p /\ vmo m = o /\ offset m + (p - vpn m) = k /\ ~ p < sl region <= vend m /\
  q = (if decide (sl region <= p <= sr region) then pm else perm m).
Proof.
  intros Hm Ho Hr Hq.
  transitivity (maps (if seg_bool (seg_and (vsegment m) region)
    then [splitChild m (seg_and (vsegment m) region) pm] else []) p (o, k, q) \/
    maps (remains region m) p (o, k, q)).
  - unfold protects. rewrite remains_eq. change (sl (seg_and (vsegment m) region) <=? sr (seg_and (vsegment m) region))
      with (seg_bool (seg_and (vsegment m) region)). unfold maps. case_match; set_solver.
  - rewrite remains_maps by done. pose proof (ovlp_bounds m region) as (B1 & B2 & B3 & B4 & B5).
    set (ovlp := seg_and (vsegment m) region) in *. clearbody ovlp. unfold seg_bool, maps.
    assert (Hbk : backing m p = (o, k, q) <-> vmo m = o /\ offset m + (p - vpn m) = k /\ q = perm m).
    { unfold backing. split; [intros [=]; auto|by intros (-> & -> & ->)]. }
    rewrite Hbk. pose proof (vend_wf m Hm). unfold covers.
    destruct (Z.leb_spec (sl ovlp) (sr ovlp)).
    + destruct (splitChild_facts m ovlp pm) as (_ & F1 & F2 & F3); [done..|].
      assert (Hs : (exists x, x ∈ [splitChild m ovlp pm] /\ vpn x <= p <= vend x /\ backing x p = (o, k, q)) <->
        sl ovlp <= p <= sr ovlp /\ vmo m = o /\ offset m + (p - vpn m) = k /\ q = pm).
      { destruct (Z.eqb_spec pm 0); [done|]. split.
        - intros (x & ->%list_elem_of_singleton & Hx & Hb). rewrite F3 in Hb. rewrite F1, F2 in Hx.
          injection Hb as <- <- <-. done.
        - intros (Hx & <- & <- & ->). eexists. split; [by apply list_elem_of_singleton|]. rewrite F1, F2. by rewrite F3. }
      rewrite Hs. case_decide; split; intros; intuition (lia || congruence).
    + assert (Hn : (exists x, x ∈ @nil PageMapping /\ vpn x <= p <= vend x /\ backing x p = (o, k, q)) <-> False).
      { split; [intros (x & Hx & _); by apply not_elem_of_nil in Hx|done]. }
      rewrite Hn. case_decide; split; intros; intuition lia.
Qed.

(** The list of mappings under protect (the page table is not described, see
    mprotect_reaches_object). Changing the protection of a region always stops; when it
    ends without a failure the pages of the region that were mapped have the new permissions and the pages
    outside keep theirs, every one with the same page of the same VMO behind
    it, except those before the region in a mapping that reaches into it:
    these are no longer mapped. *)
Theorem protect_exact v region pm :
  wfl (mappings v) -> Forall wfo (mappings v) -> sl region <= sr region -> pm <> 0 ->
  ends (protect v region pm) (fun v' =>
    forall p o k q, maps (mappings v') p (o, k, q) <->
      exists m, m ∈ mappings v /\ covers m p /\ vmo m = o /\ offset m + (p - vpn m) = k /\
        ~ p < sl region <= vend m /\ q = (if decide (sl region <= p <= sr region) then pm else perm m)).
Proof.
  intros Hw Hfo Hr Hq. pose proof (costs_le region (mappings v)).
  pose proof (protect_loop_ends (2 * length (mappings v) + 1) region pm v [] (mappings v) Hw Hfo eq_refl ltac:(lia)) as H0.
  fold (protect v region pm) in H0. destruct (protect v region pm) as [v'| | |]; cbn [ends] in *; try done.
  intros p o k q. cbn [app] in H0. rewrite H0, maps_flat_map. apply exist_proper. intros m.
  split; intros [Hm Hx]; (split; [done|]); apply protects_maps; try done.
  all: destruct Hw as [Hw _]; rewrite Forall_forall in Hw, Hfo; auto.
Qed.

(** The loop of reset. *)
Lemma reset_loop_ends fuel v pre rest :
  wfl (pre ++ rest) -> mappings v = pre ++ rest -> (length rest <= fuel)%nat ->
  ends (reset_loop fuel v (head rest))
    (fun v' => mappings v' = pre ++ filter (fun m => mapping m = system) rest).
Proof.
  revert v pre rest. induction fuel as [|fuel IH]; intros v pre rest Hw Hv Hf;
    (destruct rest as [|m post]; [done|]); cbn [head reset_loop]; [cbn in Hf; lia|].
  destruct (erase_at pre m post Hw []) as (D1 & D2 & D3); [set_solver|]. cbn [app] in D1, D2.
  rewrite filter_cons. case_decide.
  - rewrite Hv, D3. specialize (IH v (pre ++ [m]) post). rewrite <- !app_assoc in IH.
    apply IH; [done..|cbn in Hf; lia].
  - eapply ends_bind; [apply remove_ends|]. cbn beta. intros v1 _ E1. rewrite Hv in E1.
    unfold erase. rewrite E1, D1. cbn [mappings]. rewrite D2.
    apply (IH (mkVMAR (pre ++ post) (root v1) (pt v1)) pre post); [|done|cbn in Hf; lia].
    apply (wfl_replace pre m post []); [done|split; constructor|set_solver].
Qed.

(** VMAR::reset always stops and leaves exactly the system mappings, in
    their order. *)
Theorem reset_exact v :
  wfl (mappings v) ->
  ends (reset v) (fun v' => mappings v' = filter (fun m => mapping m = system) (mappings v)).
Proof. intros Hw. apply (reset_loop_ends _ v [] (mappings v)); [done..|lia]. Qed.

End Loops.

(** On a non-empty address space whose mappings do not overlap,
    VMAR::find answers with the one mapping that holds the address, and with
    the end iterator when there is none; VMAR::contains agrees with it. *)
Theorem find_correct l addr :
  wfl l -> l <> [] ->
  exists r, find l addr = Done r /\ (forall m, r = Some m <-> m ∈ l /\ covers m (addr2pn addr)) /\
    contains l addr = bool_decide (is_Some r).
Proof.
  intros Hw Hl. set (p := addr2pn addr).
  assert (Hc : forall m, m_contains m addr = true <-> covers m p).
  { intros m. unfold m_contains, covers. rewrite andb_true_iff, !Z.leb_le. done. }
  assert (Hr : exists r, find l addr = Done r /\ (forall m, r = Some m <-> m ∈ l /\ covers m p)).
  { destruct (Exists_dec (fun m => m_contains m addr = true) l) as [(m & Hm & Ec)%Exists_exists|Hno'%Forall_Exists_neg].
    - apply list_elem_of_split in Hm as (pre & post & ->). pose proof (proj1 (Hc m) Ec) as Hp. unfold covers in Hp.
      exists (Some m). unfold find. fold p. rewrite filter_app, filter_cons, decide_True by lia.
      rewrite (filter_none _ post).
      2:{ intros x Hx. assert (vend m < vpn x) by (by eapply wfl_vpn). lia. }
      rewrite filter_all. 2:{ intros x Hx. assert (vpn x < vpn m) by (by eapply wfl_vpn). lia. }
      rewrite last_snoc, Ec. split; [done|]. intros m'. split.
      + intros [=<-]. split; [set_solver|done].
      + intros [[Hm'|[->|Hm']%elem_of_cons]%elem_of_app Hp']; [|done|].
        * apply wfl_app in Hw as (_ & _ & Ha). pose proof (Ha m' m Hm' ltac:(set_solver)) as Hap.
          unfold apart, covers in *. lia.
        * assert (vend m < vpn m') by (by eapply wfl_vpn). unfold covers in *. lia.
    - rewrite Forall_forall in Hno'.
      assert (Hno : ~ exists m, m ∈ l /\ m_contains m addr = true) by (intros (m & Hm & Ec); by apply (Hno' m)).
      exists None. split.
      + unfold find. fold p. destruct (last (filter (fun x => vpn x <= p) l)) as [m|] eqn:El.
        * apply last_Some_elem_of, list_elem_of_filter in El as [_ Hm].
          destruct (m_contains m addr) eqn:Ec; [|done]. destruct Hno. by exists m.
        * destruct l as [|m l]; [done|]. destruct (m_contains m addr) eqn:Ec; [|done].
          destruct Hno. exists m. set_solver.
      + intros m. split; [done|]. intros [Hm Hp%Hc]. destruct Hno. by exists m. }
  destruct Hr as (r & Er & Hr). exists r. split; [done|]. split; [done|].
  unfold contains. apply eq_true_iff_eq. rewrite existsb_exists, bool_decide_eq_true. unfold is_Some.
  setoid_rewrite Hr. setoid_rewrite Hc. setoid_rewrite list_elem_of_In. done.
Qed.

End Space.
Arguments VMAR A : clear implicits.
Arguments mkVMAR {A} _ _ _.
Arguments mkProc {A} _ _ _.

(** ** Unmapping part of a mapping *)

(** Six pages of a contiguous VMO mapped at page 100. *)
Definition ex_m : PageMapping := mkMapping 100 6 0 1 31 anon privt.
Definition ex_vreq (a : Buddy.Buddy.PageMgr) (o k : Z) : outcome (Z * Z * Z * Buddy.Buddy.PageMgr) :=
  cont_req 5000 6 a k.
Definition ex_proc : outcome (Proc (A:=Buddy.Buddy.PageMgr)) :=
  let* v := map Buddy.Buddy.alloc ex_vreq (mkVMAR [] 50 (mkPT (<[50 := replicate 512 0]> ∅) PageAlloc.ex_s)) ex_m false in
  Done (mkProc v 0 0).
Definition ex_unmapped : outcome (Z * Proc) :=
  let* p := ex_proc in munmap Buddy.Buddy.alloc Buddy.Buddy.free ex_vreq p (pn2addr 103) (2 * pageSize).


(** mprotect of page 103 alone, to read only, in the same process. *)
Definition ex_protected : outcome (Z * Proc) :=
  let* p := ex_proc in mprotect Buddy.Buddy.alloc Buddy.Buddy.free ex_vreq p (pn2addr 103) pageSize 1.
(** The permissions of pages 100 to 105 in the page table. *)
Definition ex_perms (p : Proc (A:=Buddy.Buddy.PageMgr)) : list (option Z) :=
  (fun v => snd <$> PtMap.walk 2 (pmem (pt (vmar p))) 50 v) <$> [100; 101; 102; 103; 104; 105].


(** ** Witnesses *)

(** A counter as allocator, and one contiguous VMO of six pages. *)
Definition bump (a n : Z) : outcome (Z * Z) := Done (a, a + n).
Definition keep (a p o : Z) : outcome Z := Done a.
Definition six (a o k : Z) : outcome (Z * Z * Z * Z) := cont_req 5000 6 a k.
#[local] Instance six_source : VmoSource bump keep six (fun _ => 6).
Proof. split; cbn; try done. intros. lia. Qed.
Definition ex_v : VMAR Z :=
  mkVMAR [mkMapping 90 5 0 1 31 system privt; ex_m; mkMapping 200 2 4 1 31 anon privt] 50
    (mkPT (<[50 := replicate 512 0]> ∅) 1000).
Lemma ex_wfl : wfl (mappings ex_v).
Proof.
  split; [repeat apply Forall_cons_2; try apply Forall_nil_2; unfold wfm; cbn; lia|].
  repeat constructor; unfold apart; vm_compute; done.
Qed.
Lemma ex_wfo : Forall (wfo (fun _ => 6)) (mappings ex_v).
Proof. repeat apply Forall_cons_2; try apply Forall_nil_2; unfold wfo; cbn; lia. Qed.

Lemma unmap_exact_witness :
  (exists v', unmap bump keep six ex_v (mkSegment 103 104) = Done v') /\
  ends (unmap bump keep six ex_v (mkSegment 103 104)) (fun v' =>
    forall p b, maps (mappings v') p b <->
      exists m, m ∈ mappings ex_v /\ covers m p /\ backing m p = b /\
        ~ 103 <= p <= 104 /\ ~ p < 103 <= vend m).
Proof.
  split; [eexists; vm_compute; reflexivity|]. apply (unmap_exact bump keep six (fun _ => 6) ex_v (mkSegment 103 104) ex_wfl ex_wfo). cbn. lia. Defined.

Lemma protect_exact_witness :
  (exists v', protect bump keep six ex_v (mkSegment 93 101) 19 = Done v') /\
  ends (protect bump keep six ex_v (mkSegment 93 101) 19) (fun v' =>
    forall p o k q, maps (mappings v') p (o, k, q) <->
      exists m, m ∈ mappings ex_v /\ covers m p /\ vmo m = o /\ offset m + (p - vpn m) = k /\
        ~ p < 93 <= vend m /\ q = (if decide (93 <= p <= 101) then 19 else perm m)).
Proof.
  split; [eexists; vm_compute; reflexivity|].
  apply (protect_exact bump keep six (fun _ => 6) ex_v (mkSegment 93 101) 19 ex_wfl ex_wfo); cbn; lia.
Defined.

Lemma reset_exact_witness :
  (exists v', reset keep ex_v = Done v') /\
  ends (reset keep ex_v) (fun v' => mappings v' = [mkMapping 90 5 0 1 31 system privt]).
Proof.
  split; [eexists; vm_compute; reflexivity|]. exact (reset_exact bump keep six (fun _ => 6) ex_v ex_wfl). Defined.

Lemma find_correct_witness :
  exists r, find (mappings ex_v) 409600 = Done r /\
    (forall m, r = Some m <-> m ∈ mappings ex_v /\ covers m (addr2pn 409600)) /\
    contains (mappings ex_v) 409600 = bool_decide (is_Some r).
Proof. apply (find_correct (mappings ex_v) 409600 ex_wfl). done. Defined.

End Vmar.
