(* ===== verification/Boot.v ===== *)
(** * Boot: the kernel's address space (kernel/kernel.cc, include/kernel.hh)

    memInit makes a contiguous memory object for every segment of the kernel and maps
    all of them at their own addresses before it switches on translation;
    createKernelMapping enters the image of the kernel into every address space. The
    page tables are those of [PageTable], the mapping operation that of [Vmar]. *)

From S2P Require Import Prelude Klib PageTable PtMap Buddy PageAlloc Vmar.
Local Open Scope Z_scope.

Module Boot.
Import PageTable PtMap Vmar.

(** vm::segment_t; the end of a segment is the address behind it. *)
Record segment_t : Type := mkSeg { first : Z; second : Z }.
Record KSegments : Type := mkSegs {
  dev : segment_t; text : segment_t; rodata : segment_t; data : segment_t; vdso : segment_t;
  kstack : segment_t; bss : segment_t; frames : segment_t; ramdisk : segment_t }.

(** The page counts of memInit: [ed-st+1] for the image, the size for the rest. *)
Definition image_pages (s : segment_t) : Z := u64 (addr2pn (second s) - addr2pn (first s) + 1).
Definition size_pages (s : segment_t) : Z := addr2pn (u64 (second s - first s + 1)).

(** kInfo.vmos: the memory objects have the numbers 0 to 8; each is its first frame and
    its number of pages. *)
Definition vmos (k : KSegments) : list (Z * Z) :=
  let image s := (addr2pn (first s), image_pages s) in
  let area s := (addr2pn (first s), size_pages s) in
  [image (text k); image (rodata k); image (kstack k); image (data k); image (vdso k); image (bss k);
   area (dev k); area (frames k); area (ramdisk k)].
(** VMO::req of these objects. *)
Definition kreq {A : Type} (k : KSegments) (a : A) (o i : Z) : outcome (Z * Z * Z * A) :=
  let* (ppn, pages) := aget (vmos k) o in cont_req ppn pages a i.

(** PageTableEntry::fieldMasks. *)
Definition perm_v : Z := 1.
Definition perm_r : Z := 2.
Definition perm_w : Z := 4.
Definition perm_x : Z := 8.
Definition perm_u : Z := 16.
Definition rx : Z := Z.lor (Z.lor perm_v perm_r) perm_x.
Definition ro : Z := Z.lor perm_v perm_r.
Definition rw : Z := Z.lor (Z.lor perm_v perm_r) perm_w.

Definition image_mapping (s : segment_t) (o pm : Z) : PageMapping :=
  mkMapping (addr2pn (first s)) (image_pages s) 0 o pm system shared.
Definition area_mapping (s : segment_t) (o : Z) : PageMapping :=
  mkMapping (addr2pn (first s)) (size_pages s) 0 o rw anon privt.

Section Boot.
Context {A : Type} (palloc : A -> Z -> outcome (Z * A)).

Fixpoint map_all (k : KSegments) (ms : list PageMapping) (v : VMAR A) : outcome (VMAR A) :=
  match ms with
  | [] => Done v
  | m :: ms => let* v := map palloc (kreq k) v m false in map_all k ms v
  end.

(** kernel::createKernelMapping. *)
Definition kernel_mappings (k : KSegments) : list PageMapping :=
  [image_mapping (text k) 0 rx; image_mapping (rodata k) 1 ro; image_mapping (kstack k) 2 rw;
   image_mapping (data k) 3 rw; image_mapping (bss k) 5 rw].
Definition createKernelMapping (k : KSegments) (v : VMAR A) : outcome (VMAR A) :=
  map_all k (kernel_mappings k) v.

(** memInit, from the empty address space with the static root table; the result goes
    with the value for satp (mode 8). *)
Definition area_mappings (k : KSegments) : list PageMapping :=
  [area_mapping (dev k) 6; area_mapping (frames k) 7; area_mapping (ramdisk k) 8].
Definition satp_value (ppn asid mode : Z) : Z :=
  Z.lor (Z.lor (ppn mod 2 ^ 44) (Z.shiftl (asid mod 2 ^ 16) 44)) (Z.shiftl (mode mod 16) 60).
Definition memInit (k : KSegments) (root : Z) (s : PT A) : outcome (Z * VMAR A) :=
  let* v := createKernelMapping k (mkVMAR [] root s) in
  let* v := map_all k (area_mappings k) v in
  Done (satp_value root 0 8, v).

(** The address space of a new process: the kernel and the page of the vDSO. *)
Definition vDSOBase : Z := 150994944.
Definition vdso_mapping : PageMapping :=
  mkMapping (addr2pn vDSOBase) 1 0 4 (Z.lor rx perm_u) system shared.
Definition Process_vmar (k : KSegments) (root : Z) (s : PT A) : outcome (VMAR A) :=
  let* v := createKernelMapping k (mkVMAR [] root s) in
  map palloc (kreq k) v vdso_mapping false.
End Boot.

(** ** Pages under one leaf *)

Lemma big_coarser l lv v w : (lv <= l)%nat -> v / big lv = w / big lv -> v / big l = w / big l.
Proof.
  intros Hl E. assert (big l = big lv * 2 ^ (9 * (Z.of_nat l - Z.of_nat lv))) as ->.
  { unfold big. rewrite <- Z.pow_add_r by lia. f_equal. lia. }
  pose proof (big_pos lv). pose proof (Z.pow_pos_nonneg 2 (9 * (Z.of_nat l - Z.of_nat lv)) ltac:(lia) ltac:(lia)).
  rewrite <- !Z.div_div by lia. by rewrite E.
Qed.
Lemma walk_leaf_block l m t v w lv p q :
  walk l m t v = Some (lv, p, q) -> v / big lv = w / big lv -> exists p', walk l m t w = Some (lv, p', q).
Proof.
  revert t. induction l as [|l IH]; intros t H E; pose proof (walk_level _ _ _ _ _ _ _ H) as Hl;
    pose proof (big_coarser _ _ _ _ Hl E) as Eb; cbn [walk] in H |- *;
    (destruct (m !! t) as [es|]; [|done]); unfold idx in H |- *; rewrite Eb in H;
    (destruct (es !! _) as [e|]; [|done]); (destruct (isValid e); [|done]); destruct (isLeaf e);
    try (injection H as <- <- <-; by eexists); try done.
  by apply IH.
Qed.

(** ** Mapping ranges at their own addresses *)

Section Identity.
Context {A : Type} (palloc : A -> Z -> outcome (Z * A)) (avail : A -> Z -> Prop) (okA : A -> Prop).
Context `{PA : !PageAlloc.PageAllocator palloc avail okA}.
Implicit Types (m : PageMapping) (ms : list PageMapping) (s : PT A) (v : VMAR A).

Definition covered m (p : Z) : Prop := vpn m <= p < vpn m + len m.
#[global] Instance covered_dec m p : Decision (covered m p).
Proof. unfold covered. apply _. Defined.
Definition disjoint m m' : Prop := forall p, covered m p -> ~ covered m' p.

(** A mapping of the frames with the numbers of its pages. *)
Record identical (k : KSegments) m : Prop := mkIdentical {
  id_len : 0 < len m;
  id_off : offset m = 0;
  id_low : 0 <= vpn m;
  id_high : vpn m + len m <= 2 ^ 27;
  id_perm : leaf_perm (perm m);
  id_obj : 0 <= vmo m /\ vmos k !! Z.to_nat (vmo m) = Some (vpn m, len m) }.

(** The page table translates exactly the pages of [ms], each to itself, with the
    permissions of its mapping. *)
Definition table_is s root ms : Prop :=
  forall p, 0 <= p < 2 ^ 27 ->
    (forall m, m ∈ ms -> covered m p -> exists lv, walk 2 (pmem s) root p = Some (lv, p, perm m)) /\
    (Forall (fun m => ~ covered m p) ms -> walk 2 (pmem s) root p = None).

Lemma map_identical k v m :
  identical k m ->
  map palloc (kreq k) v m false =
    let* s := createMapping palloc 2 (pt v) (root v) (vpn m) (vpn m) (len m) (perm m) in
    Done (mkVMAR (set_insert m (mappings v)) (root v) s).
Proof.
  intros [Hl Ho H0 H1 _ [Hv Hk]]. unfold map. cbn [map_loop].
  destruct (Z.ltb_spec 0 (len m)); [|lia]. unfold m_req, kreq, aget.
  destruct (Z.ltb_spec (vmo m) 0); [lia|]. rewrite Hk. cbn [obind cont_req]. rewrite Ho, Z.sub_diag.
  change (u64 0) with 0. rewrite Z.add_0_r, (u64_small (vpn m)) by lia. destruct (pt v) as [pm pg]. cbn [pmem pmgr].
  destruct (createMapping _ _ _ _ _ _ _ _) as [s'| | |]; cbn [obind]; [|done..].
  rewrite Z.add_0_l, u64_small by lia.
  destruct (Z.to_nat (len m)); cbn [map_loop]; (destruct (Z.ltb_spec (len m) (len m)); [lia|done]).
Qed.

Lemma big3 : big 3 = 2 ^ 27.
Proof. done. Qed.

(** A range apart from all mapped ones does not cut a leaf. *)
Lemma disjoint_no_straddle s root ms m :
  table_is s root ms -> 0 <= vpn m -> 0 < len m -> vpn m + len m <= 2 ^ 27 ->
  Forall (disjoint m) ms -> no_straddle 2 (pmem s) root (vpn m) (len m).
Proof.
  intros HT H0 Hl H1 Hd v lv p q Ev W. rewrite big3, (Z.div_small (vpn m)) in Ev by lia.
  assert (0 <= v < 2 ^ 27) as Hv.
  { apply Z.div_small_iff in Ev; lia. }
  pose proof (walk_level _ _ _ _ _ _ _ W) as Hlv. pose proof (big_pos lv) as Hb.
  destruct (leaf_block 3 lv v 0 ltac:(lia) Ev) as [B1 B2]. rewrite big3 in B1, B2.
  set (b := v - v mod big lv) in *. unfold clear. fold b.
  assert (forall w, b <= w < b + big lv -> ~ covered m w) as Hout.
  { intros w Hw Hm. assert (v / big lv = w / big lv) as Eq.
    { apply (Z.div_unique_pos w (big lv) (v / big lv) (w - b)); [lia|].
      pose proof (Z.div_mod v (big lv) ltac:(lia)). lia. }
    destruct (walk_leaf_block _ _ _ _ _ _ _ _ W Eq) as [p' Ww].
    destruct (HT w ltac:(lia)) as [_ Hn]. rewrite Ww in Hn.
    destruct (decide (Forall (fun m' => ~ covered m' w) ms)) as [Ha|Ha]; [by specialize (Hn Ha)|].
    apply not_Forall_Exists in Ha; [|intros x; destruct (decide (covered x w)); [right|left]; tauto].
    apply Exists_exists in Ha as (m' & Hin & Hc). rewrite Forall_forall in Hd.
    apply (Hd m' Hin w Hm). destruct (decide (covered m' w)); [done|by destruct Hc]. }
  destruct (decide (b + big lv <= vpn m)); [by left|]. destruct (decide (vpn m + len m <= b)); [by right; left|].
  exfalso. apply (Hout (Z.max b (vpn m))); unfold covered; lia.
Qed.

Lemma map_identity_step k v ms m :
  Own avail okA 2 (root v) (pt v) -> table_is (pt v) (root v) ms -> identical k m -> Forall (disjoint m) ms ->
  (map palloc (kreq k) v m false = Panic /\ few avail 6 (pt v)) \/
  exists v', map palloc (kreq k) v m false = Done v' /\ root v' = root v /\
    mappings v' = set_insert m (mappings v) /\ Ext avail okA 2 (root v) (pt v) (pt v') /\
    table_is (pt v') (root v) (m :: ms) /\ spends avail 6 (pt v) (pt v').
Proof.
  intros Hown HT Hi Hd. rewrite map_identical by done. destruct Hi as [Hl Ho H0 H1 Hp _].
  pose proof (disjoint_no_straddle _ _ _ _ HT H0 Hl H1 Hd) as Hns.
  destruct (createMapping_CM palloc avail okA 2 (pt v) (root v) (vpn m) (vpn m) (len m) (perm m) Hown Hp H0)
    as [[-> Hoom]|(s' & -> & X & M & Sp)]; auto; try lia.
  { rewrite big3, Z.mod_small; lia. }
  right. eexists. split; [done|]. split; [done|]. split; [done|]. split; [done|]. cbn [pt]. split; [|exact Sp].
  intros p Hp'. destruct (M p) as [Hin Hout]. { rewrite big3, !Z.div_small; lia. }
  destruct (HT p Hp') as [T1 T2]. split.
  - intros x [->|Hx]%elem_of_cons Hc.
    + destruct (Hin Hc) as [lv E]. exists lv. rewrite E. do 3 f_equal. lia.
    + rewrite Hout; [by apply T1|]. intros Hm. rewrite Forall_forall in Hd. by apply (Hd x Hx p Hm).
  - intros [Hn Hf]%Forall_cons. rewrite Hout by done. by apply T2.
Qed.

(** A list of ranges, each apart from those before it and from [ms]. *)
Fixpoint all_apart (new ms : list PageMapping) : Prop :=
  match new with [] => True | m :: new => Forall (disjoint m) ms /\ all_apart new (m :: ms) end.

Lemma map_all_identity k new v ms :
  Own avail okA 2 (root v) (pt v) -> table_is (pt v) (root v) ms -> Forall (identical k) new ->
  all_apart new ms ->
  (map_all palloc k new v = Panic /\ few avail (6 * length new) (pt v)) \/
  exists v', map_all palloc k new v = Done v' /\ root v' = root v /\
    mappings v' = foldl (fun l m => set_insert m l) (mappings v) new /\
    Ext avail okA 2 (root v) (pt v) (pt v') /\ table_is (pt v') (root v) (rev new ++ ms) /\
    spends avail (6 * length new) (pt v) (pt v').
Proof.
  revert v ms. induction new as [|m new IH]; intros v ms Hown HT Hi Ha; cbn [map_all].
  - right. exists v. split_and!; try done; [by apply Ext_refl|by apply spends_refl].
  - apply Forall_cons in Hi as [Hm Hi]. destruct Ha as [Hd Ha].
    destruct (map_identity_step k v ms m Hown HT Hm Hd) as [[-> Ho]|(v1 & -> & Er & Em & X & T1 & Sp1)].
    { left. split; [done|]. revert Ho. apply few_le. cbn [length]. lia. }
    cbn [obind]. rewrite <- Er in T1. replace (6 * length (m :: new))%nat with (6 + 6 * length new)%nat by (cbn [length]; lia).
    destruct (IH v1 (m :: ms)) as [[-> Ho]|(v2 & -> & Er2 & Em2 & X2 & T2 & Sp2)]; [rewrite Er; apply X|done..| |].
    + left. split; [done|]. by eapply (spends_few _ 6).
    + right. exists v2. rewrite Er in Er2, X2, T2. split_and!; try done.
      * by rewrite Em2, Em.
      * by eapply Ext_trans.
      * cbn [rev]. by rewrite <- app_assoc.
      * by eapply (spends_trans _ 6).
Qed.

(** ** The layout of the kernel *)

Definition seg_ok (s : segment_t) : Prop := 0 <= first s /\ first s <= second s /\ second s < 2 ^ 39.
Definition area_ok (s : segment_t) : Prop := 0 <= first s /\ first s + 4095 <= second s /\ second s < 2 ^ 39 - 1.
(** The segments lie in the lower 512 GiB and no two share a page. *)
Record layout_ok (k : KSegments) : Prop := mkLayout {
  lo_image : Forall seg_ok [text k; rodata k; kstack k; data k; bss k];
  lo_area : Forall area_ok [dev k; frames k; ramdisk k];
  lo_apart : all_apart (kernel_mappings k ++ area_mappings k) [] }.

Lemma pn_div a : addr2pn a = a / 4096.
Proof. unfold addr2pn. by rewrite Z.shiftr_div_pow2 by lia. Qed.
Lemma image_identical k (s : segment_t) o q :
  seg_ok s -> 0 <= o -> vmos k !! Z.to_nat o = Some (addr2pn (first s), image_pages s) -> leaf_perm q ->
  identical k (image_mapping s o q).
Proof.
  intros (H0 & H1 & H2) Ho Hk Hq. unfold image_mapping, image_pages in *.
  rewrite !pn_div in *. pose proof (Z.div_le_mono (first s) (second s) 4096 ltac:(lia) H1).
  pose proof (Z.div_pos (first s) 4096 ltac:(lia) ltac:(lia)).
  assert (second s / 4096 < 2 ^ 27) by (apply Z.div_lt_upper_bound; lia).
  rewrite u64_small in * by lia. constructor; cbn; try done; lia.
Qed.
Lemma area_identical k (s : segment_t) o :
  area_ok s -> 0 <= o -> vmos k !! Z.to_nat o = Some (addr2pn (first s), size_pages s) ->
  identical k (area_mapping s o).
Proof.
  intros (H0 & H1 & H2) Ho Hk. unfold area_mapping, size_pages in *.
  rewrite u64_small in * by lia. rewrite !pn_div in *.
  pose proof (Z.div_pos (first s) 4096 ltac:(lia) ltac:(lia)).
  assert (1 <= (second s - first s + 1) / 4096) by (apply Z.div_le_lower_bound; lia).
  assert (first s / 4096 + (second s - first s + 1) / 4096 <= 2 ^ 27).
  { pose proof (Z.mul_div_le (first s) 4096 ltac:(lia)). pose proof (Z.mul_div_le (second s - first s + 1) 4096 ltac:(lia)). lia. }
  constructor; cbn; try done. lia.
Qed.
Lemma layout_identical k : layout_ok k -> Forall (identical k) (kernel_mappings k ++ area_mappings k).
Proof.
  intros [Hi Ha _]. repeat (apply Forall_cons in Hi as [? Hi]). repeat (apply Forall_cons in Ha as [? Ha]).
  do 5 (apply Forall_cons; split; [apply image_identical; [done|lia|reflexivity|done]|]).
  do 3 (apply Forall_cons; split; [apply area_identical; [done|lia|reflexivity]|]). constructor.
Qed.

(** C19. The kernel's address space at boot: with segments that share no page, memInit on an
    empty root table either panics, which happens only when fewer than 48 pages are free
    (six for each of the eight segments), or takes at most 48 pages and ends with a page table in which every page of every segment (image, stacks, devices, free
    frames, ram disk) is translated to itself with the permissions of the segment, no
    other page is translated, and no page is both writable and executable; the
    mappings entered are the eight segments, and the value for satp names the root. *)
Theorem kernel_space_exact k root0 (s : PT A) :
  layout_ok k -> Own avail okA 2 root0 s -> (forall p, walk 2 (pmem s) root0 p = None) ->
  (memInit palloc k root0 s = Panic /\ few avail 48 s) \/
  exists v, memInit palloc k root0 s = Done (satp_value root0 0 8, v) /\ root v = root0 /\
    mappings v = foldl (fun l m => set_insert m l) [] (kernel_mappings k ++ area_mappings k) /\
    Own avail okA 2 root0 (pt v) /\ spends avail 48 s (pt v) /\
    (forall p m, 0 <= p -> m ∈ kernel_mappings k ++ area_mappings k -> covered m p ->
       trans (pt v) root0 p = Done p /\ exists lv, walk 2 (pmem (pt v)) root0 p = Some (lv, p, perm m)) /\
    (forall p, 0 <= p < 2 ^ 27 -> Forall (fun m => ~ covered m p) (kernel_mappings k ++ area_mappings k) ->
       trans (pt v) root0 p = Panic) /\
    (forall p lv f q, 0 <= p < 2 ^ 27 -> walk 2 (pmem (pt v)) root0 p = Some (lv, f, q) ->
       ~ (Z.testbit q 2 = true /\ Z.testbit q 3 = true)).
Proof.
  intros HL Hown HW. pose proof (layout_identical k HL) as Hi. pose proof (lo_apart k HL) as Ha.
  unfold memInit, createKernelMapping.
  assert (forall v0, (let* v := map_all palloc k (kernel_mappings k) v0 in map_all palloc k (area_mappings k) v)
    = map_all palloc k (kernel_mappings k ++ area_mappings k) v0) as Eapp.
  { generalize (area_mappings k) as l2, (kernel_mappings k) as l1. intros l2 l1. induction l1 as [|m l1 IH]; intros v0; [done|].
    cbn [map_all app]. destruct (map _ _ v0 m false); cbn [obind]; [apply IH|done..]. }
  assert (table_is s root0 []) as HT0.
  { intros p _. split; [by intros m ?%elem_of_nil|intros _; apply HW]. }
  destruct (map_all_identity k (kernel_mappings k ++ area_mappings k) (mkVMAR [] root0 s) [] Hown HT0 Hi Ha)
    as [[E Ho]|(v & E & Er & Em & X & T & Sp)].
  - left. split; [|done]. rewrite <- Eapp in E.
    destruct (map_all palloc k (kernel_mappings k) _); cbn [obind] in *; [|done..]. by rewrite E.
  - right. exists v. cbn [root] in Er, X, T. rewrite app_nil_r in T.
    split. { rewrite <- Eapp in E. destruct (map_all palloc k (kernel_mappings k) _); cbn [obind] in *; [|done..]. by rewrite E. }
    assert (tree 2 (pmem (pt v)) root0) as Htr by apply X.
    split; [done|]. split; [done|]. split; [apply X|]. split; [exact Sp|]. split_and!.
    + intros p m Hp Hm Hc. assert (p < 2 ^ 27) as Hp'.
      { rewrite Forall_forall in Hi. destruct (Hi m Hm). unfold covered in Hc. lia. }
      destruct (T p ltac:(lia)) as [T1 _]. destruct (T1 m) as [lv W]; [by apply elem_of_reverse|done|].
      split; [|by exists lv]. rewrite trans_walk, W by done. by rewrite u64_small by lia.
    + intros p Hp Hn. destruct (T p Hp) as [_ T2]. rewrite trans_walk by (done || lia). rewrite T2; [done|].
      by apply Forall_reverse.
    + intros p lv f q Hp W [Hw Hx]. destruct (T p Hp) as [T1 T2].
      destruct (decide (Forall (fun m => ~ covered m p) (rev (kernel_mappings k ++ area_mappings k)))) as [Hn|Hn];
        [rewrite (T2 Hn) in W; done|].
      apply not_Forall_Exists in Hn; [|intros m; destruct (decide (covered m p)); [right|left]; tauto].
      apply Exists_exists in Hn as (m & Hin & Hc). destruct (decide (covered m p)) as [Hc'|]; [|by destruct Hc].
      destruct (T1 m Hin Hc') as [lv' W']. rewrite W in W'. injection W' as _ _ ->.
      apply elem_of_reverse in Hin. cbn in Hin. rewrite !elem_of_cons, elem_of_nil in Hin.
      destruct Hin as [->|[->|[->|[->|[->|[->|[->|[->|[]]]]]]]]]; done.
Qed.
End Identity.

(** The page count of the image takes the end of a segment for its last byte: when the
    end is at a page border, as that of the kernel stacks is, the page behind the
    segment, which the linker script leaves free as a guard, is mapped with it. *)
Theorem page_behind_segment_mapped (s : segment_t) o q :
  seg_ok s -> second s mod 4096 = 0 ->
  covered (image_mapping s o q) (second s / 4096) /\
  forall a, first s <= a < second s -> a / 4096 <> second s / 4096.
Proof.
  intros (H0 & H1 & H2) Hm. split.
  - unfold covered, image_mapping, image_pages. cbn [vpn len]. rewrite !pn_div.
    pose proof (Z.div_le_mono (first s) (second s) 4096 ltac:(lia) H1).
    pose proof (Z.div_pos (first s) 4096 ltac:(lia) ltac:(lia)).
    assert (second s / 4096 < 2 ^ 27) by (apply Z.div_lt_upper_bound; lia).
    rewrite u64_small by lia. lia.
  - intros a Ha E. pose proof (Z.div_mod a 4096 ltac:(lia)). pose proof (Z.div_mod (second s) 4096 ltac:(lia)).
    pose proof (Z.mod_pos_bound a 4096 ltac:(lia)). lia.
Qed.

(** ** A small kernel *)
Definition ex_segs : KSegments :=
  mkSegs (mkSeg 0 1073741824) (mkSeg 2149580800 2149586000) (mkSeg 2149588992 2149590000)
    (mkSeg 2149593088 2149593200) (mkSeg 2149593088 2149593200) (mkSeg 2149597184 2149601280)
    (mkSeg 2149609472 2149609999) (mkSeg 2149613568 2149625855) (mkSeg 2214592512 2216689664).
Lemma disjoint_ranges m m' :
  vpn m + len m <= vpn m' \/ vpn m' + len m' <= vpn m -> disjoint m m'.
Proof. unfold disjoint, covered. lia. Qed.
Lemma none_covers ms p :
  forallb (fun m => negb ((vpn m <=? p) && (p <? vpn m + len m))) ms = true -> Forall (fun m => ~ covered m p) ms.
Proof.
  rewrite forallb_forall, Forall_forall. intros H m Hm%list_elem_of_In%H. unfold covered.
  destruct (Z.leb_spec (vpn m) p), (Z.ltb_spec p (vpn m + len m)); try done; lia.
Qed.
Lemma ex_layout : layout_ok ex_segs.
Proof.
  constructor.
  - repeat (constructor; [unfold seg_ok; cbn; lia|]). constructor.
  - repeat (constructor; [unfold area_ok; cbn; lia|]). constructor.
  - repeat (split; [repeat (constructor; [apply disjoint_ranges; vm_compute;
      first [left; discriminate | right; discriminate]|]); constructor|]). done.
Qed.
Lemma kernel_space_exact_witness :
  exists v, memInit Buddy.Buddy.alloc ex_segs 50 ex_pt = Done (2 ^ 63 + 50, v) /\
    trans (pt v) 50 524800 = Done 524800 /\ trans (pt v) 50 524806 = Panic.
Proof.
  destruct (zeros_tree 2 (pmem ex_pt) 50) as (_ & _ & W0); [done|].
  destruct (kernel_space_exact (PA := PageAlloc.buddy_page_allocator) Buddy.Buddy.alloc (fun s p => PageAlloc.page_free s p = true) PageAlloc.pm_ok
    ex_segs 50 ex_pt ex_layout ex_own W0) as [[E _]|(v & E & _ & _ & _ & _ & Hin & Hout & _)].
  - exfalso. vm_compute in E. discriminate.
  - exists v. split; [exact E|]. split.
    + apply (Hin 524800 (image_mapping (text ex_segs) 0 rx)); [lia|by left|vm_compute; split; [discriminate|done]].
    + apply Hout; [lia|]. apply none_covers. vm_compute. reflexivity.
Defined.

End Boot.
