(* ===== verification/Cstring.v ===== *)
(** * Cstring: the memory and string routines of utils/klibc.cc

    A [const char *] that is only read is the list of bytes from the pointer
    to the end of its object, so that [*s] is the head, [s++] the tail and a
    read beyond the object is [Undef]. Routines that write work on a memory
    [list Z] and indices into it, since source and destination may overlap.
    [char] is unsigned on RISC-V. *)

From S2P Require Import Prelude.
Local Open Scope Z_scope.

Module Cstring.

(** ** Routines that read *)
Fixpoint strlen (s : list Z) : outcome Z :=
  match s with
  | [] => Undef
  | c :: s' => if c =? 0 then Done 0 else let* n := strlen s' in Done (1 + n)
  end.

Fixpoint strcmp (s1 s2 : list Z) : outcome Z :=
  match s1, s2 with
  | a :: s1', b :: s2' =>
      if a =? b then (if a =? 0 then Done 0 else strcmp s1' s2')
      else Done (if a <? b then -1 else 1)
  | _, _ => Undef
  end.

(** [cnt] counts the characters compared so far, from 1. *)
Fixpoint strncmp_loop (s1 s2 : list Z) (cnt n : Z) : outcome Z :=
  match s1, s2 with
  | a :: s1', b :: s2' =>
      if a =? b then (if (a =? 0) || (cnt =? n) then Done 0 else strncmp_loop s1' s2' (cnt + 1) n)
      else Done (if a <? b then -1 else 1)
  | _, _ => Undef
  end.
Definition strncmp (s1 s2 : list Z) (n : Z) : outcome Z :=
  if n =? 0 then Done 0 else strncmp_loop s1 s2 1 n.

(** Equal up to the case of ASCII letters, as [strncmpamb] writes it. *)
Definition ambeq (a b : Z) : bool :=
  (a =? b) || ((97 <=? a) && (a <=? 122) && (b - a =? 65 - 97))
           || ((65 <=? a) && (a <=? 90) && (a - b =? 65 - 97)).
Fixpoint strncmpamb_loop (s1 s2 : list Z) (cnt n : Z) : outcome Z :=
  match s1, s2 with
  | a :: s1', b :: s2' =>
      if ambeq a b then (if (a =? 0) || (cnt =? n) then Done 0 else strncmpamb_loop s1' s2' (cnt + 1) n)
      else Done (if a <? b then -1 else 1)
  | _, _ => Undef
  end.
Definition strncmpamb (s1 s2 : list Z) (n : Z) : outcome Z :=
  if n =? 0 then Done 0 else strncmpamb_loop s1 s2 1 n.

(** The index of the first [c] before the NUL. *)
Fixpoint strchr (s : list Z) (c : Z) : outcome (option Z) :=
  match s with
  | [] => Undef
  | a :: s' =>
      if a =? 0 then Done None
      else if a =? c then Done (Some 0)
      else let* r := strchr s' c in Done (Z.succ <$> r)
  end.

Fixpoint memcmp_loop (i j : list Z) (cnt n : Z) : outcome Z :=
  match i, j with
  | a :: i', b :: j' =>
      if a =? b then (if (a =? 0) || (n <=? cnt) then Done 0 else memcmp_loop i' j' (cnt + 1) n)
      else Done (if a <? b then -1 else 1)
  | _, _ => Undef
  end.
Definition memcmp (s1 s2 : list Z) (n : Z) : outcome Z :=
  if n =? 0 then Done 0 else memcmp_loop s1 s2 1 n.

Fixpoint memchr (src : list Z) (c : Z) (length : nat) : outcome (option Z) :=
  match length with
  | O => Done None
  | S len' =>
      match src with
      | [] => Undef
      | a :: src' =>
          if a =? u8 c then Done (Some 0)
          else let* r := memchr src' c len' in Done (Z.succ <$> r)
      end
  end.

(** ** Routines that write *)
Fixpoint memset_loop (k : nat) (mem : list Z) (p c : Z) : outcome (list Z) :=
  match k with
  | O => Done mem
  | S k' => let* mem' := aset mem p (u8 c) in memset_loop k' mem' (p + 1) c
  end.
Definition memset (mem : list Z) (s c n : Z) : outcome (list Z) :=
  memset_loop (Z.to_nat n) mem s c.

(** memmove copies from the last byte down to the first. *)
Fixpoint move_back (k : nat) (mem : list Z) (dst src : Z) : outcome (list Z) :=
  match k with
  | O => Done mem
  | S k' =>
      let* v := aget mem (src + Z.of_nat k') in
      let* mem' := aset mem (dst + Z.of_nat k') v in
      move_back k' mem' dst src
  end.
Definition memmove (mem : list Z) (dst src n : Z) : outcome (list Z) :=
  if n <=? 0 then Done mem else move_back (Z.to_nat n) mem dst src.

(** memcpy copies from the first byte up. *)
Fixpoint copy_fwd (k : nat) (mem : list Z) (out inp : Z) : outcome (list Z) :=
  match k with
  | O => Done mem
  | S k' =>
      let* v := aget mem inp in
      let* mem' := aset mem out v in
      copy_fwd k' mem' (out + 1) (inp + 1)
  end.
Definition memcpy (mem : list Z) (out inp n : Z) : outcome (list Z) :=
  copy_fwd (Z.to_nat n) mem out inp.

(** strcpy; the loop reads the memory it writes. [Diverge] when [fuel] steps
    are not enough. *)
Fixpoint strcpy_loop (fuel : nat) (mem : list Z) (j src : Z) : outcome (list Z) :=
  let* v := aget mem src in
  if v =? 0 then aset mem j 0
  else match fuel with
       | O => Diverge
       | S f => let* mem' := aset mem j v in strcpy_loop f mem' (j + 1) (src + 1)
       end.
Definition strcpy (mem : list Z) (dst src : Z) : outcome (list Z) :=
  strcpy_loop (length mem) mem dst src.

(** The scan for the end of the destination string. *)
Fixpoint str_end (fuel : nat) (mem : list Z) (j : Z) : outcome Z :=
  let* v := aget mem j in
  if v =? 0 then Done j
  else match fuel with O => Diverge | S f => str_end f mem (j + 1) end.
Definition strcat (mem : list Z) (dst src : Z) : outcome (list Z) :=
  let* j := str_end (length mem) mem dst in strcpy_loop (length mem) mem j src.

(** strncpy: [k] is [n-cnt]; the source stays at its NUL while zeros are
    written. *)
Fixpoint strncpy_loop (k : nat) (mem : list Z) (j src : Z) (ended : bool) : outcome (list Z) :=
  match k with
  | O => if ended then Done mem else let* _ := aget mem src in Done mem
  | S k' =>
      if ended then let* mem' := aset mem j 0 in strncpy_loop k' mem' (j + 1) src true
      else
        let* v := aget mem src in
        if v =? 0 then let* mem' := aset mem j 0 in strncpy_loop k' mem' (j + 1) src true
        else let* mem' := aset mem j v in strncpy_loop k' mem' (j + 1) (src + 1) false
  end.
Definition strncpy (mem : list Z) (dst src n : Z) : outcome (list Z) :=
  strncpy_loop (Z.to_nat n) mem dst src false.

(** snstr narrows 16-bit characters; [len] is consumed by both loops, the
    first one decrementing it once more when it stops. *)
Fixpoint snstr (dst : list Z) (j : Z) (src : list Z) (len : nat) : outcome (list Z) :=
  match len with
  | O => Done dst
  | S len' =>
      match src with
      | [] => Undef
      | w :: src' =>
          if w =? 0 then memset_loop len' dst j 0
          else let* dst' := aset dst j (u8 (Z.land w 255)) in snstr dst' (j + 1) src' len'
      end
  end.

(** ** Copies *)

(** [copied mem mem' dst src n]: [mem'] is [mem] with [n] bytes of the old
    contents at [src] placed at [dst]. *)
Definition copied (mem mem' : list Z) (dst src : Z) (n : nat) : Prop :=
  length mem' = length mem /\
  forall j : nat, mem' !! j =
    if decide (dst <= Z.of_nat j < dst + Z.of_nat n)
    then mem !! Z.to_nat (src + (Z.of_nat j - dst)) else mem !! j.

Definition inside (mem : list Z) (p : Z) (n : nat) : Prop :=
  0 <= p /\ p + Z.of_nat n <= Z.of_nat (length mem).

Lemma aget_lookup {A} (l : list A) i v : aget l i = Done v -> 0 <= i /\ l !! Z.to_nat i = Some v.
Proof.
  unfold aget. destruct (Z.ltb_spec i 0); [done|]. destruct (l !! Z.to_nat i) eqn:E; [|done].
  intros [= <-]. by split.
Qed.
Lemma aget_in {A} (l : list A) i :
  0 <= i < Z.of_nat (length l) -> exists v, aget l i = Done v /\ l !! Z.to_nat i = Some v.
Proof.
  intros Hi. unfold aget. destruct (Z.ltb_spec i 0); [lia|].
  destruct (l !! Z.to_nat i) eqn:E; [by eexists|]. apply lookup_ge_None_1 in E. lia.
Qed.

Lemma move_back_copied k mem dst src :
  inside mem dst k -> inside mem src k -> src <= dst \/ dst + Z.of_nat k <= src ->
  exists mem', move_back k mem dst src = Done mem' /\ copied mem mem' dst src k.
Proof.
  unfold inside. revert mem. induction k as [|k IH]; intros mem Hd Hs Ho; cbn [move_back].
  { exists mem. split; [done|]. split; [done|]. intros j. by rewrite decide_False by lia. }
  destruct (aget_in mem (src + Z.of_nat k)) as (v & -> & Hv); [lia|]. cbn [obind].
  rewrite aset_upd by lia. cbn [obind].
  destruct (IH (upd mem (dst + Z.of_nat k) v)) as (mem' & E & [Hl Hc]);
    [rewrite ?length_upd; lia..|lia|].
  exists mem'. split; [done|]. split; [by rewrite Hl, length_upd|]. intros j. rewrite Hc. unfold upd.
  destruct (decide (dst <= Z.of_nat j < dst + Z.of_nat k)).
  - rewrite list_lookup_insert_ne, decide_True by lia. done.
  - destruct (decide (j = Z.to_nat (dst + Z.of_nat k))) as [->|Hne].
    + rewrite list_lookup_insert_eq, decide_True by lia. rewrite <- Hv. f_equal. lia.
    + rewrite list_lookup_insert_ne, decide_False by lia. done.
Qed.

Lemma copy_fwd_copied k mem out inp :
  inside mem out k -> inside mem inp k -> out <= inp \/ inp + Z.of_nat k <= out ->
  exists mem', copy_fwd k mem out inp = Done mem' /\ copied mem mem' out inp k.
Proof.
  unfold inside. revert mem out inp. induction k as [|k IH]; intros mem out inp Hd Hs Ho; cbn [copy_fwd].
  { exists mem. split; [done|]. split; [done|]. intros j. by rewrite decide_False by lia. }
  destruct (aget_in mem inp) as (v & -> & Hv); [lia|]. cbn [obind].
  rewrite aset_upd by lia. cbn [obind].
  destruct (IH (upd mem out v) (out + 1) (inp + 1)) as (mem' & E & [Hl Hc]);
    [rewrite ?length_upd; lia..|lia|].
  exists mem'. split; [done|]. split; [by rewrite Hl, length_upd|]. intros j. rewrite Hc. unfold upd.
  destruct (decide (out + 1 <= Z.of_nat j < out + 1 + Z.of_nat k)).
  - rewrite list_lookup_insert_ne, decide_True by lia. f_equal. lia.
  - destruct (decide (j = Z.to_nat out)) as [->|Hne].
    + rewrite list_lookup_insert_eq, decide_True by lia. rewrite <- Hv. f_equal. lia.
    + rewrite list_lookup_insert_ne, decide_False by lia. done.
Qed.

(** Moving down by one: every byte becomes the last one. *)
Lemma move_back_smear k mem dst v :
  inside mem dst (S k) -> mem !! Z.to_nat (dst + Z.of_nat k) = Some v ->
  exists mem', move_back k mem dst (dst + 1) = Done mem' /\
    forall j : nat, dst <= Z.of_nat j < dst + Z.of_nat k -> mem' !! j = Some v.
Proof.
  unfold inside. revert mem. induction k as [|k IH]; intros mem Hd Hv; cbn [move_back].
  { exists mem. split; [done|]. lia. }
  destruct (aget_in mem (dst + 1 + Z.of_nat k)) as (v' & -> & Hv'); [lia|]. cbn [obind].
  replace (dst + 1 + Z.of_nat k) with (dst + Z.of_nat (S k)) in Hv' by lia.
  rewrite Hv in Hv'. injection Hv' as <-. rewrite aset_upd by lia. cbn [obind].
  destruct (IH (upd mem (dst + Z.of_nat k) v)) as (mem' & E & Hc).
  { rewrite length_upd. lia. } { unfold upd. rewrite list_lookup_insert_eq by lia. done. }
  exists mem'. split; [done|]. intros j Hj.
  destruct (decide (Z.of_nat j < dst + Z.of_nat k)) as [|Hge]; [apply Hc; lia|].
  assert (j = Z.to_nat (dst + Z.of_nat k)) as -> by lia.
  assert (Hout : forall m, forall b b' : list Z, move_back m b dst (dst + 1) = Done b' ->
    forall i : nat, dst + Z.of_nat m <= Z.of_nat i -> b' !! i = b !! i).
  { clear. induction m as [|m IH]; intros b b'; cbn [move_back]; [by intros [= <-]|].
    intros H i Hi. odestr H. odestr H. apply aset_Done in E0 as [Hr ->].
    rewrite (IH _ _ H) by lia. unfold upd. rewrite list_lookup_insert_ne by lia. done. }
  rewrite (Hout _ _ _ E) by lia. unfold upd. rewrite list_lookup_insert_eq by lia. done.
Qed.

(** ** Comparisons *)

(** The bytes of a C string: those before the first NUL. *)
Fixpoint cstr (s : list Z) : option (list Z) :=
  match s with
  | [] => None
  | c :: s' => if c =? 0 then Some [] else (c ::.) <$> cstr s'
  end.

Lemma strcmp_eq s1 s2 t1 t2 :
  cstr s1 = Some t1 -> cstr s2 = Some t2 ->
  exists r, strcmp s1 s2 = Done r /\ (r = 0 <-> t1 = t2).
Proof.
  revert s2 t1 t2. induction s1 as [|a s1 IH]; intros s2 t1 t2; cbn -[Z.eqb Z.ltb]; [done|].
  destruct s2 as [|b s2]; cbn -[Z.eqb Z.ltb]; [done|]. destruct (Z.eqb_spec a 0) as [->|Ha].
  - intros [= <-]. destruct (Z.eqb_spec b 0) as [->|Hb]; cbn -[Z.eqb Z.ltb].
    + intros [= <-]. by exists 0.
    + destruct (cstr s2); cbn -[Z.eqb Z.ltb]; [|done]. intros [= <-].
      destruct (Z.eqb_spec 0 b); [lia|]. eexists. split; [done|]. bdestr; split; done || lia.
  - destruct (cstr s1) as [u1|] eqn:E1; cbn -[Z.eqb Z.ltb]; [|done]. intros [= <-].
    destruct (Z.eqb_spec b 0) as [->|Hb].
    + intros [= <-]. destruct (Z.eqb_spec a 0); [lia|]. eexists. split; [done|]. bdestr; split; done || lia.
    + destruct (cstr s2) as [u2|] eqn:E2; cbn; [|done]. intros [= <-].
      destruct (Z.eqb_spec a b) as [->|Hne].
      * destruct (IH s2 u1 u2 eq_refl E2) as (r & -> & Hr). exists r. split; [done|].
        rewrite Hr. split; [by intros ->|by intros [= ->]].
      * eexists. split; [done|]. split; [bdestr; lia|]. intros [= -> _]. done.
Qed.

Lemma strcmp_antisym s1 s2 r : strcmp s1 s2 = Done r -> strcmp s2 s1 = Done (- r).
Proof.
  revert s2. induction s1 as [|a s1 IH]; intros [|b s2]; cbn; try done.
  destruct (Z.eqb_spec a b) as [->|Hne].
  - rewrite Z.eqb_refl. destruct (b =? 0); [by intros [= <-]|apply IH].
  - destruct (Z.eqb_spec b a); [congruence|]. intros [= <-]. f_equal. repeat bdestr; lia.
Qed.

Lemma strlen_cstr s t : cstr s = Some t -> strlen s = Done (Z.of_nat (length t)).
Proof.
  revert t. induction s as [|c s IH]; intros t; cbn; [done|]. destruct (c =? 0); [by intros [= <-]|].
  destruct (cstr s) as [u|]; [|done]. cbn. intros [= <-]. rewrite (IH u eq_refl). cbn [obind length].
  f_equal. lia.
Qed.

(** strncmpamb is symmetric in case and stops at [n] characters: on two
    strings of [n] non-NUL bytes it is 0 exactly when they agree up to case. *)
Lemma strncmpamb_loop_full s1 s2 r1 r2 cnt n :
  length s1 = length s2 -> (1 <= length s1)%nat -> n = cnt + Z.of_nat (length s1) - 1 ->
  Forall (fun c => c <> 0) s1 ->
  exists r, strncmpamb_loop (s1 ++ r1) (s2 ++ r2) cnt n = Done r /\
    (r = 0 <-> Forall2 (fun a b => ambeq a b = true) s1 s2).
Proof.
  revert s2 cnt. induction s1 as [|a s1 IH]; intros [|b s2] cnt Hl H1 Hn Hz; cbn in *; try lia.
  inversion Hz as [|? ? Ha Hz']; subst. destruct (ambeq a b) eqn:Hab.
  - destruct (Z.eqb_spec a 0); [done|]. cbn [orb].
    destruct (Z.eqb_spec cnt (cnt + Z.of_nat (S (length s1)) - 1)) as [E|E].
    + assert (s1 = []) as -> by (destruct s1; [done|cbn in *; lia]). destruct s2; [|done].
      exists 0. split; [done|]. split; [|done]. intros _. by repeat constructor.
    + destruct (IH s2 (cnt + 1)) as (r & -> & Hr); [lia| |lia|done|].
      { destruct s1; cbn in *; lia. }
      exists r. split; [done|]. rewrite Hr. split; [by constructor|]. by inversion 1.
  - eexists. split; [done|]. split; [bdestr; lia|]. inversion 1; congruence.
Qed.

(** memcmp takes a zero byte in both blocks for the end of the comparison,
    whatever follows it. *)
Lemma memcmp_stops p x y n :
  Z.of_nat (length p) < n -> memcmp (p ++ 0 :: x) (p ++ 0 :: y) n = Done 0.
Proof.
  intros Hn. unfold memcmp. destruct (n =? 0); [done|].
  assert (H : forall cnt, cnt + Z.of_nat (length p) <= n ->
    memcmp_loop (p ++ 0 :: x) (p ++ 0 :: y) cnt n = Done 0); [|apply H; lia].
  clear Hn. induction p as [|a p IH]; intros cnt Hn; cbn in *; [done|]. rewrite Z.eqb_refl.
  destruct (a =? 0); [done|]. cbn [orb]. destruct (n <=? cnt); [done|]. apply IH. lia.
Qed.

(** ** Theorems *)

(** memcpy and memmove leave at the destination what the source held
    before the call, and nothing else changes: memcpy when the destination
    does not start inside the source after its first byte, memmove when the
    source does not start inside the destination after its first byte. *)
Theorem memcpy_memmove_correct mem dst src (n : nat) :
  inside mem dst n -> inside mem src n ->
  (dst <= src \/ src + Z.of_nat n <= dst ->
   exists mem', memcpy mem dst src (Z.of_nat n) = Done mem' /\ copied mem mem' dst src n) /\
  (src <= dst \/ dst + Z.of_nat n <= src ->
   exists mem', memmove mem dst src (Z.of_nat n) = Done mem' /\ copied mem mem' dst src n).
Proof.
  intros Hd Hs. split; intros Ho.
  - unfold memcpy. rewrite Nat2Z.id. by apply copy_fwd_copied.
  - unfold memmove. rewrite Nat2Z.id. destruct (Z.leb_spec (Z.of_nat n) 0); [|by apply move_back_copied].
    destruct n; [|lia]. exists mem. split; [done|]. split; [done|]. intros j. by rewrite decide_False by lia.
Qed.

(** memmove always copies downwards from the end, so moving a block one
    byte down, an overlap its comment admits, fills the destination with the
    last byte of the source. *)
Theorem memmove_down_smears mem dst (n : nat) v :
  (1 <= n)%nat -> inside mem dst (S n) -> mem !! Z.to_nat (dst + Z.of_nat n) = Some v ->
  exists mem', memmove mem dst (dst + 1) (Z.of_nat n) = Done mem' /\
    forall j : nat, dst <= Z.of_nat j < dst + Z.of_nat n -> mem' !! j = Some v.
Proof.
  intros Hn Hd Hv. unfold memmove. rewrite Nat2Z.id.
  destruct (Z.leb_spec (Z.of_nat n) 0); [lia|]. by apply move_back_smear.
Qed.

(** strcmp on two NUL-terminated strings returns, is 0 exactly on equal
    strings and changes sign when its arguments are swapped. *)
Theorem strcmp_order s1 s2 t1 t2 :
  cstr s1 = Some t1 -> cstr s2 = Some t2 ->
  exists r, strcmp s1 s2 = Done r /\ (r = 0 <-> t1 = t2) /\ strcmp s2 s1 = Done (- r).
Proof.
  intros H1 H2. destruct (strcmp_eq s1 s2 t1 t2 H1 H2) as (r & E & Hr).
  exists r. split; [done|]. split; [done|]. by apply strcmp_antisym.
Qed.

(** ** Witnesses *)
Lemma memcpy_memmove_correct_witness :
  exists mem', memmove [1; 2; 3; 4] 1 0 3 = Done mem' /\ copied [1; 2; 3; 4] mem' 1 0 3.
Proof.
  apply (proj2 (memcpy_memmove_correct [1; 2; 3; 4] 1 0 3 ltac:(unfold inside; cbn; lia)
    ltac:(unfold inside; cbn; lia))). lia.
Defined.
Lemma memmove_down_smears_witness :
  exists mem', memmove [1; 2; 3; 4] 0 1 3 = Done mem' /\
    forall j : nat, 0 <= Z.of_nat j < 0 + Z.of_nat 3 -> mem' !! j = Some 4.
Proof. apply (memmove_down_smears [1; 2; 3; 4] 0 3 4); [lia|unfold inside; cbn; lia|reflexivity]. Defined.
Lemma strcmp_order_witness :
  exists r, strcmp [97; 0] [98; 0] = Done r /\ (r = 0 <-> [97] = [98]) /\ strcmp [98; 0] [97; 0] = Done (- r).
Proof. exact (strcmp_order [97; 0] [98; 0] [97] [98] eq_refl eq_refl). Defined.

End Cstring.
