(* ===== verification/Printf.v ===== *)
(** * Printf: formatted output (utils/klibc.cc, include/klib.hh)

    [_vsnprintf] writes into a buffer that may be absent (the measuring pass)
    and counts the characters it would have written; [snprintf] and
    [klib::format] are built on it. [char] is unsigned on RISC-V, so a byte is
    a value in [0, 256). The second half of the file gives a reference
    rendering of a format and proves the code writes exactly its prefix. *)

From S2P Require Import Prelude.
Local Open Scope Z_scope.

Module Printf.

(** An argument of the variadic call: an integer slot or a C string given by
    its bytes before the terminating NUL. *)
Inductive vaarg : Type :=
| VNum (z : Z)
| VStr (s : list Z).

(** [if(out&&pos<n) out[pos]=c;] *)
Definition put (out : option (list Z)) (n pos c : Z) : outcome (option (list Z)) :=
  match out with
  | None => Done None
  | Some b => if pos <? n then let* b' := aset b pos (u8 c) in Done (Some b') else Done out
  end.

(** [longarg ? va_arg(vl,long) : va_arg(vl,int)] *)
Definition va_num (longarg : bool) (args : list vaarg) : outcome (Z * list vaarg) :=
  match args with
  | VNum z :: rest => Done ((if longarg then i64 z else i32 z), rest)
  | _ => Undef
  end.
Definition va_str (args : list vaarg) : outcome (list Z * list vaarg) :=
  match args with
  | VStr s :: rest => Done (s, rest)
  | _ => Undef
  end.

(** The loop of [case 'x'], [i] is the number of digits left. *)
Fixpoint put_hex (i : nat) (num n pos : Z) (out : option (list Z)) : outcome (Z * option (list Z)) :=
  match i with
  | O => Done (pos, out)
  | S i' =>
      let d := Z.land (Z.shiftr num (4 * Z.of_nat i')) 15 in
      let* out' := put out n pos (if d <? 10 then 48 + d else 97 + d - 10) in
      put_hex i' num n (pos + 1) out'
  end.

(** [for(long nn=num; nn/=10; digits++);] for a non-negative [num]: 19 digits
    are enough for a 64-bit value. *)
Fixpoint count_digits (fuel : nat) (nn digits : Z) : outcome Z :=
  match fuel with
  | O => Diverge
  | S f => let nn' := nn / 10 in
           if nn' =? 0 then Done digits else count_digits f nn' (digits + 1)
  end.

(** [for(int i=digits-1;i>=0;i--)], [i] is the number of digits left. *)
Fixpoint put_dec (i : nat) (num n pos : Z) (out : option (list Z)) : outcome (option (list Z)) :=
  match i with
  | O => Done out
  | S i' =>
      let* out' := put out n (pos + Z.of_nat i') (48 + num mod 10) in
      put_dec i' (num / 10) n pos out'
  end.

Fixpoint put_str (s : list Z) (n pos : Z) (out : option (list Z)) : outcome (Z * option (list Z)) :=
  match s with
  | [] => Done (pos, out)
  | c :: s' => let* out' := put out n pos c in put_str s' n (pos + 1) out'
  end.

(** The body of [case 'd'] and [case 'u']. Negating the least [long] is
    undefined. *)
Definition fmt_dec (longarg : bool) (n pos : Z) (out : option (list Z)) (args : list vaarg)
  : outcome (Z * option (list Z) * list vaarg) :=
  let* (num0, args') := va_num longarg args in
  if num0 =? - 2 ^ 63 then Undef
  else
    let* (num, pos1, out1) :=
      (if num0 <? 0
       then let* o := put out n pos 45 in Done (- num0, pos + 1, o)
       else Done (num0, pos, out)) in
    let* digits := count_digits 20 num 1 in
    let* out2 := put_dec (Z.to_nat digits) num n pos1 out1 in
    Done (pos1 + digits, out2, args').

Definition fmt_hex (longarg : bool) (n pos : Z) (out : option (list Z)) (args : list vaarg)
  : outcome (Z * option (list Z) * list vaarg) :=
  let* (num, args') := va_num longarg args in
  let hexdigits := 2 * (if longarg then 8 else 4) - 1 in
  let* (pos', out') := put_hex (Z.to_nat (hexdigits + 1)) num n pos out in
  Done (pos', out', args').

(** [case 'c']: the argument is read only when there is room for it. *)
Definition fmt_chr (n pos : Z) (out : option (list Z)) (args : list vaarg)
  : outcome (Z * option (list Z) * list vaarg) :=
  match out with
  | Some _ =>
      if pos <? n
      then let* (c, args') := va_num false args in
           let* out' := put out n pos c in Done (pos + 1, out', args')
      else Done (pos + 1, out, args)
  | None => Done (pos + 1, out, args)
  end.

(** The loop over the format string. *)
Fixpoint fmt_loop (s : list Z) (format longarg : bool) (n pos : Z)
    (out : option (list Z)) (args : list vaarg) : outcome (Z * option (list Z)) :=
  match s with
  | [] => Done (pos, out)
  | c :: s' =>
      if format then
        if c =? 108 (* l *) then fmt_loop s' true true n pos out args
        else if c =? 112 (* p *) then
          let* o1 := put out n pos 48 in
          let* o2 := put o1 n (pos + 1) 120 in
          let* (p3, o3, a3) := fmt_hex true n (pos + 2) o2 args in
          fmt_loop s' false false n p3 o3 a3
        else if c =? 120 (* x *) then
          let* (p1, o1, a1) := fmt_hex longarg n pos out args in
          fmt_loop s' false false n p1 o1 a1
        else if (c =? 117) || (c =? 100) (* u, d *) then
          let* (p1, o1, a1) := fmt_dec longarg n pos out args in
          fmt_loop s' false false n p1 o1 a1
        else if c =? 115 (* s *) then
          let* (str, a1) := va_str args in
          let* (p1, o1) := put_str str n pos out in
          fmt_loop s' false false n p1 o1 a1
        else if c =? 99 (* c *) then
          let* (p1, o1, a1) := fmt_chr n pos out args in
          fmt_loop s' false false n p1 o1 a1
        else Panic
      else if c =? 37 (* % *) then fmt_loop s' true longarg n pos out args
      else
        let* o1 := (if c <? 127 then put out n pos c else Done out) in
        fmt_loop s' false longarg n (pos + 1) o1 args
  end.

(** [_vsnprintf(out,n,s,vl)]: the number of characters of the whole text and
    the buffer afterwards. *)
Definition _vsnprintf (out : option (list Z)) (n : Z) (s : list Z) (vl : list vaarg)
  : outcome (Z * option (list Z)) :=
  let* (pos, out1) := fmt_loop s false false n 0 out vl in
  match out1 with
  | None => Done (i32 pos, None)
  | Some b =>
      if pos <? n then let* b' := aset b pos 0 in Done (i32 pos, Some b')
      else if negb (n =? 0) then let* b' := aset b (n - 1) 0 in Done (i32 pos, Some b')
      else Done (i32 pos, Some b)
  end.

Definition snprintf (str : option (list Z)) (size : Z) (format : list Z) (vl : list vaarg)
  : outcome (Z * option (list Z)) :=
  _vsnprintf str (u64 (size + 1)) format vl.

(** The bytes of a NUL-terminated buffer. *)
Fixpoint c_str (b : list Z) : outcome (list Z) :=
  match b with
  | [] => Undef
  | c :: b' => if c =? 0 then Done [] else let* s := c_str b' in Done (c :: s)
  end.

(** klib::format; [fresh] is what the heap block of the second pass holds
    before it is written. *)
Definition format_ (fresh : Z -> list Z) (fmt : list Z) (args : list vaarg) : outcome (list Z) :=
  let* (size, _) := snprintf None (u64 (-1)) fmt args in
  passert (0 <? size) ;;;
  let* (_, buf) := snprintf (Some (fresh (size + 1))) size fmt args in
  match buf with
  | Some b => c_str b
  | None => Undef
  end.

(** ** The reference rendering *)

(** Decimal digits of a non-negative number, most significant first. *)
Fixpoint dec_digits (fuel : nat) (x : Z) : list Z :=
  match fuel with
  | O => []
  | S f => (if x / 10 =? 0 then [] else dec_digits f (x / 10)) ++ [48 + x mod 10]
  end.
Definition dec_text (x : Z) : list Z :=
  if x <? 0 then 45 :: dec_digits 20 (- x) else dec_digits 20 x.

Definition hex_digit (d : Z) : Z := if d <? 10 then 48 + d else 87 + d.
(** [k] hexadecimal digits of [x] modulo [16^k], most significant first. *)
Fixpoint hex_text (k : nat) (x : Z) : list Z :=
  match k with
  | O => []
  | S k' => hex_digit (x / 16 ^ Z.of_nat k' mod 16) :: hex_text k' x
  end.

(** The text that the C standard gives to a format with the directives [%d],
    [%u], [%x], [%p], [%s] and the length [l], except that this library prints
    [%x] and [%p] with all leading zeros. There is none ([None]) when a
    directive does not fit its argument, and where the code departs from the
    standard: [%c] (see [format_char_misreads]), [%u] of a value with the sign
    bit set, the smallest long, and bytes from 127 on in the format itself. *)
Fixpoint render (s : list Z) (format longarg : bool) (args : list vaarg) : option (list Z) :=
  match s with
  | [] => Some []
  | c :: s' =>
      if format then
        if c =? 108 then render s' true true args
        else match args with
        | VNum z :: a =>
            if c =? 112 then ([48; 120] ++.) <$> ((hex_text 16 z ++.) <$> render s' false false a)
            else if c =? 120 then
              (hex_text (if longarg then 16 else 8) z ++.) <$> render s' false false a
            else if (c =? 117) || (c =? 100) then
              let v := if longarg then i64 z else i32 z in
              if (v =? - 2 ^ 63) || (c =? 117) && (v <? 0) then None
              else (dec_text v ++.) <$> render s' false false a
            else None
        | VStr t :: a =>
            if (c =? 115) && forallb (fun x => (0 <=? x) && (x <? 256)) t
            then (t ++.) <$> render s' false false a else None
        | [] => None
        end
      else if c =? 37 then render s' true longarg args
      else if (0 <=? c) && (c <? 127) then (c ::.) <$> render s' false longarg args
      else None
  end.

(** ** Writing into the buffer *)

(** The buffer after the text [txt] has been written through the bound [n]. *)
Definition pnt (n : nat) (txt : list Z) (o : option (list Z)) : option (list Z) :=
  (fun b => take n txt ++ drop (n `min` length txt) b) <$> o.
Definition room (n : nat) (o : option (list Z)) : Prop :=
  match o with Some b => (n <= length b)%nat | None => True end.

Lemma pnt_lookup (n : nat) (txt b : list Z) (j : nat) :
  (n <= length b)%nat ->
  (take n txt ++ drop (n `min` length txt) b) !! j =
  if decide (j < n /\ j < length txt)%nat then txt !! j else b !! j.
Proof.
  intros Hn. destruct (decide (j < n `min` length txt)%nat) as [Hj|Hj].
  - rewrite lookup_app_l, lookup_take by (rewrite ?length_take; lia).
    rewrite decide_True by lia. rewrite decide_True by lia. done.
  - rewrite lookup_app_r, lookup_drop by (rewrite length_take; lia).
    rewrite decide_False by lia. f_equal. rewrite length_take. lia.
Qed.
Lemma length_pnt (n : nat) (txt b : list Z) :
  (n <= length b)%nat -> length (take n txt ++ drop (n `min` length txt) b) = length b.
Proof. rewrite length_app, length_take, length_drop. lia. Qed.

Lemma put_pnt n txt o c :
  room n o -> 0 <= c < 256 ->
  put (pnt n txt o) (Z.of_nat n) (Z.of_nat (length txt)) c = Done (pnt n (txt ++ [c]) o).
Proof.
  intros Hr Hc. destruct o as [b|]; [|done]. cbn [room] in Hr. cbn.
  destruct (Z.ltb_spec (Z.of_nat (length txt)) (Z.of_nat n)) as [Hlt|Hge].
  - rewrite aset_upd by (rewrite length_pnt; lia). cbn [obind]. rewrite u8_small by lia.
    unfold upd. rewrite Nat2Z.id. do 2 f_equal. apply list_eq. intros j.
    rewrite pnt_lookup, length_app by done. cbn [length].
    destruct (decide (j = length txt)) as [->|Hne].
    + rewrite list_lookup_insert_eq by (rewrite length_pnt; lia).
      rewrite decide_True by lia. by rewrite lookup_app_r, Nat.sub_diag by lia.
    + rewrite list_lookup_insert_ne, pnt_lookup by (done || lia).
      repeat case_decide; try lia; try done. by rewrite lookup_app_l by lia.
  - do 2 f_equal. apply list_eq. intros j. rewrite !pnt_lookup, length_app by done. cbn [length].
    repeat case_decide; try lia; try done. by rewrite lookup_app_l by lia.
Qed.

Lemma put_str_pnt n o s txt :
  room n o -> Forall (fun c => 0 <= c < 256) s ->
  put_str s (Z.of_nat n) (Z.of_nat (length txt)) (pnt n txt o)
  = Done (Z.of_nat (length (txt ++ s)), pnt n (txt ++ s) o).
Proof.
  intros Hr Hs. revert txt. induction Hs as [|c s Hc Hs IH]; intros txt; cbn [put_str].
  - by rewrite app_nil_r.
  - rewrite put_pnt by done. cbn [obind]. specialize (IH (txt ++ [c])).
    rewrite <- app_assoc in IH. cbn [app] in IH. rewrite <- IH. f_equal.
    rewrite length_app. cbn. lia.
Qed.

(** ** Hexadecimal *)
Lemma hex_digit_byte d : 0 <= d < 16 -> 0 <= hex_digit d < 256.
Proof. intros Hd. unfold hex_digit. bdestr; lia. Qed.

Lemma put_hex_pnt n o k num x txt :
  room n o -> (forall i, (i < k)%nat -> num / 16 ^ Z.of_nat i mod 16 = x / 16 ^ Z.of_nat i mod 16) ->
  put_hex k num (Z.of_nat n) (Z.of_nat (length txt)) (pnt n txt o)
  = Done (Z.of_nat (length (txt ++ hex_text k x)), pnt n (txt ++ hex_text k x) o).
Proof.
  intros Hr. revert txt. induction k as [|k IH]; intros txt Hx; cbn [put_hex hex_text].
  - by rewrite app_nil_r.
  - assert (Hd : Z.land (Z.shiftr num (4 * Z.of_nat k)) 15 = x / 16 ^ Z.of_nat k mod 16).
    { rewrite Z.shiftr_div_pow2, (Z.land_ones _ 4) by lia. rewrite Z.pow_mul_r by lia.
      change (2 ^ 4) with 16. apply Hx. lia. }
    rewrite Hd. set (d := x / 16 ^ Z.of_nat k mod 16).
    assert (0 <= d < 16) by (apply Z.mod_pos_bound; lia).
    replace (if d <? 10 then 48 + d else 97 + d - 10) with (hex_digit d)
      by (unfold hex_digit; bdestr; lia).
    rewrite put_pnt by (auto using hex_digit_byte). cbn [obind].
    specialize (IH (txt ++ [hex_digit d])). rewrite <- app_assoc in IH. cbn [app] in IH.
    rewrite <- IH by (intros; apply Hx; lia). f_equal. rewrite length_app. cbn. lia.
Qed.

(** A signed view of a slot has the digits of the slot. *)
Lemma hex_digit_cong a b (w i : nat) :
  (i < w)%nat -> a mod 16 ^ Z.of_nat w = b mod 16 ^ Z.of_nat w ->
  a / 16 ^ Z.of_nat i mod 16 = b / 16 ^ Z.of_nat i mod 16.
Proof.
  intros Hi Hab. assert (0 < 16 ^ Z.of_nat i) by (apply Z.pow_pos_nonneg; lia).
  assert (Hy : forall y, y / 16 ^ Z.of_nat i mod 16
    = (y mod 16 ^ Z.of_nat w) / 16 ^ Z.of_nat i mod 16).
  { intros y. set (A := 16 ^ Z.of_nat i) in *. set (C := 16 ^ Z.of_nat (w - i - 1)).
    assert (HW : 16 ^ Z.of_nat w = A * 16 * C).
    { subst A C. rewrite <- (Z.pow_1_r 16) at 3. rewrite <- !Z.pow_add_r by lia. f_equal. lia. }
    assert (0 < C) by (apply Z.pow_pos_nonneg; lia). rewrite HW.
    replace y with (y mod (A * 16 * C) + (C * (y / (A * 16 * C)) * 16) * A) at 1.
    2:{ pose proof (Z.div_mod y (A * 16 * C) ltac:(lia)). lia. }
    by rewrite Z.div_add, Z.mod_add by lia. }
  by rewrite (Hy a), (Hy b), Hab.
Qed.

(** ** Decimal *)

(** Digit [d] (from the right) of [x]. *)
Definition dec_at (x : Z) (d : nat) : Z := 48 + x / 10 ^ Z.of_nat d mod 10.

Lemma dec_at_byte x d : 0 <= dec_at x d < 256.
Proof. unfold dec_at. pose proof (Z.mod_pos_bound (x / 10 ^ Z.of_nat d) 10). lia. Qed.
Lemma dec_at_S x d : dec_at (x / 10) d = dec_at x (S d).
Proof.
  unfold dec_at. rewrite Z.div_div by lia. rewrite Nat2Z.inj_succ, Z.pow_succ_r by lia. done.
Qed.
Lemma dec_at_0 x : dec_at x 0 = 48 + x mod 10.
Proof. unfold dec_at. by rewrite Z.div_1_r. Qed.

Lemma dec_digits_pos f x : (1 <= f)%nat -> (1 <= length (dec_digits f x))%nat.
Proof. destruct f; [lia|]. cbn. rewrite length_app. cbn. lia. Qed.

Lemma count_digits_ok f x d :
  0 <= x < 10 ^ Z.of_nat f -> (1 <= f)%nat ->
  count_digits f x d = Done (d - 1 + Z.of_nat (length (dec_digits f x))).
Proof.
  revert x d. induction f as [|f IH]; intros x d Hx Hf; [lia|]. cbn [count_digits dec_digits].
  rewrite length_app. cbn [length]. zeq E; [f_equal; cbn; lia|].
  assert (Hf' : (1 <= f)%nat).
  { destruct f; [|lia]. exfalso. apply E. apply Z.div_small. done. }
  rewrite Nat2Z.inj_succ, Z.pow_succ_r in Hx by lia.
  rewrite IH by first [lia|split; [apply Z.div_pos; lia|apply Z.div_lt_upper_bound; lia]].
  f_equal. lia.
Qed.

Lemma dec_digits_lookup f x t :
  (t < length (dec_digits f x))%nat ->
  dec_digits f x !! t = Some (dec_at x (length (dec_digits f x) - 1 - t)).
Proof.
  revert x t. induction f as [|f IH]; intros x t; cbn [dec_digits]; [cbn; lia|].
  rewrite length_app. cbn [length]. zeq E.
  - cbn. intros Ht. destruct t; [|lia]. cbn. by rewrite dec_at_0.
  - intros Ht. destruct (decide (t < length (dec_digits f (x / 10)))%nat) as [Hlt|Hge].
    + rewrite lookup_app_l, IH, dec_at_S by done. do 2 f_equal. lia.
    + rewrite lookup_app_r by lia.
      replace (t - length (dec_digits f (x / 10)))%nat with 0%nat by lia. cbn.
      replace (length _ + 1 - 1 - t)%nat with 0%nat by lia. by rewrite dec_at_0.
Qed.

(** The digits denote the number. *)
Definition dec_value (l : list Z) : Z := fold_left (fun a c => 10 * a + (c - 48)) l 0.
Lemma dec_digits_value f x : 0 <= x < 10 ^ Z.of_nat f -> dec_value (dec_digits f x) = x.
Proof.
  revert x. induction f as [|f IH]; intros x Hx; [change (10 ^ Z.of_nat 0) with 1 in Hx; cbn; lia|].
  cbn [dec_digits]. unfold dec_value in *. rewrite fold_left_app. cbn [fold_left].
  rewrite Nat2Z.inj_succ, Z.pow_succ_r in Hx by lia. pose proof (Z.div_mod x 10 ltac:(lia)). zeq E.
  - cbn. lia.
  - rewrite IH; [lia|]. split; [apply Z.div_pos; lia|apply Z.div_lt_upper_bound; lia].
Qed.

(** The backward loop of [case 'd'], position by position. *)
Lemma put_dec_lookup i num (n pos : nat) (b : list Z) :
  (n <= length b)%nat ->
  exists b', put_dec i num (Z.of_nat n) (Z.of_nat pos) (Some b) = Done (Some b') /\
    forall j, b' !! j = if decide (pos <= j < pos + i /\ j < n)%nat
                        then Some (dec_at num (i - 1 - (j - pos))) else b !! j.
Proof.
  revert num b. induction i as [|i IH]; intros num b Hn; cbn [put_dec].
  - exists b. split; [done|]. intros j. by rewrite decide_False by lia.
  - cbn [put]. rewrite <- dec_at_0, u8_small by apply dec_at_byte.
    destruct (Z.ltb_spec (Z.of_nat pos + Z.of_nat i) (Z.of_nat n)) as [Hlt|Hge].
    + rewrite aset_upd by lia. cbn [obind].
      edestruct (IH (num / 10) (upd b (Z.of_nat pos + Z.of_nat i) (dec_at num 0))) as (b' & E & Hb).
      { rewrite length_upd. lia. }
      exists b'. split; [done|]. intros j. rewrite Hb. unfold upd.
      replace (Z.to_nat (Z.of_nat pos + Z.of_nat i)) with (pos + i)%nat by lia.
      destruct (decide (j = pos + i)%nat) as [->|Hne].
      * rewrite decide_False, decide_True by lia. rewrite list_lookup_insert_eq by lia.
        do 2 f_equal. lia.
      * rewrite list_lookup_insert_ne by lia. repeat case_decide; try lia; try done.
        rewrite dec_at_S. do 2 f_equal. lia.
    + cbn [obind]. destruct (IH (num / 10) b Hn) as (b' & E & Hb). exists b'. split; [done|].
      intros j. rewrite Hb. repeat case_decide; try lia; try done. rewrite dec_at_S. do 2 f_equal. lia.
Qed.

Lemma put_dec_None i num n pos : put_dec i num n pos None = Done None.
Proof. revert num. induction i as [|i IH]; intros num; [done|]. cbn. apply IH. Qed.

Lemma put_dec_pnt f (n : nat) o num txt :
  room n o ->
  put_dec (length (dec_digits f num)) num (Z.of_nat n) (Z.of_nat (length txt)) (pnt n txt o)
  = Done (pnt n (txt ++ dec_digits f num) o).
Proof.
  intros Hr. destruct o as [b|]; [|apply put_dec_None]. cbn [room] in Hr. cbn [pnt option_fmap].
  edestruct (put_dec_lookup (length (dec_digits f num)) num n (length txt)) as (b' & E & Hb);
    [|cbn; rewrite E]. { by rewrite length_pnt. }
  do 2 f_equal. apply list_eq. intros j. rewrite Hb, !pnt_lookup, length_app by done.
  destruct (decide (length txt <= j < length txt + length (dec_digits f num) /\ j < n)%nat).
  - rewrite decide_True by lia. rewrite lookup_app_r, dec_digits_lookup by lia. done.
  - repeat case_decide; try lia; try done. by rewrite lookup_app_l by lia.
Qed.

Lemma count_digits_20 x d :
  0 <= x <= 9223372036854775808 ->
  count_digits 20 x d = Done (d - 1 + Z.of_nat (length (dec_digits 20 x))).
Proof.
  intros Hx. apply count_digits_ok; [|lia]. change (10 ^ Z.of_nat 20) with 100000000000000000000. lia.
Qed.

Lemma fmt_dec_pnt (n : nat) o longarg z a txt :
  room n o ->
  let v := if longarg : bool then i64 z else i32 z in
  v <> - 2 ^ 63 ->
  fmt_dec longarg (Z.of_nat n) (Z.of_nat (length txt)) (pnt n txt o) (VNum z :: a)
  = Done (Z.of_nat (length (txt ++ dec_text v)), pnt n (txt ++ dec_text v) o, a).
Proof.
  intros Hr v Hv. unfold fmt_dec. cbn [va_num obind]. fold v.
  assert (Hrange : - 9223372036854775808 <= v < 9223372036854775808).
  { subst v. unfold i64, i32. destruct longarg.
    - pose proof (Z.mod_pos_bound (z + 9223372036854775808) 18446744073709551616). lia.
    - pose proof (Z.mod_pos_bound (z + 2147483648) 4294967296). lia. }
  zeq Ev; [contradiction|]. unfold dec_text.
  destruct (Z.ltb_spec v 0) as [Hneg|Hpos].
  - rewrite put_pnt by (done || lia). cbn [obind]. rewrite count_digits_20 by lia. cbn [obind].
    replace (Z.to_nat (1 - 1 + Z.of_nat (length (dec_digits 20 (- v)))))
      with (length (dec_digits 20 (- v))) by lia.
    replace (Z.of_nat (length txt) + 1) with (Z.of_nat (length (txt ++ [45])))
      by (rewrite length_app; cbn; lia).
    rewrite put_dec_pnt by done. cbn [obind]. rewrite <- app_assoc. cbn [app].
    do 3 f_equal. rewrite !length_app. cbn [length]. lia.
  - cbn [obind]. rewrite count_digits_20 by lia. cbn [obind].
    replace (Z.to_nat (1 - 1 + Z.of_nat (length (dec_digits 20 v))))
      with (length (dec_digits 20 v)) by lia.
    rewrite put_dec_pnt by done. cbn [obind]. do 3 f_equal. rewrite length_app. lia.
Qed.

Lemma fmt_hex_pnt (n : nat) o longarg z a txt :
  room n o ->
  fmt_hex longarg (Z.of_nat n) (Z.of_nat (length txt)) (pnt n txt o) (VNum z :: a)
  = Done (Z.of_nat (length (txt ++ hex_text (if longarg then 16 else 8) z)),
          pnt n (txt ++ hex_text (if longarg then 16 else 8) z) o, a).
Proof.
  intros Hr. unfold fmt_hex. cbn [va_num obind].
  rewrite (put_hex_pnt n o _ _ z txt Hr).
  - cbn [obind]. by destruct longarg.
  - intros i Hi. destruct longarg.
    + apply (hex_digit_cong _ _ 16); [cbn in Hi; lia|].
      change (16 ^ Z.of_nat 16) with 18446744073709551616. unfold i64.
      rewrite Zminus_mod_idemp_l. f_equal. lia.
    + apply (hex_digit_cong _ _ 8); [cbn in Hi; lia|].
      change (16 ^ Z.of_nat 8) with 4294967296. unfold i32.
      rewrite Zminus_mod_idemp_l. f_equal. lia.
Qed.

(** ** The loop writes the reference text *)
Lemma fmt_loop_render (n : nat) o s format longarg args t txt :
  room n o -> render s format longarg args = Some t ->
  fmt_loop s format longarg (Z.of_nat n) (Z.of_nat (length txt)) (pnt n txt o) args
  = Done (Z.of_nat (length (txt ++ t)), pnt n (txt ++ t) o).
Proof.
  intros Hr. revert format longarg args t txt.
  induction s as [|c s IH]; intros format longarg args t txt; cbn [render fmt_loop].
  { intros [= <-]. by rewrite app_nil_r. }
  assert (IH' : forall f l a t' u, (u ++.) <$> render s f l a = Some t' ->
    fmt_loop s f l (Z.of_nat n) (Z.of_nat (length (txt ++ u))) (pnt n (txt ++ u) o) a
    = Done (Z.of_nat (length (txt ++ t')), pnt n (txt ++ t') o)).
  { intros f l a t' u H. destruct (render s f l a) as [t0|] eqn:E; [|done].
    cbn in H. injection H as <-. rewrite (IH f l a t0 _ E). by rewrite <- app_assoc. }
  destruct format; [|zeq E37; [apply IH|]].
  - zeq E108; [apply IH|]. destruct args as [|[z|u] a]; [done| |].
    + zeq E112; [|zeq E120].
      * intros H. rewrite put_pnt by (done || lia). cbn [obind].
        replace (Z.of_nat (length txt) + 1) with (Z.of_nat (length (txt ++ [48])))
          by (rewrite length_app; cbn; lia).
        rewrite put_pnt by (done || lia). cbn [obind].
        replace (Z.of_nat (length txt) + 2) with (Z.of_nat (length ((txt ++ [48]) ++ [120])))
          by (rewrite !length_app; cbn; lia).
        rewrite fmt_hex_pnt by done. cbn [obind]. rewrite <- !app_assoc. cbn [app].
        apply IH'. destruct (render s false false a); [|done]. cbn in *. by injection H as <-.
      * intros H. rewrite fmt_hex_pnt by done. cbn [obind]. by apply IH'.
      * destruct ((c =? 117) || (c =? 100)); [|done]. set (v := if longarg then i64 z else i32 z).
        destruct (_ || _) eqn:Ev; [done|]. apply orb_false_iff in Ev as [Ev%Z.eqb_neq _].
        intros H. rewrite fmt_dec_pnt by done. cbn [obind]. by apply IH'.
    + zeq E115; [|done]. subst c. cbn [andb Z.eqb orb].
      destruct (forallb _ u) eqn:Hb; [|done]. intros H. cbn [va_str obind].
      rewrite put_str_pnt; [|done|].
      2:{ apply Forall_forall. intros x Hx. rewrite forallb_forall in Hb. apply list_elem_of_In, Hb in Hx.
          lia. }
      cbn [obind]. by apply IH'.
  - destruct ((0 <=? c) && (c <? 127)) eqn:Hc; [|done]. intros H.
    destruct (Z.ltb_spec c 127); [|lia]. rewrite put_pnt by (done || lia). cbn [obind].
    replace (Z.of_nat (length txt) + 1) with (Z.of_nat (length (txt ++ [c])))
      by (rewrite length_app; cbn; lia). by apply IH'.
Qed.

(** The terminating NUL. *)
Lemma vsnprintf_ok buf (n : nat) s args t :
  (1 <= n <= length buf)%nat -> render s false false args = Some t ->
  Z.of_nat (length t) < 2147483648 ->
  let m := (length t `min` (n - 1))%nat in
  _vsnprintf (Some buf) (Z.of_nat n) s args
  = Done (Z.of_nat (length t), Some (take m t ++ 0 :: drop (S m) buf)).
Proof.
  intros Hn Ht Hlen m. unfold _vsnprintf.
  pose proof (fmt_loop_render n (Some buf) s false false args t [] ltac:(cbn; lia) Ht) as E.
  cbn [length] in E. replace (pnt n [] (Some buf)) with (Some buf) in E.
  2:{ cbn. rewrite take_nil. by rewrite Nat.min_0_r. }
  change (Z.of_nat 0) with 0 in E. rewrite E. cbn [obind app pnt fmap option_fmap option_map].
  assert (Hset : aset (take n t ++ drop (n `min` length t) buf) (Z.of_nat m) 0
    = Done (take m t ++ 0 :: drop (S m) buf)).
  { rewrite aset_upd by (rewrite length_pnt; lia). unfold upd. rewrite Nat2Z.id. f_equal.
    apply list_eq. intros j. destruct (decide (j = m)) as [->|Hne].
    - rewrite list_lookup_insert_eq by (rewrite length_pnt; lia).
      rewrite lookup_app_r by (rewrite length_take; lia). rewrite length_take.
      by replace (m - m `min` length t)%nat with 0%nat by lia.
    - rewrite list_lookup_insert_ne, pnt_lookup by (done || lia).
      destruct (decide (j < m)%nat).
      + rewrite lookup_app_l, lookup_take by (rewrite ?length_take; lia).
        by rewrite !decide_True by lia.
      + rewrite lookup_app_r by (rewrite length_take; lia). rewrite length_take.
        replace (j - m `min` length t)%nat with (S (j - S m)) by lia.
        rewrite lookup_cons, lookup_drop.
        rewrite decide_False by lia. f_equal. lia. }
  rewrite i32_small by lia.
  destruct (Z.ltb_spec (Z.of_nat (length t)) (Z.of_nat n)).
  - replace (Z.of_nat (length t)) with (Z.of_nat m) at 1 by lia. rewrite Hset. done.
  - destruct (Z.eqb_spec (Z.of_nat n) 0); [lia|]. cbn [negb].
    replace (Z.of_nat n - 1) with (Z.of_nat m) by lia. rewrite Hset. done.
Qed.

Lemma vsnprintf_measure s args t :
  render s false false args = Some t -> Z.of_nat (length t) < 2147483648 ->
  _vsnprintf None 0 s args = Done (Z.of_nat (length t), None).
Proof.
  intros Ht Hlen. unfold _vsnprintf.
  pose proof (fmt_loop_render 0 None s false false args t [] ltac:(done) Ht) as E. cbn [length] in E.
  change (pnt 0 [] None) with (@None (list Z)) in E. change (Z.of_nat 0) with 0 in E.
  rewrite E. cbn [obind app pnt fmap option_fmap option_map]. by rewrite i32_small by lia.
Qed.

Lemma c_str_app t rest : Forall (fun c => c <> 0) t -> c_str (t ++ 0 :: rest) = Done t.
Proof.
  induction 1 as [|c t Hc Ht IH]; cbn; [done|]. zeq E; [done|]. by rewrite IH.
Qed.

(** Decimal text has no NUL and at most 21 characters. *)
Lemma dec_text_plain x : Forall (fun c => c <> 0) (dec_text x) /\ (length (dec_text x) <= 21)%nat.
Proof.
  assert (forall f y, Forall (fun c => c <> 0) (dec_digits f y) /\ (length (dec_digits f y) <= f)%nat) as H.
  { induction f as [|f IH]; intros y; cbn -[Z.modulo]; [by split; [constructor|lia]|].
    destruct (IH (y / 10)) as [H1 H2]. pose proof (Z.mod_pos_bound y 10 ltac:(lia)).
    split; [apply Forall_app; split; [by destruct (_ =? 0); [constructor|]|repeat constructor; lia]|].
    rewrite length_app. destruct (_ =? 0); cbn; lia. }
  unfold dec_text. destruct (x <? 0).
  - destruct (H 20%nat (- x)). split; [by constructor|cbn -[dec_digits]; lia].
  - destruct (H 20%nat x). split; [done|lia].
Qed.

(** ** Theorems *)

(** C30. For a buffer of at least [n >= 1] bytes and a format whose text the
    reference [render] defines and whose text is shorter than 2^31 ([render] is
    the text of the C standard for %d, %u, %x, %p, %s and the length l, with
    leading zeros in %x and %p; it leaves out %c, %u of a value with the sign
    bit set, the smallest long and format bytes from 127 on, which the code
    treats differently): [_vsnprintf] returns the length of the whole text and
    leaves in the buffer its first [n-1] characters (all of them if they fit)
    followed by one NUL; no byte beyond is touched. *)
Theorem vsnprintf_prefix buf (n : nat) s args t :
  (1 <= n <= length buf)%nat -> render s false false args = Some t ->
  Z.of_nat (length t) < 2147483648 ->
  let m := (length t `min` (n - 1))%nat in
  _vsnprintf (Some buf) (Z.of_nat n) s args
  = Done (Z.of_nat (length t), Some (take m t ++ 0 :: drop (S m) buf)).
Proof. apply vsnprintf_ok. Qed.

(** klib::format returns exactly the text of its format and arguments,
    with decimal numbers that read back as the argument: the measuring pass
    and the writing pass agree, and the buffer of [size+1] bytes is enough. *)
Theorem format_renders fresh fmt args t :
  (forall k, length (fresh k) = Z.to_nat k) -> render fmt false false args = Some t ->
  t <> [] -> Z.of_nat (length t) < 2147483647 -> Forall (fun c => c <> 0) t ->
  format_ fresh fmt args = Done t /\
  forall x, 0 <= x < 10 ^ 20 -> dec_value (dec_digits 20 x) = x.
Proof.
  intros Hf Ht Hne Hlen Hz. split; [|apply (dec_digits_value 20)].
  assert (1 <= length t)%nat by (destruct t; [done|cbn; lia]).
  unfold format_, snprintf. change (u64 (u64 (-1) + 1)) with 0.
  rewrite (vsnprintf_measure fmt args t) by (done || lia). cbn [obind].
  destruct (Z.ltb_spec 0 (Z.of_nat (length t))); [|lia]. cbn [passert obind].
  rewrite u64_small by lia. replace (Z.of_nat (length t) + 1) with (Z.of_nat (S (length t))) by lia.
  rewrite (vsnprintf_ok _ (S (length t)) fmt args t); [|rewrite Hf; lia|done|lia]. cbn [obind].
  replace (length t `min` (S (length t) - 1))%nat with (length t) by lia.
  rewrite take_ge by lia. by apply c_str_app.
Qed.

(** In the measuring pass [%c] consumes no argument, so a directive after
    it is measured with the wrong one: [format("%c%s",'A',"hi")] reads the
    character as a string pointer. *)
Theorem format_char_misreads : forall fresh,
  format_ fresh [37; 99; 37; 115] [VNum 65; VStr [104; 105]] = Undef.
Proof. intros fresh. reflexivity. Qed.

(** ** Witnesses *)
Lemma vsnprintf_prefix_witness :
  _vsnprintf (Some [7; 7; 7; 7; 7]) 4 [120; 37; 100] [VNum (-12)] = Done (4, Some [120; 45; 49; 0; 7]).
Proof. exact (vsnprintf_prefix [7; 7; 7; 7; 7] 4 [120; 37; 100] [VNum (-12)] [120; 45; 49; 50]
  ltac:(cbn; lia) eq_refl ltac:(cbn; lia)). Defined.
Lemma format_renders_witness :
  format_ (fun k => replicate (Z.to_nat k) 9) [37; 115; 61; 37; 100] [VStr [104; 105]; VNum 40]
  = Done [104; 105; 61; 52; 48].
Proof.
  refine (proj1 (format_renders (fun k => replicate (Z.to_nat k) 9) [37; 115; 61; 37; 100]
    [VStr [104; 105]; VNum 40] [104; 105; 61; 52; 48] _ eq_refl _ _ _)).
  - intros k. apply length_replicate.
  - discriminate.
  - cbn. lia.
  - repeat constructor; discriminate.
Defined.

End Printf.
