(* ===== verification/Ring.v ===== *)
(** * Ring: ring buffers, console output and the kernel log (include/klib.hh, utils/klib.cc)

    [klib::ringbuf] keeps two counters that only grow and an array of 128 slots.
    The characters of the non-blocking console and the records of the kernel log
    are in such rings. The serial port is its status register, whose answers are a
    list given from outside, and the bytes that have been sent. *)

From S2P Require Import Prelude Klib Printf.
Import Printf.Printf.
Local Open Scope Z_scope.

Module Ring.

(** ** klib::ringbuf *)

Section Ringbuf.
Context {T : Type}.

Record ringbuf : Type := mkRing { head : Z; tail : Z; buff : list T }.

(** The index of a counter: an int becomes a size_t before the remainder. *)
Definition slot (x : Z) : Z := u64 x mod 128.

Definition put (r : ringbuf) (d : T) : outcome ringbuf :=
  let* b := aset (buff r) (slot (tail r)) d in
  Done (mkRing (head r) (i32 (tail r + 1)) b).
(** The slot that req() hands out, by its index. *)
Definition req (r : ringbuf) : Z * ringbuf :=
  (slot (tail r), mkRing (head r) (i32 (tail r + 1)) (buff r)).
Definition pop (r : ringbuf) : ringbuf := mkRing (i32 (head r + 1)) (tail r) (buff r).
Definition get (r : ringbuf) : outcome T := aget (buff r) (slot (head r)).
Definition empty (r : ringbuf) : bool := head r =? tail r.
Definition full (r : ringbuf) : bool := i32 (head r - tail r) =? 1.
End Ringbuf.
Arguments ringbuf T : clear implicits.

(** ** The serial port and the console *)

(** The answers of the status register that are still to come ([txidle] and
    [rxnemp]), the bytes that wait to be received, and the bytes sent. *)
Record uart : Type := mkUart { lsr : list (bool * bool); rhr : list Z; sent : list Z }.

(** Reading the status register; the port that is asked for ever does not answer. *)
Definition read_lsr (u : uart) : outcome (bool * bool * uart) :=
  match lsr u with
  | [] => Diverge
  | x :: l => Done (x, mkUart l (rhr u) (sent u))
  end.
Definition write_thr (u : uart) (c : Z) : uart := mkUart (lsr u) (rhr u) (sent u ++ [c]).

Fixpoint wait_idle (l : list (bool * bool)) : outcome (list (bool * bool)) :=
  match l with
  | [] => Diverge
  | (txidle, _) :: l => if txidle then Done l else wait_idle l
  end.
(** platform::uart0::blocking::putc. *)
Definition blocking_putc (u : uart) (c : Z) : outcome uart :=
  let* l := wait_idle (lsr u) in Done (write_thr (mkUart l (rhr u) (sent u)) c).
(** platform::uart0::nonblocking::putc. *)
Definition nonblocking_putc (u : uart) (c : Z) : outcome (bool * uart) :=
  let* ((txidle, _), u) := read_lsr u in
  if txidle then Done (true, write_thr u c) else Done (false, u).

(** platform::uart0::blocking::getc and nonblocking::getc; the holding register reads 0
    when nothing has been received. *)
Fixpoint wait_rx (l : list (bool * bool)) : outcome (list (bool * bool)) :=
  match l with
  | [] => Diverge
  | (_, rxnemp) :: l => if rxnemp then wait_rx l else Done l
  end.
Definition read_rhr (u : uart) : Z * uart :=
  match rhr u with
  | [] => (0, u)
  | c :: l => (c, mkUart (lsr u) l (sent u))
  end.
Definition blocking_getc (u : uart) : outcome (Z * uart) :=
  let* l := wait_rx (lsr u) in Done (read_rhr (mkUart l (rhr u) (sent u))).
Definition nonblocking_getc (u : uart) : outcome (Z * uart) :=
  let* ((_, rxnemp), u) := read_lsr u in
  if rxnemp then Done (0, u) else Done (read_rhr u).

(** IO::_blockingputs, below the lock of the console. *)
Fixpoint _blockingputs (s : list Z) (u : uart) : outcome uart :=
  match s with
  | [] => Done u
  | c :: s => if c =? 0 then Done u else let* u := blocking_putc u c in _blockingputs s u
  end.

(** IO::next: a char, which is unsigned on RISC-V; -1 when there is none, that is 255. *)
Definition next (r : ringbuf Z) : outcome (Z * ringbuf Z) :=
  if empty r then Done (u8 (-1), r) else let* c := get r in Done (c, pop r).

(** The two loops of IO::_nonblockingputs: the characters go into the ring (the wait
    for room is endless, since nothing takes characters out meanwhile), and the ring
    goes to the port as long as that is idle. *)
Fixpoint put_all (s : list Z) (r : ringbuf Z) : outcome (ringbuf Z) :=
  match s with
  | [] => Done r
  | c :: s => if c =? 0 then Done r
              else if full r then Diverge
              else let* r := put r c in put_all s r
  end.
Fixpoint drain (l : list (bool * bool)) (rx out : list Z) (r : ringbuf Z) : outcome (uart * ringbuf Z) :=
  match l with
  | [] => Diverge
  | (txidle, _) :: l =>
      if txidle then
        let* (c, r) := next r in
        if 0 <? c then drain l rx (out ++ [c]) r else Done (mkUart l rx out, r)
      else Done (mkUart l rx out, r)
  end.
Definition _nonblockingputs (s : list Z) (u : uart) (r : ringbuf Z) : outcome (uart * ringbuf Z) :=
  let* u := _blockingputs [110; 98; 108; 107; 112; 116; 115] u in
  let* r := put_all s r in
  drain (lsr u) (rhr u) (sent u) r.

(** ** printf *)

(** The static [out_buf] of _vprintf comes in and goes out; puts() appends to the
    console; a text that is too long ends in an endless loop. *)
Definition _vprintf (out_buf : list Z) (con : list Z) (s : list Z) (vl : list vaarg)
  : outcome (list Z * list Z) :=
  let* (res, _) := _vsnprintf None (u64 (-1)) s vl in
  if 2000 <=? u64 (i32 (res + 1)) then Diverge
  else
    let* (_, ob) := _vsnprintf (Some out_buf) (u64 (i32 (res + 1))) s vl in
    match ob with
    | None => Undef
    | Some b => let* t := c_str b in Done (b, con ++ t)
    end.

(** ** The kernel log *)

Record LogItem : Type := mkItem { id : Z; buf : list Z }.
Record Logger : Type := mkLogger { ring : list (ringbuf LogItem); lid : Z; outputLevel : Z }.

Definition log (g : Logger) (con : list Z) (level : Z) (fmt : list Z) (vl : list vaarg)
  : outcome (Logger * list Z) :=
  let* r := aget (ring g) level in
  let '(i, r) := req r in
  let* item := aget (buff r) i in
  let lid' := u32 (lid g + 1) in
  let* (_, ob) := _vsnprintf (Some (buf item)) 500 fmt vl in
  match ob with
  | None => Undef
  | Some b =>
      let* bs := aset (buff r) i (mkItem (i32 lid') b) in
      let* rs := aset (ring g) level (mkRing (head r) (tail r) bs) in
      let g' := mkLogger rs lid' (outputLevel g) in
      if outputLevel g <=? level then let* t := c_str b in Done (g', con ++ t)
      else Done (g', con)
  end.

(** The format strings of dump(). *)
Definition fmt_level : list Z :=
  [10; 62; 62; 62; 62; 62; 62; 32; 108; 111; 103; 32; 108; 101; 118; 101; 108; 32; 37; 100; 32; 60;
   60; 60; 60; 60; 60; 10].
Definition fmt_item : list Z := [37; 100; 58; 32; 37; 115].

(** The inner loop of dump(), from [i] on, [n] turns. *)
Fixpoint dump_items (n : nat) (i : Z) (bs : list LogItem) (st : list Z * list Z) : outcome (list Z * list Z) :=
  match n with
  | O => Done st
  | S n =>
      let* item := aget bs (Z.rem i 128) in
      let* s := c_str (buf item) in
      let* st := _vprintf (fst st) (snd st) fmt_item [VNum (id item); VStr s] in
      dump_items n (i + 1) bs st
  end.
Fixpoint dump_levels (n : nat) (g : Logger) (st : list Z * list Z) : outcome (list Z * list Z) :=
  match n with
  | O => Done st
  | S lvl =>
      let* r := aget (ring g) (Z.of_nat lvl) in
      let* st := _vprintf (fst st) (snd st) fmt_level [VNum (Z.of_nat lvl)] in
      let i := kmax (i32 (tail r - 10)) 0 in
      let* st := dump_items (Z.to_nat (tail r - i)) i (buff r) st in
      dump_levels lvl g st
  end.
Definition nlevels : nat := 5.
Definition dump (g : Logger) (st : list Z * list Z) : outcome (list Z * list Z) :=
  dump_levels nlevels g st.

(** ** The ring is a queue as long as it holds at most 128 elements *)

Lemma slot_small x : 0 <= x < 2147483648 -> slot x = x mod 128.
Proof. intros H. unfold slot. by rewrite u64_small by lia. Qed.
Lemma slot_range x : 0 <= slot x < 128.
Proof. unfold slot. apply Z.mod_pos_bound. lia. Qed.
(** Positions less than 128 apart are different slots. *)
Lemma slot_inj x y : 0 <= x < 2147483648 -> 0 <= y < 2147483648 -> slot x = slot y -> Z.abs (x - y) < 128 -> x = y.
Proof.
  intros Hx Hy. rewrite !slot_small by done. intros E Hd.
  pose proof (Z.div_mod x 128 ltac:(lia)). pose proof (Z.div_mod y 128 ltac:(lia)).
  assert (x - y = 128 * (x / 128 - y / 128)) by lia. nia.
Qed.

Section Queue.
Context {T : Type}.
Implicit Types (r : ringbuf T) (q : list T).

Definition holds r q : Prop :=
  0 <= head r /\ tail r = head r + Z.of_nat (length q) /\ tail r < 2147483648 /\
  length (buff r) = 128%nat /\ (length q <= 128)%nat /\
  forall k x, q !! k = Some x -> buff r !! Z.to_nat (slot (head r + Z.of_nat k)) = Some x.

Lemma holds_put r q d :
  holds r q -> (length q < 128)%nat -> tail r + 1 < 2147483648 ->
  exists r', put r d = Done r' /\ holds r' (q ++ [d]) /\ tail r' = tail r + 1.
Proof.
  intros (H0 & Ht & Hm & Hl & Hq & Hb) Hlt Hm'. unfold put. pose proof (slot_range (tail r)).
  rewrite aset_upd by lia. cbn [obind]. eexists; split; [done|]. rewrite i32_small by lia.
  split; [|done]. unfold holds. cbn. rewrite length_upd, length_app. cbn.
  do 5 (split; [lia|]). intros k x Hk.
  assert (k < length (q ++ [d]))%nat as Hkl by by eapply lookup_lt_Some.
  rewrite length_app in Hkl. cbn in Hkl. unfold upd.
  destruct (decide (k = length q)) as [->|Hne].
  - rewrite lookup_app_r, Nat.sub_diag in Hk by lia. injection Hk as ->. rewrite <- Ht.
    apply list_lookup_insert_eq. lia.
  - rewrite lookup_app_l in Hk by lia. rewrite list_lookup_insert_ne; [by apply Hb|].
    intros E. pose proof (slot_range (head r + Z.of_nat k)).
    assert (tail r = head r + Z.of_nat k) by (apply slot_inj; lia). lia.
Qed.

Lemma holds_empty r q : holds r q -> empty r = match q with [] => true | _ => false end.
Proof.
  intros (H0 & Ht & _). unfold empty. destruct (Z.eqb_spec (head r) (tail r)), q; cbn in *; done || lia.
Qed.
Lemma holds_full r q : holds r q -> full r = false.
Proof.
  intros (H0 & Ht & Hm & _ & Hq & _). unfold full. rewrite i32_small by lia.
  destruct (Z.eqb_spec (head r - tail r) 1); [lia|done].
Qed.
Lemma holds_get r x q : holds r (x :: q) -> get r = Done x /\ holds (pop r) q.
Proof.
  intros (H0 & Ht & Hm & Hl & Hq & Hb). cbn in Ht, Hq. split.
  - unfold get, aget. pose proof (slot_range (head r)). destruct (Z.ltb_spec (slot (head r)) 0); [lia|].
    pose proof (Hb 0%nat x eq_refl) as E. rewrite Z.add_0_r in E. by rewrite E.
  - unfold holds, pop. cbn. rewrite i32_small by lia. do 5 (split; [lia|]). intros k y Hk.
    rewrite <- (Hb (S k) y Hk). do 3 f_equal. lia.
Qed.
End Queue.

(** A sequence of characters put in and taken out, and the queue it should be. *)
Inductive ringop : Type := Put (c : Z) | Next.
Fixpoint ring_run (ops : list ringop) (r : ringbuf Z) : outcome (list Z * ringbuf Z) :=
  match ops with
  | [] => Done ([], r)
  | Put c :: ops => let* r := put r c in ring_run ops r
  | Next :: ops =>
      let* (c, r) := next r in let* (cs, r) := ring_run ops r in Done (c :: cs, r)
  end.
Fixpoint queue_run (ops : list ringop) (q : list Z) : list Z * list Z :=
  match ops with
  | [] => ([], q)
  | Put c :: ops => queue_run ops (q ++ [c])
  | Next :: ops =>
      match q with
      | [] => let '(cs, q) := queue_run ops [] in (255 :: cs, q)
      | c :: q => let '(cs, q) := queue_run ops q in (c :: cs, q)
      end
  end.
(** At no time are there more than 128 characters in the queue. *)
Fixpoint fits (ops : list ringop) (n : nat) : bool :=
  match ops with
  | [] => true
  | Put _ :: ops => (n <? 128)%nat && fits ops (S n)
  | Next :: ops => fits ops (pred n)
  end.

Lemma ring_run_queue ops r q :
  holds r q -> fits ops (length q) = true -> tail r + Z.of_nat (length ops) < 2147483648 ->
  exists r', ring_run ops r = Done (fst (queue_run ops q), r') /\ holds r' (snd (queue_run ops q)).
Proof.
  revert r q. induction ops as [|[c|] ops IH]; intros r q Hr; cbn [fits length ring_run queue_run].
  - intros _ _. by exists r.
  - intros [Hl%Nat.ltb_lt Hf]%andb_true_iff Ht.
    destruct (holds_put r q c Hr Hl) as (r' & -> & Hr' & Ht'); [lia|]. cbn [obind].
    apply IH; [done| |lia]. by rewrite length_app, Nat.add_1_r.
  - intros Hf Ht. unfold next. rewrite (holds_empty r q Hr). destruct q as [|c q].
    + cbn [obind]. destruct (IH r [] Hr Hf) as (r' & -> & Hr'); [lia|]. cbn [obind].
      exists r'. by destruct (queue_run ops []).
    + destruct (holds_get r c q Hr) as [-> Hp]. cbn [obind].
      destruct (IH (pop r) q Hp Hf) as (r' & -> & Hr'); [cbn; lia|]. cbn [obind].
      exists r'. by destruct (queue_run ops q).
Qed.

(** A new ring, whatever its slots hold. *)
Definition ringbuf_new {T} (b : list T) : ringbuf T := mkRing 0 0 b.
Lemma holds_new {T} (b : list T) : length b = 128%nat -> holds (ringbuf_new b) [].
Proof. intros H. unfold holds. cbn. do 5 (split; [lia|]). done. Qed.

(** C31. The ring of characters refines a queue: whatever sequence of put() and
    IO::next() is run on a new ring, as long as at most 128 characters wait at a time,
    next() returns the characters in the order they were put, each once, and the value
    255 when none waits. *)
Theorem ring_fifo ops (b : list Z) :
  length b = 128%nat -> fits ops 0 = true -> Z.of_nat (length ops) < 2147483648 ->
  exists r, ring_run ops (ringbuf_new b) = Done (fst (queue_run ops []), r) /\
    holds r (snd (queue_run ops [])).
Proof. intros Hb Hf Hl. apply ring_run_queue; [by apply holds_new|done|cbn; lia]. Qed.

(** full() is never true, so the 129th character takes the place of the first: next()
    returns the newest one, and the first is lost. *)
Theorem ring_overwrites (q : list Z) r d :
  holds r q -> length q = 128%nat -> tail r + 1 < 2147483648 ->
  full r = false /\ exists r', put r d = Done r' /\ next r' = Done (d, pop r').
Proof.
  intros Hr Hq Ht. split; [by eapply holds_full|]. destruct Hr as (H0 & Et & Hm & Hl & _ & Hb).
  unfold put. pose proof (slot_range (tail r)). rewrite aset_upd by lia. cbn [obind].
  eexists; split; [done|]. rewrite i32_small by lia. unfold next, empty. cbn.
  destruct (Z.eqb_spec (head r) (tail r + 1)); [lia|]. unfold get, aget. cbn.
  pose proof (slot_range (head r)). destruct (Z.ltb_spec (slot (head r)) 0); [lia|].
  assert (slot (head r) = slot (tail r)) as ->.
  { rewrite !slot_small by lia. rewrite Et, Hq. change (Z.of_nat 128) with (1 * 128). by rewrite Z.mod_add. }
  unfold upd. rewrite list_lookup_insert_eq by lia. done.
Qed.

(** The loop that sends the ring to the port does not see that it is empty: the
    unsigned 255 is above zero, and goes out as long as the port is idle. *)
Theorem nonblocking_sends_255 :
  exists r, _nonblockingputs [65; 66; 0]
    (mkUart (replicate 12 (true, false) ++ [(false, false)]) [] []) (ringbuf_new (replicate 128 0))
  = Done (mkUart [] [] ([110; 98; 108; 107; 112; 116; 115] ++ [65; 66] ++ [255; 255; 255]), r).
Proof. eexists. vm_compute. reflexivity. Qed.

(** Both getc functions test the status the wrong way round: as long as a byte is
    there the blocking one waits and the other one returns 0 and leaves the byte. *)
Theorem getc_ignores_input (l : list (bool * bool)) c rx out :
  Forall (fun x => snd x = true) l ->
  blocking_getc (mkUart l (c :: rx) out) = Diverge /\
  forall b, nonblocking_getc (mkUart ((b, true) :: l) (c :: rx) out) = Done (0, mkUart l (c :: rx) out).
Proof.
  intros Hl. split; [|done]. unfold blocking_getc. cbn [lsr].
  assert (wait_rx l = Diverge) as ->; [|done].
  induction Hl as [|[b r] l Hr Hl IH]; [done|]. cbn in *. by rewrite Hr.
Qed.

(** ** The kernel log *)

(** What printf sends to the console: the rendered text. *)
Lemma vsnprintf_measure_any (n : nat) s args t :
  render s false false args = Some t -> Z.of_nat (length t) < 2147483648 ->
  _vsnprintf None (Z.of_nat n) s args = Done (Z.of_nat (length t), None).
Proof.
  intros Ht Hlen. unfold _vsnprintf.
  pose proof (fmt_loop_render n None s false false args t [] ltac:(done) Ht) as E. cbn [length] in E.
  change (pnt n [] None) with (@None (list Z)) in E. change (Z.of_nat 0) with 0 in E.
  rewrite E. cbn [obind app pnt fmap option_fmap option_map]. by rewrite i32_small by lia.
Qed.
Lemma printf_renders ob con s args t :
  length ob = 2000%nat -> render s false false args = Some t -> (length t < 1999)%nat ->
  Forall (fun c => c <> 0) t ->
  exists ob', _vprintf ob con s args = Done (ob', con ++ t) /\ length ob' = 2000%nat.
Proof.
  intros Ho Ht Hl Hz. unfold _vprintf.
  assert (exists n : nat, u64 (-1) = Z.of_nat n) as [n ->].
  { exists (Z.to_nat (u64 (-1))). rewrite Z2Nat.id; [done|by vm_compute]. }
  rewrite (vsnprintf_measure_any n s args t Ht) by lia. cbn [obind].
  rewrite i32_small, u64_small by lia. destruct (Z.leb_spec 2000 (Z.of_nat (length t) + 1)); [lia|].
  replace (Z.of_nat (length t) + 1) with (Z.of_nat (S (length t))) by lia.
  rewrite (vsnprintf_ok ob (S (length t)) s args t) by (done || lia). cbn [obind].
  replace (length t `min` (S (length t) - 1))%nat with (length t) by lia. rewrite take_ge by lia.
  rewrite c_str_app by done. cbn [obind]. eexists; split; [done|].
  rewrite length_app. cbn. rewrite length_drop. lia.
Qed.

(** The history of the log: the level, the number and the text of every record. *)
Record record : Type := mkRec { rlevel : Z; rid : Z; rtext : list Z }.
Definition level_of (h : list record) (l : Z) : list record := filter (fun x => rlevel x = l) h.

(** The slot of a record: its number, and a buffer that begins with its text. *)
Definition shows (x : record) (it : LogItem) : Prop :=
  id it = rid x /\ length (buf it) = 500%nat /\ c_str (buf it) = Done (rtext x).
(** A ring of records after [xs] have been entered. *)
Definition keeps (r : ringbuf LogItem) (xs : list record) : Prop :=
  length (buff r) = 128%nat /\ tail r = Z.of_nat (length xs) /\
  Forall (fun it => length (buf it) = 500%nat) (buff r) /\
  forall k x, xs !! k = Some x -> (length xs <= k + 128)%nat ->
    exists it, buff r !! Z.to_nat (slot (Z.of_nat k)) = Some it /\ shows x it.
Definition logged (g : Logger) (h : list record) : Prop :=
  length (ring g) = nlevels /\ lid g = Z.of_nat (length h) /\
  forall l r, ring g !! l = Some r -> keeps r (level_of h (Z.of_nat l)).

Lemma keeps_add r xs x it :
  keeps r xs -> shows x it -> Z.of_nat (length xs) + 1 < 2147483648 ->
  keeps (mkRing (head r) (i32 (tail r + 1)) (upd (buff r) (slot (tail r)) it)) (xs ++ [x]).
Proof.
  intros (Hl & Ht & Hf & Hk) Hs Hm. pose proof (slot_range (tail r)) as Hr. unfold keeps. cbn.
  rewrite length_upd, length_app. cbn. rewrite i32_small by lia.
  split; [done|]. split; [lia|]. split; [apply Forall_insert; [done|by destruct Hs as (_ & ? & _)]|].
  intros k y Hy Hge. unfold upd. destruct (decide (k = length xs)) as [->|Hne].
  - rewrite lookup_app_r, Nat.sub_diag in Hy by lia. injection Hy as <-. exists it. split; [|done].
    rewrite <- Ht. apply list_lookup_insert_eq. lia.
  - assert (k < length (xs ++ [x]))%nat as Hkl by by eapply lookup_lt_Some.
    rewrite length_app in Hkl. cbn in Hkl. rewrite lookup_app_l in Hy by lia.
    rewrite list_lookup_insert_ne; [apply Hk; [done|lia]|].
    intros E. pose proof (slot_range (Z.of_nat k)).
    assert (tail r = Z.of_nat k) by (apply slot_inj; lia). lia.
Qed.

(** What a record needs to be printed by "%d: %s" into the buffer of printf. *)
Definition printable (x : record) : Prop :=
  0 <= rid x < 2147483648 /\ (length (rtext x) <= 499)%nat /\ Forall (fun c => 1 <= c < 256) (rtext x).

Lemma level_of_snoc h x l :
  level_of (h ++ [x]) l = level_of h l ++ (if decide (rlevel x = l) then [x] else []).
Proof. unfold level_of. rewrite filter_app. by rewrite filter_cons, filter_nil. Qed.
Lemma level_of_Forall (P : record -> Prop) h l : Forall P h -> Forall P (level_of h l).
Proof. rewrite !Forall_forall. intros H x [_ Hx]%list_elem_of_filter. by apply H. Qed.
Lemma level_of_length h l : (length (level_of h l) <= length h)%nat.
Proof. apply length_filter. Qed.

Lemma log_logged g h con level fmt args t :
  logged g h -> 0 <= level < 5 -> render fmt false false args = Some t ->
  Z.of_nat (length t) < 2147483648 -> Forall (fun c => 1 <= c < 256) t ->
  Z.of_nat (length h) + 1 < 2147483648 ->
  let x := mkRec level (Z.of_nat (length h) + 1) (take 499 t) in
  exists g', log g con level fmt args
      = Done (g', con ++ (if outputLevel g <=? level then take 499 t else [])) /\
    logged g' (h ++ [x]) /\ printable x.
Proof.
  intros (Hn & Hi & Hk) Hlv Ht Hlen Hc Hm x. set (lv := Z.to_nat level).
  assert (lv < length (ring g))%nat as Hlt by (rewrite Hn; unfold nlevels; lia).
  apply lookup_lt_is_Some in Hlt as [r Hr]. pose proof (Hk _ _ Hr) as HK.
  destruct (HK) as (Hl & Htl & Hf & _). pose proof (level_of_length h (Z.of_nat lv)).
  assert (aget (ring g) level = Done r) as E.
  { unfold aget. destruct (Z.ltb_spec level 0); [lia|]. fold lv. by rewrite Hr. }
  unfold log. rewrite E. cbn [obind req buff head tail]. pose proof (slot_range (tail r)).
  destruct (lookup_lt_is_Some_2 (buff r) (Z.to_nat (slot (tail r)))) as [it Hit]; [lia|].
  assert (aget (buff r) (slot (tail r)) = Done it) as Ei.
  { unfold aget. destruct (Z.ltb_spec (slot (tail r)) 0); [lia|]. by rewrite Hit. }
  rewrite Ei. cbn [obind]. assert (length (buf it) = 500%nat) as Hb.
  { rewrite Forall_lookup in Hf. by eapply Hf. }
  assert (Forall (fun c => 1 <= c < 256) (take 499 t)) as Hc' by by apply Forall_take.
  change 500 with (Z.of_nat 500). rewrite (vsnprintf_ok (buf it) 500 fmt args t) by (done || lia).
  cbn [obind].
  change (500 - 1)%nat with 499%nat. replace (take (length t `min` 499) t) with (take 499 t).
  2: { rewrite Nat.min_comm, <- take_take. by rewrite (take_ge t (length t)). }
  set (b := take 499 t ++ _). assert (length b = 500%nat) as Hlb.
  { unfold b. rewrite length_app, length_take, length_cons, length_drop. lia. }
  rewrite aset_upd by lia. cbn [obind]. rewrite aset_upd by (rewrite Hn; unfold nlevels; lia). cbn [obind].
  assert (c_str b = Done (take 499 t)) as Ec.
  { apply c_str_app. eapply Forall_impl; [exact Hc'|]. cbn. lia. }
  rewrite Ec, u32_small by lia. cbn [obind]. eexists.
  split; [by destruct (outputLevel g <=? level); rewrite ?app_nil_r|]. split.
  2: { split; [cbn; lia|]. split; [cbn; rewrite length_take; lia|done]. }
  split; [cbn; by rewrite length_upd|]. split; [cbn; rewrite length_app; cbn; lia|].
  intros l q Hq. cbn in Hq. rewrite level_of_snoc. change (rlevel x) with level.
  apply list_lookup_insert_Some in Hq as [(<- & <- & _)|[Hne Hq]].
  - fold lv. replace (Z.of_nat lv) with level in * by lia. rewrite decide_True by done.
    apply keeps_add; [done| |lia]. split; [cbn; rewrite i32_small; lia|done].
  - rewrite decide_False by lia. rewrite app_nil_r. by apply Hk.
Qed.

(** A line of dump(). *)
Definition line (x : record) : list Z := dec_text (rid x) ++ [58; 32] ++ rtext x.
Lemma print_item ob con x :
  length ob = 2000%nat -> printable x ->
  exists ob', _vprintf ob con fmt_item [VNum (rid x); VStr (rtext x)] = Done (ob', con ++ line x) /\
    length ob' = 2000%nat.
Proof.
  intros Ho (Hi & Hl & Hc). destruct (dec_text_plain (rid x)) as [Hd1 Hd2]. apply printf_renders; [done|..].
  - cbn -[dec_text i32]. rewrite i32_small by lia. destruct (Z.eqb_spec (rid x) (- 2 ^ 63)); [lia|].
    assert (forallb (fun c => (0 <=? c) && (c <? 256)) (rtext x) = true) as ->.
    { apply forallb_forall. intros c Hc'. rewrite Forall_forall in Hc.
      assert (1 <= c < 256) by by apply Hc, list_elem_of_In. lia. }
    cbn -[dec_text]. by rewrite app_nil_r.
  - unfold line. rewrite !length_app. cbn -[dec_text]. lia.
  - unfold line. apply Forall_app; split; [done|]. do 2 (constructor; [done|]).
    eapply Forall_impl; [exact Hc|]. cbn. lia.
Qed.

Lemma dump_items_ok n k r xs ob con :
  keeps r xs -> Forall printable xs -> Z.of_nat (length xs) < 2147483648 -> (k + n = length xs)%nat ->
  (n <= 10)%nat -> length ob = 2000%nat ->
  exists ob', dump_items n (Z.of_nat k) (buff r) (ob, con) = Done (ob', con ++ concat (line <$> drop k xs)) /\
    length ob' = 2000%nat.
Proof.
  intros HK HP Hm. revert k ob con. induction n as [|n IH]; intros k ob con Hk Hn Ho; cbn [dump_items].
  - rewrite drop_ge by lia. cbn. rewrite app_nil_r. by exists ob.
  - destruct (lookup_lt_is_Some_2 xs k) as [x Hx]; [lia|].
    destruct HK as (Hl & Ht & Hf & Hb). destruct (Hb k x Hx) as (it & Hit & Hid & _ & Hs); [lia|].
    rewrite Z.rem_mod_nonneg, <- slot_small by lia. pose proof (slot_range (Z.of_nat k)).
    unfold aget at 1. destruct (Z.ltb_spec (slot (Z.of_nat k)) 0); [lia|]. rewrite Hit. cbn [obind].
    rewrite Hs, Hid. cbn [obind fst snd]. rewrite Forall_lookup in HP.
    destruct (print_item ob con x Ho) as (ob1 & -> & Ho1); [by eapply HP|]. cbn [obind].
    replace (Z.of_nat k + 1) with (Z.of_nat (S k)) by lia.
    destruct (IH (S k) ob1 (con ++ line x)) as (ob2 & -> & Ho2); [lia..|done|].
    exists ob2. split; [|done]. rewrite (drop_S xs x k Hx). cbn. by rewrite <- app_assoc.
Qed.

Definition last10 {A} (l : list A) : list A := drop (length l - 10) l.
Definition title (lvl : nat) : list Z :=
  [10; 62; 62; 62; 62; 62; 62; 32; 108; 111; 103; 32; 108; 101; 118; 101; 108; 32] ++
  [48 + Z.of_nat lvl] ++ [32; 60; 60; 60; 60; 60; 60; 10].
(** What dump() should print: for each level, the highest first, its last records. *)
Fixpoint dump_text (n : nat) (h : list record) : list Z :=
  match n with
  | O => []
  | S l => title l ++ concat (line <$> last10 (level_of h (Z.of_nat l))) ++ dump_text l h
  end.

Lemma print_title ob con lvl :
  (lvl < 5)%nat -> length ob = 2000%nat ->
  exists ob', _vprintf ob con fmt_level [VNum (Z.of_nat lvl)] = Done (ob', con ++ title lvl) /\
    length ob' = 2000%nat.
Proof.
  intros Hl Ho. assert (render fmt_level false false [VNum (Z.of_nat lvl)] = Some (title lvl)) as E.
  { do 5 (destruct lvl as [|lvl]; [by vm_compute|]). lia. }
  apply printf_renders; [done..|cbn; lia|]. repeat (constructor; [lia|]). constructor.
Qed.

Lemma dump_levels_ok n g h ob con :
  logged g h -> Forall printable h -> Z.of_nat (length h) < 2147483648 -> (n <= 5)%nat ->
  length ob = 2000%nat ->
  exists ob', dump_levels n g (ob, con) = Done (ob', con ++ dump_text n h) /\ length ob' = 2000%nat.
Proof.
  intros (Hn & Hi & Hk) HP Hm. revert ob con. induction n as [|n IH]; intros ob con Hl Ho.
  - cbn. rewrite app_nil_r. by exists ob.
  - destruct (lookup_lt_is_Some_2 (ring g) n) as [r Hr]; [rewrite Hn; unfold nlevels; lia|].
    pose proof (Hk _ _ Hr) as HK. set (xs := level_of h (Z.of_nat n)) in *.
    assert (length xs <= length h)%nat by apply level_of_length.
    assert (tail r = Z.of_nat (length xs)) as Et by apply HK.
    cbn [dump_levels dump_text]. fold xs. unfold aget at 1.
    destruct (Z.ltb_spec (Z.of_nat n) 0); [lia|]. rewrite Nat2Z.id, Hr. cbn [obind fst snd].
    destruct (print_title ob con n) as (ob1 & -> & Ho1); [lia|done|]. cbn [obind].
    rewrite i32_small, kmax_spec, Et by lia.
    replace (Z.max (Z.of_nat (length xs) - 10) 0) with (Z.of_nat (length xs - 10)) by lia.
    replace (Z.to_nat (Z.of_nat (length xs) - Z.of_nat (length xs - 10)))
      with (length xs - (length xs - 10))%nat by lia.
    destruct (dump_items_ok (length xs - (length xs - 10)) (length xs - 10) r xs ob1 (con ++ title n))
      as (ob2 & -> & Ho2); [done|by apply level_of_Forall|lia..|done|]. cbn [obind].
    destruct (IH ob2 ((con ++ title n) ++ concat (line <$> drop (length xs - 10) xs)))
      as (ob3 & -> & Ho3); [lia|done|]. exists ob3. split; [|done]. by rewrite <- !app_assoc.
Qed.

(** A run of calls of Log: the level, the format, the arguments and their text. *)
Record call : Type := mkCall { clevel : Z; cfmt : list Z; cargs : list vaarg; ctext : list Z }.
Definition call_ok (c : call) : Prop :=
  0 <= clevel c < 5 /\ render (cfmt c) false false (cargs c) = Some (ctext c) /\
  Z.of_nat (length (ctext c)) < 2147483648 /\ Forall (fun x => 1 <= x < 256) (ctext c).
Fixpoint log_all (cs : list call) (g : Logger) (con : list Z) : outcome (Logger * list Z) :=
  match cs with
  | [] => Done (g, con)
  | c :: cs => let* (g, con) := log g con (clevel c) (cfmt c) (cargs c) in log_all cs g con
  end.
(** The records of the calls; [n] have been numbered before. *)
Fixpoint records (cs : list call) (n : nat) : list record :=
  match cs with
  | [] => []
  | c :: cs => mkRec (clevel c) (Z.of_nat n + 1) (take 499 (ctext c)) :: records cs (S n)
  end.
Definition Logger_new (out : Z) : Logger :=
  mkLogger (replicate nlevels (ringbuf_new (replicate 128 (mkItem 0 (replicate 500 0))))) 0 out.

Lemma logged_new out : logged (Logger_new out) [].
Proof.
  split; [done|]. split; [done|]. intros l r [-> _]%lookup_replicate.
  split; [done|]. split; [done|]. split; [by apply Forall_replicate|]. by intros k x ?.
Qed.
Lemma log_all_logged cs g h con :
  logged g h -> Forall printable h -> Forall call_ok cs ->
  Z.of_nat (length h) + Z.of_nat (length cs) < 2147483648 ->
  exists g' con', log_all cs g con = Done (g', con') /\ logged g' (h ++ records cs (length h)) /\
    Forall printable (h ++ records cs (length h)).
Proof.
  revert g h con. induction cs as [|c cs IH]; intros g h con Hg Hp Hc Hm; cbn [log_all records length].
  - rewrite app_nil_r. by exists g, con.
  - apply Forall_cons in Hc as [(Hl & Ht & Hn & Hb) Hc]. cbn in Hm.
    destruct (log_logged g h con (clevel c) (cfmt c) (cargs c) (ctext c)) as (g1 & -> & Hg1 & Hx);
      [done..|lia|]. cbn [obind].
    edestruct (IH g1 (h ++ [mkRec (clevel c) (Z.of_nat (length h) + 1) (take 499 (ctext c))]))
      as (g2 & con2 & -> & Hg2 & Hp2); [done|by apply Forall_app; auto|done|rewrite length_app; cbn; lia|].
    rewrite length_app, Nat.add_1_r, <- app_assoc in Hg2, Hp2. by exists g2, con2.
Qed.

(** The kernel log: after any number of calls of Log (fewer than 2^31), whatever
    their levels, formats and arguments, dump() returns and prints for each level, the
    highest first, its title and then its last ten records, or all if they are fewer,
    in the order in which they were logged, each with its number counted over all
    levels and its text cut to the 499 characters that fit. *)
Theorem log_dump_exact cs out con ob :
  Forall call_ok cs -> Z.of_nat (length cs) < 2147483648 -> length ob = 2000%nat ->
  exists g con', log_all cs (Logger_new out) con = Done (g, con') /\
    exists ob', dump g (ob, con') = Done (ob', con' ++ dump_text 5 (records cs 0)).
Proof.
  intros Hc Hm Ho.
  destruct (log_all_logged cs (Logger_new out) [] con) as (g & con' & E & Hg & Hp);
    [apply logged_new|constructor|done|cbn; lia|].
  exists g, con'. split; [done|]. cbn [app length] in Hg, Hp.
  destruct (dump_levels_ok 5 g (records cs 0) ob con') as (ob' & Hd & _); [done..| |lia|done|by exists ob'].
  enough (forall cs n, length (records cs n) = length cs) as -> by done.
  clear. induction cs; intros; cbn; auto.
Qed.

(** "on %d" logged three times at level 2. *)
Definition three_calls : list call :=
  [mkCall 2 [111; 110; 32; 37; 100] [VNum 7] [111; 110; 32; 55];
   mkCall 4 [33] [] [33]; mkCall 2 [111; 110; 32; 37; 100] [VNum (-1)] [111; 110; 32; 45; 49]].
Lemma log_dump_exact_witness :
  Forall call_ok three_calls /\
  exists g con', log_all three_calls (Logger_new 3) [] = Done (g, con') /\
    exists ob', dump g (replicate 2000 0, con') = Done (ob', con' ++ dump_text 5 (records three_calls 0)).
Proof.
  assert (Forall call_ok three_calls) as H.
  { repeat constructor; cbn; lia. }
  split; [done|]. exact (log_dump_exact three_calls 3 [] (replicate 2000 0) H ltac:(cbn; lia) eq_refl).
Defined.

Definition five_ops : list ringop := [Put 65; Put 66; Next; Next; Next].
Lemma ring_fifo_witness :
  exists r, ring_run five_ops (ringbuf_new (replicate 128 0)) = Done ([65; 66; 255], r) /\ holds r [].
Proof. exact (ring_fifo five_ops (replicate 128 0) eq_refl eq_refl ltac:(cbn; lia)). Defined.

End Ring.
