(* ===== verification/Sched.v ===== *)
(** * Sched: the scheduler, semaphores and condition variables
    (kernel/sched.cc, include/sched.hh, kernel/lock.cc, kernel/kernel.cc)

    The state is the shared scheduler plus the [curtask] pointers of the two
    harts, seen from the hart that runs the code; the other hart does not schedule
    ([othertask] is what it has as its current task, an identifier without a task
    when it has none, as after init). Tasks are named by their id;
    [tasks] gives the [Scheduable] part of each. A blocking call is the part
    up to the context switch, so that the interleaving of tasks is explicit. *)

From S2P Require Import Prelude.
From stdpp Require Import gmap.
Local Open Scope Z_scope.

Module Sched.

Inductive State : Type := Init | Ready | Running | Pending | Zombie.
#[export] Instance State_eq_dec : EqDecision State.
Proof. solve_decision. Defined.

Record Scheduable : Type := mkScheduable { prior : Z; state : State }.

Definition maxPrior : Z := 1.

Record Scheduler : Type := mkScheduler {
  tasks : gmap Z Scheduable;
  ready : list (list Z);      (* ready[0..maxPrior] *)
  pending : gset Z;
  curtask : Z;                (* kHartObj().curtask of this hart *)
  othertask : Z;              (* curtask of the other hart *)
  stip : bool                 (* sip.stip, set to ask for a reschedule *)
}.

Definition task_of (s : Scheduler) (t : Z) : outcome Scheduable :=
  match tasks s !! t with Some x => Done x | None => Undef end.
Definition set_state (s : Scheduler) (t : Z) (x : State) : Scheduler :=
  match tasks s !! t with
  | Some y => mkScheduler (<[t := mkScheduable (prior y) x]> (tasks s)) (ready s) (pending s)
                (curtask s) (othertask s) (stip s)
  | None => s
  end.
Definition set_ready (s : Scheduler) (r : list (list Z)) : Scheduler :=
  mkScheduler (tasks s) r (pending s) (curtask s) (othertask s) (stip s).
Definition set_pending (s : Scheduler) (p : gset Z) : Scheduler :=
  mkScheduler (tasks s) (ready s) p (curtask s) (othertask s) (stip s).
Definition set_stip (s : Scheduler) (b : bool) : Scheduler :=
  mkScheduler (tasks s) (ready s) (pending s) (curtask s) (othertask s) b.

(** [list::remove] drops every occurrence. *)
Definition list_remove_all (t : Z) (l : list Z) : list Z := filter (fun x => x <> t) l.

Definition add (s : Scheduler) (t : Z) : outcome Scheduler :=
  let* x := task_of s t in
  if decide (state x = Zombie \/ state x = Pending) then Done s
  else
    let* q := aget (ready s) (prior x) in
    let* r := aset (ready s) (prior x) (q ++ [t]) in
    let s1 := set_ready s r in
    let* c := task_of s (curtask s) in
    Done (if prior x <? prior c then set_stip s1 true else s1).

(** The loop of Scheduler::next over the priorities. *)
Fixpoint next_loop (i : nat) (qs : list (list Z)) : option (Z * list (list Z)) :=
  match i, qs with
  | S i', q :: qs' =>
      match q with
      | t :: q' => Some (t, q' :: qs')
      | [] => match next_loop i' qs' with
              | Some (t, r) => Some (t, [] :: r)
              | None => None
              end
      end
  | _, _ => None
  end.
Definition next (s : Scheduler) (prev : Z) : outcome (option Z * Scheduler) :=
  let* s1 := add s prev in
  match next_loop (Z.to_nat (maxPrior + 1)) (ready s1) with
  | Some (t, r) => Done (Some t, set_ready s1 r)
  | None => Done (None, s1)
  end.

Definition sleep (s : Scheduler) (t : Z) : outcome Scheduler :=
  let* x := task_of s t in
  passert (bool_decide (state x <> Pending)) ;;;
  let s1 := set_state s t Pending in
  let* q := aget (ready s1) (prior x) in
  let* r := aset (ready s1) (prior x) (list_remove_all t q) in
  Done (set_pending (set_ready s1 r) ({[t]} ∪ pending s1)).

Definition wakeup (s : Scheduler) (t : Z) : outcome Scheduler :=
  let* x := task_of s t in
  if decide (state x = Pending)
  then add (set_state (set_pending s (pending s ∖ {[t]})) t Ready) t
  else Done s.

Definition remove (s : Scheduler) (t : Z) : outcome Scheduler :=
  let* x := task_of s t in
  let s1 := set_pending s ({[t]} ∪ pending s) in
  let* q := aget (ready s1) (prior x) in
  let* r := aset (ready s1) (prior x) (list_remove_all t q) in
  Done (set_ready s1 r).

(** schedule(): choose the next task and switch to it (Task::switchTo); a null
    choice is dereferenced. The register save and restore have no effect here. *)
Definition schedule (s : Scheduler) : outcome Scheduler :=
  let* (nx, s1) := next s (curtask s) in
  match nx with
  | None => Undef
  | Some t =>
      let s2 := mkScheduler (tasks s1) (ready s1) (pending s1) t (othertask s1) (stip s1) in
      passert (bool_decide (curtask s2 <> othertask s2)) ;;; Done s2
  end.

(** kernel::yield and kernel::sleep, up to the return of the next task. *)
Definition kyield (s : Scheduler) : outcome Scheduler := schedule s.
Definition ksleep (s : Scheduler) : outcome Scheduler :=
  let* s1 := sleep s (curtask s) in kyield s1.

(** Task::exit as far as the scheduler sees it. *)
Definition task_exit (s : Scheduler) : outcome Scheduler :=
  let* s1 := remove (set_state s (curtask s) Zombie) (curtask s) in kyield s1.

(** condition_variable::condition_variable. *)
Definition condvar : Type := list Z.
Definition notify_one (w : condvar) (s : Scheduler) : outcome (condvar * Scheduler) :=
  match w with
  | [] => Done (w, s)
  | t :: w' => let* s' := wakeup s t in Done (w', s')
  end.
Definition notify_specific (w : condvar) (s : Scheduler) (t : Z) : outcome (condvar * Scheduler) :=
  let* s' := wakeup s t in Done (list_remove_all t w, s').
Fixpoint wakeup_all (w : list Z) (s : Scheduler) : outcome Scheduler :=
  match w with
  | [] => Done s
  | t :: w' => let* s' := wakeup s t in wakeup_all w' s'
  end.
Definition notify_all (w : condvar) (s : Scheduler) : outcome (condvar * Scheduler) :=
  let* s' := wakeup_all w s in Done ([], s').
Definition cv_wait (w : condvar) (s : Scheduler) : outcome (condvar * Scheduler) :=
  let* s' := ksleep s in Done (w ++ [curtask s], s').

(** semaphore::Semaphore. [sem_req] is one turn of the loop of [req]: it
    either takes a unit ([true]) or queues the caller and switches away. *)
Record Semaphore : Type := mkSemaphore { count : Z; waiting : list Z }.
Definition sem_req (m : Semaphore) (s : Scheduler) : outcome (bool * Semaphore * Scheduler) :=
  if count m =? 0 then
    let* s' := ksleep s in Done (false, mkSemaphore (count m) (waiting m ++ [curtask s]), s')
  else Done (true, mkSemaphore (count m - 1) (waiting m), s).
Definition sem_rel (m : Semaphore) (s : Scheduler) : outcome (Semaphore * Scheduler) :=
  match waiting m with
  | [] => Done (mkSemaphore (count m + 1) [], s)
  | t :: w => let* s' := wakeup s t in Done (mkSemaphore (count m + 1) w, s')
  end.

(** ** The invariant

    A queued task is queued once, at its priority, is not asleep and is not
    running; a task asleep is in [pending]; the running task exists. *)
Definition queued_ok (s : Scheduler) (p t : Z) : Prop :=
  exists x, tasks s !! t = Some x /\ prior x = p /\ state x <> Pending.
Record InvQ (s : Scheduler) (q0 q1 : list Z) : Prop := {
  iq_ready : ready s = [q0; q1];
  iq_q0 : Forall (queued_ok s 0) q0;
  iq_q1 : Forall (queued_ok s 1) q1;
  iq_nodup : NoDup (q0 ++ q1);
  iq_other : othertask s ∉ q0 ++ q1;
  iq_asleep : forall t x, tasks s !! t = Some x -> state x = Pending -> t ∈ pending s;
  iq_prior : forall t x, tasks s !! t = Some x -> 0 <= prior x <= maxPrior
}.
Record Inv (s : Scheduler) (q0 q1 : list Z) : Prop := {
  si_queues : InvQ s q0 q1;
  si_cur : curtask s ∉ q0 ++ q1;
  si_neq : curtask s <> othertask s;
  si_task : exists x, tasks s !! curtask s = Some x /\ state x <> Pending;
  si_othertask : forall x, tasks s !! othertask s = Some x -> state x <> Pending
}.

Lemma in_remove_all t u l : u ∈ list_remove_all t l <-> u ∈ l /\ u <> t.
Proof. unfold list_remove_all. rewrite list_elem_of_filter. tauto. Qed.
Lemma remove_all_notin t l : t ∉ l -> list_remove_all t l = l.
Proof.
  intros H. unfold list_remove_all. induction l as [|u l IH]; [done|].
  rewrite filter_cons. rewrite decide_True by set_solver. f_equal. apply IH. set_solver.
Qed.

(** Queue accesses at a valid priority. *)
Lemma prior_cases s q0 q1 t x :
  InvQ s q0 q1 -> tasks s !! t = Some x -> prior x = 0 \/ prior x = 1.
Proof. intros I H. apply (iq_prior _ _ _ I) in H. unfold maxPrior in H. lia. Qed.

(** The queues after [t] with data [x] is added. *)
Definition addq (x : Scheduable) (t : Z) (q0 q1 : list Z) : list Z * list Z :=
  if decide (state x = Zombie \/ state x = Pending) then (q0, q1)
  else if prior x =? 0 then (q0 ++ [t], q1) else (q0, q1 ++ [t]).

Lemma InvQ_stip s q0 q1 b : InvQ s q0 q1 -> InvQ (set_stip s b) q0 q1.
Proof. intros []. by split. Qed.
Lemma InvQ_push0 s q0 q1 t :
  InvQ s q0 q1 -> queued_ok s 0 t -> t ∉ q0 ++ q1 -> t <> othertask s ->
  InvQ (set_ready s [q0 ++ [t]; q1]) (q0 ++ [t]) q1.
Proof.
  intros [] Hq Hn Ho. split; auto.
  - apply Forall_app. split; [done|]. by repeat constructor.
  - rewrite <- app_assoc. cbn. rewrite <- Permutation_middle. by constructor.
  - cbn. set_solver.
Qed.
Lemma InvQ_push1 s q0 q1 t :
  InvQ s q0 q1 -> queued_ok s 1 t -> t ∉ q0 ++ q1 -> t <> othertask s ->
  InvQ (set_ready s [q0; q1 ++ [t]]) q0 (q1 ++ [t]).
Proof.
  intros [] Hq Hn Ho. split; auto.
  - apply Forall_app. split; [done|]. by repeat constructor.
  - rewrite app_assoc, (Permutation_app_comm (q0 ++ q1) [t]). by constructor.
  - cbn. set_solver.
Qed.

Lemma upd_2_0 {A} (a b v : A) : upd [a; b] 0 v = [v; b].
Proof. done. Qed.
Lemma upd_2_1 {A} (a b v : A) : upd [a; b] 1 v = [a; v].
Proof. done. Qed.

Lemma add_ok s q0 q1 t x :
  InvQ s q0 q1 -> tasks s !! t = Some x -> t ∉ q0 ++ q1 -> t <> othertask s ->
  (exists y, tasks s !! curtask s = Some y) ->
  exists s', add s t = Done s' /\ InvQ s' (addq x t q0 q1).1 (addq x t q0 q1).2 /\
    tasks s' = tasks s /\ pending s' = pending s /\ curtask s' = curtask s /\
    othertask s' = othertask s.
Proof.
  intros I Ht Hn Ho [y Hy]. unfold add, task_of, addq. rewrite Ht. cbn [obind].
  destruct (decide (state x = Zombie \/ state x = Pending)) as [|Hs]; [by exists s|].
  rewrite Hy, (iq_ready _ _ _ I). cbn [obind].
  assert (Hq : queued_ok s (prior x) t) by (exists x; tauto).
  destruct (prior_cases _ _ _ _ _ I Ht) as [Hp|Hp]; rewrite Hp in *; cbn -[Z.ltb set_ready set_stip];
    eexists; (split; [reflexivity|]); case_match; (split; [|done]);
    rewrite ?upd_2_0, ?upd_2_1; auto using InvQ_stip, InvQ_push0, InvQ_push1.
Qed.

(** Taking the head of the first non-empty queue. *)
Lemma next_loop_ok s q0 q1 t r :
  InvQ s q0 q1 -> next_loop 2 [q0; q1] = Some (t, r) ->
  exists q0' q1', r = [q0'; q1'] /\ InvQ (set_ready s r) q0' q1' /\ t ∉ q0' ++ q1' /\
    t <> othertask s /\ (exists x, tasks s !! t = Some x /\ state x <> Pending) /\
    ((q0 = t :: q0' /\ q1' = q1) \/ (q0 = [] /\ q0' = [] /\ q1 = t :: q1')).
Proof.
  intros [] Hl. cbn in Hl. destruct q0 as [|u q0]; [destruct q1 as [|u q1]; [done|]|];
    injection Hl as <- <-.
  - exists [], q1. cbn in *. inversion iq_q3 as [|? ? (x&Hx&_&Hnp) Hf]; subst. apply NoDup_cons in iq_nodup0 as [Hn Hd].
    split; [done|]. split; [split; auto; set_solver|]. split; [done|]. split; [set_solver|].
    split; [by eexists|]. by right.
  - exists q0, q1. cbn in *. inversion iq_q2 as [|? ? (x&Hx&_&Hnp) Hf]; subst. apply NoDup_cons in iq_nodup0 as [Hn Hd].
    split; [done|]. split; [split; auto; set_solver|]. split; [done|]. split; [set_solver|].
    split; [by eexists|]. by left.
Qed.

(** schedule() keeps the invariant and takes the head of the first non-empty
    queue after the running task has been queued again. *)
Lemma schedule_ok s q0 q1 x :
  InvQ s q0 q1 -> curtask s ∉ q0 ++ q1 -> curtask s <> othertask s ->
  (forall x, tasks s !! othertask s = Some x -> state x <> Pending) ->
  tasks s !! curtask s = Some x ->
  let qs := addq x (curtask s) q0 q1 in
  qs.1 ++ qs.2 <> [] ->
  exists s' q0' q1', schedule s = Done s' /\ Inv s' q0' q1' /\
    tasks s' = tasks s /\ pending s' = pending s /\ othertask s' = othertask s /\
    ((qs.1 = curtask s' :: q0' /\ q1' = qs.2) \/ (qs.1 = [] /\ q0' = [] /\ qs.2 = curtask s' :: q1')).
Proof.
  intros I Hc Hne Hot Hx qs Hq.
  destruct (add_ok s q0 q1 (curtask s) x I Hx Hc Hne) as (s1 & E1 & I1 & T1 & P1 & C1 & O1); [eauto|].
  fold qs in I1. unfold schedule, next. rewrite E1. cbn [obind].
  rewrite (iq_ready _ _ _ I1). change (Z.to_nat (maxPrior + 1)) with 2%nat.
  destruct (next_loop 2 [qs.1; qs.2]) as [[t r]|] eqn:En.
  2:{ exfalso. apply Hq. cbn in En. by destruct qs.1, qs.2. }
  destruct (next_loop_ok s1 _ _ t r I1 En) as (q0' & q1' & -> & I2 & Hn & Ho & Ht & Hcase).
  cbn [obind curtask othertask set_ready]. rewrite bool_decide_eq_true_2 by done. cbn [passert obind].
  eexists _, q0', q1'. split; [done|].
  split; [|split; [done|]; split; [done|]; split; [done|exact Hcase]].
  destruct I2. split; [by split|done|done|done|]. cbn. by rewrite T1, O1.
Qed.

(** Changing the state of a task that is in no queue. *)
Lemma InvQ_set_state s q0 q1 t st :
  InvQ s q0 q1 -> t ∉ q0 ++ q1 -> (st = Pending -> t ∈ pending s) -> InvQ (set_state s t st) q0 q1.
Proof.
  intros I Hn Hp. unfold set_state. destruct (tasks s !! t) as [y|] eqn:Ey; [|done]. destruct I.
  assert (Hk : forall p u, u ∈ q0 ++ q1 -> queued_ok s p u -> queued_ok
    (mkScheduler (<[t := mkScheduable (prior y) st]> (tasks s)) (ready s) (pending s)
       (curtask s) (othertask s) (stip s)) p u).
  { intros p u Hu (x & Hx & ?). exists x. cbn. rewrite lookup_insert_ne by (intros ->; done). done. }
  split; cbn; auto.
  - apply Forall_forall. intros u Hu. apply Hk; [set_solver|]. by apply (proj1 (Forall_forall _ _) iq_q2).
  - apply Forall_forall. intros u Hu. apply Hk; [set_solver|]. by apply (proj1 (Forall_forall _ _) iq_q3).
  - intros u x. destruct (decide (u = t)) as [->|]; [rewrite lookup_insert_eq|rewrite lookup_insert_ne by done; eauto].
    intros [= <-]. cbn. done.
  - intros u x. destruct (decide (u = t)) as [->|]; [rewrite lookup_insert_eq|rewrite lookup_insert_ne by done; eauto].
    intros [= <-]. cbn. eauto.
Qed.

Lemma InvQ_pending s q0 q1 (P : gset Z) :
  InvQ s q0 q1 -> (forall t x, tasks s !! t = Some x -> state x = Pending -> t ∈ P) ->
  InvQ (set_pending s P) q0 q1.
Proof. intros [] H. by split. Qed.

(** Removing an absent task from its queue. *)
Lemma remove_queue p t q0 q1 :
  p = 0 \/ p = 1 -> t ∉ q0 ++ q1 ->
  exists q, aget [q0; q1] p = Done q /\ aset [q0; q1] p (list_remove_all t q) = Done [q0; q1].
Proof.
  intros [-> | ->] Hn; eexists; (split; [reflexivity|]); rewrite remove_all_notin by set_solver; done.
Qed.

(** Scheduler::sleep of a task that is in no queue. *)
Lemma sleep_ok s q0 q1 t x :
  InvQ s q0 q1 -> tasks s !! t = Some x -> t ∉ q0 ++ q1 -> state x <> Pending ->
  exists s', sleep s t = Done s' /\ InvQ s' q0 q1 /\
    tasks s' = <[t := mkScheduable (prior x) Pending]> (tasks s) /\
    curtask s' = curtask s /\ othertask s' = othertask s.
Proof.
  intros I Hx Hn Hs. unfold sleep, task_of. rewrite Hx. cbn [obind].
  rewrite bool_decide_eq_true_2 by done. cbn [passert obind].
  assert (I1 : InvQ (set_state (set_pending s ({[t]} ∪ pending s)) t Pending) q0 q1).
  { apply InvQ_set_state; [|done|cbn; set_solver]. apply InvQ_pending; [done|].
    intros u y Hu Hp. apply elem_of_union. right. by apply (iq_asleep _ _ _ I u y). }
  unfold set_state in *. cbn [tasks set_pending] in *. rewrite Hx in *.
  cbn [ready]. rewrite (iq_ready _ _ _ I).
  destruct (remove_queue (prior x) t q0 q1) as (q & -> & Eq);
    [exact (prior_cases _ _ _ _ _ I Hx)|done|].
  cbn [obind]. rewrite Eq. cbn [obind]. eexists. split; [reflexivity|]. split; [|done].
  rewrite <- (iq_ready _ _ _ I). destruct I1. by split.
Qed.

(** Scheduler::wakeup of a task asleep queues it once. *)
Lemma wakeup_ok s q0 q1 t x :
  Inv s q0 q1 -> tasks s !! t = Some x ->
  exists s' q0' q1', wakeup s t = Done s' /\ Inv s' q0' q1' /\
    curtask s' = curtask s /\ othertask s' = othertask s /\
    (state x = Pending -> t ∈ q0' ++ q1') /\
    (forall u, u ∈ q0 ++ q1 -> u ∈ q0' ++ q1') /\
    (forall u, state x <> Pending \/ u <> t -> tasks s' !! u = tasks s !! u).
Proof.
  intros [I Hc Hne (c & Hcx & Hcs) Hot] Hx. unfold wakeup, task_of. rewrite Hx. cbn [obind].
  destruct (decide (state x = Pending)) as [Hp|Hp].
  2:{ exists s, q0, q1. split; [done|]. split; [|split; [done|]; split; [done|]; by split]. split; eauto. }
  assert (Hn : t ∉ q0 ++ q1).
  { intros [Hin|Hin]%elem_of_app.
    - apply (proj1 (Forall_forall _ _) (iq_q0 _ _ _ I)) in Hin as (y & Hy & _ & Hny). congruence.
    - apply (proj1 (Forall_forall _ _) (iq_q1 _ _ _ I)) in Hin as (y & Hy & _ & Hny). congruence. }
  assert (Htc : t <> curtask s) by congruence.
  assert (Hto : t <> othertask s) by (intros ->; by apply (Hot x)).
  set (s1 := set_state (set_pending s (pending s ∖ {[t]})) t Ready).
  assert (E1 : s1 = mkScheduler (<[t := mkScheduable (prior x) Ready]> (tasks s)) (ready s)
    (pending s ∖ {[t]}) (curtask s) (othertask s) (stip s)).
  { subst s1. unfold set_state. cbn. by rewrite Hx. }
  assert (I1 : InvQ s1 q0 q1).
  { assert (I0 : InvQ (set_state s t Ready) q0 q1) by (by apply InvQ_set_state).
    unfold set_state in I0. rewrite Hx in I0. rewrite E1. destruct I0. split; auto.
    cbn in *. intros u y Hu Hs. apply elem_of_difference. split; [eauto|].
    intros ->%elem_of_singleton. rewrite lookup_insert_eq in Hu. by injection Hu as <-. }
  destruct (add_ok s1 q0 q1 t (mkScheduable (prior x) Ready) I1) as (s2 & E2 & I2 & T2 & P2 & C2 & O2).
  { rewrite E1. cbn. by rewrite lookup_insert_eq. } { done. } { by rewrite E1. }
  { rewrite E1. cbn. rewrite lookup_insert_ne by done. eauto. }
  unfold addq in *. cbn [state prior] in *. rewrite decide_False in * by (intros [?|?]; done).
  set (Q := if prior x =? 0 then (q0 ++ [t], q1) else (q0, q1 ++ [t])) in *.
  exists s2, Q.1, Q.2. rewrite E2. split; [done|]. rewrite E1 in C2, O2, T2. cbn in C2, O2, T2.
  split; [|split; [done|]; split; [done|]; split; [|split]].
  2,3: subst Q; destruct (prior x =? 0); cbn; set_solver.
  2:{ intros u [?|Hu]; [done|]. rewrite T2. by rewrite lookup_insert_ne by done. }
  split; [done| | | |]; rewrite ?C2, ?O2, ?T2; try done.
  - subst Q. destruct (prior x =? 0); cbn; set_solver.
  - exists c. by rewrite lookup_insert_ne by done.
  - intros y. rewrite lookup_insert_ne by done. apply Hot.
Qed.

(** kernel::sleep puts the running task to sleep and runs another one. *)
Lemma ksleep_ok s q0 q1 :
  Inv s q0 q1 -> q0 ++ q1 <> [] ->
  exists s' q0' q1', ksleep s = Done s' /\ Inv s' q0' q1' /\ othertask s' = othertask s /\
    (exists x, tasks s' !! curtask s = Some x /\ state x = Pending) /\
    curtask s ∉ q0' ++ q1' /\ q0 ++ q1 = curtask s' :: q0' ++ q1'.
Proof.
  intros [I Hc Hne (c & Hcx & Hcs) Hot] Hq. unfold ksleep, kyield.
  destruct (sleep_ok s q0 q1 (curtask s) c I Hcx Hc Hcs) as (s1 & -> & I1 & T1 & C1 & O1). cbn [obind].
  destruct (schedule_ok s1 q0 q1 (mkScheduable (prior c) Pending) I1)
    as (s2 & q0' & q1' & E2 & I2 & T2 & P2 & O2 & Hcase).
  { by rewrite C1. } { by rewrite C1, O1. }
  { intros y. rewrite O1, T1, lookup_insert_ne by done. apply Hot. }
  { rewrite T1, C1. by rewrite lookup_insert_eq. }
  { unfold addq. cbn [state]. by rewrite decide_True by (by right). }
  unfold addq in Hcase. cbn [state] in Hcase. rewrite decide_True in Hcase by (by right). cbn in Hcase.
  assert (Heq : q0 ++ q1 = curtask s2 :: q0' ++ q1') by (destruct Hcase as [[-> ->]|(-> & -> & ->)]; done).
  exists s2, q0', q1'. split; [done|]. split; [done|]. split; [congruence|]. split; [|split; [|done]].
  - exists (mkScheduable (prior c) Pending). rewrite T2, T1. by rewrite lookup_insert_eq.
  - rewrite Heq in Hc. set_solver.
Qed.

(** ** Runs of the scheduler

    What the running task of a hart does to the scheduler: yield, sleep, wake
    a task, start a task. The task [idle] never sleeps. *)
Definition new_task (s : Scheduler) (t p : Z) : outcome Scheduler :=
  add (mkScheduler (<[t := mkScheduable p Init]> (tasks s)) (ready s) (pending s)
         (curtask s) (othertask s) (stip s)) t.
Inductive kcmd : Type := KYield | KSleep | KWakeup (t : Z) | KNew (t p : Z).
Definition kexec (s : Scheduler) (c : kcmd) : outcome Scheduler :=
  match c with
  | KYield => kyield s
  | KSleep => ksleep s
  | KWakeup t => wakeup s t
  | KNew t p => new_task s t p
  end.
Definition kallowed (idle : Z) (s : Scheduler) (c : kcmd) : Prop :=
  match c with
  | KYield => True
  | KSleep => curtask s <> idle
  | KWakeup t => exists x, tasks s !! t = Some x
  | KNew t p => tasks s !! t = None /\ t <> othertask s /\ 0 <= p <= maxPrior
  end.
Inductive kstep (idle : Z) : Scheduler -> Scheduler -> Prop :=
| kstep_intro s c s' : kallowed idle s c -> kexec s c = Done s' -> kstep idle s s'.

(** [idle] runs or is queued, and is neither asleep nor gone. *)
Definition awake (idle : Z) (s : Scheduler) (q0 q1 : list Z) : Prop :=
  idle ∈ curtask s :: q0 ++ q1 /\
  exists x, tasks s !! idle = Some x /\ state x <> Pending /\ state x <> Zombie.
Definition good (idle : Z) (s : Scheduler) : Prop := exists q0 q1, Inv s q0 q1 /\ awake idle s q0 q1.

Lemma elem_addq x t q0 q1 u :
  u ∈ (addq x t q0 q1).1 ++ (addq x t q0 q1).2 <->
  u ∈ q0 ++ q1 \/ (u = t /\ state x <> Zombie /\ state x <> Pending).
Proof. unfold addq. case_decide; [|destruct (prior x =? 0)]; cbn; set_solver. Qed.

Lemma kyield_good idle s : good idle s -> exists s', kyield s = Done s' /\ good idle s'.
Proof.
  intros (q0 & q1 & I & Hin & x & Hx & Hxs). pose proof I as [IQ Hc Hne (c & Hcx & Hcs) Hot].
  set (qs := addq c (curtask s) q0 q1).
  assert (Hi : idle ∈ qs.1 ++ qs.2).
  { apply elem_addq. apply elem_of_cons in Hin as [->|Hin]; [right|by left].
    split; [done|]. assert (c = x) as -> by congruence. tauto. }
  destruct (schedule_ok s q0 q1 c IQ Hc Hne Hot Hcx) as (s' & q0' & q1' & E & I' & T' & P' & O' & Hcase).
  { intros E. fold qs in E. rewrite E in Hi. set_solver. }
  exists s'. split; [done|]. exists q0', q1'. split; [done|]. split; [|rewrite T'; eauto].
  fold qs in Hcase. destruct Hcase as [[H1 ->]|(H1 & -> & H2)]; rewrite H1 in Hi; [done|].
  rewrite H2 in Hi. done.
Qed.

Lemma ksleep_good idle s :
  good idle s -> curtask s <> idle -> exists s', ksleep s = Done s' /\ good idle s'.
Proof.
  intros (q0 & q1 & I & Hin & x & Hx & Hxs) Hni. pose proof I as [IQ Hc Hne (c & Hcx & Hcs) Hot].
  apply elem_of_cons in Hin as [->|Hin]; [done|].
  destruct (ksleep_ok s q0 q1 I) as (s' & q0' & q1' & E & I' & O' & Hsl & Hn & Heq).
  { intros E. rewrite E in Hin. set_solver. }
  exists s'. split; [done|]. exists q0', q1'. split; [done|]. rewrite Heq in Hin. split; [done|].
  revert E. unfold ksleep, kyield. destruct (sleep_ok s q0 q1 (curtask s) c IQ Hcx Hc Hcs)
    as (s1 & -> & I1 & T1 & C1 & O1). cbn [obind]. intros E.
  destruct (schedule_ok s1 q0 q1 (mkScheduable (prior c) Pending) I1) as (s2 & ? & ? & E2 & _ & T2 & _).
  { by rewrite C1. } { by rewrite C1, O1. }
  { intros y. rewrite O1, T1, lookup_insert_ne by done. apply Hot. }
  { rewrite T1, C1. by rewrite lookup_insert_eq. }
  { unfold addq. cbn [state]. rewrite decide_True by (by right). cbn. by rewrite Heq. }
  rewrite E in E2. injection E2 as <-. rewrite T2, T1, lookup_insert_ne by done. eauto.
Qed.

Lemma wakeup_good idle s t x :
  good idle s -> tasks s !! t = Some x -> exists s', wakeup s t = Done s' /\ good idle s'.
Proof.
  intros (q0 & q1 & I & Hin & y & Hy & Hys) Hx.
  destruct (wakeup_ok s q0 q1 t x I Hx) as (s' & q0' & q1' & E & I' & C' & O' & _ & Hq & Ht).
  exists s'. split; [done|]. exists q0', q1'. split; [done|]. split.
  - rewrite C'. apply elem_of_cons in Hin as [->|Hin]; [set_solver|]. apply elem_of_cons. right. by apply Hq.
  - exists y. rewrite Ht; [done|]. destruct (decide (idle = t)) as [->|]; [left|by right].
    assert (x = y) as -> by congruence. tauto.
Qed.

Lemma new_good idle s t p :
  good idle s -> tasks s !! t = None -> t <> othertask s -> 0 <= p <= maxPrior ->
  exists s', new_task s t p = Done s' /\ good idle s'.
Proof.
  intros (q0 & q1 & [I Hc Hne (c & Hcx & Hcs) Hot] & Hin & y & Hy & Hys) Ht Hto Hp. unfold new_task.
  set (s1 := mkScheduler (<[t := mkScheduable p Init]> (tasks s)) (ready s) (pending s)
         (curtask s) (othertask s) (stip s)).
  assert (Hk : forall u z, tasks s !! u = Some z -> tasks s1 !! u = Some z).
  { intros u z Hu. cbn. rewrite lookup_insert_ne; [done|]. intros <-. congruence. }
  assert (I1 : InvQ s1 q0 q1).
  { destruct I. split; auto.
    - eapply Forall_impl; [done|]. intros u (z & Hz & ?). exists z. auto.
    - eapply Forall_impl; [done|]. intros u (z & Hz & ?). exists z. auto.
    - cbn. intros u z. destruct (decide (u = t)) as [->|];
        [rewrite lookup_insert_eq; by intros [= <-]|rewrite lookup_insert_ne by done; eauto].
    - cbn. intros u z. destruct (decide (u = t)) as [->|];
        [rewrite lookup_insert_eq; by intros [= <-]|rewrite lookup_insert_ne by done; eauto]. }
  assert (Hn : t ∉ q0 ++ q1).
  { intros [Hq|Hq]%elem_of_app;
      [apply (proj1 (Forall_forall _ _) (iq_q0 _ _ _ I)) in Hq as (z & Hz & _)
      |apply (proj1 (Forall_forall _ _) (iq_q1 _ _ _ I)) in Hq as (z & Hz & _)]; congruence. }
  destruct (add_ok s1 q0 q1 t (mkScheduable p Init) I1) as (s2 & E2 & I2 & T2 & P2 & C2 & O2); auto.
  { cbn. by rewrite lookup_insert_eq. } { eauto. }
  exists s2. split; [done|]. exists (addq (mkScheduable p Init) t q0 q1).1, (addq (mkScheduable p Init) t q0 q1).2.
  split; [split; [done| | | |]|split].
  - rewrite C2. cbn. rewrite elem_addq. intros [?|[Ec _]]; [done|]. congruence.
  - rewrite C2, O2. done.
  - exists c. rewrite C2, T2. auto.
  - intros z. rewrite O2, T2. cbn. rewrite lookup_insert_ne by done. apply Hot.
  - rewrite C2. cbn. apply elem_of_cons in Hin as [->|Hin]; [set_solver|].
    apply elem_of_cons. right. apply elem_addq. by left.
  - exists y. rewrite T2. auto.
Qed.

Lemma kexec_good idle s c :
  good idle s -> kallowed idle s c -> exists s', kexec s c = Done s' /\ good idle s'.
Proof.
  destruct c; cbn; intros Hg.
  - intros _. by apply kyield_good.
  - by apply ksleep_good.
  - intros [x Hx]. by apply (wakeup_good idle s t x).
  - intros (?&?&?). by apply new_good.
Qed.

Lemma kreach_good idle s s' : rtc (kstep idle) s s' -> good idle s -> good idle s'.
Proof.
  induction 1 as [|x y z Hxy Hyz IH]; [done|]. intros Hg. apply IH. destruct Hxy as [s c s1 Ha E].
  destruct (kexec_good idle s c Hg Ha) as (s2 & E2 & Hg2). congruence.
Qed.

(** ** Round robin at one priority *)
Fixpoint yields (n : nat) (s : Scheduler) : outcome Scheduler :=
  match n with O => Done s | S n' => let* s' := kyield s in yields n' s' end.

Definition runnable (s : Scheduler) (p t : Z) : Prop :=
  exists x, tasks s !! t = Some x /\ prior x = p /\ state x <> Pending /\ state x <> Zombie.

Lemma kyield_rotate s c u q q1 :
  Inv s (u :: q) q1 -> curtask s = c -> runnable s 0 c ->
  exists s', kyield s = Done s' /\ Inv s' (q ++ [c]) q1 /\ curtask s' = u /\ tasks s' = tasks s.
Proof.
  intros [IQ Hc Hne _ Hot] <- (x & Hx & Hp & Hs & Hz).
  assert (Ea : addq x (curtask s) (u :: q) q1 = (u :: q ++ [curtask s], q1)).
  { unfold addq. rewrite decide_False by tauto. by rewrite Hp. }
  destruct (schedule_ok s (u :: q) q1 x IQ Hc Hne Hot Hx) as (s' & q0' & q1' & E & I' & T' & _ & _ & Hcase);
    rewrite Ea in *; [done|]. cbn in Hcase.
  destruct Hcase as [[[= -> <-] ->]|[? _]]; [|done]. by exists s'.
Qed.

Lemma yields_rotate q : forall s c done_ q1,
  Inv s (q ++ done_) q1 -> curtask s = c -> runnable s 0 c -> Forall (runnable s 0) q ->
  forall n, (n <= length q)%nat ->
  exists s', yields n s = Done s' /\ (c :: q) !! n = Some (curtask s').
Proof.
  induction q as [|u q IH]; intros s c d q1 I Hc Hr Hf n Hn.
  { destruct n; [|cbn in Hn; lia]. exists s. by subst. }
  destruct n as [|n]; [exists s; by subst|]. cbn [yields].
  destruct (kyield_rotate s c u (q ++ d) q1 I Hc Hr) as (s' & -> & I' & Hc' & HT). cbn [obind].
  inversion Hf as [|? ? Hu Hf']; subst. rewrite <- app_assoc in I'.
  destruct (IH s' (curtask s') (d ++ [curtask s]) q1 I' eq_refl) with (n := n) as (s2 & E & Hl).
  { destruct Hu as (x & ? & ?). exists x. by rewrite HT. }
  { eapply Forall_impl; [exact Hf'|]. intros t (x & ? & ?). exists x. by rewrite HT. }
  { cbn in Hn. lia. }
  exists s2. split; [done|]. done.
Qed.

(** ** Theorems *)

(** C6. One hart schedules, as in the kernel after init, which starts the timer, the
    interrupt controller and the idle task on hart 0 only: the current task of the other
    hart (or none) stays the same. The operations of this hart, kernel::sleep included, run
    one after the other, so that no wake-up comes between the two halves of kernel::sleep
    (sleep_wakeup_race shows what that would do); the idle task exists, can run and never
    sleeps; only tasks that exist are woken; a new task has an identifier of its own and
    priority 0 or 1. Then, from a consistent state, whatever sequence of yields, sleeps,
    wake-ups and task creations follows, the scheduler never fails an assertion, never runs
    out of tasks and stays consistent: queued tasks are queued once, at their priority, are
    not asleep and not running, and the running task is not the one of the other hart. *)
Theorem sched_safe idle s s' c :
  good idle s -> rtc (kstep idle) s s' ->
  (exists q0 q1, Inv s' q0 q1) /\
  (kallowed idle s' c -> exists s'', kexec s' c = Done s'' /\ good idle s'').
Proof.
  intros Hg Hr. apply (kreach_good idle) in Hr; [|done].
  split; [destruct Hr as (q0 & q1 & I & _); eauto|]. intros Ha. by apply kexec_good.
Qed.

(** C29. Round robin: when every queued task of the top priority can run, the
    tasks run in queue order, so each of the [n] queued tasks has run within
    [n] yields. *)
Theorem sched_round_robin s q q1 n :
  Inv s q q1 -> runnable s 0 (curtask s) -> Forall (runnable s 0) q -> (n <= length q)%nat ->
  exists s', yields n s = Done s' /\ (curtask s :: q) !! n = Some (curtask s').
Proof.
  intros I Hr Hf Hn. apply (yields_rotate q s (curtask s) [] q1); auto. by rewrite app_nil_r.
Qed.

(** C36. kernel::sleep is not atomic: if the other hart wakes the task between
    Scheduler::sleep and schedule(), the task is queued twice. *)
Theorem sleep_wakeup_race s u q q1 :
  Inv s (u :: q) q1 -> runnable s 0 (curtask s) ->
  exists s1 s2 s3, sleep s (curtask s) = Done s1 /\ wakeup s1 (curtask s) = Done s2 /\
    kyield s2 = Done s3 /\ ready s3 = [q ++ [curtask s; curtask s]; q1] /\ ~ NoDup (q ++ [curtask s; curtask s]).
Proof.
  intros [IQ Hc Hne _ Hot] (x & Hx & Hp & Hs & Hz).
  destruct (sleep_ok s (u :: q) q1 (curtask s) x IQ Hx Hc Hs) as (s1 & E1 & I1 & T1 & C1 & O1).
  assert (Hu : u <> othertask s) by (pose proof (iq_other _ _ _ IQ); set_solver).
  pose proof (iq_ready _ _ _ I1) as R1. clear I1. destruct s1 as [t1 r1 p1 c1 o1 b1].
  cbn in T1, C1, O1, R1. set (c := curtask s) in *. subst c1 r1 o1. rewrite Hp in T1.
  set (t2 := <[c := mkScheduable 0 Ready]> t1).
  assert (H1 : t1 !! c = Some (mkScheduable 0 Pending)) by (by rewrite T1, lookup_insert_eq).
  assert (H2 : t2 !! c = Some (mkScheduable 0 Ready)) by apply lookup_insert_eq.
  exists (mkScheduler t1 [u :: q; q1] p1 c (othertask s) b1),
    (mkScheduler t2 [u :: q ++ [c]; q1] (p1 ∖ {[c]}) c (othertask s) b1),
    (mkScheduler t2 [q ++ [c; c]; q1] (p1 ∖ {[c]}) u (othertask s) b1).
  split; [done|]. split; [|split; [|split; [done|]]].
  - unfold wakeup, task_of. cbn [tasks]. rewrite H1. cbn [obind]. rewrite decide_True by done.
    unfold set_state. cbn [tasks set_pending]. rewrite H1. unfold add, task_of. cbn [tasks prior].
    fold t2. rewrite H2. cbn [obind state]. rewrite decide_False by (intros [?|?]; done).
    cbn. by rewrite H2.
  - unfold kyield, schedule, next. cbn [curtask].
    replace (add _ c) with (Done (mkScheduler t2 [u :: (q ++ [c]) ++ [c]; q1] (p1 ∖ {[c]}) c (othertask s) b1)).
    2:{ unfold add, task_of. cbn [tasks curtask]. rewrite H2. reflexivity. }
    cbn [obind ready]. change (next_loop _ _) with (Some (u, [(q ++ [c]) ++ [c]; q1])).
    cbn [obind curtask othertask set_ready]. rewrite bool_decide_eq_true_2 by done.
    cbn. by rewrite <- app_assoc.
  - rewrite NoDup_app, !NoDup_cons. intros (_ & _ & [Hin _]). set_solver.
Qed.

(** ** Witnesses: three tasks, task 3 asleep, the other hart runs task 9. *)
Definition ex_tasks : gmap Z Scheduable :=
  <[1 := mkScheduable 0 Ready]> (<[2 := mkScheduable 0 Ready]> (<[3 := mkScheduable 0 Pending]>
  (<[9 := mkScheduable 1 Ready]> ∅))).
Definition ex_sched : Scheduler := mkScheduler ex_tasks [[2]; []] {[3]} 1 9 false.
Lemma ex_Inv : Inv ex_sched [2] [].
Proof.
  assert (Ht : forall t x, ex_tasks !! t = Some x -> (t = 1 /\ x = mkScheduable 0 Ready) \/
    (t = 2 /\ x = mkScheduable 0 Ready) \/ (t = 3 /\ x = mkScheduable 0 Pending) \/
    (t = 9 /\ x = mkScheduable 1 Ready)).
  { unfold ex_tasks. intros t x. rewrite !lookup_insert_Some, lookup_empty. naive_solver. }
  split; [split| | | |]; cbn; auto.
  - repeat constructor. by exists (mkScheduable 0 Ready).
  - repeat constructor. set_solver.
  - set_solver.
  - intros t x [[-> ->]|[[-> ->]|[[-> ->]|[-> ->]]]]%Ht; done || set_solver.
  - unfold maxPrior. intros t x [[-> ->]|[[-> ->]|[[-> ->]|[-> ->]]]]%Ht; cbn; lia.
  - set_solver.
  - by exists (mkScheduable 0 Ready).
  - intros x [[? ->]|[[? ->]|[[? ->]|[? ->]]]]%Ht; done.
Qed.
Lemma ex_runnable t : t = 1 \/ t = 2 -> runnable ex_sched 0 t.
Proof. intros [-> | ->]; by exists (mkScheduable 0 Ready). Qed.
Lemma ex_good : good 2 ex_sched.
Proof.
  exists [2], []. split; [exact ex_Inv|]. split; [set_solver|]. by exists (mkScheduable 0 Ready).
Qed.

Lemma sched_safe_witness :
  good 2 ex_sched /\ exists s'', kexec ex_sched (KWakeup 3) = Done s'' /\ good 2 s''.
Proof.
  split; [exact ex_good|].
  apply (proj2 (sched_safe 2 ex_sched ex_sched (KWakeup 3) ex_good (rtc_refl _ _))).
  by exists (mkScheduable 0 Pending).
Defined.
Lemma sched_round_robin_witness :
  exists s', yields 1 ex_sched = Done s' /\ [1; 2] !! 1%nat = Some (curtask s').
Proof.
  apply (sched_round_robin ex_sched [2] [] 1 ex_Inv); [apply ex_runnable; by left| |cbn; lia].
  repeat constructor. apply ex_runnable. by right.
Defined.
Lemma sleep_wakeup_race_witness :
  exists s1 s2 s3, sleep ex_sched 1 = Done s1 /\ wakeup s1 1 = Done s2 /\
    kyield s2 = Done s3 /\ ready s3 = [[1; 1]; []] /\ ~ NoDup [1; 1].
Proof. apply (sleep_wakeup_race ex_sched 2 [] [] ex_Inv). apply ex_runnable. by left. Defined.

End Sched.
