(* ===== verification/Pipe.v ===== *)
(** * Pipe: the byte stream between processes (include/ipc.hh)

    A pipe is a 64-byte ring with two 64-bit counters that are never reduced
    and wrap around. [write_from]/[read_from] run the loops of Pipe::write and
    Pipe::read from offset [off] until the call returns ([IoRet]) or sleeps in
    [canw.wait()]/[canr.wait()] ([IoBlock]); after a wake-up the same call is
    continued with the same offset. The offset is an int: adding to it wraps, and
    comparing it with a length converts it to 64 bits unsigned. *)

From S2P Require Import Prelude Klib Sched.
Local Open Scope Z_scope.

Module Pipe.
Import Sched.

Definition bufSize : Z := 64.
Record Pipe : Type := mkPipe {
  buf : list Z;
  head : Z;
  tail : Z;
  canr : condvar;
  canw : condvar;
  wcnt : Z;
  rcnt : Z
}.
Definition set_wait (p : Pipe) (r w : condvar) : Pipe :=
  mkPipe (buf p) (head p) (tail p) r w (wcnt p) (rcnt p).

Definition Pipe_new (fresh : list Z) : Pipe := mkPipe fresh 0 0 [] [] 0 0.
Definition addReader (p : Pipe) : Pipe :=
  mkPipe (buf p) (head p) (tail p) (canr p) (canw p) (wcnt p) (i32 (rcnt p + 1)).
Definition addWriter (p : Pipe) : Pipe :=
  mkPipe (buf p) (head p) (tail p) (canr p) (canw p) (i32 (wcnt p + 1)) (rcnt p).
Definition decReader (p : Pipe) (s : Scheduler) : outcome (Pipe * Scheduler) :=
  let n := i32 (rcnt p - 1) in
  let p1 := mkPipe (buf p) (head p) (tail p) (canr p) (canw p) (wcnt p) n in
  if n =? 0 then let* (w, s') := notify_all (canw p) s in Done (set_wait p1 (canr p) w, s')
  else Done (p1, s).
Definition decWriter (p : Pipe) (s : Scheduler) : outcome (Pipe * Scheduler) :=
  let n := i32 (wcnt p - 1) in
  let p1 := mkPipe (buf p) (head p) (tail p) (canr p) (canw p) n (rcnt p) in
  if n =? 0 then let* (w, s') := notify_all (canr p) s in Done (set_wait p1 w (canw p), s')
  else Done (p1, s).

Definition full (p : Pipe) : bool := tail p =? u64 (head p + bufSize).
Definition empty (p : Pipe) : bool := head p =? tail p.
Definition writable (p : Pipe) : bool := negb (full p) || negb (rcnt p =? 0).
Definition readable (p : Pipe) : bool := negb (empty p) || negb (wcnt p =? 0).

Definition tryWakeup (p : Pipe) (s : Scheduler) : outcome (Pipe * Scheduler) :=
  let* (r, s1) := (if empty p then Done (canr p, s) else notify_one (canr p) s) in
  let* (w, s2) := (if full p then Done (canw p, s1) else notify_one (canw p) s1) in
  Done (set_wait p r w, s2).

(** memmove between the pipe and the caller's buffer, two distinct objects. *)
Definition blit (dst : list Z) (i : Z) (src : list Z) : outcome (list Z) :=
  if (0 <=? i) && (i + Z.of_nat (length src) <=? Z.of_nat (length dst))
  then Done (take (Z.to_nat i) dst ++ src ++ drop (Z.to_nat i + length src) dst) else Undef.
Definition slice (b : list Z) (i n : Z) : outcome (list Z) :=
  if (0 <=? i) && (0 <=? n) && (i + n <=? Z.of_nat (length b))
  then Done (take (Z.to_nat n) (drop (Z.to_nat i) b)) else Undef.

(** The length of the next chunk. *)
Definition wlen (p : Pipe) (len off : Z) : Z :=
  kmin (kmin (u64 (head p + bufSize - tail p)) (bufSize - tail p mod bufSize)) (u64 (len - off)).
Definition rlen (p : Pipe) (len off : Z) : Z :=
  kmin (kmin (u64 (tail p - head p)) (bufSize - head p mod bufSize)) (u64 (len - off)).

Inductive io : Type := IoRet (n : Z) | IoBlock (off : Z).

Fixpoint write_from (fuel : nat) (p : Pipe) (s : Scheduler) (bytes : list Z) (off : Z)
  : outcome (io * Pipe * Scheduler) :=
  let len := Z.of_nat (length bytes) in
  let finish := let* (p', s') := tryWakeup p s in Done (IoRet off, p', s') in
  if u64 off <? len then
    match fuel with
    | O => Diverge
    | S f =>
        let n := wlen p len off in
        if n =? 0 then
          if rcnt p =? 0 then finish
          else
            let* (r, s1) := notify_one (canr p) s in
            let* (w, s2) := cv_wait (canw p) s1 in
            Done (IoBlock off, set_wait p r w, s2)
        else
          let* chunk := slice bytes off n in
          let* b := blit (buf p) (tail p mod bufSize) chunk in
          write_from f (mkPipe b (head p) (u64 (tail p + n)) (canr p) (canw p) (wcnt p) (rcnt p))
            s bytes (i32 (off + n))
    end
  else finish.

(** [out] is the caller's buffer. *)
Fixpoint read_from (fuel : nat) (p : Pipe) (s : Scheduler) (out : list Z) (off : Z)
  : outcome (io * list Z * Pipe * Scheduler) :=
  let len := Z.of_nat (length out) in
  let finish := let* (p', s') := tryWakeup p s in Done (IoRet off, out, p', s') in
  if u64 off <? len then
    match fuel with
    | O => Diverge
    | S f =>
        let n := rlen p len off in
        if n =? 0 then
          if (wcnt p =? 0) || (0 <? off) then finish
          else
            let* (w, s1) := notify_one (canw p) s in
            let* (r, s2) := cv_wait (canr p) s1 in
            Done (IoBlock off, out, set_wait p r w, s2)
        else
          let* chunk := slice (buf p) (head p mod bufSize) n in
          let* out' := blit out off chunk in
          read_from f (mkPipe (buf p) (u64 (head p + n)) (tail p) (canr p) (canw p) (wcnt p) (rcnt p))
            s out' (i32 (off + n))
    end
  else finish.

Definition write (p : Pipe) (s : Scheduler) (bytes : list Z) : outcome (io * Pipe * Scheduler) :=
  write_from (S (length bytes)) p s bytes 0.
Definition read (p : Pipe) (s : Scheduler) (out : list Z) : outcome (io * list Z * Pipe * Scheduler) :=
  read_from (S (length out)) p s out 0.

(** ** The abstract queue *)
Record Inv (p : Pipe) : Prop := {
  pi_buf : Z.of_nat (length (buf p)) = bufSize;
  pi_head : 0 <= head p < 2 ^ 64;
  pi_tail : 0 <= tail p < 2 ^ 64;
  pi_used : u64 (tail p - head p) <= bufSize
}.
Definition used (p : Pipe) : Z := u64 (tail p - head p).
Definition byte_at (p : Pipe) (i : Z) : Z := vat (buf p) ((head p + i) mod bufSize).
Definition contents (p : Pipe) : list Z :=
  (fun i => byte_at p (Z.of_nat i)) <$> seq 0 (Z.to_nat (used p)).

Lemma used_range p : 0 <= used p < 2 ^ 64.
Proof. apply u64_range. Qed.
Lemma length_contents p : Z.of_nat (length (contents p)) = used p.
Proof. unfold contents. rewrite length_fmap, length_seq. pose proof (used_range p). lia. Qed.
Lemma contents_lookup p i :
  (i < length (contents p))%nat -> contents p !! i = Some (byte_at p (Z.of_nat i)).
Proof.
  intros Hi. unfold contents in *. rewrite length_fmap, length_seq in Hi.
  rewrite list_lookup_fmap, lookup_seq_lt by lia. done.
Qed.

Lemma used_tail p n :
  Inv p -> 0 <= n -> used p + n <= bufSize -> u64 (u64 (tail p + n) - head p) = used p + n.
Proof.
  intros [Hb Hh Ht Hu] Hn Hs. unfold used, bufSize, u64 in *.
  rewrite Zminus_mod_idemp_l. replace (tail p + n - head p) with (tail p - head p + n) by lia.
  rewrite <- Zplus_mod_idemp_l. apply Z.mod_small.
  pose proof (Z.mod_pos_bound (tail p - head p) 18446744073709551616). lia.
Qed.
Lemma used_head p n :
  0 <= n <= used p -> u64 (tail p - u64 (head p + n)) = used p - n.
Proof.
  intros Hn. unfold used, u64 in *. rewrite Zminus_mod_idemp_r.
  replace (tail p - (head p + n)) with (tail p - head p - n) by lia.
  rewrite <- Zminus_mod_idemp_l. apply Z.mod_small.
  pose proof (Z.mod_pos_bound (tail p - head p) 18446744073709551616). lia.
Qed.

(** 64 divides 2^64, so wrapping a counter does not move its position. *)
Lemma u64_mod64 x : u64 x mod bufSize = x mod bufSize.
Proof.
  unfold u64, bufSize. rewrite <- Znumtheory.Zmod_div_mod; [done|lia..|].
  by exists 288230376151711744.
Qed.
Lemma tail_pos p : Inv p -> (head p + used p) mod bufSize = tail p mod bufSize.
Proof.
  intros [Hb Hh Ht Hu]. rewrite <- (u64_mod64 (head p + used p)). f_equal. unfold used, u64.
  rewrite Zplus_mod_idemp_r. rewrite Z.mod_small by lia. lia.
Qed.

Lemma tail_off p d : Inv p -> (head p + used p + d) mod bufSize = (tail p + d) mod bufSize.
Proof. intros I. by rewrite <- (Zplus_mod_idemp_l (head p + used p)), tail_pos, Zplus_mod_idemp_l. Qed.

(** Space and available bytes of the next chunk. *)
Lemma wlen_spec p len off :
  Inv p -> 0 <= off <= len -> len < 2 ^ 63 ->
  wlen p len off = Z.min (Z.min (bufSize - used p) (bufSize - tail p mod bufSize)) (len - off).
Proof.
  intros I Ho Hl. unfold wlen. rewrite !kmin_spec. rewrite (u64_small (len - off)) by lia. do 2 f_equal.
  destruct I as [Hb Hh Ht Hu]. unfold used, u64, bufSize in *.
  replace (head p + 64 - tail p) with (64 - (tail p - head p)) by lia.
  rewrite <- Zminus_mod_idemp_r. apply Z.mod_small.
  pose proof (Z.mod_pos_bound (tail p - head p) 18446744073709551616). lia.
Qed.
Lemma rlen_spec p len off :
  0 <= off <= len -> len < 2 ^ 63 ->
  rlen p len off = Z.min (Z.min (used p) (bufSize - head p mod bufSize)) (len - off).
Proof. intros Ho Hl. unfold rlen. rewrite !kmin_spec, (u64_small (len - off)) by lia. done. Qed.

Lemma mod64_inj a b : a mod bufSize = b mod bufSize -> - bufSize < a - b < bufSize -> a = b.
Proof.
  unfold bufSize. intros E Hd. pose proof (Z.div_mod a 64 ltac:(lia)). pose proof (Z.div_mod b 64 ltac:(lia)).
  lia.
Qed.
Lemma mod64_add a j : 0 <= j -> a mod bufSize + j < bufSize -> (a + j) mod bufSize = a mod bufSize + j.
Proof.
  intros Hj Hs. unfold bufSize in *. rewrite <- Zplus_mod_idemp_l. apply Z.mod_small.
  pose proof (Z.mod_pos_bound a 64). lia.
Qed.

Lemma vat_blit b i l b' j :
  blit b i l = Done b' -> 0 <= j ->
  length b' = length b /\
  vat b' j = if decide (i <= j < i + Z.of_nat (length l)) then vat l (j - i) else vat b j.
Proof.
  unfold blit. destruct (_ && _) eqn:Hc; [|done]. intros [= <-] Hj.
  apply andb_true_iff in Hc as [H1 H2]. apply Z.leb_le in H1, H2.
  split; [rewrite !length_app, length_take, length_drop; lia|]. unfold vat.
  destruct (decide (i <= j < i + Z.of_nat (length l))) as [Hi|Hi].
  - rewrite lookup_app_r by (rewrite length_take; lia). rewrite length_take.
    rewrite lookup_app_l by lia. do 2 f_equal. lia.
  - destruct (decide (j < i)).
    + rewrite lookup_app_l by (rewrite length_take; lia). rewrite lookup_take.
      by rewrite decide_True by lia.
    + rewrite lookup_app_r by (rewrite length_take; lia). rewrite length_take.
      rewrite lookup_app_r by lia. rewrite lookup_drop. do 2 f_equal. lia.
Qed.

Lemma blit_total b i l :
  0 <= i -> i + Z.of_nat (length l) <= Z.of_nat (length b) -> exists b', blit b i l = Done b'.
Proof.
  intros H1 H2. unfold blit. destruct (Z.leb_spec 0 i); [|lia].
  destruct (Z.leb_spec (i + Z.of_nat (length l)) (Z.of_nat (length b))); [|lia]. by eexists.
Qed.

Lemma vat_lookup l (j : nat) : (j < length l)%nat -> l !! j = Some (vat l (Z.of_nat j)).
Proof.
  intros Hj. unfold vat. rewrite Nat2Z.id. destruct (l !! j) eqn:E; [done|].
  apply lookup_ge_None_1 in E. lia.
Qed.

Definition push (p : Pipe) (b : list Z) (n : Z) : Pipe :=
  mkPipe b (head p) (u64 (tail p + n)) (canr p) (canw p) (wcnt p) (rcnt p).
Definition pop (p : Pipe) (n : Z) : Pipe :=
  mkPipe (buf p) (u64 (head p + n)) (tail p) (canr p) (canw p) (wcnt p) (rcnt p).

(** One turn of the write loop appends its chunk. *)
Lemma push_ok p chunk :
  Inv p -> let n := Z.of_nat (length chunk) in
  used p + n <= bufSize -> tail p mod bufSize + n <= bufSize ->
  exists b, blit (buf p) (tail p mod bufSize) chunk = Done b /\ Inv (push p b n) /\
    contents (push p b n) = contents p ++ chunk.
Proof.
  intros I n Hs Ht. pose proof (Z.mod_pos_bound (tail p) bufSize ltac:(done)) as Hm.
  destruct (blit_total (buf p) (tail p mod bufSize) chunk) as [b Eb]; [lia|rewrite (pi_buf _ I); lia|].
  assert (Hu : used (push p b n) = used p + n) by exact (used_tail p n I ltac:(lia) Hs).
  exists b. split; [done|]. split.
  - destruct (vat_blit _ _ _ _ 0 Eb ltac:(lia)) as [Hl _]. destruct I. split; cbn; auto; [lia|apply u64_range|].
    change (u64 (u64 (tail p + n) - head p)) with (used (push p b n)). lia.
  - apply list_eq. intros j. pose proof (length_contents p) as Lp.
    pose proof (length_contents (push p b n)) as Lq.
    destruct (decide (j < length (contents p))%nat) as [Hj|Hj];
      [|destruct (decide (j < length (contents (push p b n)))%nat) as [Hj2|Hj2]].
    + rewrite lookup_app_l, !contents_lookup by lia. f_equal. unfold byte_at. cbn [push buf head].
      pose proof (Z.mod_pos_bound (head p + Z.of_nat j) bufSize ltac:(done)).
      destruct (vat_blit _ _ _ _ ((head p + Z.of_nat j) mod bufSize) Eb ltac:(lia)) as [_ ->].
      rewrite decide_False; [done|]. intros Hin.
      remember ((head p + Z.of_nat j) mod bufSize - tail p mod bufSize) as d eqn:Ed.
      assert (Hd : (head p + Z.of_nat j) mod bufSize = (head p + used p + d) mod bufSize).
      { rewrite tail_off, (mod64_add (tail p) d) by (auto; lia). lia. }
      apply mod64_inj in Hd; lia.
    + rewrite lookup_app_r, contents_lookup by lia. rewrite vat_lookup by lia. f_equal.
      unfold byte_at. cbn [push buf head]. remember (Z.of_nat (j - length (contents p))) as d eqn:Ed.
      replace ((head p + Z.of_nat j) mod bufSize) with (tail p mod bufSize + d).
      2:{ rewrite <- mod64_add, <- tail_off by (auto; lia). f_equal. lia. }
      destruct (vat_blit _ _ _ _ (tail p mod bufSize + d) Eb ltac:(lia)) as [_ ->].
      rewrite decide_True by lia. f_equal. lia.
    + rewrite !lookup_ge_None_2; [done|rewrite length_app; lia|lia].
Qed.

(** One turn of the read loop takes its chunk from the front. *)
Lemma pop_ok p n :
  Inv p -> 0 <= n <= used p -> head p mod bufSize + n <= bufSize ->
  slice (buf p) (head p mod bufSize) n = Done (take (Z.to_nat n) (contents p)) /\
  Inv (pop p n) /\ contents (pop p n) = drop (Z.to_nat n) (contents p).
Proof.
  intros I Hn Hh. pose proof (Z.mod_pos_bound (head p) bufSize ltac:(done)) as Hm.
  assert (Hu : used (pop p n) = used p - n) by exact (used_head p n Hn).
  pose proof (length_contents p) as Lp. pose proof (length_contents (pop p n)) as Lq. split; [|split].
  - unfold slice. rewrite (pi_buf _ I). destruct (Z.leb_spec 0 (head p mod bufSize)); [|lia].
    destruct (Z.leb_spec 0 n); [|lia]. destruct (Z.leb_spec (head p mod bufSize + n) bufSize); [|lia].
    cbn [andb]. f_equal. apply list_eq. intros j. rewrite !lookup_take.
    case_decide as Hj; [|done]. rewrite lookup_drop, contents_lookup by lia. unfold byte_at.
    rewrite mod64_add by lia. pose proof (pi_buf _ I). rewrite vat_lookup by lia. do 2 f_equal. lia.
  - destruct I. split; cbn; auto; [apply u64_range|]. change (used (pop p n) <= bufSize). unfold used in *. lia.
  - apply list_eq. intros j. rewrite lookup_drop.
    destruct (decide (j < length (contents (pop p n)))%nat) as [Hj|Hj].
    + rewrite !contents_lookup by lia. f_equal. unfold byte_at. cbn [pop buf head]. f_equal.
      rewrite <- (Zplus_mod_idemp_l (u64 _)), u64_mod64, Zplus_mod_idemp_l. f_equal. lia.
    + rewrite !lookup_ge_None_2; [done|lia|lia].
Qed.

(** ** The loops *)

Lemma slice_ok l off n :
  0 <= off -> 0 <= n -> off + n <= Z.of_nat (length l) ->
  slice l off n = Done (take (Z.to_nat n) (drop (Z.to_nat off) l)).
Proof.
  intros H1 H2 H3. unfold slice. destruct (Z.leb_spec 0 off); [|lia].
  destruct (Z.leb_spec 0 n); [|lia]. by destruct (Z.leb_spec (off + n) (Z.of_nat (length l))); [|lia].
Qed.

(** What the write loop has done when it stops, before it wakes or sleeps:
    [k] more bytes are in the pipe, and it stopped because all bytes are
    written or because the pipe is full. *)
Lemma write_from_spec fuel p s bytes off :
  Inv p -> 0 <= off <= Z.of_nat (length bytes) -> Z.of_nat (length bytes) < 2 ^ 31 ->
  Z.of_nat (length bytes) - off < Z.of_nat fuel ->
  exists p' k, Inv p' /\ 0 <= k /\ off + k <= Z.of_nat (length bytes) /\
    k = Z.min (Z.of_nat (length bytes) - off) (bufSize - used p) /\
    contents p' = contents p ++ take (Z.to_nat k) (drop (Z.to_nat off) bytes) /\
    wcnt p' = wcnt p /\ rcnt p' = rcnt p /\ canr p' = canr p /\ canw p' = canw p /\
    write_from fuel p s bytes off =
      if (off + k <? Z.of_nat (length bytes)) && negb (rcnt p =? 0)
      then (let* (r, s1) := notify_one (canr p) s in
            let* (w, s2) := cv_wait (canw p) s1 in
            Done (IoBlock (off + k), set_wait p' r w, s2))
      else (let* (p2, s2) := tryWakeup p' s in Done (IoRet (off + k), p2, s2)).
Proof.
  revert p off. induction fuel as [|fuel IH]; intros p off I Ho Hlen Hf; [lia|].
  cbn [write_from]. pose proof (length_contents p) as Lp. pose proof (used_range p) as Hur.
  assert (Hub : used p <= bufSize) by apply I.
  rewrite (u64_small off) by lia. destruct (Z.ltb_spec off (Z.of_nat (length bytes))) as [Hlt|Hge].
  2:{ exists p, 0. rewrite take_0, app_nil_r. destruct (Z.ltb_spec (off + 0) (Z.of_nat (length bytes))); [lia|].
      rewrite Z.add_0_r. repeat (split; [first [done|lia]|]). done. }
  set (n := wlen p (Z.of_nat (length bytes)) off).
  assert (Hn : n = Z.min (Z.min (bufSize - used p) (bufSize - tail p mod bufSize)) (Z.of_nat (length bytes) - off))
    by (apply wlen_spec; auto; lia).
  pose proof (Z.mod_pos_bound (tail p) bufSize ltac:(done)) as Hm.
  zeq E0.
  - assert (used p = bufSize) by lia. exists p, 0. rewrite take_0, app_nil_r, Z.add_0_r.
    repeat (split; [first [done|lia]|]).
    destruct (Z.ltb_spec off (Z.of_nat (length bytes))); [|lia]. by destruct (rcnt p =? 0).
  - rewrite slice_ok by lia. cbn [obind].
    set (chunk := take (Z.to_nat n) (drop (Z.to_nat off) bytes)).
    assert (Hc : Z.of_nat (length chunk) = n) by (subst chunk; rewrite length_take, length_drop; lia).
    destruct (push_ok p chunk I) as (b & -> & I1 & C1); [lia|lia|]. cbn [obind].
    rewrite Hc in I1, C1. fold (push p b n). rewrite (i32_small (off + n)) by lia.
    assert (Hu1 : used (push p b n) = used p + n).
    { rewrite <- !length_contents, C1, length_app. lia. }
    destruct (IH (push p b n) (off + n) I1 ltac:(lia) Hlen ltac:(lia))
      as (p' & k & I' & Hk0 & Hk1 & Hk & C' & Hw & Hr & Hcr & Hcw & E).
    exists p', (n + k). rewrite Z.add_assoc. rewrite E. cbn [push wcnt rcnt canr canw] in *.
    split; [done|]. split; [lia|]. split; [lia|]. split; [lia|]. split; [|by repeat split].
    rewrite C', C1, <- app_assoc. f_equal. subst chunk.
    replace (Z.to_nat (n + k)) with (Z.to_nat n + Z.to_nat k)%nat by lia.
    replace (Z.to_nat (off + n)) with (Z.to_nat off + Z.to_nat n)%nat by lia.
    rewrite <- drop_drop. by rewrite take_take_drop.
Qed.

(** The caller's buffer after [k] bytes [l] were stored at [off]. *)
Lemma blit_parts b off l b' :
  blit b off l = Done b' -> 0 <= off ->
  length b' = length b /\ off + Z.of_nat (length l) <= Z.of_nat (length b) /\
  take (Z.to_nat off) b' = take (Z.to_nat off) b /\
  take (length l) (drop (Z.to_nat off) b') = l /\
  drop (Z.to_nat off + length l) b' = drop (Z.to_nat off + length l) b.
Proof.
  unfold blit. destruct (_ && _) eqn:Hc; [|done]. intros [= <-] Ho.
  apply andb_true_iff in Hc as [H1 H2]. apply Z.leb_le in H1, H2.
  assert (Ht : length (take (Z.to_nat off) b) = Z.to_nat off) by (rewrite length_take; lia).
  split; [rewrite !length_app, length_take, length_drop; lia|]. split; [lia|].
  split; [|split].
  - rewrite take_app_length'; [done|lia].
  - rewrite drop_app_length' by lia. by rewrite take_app_length'.
  - rewrite (app_assoc (take _ b)). rewrite drop_app_length'; [done|]. rewrite length_app. lia.
Qed.

Lemma read_from_spec fuel p s out off :
  Inv p -> 0 <= off <= Z.of_nat (length out) -> Z.of_nat (length out) < 2 ^ 31 ->
  Z.of_nat (length out) - off < Z.of_nat fuel ->
  exists p' out' k, Inv p' /\ k = Z.min (Z.of_nat (length out) - off) (used p) /\
    contents p' = drop (Z.to_nat k) (contents p) /\
    length out' = length out /\ take (Z.to_nat off) out' = take (Z.to_nat off) out /\
    take (Z.to_nat k) (drop (Z.to_nat off) out') = take (Z.to_nat k) (contents p) /\
    wcnt p' = wcnt p /\ rcnt p' = rcnt p /\ canr p' = canr p /\ canw p' = canw p /\
    read_from fuel p s out off =
      if (off + k <? Z.of_nat (length out)) && negb ((wcnt p =? 0) || (0 <? off + k))
      then (let* (w, s1) := notify_one (canw p) s in
            let* (r, s2) := cv_wait (canr p) s1 in
            Done (IoBlock (off + k), out', set_wait p' r w, s2))
      else (let* (p2, s2) := tryWakeup p' s in Done (IoRet (off + k), out', p2, s2)).
Proof.
  revert p off out. induction fuel as [|fuel IH]; intros p off out I Ho Hlen Hf; [lia|].
  cbn [read_from]. pose proof (length_contents p) as Lp. pose proof (used_range p) as Hur.
  rewrite (u64_small off) by lia. destruct (Z.ltb_spec off (Z.of_nat (length out))) as [Hlt|Hge].
  2:{ exists p, out, 0. rewrite !take_0, drop_0. destruct (Z.ltb_spec (off + 0) (Z.of_nat (length out))); [lia|].
      rewrite Z.add_0_r. repeat (split; [first [done|lia]|]). done. }
  set (n := rlen p (Z.of_nat (length out)) off).
  assert (Hn : n = Z.min (Z.min (used p) (bufSize - head p mod bufSize)) (Z.of_nat (length out) - off))
    by (apply rlen_spec; lia).
  pose proof (Z.mod_pos_bound (head p) bufSize ltac:(done)) as Hm.
  zeq E0.
  - exists p, out, 0. rewrite !take_0, drop_0, Z.add_0_r. repeat (split; [first [done|lia]|]).
    destruct (Z.ltb_spec off (Z.of_nat (length out))); [|lia]. by destruct (_ || _).
  - destruct (pop_ok p n I) as (-> & I1 & C1); [lia|lia|]. cbn [obind].
    set (chunk := take (Z.to_nat n) (contents p)).
    assert (Hc : Z.of_nat (length chunk) = n) by (subst chunk; rewrite length_take; lia).
    destruct (blit_total out off chunk) as [out1 Eb]; [lia|lia|]. rewrite Eb. cbn [obind].
    destruct (blit_parts _ _ _ _ Eb ltac:(lia)) as (L1 & _ & T1 & M1 & D1). fold (pop p n). rewrite (i32_small (off + n)) by lia.
    assert (Hu1 : used (pop p n) = used p - n).
    { rewrite <- !length_contents, C1, length_drop. lia. }
    destruct (IH (pop p n) (off + n) out1 I1 ltac:(lia) ltac:(lia) ltac:(lia))
      as (p' & out' & k & I' & Hk & C' & L' & T' & M' & Hw & Hr & Hcr & Hcw & E).
    exists p', out', (n + k). rewrite Z.add_assoc, E, L1. cbn [pop wcnt rcnt canr canw] in *.
    replace (Z.to_nat (n + k)) with (Z.to_nat n + Z.to_nat k)%nat by lia.
    replace (Z.to_nat (off + n)) with (Z.to_nat off + Z.to_nat n)%nat in * by lia.
    split; [done|]. split; [lia|]. split; [by rewrite C', C1, drop_drop|]. split; [lia|].
    assert (T2 : take (Z.to_nat n) (drop (Z.to_nat off) out') = chunk).
    { rewrite take_drop_commute, T', <- take_drop_commute. rewrite <- M1. f_equal. lia. }
    split; [|split; [|by repeat split]].
    + rewrite <- T1. replace (Z.to_nat off) with (Z.to_nat off `min` (Z.to_nat off + Z.to_nat n))%nat at 1 by lia.
      rewrite <- take_take, T', take_take. f_equal. lia.
    + rewrite <- !take_take_drop. f_equal; [done|]. by rewrite drop_drop, M', C1.
Qed.

(** ** Theorems *)

Definition io_off (x : io) : Z := match x with IoRet n => n | IoBlock n => n end.

(** A pipe used by any interleaving of calls, with the bytes accepted so far
    [W] and delivered so far [R]. *)
Inductive pstep : Pipe * list Z * list Z -> Pipe * list Z * list Z -> Prop :=
| ps_write p s bytes off x p' s' W R :
    0 <= off <= Z.of_nat (length bytes) -> Z.of_nat (length bytes) < 2 ^ 31 ->
    write_from (S (length bytes)) p s bytes off = Done (x, p', s') ->
    pstep (p, W, R) (p', W ++ take (Z.to_nat (io_off x - off)) (drop (Z.to_nat off) bytes), R)
| ps_read p s out off x out' p' s' W R :
    0 <= off <= Z.of_nat (length out) -> Z.of_nat (length out) < 2 ^ 31 ->
    read_from (S (length out)) p s out off = Done (x, out', p', s') ->
    pstep (p, W, R) (p', W, R ++ take (Z.to_nat (io_off x - off)) (drop (Z.to_nat off) out'))
| ps_addReader p W R : pstep (p, W, R) (addReader p, W, R)
| ps_addWriter p W R : pstep (p, W, R) (addWriter p, W, R)
| ps_decReader p s p' s' W R : decReader p s = Done (p', s') -> pstep (p, W, R) (p', W, R)
| ps_decWriter p s p' s' W R : decWriter p s = Done (p', s') -> pstep (p, W, R) (p', W, R).

(** [same_data p p']: the waiting lists and counts may differ, the data not. *)
Definition same_data (p p' : Pipe) : Prop := buf p' = buf p /\ head p' = head p /\ tail p' = tail p.
Lemma same_data_ok p p' : same_data p p' -> (Inv p -> Inv p') /\ contents p' = contents p.
Proof.
  destruct p, p'. intros (H1 & H2 & H3). cbn in *. subst. split; [|done]. intros []. by split.
Qed.
Lemma tryWakeup_data p s p' s' : tryWakeup p s = Done (p', s') -> same_data p p'.
Proof.
  unfold tryWakeup. intros H. odestr H. destruct a as [r s1]. odestr H. destruct a as [w s2].
  by injection H as <- <-.
Qed.
Lemma decReader_data p s p' s' : decReader p s = Done (p', s') -> same_data p p'.
Proof.
  unfold decReader. case_match; [|by intros [= <- <-]]. intros H1. odestr H1. destruct a as [w s1].
  by injection H1 as <- <-.
Qed.
Lemma decWriter_data p s p' s' : decWriter p s = Done (p', s') -> same_data p p'.
Proof.
  unfold decWriter. case_match; [|by intros [= <- <-]]. intros H1. odestr H1. destruct a as [w s1].
  by injection H1 as <- <-.
Qed.

Lemma write_from_data p s bytes off x p' s' :
  Inv p -> 0 <= off <= Z.of_nat (length bytes) -> Z.of_nat (length bytes) < 2 ^ 31 ->
  write_from (S (length bytes)) p s bytes off = Done (x, p', s') ->
  Inv p' /\ contents p' = contents p ++ take (Z.to_nat (io_off x - off)) (drop (Z.to_nat off) bytes).
Proof.
  intros I Ho Hl H. destruct (write_from_spec (S (length bytes)) p s bytes off I Ho Hl ltac:(lia))
    as (p1 & k & I1 & _ & _ & _ & C1 & _ & _ & _ & _ & E). rewrite E in H. clear E. case_match.
  - odestr H. destruct a as [r s1]. odestr H. destruct a as [w s2]. injection H as <- <- <-.
    cbn [io_off]. replace (off + k - off) with k by lia.
    destruct (same_data_ok p1 (set_wait p1 r w)) as [HI HC]; [done|]. rewrite HC. auto.
  - odestr H. destruct a as [p2 s2]. injection H as <- <- <-. apply tryWakeup_data, same_data_ok in E as [HI HC].
    cbn [io_off]. replace (off + k - off) with k by lia. rewrite HC. auto.
Qed.
Lemma read_from_data p s out off x out' p' s' :
  Inv p -> 0 <= off <= Z.of_nat (length out) -> Z.of_nat (length out) < 2 ^ 31 ->
  read_from (S (length out)) p s out off = Done (x, out', p', s') ->
  Inv p' /\ contents p = take (Z.to_nat (io_off x - off)) (drop (Z.to_nat off) out') ++ contents p'.
Proof.
  intros I Ho Hl H. destruct (read_from_spec (S (length out)) p s out off I Ho Hl ltac:(lia))
    as (p1 & out1 & k & I1 & _ & C1 & _ & _ & M1 & _ & _ & _ & _ & E). rewrite E in H. clear E. case_match.
  - odestr H. destruct a as [r s1]. odestr H. destruct a as [w s2]. injection H as <- <- <- <-.
    cbn [io_off]. replace (off + k - off) with k by lia.
    destruct (same_data_ok p1 (set_wait p1 w r)) as [HI HC]; [done|]. rewrite HC, M1, C1, take_drop. auto.
  - odestr H. destruct a as [p2 s2]. injection H as <- <- <- <-. apply tryWakeup_data, same_data_ok in E as [HI HC].
    cbn [io_off]. replace (off + k - off) with k by lia. rewrite HC, M1, C1, take_drop. auto.
Qed.

Lemma pstep_inv c c' :
  pstep c c' -> Inv c.1.1 /\ c.1.2 = c.2 ++ contents c.1.1 -> Inv c'.1.1 /\ c'.1.2 = c'.2 ++ contents c'.1.1.
Proof.
  intros H [I E]. destruct H as [p s bytes off x p' s' W R Ho Hl H|p s out off x out' p' s' W R Ho Hl H| | |? ? ? ? ? ? H|? ? ? ? ? ? H]; cbn in *.
  - apply write_from_data in H as [I' C']; auto. split; [done|]. by rewrite C', E, app_assoc.
  - apply read_from_data in H as [I' C']; auto. split; [done|]. by rewrite <- app_assoc, <- C'.
  - destruct (same_data_ok p (addReader p)) as [? ->]; auto; done.
  - destruct (same_data_ok p (addWriter p)) as [? ->]; auto; done.
  - apply decReader_data, same_data_ok in H as [? ->]. auto.
  - apply decWriter_data, same_data_ok in H as [? ->]. auto.
Qed.

(** C2. First in, first out: over any interleaving of complete and
    interrupted reads and writes of less than 2^31 bytes each (the offset in
    the loops is an int) and of opened and closed ends, the bytes
    accepted are exactly the bytes delivered followed by the bytes in the
    ring, so no byte is lost, duplicated or reordered. *)
Theorem pipe_fifo fresh p W R :
  length fresh = 64%nat -> rtc pstep (Pipe_new fresh, [], []) (p, W, R) -> W = R ++ contents p.
Proof.
  intros Hf Hr. enough (Inv p /\ W = R ++ contents p) by tauto.
  refine (rtc_ind_r (fun c => Inv c.1.1 /\ c.1.2 = c.2 ++ contents c.1.1) _ _ _ _ Hr).
  - cbn. split; [|done]. split; cbn; [rewrite Hf|..]; done || lia.
  - intros y z _ Hyz IH. by apply (pstep_inv y z).
Qed.

(** A write accepts exactly as many bytes as there is room for before it
    stops; it sleeps only when bytes are left, the ring is full and a reader
    exists, and with no reader left it returns the short count. *)
Theorem pipe_write_amount p s bytes :
  Inv p -> Z.of_nat (length bytes) < 2 ^ 31 ->
  exists p' k, k = Z.min (Z.of_nat (length bytes)) (bufSize - Z.of_nat (length (contents p))) /\
    contents p' = contents p ++ take (Z.to_nat k) bytes /\
    write p s bytes =
      if (k <? Z.of_nat (length bytes)) && negb (rcnt p =? 0)
      then (let* (r, s1) := notify_one (canr p) s in
            let* (w, s2) := cv_wait (canw p) s1 in Done (IoBlock k, set_wait p' r w, s2))
      else (let* (p2, s2) := tryWakeup p' s in Done (IoRet k, p2, s2)).
Proof.
  intros I Hl. destruct (write_from_spec (S (length bytes)) p s bytes 0 I ltac:(lia) Hl ltac:(lia))
    as (p' & k & I' & _ & _ & Hk & C' & _ & _ & _ & _ & E).
  exists p', k. rewrite length_contents. rewrite Z.sub_0_r in Hk. split; [done|]. by split.
Qed.

(** A read delivers the oldest bytes, as many as are there and fit; it
    sleeps only on an empty ring with a writer left, and returns 0 when the
    ring is empty and no writer is left. *)
Theorem pipe_read_amount p s out :
  Inv p -> Z.of_nat (length out) < 2 ^ 31 ->
  exists p' out' k, k = Z.min (Z.of_nat (length out)) (Z.of_nat (length (contents p))) /\
    take (Z.to_nat k) out' = take (Z.to_nat k) (contents p) /\
    contents p' = drop (Z.to_nat k) (contents p) /\
    read p s out =
      if (k <? Z.of_nat (length out)) && negb ((wcnt p =? 0) || (0 <? k))
      then (let* (w, s1) := notify_one (canw p) s in
            let* (r, s2) := cv_wait (canr p) s1 in Done (IoBlock k, out', set_wait p' r w, s2))
      else (let* (p2, s2) := tryWakeup p' s in Done (IoRet k, out', p2, s2)).
Proof.
  intros I Hl. destruct (read_from_spec (S (length out)) p s out 0 I ltac:(lia) Hl ltac:(lia))
    as (p' & out' & k & I' & Hk & C' & _ & _ & M' & _ & _ & _ & _ & E).
  exists p', out', k. rewrite length_contents. rewrite Z.sub_0_r in Hk. split; [done|]. by repeat split.
Qed.

(** ** Witnesses *)
Definition ex_pipe : Pipe := Pipe_new (replicate 64 0).
Lemma ex_pipe_inv : Inv ex_pipe.
Proof. split; cbn; done || lia. Qed.
Definition ex_wr : Pipe := Eval vm_compute in
  match write ex_pipe Sched.ex_sched [7; 8; 9] with Done (_, p, _) => p | _ => ex_pipe end.
Lemma pipe_fifo_witness : [7; 8; 9] = [] ++ contents ex_wr.
Proof.
  apply (pipe_fifo (replicate 64 0) ex_wr [7; 8; 9] [] eq_refl). apply rtc_once.
  apply (ps_write ex_pipe Sched.ex_sched [7; 8; 9] 0 (IoRet 3) ex_wr Sched.ex_sched [] []);
    [cbn; lia|cbn; lia|reflexivity].
Defined.
Lemma pipe_write_amount_witness :
  exists p' k, k = 3 /\ contents p' = [7; 8; 9] /\
    write ex_pipe Sched.ex_sched [7; 8; 9] =
      (let* (p2, s2) := tryWakeup p' Sched.ex_sched in Done (IoRet k, p2, s2)).
Proof.
  destruct (pipe_write_amount ex_pipe Sched.ex_sched [7; 8; 9] ex_pipe_inv ltac:(cbn; lia))
    as (p' & k & Hk & Hc & E).
  change (Z.min _ _) with 3 in Hk. subst k. exists p', 3. split; [reflexivity|]. split; [exact Hc|exact E].
Defined.
Lemma pipe_read_amount_witness :
  exists p' out' k, k = 0 /\ contents p' = [] /\
    read ex_pipe Sched.ex_sched [0; 0] =
      (let* (p2, s2) := tryWakeup p' Sched.ex_sched in Done (IoRet k, out', p2, s2)).
Proof.
  destruct (pipe_read_amount ex_pipe Sched.ex_sched [0; 0] ex_pipe_inv ltac:(cbn; lia))
    as (p' & out' & k & Hk & _ & Hc & E).
  change (Z.min _ _) with 0 in Hk. subst k. exists p', out', 0. split; [reflexivity|]. split; [exact Hc|exact E].
Defined.

End Pipe.
