(* ===== verification/Heap.v ===== *)
(** * Heap: the priority queue under the timers (EASTL heap.h, priority_queue.h)

    The events of a timer are in a vector kept as a binary heap by
    eastl::push_heap and eastl::pop_heap. [promote_heap] moves a hole from a
    position towards the root, [adjust_heap] from the root to a leaf and then up
    again; both write the value last. Positions are numbers into the list; an
    access outside it is [Undef]. *)

From S2P Require Import Prelude.

Module Heap.

Section Heap.
Context {A : Type} (compare : A -> A -> bool).
Implicit Types (l : list A) (v : A).

Definition nget l (i : nat) : outcome A := match l !! i with Some x => Done x | None => Undef end.
Definition nset l (i : nat) v : outcome (list A) :=
  if (i <? length l)%nat then Done (<[i := v]> l) else Undef.
Definition parent (i : nat) : nat := Nat.shiftr (i - 1) 1.

Fixpoint promote_heap (fuel : nat) l (top pos : nat) v : outcome (list A) :=
  match fuel with
  | O => Diverge
  | S fuel =>
      if (top <? pos)%nat then
        let* p := nget l (parent pos) in
        if compare p v then
          let* l := nset l pos p in promote_heap fuel l top (parent pos) v
        else nset l pos v
      else nset l pos v
  end.
(** The loop of [adjust_heap]: the position of the hole when it ends and the
    value of [childPosition]. *)
Fixpoint sink (fuel : nat) l (n pos child : nat) : outcome (list A * nat * nat) :=
  match fuel with
  | O => Diverge
  | S fuel =>
      if (child <? n)%nat then
        let* x := nget l child in
        let* y := nget l (child - 1) in
        let c := if compare x y then (child - 1)%nat else child in
        let* z := nget l c in
        let* l := nset l pos z in
        sink fuel l n c (2 * c + 2)
      else Done (l, pos, child)
  end.
Definition adjust_heap l (top n pos : nat) v : outcome (list A) :=
  let* (l, pos, child) := sink (S (length l)) l n pos (2 * pos + 2) in
  let* (l, pos) :=
    if (child =? n)%nat then
      let* z := nget l (child - 1) in let* l := nset l pos z in Done (l, (child - 1)%nat)
    else Done (l, pos) in
  promote_heap (S (length l)) l top pos v.
Definition push_heap l : outcome (list A) :=
  let* v := nget l (length l - 1) in promote_heap (S (length l)) l 0 (length l - 1) v.
Definition pop_heap l : outcome (list A) :=
  let n := (length l - 1)%nat in
  let* v := nget l n in
  let* x := nget l 0 in
  let* l := nset l n x in
  adjust_heap l 0 n 0 v.
(** priority_queue::push, top and pop. *)
Definition pq_push l v : outcome (list A) := push_heap (l ++ [v]).
Definition pq_top l : outcome A := nget l 0.
Definition pq_pop l : outcome (list A) := let* l := pop_heap l in Done (removelast l).

(** ** The order *)
Context (cmp_asym : forall a b, compare a b = true -> compare b a = false).
Context (cmp_trans : forall a b c, compare a b = false -> compare b c = false -> compare a c = false).
Definition ge (a b : A) : Prop := compare a b = false.

(** ** Heaps with a hole *)
Definition heap (n : nat) l : Prop :=
  forall i x y, (0 < i < n)%nat -> l !! i = Some x -> l !! parent i = Some y -> ge y x.
Definition hole (n : nat) l (pos : nat) : Prop :=
  (forall i x y, (0 < i < n)%nat -> i <> pos -> parent i <> pos -> l !! i = Some x -> l !! parent i = Some y -> ge y x) /\
  (forall i x y, (0 < i < n)%nat -> parent i = pos -> (0 < pos)%nat -> l !! i = Some x -> l !! parent pos = Some y -> ge y x).
(** [v] may stand above the children of the hole. *)
Definition above (n : nat) l (pos : nat) v : Prop :=
  forall i x, (0 < i < n)%nat -> parent i = pos -> l !! i = Some x -> ge v x.

Lemma parent_div i : parent i = ((i - 1) / 2)%nat.
Proof. unfold parent. by rewrite Nat.shiftr_div_pow2. Qed.
Lemma parent_lt i : (0 < i)%nat -> (parent i < i)%nat.
Proof. rewrite parent_div. intros. apply Nat.Div0.div_lt_upper_bound; lia. Qed.
Lemma parent_child i p : (0 < i)%nat -> parent i = p <-> i = (2 * p + 1)%nat \/ i = (2 * p + 2)%nat.
Proof.
  rewrite parent_div. intros Hi. pose proof (Nat.div_mod_eq (i - 1) 2). pose proof (Nat.mod_upper_bound (i - 1) 2).
  lia.
Qed.
Lemma nget_lt l i : (i < length l)%nat -> exists x, l !! i = Some x /\ nget l i = Done x.
Proof. intros [x Hx]%lookup_lt_is_Some. exists x. unfold nget. by rewrite Hx. Qed.
Lemma nset_lt l i v : (i < length l)%nat -> nset l i v = Done (<[i := v]> l).
Proof. intros Hi. unfold nset. by apply Nat.ltb_lt in Hi as ->. Qed.
(** Moving a value into the hole moves the hole. *)
Lemma hole_perm l i j x v :
  (i < length l)%nat -> i <> j -> l !! j = Some x -> <[j := v]> (<[i := x]> l) ≡ₚ <[i := v]> l.
Proof.
  intros Hi Hn Hj. rewrite <- (Permutation_insert_swap (<[i := v]> l) i j v x).
  - by rewrite list_insert_insert_eq.
  - by apply list_lookup_insert_eq.
  - by rewrite list_lookup_insert_ne.
Qed.

Lemma close_hole n l pos v :
  (pos < length l)%nat -> hole n l pos -> above n l pos v ->
  ((0 < pos)%nat -> forall y, l !! parent pos = Some y -> ge y v) -> heap n (<[pos := v]> l).
Proof.
  intros Hpos [Ha Hb] Hv Hp i x y Hi Hx Hy. pose proof (parent_lt i ltac:(lia)).
  destruct (decide (i = pos)) as [->|Hn].
  - rewrite list_lookup_insert_eq in Hx by done. rewrite list_lookup_insert_ne in Hy by lia. simplify_eq.
    apply Hp; [lia|done].
  - rewrite list_lookup_insert_ne in Hx by done. destruct (decide (parent i = pos)) as [E|E].
    + rewrite E, list_lookup_insert_eq in Hy by done. simplify_eq. by eapply Hv.
    + rewrite list_lookup_insert_ne in Hy by done. by eapply Ha.
Qed.
Lemma raise_hole n l pos v p :
  (0 < pos < length l)%nat -> hole n l pos -> above n l pos v ->
  l !! parent pos = Some p -> compare p v = true ->
  hole n (<[pos := p]> l) (parent pos) /\ above n (<[pos := p]> l) (parent pos) v.
Proof.
  intros Hpos [Ha Hb] Hv Hp Hc. pose proof (parent_lt pos ltac:(lia)). apply cmp_asym in Hc.
  split; [split|].
  - intros i x y Hi Hi1 Hi2 Hx Hy. pose proof (parent_lt i ltac:(lia)).
    assert (i <> pos) by congruence. rewrite list_lookup_insert_ne in Hx by done.
    destruct (decide (parent i = pos)) as [E|E].
    + rewrite E, list_lookup_insert_eq in Hy by lia. simplify_eq. by eapply (Hb i); [| |lia| |].
    + rewrite list_lookup_insert_ne in Hy by done. by eapply Ha.
  - intros i x y Hi Hi1 Hi2 Hx Hy. pose proof (parent_lt (parent pos) ltac:(lia)). pose proof (parent_lt i ltac:(lia)).
    rewrite list_lookup_insert_ne in Hy by lia.
    assert (ge y p) by (eapply (Ha (parent pos)); eauto; lia).
    destruct (decide (i = pos)) as [->|E].
    + rewrite list_lookup_insert_eq in Hx by lia. by simplify_eq.
    + rewrite list_lookup_insert_ne in Hx by done. apply cmp_trans with p; [done|].
      eapply (Ha i); eauto; [|congruence]. rewrite Hi1. lia.
  - intros i x Hi Hi1 Hx. destruct (decide (i = pos)) as [->|E].
    + rewrite list_lookup_insert_eq in Hx by lia. by simplify_eq.
    + rewrite list_lookup_insert_ne in Hx by done. apply cmp_trans with p; [done|].
      eapply (Ha i); eauto; [|congruence]. rewrite Hi1. lia.
Qed.
Lemma promote_ok n v fuel : forall l pos,
  (pos < fuel)%nat -> (pos < length l)%nat -> hole n l pos -> above n l pos v ->
  exists l', promote_heap fuel l 0 pos v = Done l' /\ heap n l' /\ l' ≡ₚ <[pos := v]> l /\
    forall i, (pos < i)%nat -> l' !! i = l !! i.
Proof.
  induction fuel as [|fuel IH]; intros l pos Hf Hl Hh Hv; [lia|]. cbn [promote_heap].
  assert (Hend : ((0 < pos)%nat -> forall y, l !! parent pos = Some y -> ge y v) ->
    exists l', nset l pos v = Done l' /\ heap n l' /\ l' ≡ₚ <[pos := v]> l /\ forall i, (pos < i)%nat -> l' !! i = l !! i).
  { intros Hp. exists (<[pos := v]> l). rewrite nset_lt by done. split; [done|]. split; [by apply close_hole|].
    split; [done|]. intros i Hi. rewrite list_lookup_insert_ne; [done|lia]. }
  destruct (Nat.ltb_spec 0 pos) as [Hpos|Hpos]; [|by apply Hend; lia].
  pose proof (parent_lt pos Hpos). destruct (nget_lt l (parent pos)) as (p & Hp & ->); [lia|]. cbn [obind].
  destruct (compare p v) eqn:Hc; [|apply Hend; intros _ y Hy; by simplify_eq].
  rewrite nset_lt by done. cbn [obind].
  destruct (raise_hole n l pos v p) as [Hh' Hv']; auto.
  destruct (IH (<[pos := p]> l) (parent pos)) as (l' & E & H1 & H2 & H3); auto; rewrite ?length_insert; try lia.
  exists l'. split; [done|]. split; [done|]. split.
  - rewrite H2. apply hole_perm; [done|lia|done].
  - intros i Hi. rewrite H3 by lia. rewrite list_lookup_insert_ne; [done|lia].
Qed.
(** Filling the hole with its larger child [c]. *)
Lemma lower_hole n l pos c z :
  (pos < c < n)%nat -> (n <= length l)%nat -> parent c = pos -> hole n l pos -> l !! c = Some z ->
  (forall i x, (0 < i < n)%nat -> parent i = pos -> i <> c -> l !! i = Some x -> ge z x) -> hole n (<[pos := z]> l) c.
Proof.
  intros Hc Hn Hpc [Ha Hb] Hz Hmax. split.
  - intros i x y Hi Hi1 Hi2 Hx Hy. destruct (decide (i = pos)) as [->|E].
    + rewrite list_lookup_insert_eq in Hx by lia. pose proof (parent_lt pos ltac:(lia)).
      rewrite list_lookup_insert_ne in Hy by lia. simplify_eq. eapply (Hb c); eauto; lia.
    + rewrite list_lookup_insert_ne in Hx by done. destruct (decide (parent i = pos)) as [E'|E'].
      * rewrite E', list_lookup_insert_eq in Hy by lia. simplify_eq. by eapply Hmax.
      * rewrite list_lookup_insert_ne in Hy by done. by eapply Ha.
  - intros i x y Hi Hi1 Hc0 Hx Hy. rewrite Hpc, list_lookup_insert_eq in Hy by lia. simplify_eq.
    pose proof (parent_lt i ltac:(lia)). rewrite list_lookup_insert_ne in Hx by lia.
    eapply (Ha i); eauto; lia.
Qed.

(** ** The operations *)
Lemma sink_ok n v fuel : forall l pos,
  (n - pos < fuel)%nat -> (n <= length l)%nat -> (pos < length l)%nat -> (pos < n \/ n = 0)%nat -> hole n l pos ->
  exists l' pos', sink fuel l n pos (2 * pos + 2) = Done (l', pos', 2 * pos' + 2)%nat /\ hole n l' pos' /\
    (pos' < n \/ n = 0)%nat /\ (pos' < length l)%nat /\ (n <= 2 * pos' + 2)%nat /\ length l' = length l /\ <[pos' := v]> l' ≡ₚ <[pos := v]> l /\
    forall i, (n <= i)%nat -> l' !! i = l !! i \/ n = 0%nat.
Proof.
  induction fuel as [|fuel IH]; intros l pos Hf Hn Hl Hp Hh; [lia|]. cbn [sink].
  destruct (Nat.ltb_spec (2 * pos + 2) n) as [Hc|Hc].
  2: { exists l, pos. repeat (split; [done || lia|]). by left. }
  destruct (nget_lt l (2 * pos + 2)) as (x & Hx & ->); [lia|]. cbn [obind].
  destruct (nget_lt l (2 * pos + 2 - 1)) as (y & Hy & ->); [lia|]. cbn [obind].
  set (c := if compare x y then (2 * pos + 2 - 1)%nat else (2 * pos + 2)%nat).
  assert (Hcb : (c = 2 * pos + 1 \/ c = 2 * pos + 2)%nat) by (unfold c; destruct (compare x y); lia).
  assert (Hpc : parent c = pos) by (apply parent_child; lia).
  destruct (nget_lt l c) as (z & Hz & ->); [lia|]. cbn [obind]. rewrite nset_lt by done. cbn [obind].
  assert (Hh' : hole n (<[pos := z]> l) c).
  { apply lower_hole; auto; [lia|]. intros i w Hi Hi1 Hi2 Hw. apply parent_child in Hi1; [|lia].
    unfold c in *. replace (2 * pos + 2 - 1)%nat with (2 * pos + 1)%nat in * by lia. destruct (compare x y) eqn:E.
    - assert (i = 2 * pos + 2)%nat as -> by lia. simplify_eq. by apply cmp_asym.
    - assert (i = 2 * pos + 1)%nat as -> by lia. by simplify_eq. }
  destruct (IH (<[pos := z]> l) c) as (l' & pos' & E & H1 & H2 & H3 & H4 & H5 & H6 & H7); rewrite ?length_insert; auto; try lia.
  rewrite length_insert in H3, H5. exists l', pos'. repeat (split; [done|]). split.
  - rewrite H6. apply hole_perm; [done|lia|done].
  - intros i Hi. destruct (H7 i Hi) as [->|]; [left|by right]. rewrite list_lookup_insert_ne; [done|lia].
Qed.
Lemma hole_above n l pos v : (n <= 2 * pos + 1)%nat -> above n l pos v.
Proof. intros Hn i x Hi Hp _. apply parent_child in Hp; lia. Qed.
Lemma adjust_ok n l v :
  (n < length l)%nat -> hole n l 0 ->
  exists l', adjust_heap l 0 n 0 v = Done l' /\ heap n l' /\ l' ≡ₚ <[0 := v]> l /\ length l' = length l /\
    (n <> 0%nat -> l' !! n = l !! n).
Proof.
  intros Hn Hh. unfold adjust_heap.
  destruct (sink_ok n v (S (length l)) l 0) as (l1 & p1 & E & H1 & H2 & H3 & H4 & H5 & H6 & H7); auto; try lia.
  rewrite E. cbn [obind].
  assert (Hg : exists l2 p2, (if (2 * p1 + 2 =? n)%nat then
      let* z := nget l1 (2 * p1 + 2 - 1) in let* l := nset l1 p1 z in Done (l, (2 * p1 + 2 - 1)%nat)
    else Done (l1, p1)) = Done (l2, p2) /\ hole n l2 p2 /\ (p2 < length l)%nat /\ (p2 < n \/ n = 0)%nat /\
    (n <= 2 * p2 + 1)%nat /\ length l2 = length l /\ <[p2 := v]> l2 ≡ₚ <[0 := v]> l /\ (n <> 0%nat -> l2 !! n = l !! n)).
  { destruct (Nat.eqb_spec (2 * p1 + 2) n) as [En|En].
    - destruct (nget_lt l1 (2 * p1 + 2 - 1)) as (z & Hz & ->); [lia|]. cbn [obind]. rewrite nset_lt by lia. cbn [obind].
      exists (<[p1 := z]> l1), (2 * p1 + 2 - 1)%nat. rewrite length_insert. split; [done|].
      assert (Hpc : parent (2 * p1 + 2 - 1) = p1) by (apply parent_child; lia). split.
      { apply lower_hole; auto; try lia. intros i w Hi Hi1 Hi2 _. apply parent_child in Hi1; lia. }
      repeat (split; [lia|]). split; [rewrite <- H6; apply hole_perm; [lia|lia|done]|].
      intros H0. destruct (H7 n) as [<-|]; [lia| |lia]. rewrite list_lookup_insert_ne; [done|lia].
    - exists l1, p1. repeat (split; [done || lia|]). intros H0. destruct (H7 n); [lia|done|lia]. }
  destruct Hg as (l2 & p2 & -> & G1 & G2 & G3 & G4 & G5 & G6 & G7). cbn [obind].
  destruct (promote_ok n v (S (length l2)) l2 p2) as (l' & -> & P1 & P2 & P3); auto; [lia|lia|by apply hole_above|].
  exists l'. split; [done|]. split; [done|]. split; [by rewrite P2|]. split.
  - apply Permutation_length in P2. rewrite length_insert in P2. lia.
  - intros H0. rewrite P3 by lia. auto.
Qed.

(** The array of a queue: every element is at or above its children. *)
Definition wf l : Prop := heap (length l) l.
Lemma wf_top l x : wf l -> l !! 0%nat = Some x -> forall y, y ∈ l -> ge x y.
Proof.
  intros Hw Hx. enough (Hi : forall i y, l !! i = Some y -> ge x y) by (intros y [i Hy]%list_elem_of_lookup; by eapply Hi).
  induction i as [i IH] using lt_wf_ind. intros y Hi.
  destruct (decide (i = 0)%nat) as [->|H0].
  - rewrite Hx in Hi. injection Hi as <-. unfold ge. destruct (compare x x) eqn:E; [|done]. by rewrite (cmp_asym _ _ E) in E.
  - pose proof (lookup_lt_Some _ _ _ Hi). pose proof (parent_lt i ltac:(lia)).
    destruct (lookup_lt_is_Some_2 l (parent i)) as [p Hp]; [lia|].
    apply cmp_trans with p; [by apply (IH (parent i))|]. eapply Hw; eauto. lia.
Qed.
Lemma pq_push_ok l v : wf l -> exists l', pq_push l v = Done l' /\ wf l' /\ l' ≡ₚ v :: l.
Proof.
  intros Hw. unfold pq_push, push_heap. rewrite length_app. cbn [length].
  replace (length l + 1 - 1)%nat with (length l) by lia.
  assert (Hv : (l ++ [v]) !! length l = Some v) by by apply list_lookup_middle.
  unfold nget at 1. rewrite Hv. cbn [obind].
  destruct (promote_ok (length l + 1) v (S (length l + 1)) (l ++ [v]) (length l)) as (l' & -> & H1 & H2 & _).
  - lia.
  - rewrite length_app. cbn. lia.
  - split.
    + intros i x y Hi Hi1 Hi2 Hx Hy. pose proof (parent_lt i ltac:(lia)). rewrite lookup_app_l in Hx, Hy by lia.
      eapply Hw; eauto. lia.
    + intros i x y Hi Hi1. pose proof (parent_lt i ltac:(lia)). lia.
  - intros i x Hi Hi1. pose proof (parent_lt i ltac:(lia)). lia.
  - rewrite list_insert_id in H2 by done. exists l'. split; [done|]. split.
    + unfold wf. apply Permutation_length in H2 as ->. rewrite length_app. done.
    + rewrite H2. symmetry. apply Permutation_cons_append.
Qed.
Lemma pq_pop_ok l x :
  wf l -> pq_top l = Done x -> exists l', pq_pop l = Done l' /\ wf l' /\ l ≡ₚ x :: l'.
Proof.
  intros Hw Ht. unfold pq_top, nget in Ht. destruct (l !! 0%nat) as [x'|] eqn:H0; [|done]. injection Ht as ->.
  pose proof (lookup_lt_Some _ _ _ H0) as Hl. set (n := (length l - 1)%nat).
  unfold pq_pop, pop_heap. fold n. destruct (nget_lt l n) as (v & Hv & ->); [lia|]. cbn [obind].
  unfold nget at 1. rewrite H0. cbn [obind]. rewrite nset_lt by lia. cbn [obind].
  destruct (adjust_ok n (<[n := x]> l) v) as (l1 & -> & A1 & A2 & A3 & A4).
  - rewrite length_insert. lia.
  - split; [|lia]. intros i y z Hi Hi1 Hi2 Hy Hz. pose proof (parent_lt i ltac:(lia)).
    rewrite list_lookup_insert_ne in Hy, Hz by lia. eapply Hw; eauto. lia.
  - rewrite length_insert in A3. cbn [obind]. exists (removelast l1). split; [done|].
    assert (Hperm : l1 ≡ₚ l) by (rewrite A2; by apply Permutation_insert_swap).
    assert (Hlast : l1 = removelast l1 ++ [x]).
    { destruct (decide (n = 0%nat)) as [En|En].
      - destruct l as [|? [|]]; cbn in *; try lia. simplify_eq. by apply Permutation_singleton_r in Hperm as ->.
      - apply last_removelast. rewrite last_lookup, A3. replace (pred (length l)) with n by lia.
        rewrite A4 by done. apply list_lookup_insert_eq. lia. }
    assert (Hlen : length (removelast l1) = n).
    { rewrite Hlast, length_app in A3. cbn in A3. lia. }
    split.
    + intros i y z Hi Hy Hz. pose proof (parent_lt i ltac:(lia)). rewrite Hlen in Hi.
      apply (A1 i y z); [lia| |]; rewrite Hlast, lookup_app_l by lia; done.
    + rewrite Permutation_cons_append, <- Hlast. by symmetry.
Qed.
End Heap.
End Heap.
