(* ===== verification/Bytes.v ===== *)
(** * Bytes: byte arrays as lists

    Pieces of a byte array ([slice]), replacement of a piece ([splice]) and the
    little-endian integers the kernel reads and writes through pointer casts,
    with the facts the file systems share. *)

From S2P Require Import Prelude.
Local Open Scope Z_scope.

Definition slice (l : list Z) (o n : Z) : list Z := take (Z.to_nat n) (drop (Z.to_nat o) l).
Definition splice (l : list Z) (o : Z) (bs : list Z) : list Z :=
  take (Z.to_nat o) l ++ bs ++ drop (Z.to_nat o + length bs) l.

Definition zlen (l : list Z) : Z := Z.of_nat (length l).

Lemma vat_app (l1 l2 : list Z) i :
  0 <= i -> vat (l1 ++ l2) i = if i <? zlen l1 then vat l1 i else vat l2 (i - zlen l1).
Proof.
  intros Hi. unfold vat, zlen. destruct (Z.ltb_spec i (Z.of_nat (length l1))).
  - rewrite lookup_app_l; [done|lia].
  - rewrite lookup_app_r by lia. do 2 f_equal. lia.
Qed.
Lemma vat_drop (l : list Z) (n i : Z) : 0 <= n -> 0 <= i -> vat (drop (Z.to_nat n) l) i = vat l (n + i).
Proof. intros. unfold vat. rewrite lookup_drop. do 2 f_equal. lia. Qed.
Lemma vat_take (l : list Z) (n i : Z) : 0 <= i < n -> vat (take (Z.to_nat n) l) i = vat l i.
Proof. intros. unfold vat. rewrite lookup_take_lt; [done|lia]. Qed.

Lemma slice_length l o n : 0 <= o -> 0 <= n -> o + n <= zlen l -> zlen (slice l o n) = n.
Proof. intros. unfold slice, zlen in *. rewrite length_take, length_drop. lia. Qed.
Lemma vat_slice l o n i : 0 <= o -> 0 <= i < n -> vat (slice l o n) i = vat l (o + i).
Proof. intros. unfold slice. rewrite vat_take by lia. apply vat_drop; lia. Qed.

Lemma splice_length l o bs : 0 <= o -> o + zlen bs <= zlen l -> zlen (splice l o bs) = zlen l.
Proof. intros. unfold splice, zlen in *. rewrite !length_app, length_take, length_drop. lia. Qed.
Lemma vat_splice l o bs i :
  0 <= o -> o + zlen bs <= zlen l -> 0 <= i ->
  vat (splice l o bs) i = if decide (o <= i < o + zlen bs) then vat bs (i - o) else vat l i.
Proof.
  intros Ho Hl Hi. unfold splice. rewrite vat_app by lia.
  assert (E : zlen (take (Z.to_nat o) l) = o) by (unfold zlen in *; rewrite length_take; lia). rewrite E.
  destruct (Z.ltb_spec i o).
  - rewrite decide_False by lia. apply vat_take. lia.
  - rewrite vat_app by lia. destruct (Z.ltb_spec (i - o) (zlen bs)).
    + by rewrite decide_True by lia.
    + rewrite decide_False by lia. replace (Z.to_nat o + length bs)%nat with (Z.to_nat (o + zlen bs)) by (unfold zlen; lia).
      rewrite vat_drop by (unfold zlen in *; lia). f_equal. lia.
Qed.

Lemma list_vat_eq (l1 l2 : list Z) :
  zlen l1 = zlen l2 -> (forall i, 0 <= i < zlen l1 -> vat l1 i = vat l2 i) -> l1 = l2.
Proof.
  unfold zlen. intros Hl H. apply list_eq. intros i. specialize (H (Z.of_nat i)). unfold vat in H. rewrite Nat2Z.id in H.
  destruct (l1 !! i) as [x|] eqn:E1, (l2 !! i) as [y|] eqn:E2; [|exfalso..|done].
  - f_equal. apply H. apply lookup_lt_Some in E1. lia.
  - apply lookup_lt_Some in E1. apply lookup_ge_None_1 in E2. lia.
  - apply lookup_lt_Some in E2. apply lookup_ge_None_1 in E1. lia.
Qed.

Lemma slice_splice l o bs : 0 <= o <= zlen l -> slice (splice l o bs) o (zlen bs) = bs.
Proof.
  intros Ho. unfold slice, splice, zlen in *. rewrite drop_app_length' by (rewrite length_take; lia).
  apply take_app_length'. lia.
Qed.

(** Little-endian integers at a byte offset. *)
Definition get16 (l : list Z) (o : Z) : Z := vat l o + 256 * vat l (o + 1).
Definition get32 (l : list Z) (o : Z) : Z :=
  vat l o + 256 * vat l (o + 1) + 65536 * vat l (o + 2) + 16777216 * vat l (o + 3).
Definition le16 (v : Z) : list Z := [v mod 256; (v / 256) mod 256].
Definition le32 (v : Z) : list Z := [v mod 256; (v / 256) mod 256; (v / 65536) mod 256; (v / 16777216) mod 256].

Lemma zlen_le32 v : zlen (le32 v) = 4.
Proof. done. Qed.
Lemma get32_le32 v : 0 <= v < 2 ^ 32 -> get32 (le32 v) 0 = v.
Proof.
  intros H. change (get32 (le32 v) 0) with
    (v mod 256 + 256 * ((v / 256) mod 256) + 65536 * ((v / 65536) mod 256) + 16777216 * ((v / 16777216) mod 256)).
  replace (v / 16777216) with (v / 65536 / 256) by (rewrite Z.div_div by lia; done).
  replace (v / 65536) with (v / 256 / 256) by (rewrite Z.div_div by lia; done).
  pose proof (Z.div_mod v 256). pose proof (Z.div_mod (v / 256) 256). pose proof (Z.div_mod (v / 256 / 256) 256).
  rewrite (Z.mod_small (v / 256 / 256 / 256)); [lia|].
  split; [repeat apply Z.div_pos; lia|]. repeat (apply Z.div_lt_upper_bound; [lia|]). lia.
Qed.
Lemma get32_splice l o v :
  0 <= v < 2 ^ 32 -> 0 <= o -> o + 4 <= zlen l -> get32 (splice l o (le32 v)) o = v.
Proof.
  intros Hv Ho Hl. rewrite <- (get32_le32 v Hv) at 2. unfold get32.
  rewrite !vat_splice by (rewrite ?zlen_le32; lia). rewrite !decide_True by (rewrite zlen_le32; lia).
  replace (o - o) with 0 by lia. replace (o + 1 - o) with (0 + 1) by lia.
  replace (o + 2 - o) with (0 + 2) by lia. by replace (o + 3 - o) with (0 + 3) by lia.
Qed.
Lemma get32_splice_ne l o v p :
  0 <= o -> o + 4 <= zlen l -> 0 <= p -> p + 4 <= o \/ o + 4 <= p ->
  get32 (splice l o (le32 v)) p = get32 l p.
Proof.
  intros Ho Hl Hp Hd. unfold get32. rewrite !vat_splice by (rewrite ?zlen_le32; lia).
  by rewrite !decide_False by (rewrite zlen_le32; lia).
Qed.

(** 64-bit words, and arrays of them. *)
Definition le64 (x : Z) : list Z := le32 (u64 x mod 4294967296) ++ le32 (u64 x / 4294967296).
Definition word (l : list Z) (i : Z) : Z := get32 l (8 * i) + 4294967296 * get32 l (8 * i + 4).
Definition enc (ws : list Z) : list Z := concat (le64 <$> ws).

Lemma zlen_le64 x : zlen (le64 x) = 8.
Proof. done. Qed.
Lemma zlen_app (l1 l2 : list Z) : zlen (l1 ++ l2) = zlen l1 + zlen l2.
Proof. unfold zlen. rewrite length_app. lia. Qed.
Lemma zlen_enc ws : zlen (enc ws) = 8 * zlen ws.
Proof.
  unfold enc. induction ws as [|x ws IH]; [done|]. cbn [fmap list_fmap concat]. rewrite zlen_app, zlen_le64, IH.
  unfold zlen. cbn [length]. lia.
Qed.
Lemma get32_app_l l1 l2 o : 0 <= o -> o + 4 <= zlen l1 -> get32 (l1 ++ l2) o = get32 l1 o.
Proof.
  intros Ho Hl. unfold get32. rewrite !vat_app by lia.
  repeat match goal with |- context [Z.ltb ?a ?b] => destruct (Z.ltb_spec a b); [|lia] end. done.
Qed.
Lemma get32_app_r l1 l2 o : zlen l1 <= o -> get32 (l1 ++ l2) o = get32 l2 (o - zlen l1).
Proof.
  intros Ho. assert (0 <= zlen l1) by (unfold zlen; lia). unfold get32. rewrite !vat_app by lia.
  repeat match goal with |- context [Z.ltb ?a ?b] => destruct (Z.ltb_spec a b); [lia|] end.
  replace (o + 1 - zlen l1) with (o - zlen l1 + 1) by lia. replace (o + 2 - zlen l1) with (o - zlen l1 + 2) by lia.
  by replace (o + 3 - zlen l1) with (o - zlen l1 + 3) by lia.
Qed.
Lemma word_le64 x : 0 <= x < 2 ^ 64 -> word (le64 x) 0 = x.
Proof.
  intros H. unfold word, le64. rewrite u64_small by lia. rewrite get32_app_l by (rewrite ?zlen_le32; lia).
  rewrite get32_app_r by (rewrite zlen_le32; lia). rewrite zlen_le32. replace (8 * 0 + 4 - 4) with 0 by lia.
  replace (8 * 0) with 0 by lia. rewrite !get32_le32.
  - pose proof (Z.div_mod x 4294967296). lia.
  - split; [apply Z.div_pos; lia|apply Z.div_lt_upper_bound; lia].
  - apply Z.mod_pos_bound. lia.
Qed.
(** The words of an array are read back. *)
Lemma word_enc ws (i : nat) x : ws !! i = Some x -> 0 <= x < 2 ^ 64 -> word (enc ws) (Z.of_nat i) = x.
Proof.
  revert i. induction ws as [|y ws IH]; intros i Hi Hx; [done|]. unfold enc. cbn [fmap list_fmap concat]. destruct i as [|i].
  - injection Hi as ->. rewrite <- (word_le64 x Hx) at 2. unfold word.
    by rewrite !get32_app_l by (rewrite ?zlen_le64; lia).
  - rewrite <- (IH i Hi Hx). unfold word, enc. rewrite !get32_app_r by (rewrite zlen_le64; lia). rewrite zlen_le64.
    do 2 f_equal; f_equal; lia.
Qed.
