(* ===== verification/Custom.v ===== *)
(** * Custom: the files of procfs and devfs (kernel/syscall/custom.cc)

    The nodes under /proc and /dev compute their contents when they are read. A read
    is given the address of a buffer and copies piece after piece to it; the model
    returns the bytes it copies, in order, which start at that address whatever the
    length of the buffer is. *)

From S2P Require Import Prelude Klib Bytes Printf.
Import Printf.Printf.
Local Open Scope Z_scope.

Module Custom.

(** ** Files made of lines *)

(** The loop of the nodRead functions: [len] is the length the caller asks for, [off]
    the offset that is left, [out] what has been copied. *)
Fixpoint read_lines (lines : list (list Z)) (len off : Z) (out : list Z) : outcome (Z * list Z) :=
  match lines with
  | [] => Done (i32 (zlen out), out)
  | line :: lines =>
      let bytes := i32 (u64 (kmin len (zlen line) - off)) in
      let* out :=
        (if off <? bytes then
           if off <? 0 then Undef else Done (out ++ take (Z.to_nat bytes) (drop (Z.to_nat off) line))
         else Done out) in
      let off := if 0 <? off then i32 (off - kmin bytes off) else off in
      read_lines lines len off out
  end.

(** MountsFile and MemInfoFile: the mount points with the types of their file systems. *)
Definition str_on : list Z := [32; 111; 110; 32].
Definition str_type : list Z := [32; 116; 121; 112; 101; 32].
Definition str_rw : list Z := [40; 114; 119; 41; 10].
Definition mount_line (item : list Z * list Z) : list Z :=
  fst item ++ str_on ++ fst item ++ str_type ++ snd item ++ str_rw.
Definition mounts_nodRead (mnt_table : list (list Z * list Z)) (uoff len : Z) : outcome (Z * list Z) :=
  read_lines (mount_line <$> mnt_table) len (i32 uoff) [].

(** MountsInfoFile; [hash] is eastl::hash, [fresh] the memory of klib::format. *)
Definition fmt_mountinfo : list Z :=
  [37; 100; 32; 37; 100; 32; 37; 100; 58; 48; 32; 47; 32; 37; 115; 32; 114; 119; 44; 110; 111; 97; 116;
   105; 109; 101; 32; 45; 32; 37; 115; 32; 110; 111; 110; 101; 32; 114; 119; 44; 101; 114; 114; 111; 114;
   115; 61; 99; 111; 110; 116; 105; 110; 117; 101].
Fixpoint mountinfo_lines (fresh : Z -> list Z) (hash : list Z -> Z) (mnt_table : list (list Z * list Z))
  : outcome (list (list Z)) :=
  match mnt_table with
  | [] => Done []
  | item :: rest =>
      let* l := format_ fresh fmt_mountinfo
                  [VNum (hash (fst item)); VNum 0; VNum 1; VStr (fst item); VStr (snd item)] in
      let* ls := mountinfo_lines fresh hash rest in Done (l :: ls)
  end.
Definition mountinfo_nodRead fresh hash mnt_table (uoff len : Z) : outcome (Z * list Z) :=
  let* ls := mountinfo_lines fresh hash mnt_table in read_lines ls len (i32 uoff) [].

(** InterruptsFile: the counts that are not zero. *)
Fixpoint irq_lines (fresh : Z -> list Z) (i : Z) (irqcnt : list Z) : outcome (list (list Z)) :=
  match irqcnt with
  | [] => Done []
  | c :: rest =>
      let cnt := i32 c in
      let* ls := irq_lines fresh (i + 1) rest in
      if 0 <? cnt then
        let* a := format_ fresh [37; 100] [VNum i] in
        let* b := format_ fresh [37; 100] [VNum cnt] in
        Done ((a ++ [58; 32] ++ b ++ [10]) :: ls)
      else Done ls
  end.
Definition interrupts_nodRead fresh irqcnt (uoff len : Z) : outcome (Z * list Z) :=
  let* ls := irq_lines fresh 0 irqcnt in read_lines ls len (i32 uoff) [].

(** ** The others *)

(** RTCFile::nodRead: the eight bytes of the clock, whatever [len] is. *)
Definition rtc_nodRead (now uoff len : Z) : Z * list Z :=
  if u64 (i32 uoff) <? 8 then (8, le64 now) else (0, []).
(** ZeroFile and NullFile. *)
Definition zero_nodRead (uoff len : Z) : Z * list Z := (i32 len, replicate (Z.to_nat len) 0).
Definition null_nodRead (uoff len : Z) : Z * list Z := (-1, []).
Definition sink_nodWrite (a_src a_off a_len : Z) : Z := i32 a_len.
(** ExeFile::readLink. *)
Definition exe_readLink (exe : list Z) (a_bufsiz : Z) : Z * list Z :=
  let n := i32 (kmin a_bufsiz (zlen exe)) in (n, take (Z.to_nat n) exe).

(** ** The clock device *)

(** Days from the start of a leap year to the first of each month of four years. *)
Definition days : list (list Z) :=
  [[0; 31; 60; 91; 121; 152; 182; 213; 244; 274; 305; 335];
   [366; 397; 425; 456; 486; 517; 547; 578; 609; 639; 670; 700];
   [731; 762; 790; 821; 851; 882; 912; 943; 974; 1004; 1035; 1065];
   [1096; 1127; 1155; 1186; 1216; 1247; 1277; 1308; 1339; 1369; 1400; 1430]].
Definition day_of (y m : nat) : Z := default 0 ((days !! y) ≫= (.!! m)).

(** The two loops downwards: the last entry not above [epoch], or the first. *)
Fixpoint down (entry : nat -> Z) (i : nat) (epoch : Z) : nat :=
  match i with
  | O => O
  | S j => if entry i <=? epoch then i else down entry j epoch
  end.
Record rtc_time : Type := mkTime {
  tm_sec : Z; tm_min : Z; tm_hour : Z; tm_mday : Z; tm_mon : Z; tm_year : Z }.
(** RTC_RD_TIME; [epoch] is the count of the clock, a long long; the fields of the
    structure are of type int. The fields tm_wday, tm_yday and tm_isdst are not set by
    the code. *)
Definition rtc_read (epoch : Z) : rtc_time :=
  let sec := Z.rem epoch 60 in let epoch := Z.quot epoch 60 in
  let min := Z.rem epoch 60 in let epoch := Z.quot epoch 60 in
  let hour := Z.rem epoch 24 in let epoch := Z.quot epoch 24 in
  let years := Z.quot epoch 1461 * 4 in let epoch := Z.rem epoch 1461 in
  let year := down (fun y => day_of y 0) 3 epoch in
  let month := down (day_of year) 11 epoch in
  mkTime sec min hour (i32 (epoch - day_of year month + 1)) (Z.of_nat month + 1)
    (i32 (years + Z.of_nat year)).
Definition RTC_RD_TIME : Z := 2149871625.
Definition rtc_ioctl (req epoch : Z) : Z * option rtc_time :=
  if req =? RTC_RD_TIME then (0, Some (rtc_read epoch)) else (-22, None).

(** ** What a read copies *)

Lemma read_lines_start lines len out :
  0 <= len < 2 ^ 31 ->
  read_lines lines len 0 out
  = let out := out ++ concat (take (Z.to_nat len) <$> lines) in Done (i32 (zlen out), out).
Proof.
  intros Hl. revert out. induction lines as [|l lines IH]; intros out; cbn [read_lines].
  - cbn. by rewrite app_nil_r.
  - rewrite Z.sub_0_r, kmin_spec. assert (0 <= zlen l) by (unfold zlen; lia).
    rewrite u64_small, i32_small by lia.
    replace (if 0 <? Z.min len (zlen l) then if 0 <? 0 then Undef
             else Done (out ++ take (Z.to_nat (Z.min len (zlen l))) (drop (Z.to_nat 0) l)) else Done out)
      with (Done (out ++ take (Z.to_nat len) l)).
    + cbn [obind]. change (0 <? 0) with false. rewrite IH. cbn. by rewrite <- app_assoc.
    + change (0 <? 0) with false. change (Z.to_nat 0) with 0%nat. cbn [drop]. unfold zlen in *.
      destruct (Z.ltb_spec 0 (Z.min len (Z.of_nat (length l)))).
      * destruct (Z.min_spec len (Z.of_nat (length l))) as [[? ->]|[? ->]]; [done|].
        rewrite Nat2Z.id, drop_0, (take_ge l (length l)), (take_ge l (Z.to_nat len)) by lia. done.
      * assert (take (Z.to_nat len) l = []) as ->; [|by rewrite app_nil_r].
        destruct l as [|c l]; [by destruct (Z.to_nat len)|]. cbn [length] in *.
        by replace (Z.to_nat len) with 0%nat by lia.
Qed.

Lemma concat_fits len ls : zlen (concat ls) <= len -> concat (take (Z.to_nat len) <$> ls) = concat ls.
Proof.
  induction ls as [|l ls IH]; [done|]. cbn. unfold zlen in *. rewrite length_app. intros H.
  rewrite take_ge by lia. f_equal. apply IH. lia.
Qed.

(** A read of /proc/mounts from the start into a buffer that is long enough gives all
    lines, one after the other. *)
Theorem mounts_read_whole mnt len :
  0 <= len < 2 ^ 31 -> zlen (concat (mount_line <$> mnt)) <= len ->
  mounts_nodRead mnt 0 len = Done (zlen (concat (mount_line <$> mnt)), concat (mount_line <$> mnt)).
Proof.
  intros Hl Hc. unfold mounts_nodRead. change (i32 0) with 0. rewrite read_lines_start by done. cbn zeta. cbn [app].
  rewrite concat_fits by done. rewrite i32_small; [done|]. unfold zlen in *. lia.
Qed.

(** The files under /proc overrun the buffer of the reader: the length asked for limits
    each line and not the sum, so a read of [len] bytes from a table of mounts whose lines
    are longer than that copies [len] bytes per mount to consecutive addresses, and
    returns a count above [len] as soon as there are two. *)
Theorem proc_read_overruns mnt len :
  0 < len -> (2 <= length mnt)%nat -> Z.of_nat (length mnt) * len < 2 ^ 31 ->
  Forall (fun item => len <= zlen (mount_line item)) mnt ->
  exists out, mounts_nodRead mnt 0 len = Done (Z.of_nat (length mnt) * len, out) /\
    zlen out = Z.of_nat (length mnt) * len /\ len < zlen out /\
    out = concat (take (Z.to_nat len) <$> (mount_line <$> mnt)).
Proof.
  intros Hl Hn Hm Hf. assert (len < 2 ^ 31) by nia. unfold mounts_nodRead. change (i32 0) with 0.
  rewrite read_lines_start by lia. cbn zeta. cbn [app].
  assert (zlen (concat (take (Z.to_nat len) <$> (mount_line <$> mnt))) = Z.of_nat (length mnt) * len) as E.
  { clear Hn Hm. induction Hf as [|x mnt Hx Hf IH]; [done|]. cbn -[mount_line]. unfold zlen in *.
    rewrite length_app, length_take. lia. }
  rewrite E, i32_small by lia. eexists. split; [done|]. split; [done|]. split; [nia|done].
Qed.
Definition ex_mnt : list (list Z * list Z) := [([47], [102; 97; 116]); ([47; 100; 101; 118], [114; 97; 109])].
Lemma proc_read_overruns_witness :
  exists out, mounts_nodRead ex_mnt 0 5 = Done (10, out) /\ zlen out = 10 /\ 5 < zlen out /\
    out = concat (take (Z.to_nat 5) <$> (mount_line <$> ex_mnt)).
Proof.
  apply (proc_read_overruns ex_mnt 5); [lia|cbn; lia|cbn; lia|]. repeat (constructor; [vm_compute; discriminate|]). constructor.
Defined.

(** From an offset in the second half of a line the rest of that line is skipped. *)
Theorem second_half_lost line rest len off :
  0 <= zlen line <= len -> len < 2 ^ 31 -> zlen line <= 2 * off -> off < zlen line ->
  read_lines (line :: rest) len off [] = read_lines rest len (2 * off - zlen line) [].
Proof.
  intros Hl Hm H2 Ho. cbn [read_lines]. rewrite kmin_spec, Z.min_r, u64_small, i32_small by lia.
  destruct (Z.ltb_spec off (zlen line - off)); [lia|]. cbn [obind]. destruct (Z.ltb_spec 0 off); [|lia].
  rewrite kmin_spec, Z.min_l, i32_small by lia. by replace (off - (zlen line - off)) with (2 * off - zlen line) by lia.
Qed.

(** ** The interrupt counts *)

Definition irq_text (i c : Z) : list Z := dec_text i ++ [58; 32] ++ dec_text c ++ [10].
Fixpoint irq_report (i : Z) (irqcnt : list Z) : list (list Z) :=
  match irqcnt with
  | [] => []
  | c :: rest => (if 0 <? i32 c then [irq_text i (i32 c)] else []) ++ irq_report (i + 1) rest
  end.
Lemma format_number fresh x :
  (forall k, length (fresh k) = Z.to_nat k) -> 0 <= x < 2147483648 -> format_ fresh [37; 100] [VNum x] = Done (dec_text x).
Proof.
  intros Hf Hx.
  destruct (dec_text_plain x) as [H1 H2].
  assert (1 <= length (dec_text x))%nat as Hp.
  { unfold dec_text. destruct (Z.ltb_spec x 0); [lia|]. by apply dec_digits_pos; lia. }
  apply (format_renders fresh [37; 100] [VNum x]); [done|..].
  - cbn -[dec_text i32]. rewrite i32_small by lia. destruct (Z.eqb_spec x (- 2 ^ 63)); [lia|]. cbn -[dec_text].
    by rewrite app_nil_r.
  - intros E. rewrite E in Hp. cbn in Hp. lia.
  - lia.
  - done.
Qed.
(** /proc/interrupts read from the start shows, for each interrupt that has occurred, its
    number and its count. *)
Theorem interrupts_read fresh irqcnt len :
  (forall k, length (fresh k) = Z.to_nat k) -> (length irqcnt <= 1024)%nat -> 0 <= len < 2 ^ 31 ->
  zlen (concat (irq_report 0 irqcnt)) <= len ->
  interrupts_nodRead fresh irqcnt 0 len
  = Done (zlen (concat (irq_report 0 irqcnt)), concat (irq_report 0 irqcnt)).
Proof.
  intros Hf Hn Hl Hc. unfold interrupts_nodRead.
  assert (forall cs i, 0 <= i -> i + Z.of_nat (length cs) <= 1024 -> irq_lines fresh i cs = Done (irq_report i cs)) as E.
  { induction cs as [|c cs IH]; intros i Hi Hle; [done|]. cbn [irq_lines irq_report]. cbn [length] in Hle.
    rewrite IH by lia. cbn [obind]. destruct (Z.ltb_spec 0 (i32 c)) as [Hp|Hp]; [|done].
    assert (i32 c < 2147483648) by (unfold i32; pose proof (Z.mod_pos_bound (c + 2147483648) 4294967296 ltac:(lia)); lia).
    rewrite !format_number by (done || lia). done. }
  rewrite E by lia. cbn [obind]. change (i32 0) with 0. rewrite read_lines_start by done. cbn zeta. cbn [app].
  rewrite concat_fits by done. rewrite i32_small; [done|]. unfold zlen in *. lia.
Qed.

(** ** Dates *)

(** The calendar with a leap year every fourth year, the first one being one. *)
Definition leap (y : Z) : bool := y mod 4 =? 0.
Definition month_days (y m : Z) : Z :=
  if m =? 2 then (if leap y then 29 else 28)
  else if (m =? 4) || (m =? 6) || (m =? 9) || (m =? 11) then 30 else 31.
(** The days before a month of a year, and before a year. *)
Fixpoint days_before (y : Z) (months : nat) : Z :=
  match months with O => 0 | S m => days_before y m + month_days y (Z.of_nat m + 1) end.
Definition year_start (y : Z) : Z := 365 * y + (y + 3) / 4.
(** The seconds from the start of year 0 to a date. *)
Definition seconds_of (t : rtc_time) : Z :=
  tm_sec t + 60 * (tm_min t + 60 * (tm_hour t + 24 *
    (year_start (tm_year t) + days_before (tm_year t) (Z.to_nat (tm_mon t - 1)) + (tm_mday t - 1)))).
Definition valid_time (t : rtc_time) : Prop :=
  0 <= tm_sec t < 60 /\ 0 <= tm_min t < 60 /\ 0 <= tm_hour t < 24 /\ 0 <= tm_year t /\
  1 <= tm_mon t <= 12 /\ 1 <= tm_mday t <= month_days (tm_year t) (tm_mon t).

(** Year and month of a day of the cycle of four years, checked day by day. *)
Definition cycle_ok (d : Z) : bool :=
  let y := down (fun y => day_of y 0) 3 d in
  let m := down (day_of y) 11 d in
  let mday := d - day_of y m + 1 in
  (y <? 4)%nat && (m <? 12)%nat && (1 <=? mday) && (mday <=? month_days (Z.of_nat y) (Z.of_nat m + 1)) &&
  (day_of y m =? year_start (Z.of_nat y) + days_before (Z.of_nat y) m).
Lemma cycle_all : forallb cycle_ok (Z.of_nat <$> seq 0 1461) = true.
Proof. vm_compute. reflexivity. Qed.
Lemma cycle_day d : 0 <= d < 1461 -> cycle_ok d = true.
Proof.
  intros Hd. pose proof cycle_all as H. rewrite forallb_forall in H. apply H. apply list_elem_of_In.
  apply list_elem_of_fmap. exists (Z.to_nat d). split; [lia|]. apply elem_of_seq. lia.
Qed.
(** Four years further the calendar is the same. *)
Lemma month_days_cycle c y m : month_days (c * 4 + y) m = month_days y m.
Proof. unfold month_days, leap. by rewrite Z.add_comm, Z.mod_add by lia. Qed.
Lemma days_before_cycle c y n : days_before (c * 4 + y) n = days_before y n.
Proof. induction n as [|n IH]; cbn [days_before]; [done|]. by rewrite IH, month_days_cycle. Qed.

(** C35. The date of RTC_RD_TIME: for every count of the clock below 2^29 cycles of four
    years (126230400 each), the counts whose year fits the int of the structure, the fields
    are a valid date of the calendar with a leap year every four years, and the date, turned
    back into seconds, is the count. *)
Theorem rtc_date_exact epoch :
  0 <= epoch < 2 ^ 29 * 126230400 -> valid_time (rtc_read epoch) /\ seconds_of (rtc_read epoch) = epoch.
Proof.
  intros He. unfold rtc_read. rewrite !Z.rem_mod_nonneg, !Z.quot_div_nonneg by (repeat apply Z.div_pos; lia).
  rewrite !Z.rem_mod_nonneg by (repeat apply Z.div_pos; lia).
  set (m1 := epoch / 60). set (h1 := m1 / 60). set (d1 := h1 / 24).
  assert (0 <= m1) by (apply Z.div_pos; lia). assert (0 <= h1) by (apply Z.div_pos; lia).
  assert (0 <= d1) by (apply Z.div_pos; lia). pose proof (Z.mod_pos_bound d1 1461 ltac:(lia)) as Hd.
  pose proof (cycle_day _ Hd) as Hc. unfold cycle_ok in Hc. cbn zeta in Hc |- *.
  set (y := down (fun y => day_of y 0) 3 (d1 mod 1461)) in *. set (m := down (day_of y) 11 (d1 mod 1461)) in *.
  rewrite !andb_true_iff, !Nat.ltb_lt, !Z.leb_le, Z.eqb_eq in Hc. destruct Hc as ((((Hy & Hm) & Hd1) & Hd2) & E).
  pose proof (Z.div_pos d1 1461 ltac:(lia) ltac:(lia)).
  pose proof (Z.mod_pos_bound epoch 60 ltac:(lia)). pose proof (Z.mod_pos_bound m1 60 ltac:(lia)).
  pose proof (Z.mod_pos_bound h1 24 ltac:(lia)).
  assert (d1 / 1461 < 2 ^ 29) by (unfold d1, h1, m1; rewrite !Z.div_div by lia; apply Z.div_lt_upper_bound; lia).
  assert (month_days (Z.of_nat y) (Z.of_nat m + 1) <= 31) by (unfold month_days; repeat case_match; lia).
  rewrite (i32_small (d1 mod 1461 - _ + 1)), (i32_small (d1 / 1461 * 4 + _)) by lia.
  split.
  - unfold valid_time. cbn [tm_sec tm_min tm_hour tm_mday tm_mon tm_year]. rewrite month_days_cycle. lia.
  - unfold seconds_of. cbn [tm_sec tm_min tm_hour tm_mday tm_mon tm_year]. rewrite days_before_cycle.
    replace (Z.to_nat (Z.of_nat m + 1 - 1)) with m by lia.
    assert (year_start (d1 / 1461 * 4 + Z.of_nat y) = 1461 * (d1 / 1461) + year_start (Z.of_nat y)) as ->.
    { unfold year_start. replace (d1 / 1461 * 4 + Z.of_nat y + 3) with (Z.of_nat y + 3 + d1 / 1461 * 4) by lia.
      rewrite Z.div_add by lia. lia. }
    pose proof (Z.div_mod d1 1461 ltac:(lia)). pose proof (Z.div_mod h1 24 ltac:(lia)).
    pose proof (Z.div_mod m1 60 ltac:(lia)). pose proof (Z.div_mod epoch 60 ltac:(lia)). unfold d1, h1, m1 in *. lia.
Qed.
Lemma rtc_date_exact_witness :
  rtc_read 126230400 = mkTime 0 0 0 1 1 4 /\ valid_time (rtc_read 126230400) /\ seconds_of (rtc_read 126230400) = 126230400.
Proof. split; [reflexivity|]. apply (rtc_date_exact 126230400). lia. Defined.
End Custom.
