(* ===== verification/Bcache.v ===== *)
(** * Bcache: the buffer cache (include/bio.hh, kernel/fs/bio.cc)

    Block buffers are numbers into [bufs]; they are owned by the entries of
    [lru] and by the shared_ptr's that clients hold ([users], a list since a
    buffer can be held several times). [active] maps a key to its buffer and
    tells whether the stored list iterator points into the list ([true]) or is
    [lru.end()]. A buffer without owners is destroyed by [drop_ref], which runs
    the deleter and ~BlockBuf: it is written to the disk and its page is freed.
    A disk transfer is one step: the driver puts the calling task to sleep until
    the device has finished, other tasks that run meanwhile are not modelled. *)

From S2P Require Import Prelude Klib Bytes Buddy PageAlloc.
Local Open Scope Z_scope.

(** What the cache asks of the page allocator, one page at a time. [ps_ok n p H]:
    of [n] pages in all, [H] are handed out. *)
Class PageSource (P : Type) := {
  ps_alloc : P -> outcome (Z * P);
  ps_free : P -> Z -> outcome P
}.
Class PageLaws (P : Type) `{PageSource P} := {
  ps_ok : Z -> P -> gset Z -> Prop;
  ps_alloc_ok : forall n p H, ps_ok n p H -> Z.of_nat (size H) < n ->
    exists q p', ps_alloc p = Done (q, p') /\ q ∉ H /\ ps_ok n p' ({[q]} ∪ H);
  ps_free_ok : forall n p H q, ps_ok n p H -> q ∈ H ->
    exists p', ps_free p q = Done p' /\ ps_ok n p' (H ∖ {[q]})
}.

(** ** The buddy allocator as a source of pages *)
Module PagePool.
Import Buddy PageAlloc.

#[export] Instance pm_source : PageSource PageMgr :=
  {| ps_alloc s := alloc s 1; ps_free s q := free s q 0 |}.

Definition ones (Q : gset Z) : gmap Z nat := gset_to_gmap 0%nat Q.
Definition pool_ok (n : Z) (s : PageMgr) (Q : gset Z) : Prop :=
  end_ s - start s = n /\ exists k l r, Led s (ones Q) k l r.

Lemma held_ones Q p : held (ones Q) p -> p ∈ Q.
Proof.
  intros (q & m & [Hq <-]%lookup_gset_to_gmap_Some & Hp). cbn in Hp. by replace p with q by lia.
Qed.
(** Fewer pages are held than there are, so one is free. *)
Lemma pool_free_page n s Q k l r :
  end_ s - start s = n -> Led s (ones Q) k l r -> Z.of_nat (size Q) < n -> exists p, free_page s k l r p.
Proof.
  intros Hn L Hlt. set (R := list_to_set (seqZ (start s) n) : gset Z).
  assert (HR : size R = Z.to_nat n).
  { unfold R. rewrite size_list_to_set by apply NoDup_seqZ. by rewrite length_seqZ. }
  destruct (decide (R ⊆ Q)) as [Hs|Hs].
  { apply subseteq_size in Hs. lia. }
  destruct (set_choose_L (R ∖ Q)) as [p Hp].
  { intros E. apply Hs. intros x Hx. destruct (decide (x ∈ Q)) as [|Hq]; [done|].
    assert (Hd : x ∈ R ∖ Q) by by apply elem_of_difference. by rewrite E in Hd. }
  apply elem_of_difference in Hp as [Hp Hq].
  exists p. unfold R in Hp. rewrite elem_of_list_to_set, elem_of_seqZ in Hp.
  destruct (proj1 (ld_cover _ _ _ _ _ L p)) as [?|Hh]; [lia|done|]. by apply held_ones in Hh.
Qed.
Lemma pool_alloc n s Q :
  pool_ok n s Q -> Z.of_nat (size Q) < n ->
  exists q s', alloc s 1 = Done (q, s') /\ q ∉ Q /\ pool_ok n s' ({[q]} ∪ Q).
Proof.
  intros (Hn & k & l & r & L) Hlt. destruct (pool_free_page n s Q k l r Hn L Hlt) as [p Hp].
  pose proof (ld_inv _ _ _ _ _ L) as I.
  assert (Hv : Z.of_nat 0 + 1 <= Z.max (bval k l) (bval k r)).
  { apply (root_offers s k l r 0 (p - start s)); [apply I|lia|]. split; [apply Z.mod_1_r|].
    intros o Ho. cbn in Ho. unfold free_page in Hp. by replace o with (p - start s) by lia. }
  destruct (alloc_ok s k l r 1 0 I eq_refl Hv) as (o & l1 & r1 & s' & E & _ & _ & _ & AR).
  destruct (Led_alloc s (ones Q) s' 1 (start s + o) k l r L ltac:(lia) E) as (l' & r' & L' & Es & Ee).
  exists (start s + o), s'. split; [done|]. split; [|split].
  - intros Hq. assert (HL : ones Q !! (start s + o) = Some 0%nat) by by apply lookup_gset_to_gmap_Some.
    destruct (ld_used _ _ _ _ _ L _ _ HL) as [Hu _]. apply used_in in Hu as (_ & _ & Hu); [|apply I].
    apply (Hu (start s + o)); [cbn; lia|]. destruct AR as [_ _ _ _ F _ _]. unfold free_page.
    replace (start s + o - start s) with o by lia. apply F. right. cbn. lia.
  - by rewrite Es, Ee.
  - exists k, l', r'. unfold ones. by rewrite gset_to_gmap_union_singleton.
Qed.
Lemma pool_free n s Q q :
  pool_ok n s Q -> q ∈ Q -> exists s', free s q 0 = Done s' /\ pool_ok n s' (Q ∖ {[q]}).
Proof.
  intros (Hn & k & l & r & L) Hq. assert (HL : ones Q !! q = Some 0%nat) by by apply lookup_gset_to_gmap_Some.
  destruct (ld_used _ _ _ _ _ L _ _ HL) as [Hu He]. pose proof (ld_inv _ _ _ _ _ L) as I.
  destruct (free_ok s k l r q 0 (iv_base _ _ _ _ I) Hu He) as (l1 & r1 & s' & E & _).
  destruct (Led_free _ _ _ _ _ _ _ _ L HL E) as (l' & r' & L' & Es & Ee).
  exists s'. split; [done|]. split; [by rewrite Es, Ee|]. exists k, l', r'. unfold ones.
  by rewrite gset_to_gmap_difference_singleton.
Qed.
#[export] Instance pm_laws : PageLaws PageMgr.
Proof. exists pool_ok; [exact pool_alloc|exact pool_free]. Defined.

Lemma pool_new b s0 e0 k s : good_range s0 e0 k -> PageMgr_new b s0 e0 = Done s -> ps_ok (e0 - s0) s ∅.
Proof.
  intros Hg Hn. destruct (reach_Led b s0 e0 k s s ∅ Hg Hn) as (l & r & L & Es & Ee); [constructor|].
  split; [by rewrite Es, Ee|]. exists k, l, r. unfold ones. by rewrite gset_to_gmap_empty.
Qed.
End PagePool.

Module Bcache.

Section Cache.
Context {P : Type} `{PageSource P}.

Definition blockSize : Z := 512.
Definition defaultSize : nat := 128.
Notation BlockKey := (Z * Z)%type.
(** [dirty] is [None] while the constructor has left it uninitialised; no code
    reads it. *)
Record BlockBuf : Type := mkBuf { b_key : BlockKey; dirty : option bool; d : list Z; b_page : Z }.
Record Cache : Type := mkCache {
  bufs : gmap Z BlockBuf;
  nextb : Z;
  active : gmap BlockKey (Z * bool);
  lru : list (BlockKey * Z);
  users : list Z;
  disk : gmap Z (list Z);
  pages : P
}.
Implicit Types (c : Cache) (k : BlockKey).

Definition buf_get c (i : Z) : outcome BlockBuf := match bufs c !! i with Some b => Done b | None => Undef end.
Definition set_buf c (i : Z) (b : BlockBuf) : Cache :=
  mkCache (<[i := b]> (bufs c)) (nextb c) (active c) (lru c) (users c) (disk c) (pages c).
Definition set_refs c (l : list (BlockKey * Z)) (u : list Z) : Cache :=
  mkCache (bufs c) (nextb c) (active c) l u (disk c) (pages c).
Definition set_active c (m : gmap BlockKey (Z * bool)) : Cache :=
  mkCache (bufs c) (nextb c) m (lru c) (users c) (disk c) (pages c).

(** BlockBuf::flush. The driver is given the buffer and takes the sector of its
    key, never the device. *)
Definition flush c (i : Z) : outcome Cache :=
  let* b := buf_get c i in
  Done (mkCache (<[i := mkBuf (b_key b) (Some false) (d b) (b_page b)]> (bufs c)) (nextb c) (active c) (lru c)
          (users c) (<[(b_key b).2 := d b]> (disk c)) (pages c)).
(** The end of a shared_ptr: the deleter of getOrSet and ~BlockBuf when it was
    the last one. *)
Definition owned c (i : Z) : bool := bool_decide (i ∈ users c) || bool_decide (i ∈ (snd <$> lru c)).
Definition drop_ref c (i : Z) : outcome Cache :=
  if owned c i then Done c
  else
    let* b := buf_get c i in
    let c := set_active c (delete (b_key b) (active c)) in
    let* c := flush c i in
    let* a := ps_free (pages c) (b_page b) in
    Done (mkCache (delete i (bufs c)) (nextb c) (active c) (lru c) (users c) (disk c) a).

(** shared_lru::reserve: at most one entry is evicted. *)
Definition reserve c : outcome Cache :=
  if (defaultSize <? length (lru c))%nat then
    match last (lru c) with
    | None => Undef
    | Some (k, i) =>
        match active c !! k with
        | None => Undef
        | Some (j, _) =>
            let c := set_active c (<[k := (j, false)]> (active c)) in
            drop_ref (set_refs c (removelast (lru c)) (users c)) i
        end
    end
  else Done c.
(** BlockBuf::BlockBuf with reload: a page, filled from the disk. *)
Definition BlockBuf_new c k : outcome (BlockBuf * Cache) :=
  let* (pg, a) := ps_alloc (pages c) in
  match disk c !! k.2 with
  | None => Undef
  | Some bytes =>
      Done (mkBuf k None bytes pg, mkCache (bufs c) (nextb c) (active c) (lru c) (users c) (disk c) a)
  end.
Definition not_key k (e : BlockKey * Z) : bool := negb (bool_decide (fst e = k)).
(** shared_lru::getOrSet as BCacheMgr::operator[] calls it;
    [lru.erase(lru.end())] is undefined. *)
Definition getOrSet c k : outcome (Z * Cache) :=
  match active c !! k with
  | Some (i, it) =>
      let* _ := buf_get c i in
      if negb it then Undef
      else
        let c := set_active c (<[k := (i, true)]> (active c)) in
        Done (i, set_refs c ((k, i) :: List.filter (not_key k) (lru c)) (i :: users c))
  | None =>
      let* c := reserve c in
      let* (b, c) := BlockBuf_new c k in
      let i := nextb c in
      Done (i, mkCache (<[i := b]> (bufs c)) (i + 1) (<[k := (i, true)]> (active c)) ((k, i) :: lru c) (i :: users c)
                 (disk c) (pages c))
  end.

(** What a client does with a buffer it holds: [at] (a shared_ptr to a buffer
    that is not const selects the overload that marks it dirty, for reading
    too), [clear], and giving the reference back. *)
Definition at_read c (i off n : Z) : outcome (list Z * Cache) :=
  let* b := buf_get c i in
  if (0 <=? off) && (0 <=? n) && (off + n <=? zlen (d b))
  then Done (slice (d b) off n, set_buf c i (mkBuf (b_key b) (Some true) (d b) (b_page b))) else Undef.
Definition at_write c (i off : Z) (bytes : list Z) : outcome Cache :=
  let* b := buf_get c i in
  if (0 <=? off) && (off + zlen bytes <=? zlen (d b))
  then Done (set_buf c i (mkBuf (b_key b) (Some true) (splice (d b) off bytes) (b_page b))) else Undef.
Definition clear c (i : Z) : outcome Cache :=
  let* b := buf_get c i in
  Done (set_buf c i (mkBuf (b_key b) (Some true) (replicate (Z.to_nat blockSize) 0) (b_page b))).
Fixpoint remove_one (x : Z) (l : list Z) : list Z :=
  match l with [] => [] | y :: l' => if x =? y then l' else y :: remove_one x l' end.
Definition release c (i : Z) : outcome Cache :=
  if bool_decide (i ∈ users c) then drop_ref (set_refs c (lru c) (remove_one i (users c))) i else Undef.
(** BCacheMgr::BCacheMgr over a disk. *)
Definition BCacheMgr_new (dk : gmap Z (list Z)) (p : P) : Cache := mkCache ∅ 0 ∅ [] [] dk p.

(** ** Clients

    A client names the sectors of device 0 it works on; [hold] has the
    references it keeps. *)
Inductive bop : Type :=
| BGet (s : Z)
| BRead (s off n : Z)
| BWrite (s off : Z) (bytes : list Z)
| BClear (s : Z)
| BPut (s : Z).
Definition held_ref (h : gmap Z Z) (s : Z) : outcome Z := match h !! s with Some i => Done i | None => Undef end.
Definition exec (o : bop) (c : Cache) (h : gmap Z Z) : outcome (list Z * Cache * gmap Z Z) :=
  match o with
  | BGet s => let* (i, c) := getOrSet c (0, s) in Done ([], c, <[s := i]> h)
  | BRead s off n => let* i := held_ref h s in let* (r, c) := at_read c i off n in Done (r, c, h)
  | BWrite s off bs => let* i := held_ref h s in let* c := at_write c i off bs in Done ([], c, h)
  | BClear s => let* i := held_ref h s in let* c := clear c i in Done ([], c, h)
  | BPut s => let* i := held_ref h s in let* c := release c i in Done ([], c, delete s h)
  end.
Fixpoint exec_all (os : list bop) (c : Cache) (h : gmap Z Z) : outcome (list (list Z) * Cache * gmap Z Z) :=
  match os with
  | [] => Done ([], c, h)
  | o :: os =>
      let* (r, c, h) := exec o c h in
      let* (rs, c, h) := exec_all os c h in
      Done (r :: rs, c, h)
  end.
End Cache.
Arguments Cache P : clear implicits.

(** ** The abstract store

    A map from sectors to bytes and the set of sectors a client works on. [spec]
    is undefined where the client breaks the rules of the cache: it asks for a
    sector it has, for one that is not on the disk, for more than [lim] at a
    time, or it accesses bytes outside a sector it has. *)
Notation store := (gmap Z (list Z)).
Definition spec (lim : nat) (o : bop) (st : store) (hd : gset Z) : option (list Z * store * gset Z) :=
  match o with
  | BGet s =>
      if bool_decide (s ∉ hd) && bool_decide (is_Some (st !! s)) && (size hd <? lim)%nat
      then Some ([], st, {[s]} ∪ hd) else None
  | BRead s off n =>
      if bool_decide (s ∈ hd) && (0 <=? off) && (0 <=? n) && (off + n <=? blockSize)
      then l ← st !! s; Some (slice l off n, st, hd) else None
  | BWrite s off bs =>
      if bool_decide (s ∈ hd) && (0 <=? off) && (off + zlen bs <=? blockSize)
      then l ← st !! s; Some ([], <[s := splice l off bs]> st, hd) else None
  | BClear s =>
      if bool_decide (s ∈ hd) then Some ([], <[s := replicate (Z.to_nat blockSize) 0]> st, hd) else None
  | BPut s => if bool_decide (s ∈ hd) then Some ([], st, hd ∖ {[s]}) else None
  end.
Fixpoint spec_all (lim : nat) (os : list bop) (st : store) (hd : gset Z)
  : option (list (list Z) * store * gset Z) :=
  match os with
  | [] => Some ([], st, hd)
  | o :: os =>
      '(r, st, hd) ← spec lim o st hd;
      '(rs, st, hd) ← spec_all lim os st hd;
      Some (r :: rs, st, hd)
  end.

(** ** The invariant *)
Section Proofs.
Context {P : Type} `{PageLaws P}.
Implicit Types (c : Cache P) (k : Z * Z) (h : gmap Z Z).

(** What a client sees of sector [s]. *)
Definition view c (s : Z) : option (list Z) :=
  match active c !! (0, s) with Some (i, _) => d <$> bufs c !! i | None => disk c !! s end.
Definition owns c (i : Z) : Prop := i ∈ users c \/ exists k, (k, i) ∈ lru c.
(** The pages of the buffers are the ones taken from the allocator. *)
Definition paged (cap : Z) (m : gmap Z BlockBuf) (p : P) : Prop := exists Q,
  ps_ok cap p Q /\ size Q = size m /\
  (forall i b, m !! i = Some b -> b_page b ∈ Q) /\
  (forall i j b b', m !! i = Some b -> m !! j = Some b' -> b_page b = b_page b' -> i = j).
(** [x] is a buffer that may have lost its last owner. *)
Record Inv (cap : Z) (x : option Z) c : Prop := {
  v_active : forall k i it, active c !! k = Some (i, it) ->
    k.1 = 0 /\ (exists b, bufs c !! i = Some b /\ b_key b = k) /\
    (if it : bool then (k, i) ∈ lru c else forall k', (k', i) ∉ lru c);
  v_bufs : forall i b, bufs c !! i = Some b ->
    (exists it, active c !! b_key b = Some (i, it)) /\ (x = Some i \/ owns c i) /\ zlen (d b) = blockSize;
  v_lru : forall k i, (k, i) ∈ lru c -> active c !! k = Some (i, true);
  v_nodup : NoDup (fst <$> lru c);
  v_users : forall i, i ∈ users c -> is_Some (bufs c !! i);
  v_next : forall i b, bufs c !! i = Some b -> i < nextb c;
  v_disk : forall s l, disk c !! s = Some l -> zlen l = blockSize;
  v_paged : paged cap (bufs c) (pages c)
}.
(** What an operation of the cache leaves alone. *)
Record keeps c c' : Prop := {
  k_view : forall s, view c' s = view c s;
  k_users : users c' = users c;
  k_bufs : forall i, i ∈ users c -> bufs c' !! i = bufs c !! i;
  k_none : forall k, active c !! k = None -> active c' !! k = None
}.
Lemma keeps_refl c : keeps c c.
Proof. by split. Qed.

Lemma owned_iff c i : owned c i = true <-> owns c i.
Proof.
  unfold owned, owns. rewrite orb_true_iff, !bool_decide_eq_true, list_elem_of_fmap. split.
  - intros [?|([k j] & -> & ?)]; eauto.
  - intros [?|[k ?]]; [by left|right; by exists (k, i)].
Qed.

Lemma paged_same cap m p i b b' :
  paged cap m p -> m !! i = Some b -> b_page b' = b_page b -> paged cap (<[i := b']> m) p.
Proof.
  intros (Q & Hok & Hs & Hin & Hinj) Hi Hp. exists Q. split; [done|].
  split; [by rewrite map_size_insert_Some by eauto|]. split.
  - intros j bj [[<- <-]|[_ Hj]]%lookup_insert_Some; [rewrite Hp|]; eauto.
  - intros j j' bj bj' [[<- <-]|[Hn Hj]]%lookup_insert_Some [[<- <-]|[Hn' Hj']]%lookup_insert_Some; rewrite ?Hp; eauto.
Qed.
Lemma paged_free cap m p i b :
  paged cap m p -> m !! i = Some b -> exists p', ps_free p (b_page b) = Done p' /\ paged cap (delete i m) p'.
Proof.
  intros (Q & Hok & Hs & Hin & Hinj) Hi. destruct (ps_free_ok cap p Q (b_page b) Hok) as (p' & E & Hok'); [by eauto|].
  exists p'. split; [done|]. exists (Q ∖ {[b_page b]}). split; [done|]. split; [|split].
  - rewrite size_difference, size_singleton, map_size_delete_Some by (eauto; set_solver). lia.
  - intros j bj [Hn Hj]%lookup_delete_Some. apply elem_of_difference. split; [by eauto|].
    rewrite elem_of_singleton. intros E'. apply Hn. by eapply Hinj.
  - intros j j' bj bj' [_ Hj]%lookup_delete_Some [_ Hj']%lookup_delete_Some. eauto.
Qed.
Lemma paged_alloc cap m p i k dt bs :
  paged cap m p -> m !! i = None -> Z.of_nat (size m) < cap ->
  exists q p', ps_alloc p = Done (q, p') /\ paged cap (<[i := mkBuf k dt bs q]> m) p'.
Proof.
  intros (Q & Hok & Hs & Hin & Hinj) Hi Hc.
  destruct (ps_alloc_ok cap p Q Hok) as (q & p' & E & Hq & Hok'); [lia|].
  exists q, p'. split; [done|]. exists ({[q]} ∪ Q). split; [done|]. split; [|split].
  - rewrite size_union, size_singleton, map_size_insert_None by (done || set_solver). lia.
  - intros j bj [[<- <-]|[_ Hj]]%lookup_insert_Some; [set_solver|]. apply elem_of_union_r. eauto.
  - intros j j' bj bj' [[<- <-]|[Hn Hj]]%lookup_insert_Some [[<- <-]|[Hn' Hj']]%lookup_insert_Some E'; cbn in *; subst; eauto.
    + destruct Hq. eauto.
    + destruct Hq. eauto.
Qed.

(** Two buffers of one key are the same buffer. *)
Lemma key_inj cap x c i j b b' :
  Inv cap x c -> bufs c !! i = Some b -> bufs c !! j = Some b' -> b_key b = b_key b' -> i = j.
Proof.
  intros I Hi Hj E. destruct (v_bufs _ _ _ I _ _ Hi) as ([it Ha] & _). destruct (v_bufs _ _ _ I _ _ Hj) as ([it' Ha'] & _).
  congruence.
Qed.

(** Giving up a reference: the store is the same afterwards, also when the
    buffer was written back and destroyed. *)
Definition gone c (i : Z) (b : BlockBuf) (p : P) : Cache P :=
  mkCache (delete i (bufs c)) (nextb c) (delete (b_key b) (active c)) (lru c) (users c)
    (<[(b_key b).2 := d b]> (disk c)) p.
Lemma gone_Inv cap c i b p :
  Inv cap (Some i) c -> bufs c !! i = Some b -> ~ owns c i -> paged cap (delete i (bufs c)) p -> Inv cap None (gone c i b p).
Proof.
  intros I Hb Hno Hp. destruct (v_bufs _ _ _ I _ _ Hb) as ([it Ha] & _ & Hl).
  assert (Hne : forall k j, (k, j) ∈ lru c -> j <> i) by (intros k j Hj ->; apply Hno; right; eauto).
  split; cbn.
  - intros k j it' [Hn Hk]%lookup_delete_Some. destruct (v_active _ _ _ I _ _ _ Hk) as (H1 & (b' & H2 & H3) & H4).
    split; [done|]. split; [|done]. exists b'. split; [|done]. apply lookup_delete_Some. split; [|done]. intros ->. congruence.
  - intros j b' [Hn Hj]%lookup_delete_Some. destruct (v_bufs _ _ _ I _ _ Hj) as ([it' Ha'] & Ho & Hl').
    split; [|split; [|done]].
    + exists it'. apply lookup_delete_Some. split; [|done]. intros E. apply Hn. by eapply key_inj.
    + right. destruct Ho as [[= ->]|Ho]; done.
  - intros k j Hj. apply lookup_delete_Some. pose proof (v_lru _ _ _ I _ _ Hj) as Hk. split; [|done].
    intros <-. rewrite Ha in Hk. injection Hk as -> _. by apply (Hne _ _ Hj).
  - apply I.
  - intros j Hj. rewrite lookup_delete_ne; [by apply I|]. intros ->. apply Hno. by left.
  - intros j b' [_ Hj]%lookup_delete_Some. by eapply v_next.
  - intros s l [[_ <-]|[_ Hs]]%lookup_insert_Some; [done|]. by eapply v_disk.
  - done.
Qed.
Lemma gone_keeps cap c i b p : Inv cap (Some i) c -> bufs c !! i = Some b -> ~ owns c i -> keeps c (gone c i b p).
Proof.
  intros I Hb Hno. destruct (v_bufs _ _ _ I _ _ Hb) as ([it Ha] & _ & _).
  destruct (v_active _ _ _ I _ _ _ Ha) as (Hd & _ & _). split; cbn; try done.
  - intros s. unfold view; cbn. destruct (decide (b_key b = (0, s))) as [E|E].
    + rewrite E, lookup_delete_eq, lookup_insert_eq, <- E, Ha, Hb. done.
    + rewrite lookup_delete_ne by done. destruct (active c !! (0, s)) as [[j it']|] eqn:Hj.
      * destruct (v_active _ _ _ I _ _ _ Hj) as (_ & (b' & H2 & H3) & _). rewrite lookup_delete_ne; [done|].
        intros ->. congruence.
      * rewrite lookup_insert_ne; [done|]. intros E'. apply E. destruct (b_key b) as [dv s']; cbn in *. by subst.
  - intros j Hj. rewrite lookup_delete_ne; [done|]. intros ->. apply Hno. by left.
  - intros k Hk. by apply lookup_delete_None; right.
Qed.
Lemma drop_ref_ok cap c i b :
  Inv cap (Some i) c -> bufs c !! i = Some b ->
  exists c', drop_ref c i = Done c' /\ Inv cap None c' /\ keeps c c' /\ lru c' = lru c.
Proof.
  intros I Hb. unfold drop_ref. destruct (owned c i) eqn:Ho.
  - exists c. split; [done|]. split; [|by split; [apply keeps_refl|]]. apply owned_iff in Ho.
    destruct I. split; try done. intros j b' Hj. destruct (v_bufs0 _ _ Hj) as (H1 & [[= ->]|H2] & H3); auto.
  - unfold flush, buf_get. cbn. rewrite Hb. cbn.
    assert (Hno : ~ owns c i) by (rewrite <- owned_iff; congruence).
    destruct (paged_free cap (bufs c) (pages c) i b) as (p & E & Hp); [apply I|done|]. rewrite E. cbn.
    rewrite delete_insert_eq. exists (gone c i b p). split; [done|].
    split; [by apply gone_Inv|]. split; [by eapply gone_keeps|done].
Qed.

(** Eviction. *)
(** The state in which [reserve] drops the evicted entry. *)
Definition cut c k (i : Z) (l : list ((Z * Z) * Z)) : Cache P :=
  set_refs (set_active c (<[k := (i, false)]> (active c))) l (users c).
Lemma cut_Inv cap c k i l : Inv cap None c -> lru c = l ++ [(k, i)] -> Inv cap (Some i) (cut c k i l).
Proof.
  intros I El. assert (Hin : forall e, e ∈ lru c <-> e ∈ l \/ e = (k, i)) by (intros e; rewrite El; set_solver).
  pose proof (v_nodup _ _ _ I) as Hnd. rewrite El, fmap_app in Hnd. apply NoDup_app in Hnd as (Hnd & Hdis & _). cbn in Hdis.
  assert (Hno : forall j, (k, j) ∉ l).
  { intros j Hj. apply (Hdis k); [|set_solver]. apply list_elem_of_fmap. by exists (k, j). }
  assert (Ha : active c !! k = Some (i, true)) by (apply I, Hin; auto).
  destruct (v_active _ _ _ I _ _ _ Ha) as (Hd & (b & Hb & Hk) & _). split; cbn; try apply I; try done.
  - intros k' j it [[<- [= <- <-]]|[Hn Hk']]%lookup_insert_Some.
    + split; [done|]. split; [by eauto|]. intros k' Hk'.
      destruct (v_active _ _ _ I k' i true) as (_ & (b' & Hb' & Hkb) & _); [apply I, Hin; auto|].
      apply (Hno i). congruence.
    + destruct (v_active _ _ _ I _ _ _ Hk') as (H1 & H2 & H3). split; [done|]. split; [done|].
      destruct it; [|intros k2 Hk2; apply (H3 k2), Hin; auto]. apply Hin in H3 as [?|[= -> _]]; done.
  - intros j b' Hj. destruct (v_bufs _ _ _ I _ _ Hj) as ([it Ha'] & Ho & Hz). split; [|split; [|done]].
    + destruct (decide (b_key b' = k)) as [E|E]; [|exists it; by rewrite lookup_insert_ne].
      exists false. rewrite E, lookup_insert_eq. f_equal. f_equal. congruence.
    + destruct (decide (j = i)) as [->|Hn]; [by left|right].
      destruct Ho as [?|[?|[k' [?|[= _ ->]]%Hin]]]; [done|by left|right; by exists k'|done].
  - intros k' j Hj. rewrite lookup_insert_ne; [apply I, Hin; auto|]. intros <-. by apply (Hno j).
Qed.
Lemma reserve_ok cap c :
  Inv cap None c -> (length (lru c) <= S defaultSize)%nat ->
  exists c', reserve c = Done c' /\ Inv cap None c' /\ keeps c c' /\ (length (lru c') <= defaultSize)%nat.
Proof.
  intros I Hlen. unfold reserve. destruct (Nat.ltb_spec defaultSize (length (lru c))) as [Hl|Hl].
  2: { exists c. by split; [|split; [|split; [apply keeps_refl|]]]. }
  destruct (last (lru c)) as [[k i]|] eqn:El.
  2: { apply last_None in El. rewrite El in Hl. cbn in Hl. lia. }
  apply last_removelast in El. set (l := removelast (lru c)) in *.
  assert (Ha : active c !! k = Some (i, true)) by (apply I; rewrite El; set_solver). rewrite Ha.
  destruct (v_active _ _ _ I _ _ _ Ha) as (_ & (b & Hb & _) & _).
  destruct (drop_ref_ok cap (cut c k i l) i b (cut_Inv _ _ _ _ _ I El) Hb) as (c' & E & I' & [K1 K2 K3 K4] & L).
  exists c'. split; [exact E|]. split; [done|]. split.
  - split; try done.
    + intros s. rewrite K1. unfold view. cbn. destruct (decide (k = (0, s))) as [->|Hn].
      * by rewrite lookup_insert_eq, Ha.
      * by rewrite lookup_insert_ne.
    + intros k' Hk'. apply K4. cbn. rewrite lookup_insert_ne; [done|]. intros <-. congruence.
  - rewrite L. cbn. rewrite El, length_app in Hlen. cbn in Hlen. lia.
Qed.

(** A buffer is handed out: what the holder may rely on. *)
Record got (cap s i : Z) c c' : Prop := {
  g_inv : Inv cap None c';
  g_len : (length (lru c') <= S defaultSize)%nat;
  g_view : forall s, view c' s = view c s;
  g_users : users c' = i :: users c;
  g_new : i ∉ users c;
  g_buf : exists b, bufs c' !! i = Some b /\ b_key b = (0, s);
  g_old : forall j, j ∈ users c -> bufs c' !! j = bufs c !! j
}.
Lemma filter_key k e (l : list ((Z * Z) * Z)) : e ∈ List.filter (not_key k) l <-> e ∈ l /\ e.1 <> k.
Proof.
  rewrite !list_elem_of_In, filter_In. unfold not_key.
  by rewrite negb_true_iff, bool_decide_eq_false.
Qed.
Lemma filter_fst k (l : list ((Z * Z) * Z)) : NoDup l.*1 -> NoDup (k :: (List.filter (not_key k) l).*1).
Proof.
  intros Hl. apply NoDup_cons. split.
  - rewrite list_elem_of_fmap. intros (e & -> & He). by apply filter_key in He as [_ ?].
  - induction l as [|e l IH]; cbn; [constructor|]. apply NoDup_cons in Hl as [Hn Hl].
    destruct (not_key k e); [|by apply IH]. cbn. apply NoDup_cons. split; [|by apply IH].
    rewrite list_elem_of_fmap. intros (x & E & Hx). apply Hn, list_elem_of_fmap. exists x. split; [done|].
    by apply filter_key in Hx as [? _].
Qed.
Lemma filter_shorter k i (l : list ((Z * Z) * Z)) :
  (k, i) ∈ l -> (length (List.filter (not_key k) l) < length l)%nat.
Proof.
  intros Hin. induction l as [|e l IH]; [set_solver|]. cbn. pose proof (filter_length_le (not_key k) l).
  destruct (not_key k e) eqn:Ee; cbn; [|lia]. apply elem_of_cons in Hin as [<-|Hin].
  - unfold not_key in Ee. cbn in Ee. by rewrite bool_decide_true in Ee.
  - specialize (IH Hin). lia.
Qed.
Lemma get_hit cap c s i :
  Inv cap None c -> (length (lru c) <= S defaultSize)%nat -> active c !! (0, s) = Some (i, true) -> i ∉ users c ->
  exists c', getOrSet c (0, s) = Done (i, c') /\ got cap s i c c'.
Proof.
  intros I Hlen Ha Hu. unfold getOrSet, buf_get. rewrite Ha.
  destruct (v_active _ _ _ I _ _ _ Ha) as (_ & (b & Hb & Hk) & Hin). rewrite Hb. cbn -[defaultSize].
  eexists. split; [done|]. rewrite insert_id by done. split; cbn -[defaultSize]; eauto.
  - assert (Hl : forall e, e ∈ ((0, s), i) :: List.filter (not_key (0, s)) (lru c) <-> e ∈ lru c).
    { intros [k j]. rewrite elem_of_cons, filter_key. cbn. split; [by intros [[= -> ->]|[? _]]|]. intros He.
      destruct (decide (k = (0, s))) as [->|]; [left|by right]. pose proof (v_lru _ _ _ I _ _ He). congruence. }
    split; cbn; try apply I.
    + intros k j it Hk'. destruct (v_active _ _ _ I _ _ _ Hk') as (H1 & H2 & H3). split; [done|]. split; [done|].
      destruct it; [by apply Hl|]. intros k2. rewrite Hl. apply H3.
    + intros j b' Hj. destruct (v_bufs _ _ _ I _ _ Hj) as (H1 & [?|[Ho|[k Ho]]] & H3); [done| |];
        (split; [done|split; [right|done]]); [left; cbn; set_solver|right; exists k; by apply Hl].
    + intros k j Hj. apply I, Hl, Hj.
    + apply filter_fst, I.
    + intros j [->|Hj]%elem_of_cons; [by eauto|by apply I].
  - pose proof (filter_shorter _ _ _ Hin). lia.
Qed.
Lemma size_lts (l : list Z) : (size (list_to_set l : gset Z) <= length l)%nat.
Proof.
  induction l as [|x l IH]; [done|]. cbn [list_to_set length]. rewrite size_union_alt, size_singleton.
  pose proof (subseteq_size (list_to_set l ∖ {[x]} : gset Z) (list_to_set l)). set_solver by lia.
Qed.
Lemma bufs_few cap c : Inv cap None c -> (size (bufs c) <= length (users c) + length (lru c))%nat.
Proof.
  intros I. rewrite <- (size_dom (bufs c)).
  trans (size (list_to_set (users c ++ (lru c).*2) : gset Z)).
  - apply subseteq_size. intros i [b Hi]%elem_of_dom. rewrite elem_of_list_to_set, elem_of_app.
    destruct (v_bufs _ _ _ I _ _ Hi) as (_ & [?|[?|[k Ho]]] & _); [done|by left|right].
    apply list_elem_of_fmap. by exists (k, i).
  - rewrite size_lts. by rewrite length_app, length_fmap.
Qed.

(** The state after a miss. *)
Definition filled c (s : Z) (bs : list Z) (q : Z) (p : P) : Cache P :=
  mkCache (<[nextb c := mkBuf (0, s) None bs q]> (bufs c)) (nextb c + 1) (<[(0, s) := (nextb c, true)]> (active c))
    (((0, s), nextb c) :: lru c) (nextb c :: users c) (disk c) p.
Lemma next_fresh cap x c i b : Inv cap x c -> bufs c !! i = Some b -> nextb c <> i.
Proof. intros I Hi. apply (v_next _ _ _ I) in Hi. lia. Qed.
Lemma filled_Inv cap c s bs q p :
  Inv cap None c -> active c !! (0, s) = None -> disk c !! s = Some bs ->
  paged cap (<[nextb c := mkBuf (0, s) None bs q]> (bufs c)) p -> Inv cap None (filled c s bs q p).
Proof.
  intros I Ha Hbs Hp. assert (Hna : forall i b, bufs c !! i = Some b -> (0, s) <> b_key b).
  { intros i b Hib Eb. destruct (v_bufs _ _ _ I _ _ Hib) as ([it Hit] & _). congruence. }
  split; cbn.
  - intros k i it [[<- [= <- <-]]|[Hn Hk]]%lookup_insert_Some.
    { split; [done|]. split; [eexists; by rewrite lookup_insert_eq|set_solver]. }
    destruct (v_active _ _ _ I _ _ _ Hk) as (H1 & (b & Hb & Hkb) & H3). split; [done|]. split.
    + exists b. by rewrite lookup_insert_ne by (by eapply next_fresh).
    + destruct it; [set_solver|]. intros k' [[= -> ->]|Hk']%elem_of_cons; [by eapply next_fresh in Hb|by apply (H3 k')].
  - intros i b [[<- <-]|[Hn Hib]]%lookup_insert_Some; cbn.
    { split; [exists true; by rewrite lookup_insert_eq|]. split; [right; left; cbn; set_solver|]. by eapply v_disk. }
    destruct (v_bufs _ _ _ I _ _ Hib) as ([it H1] & [?|H2] & H3); [done|]. split.
    + exists it. rewrite lookup_insert_ne; [done|by eapply Hna].
    + split; [|done]. right. destruct H2 as [?|[k ?]]; [left|right; exists k]; cbn; set_solver.
  - intros k i [[= -> ->]|Hk]%elem_of_cons; [by rewrite lookup_insert_eq|].
    pose proof (v_lru _ _ _ I _ _ Hk). rewrite lookup_insert_ne; [done|]. intros <-. congruence.
  - apply NoDup_cons. split; [|apply I]. intros ([k i] & Ek & Hk)%list_elem_of_fmap. cbn in Ek. subst.
    pose proof (v_lru _ _ _ I _ _ Hk). congruence.
  - intros i [->|Hi']%elem_of_cons; [by rewrite lookup_insert_eq|].
    destruct (v_users _ _ _ I _ Hi') as [b Hb]. rewrite lookup_insert_ne; [by exists b|by eapply next_fresh].
  - intros i b [[<- _]|[_ Hib]]%lookup_insert_Some; [lia|]. apply (v_next _ _ _ I) in Hib. lia.
  - apply I.
  - done.
Qed.
Lemma filled_view cap c s bs q p s' :
  Inv cap None c -> active c !! (0, s) = None -> disk c !! s = Some bs -> view (filled c s bs q p) s' = view c s'.
Proof.
  intros I Ha Hbs. unfold view. cbn. destruct (decide (s = s')) as [<-|Hn].
  - by rewrite Ha, !lookup_insert_eq, Hbs.
  - rewrite lookup_insert_ne by congruence. destruct (active c !! (0, s')) as [[j it]|] eqn:Ej; [|done].
    destruct (v_active _ _ _ I _ _ _ Ej) as (_ & (b & Hb & _) & _).
    by rewrite lookup_insert_ne by (by eapply next_fresh).
Qed.
Lemma get_miss cap c s :
  Inv cap None c -> (length (lru c) <= S defaultSize)%nat -> active c !! (0, s) = None -> is_Some (view c s) ->
  Z.of_nat (defaultSize + length (users c)) < cap ->
  exists i c', getOrSet c (0, s) = Done (i, c') /\ got cap s i c c'.
Proof.
  intros I0 Hlen Ha0 Hv0 Hcap. unfold getOrSet. rewrite Ha0.
  destruct (reserve_ok cap c I0 Hlen) as (c1 & -> & I & [K1 K2 K3 K4] & L). cbn [obind].
  pose proof (K4 _ Ha0) as Ha. rewrite <- K1 in Hv0. unfold view in Hv0. rewrite Ha in Hv0. destruct Hv0 as [bs Hbs].
  destruct (paged_alloc cap (bufs c1) (pages c1) (nextb c1) (0, s) None bs) as (q & p & E & Hp); [apply I| | |].
  { destruct (bufs c1 !! nextb c1) eqn:E; [|done]. by eapply next_fresh in E. }
  { pose proof (bufs_few _ _ I) as Hf. rewrite K2 in Hf. lia. }
  unfold BlockBuf_new. rewrite E. cbn [obind snd]. rewrite Hbs. exists (nextb c1), (filled c1 s bs q p). split; [done|].
  split; cbn -[defaultSize].
  - by apply filled_Inv.
  - lia.
  - intros s'. rewrite (filled_view cap) by done. apply K1.
  - by rewrite K2.
  - rewrite <- K2. intros [b Hb]%(v_users _ _ _ I). by eapply next_fresh in Hb.
  - eexists. by rewrite lookup_insert_eq.
  - intros j Hj. destruct (v_users _ _ _ I j) as [b Hb]; [by rewrite K2|].
    rewrite lookup_insert_ne by (by eapply next_fresh). by apply K3.
Qed.

(** ** The simulation *)
Record Rel (cap : Z) c h (st : store) (hd : gset Z) : Prop := {
  r_inv : Inv cap None c;
  r_len : (length (lru c) <= S defaultSize)%nat;
  r_view : forall s, view c s = st !! s;
  r_dom : dom h = hd;
  r_nodup : NoDup (users c);
  r_hold : forall s i, h !! s = Some i -> i ∈ users c /\ exists b, bufs c !! i = Some b /\ b_key b = (0, s);
  r_held : forall i, i ∈ users c -> exists s, h !! s = Some i;
  r_size : length (users c) = size h
}.
(** Changing the bytes of a held buffer. *)
Definition set_bytes c (i : Z) (b : BlockBuf) (l : list Z) : Cache P :=
  set_buf c i (mkBuf (b_key b) (Some true) l (b_page b)).
Lemma set_bytes_Inv cap c i b l :
  Inv cap None c -> bufs c !! i = Some b -> zlen l = blockSize -> Inv cap None (set_bytes c i b l).
Proof.
  intros I Hb Hl. split; cbn; try apply I.
  - intros k j it Hk. destruct (v_active _ _ _ I _ _ _ Hk) as (H1 & (b' & Hb' & H2) & H3). split; [done|]. split; [|done].
    destruct (decide (i = j)) as [->|Hn]; [|exists b'; by rewrite lookup_insert_ne].
    eexists. split; [by rewrite lookup_insert_eq|]. cbn. congruence.
  - intros j b' [[<- <-]|[Hn Hj]]%lookup_insert_Some; [|by apply (v_bufs _ _ _ I)].
    cbn. destruct (v_bufs _ _ _ I _ _ Hb) as (H1 & H2 & H3). auto.
  - intros j Hj. apply (v_users _ _ _ I) in Hj. apply lookup_insert_is_Some'. auto.
  - intros j b' [[<- _]|[_ Hj]]%lookup_insert_Some; by eapply v_next.
  - by eapply paged_same; [apply I| |].
Qed.
Lemma set_bytes_view cap c i b s l s' :
  Inv cap None c -> bufs c !! i = Some b -> b_key b = (0, s) ->
  view (set_bytes c i b l) s' = if decide (s = s') then Some l else view c s'.
Proof.
  intros I Hb Hk. destruct (v_bufs _ _ _ I _ _ Hb) as ([it Ha] & _). rewrite Hk in Ha. unfold view. cbn.
  destruct (decide (s = s')) as [<-|Hn]; [by rewrite Ha, lookup_insert_eq|].
  destruct (active c !! (0, s')) as [[j it']|] eqn:Ej; [|done]. rewrite lookup_insert_ne; [done|]. intros ->.
  destruct (v_active _ _ _ I _ _ _ Ej) as (_ & (b' & Hb' & Hk') & _). congruence.
Qed.
Lemma set_bytes_Rel cap c h st hd s i b l :
  Rel cap c h st hd -> bufs c !! i = Some b -> b_key b = (0, s) -> zlen l = blockSize ->
  Rel cap (set_bytes c i b l) h (<[s := l]> st) hd.
Proof.
  intros R Hb Hk Hl. pose proof (r_inv _ _ _ _ _ R) as I. split; try apply R.
  - by apply set_bytes_Inv.
  - intros s'. rewrite (set_bytes_view cap c i b s) by done. rewrite lookup_insert. destruct (decide (s = s')); [done|apply R].
  - intros s' j Hj. destruct (r_hold _ _ _ _ _ R _ _ Hj) as (H1 & b' & Hb' & H2). split; [done|]. cbn.
    destruct (decide (i = j)) as [->|Hn]; [|exists b'; by rewrite lookup_insert_ne].
    eexists. split; [by rewrite lookup_insert_eq|]. cbn. congruence.
Qed.
(** A held sector, its reference, its buffer and its contents. *)
Lemma Rel_held cap c h st hd s :
  Rel cap c h st hd -> s ∈ hd ->
  exists i b, h !! s = Some i /\ i ∈ users c /\ bufs c !! i = Some b /\ b_key b = (0, s) /\
    st !! s = Some (d b) /\ zlen (d b) = blockSize.
Proof.
  intros R Hs. rewrite <- (r_dom _ _ _ _ _ R), elem_of_dom in Hs. destruct Hs as [i Hi].
  destruct (r_hold _ _ _ _ _ R _ _ Hi) as (Hu & b & Hb & Hk). exists i, b. repeat (split; [done|]).
  destruct (v_bufs _ _ _ (r_inv _ _ _ _ _ R) _ _ Hb) as ([it Ha] & _ & Hl). split; [|done].
  rewrite <- (r_view _ _ _ _ _ R). unfold view. by rewrite <- Hk, Ha, Hb.
Qed.

Lemma remove_one_other x y l : x <> y -> y ∈ remove_one x l <-> y ∈ l.
Proof.
  intros Hn. induction l as [|z l IH]; cbn; [done|]. destruct (Z.eqb_spec x z) as [<-|Hz]; [set_solver|].
  rewrite !elem_of_cons, IH. done.
Qed.
Lemma remove_one_nodup x l : NoDup l -> NoDup (remove_one x l) /\ x ∉ remove_one x l.
Proof.
  induction 1 as [|y l Hy Hl [IH1 IH2]]; cbn; [split; [constructor|set_solver]|].
  destruct (Z.eqb_spec x y) as [<-|Hn]; [done|]. split; [|set_solver]. constructor; [|done].
  by rewrite remove_one_other.
Qed.
Lemma remove_one_length x l : x ∈ l -> length l = S (length (remove_one x l)).
Proof.
  induction l as [|y l IH]; [set_solver|]. cbn. destruct (Z.eqb_spec x y) as [<-|Hn]; [done|].
  intros [?|Hx]%elem_of_cons; [done|]. cbn. by rewrite <- IH.
Qed.
Lemma get_Rel cap c h st hd s :
  Rel cap c h st hd -> s ∉ hd -> is_Some (st !! s) -> Z.of_nat (defaultSize + size hd) < cap ->
  exists i c', getOrSet c (0, s) = Done (i, c') /\ Rel cap c' (<[s := i]> h) st ({[s]} ∪ hd).
Proof.
  intros R Hs Hst Hc. pose proof (r_inv _ _ _ _ _ R) as I.
  assert (Hh : h !! s = None) by (apply not_elem_of_dom; by rewrite (r_dom _ _ _ _ _ R)).
  assert (G : exists i c', getOrSet c (0, s) = Done (i, c') /\ got cap s i c c').
  { destruct (active c !! (0, s)) as [[i it]|] eqn:Ha.
    - assert (Hi : i ∉ users c).
      { intros Hi. destruct (r_held _ _ _ _ _ R _ Hi) as [s' Hs']. destruct (r_hold _ _ _ _ _ R _ _ Hs') as (_ & b & Hb & Hk).
        destruct (v_active _ _ _ I _ _ _ Ha) as (_ & (b' & Hb' & Hk') & _). congruence. }
      destruct (v_active _ _ _ I _ _ _ Ha) as (_ & (b & Hb & _) & Hit). destruct it.
      + exists i. apply get_hit; auto. apply R.
      + destruct (v_bufs _ _ _ I _ _ Hb) as (_ & [?|[?|[k ?]]] & _); [done..|]. by destruct (Hit k).
    - apply get_miss; auto; [apply R|by rewrite (r_view _ _ _ _ _ R)|].
      by rewrite (r_size _ _ _ _ _ R), <- size_dom, (r_dom _ _ _ _ _ R). }
  destruct G as (i & c' & E & [G1 G2 G3 G4 G5 G6 G7]). exists i, c'. split; [done|]. split; auto.
  - intros s'. rewrite G3. apply R.
  - by rewrite dom_insert_L, (r_dom _ _ _ _ _ R).
  - rewrite G4. constructor; [done|apply R].
  - rewrite G4. intros s' j [[<- <-]|[_ Hj]]%lookup_insert_Some; [split; [set_solver|done]|].
    destruct (r_hold _ _ _ _ _ R _ _ Hj) as (H1 & H2). split; [set_solver|]. by rewrite G7.
  - rewrite G4. intros j [->|Hj]%elem_of_cons; [exists s; by rewrite lookup_insert_eq|].
    destruct (r_held _ _ _ _ _ R _ Hj) as [s' Hs']. exists s'. rewrite lookup_insert_ne; [done|congruence].
  - rewrite G4, map_size_insert_None by done. cbn. by rewrite (r_size _ _ _ _ _ R).
Qed.
Lemma put_Rel cap c h st hd s i :
  Rel cap c h st hd -> h !! s = Some i ->
  exists c', release c i = Done c' /\ Rel cap c' (delete s h) st (hd ∖ {[s]}).
Proof.
  intros R Hi. pose proof (r_inv _ _ _ _ _ R) as I. destruct (r_hold _ _ _ _ _ R _ _ Hi) as (Hu & b & Hb & Hk).
  destruct (remove_one_nodup i (users c)) as [Hnd Hni]; [apply R|].
  assert (I1 : Inv cap (Some i) (set_refs c (lru c) (remove_one i (users c)))).
  { split; cbn; try apply I.
    - intros j b' Hj. destruct (v_bufs _ _ _ I _ _ Hj) as (H1 & [?|H2] & H3); [done|]. split; [done|]. split; [|done].
      destruct (decide (i = j)) as [->|Hn]; [by left|right].
      destruct H2 as [?|H2]; [left; cbn; by apply remove_one_other|by right].
    - intros j Hj. apply I. destruct (decide (i = j)) as [->|Hn]; [done|by apply remove_one_other in Hj]. }
  destruct (drop_ref_ok cap _ i b I1 Hb) as (c' & E & I' & [K1 K2 K3 K4] & L). cbn in *.
  exists c'. unfold release. rewrite bool_decide_true by done. split; [done|].
  assert (Ho : forall s' j, s <> s' -> h !! s' = Some j -> i <> j).
  { intros s' j Hn Hj ->. destruct (r_hold _ _ _ _ _ R _ _ Hj) as (_ & b' & Hb' & Hk'). congruence. }
  split; rewrite ?K2; auto.
  - rewrite L. apply R.
  - intros s'. rewrite K1. apply R.
  - by rewrite dom_delete_L, (r_dom _ _ _ _ _ R).
  - intros s' j [Hn Hj]%lookup_delete_Some. pose proof (Ho _ _ Hn Hj).
    destruct (r_hold _ _ _ _ _ R _ _ Hj) as (Hju & Hjb). assert (j ∈ remove_one i (users c)) by by apply remove_one_other.
    split; [done|]. by rewrite K3.
  - intros j Hj. assert (i <> j) by by intros ->. apply remove_one_other in Hj; [|done].
    destruct (r_held _ _ _ _ _ R _ Hj) as [s' Hs']. exists s'. apply lookup_delete_Some. split; [congruence|done].
  - rewrite map_size_delete_Some by eauto. pose proof (remove_one_length _ _ Hu).
    rewrite (r_size _ _ _ _ _ R) in *. lia.
Qed.
Lemma exec_sim cap lim o c h st hd r st' hd' :
  Rel cap c h st hd -> Z.of_nat (defaultSize + lim) <= cap -> spec lim o st hd = Some (r, st', hd') ->
  exists c' h', exec o c h = Done (r, c', h') /\ Rel cap c' h' st' hd'.
Proof.
  intros R Hcap Hsp. destruct o as [s|s off n|s off bs|s|s]; cbn [exec spec] in *; case_match eqn:E0; try done.
  all: rewrite ?andb_true_iff, ?bool_decide_eq_true in E0.
  1: { destruct E0 as [[Hn Hs] Hlt%Nat.ltb_lt]. simplify_eq. destruct (get_Rel cap c h st' hd s) as (i & c' & -> & R'); auto; [lia|].
       by exists c', (<[s := i]> h). }
  all: destruct (Rel_held cap c h st hd s R) as (i & b & Hi & Hu & Hb & Hk & Hst & Hl); [tauto|].
  all: unfold held_ref; rewrite Hi; cbn [obind]; rewrite ?Hst in Hsp; cbn in Hsp; simplify_eq.
  - unfold at_read, buf_get. rewrite Hb. cbn [obind]. rewrite Hl. destruct E0 as [[[_ ->] ->] ->]. cbn.
    exists (set_bytes c i b (d b)), h. split; [done|]. pose proof (set_bytes_Rel _ _ _ _ _ _ _ _ (d b) R Hb Hk Hl) as R'.
    by rewrite insert_id in R'.
  - unfold at_write, buf_get. rewrite Hb. cbn [obind]. rewrite Hl. destruct E0 as [[_ Ho] Hz]. rewrite Ho, Hz. cbn.
    eexists _, _. split; [done|]. apply set_bytes_Rel; auto. rewrite splice_length; lia.
  - unfold clear, buf_get. rewrite Hb. cbn [obind]. eexists _, _. split; [done|]. by apply set_bytes_Rel.
  - destruct (put_Rel cap c h st' hd s i R Hi) as (c' & -> & R'). cbn. by eexists _, _.
Qed.
Lemma exec_all_sim cap lim os : forall c h st hd rs st' hd',
  Rel cap c h st hd -> Z.of_nat (defaultSize + lim) <= cap -> spec_all lim os st hd = Some (rs, st', hd') ->
  exists c' h', exec_all os c h = Done (rs, c', h') /\ Rel cap c' h' st' hd'.
Proof.
  induction os as [|o os IH]; intros c h st hd rs st' hd' R Hcap Hsp; cbn in *.
  { simplify_eq. by exists c, h. }
  destruct (spec lim o st hd) as [[[r st1] hd1]|] eqn:E1; [|done]. cbn in Hsp.
  destruct (spec_all lim os st1 hd1) as [[[rs2 st2] hd2]|] eqn:E2; [|done]. cbn in Hsp. simplify_eq.
  destruct (exec_sim _ _ _ _ _ _ _ _ _ _ R Hcap E1) as (c1 & h1 & -> & R1). cbn.
  destruct (IH _ _ _ _ _ _ _ R1 Hcap E2) as (c2 & h2 & -> & R2). cbn. by exists c2, h2.
Qed.
Lemma Rel_new cap dk p :
  ps_ok cap p ∅ -> (forall s l, dk !! s = Some l -> zlen l = blockSize) -> Rel cap (BCacheMgr_new dk p) ∅ dk ∅.
Proof.
  intros Hp Hd. split; cbn; try (done || by constructor || set_solver).
  - split; cbn; try (done || by constructor || set_solver). exists ∅. repeat split; try done; set_solver.
  - lia.
Qed.

End Proofs.

(** ** Claims *)
Section Claims.
Import Buddy PageAlloc PagePool.

(** C9. The cache is transparent: over a buddy allocator with 128 pages more than
    the client holds at a time, every sequence of requests that never asks for a
    sector already held runs to its end without panic or undefined access, the
    bytes read are those of a plain map from sectors to bytes under the same
    sequence, whatever was evicted and read again meanwhile, and the contents
    seen afterwards are that map. *)
Theorem bcache_transparent b s0 e0 k pm dk lim ops rs st hd :
  good_range s0 e0 k -> PageMgr_new b s0 e0 = Done pm ->
  (forall s l, dk !! s = Some l -> zlen l = blockSize) -> Z.of_nat (defaultSize + lim) <= e0 - s0 ->
  spec_all lim ops dk ∅ = Some (rs, st, hd) ->
  exists c h, exec_all ops (BCacheMgr_new dk pm) ∅ = Done (rs, c, h) /\ dom h = hd /\ forall s, view c s = st !! s.
Proof.
  intros Hg Hn Hd Hl Hs.
  destruct (exec_all_sim (e0 - s0) lim ops (BCacheMgr_new dk pm) ∅ dk ∅ rs st hd) as (c & h & E & R); auto.
  { apply Rel_new; [by eapply pool_new|done]. }
  exists c, h. split; [done|]. split; [apply R|]. intros s. apply R.
Qed.
(** ** Concrete runs: an allocator of 200 pages, a disk of 140 sectors *)
Definition ex_pm : PageMgr := Eval vm_compute in
  match PageMgr_new 0 100 300 with Done s => s | _ => mkPageMgr 0 0 0 0 [] 0 0 end.
Definition ex_disk : store :=
  list_to_map ((fun s => (s, replicate (Z.to_nat blockSize) s)) <$> seqZ 0 140).
Lemma ex_disk_sized s l : ex_disk !! s = Some l -> zlen l = blockSize.
Proof.
  intros Hs%elem_of_list_to_map_2. apply list_elem_of_fmap in Hs as (x & [= -> ->] & _).
  reflexivity.
Qed.
Definition sweep (from n : Z) : list bop := concat ((fun s => [BGet s; BPut s]) <$> seqZ from n).
(** Sector 3 is written, evicted by 130 others and read again. *)
Definition ex_ops : list bop :=
  [BGet 3; BWrite 3 10 [7; 8]; BPut 3] ++ sweep 4 130 ++ [BGet 3; BRead 3 9 4].
Definition ex_spec : list (list Z) * store * gset Z := default ([], ∅, ∅) (spec_all 1 ex_ops ex_disk ∅).

Lemma bcache_transparent_witness :
  last ex_spec.1.1 = Some [3; 7; 8; 3] /\
  exists c h, exec_all ex_ops (BCacheMgr_new ex_disk ex_pm) ∅ = Done (ex_spec.1.1, c, h) /\ dom h = ex_spec.2 /\
    forall s, view c s = ex_spec.1.2 !! s.
Proof.
  split; [vm_compute; reflexivity|].
  apply (bcache_transparent 0 100 300 7 ex_pm ex_disk 1 ex_ops).
  - unfold good_range. lia.
  - vm_compute; reflexivity.
  - exact ex_disk_sized.
  - vm_compute; discriminate.
  - vm_compute; reflexivity.
Defined.

(** A sector that is held while 129 others are used loses its place in the list
    but stays active: the next request for it erases [lru.end()]. *)
Theorem held_sector_again_undefined :
  exec_all ([BGet 3] ++ sweep 4 129 ++ [BGet 3]) (BCacheMgr_new ex_disk ex_pm) ∅ = Undef /\
  (exec_all ([BGet 3] ++ sweep 4 128 ++ [BGet 3]) (BCacheMgr_new ex_disk ex_pm) ∅ ;;; Done tt) = Done tt.
Proof. split; vm_compute; reflexivity. Qed.
(** The driver ignores the device of a key: two device numbers are two buffers of
    one sector, and what is written through one is not seen through the other. *)
Theorem device_ignored :
  (let* (i, c) := getOrSet (BCacheMgr_new ex_disk ex_pm) (0, 5) in
  let* (j, c) := getOrSet c (1, 5) in
  let* c := at_write c i 0 [9] in
  let* (x, c) := at_read c i 0 1 in
  let* (y, c) := at_read c j 0 1 in
  let* c := release c i in
  Done (x, y, disk c !! 5 ≫= head)) = Done ([9], [5], Some 5).
Proof. vm_compute. reflexivity. Qed.
End Claims.
End Bcache.
