(* ===== verification/PtUnmap.v ===== *)
(** * PtUnmap: removeMapping removes exactly the pages it is asked to remove

    removeMapping clears entries, gives a node back to the allocator as soon as
    its last valid entry is gone and clears the entry that pointed to it. The
    main lemma follows the three phases of the code as [PtMap] does for
    createMapping; [Rem] records what a run does to the nodes. *)

From S2P Require Import Prelude Klib PageAlloc PageTable PtMap Bcache.
From stdpp Require Import gmap.
Local Open Scope Z_scope.

Module PtUnmap.
Import PageTable PtMap.

#[local] Arguments isValid : simpl never.
#[local] Arguments isLeaf : simpl never.

(** What the page tables ask of the allocator when they return a node:
    [held a H] says that the single pages [H] are handed out. *)
Class PageReturn {A : Type} (pfree : A -> Z -> Z -> outcome A) (held : A -> gset Z -> Prop) : Prop :=
  pr_free : forall a H q, held a H -> q ∈ H -> exists a', pfree a q 0 = Done a' /\ held a' (H ∖ {[q]}).

#[export] Instance buddy_page_return n : PageReturn Buddy.Buddy.free (PagePool.pool_ok n).
Proof. intros a H q. apply PagePool.pool_free. Qed.

(** ** Entries and nodes *)
Lemma setInvalid_low e : isValid (setInvalid e) = false /\ isLeaf (setInvalid e) = false.
Proof.
  assert (Hb : forall i, 0 <= i < 8 -> Z.testbit (setInvalid e) i = false).
  { intros i Hi. unfold setInvalid. rewrite Z.ldiff_spec, testbit_255 by lia.
    destruct (Z.ltb_spec i 8); [by rewrite andb_false_r|lia]. }
  split; [by apply Hb|]. unfold isLeaf. rewrite (land_low_eq _ 0 14); [done|lia|].
  intros i Hi. by rewrite Hb, Z.testbit_0_l.
Qed.
Lemma not_node e : isValid e = false \/ isLeaf e = true -> forall l m u, ~ einn l m e u.
Proof. intros H l m u [Hn _]. unfold is_node in Hn. destruct (isValid e), (isLeaf e), H; done. Qed.

(** A node with a valid entry, and one without. *)
Definition used (m : gmap Z (list Z)) (u : Z) : Prop :=
  exists es i e, m !! u = Some es /\ es !! i = Some e /\ isValid e = true.
Definition empty_node (m : gmap Z (list Z)) (u : Z) : Prop :=
  forall es i e, m !! u = Some es -> es !! i = Some e -> isValid e = false.

Lemma empty_alone l m t : empty_node m t -> (forall u, inn l m t u -> u = t) /\ forall v, walk l m t v = None.
Proof.
  intros He. split.
  - intros u. destruct (m !! t) as [es|] eqn:Em.
    + rewrite (inn_entry l m t es u Em). intros [?|(i & e & Hi & Hu)]; [done|].
      exfalso. revert Hu. apply not_node. left. by eapply He.
    + destruct l; cbn; [by intros [?|[]]|]. intros [?|(es & i & e & E & _)]; [done|]. by rewrite Em in E.
  - intros v. destruct l; cbn; (destruct (m !! t) as [es|] eqn:Em; [|done]);
      (destruct (es !! _) as [e|] eqn:Ee; [|done]); by rewrite (He es _ e Em Ee).
Qed.

(** Replacing one entry: the nodes of the new table, from both sides. *)
Lemma retable_nodes l m m' t es i0 e' :
  m !! t = Some es -> (i0 < length es)%nat -> m' !! t = Some (<[i0 := e']> es) ->
  (forall i e u, i <> i0 -> es !! i = Some e -> einn l m e u -> m' !! u = m !! u) ->
  forall u, inn l m' t u <-> u = t \/ einn l m' e' u \/ exists i e, i <> i0 /\ es !! i = Some e /\ einn l m e u.
Proof.
  intros Hm Hi Hm' Hfr u.
  assert (Hk : forall i e, i <> i0 -> es !! i = Some e -> einn l m' e u <-> einn l m e u).
  { intros i e Hne Hie. unfold einn. destruct (is_node e) eqn:En; [|by split; intros []].
    destruct l as [|l]; [done|]. split; (intros [_ Hu]; split; [done|]); revert Hu; apply (inn_frame l m m');
      intros w Hw; apply (Hfr i e w Hne Hie); by split. }
  rewrite (inn_entry l m' t _ u Hm'). split; (intros [?|H]; [by left|right]).
  - destruct H as (i & e & Hie & Hu). destruct (decide (i = i0)) as [->|Hne].
    + rewrite list_lookup_insert_eq in Hie by done. injection Hie as <-. by left.
    + rewrite list_lookup_insert_ne in Hie by done. right. exists i, e. split; [done|]. split; [done|]. by apply (Hk i e).
  - destruct H as [Hu|(i & e & Hne & Hie & Hu)].
    + exists i0, e'. split; [by apply list_lookup_insert_eq|done].
    + exists i, e. split; [by rewrite list_lookup_insert_ne|]. by apply (Hk i e).
Qed.

Section Remove.
Context {A : Type} (pfree : A -> Z -> Z -> outcome A) (held : A -> gset Z -> Prop).
Context `{PR : !PageReturn pfree held}.

(** The table [t] is a tree, and its nodes below the root are pages handed out
    one by one. *)
Definition Owned (l : nat) (t : Z) (s : PT A) (H : gset Z) : Prop :=
  tree l (pmem s) t /\ held (pmgr s) H /\ forall u, inn l (pmem s) t u -> u <> t -> u ∈ H.
(** What a removal does to the nodes: some are given back, the others stay, pages
    that are no nodes keep their contents and nodes that had a valid entry and
    stay have one. *)
Record Rem (l : nat) (t : Z) (s : PT A) (H : gset Z) (s' : PT A) (H' : gset Z) : Prop := {
  rm_own : Owned l t s' H';
  rm_sub : H' ⊆ H;
  rm_nodes : forall u, inn l (pmem s') t u -> inn l (pmem s) t u;
  rm_gone : forall u, u ∈ H -> u ∉ H' -> inn l (pmem s) t u /\ u <> t;
  rm_left : forall u, inn l (pmem s) t u -> inn l (pmem s') t u \/ u ∉ H';
  rm_frame : forall u, ~ inn l (pmem s) t u -> pmem s' !! u = pmem s !! u;
  rm_used : forall u, inn l (pmem s') t u -> u <> t -> used (pmem s) u -> used (pmem s') u
}.
Lemma Rem_refl l t s H : Owned l t s H -> Rem l t s H s H.
Proof. intros HO. split; auto; done. Qed.
Lemma Rem_trans l t s1 H1 s2 H2 s3 H3 : Rem l t s1 H1 s2 H2 -> Rem l t s2 H2 s3 H3 -> Rem l t s1 H1 s3 H3.
Proof.
  intros R1 R2. split.
  - apply R2.
  - etrans; [apply R2|apply R1].
  - intros u Hu. by apply R1, R2.
  - intros u Hu Hn. destruct (decide (u ∈ H2)) as [Hd|Hd]; [|by apply R1].
    destruct (rm_gone _ _ _ _ _ _ R2 u Hd Hn) as [Hi ?]. split; [by apply R1|done].
  - intros u Hu. destruct (rm_left _ _ _ _ _ _ R1 u Hu) as [Hi|Hi]; [by apply R2|].
    right. intros Hx. by apply Hi, R2.
  - intros u Hu. rewrite (rm_frame _ _ _ _ _ _ R2), (rm_frame _ _ _ _ _ _ R1); [done..|]. intros Hi. by apply Hu, R1.
  - intros u Hu Hne Hx. apply R2; [done..|]. apply R1; [by apply R2|done..].
Qed.

(** Replacing the entry at [i0] of [t] by one whose sub-table has nodes of the
    old one only. *)
Lemma swap_entry l t s H es i0 e e' s' H' :
  Owned l t s H -> pmem s !! t = Some es -> es !! i0 = Some e -> pmem s' !! t = Some (<[i0 := e']> es) ->
  (forall u, u <> t -> ~ einn l (pmem s) e u -> pmem s' !! u = pmem s !! u) ->
  etree l (pmem s') e' -> (forall u, einn l (pmem s') e' u -> einn l (pmem s) e u /\ u ∈ H') ->
  held (pmgr s') H' -> H' ⊆ H -> (forall u, u ∈ H -> u ∉ H' -> einn l (pmem s) e u) ->
  (forall u, einn l (pmem s) e u -> einn l (pmem s') e' u \/ u ∉ H') ->
  (forall u, einn l (pmem s') e' u -> used (pmem s) u -> used (pmem s') u) ->
  Rem l t s H s' H' /\
  (forall v, idx l v <> i0 -> walk l (pmem s') t v = walk l (pmem s) t v) /\
  (forall v, idx l v = i0 -> walk l (pmem s') t v = ewalk l (pmem s') e' v).
Proof.
  intros (Ht & Hh & Ho) Hm He Hm' Hfr Het Hsub Hh' HH Hgone Hleft Hused.
  destruct (tree_unfold _ _ _ Ht) as (es1 & E1 & Hlen & Hes & Hd). rewrite Hm in E1. injection E1 as <-.
  assert (Hi0 : (i0 < length es)%nat) by (by eapply lookup_lt_Some).
  assert (Hoth : forall i e1 u, i <> i0 -> es !! i = Some e1 -> einn l (pmem s) e1 u -> u <> t /\ ~ einn l (pmem s) e u).
  { intros i e1 u Hne Hie Hu. split; [intros ->; by apply (Hes i e1 Hie)|]. intros Hx. by apply (Hd i i0 e1 e u). }
  assert (Hfr' : forall i e1 u, i <> i0 -> es !! i = Some e1 -> einn l (pmem s) e1 u -> pmem s' !! u = pmem s !! u).
  { intros i e1 u Hne Hie Hu. by apply Hfr; apply (Hoth i e1). }
  assert (Het0 : ~ einn l (pmem s) e t) by apply (Hes i0 e He).
  destruct (retable l (pmem s) (pmem s') t es i0 e' Ht Hm ltac:(lia) Hm' Hfr' Het) as (T & _ & W1 & W2).
  { intros Hx. by apply Hsub in Hx as [? _]. }
  { intros i e1 u Hne Hie Hu Hx. apply Hsub in Hx as [Hx _]. by apply (Hoth i e1 u Hne Hie Hu). }
  pose proof (retable_nodes l (pmem s) (pmem s') t es i0 e' Hm Hi0 Hm' Hfr') as N.
  pose proof (fun u => inn_entry l (pmem s) t es u Hm) as N0.
  split; [|by split]. split; auto.
  - split; [done|]. split; [done|]. intros u Hu Hne. apply N in Hu as [?|[Hu|(i & e1 & Hni & Hie & Hu)]]; [done|by apply Hsub|].
    assert (u ∈ H) as HuH. { apply Ho; [|done]. apply N0. right. by exists i, e1. }
    destruct (decide (u ∈ H')) as [|Hn]; [done|]. exfalso. apply (Hoth i e1 u Hni Hie Hu). by apply Hgone.
  - intros u Hu. apply N0. apply N in Hu as [?|[Hu|(i & e1 & Hni & Hie & Hu)]]; [by left| |].
    + right. exists i0, e. split; [done|]. by apply Hsub.
    + right. by exists i, e1.
  - intros u Hu Hn. specialize (Hgone u Hu Hn). split; [|by intros ->]. apply N0. right. by exists i0, e.
  - intros u Hu. apply N0 in Hu as [->|(i & e1 & Hie & Hu)]; [left; apply inn_self|].
    destruct (decide (i = i0)) as [->|Hni].
    + rewrite He in Hie. injection Hie as <-. destruct (Hleft u Hu) as [Hx|]; [|by right]. left. apply N. by right; left.
    + left. apply N. right. right. by exists i, e1.
  - intros u Hu. apply Hfr; [intros ->; by apply Hu, inn_self|]. intros Hx. apply Hu, N0. right. by exists i0, e.
  - intros u Hu Hne (es1 & j & e1 & A1 & A2 & A3). apply N in Hu as [?|[Hu|(i & e2 & Hni & Hie & Hu)]]; [done| |].
    + apply Hused; [done|]. by exists es1, j, e1.
    + exists es1, j, e1. by rewrite (Hfr' i e2 u Hni Hie Hu).
Qed.

(** ** Steps on one entry *)
Definition entry_at (m : gmap Z (list Z)) (t : Z) (i : nat) : option Z := es ← m !! t; es !! i.
Lemma entry_get_at (s : PT A) t i e : entry_at (pmem s) t i = Some e -> entry_get s t (Z.of_nat i) = Done e.
Proof.
  unfold entry_at, entry_get. destruct (pmem s !! t) as [es|]; [|done]. cbn. intros E. unfold aget.
  destruct (Z.ltb_spec (Z.of_nat i) 0); [lia|]. by rewrite Nat2Z.id, E.
Qed.
Lemma entry_set_at (s : PT A) t i e es :
  pmem s !! t = Some es -> (i < length es)%nat ->
  entry_set s t (Z.of_nat i) e = Done (mkPT (<[t := <[i := e]> es]> (pmem s)) (pmgr s)).
Proof. intros E Hi. unfold entry_set. rewrite E, aset_upd by lia. cbn [obind]. unfold upd. by rewrite Nat2Z.id. Qed.
Lemma Owned_entry l t s H i : Owned l t s H -> (i < 512)%nat -> exists es e, pmem s !! t = Some es /\ length es = 512%nat /\
  es !! i = Some e /\ entry_at (pmem s) t i = Some e /\ etree l (pmem s) e /\ ~ einn l (pmem s) e t.
Proof.
  intros (Ht & _) Hi. destruct (tree_unfold _ _ _ Ht) as (es & Hm & Hlen & Hes & _).
  destruct (lookup_lt_is_Some_2 es i ltac:(lia)) as [e He]. exists es, e. unfold entry_at. rewrite Hm. cbn.
  destruct (Hes i e He). done.
Qed.

(** Result of a step on the entry [i0]: the other entries and their translations
    stay. *)
Definition Step (l : nat) (t : Z) (s : PT A) (H : gset Z) (i0 : nat) (s' : PT A) (H' : gset Z) : Prop :=
  Rem l t s H s' H' /\ (forall i, i <> i0 -> entry_at (pmem s') t i = entry_at (pmem s) t i) /\
  (forall v, idx l v <> i0 -> walk l (pmem s') t v = walk l (pmem s) t v).
(** ... and the entry is gone. *)
Definition Cleared (l : nat) (t : Z) (s' : PT A) (i0 : nat) : Prop :=
  (exists e, entry_at (pmem s') t i0 = Some e /\ isValid e = false) /\
  forall v, idx l v = i0 -> walk l (pmem s') t v = None.

Lemma entry_at_set l m t es i0 e' : m !! t = Some (<[i0 := e']> es) -> (i0 < length es)%nat ->
  entry_at m t i0 = Some e' /\ (forall v, idx l v = i0 -> isValid e' = false -> walk l m t v = None) /\
  forall m0 i, m0 !! t = Some es -> i <> i0 -> entry_at m t i = entry_at m0 t i.
Proof.
  intros Hm Hi. split; [|split].
  - unfold entry_at. rewrite Hm. cbn. by apply list_lookup_insert_eq.
  - intros v Ev Hv. rewrite (walk_entry l m t v _ e' Hm); [unfold ewalk; by rewrite Hv|]. rewrite Ev. by apply list_lookup_insert_eq.
  - intros m0 i Hm0 Hne. unfold entry_at. rewrite Hm, Hm0. cbn. by rewrite list_lookup_insert_ne.
Qed.

(** Clearing an entry that has no sub-table. *)
Lemma clear_leaf l t s H i0 e :
  Owned l t s H -> (i0 < 512)%nat -> entry_at (pmem s) t i0 = Some e -> isLeaf e = true ->
  exists s', entry_set s t (Z.of_nat i0) (setInvalid e) = Done s' /\ Step l t s H i0 s' H /\ Cleared l t s' i0.
Proof.
  intros HO Hi Ee Hl. destruct (Owned_entry l t s H i0 HO Hi) as (es & e0 & Hm & Hlen & He & E0 & Het & Hnt).
  rewrite Ee in E0. injection E0 as <-. rewrite (entry_set_at s t i0 _ es) by (done || lia).
  destruct (setInvalid_low e) as [L1 L2].
  set (s' := mkPT _ _). assert (Hm' : pmem s' !! t = Some (<[i0 := setInvalid e]> es)) by apply lookup_insert_eq.
  destruct (swap_entry l t s H es i0 e (setInvalid e) s' H) as (R & W1 & W2); auto.
  { intros u Hu _. cbn. by rewrite lookup_insert_ne. }
  { split; [done|]. intros Hn. unfold is_node in Hn. by rewrite L1 in Hn. }
  { intros u Hu. exfalso. revert Hu. apply not_node. by left. }
  { apply HO. } { done. }
  { intros u Hu. exfalso. revert Hu. apply not_node. by right. }
  { intros u Hu. exfalso. revert Hu. apply not_node. by left. }
  destruct (entry_at_set l (pmem s') t es i0 _ Hm' ltac:(lia)) as (E1 & E2 & E3).
  exists s'. split; [done|]. split; [split; [done|split; [|done]]; intros i Hne; by apply E3|].
  split; [by eexists|]. intros v Hv. by apply E2.
Qed.

(** A run on the sub-table of an entry leaves the table itself alone and does not
    return the sub-table. *)
Lemma sub_facts l t s H i0 e s1 H1 :
  Owned (S l) t s H -> (i0 < 512)%nat -> entry_at (pmem s) t i0 = Some e -> is_node e = true ->
  Rem l (entry_ppn e) s H s1 H1 ->
  Owned l (entry_ppn e) s H /\ pmem s1 !! t = pmem s !! t /\ entry_ppn e ∈ H1 /\ entry_ppn e <> t.
Proof.
  intros HO Hi Ee Hn R. destruct (Owned_entry (S l) t s H i0 HO Hi) as (es & e0 & Hm & Hlen & He & E0 & Het & Hnt).
  rewrite Ee in E0. injection E0 as <-.
  assert (Hct : ~ inn l (pmem s) (entry_ppn e) t) by (intros Hx; apply Hnt; by split).
  assert (Hne : entry_ppn e <> t) by (intros Hx; apply Hct; rewrite <- Hx; apply inn_self).
  assert (Hin : forall u, inn l (pmem s) (entry_ppn e) u -> u ∈ H).
  { intros u Hu. apply HO; [|by intros ->]. apply (inn_entry _ _ _ es); [done|]. right. exists i0, e. by repeat split. }
  split; [|split; [by apply (rm_frame _ _ _ _ _ _ R)|split; [|done]]].
  - split; [by apply Het|]. split; [apply HO|]. intros u Hu _. by apply Hin.
  - destruct (decide (entry_ppn e ∈ H1)) as [|Hx]; [done|].
    by destruct (rm_gone _ _ _ _ _ _ R (entry_ppn e) (Hin _ (inn_self _ _ _)) Hx).
Qed.

(** After a run on the sub-table: it stays when it has a valid entry left, and is
    returned otherwise. *)
Lemma sub_stays l t s H i0 e s1 H1 :
  Owned (S l) t s H -> (i0 < 512)%nat -> entry_at (pmem s) t i0 = Some e -> is_node e = true ->
  Rem l (entry_ppn e) s H s1 H1 -> used (pmem s1) (entry_ppn e) ->
  Step (S l) t s H i0 s1 H1 /\ forall v, idx (S l) v = i0 -> walk (S l) (pmem s1) t v = walk l (pmem s1) (entry_ppn e) v.
Proof.
  intros HO Hi Ee Hn R Hu1. destruct (sub_facts l t s H i0 e s1 H1 HO Hi Ee Hn R) as (_ & Hfr & Hc & Hct).
  destruct (Owned_entry (S l) t s H i0 HO Hi) as (es & e0 & Hm & Hlen & He & E0 & Het & Hnt).
  rewrite Ee in E0. injection E0 as <-.
  destruct (swap_entry (S l) t s H es i0 e e s1 H1) as (R' & W1 & W2); auto.
  { rewrite Hfr, Hm. f_equal. symmetry. by apply list_insert_id. }
  { intros u _ Hu. apply (rm_frame _ _ _ _ _ _ R). intros Hx. apply Hu. by split. }
  { split; [apply Het|]. intros _. apply R. }
  { intros u [_ Hu]. split; [split; [done|by apply R]|].
    destruct (decide (u = entry_ppn e)) as [->|]; [done|]. by apply (rm_own _ _ _ _ _ _ R). }
  { apply R. } { apply R. }
  { intros u A1 A2. split; [done|]. by apply (rm_gone _ _ _ _ _ _ R u A1 A2). }
  { intros u [_ Hu]. destruct (rm_left _ _ _ _ _ _ R u Hu); [left; by split|by right]. }
  { intros u [_ Hu] Hx. destruct (decide (u = entry_ppn e)) as [->|]; [done|]. by apply R. }
  split; [split; [done|split; [|done]]|].
  - intros i _. unfold entry_at. by rewrite Hfr.
  - intros v Hv. rewrite (W2 v Hv). unfold ewalk. unfold is_node in Hn. by destruct (isValid e), (isLeaf e).
Qed.
Lemma sub_returned l t s H i0 e s1 H1 a' es :
  Owned (S l) t s H -> (i0 < 512)%nat -> entry_at (pmem s) t i0 = Some e -> is_node e = true ->
  Rem l (entry_ppn e) s H s1 H1 -> empty_node (pmem s1) (entry_ppn e) -> held a' (H1 ∖ {[entry_ppn e]}) ->
  pmem s !! t = Some es ->
  let s' := mkPT (<[t := <[i0 := setInvalid e]> es]> (delete (entry_ppn e) (pmem s1))) a' in
  Step (S l) t s H i0 s' (H1 ∖ {[entry_ppn e]}) /\ Cleared (S l) t s' i0.
Proof.
  intros HO Hi Ee Hn R Hem Ha Hm s'. destruct (sub_facts l t s H i0 e s1 H1 HO Hi Ee Hn R) as (_ & Hfr & Hc & Hct).
  destruct (Owned_entry (S l) t s H i0 HO Hi) as (es' & e0 & Hm2 & Hlen & He & E0 & Het & Hnt).
  rewrite Hm in Hm2. injection Hm2 as <-. rewrite Ee in E0. injection E0 as <-.
  destruct (setInvalid_low e) as [L1 L2]. destruct (empty_alone l (pmem s1) (entry_ppn e) Hem) as [Hal _].
  assert (Hm' : pmem s' !! t = Some (<[i0 := setInvalid e]> es)) by apply lookup_insert_eq.
  destruct (swap_entry (S l) t s H es i0 e (setInvalid e) s' (H1 ∖ {[entry_ppn e]})) as (R' & W1 & W2); auto.
  { intros u Hu Hx. cbn. rewrite lookup_insert_ne, lookup_delete_ne; [|intros <-; apply Hx; split; [done|apply inn_self]|done].
    apply (rm_frame _ _ _ _ _ _ R). intros Hy. apply Hx. by split. }
  { split; [done|]. intros Hx. unfold is_node in Hx. by rewrite L1 in Hx. }
  { intros u Hu. exfalso. revert Hu. apply not_node. by left. }
  { pose proof (rm_sub _ _ _ _ _ _ R). set_solver. }
  { intros u A1 A2. split; [done|]. destruct (decide (u = entry_ppn e)) as [->|]; [apply inn_self|].
    apply (rm_gone _ _ _ _ _ _ R u A1). set_solver. }
  { intros u [_ Hu]. right. destruct (rm_left _ _ _ _ _ _ R u Hu) as [->%Hal|Hx]; set_solver. }
  { intros u Hu. exfalso. revert Hu. apply not_node. by left. }
  destruct (entry_at_set (S l) (pmem s') t es i0 _ Hm' ltac:(lia)) as (E1 & E2 & E3).
  split; [split; [done|split; [|done]]; intros i Hne; by apply E3|].
  split; [by eexists|]. intros v Hv. by apply E2.
Qed.

(** freePTNode on a node that is handed out. *)
Lemma freePTNode_cases l c s H :
  Owned l c s H -> c ∈ H ->
  (used (pmem s) c /\ freePTNode pfree s c = Done (false, s)) \/
  (empty_node (pmem s) c /\ exists a', freePTNode pfree s c = Done (true, mkPT (delete c (pmem s)) a') /\ held a' (H ∖ {[c]})).
Proof.
  intros (Ht & Hh & _) Hc. destruct (tree_unfold _ _ _ Ht) as (es & Hm & _). unfold freePTNode. rewrite Hm.
  destruct (existsb isValid es) eqn:E.
  - left. split; [|done]. apply existsb_exists in E as (e & Hin%list_elem_of_In%list_elem_of_lookup & Hv).
    destruct Hin as [i Hi]. by exists es, i, e.
  - right. split.
    + intros es' i e E1 Hi. rewrite Hm in E1. injection E1 as <-. destruct (isValid e) eqn:Hv; [|done].
      assert (existsb isValid es = true) as Hx; [|by rewrite Hx in E]. apply existsb_exists. exists e. split; [|done].
      apply list_elem_of_In, list_elem_of_lookup. by exists i.
    + destruct (pr_free _ _ _ Hh Hc) as (a' & -> & Ha). cbn [obind]. by exists a'.
Qed.

(** ** The phases of removeMapping *)
Definition removed (l : nat) (t : Z) (s s' : PT A) (vpn pages : Z) : Prop :=
  forall v, v / big (S l) = vpn / big (S l) ->
    (vpn <= v < vpn + pages -> walk l (pmem s') t v = None) /\
    (~ vpn <= v < vpn + pages -> walk l (pmem s') t v = walk l (pmem s) t v).
Definition RM (l : nat) : Prop :=
  forall s t vpn pages H,
    Owned l t s H -> 0 <= vpn -> vpn + pages < 2 ^ 63 -> 0 < pages -> vpn mod big (S l) + pages <= big (S l) ->
    no_straddle l (pmem s) t vpn pages ->
    exists s' H', removeMapping pfree l s t vpn pages = Done s' /\ Rem l t s H s' H' /\ removed l t s s' vpn pages /\
      (pages = big (S l) -> empty_node (pmem s') t).
Definition rbelow (l : nat) : PT A -> Z -> Z -> Z -> outcome (PT A) :=
  match l with O => fun _ _ _ _ => Undef | S l' => removeMapping pfree l' end.
Definition RMbelow (l : nat) : Prop := match l with O => True | S l' => RM l' end.

Lemma Step_refl l t s H i : Owned l t s H -> Step l t s H i s H.
Proof. intros HO. split; [by apply Rem_refl|done]. Qed.
Lemma walk_at l m t v e : entry_at m t (idx l v) = Some e -> walk l m t v = ewalk l m e v.
Proof. unfold entry_at. destruct (m !! t) as [es|] eqn:Em; [|done]. cbn. by apply walk_entry. Qed.
Lemma Cleared_invalid l t s i e : entry_at (pmem s) t i = Some e -> isValid e = false -> Cleared l t s i.
Proof.
  intros Ee Hv. split; [by exists e|]. intros v Hi. rewrite (walk_at l _ t v e) by by rewrite Hi.
  unfold ewalk. by rewrite Hv.
Qed.

(** The entry of a returned node is cleared. *)
Lemma clear_returned l t s H i0 e s1 H1 :
  Owned (S l) t s H -> (i0 < 512)%nat -> entry_at (pmem s) t i0 = Some e -> is_node e = true ->
  Rem l (entry_ppn e) s H s1 H1 ->
  (used (pmem s1) (entry_ppn e) /\ freePTNode pfree s1 (entry_ppn e) = Done (false, s1)) \/
  empty_node (pmem s1) (entry_ppn e) /\ exists s2 s' H', freePTNode pfree s1 (entry_ppn e) = Done (true, s2) /\
    (let* e' := entry_get s2 t (Z.of_nat i0) in entry_set s2 t (Z.of_nat i0) (setInvalid e')) = Done s' /\
    Step (S l) t s H i0 s' H' /\ Cleared (S l) t s' i0.
Proof.
  intros HO Hi Ee Hn R. destruct (sub_facts l t s H i0 e s1 H1 HO Hi Ee Hn R) as (_ & Hfr & Hc & Hct).
  destruct (Owned_entry (S l) t s H i0 HO Hi) as (es & e0 & Hm & Hlen & He & E0 & _).
  rewrite Ee in E0. injection E0 as <-.
  destruct (freePTNode_cases l _ s1 H1 (rm_own _ _ _ _ _ _ R) Hc) as [?|(Hem & a' & Ef & Ha)]; [by left|right].
  split; [done|]. assert (Hm2 : delete (entry_ppn e) (pmem s1) !! t = Some es) by by rewrite lookup_delete_ne, Hfr.
  do 3 eexists. split; [exact Ef|]. split; [|by apply (sub_returned l t s H i0 e s1 H1 a' es)].
  rewrite (entry_get_at _ t i0 e) by (unfold entry_at; cbn [pmem]; by rewrite Hm2). cbn [obind].
  rewrite (entry_set_at _ t i0 _ es) by (done || lia). done.
Qed.

Lemma Owned_sub l t s H i e :
  Owned (S l) t s H -> (i < 512)%nat -> entry_at (pmem s) t i = Some e -> is_node e = true -> Owned l (entry_ppn e) s H.
Proof.
  intros HO Hi Ee Hn. destruct (Owned_entry (S l) t s H _ HO Hi) as (es & e0 & Hm & _ & He & E0 & Het & Hnt).
  rewrite Ee in E0. injection E0 as <-. split; [by apply Het|]. split; [apply HO|]. intros u Hu _. apply HO.
  - apply (inn_entry _ _ _ es); [done|]. right. exists i, e. by repeat split.
  - intros ->. apply Hnt. by split.
Qed.

Lemma part_removed l s t a n H e :
  RM l -> Owned (S l) t s H -> 0 <= a -> a + n < 2 ^ 63 -> 0 < n -> a mod big (S l) + n <= big (S l) ->
  entry_at (pmem s) t (idx (S l) a) = Some e -> isValid e && isLeaf e = false ->
  (forall v lv p q, v / big (S l) = a / big (S l) -> walk (S l) (pmem s) t v = Some (lv, p, q) -> clear v lv a n) ->
  exists s' H', remove_part pfree (removeMapping pfree l) s t (Z.of_nat (idx (S l) a)) a n = Done s' /\
    Step (S l) t s H (idx (S l) a) s' H' /\
    forall v, v / big (S l) = a / big (S l) ->
      (a <= v < a + n -> walk (S l) (pmem s') t v = None) /\
      (~ a <= v < a + n -> walk (S l) (pmem s') t v = walk (S l) (pmem s) t v).
Proof.
  intros IH HO Ha0 Ha1 Hn Hmod Ee Hnl Hns. unfold remove_part. rewrite (entry_get_at s t _ e Ee). cbn [obind].
  assert (Hidx : forall v, v / big (S l) = a / big (S l) -> idx (S l) v = idx (S l) a) by (intros v Ev; unfold idx; by rewrite Ev).
  assert (Hw : forall v, v / big (S l) = a / big (S l) -> walk (S l) (pmem s) t v = ewalk (S l) (pmem s) e v).
  { intros v Ev. apply walk_at. by rewrite (Hidx v Ev). }
  destruct (isValid e) eqn:Ev.
  2:{ exists s, H. split; [done|]. split; [by apply Step_refl|]. intros v Hv. split; [|done]. intros _.
      rewrite (Hw v Hv). unfold ewalk. by rewrite Ev. }
  cbn in Hnl. rewrite Hnl. cbn [negb passert obind].
  assert (Hnode : is_node e = true) by (unfold is_node; by rewrite Ev, Hnl).
  assert (Hw' : forall v, v / big (S l) = a / big (S l) -> walk (S l) (pmem s) t v = walk l (pmem s) (entry_ppn e) v).
  { intros v Hv. rewrite (Hw v Hv). unfold ewalk. by rewrite Ev, Hnl. }
  pose proof (idx_lt (S l) a) as Hi.
  destruct (IH s (entry_ppn e) a n H (Owned_sub l t s H _ e HO Hi Ee Hnode) Ha0 Ha1 Hn Hmod) as (s1 & H1 & -> & R & M & _).
  { intros v lv p q Hv W. rewrite <- (Hw' v Hv) in W. by apply (Hns v lv p q). }
  cbn [obind].
  destruct (clear_returned l t s H _ e s1 H1 HO Hi Ee Hnode R) as [[Hu ->]|(Hem & s2 & s' & H' & -> & Es & St & [_ Cl])].
  - cbn [obind]. exists s1, H1. split; [done|]. destruct (sub_stays l t s H _ e s1 H1 HO Hi Ee Hnode R Hu) as [St W].
    split; [done|]. intros v Hv. rewrite (W v (Hidx v Hv)), (Hw' v Hv). by apply M.
  - cbn [obind]. rewrite Es. exists s', H'. split; [done|]. split; [done|]. intros v Hv. rewrite (Cl v (Hidx v Hv)).
    split; [done|]. intros Hv2. rewrite (Hw' v Hv). destruct (M v Hv) as [_ <-]; [|done].
    symmetry. by apply empty_alone.
Qed.

(** One turn of the loop over whole entries. *)
Definition whole_one (l : nat) (s : PT A) (t i vpn : Z) : outcome (PT A) :=
  let* e := entry_get s t i in
  if isValid e then
    if isLeaf e then entry_set s t i (setInvalid e)
    else
      let* s' := rbelow l s (entry_ppn e) vpn (big l) in
      let* (freed, s'') := freePTNode pfree s' (entry_ppn e) in
      passert freed ;;;
      let* e' := entry_get s'' t i in entry_set s'' t i (setInvalid e')
  else Done s.
Lemma whole_one_ok l s t i vp H :
  RMbelow l -> Owned l t s H -> (i < 512)%nat -> 0 <= vp -> vp + big l < 2 ^ 63 -> vp mod big l = 0 ->
  exists s' H', whole_one l s t (Z.of_nat i) vp = Done s' /\ Step l t s H i s' H' /\ Cleared l t s' i.
Proof.
  intros IH HO Hi Hv0 Hv1 Hal. destruct (Owned_entry l t s H i HO Hi) as (es & e & Hm & Hlen & He & Ee & Het & Hnt).
  unfold whole_one. rewrite (entry_get_at s t i e Ee). cbn [obind].
  destruct (isValid e) eqn:Ev.
  2:{ exists s, H. split; [done|]. split; [by apply Step_refl|]. by eapply Cleared_invalid. }
  destruct (isLeaf e) eqn:El.
  { destruct (clear_leaf l t s H i e HO Hi Ee El) as (s' & -> & ? & ?). by exists s', H. }
  assert (Hnode : is_node e = true) by (unfold is_node; by rewrite Ev, El).
  destruct l as [|l]; [by destruct (proj2 Het Hnode)|]. cbn [rbelow RMbelow] in *.
  pose proof (big_pos (S l)) as HD.
  destruct (IH s (entry_ppn e) vp (big (S l)) H (Owned_sub l t s H i e HO Hi Ee Hnode)) as (s1 & H1 & -> & R & _ & Hem); try lia.
  { intros v lv p q Hv W. right. right. pose proof (walk_level _ _ _ _ _ _ _ W) as Hlv.
    destruct (leaf_block (S l) lv v _ ltac:(lia) Hv) as [B1 B2]. pose proof (Z.div_mod vp (big (S l)) ltac:(lia)). lia. }
  cbn [obind]. specialize (Hem eq_refl).
  destruct (clear_returned l t s H i e s1 H1 HO Hi Ee Hnode R) as [[(es1 & j & e1 & U1 & U2 & U3) _]|(_ & s2 & s' & H' & -> & Es & St & Cl)].
  { by rewrite (Hem es1 j e1 U1 U2) in U3. }
  cbn [obind passert]. rewrite Es. by exists s', H'.
Qed.
Lemma remove_whole_S n l s t i vp :
  remove_whole pfree (S n) (rbelow l) s t i vp (big l) =
  let* s1 := whole_one l s t i vp in remove_whole pfree n (rbelow l) s1 t (i + 1) (u64 (vp + big l)) (big l).
Proof. unfold whole_one. cbn [remove_whole]. by destruct (entry_get s t i). Qed.
Lemma whole_removed n : forall l s t i vp H,
  RMbelow l -> Owned l t s H -> (i + n <= 512)%nat -> 0 <= vp -> vp + Z.of_nat n * big l < 2 ^ 63 -> vp mod big l = 0 ->
  exists s' H', remove_whole pfree n (rbelow l) s t (Z.of_nat i) vp (big l) = Done s' /\ Rem l t s H s' H' /\
    (forall j, ~ (i <= j < i + n)%nat -> entry_at (pmem s') t j = entry_at (pmem s) t j) /\
    (forall v, ~ (i <= idx l v < i + n)%nat -> walk l (pmem s') t v = walk l (pmem s) t v) /\
    (forall j, (i <= j < i + n)%nat -> Cleared l t s' j).
Proof.
  induction n as [|n IHn]; intros l s t i vp H IH HO Hi Hv0 Hv1 Hal; [|rewrite remove_whole_S].
  { exists s, H. split; [done|]. split; [by apply Rem_refl|]. split; [done|]. split; [done|]. lia. }
  pose proof (big_pos l) as HD.
  destruct (whole_one_ok l s t i vp H IH HO ltac:(lia) Hv0 ltac:(nia) Hal) as (s1 & H1 & E1 & (R1 & A1 & W1) & [(e1 & C1 & C2) C3]).
  rewrite E1. cbn [obind]. rewrite u64_small by nia. replace (Z.of_nat i + 1) with (Z.of_nat (S i)) by lia.
  destruct (IHn l s1 t (S i) (vp + big l) H1 IH (rm_own _ _ _ _ _ _ R1)) as (s' & H' & -> & R2 & A2 & W2 & C4); [lia|lia|lia| |].
  { rewrite <- (Z.mul_1_l (big l)) at 1. rewrite Z.mod_add; lia. }
  exists s', H'. split; [done|]. split; [by eapply Rem_trans|]. split; [|split].
  - intros j Hj. rewrite A2, A1; [done|lia..].
  - intros v Hv. rewrite W2, W1; [done|lia..].
  - intros j Hj. destruct (decide (j = i)) as [->|]; [|apply C4; lia]. split.
    + exists e1. rewrite A2 by lia. done.
    + intros v Hv. rewrite W2 by lia. by apply C3.
Qed.

Definition rphase1 (l : nat) (s : PT A) (t vpn pages : Z) : outcome (PT A * Z * Z) :=
  let unaligned := Z.land vpn (big l - 1) in
  if unaligned =? 0 then Done (s, vpn, pages)
  else
    let partial := kmin (big l - unaligned) pages in
    let* s1 := remove_part pfree (rbelow l) s t (Z.land (vpn / big l) vpnMask) vpn partial in
    Done (s1, u64 (vpn + partial), pages - partial).
Definition rphase23 (l : nat) (s : PT A) (t vpn pages : Z) : outcome (PT A) :=
  let whole := pages / big l in
  let* s := remove_whole pfree (Z.to_nat whole) (rbelow l) s t (Z.land (vpn / big l) vpnMask) vpn (big l) in
  let vpn := u64 (vpn + whole * big l) in
  let pages := pages - whole * big l in
  if pages =? 0 then Done s else remove_part pfree (rbelow l) s t (Z.land (vpn / big l) vpnMask) vpn pages.
Lemma removeMapping_phases l s t vpn pages :
  removeMapping pfree l s t vpn pages = let* (s1, v, n) := rphase1 l s t vpn pages in rphase23 l s1 t v n.
Proof. destruct l; cbn [removeMapping]; rewrite shift_big; reflexivity. Qed.

Lemma removed_trans l t s s1 s2 vpn k n :
  0 <= k -> 0 <= n -> (vpn + k) / big (S l) = vpn / big (S l) ->
  removed l t s s1 vpn k -> removed l t s1 s2 (vpn + k) n -> removed l t s s2 vpn (k + n).
Proof.
  intros Hk Hn Hsp M1 M2 v Es. destruct (M1 v Es) as [A1 B1]. destruct (M2 v) as [A2 B2]; [by rewrite Hsp|].
  split; intros Hv; [|by rewrite B2, B1 by lia]. destruct (decide (v < vpn + k)); [rewrite B2 by lia; apply A1; lia|apply A2; lia].
Qed.

(** The entry of a partially covered big page is no leaf, and the leaves below it
    are clear of the part. *)
Lemma part_clear l (s s2 : PT A) t vpn pages a n H e :
  no_straddle (S l) (pmem s) t vpn pages -> Owned (S l) t s2 H -> a / big (S (S l)) = vpn / big (S (S l)) ->
  0 < n < big (S l) -> vpn <= a -> a + n <= vpn + pages ->
  a = vpn \/ a mod big (S l) = 0 -> a + n = vpn + pages \/ a mod big (S l) + n = big (S l) ->
  (forall v, v / big (S l) = a / big (S l) -> walk (S l) (pmem s2) t v = walk (S l) (pmem s) t v) ->
  entry_at (pmem s2) t (idx (S l) a) = Some e ->
  isValid e && isLeaf e = false /\
  forall v lv p q, v / big (S l) = a / big (S l) -> walk (S l) (pmem s2) t v = Some (lv, p, q) -> clear v lv a n.
Proof.
  intros Hns HO Esp Hn Ha1 Ha2 Hl Hr Hw Ee. pose proof (big_pos (S l)) as HD.
  assert (Hc : forall v lv p q, v / big (S l) = a / big (S l) -> walk (S l) (pmem s2) t v = Some (lv, p, q) ->
    a / big (S l) * big (S l) <= v - v mod big lv /\ v - v mod big lv + big lv <= (a / big (S l) + 1) * big (S l) /\
    clear v lv vpn pages).
  { intros v lv p q Ev W. pose proof (walk_level _ _ _ _ _ _ _ W) as Hlv.
    destruct (leaf_block (S l) lv v _ Hlv Ev) as [B1 B2]. split; [done|]. split; [done|].
    rewrite (Hw v Ev) in W. apply (Hns v lv p q); [|done].
    rewrite <- Esp, !(big_S (S l)), !(Z.mul_comm 512), <- !Z.div_div by lia. by rewrite Ev. }
  pose proof (Z.div_mod a (big (S l)) ltac:(lia)). pose proof (Z.mod_pos_bound a (big (S l)) HD). split.
  - destruct (isValid e && isLeaf e) eqn:E; [|done]. apply andb_true_iff in E as [E1 E2]. exfalso.
    destruct (Hc a (S l) (entry_ppn e + a mod big (S l)) (entry_perm e) eq_refl) as (_ & _ & [?|[?|?]]); try lia.
    rewrite (walk_at (S l) _ t a e Ee). unfold ewalk. by rewrite E1, E2.
  - intros v lv p q Ev W. destruct (Hc v lv p q Ev W) as (B1 & B2 & [?|[?|?]]); unfold clear; lia.
Qed.

(** A part of one big page, seen as a removal on the table. *)
Lemma part_phase l (s s2 : PT A) t vpn pages a n H :
  RMbelow l -> no_straddle l (pmem s) t vpn pages -> Owned l t s2 H -> a / big (S l) = vpn / big (S l) ->
  0 <= vpn -> vpn + pages < 2 ^ 63 -> 0 < n < big l -> vpn <= a -> a + n <= vpn + pages -> a mod big l + n <= big l ->
  a = vpn \/ a mod big l = 0 -> a + n = vpn + pages \/ a mod big l + n = big l ->
  (forall v, v / big l = a / big l -> walk l (pmem s2) t v = walk l (pmem s) t v) ->
  exists s' H', remove_part pfree (rbelow l) s2 t (Z.land (a / big l) vpnMask) a n = Done s' /\
    Rem l t s2 H s' H' /\ removed l t s2 s' a n.
Proof.
  intros IH Hns HO Esp Hv0 Hv1 Hn Ha1 Ha2 Hmod Hl Hr Hw. pose proof (big_pos l) as HD.
  destruct l as [|l]; [change (big 0) with 1 in Hn; lia|]. cbn [rbelow RMbelow] in *. rewrite idx_land by lia.
  destruct (Owned_entry (S l) t s2 H _ HO (idx_lt (S l) a)) as (_ & e & _ & _ & _ & Ee & _).
  destruct (part_clear l s s2 t vpn pages a n H e) as [Hnl Hcl]; auto.
  destruct (part_removed l s2 t a n H e) as (s' & H' & -> & (R & _ & W) & M); auto; try lia.
  exists s', H'. split; [done|]. split; [done|]. intros v Es.
  destruct (decide (v / big (S l) = a / big (S l))) as [Ev|Ev]; [by apply M|].
  split; [|intros _; apply W; by rewrite (idx_same (S l) v a Es)].
  intros Hin. exfalso. apply Ev. apply div_same; [done|]. pose proof (Z.mod_pos_bound a (big (S l)) HD). lia.
Qed.

Lemma rphase1_ok l (s : PT A) t vpn pages H :
  RMbelow l -> Owned l t s H -> 0 <= vpn -> vpn + pages < 2 ^ 63 -> 0 < pages -> no_straddle l (pmem s) t vpn pages ->
  exists s1 H1 k, rphase1 l s t vpn pages = Done (s1, vpn + k, pages - k) /\ 0 <= k <= pages /\
    (k = pages \/ (vpn + k) mod big l = 0) /\ (vpn mod big l = 0 -> k = 0) /\ Rem l t s H s1 H1 /\ removed l t s s1 vpn k.
Proof.
  intros IH HO Hv0 Hv1 Hn Hns. unfold rphase1. rewrite land_big.
  pose proof (big_pos l) as HD. pose proof (Z.mod_pos_bound vpn (big l) HD) as Hu. zeq E0.
  { exists s, H, 0. rewrite Z.add_0_r, Z.sub_0_r. split; [done|]. split; [lia|]. split; [by right|]. split; [done|].
    split; [by apply Rem_refl|]. intros v _. split; [lia|done]. }
  rewrite kmin_spec. set (n := Z.min (big l - vpn mod big l) pages).
  destruct (part_phase l s s t vpn pages vpn n H) as (s1 & H1 & -> & R & M); auto; try lia.
  cbn [obind]. rewrite u64_small by lia. exists s1, H1, n. split; [done|]. split; [lia|]. split; [|done].
  destruct (Z.le_gt_cases pages (big l - vpn mod big l)); [left; lia|right].
  replace (vpn + n) with ((vpn / big l + 1) * big l); [apply Z.mod_mul; lia|].
  pose proof (Z.div_mod vpn (big l) ltac:(lia)). lia.
Qed.

Lemma rphase2_ok l (s : PT A) t a n H :
  RMbelow l -> Owned l t s H -> 0 <= a -> 0 < n -> a + n < 2 ^ 63 -> a mod big l = 0 -> a mod big (S l) + n <= big (S l) ->
  let w := n / big l in
  exists s' H', remove_whole pfree (Z.to_nat w) (rbelow l) s t (Z.land (a / big l) vpnMask) a (big l) = Done s' /\
    Rem l t s H s' H' /\ removed l t s s' a (w * big l) /\ (n = big (S l) -> empty_node (pmem s') t).
Proof.
  intros IH HO Ha Hn Hv1 Hal Hs w. pose proof (big_pos l) as HD.
  pose proof (idx_room l a n Ha Hal Hn Hs) as Hi. rewrite idx_land by lia.
  assert (Hw : 0 <= w /\ w * big l <= n).
  { subst w. pose proof (Z.div_mod n (big l) ltac:(lia)). pose proof (Z.mod_pos_bound n (big l) HD).
    split; [apply Z.div_pos; lia|lia]. }
  assert (Hroom : Z.of_nat (idx l a) + w <= 512).
  { rewrite big_S in Hs at 2. apply (Z.mul_le_mono_pos_r _ _ (big l)); lia. }
  destruct (whole_removed (Z.to_nat w) l s t (idx l a) a H) as (s' & H' & -> & R & _ & W1 & W2); auto; [lia|nia|].
  exists s', H'. split; [done|]. split; [done|]. split.
  - intros v Es. pose proof (idx_diff l a v Es Hal) as Hd. pose proof (Z.mod_pos_bound v (big l) HD).
    assert (Hvm : v - v mod big l = big l * (v / big l)) by (pose proof (Z.div_mod v (big l) ltac:(lia)); lia).
    assert (Ham : a = big l * (a / big l)) by (pose proof (Z.div_mod a (big l) ltac:(lia)); lia).
    split; intros Hv; [by apply (W2 (idx l v)); [nia|]|apply W1; intros Hin; apply Hv; nia].
  - intros -> es i e Hm Hie. pose proof (Z.mod_pos_bound a (big (S l)) (big_pos (S l))).
    assert (Hw' : w = 512) by (subst w; rewrite big_S; apply Z.div_mul; lia).
    assert (Hi' : idx l a = 0%nat) by nia.
    destruct (tree_unfold _ _ _ (proj1 (rm_own _ _ _ _ _ _ R))) as (es1 & E1 & Hlen & _).
    rewrite Hm in E1. injection E1 as <-. pose proof (lookup_lt_Some _ _ _ Hie).
    destruct (W2 i) as [(e1 & Ee & Hv) _]; [lia|]. unfold entry_at in Ee. rewrite Hm in Ee. cbn in Ee. congruence.
Qed.

Lemma removeMapping_step l : RMbelow l -> RM l.
Proof.
  intros IH s t vpn pages H HO Hv0 Hv1 Hn Hspan Hns. pose proof (big_pos l) as HD.
  rewrite removeMapping_phases.
  destruct (rphase1_ok l s t vpn pages H) as (s1 & H1 & k & -> & Hk & Hal & Hk0 & R1 & M1); auto. cbn [obind].
  assert (Hfull : pages = big (S l) -> k = 0).
  { intros ->. apply Hk0. pose proof (Z.mod_pos_bound vpn (big (S l)) (big_pos (S l))).
    assert (vpn mod big (S l) = 0) as E by lia. pose proof (Z.div_mod vpn (big (S l)) ltac:(pose proof (big_pos (S l)); lia)) as D.
    rewrite E, big_S in D. replace vpn with (512 * (vpn / (512 * big l)) * big l) by lia. apply Z.mod_mul. lia. }
  unfold rphase23. destruct (decide (k = pages)) as [->|Hne].
  { rewrite Z.sub_diag, Z.div_0_l by lia. cbn. exists s1, H1. split; [done|]. split; [done|]. split; [done|].
    intros E. apply Hfull in E. lia. }
  destruct Hal as [?|Hal]; [done|].
  destruct (span_same l vpn k (pages - k)) as [Esp Emod]; [lia..|].
  destruct (rphase2_ok l s1 t (vpn + k) (pages - k) H1) as (s2 & H2 & -> & R2 & M2 & Hem); auto; [apply R1|lia..|].
  cbn [obind]. set (w := (pages - k) / big l) in *.
  assert (Hw : 0 <= w /\ 0 <= pages - k - w * big l < big l).
  { subst w. pose proof (Z.div_mod (pages - k) (big l) ltac:(lia)).
    pose proof (Z.mod_pos_bound (pages - k) (big l) HD). split; [apply Z.div_pos; lia|lia]. }
  rewrite (u64_small (vpn + k + w * big l)) by nia.
  assert (M12 : removed l t s s2 vpn (k + w * big l)) by (apply (removed_trans l t s s1 s2); auto; nia).
  pose proof (Rem_trans _ _ _ _ _ _ _ _ R1 R2) as R12.
  zeq E0.
  { exists s2, H2. split; [done|]. split; [done|]. split; [by replace (k + w * big l) with pages in M12 by lia|].
    intros E. apply Hem. rewrite (Hfull E) in *. lia. }
  destruct (span_same l vpn (k + w * big l) (pages - k - w * big l)) as [Esp2 _]; [lia|nia|lia|nia|].
  rewrite Z.add_assoc in Esp2. set (a := vpn + k + w * big l) in *.
  assert (Hala : a mod big l = 0) by (subst a; rewrite Z.mod_add by lia; done).
  destruct (part_phase l s s2 t vpn pages a (pages - k - w * big l) H2) as (s' & H' & -> & R3 & M3); auto; try (subst a; nia).
  { apply R2. }
  { intros v Ev. apply (M12 v).
    - rewrite <- Esp2, !big_S, !(Z.mul_comm 512), <- !Z.div_div by lia. by rewrite Ev.
    - apply div_range in Ev; [|done]. subst a. lia. }
  exists s', H'. split; [done|]. split; [by eapply Rem_trans|]. split.
  - replace pages with ((k + w * big l) + (pages - k - w * big l)) by lia.
    apply (removed_trans l t s s2 s'); auto; [nia|lia|by rewrite Z.add_assoc|by rewrite Z.add_assoc].
  - intros E. exfalso. assert (Ep : pages - k = 512 * big l) by (rewrite (Hfull E), E, big_S; lia).
    apply E0. subst w. rewrite Ep, Z.div_mul by lia. lia.
Qed.
Lemma removeMapping_RM l : RM l.
Proof. induction l as [|l IH]; by apply removeMapping_step. Qed.

(** ** The theorem *)

(** No node below the root is empty. *)
Definition tidy (l : nat) (m : gmap Z (list Z)) (t : Z) : Prop := forall u, inn l m t u -> u <> t -> used m u.

(** A tidy table that is used translates some page of its span. *)
Lemma used_walk l m : forall t k,
  0 <= k -> tree l m t -> (forall u, inn l m t u -> used m u) -> exists v, v / big (S l) = k /\ 0 <= v /\ walk l m t v <> None.
Proof.
  induction l as [|l IH]; intros t k Hk Ht Hu;
    destruct (Hu t (inn_self _ _ _)) as (es & i & e & Hm & Hi & Hv);
    destruct (tree_unfold _ _ _ Ht) as (es1 & E1 & Hlen & Hes & _); rewrite Hm in E1; injection E1 as <-;
    pose proof (lookup_lt_Some _ _ _ Hi) as Hlt.
  - assert (Hl : isLeaf e = true).
    { destruct (isLeaf e) eqn:E; [done|]. destruct (Hes i e Hi) as [[_ Hn] _]. destruct Hn. unfold is_node. by rewrite Hv, E. }
    exists (k * 512 + Z.of_nat i). change (big 1) with 512.
    split; [rewrite Z.div_add_l by lia; rewrite Z.div_small; lia|]. split; [lia|].
    rewrite (walk_entry 0 m t _ es e Hm); [unfold ewalk; by rewrite Hv, Hl|].
    rewrite <- Hi. f_equal. unfold idx. change (big 0) with 1. rewrite Z.div_1_r, Z.add_comm, Z.mod_add, Z.mod_small by lia. lia.
  - pose proof (big_pos (S l)) as HD.
    assert (Hw : forall v, v / big (S l) = k * 512 + Z.of_nat i -> v / big (S (S l)) = k /\ walk (S l) m t v = ewalk (S l) m e v).
    { intros v Ev. split.
      - rewrite (big_S (S l)), (Z.mul_comm 512), <- Z.div_div, Ev, Z.div_add_l, Z.div_small by lia. lia.
      - apply (walk_entry (S l) m t _ es e Hm). rewrite <- Hi. f_equal. unfold idx. rewrite Ev, Z.add_comm, Z.mod_add, Z.mod_small by lia. lia. }
    destruct (isLeaf e) eqn:Hl.
    + exists ((k * 512 + Z.of_nat i) * big (S l)). destruct (Hw ((k * 512 + Z.of_nat i) * big (S l))) as [E1 E2]; [apply Z.div_mul; lia|].
      split; [done|]. split; [nia|]. rewrite E2. unfold ewalk. by rewrite Hv, Hl.
    + assert (Hn : is_node e = true) by (unfold is_node; by rewrite Hv, Hl).
      destruct (IH (entry_ppn e) (k * 512 + Z.of_nat i)) as (v & Ev & Hv0 & Hvw); [lia|by apply (Hes i e Hi)| |].
      { intros u Hin. apply Hu, (inn_entry _ _ _ es); [done|]. right. exists i, e. by repeat split. }
      destruct (Hw v Ev) as [E1 E2]. exists v. split; [done|]. split; [done|]. rewrite E2. unfold ewalk. by rewrite Hv, Hl.
Qed.
Lemma tidy_alone m t :
  tree 2 m t -> tidy 2 m t -> (forall v, 0 <= v < 2 ^ 27 -> walk 2 m t v = None) -> forall u, inn 2 m t u -> u = t.
Proof.
  intros Ht Htd Hw u Hu. destruct (tree_unfold _ _ _ Ht) as (es & Hm & Hlen & Hes & _).
  destruct (proj1 (inn_entry 2 m t es u Hm) Hu) as [?|(i & e & Hi & Hn & Hu')]; [done|exfalso].
  pose proof (lookup_lt_Some _ _ _ Hi) as Hlt. destruct (Hes i e Hi) as [[_ Hsub] Hnt].
  destruct (used_walk 1 m (entry_ppn e) (Z.of_nat i)) as (v & Ev & Hv0 & Hv); [lia|by apply Hsub| |].
  { intros w Hin. apply Htd; [|intros ->; apply Hnt; by split]. apply (inn_entry _ _ _ es); [done|]. right. exists i, e. by repeat split. }
  apply Hv. change (big 2) with (2 ^ 18) in Ev. pose proof (Z.div_mod v (2 ^ 18) ltac:(lia)) as D.
  pose proof (Z.mod_pos_bound v (2 ^ 18) ltac:(lia)). specialize (Hw v ltac:(lia)).
  assert (Hidx : idx 2 v = i).
  { unfold idx. change (big 2) with (2 ^ 18). rewrite Ev, Z.mod_small by lia. lia. }
  rewrite (walk_entry 2 m t v es e Hm) in Hw by by rewrite Hidx.
  unfold ewalk in Hw. unfold is_node in Hn. by destruct (isValid e), (isLeaf e).
Qed.

(** C4. removeMapping on a root table always ends when no big page lies across
    the border of the range: afterwards no page of the range is translated and
    every other page is translated as before; a node of the table is given back
    to the allocator exactly when it is no node any more, and nothing else is
    given back; no empty node is left behind, so that a table from which the
    last translation was removed consists of its root only. *)
Theorem removeMapping_exact s root vpn pages H :
  Owned 2 root s H -> 0 <= vpn -> 0 < pages -> vpn + pages <= 2 ^ 27 -> no_straddle 2 (pmem s) root vpn pages ->
  exists s' H', removeMapping pfree 2 s root vpn pages = Done s' /\ Owned 2 root s' H' /\
    (forall v, vpn <= v < vpn + pages -> trans s' root v = Panic) /\
    (forall v, 0 <= v < 2 ^ 27 -> ~ vpn <= v < vpn + pages -> trans s' root v = trans s root v) /\
    H' ⊆ H /\ (forall u, u ∈ H -> u ∉ H' -> inn 2 (pmem s) root u /\ ~ inn 2 (pmem s') root u) /\
    (forall u, inn 2 (pmem s) root u -> inn 2 (pmem s') root u \/ u ∉ H') /\
    (tidy 2 (pmem s) root -> tidy 2 (pmem s') root /\
      ((forall v, 0 <= v < 2 ^ 27 -> trans s' root v = Panic) -> forall u, inn 2 (pmem s') root u -> u = root)).
Proof.
  intros HO Hv0 Hn Hv1 Hns. destruct (sv39_span vpn) as [S1 S2]; [lia|].
  destruct (removeMapping_RM 2 s root vpn pages H HO Hv0 ltac:(lia) Hn) as (s' & H' & -> & R & M & _); auto.
  { rewrite S2. change (big 3) with (2 ^ 27). lia. }
  pose proof (rm_own _ _ _ _ _ _ R) as HO'. pose proof (proj1 HO) as T. pose proof (proj1 HO') as T'.
  exists s', H'. split; [done|]. split; [done|]. split; [|split; [|split; [apply R|split; [|split; [apply R|]]]]].
  - intros v Hv. rewrite trans_walk by (done || lia). destruct (M v) as [-> _]; [|done|done].
    rewrite S1. apply sv39_span. lia.
  - intros v Hv Hv2. rewrite !trans_walk by (done || lia). destruct (M v) as [_ ->]; [|done|done].
    rewrite S1. by apply sv39_span.
  - intros u Hu Hx. destruct (rm_gone _ _ _ _ _ _ R u Hu Hx) as [? Hne]. split; [done|]. intros Hi. by apply Hx, HO'.
  - intros Htd. assert (Htd' : tidy 2 (pmem s') root).
    { intros u Hu Hne. apply R; [done..|]. apply Htd; [by apply R|done]. }
    split; [done|]. intros Hall. apply tidy_alone; [done..|]. intros v Hv. specialize (Hall v Hv).
    rewrite trans_walk in Hall by (done || lia). by destruct (walk 2 _ root v) as [[[] ?]|].
Qed.
End Remove.

(** ** Witness: a table with one node, allocated from the buddy allocator *)
Definition ex_a : Buddy.Buddy.PageMgr := Eval vm_compute in
  match Buddy.Buddy.alloc PageAlloc.ex_s 1 with Done (_, a) => a | _ => PageAlloc.ex_s end.
Definition ex_leaf : Z := setPPN (setPerm (setValid 0) 15) 5120.
Definition ex_entry : Z := setPPN (setValid 0) 104.
Definition ex_m1 : gmap Z (list Z) := <[50 := replicate 512 0]> (<[104 := <[3%nat := ex_leaf]> (replicate 512 0)]> ∅).
Definition ex_m : gmap Z (list Z) := <[50 := <[0%nat := ex_entry]> (replicate 512 0)]> ex_m1.
Definition ex_pt1 : PT Buddy.Buddy.PageMgr := mkPT ex_m ex_a.

Lemma ex_held : PagePool.pool_ok 6 ex_a {[104]}.
Proof.
  destruct (PagePool.pool_alloc 6 PageAlloc.ex_s ∅) as (q & a & E & _ & Hp).
  - exact (PagePool.pool_new 7 100 106 2 _ PageAlloc.ex_range PageAlloc.ex_built).
  - done.
  - assert (E1 : Buddy.Buddy.alloc PageAlloc.ex_s 1 = Done (104, ex_a)) by (vm_compute; reflexivity).
    rewrite E1 in E. injection E as <- <-. by rewrite union_empty_r_L in Hp.
Qed.
Lemma ex_table :
  tree 2 ex_m 50 /\ (forall u, inn 2 ex_m 50 u -> u = 50 \/ u = 104) /\
  forall v lv p q, walk 2 ex_m 50 v = Some (lv, p, q) -> idx 2 v = 0%nat /\ idx 1 v = 3%nat /\ lv = 1%nat.
Proof.
  set (m0 := <[50 := replicate 512 0]> (<[104 := replicate 512 0]> (∅ : gmap Z (list Z)))).
  assert (L1 : isValid ex_leaf = true) by reflexivity. assert (L2 : isLeaf ex_leaf = true) by reflexivity.
  assert (L3 : entry_ppn ex_entry = 104) by reflexivity. assert (Ln : is_node ex_entry = true) by reflexivity.
  assert (Hz : forall l m i e u, replicate 512 0 !! i = Some e -> ~ einn l m e u).
  { intros l m i e u [-> _]%lookup_replicate. apply not_node. by left. }
  assert (Hl : forall l m u, ~ einn l m ex_leaf u) by (intros; apply not_node; by right).
  destruct (zeros_tree 1 m0 104) as (T0 & I0 & W0); [reflexivity|].
  destruct (retable 1 m0 ex_m 104 (replicate 512 0) 3 ex_leaf) as (T1 & I1 & V1 & V2); auto; try done; try lia.
  { intros i e u _ Hi Hu. by destruct (Hz _ _ i e u Hi Hu). }
  assert (A1 : forall u, inn 1 ex_m 104 u -> u = 104).
  { intros u Hu. destruct (I1 u Hu) as [Hx|Hx]; [by apply I0|by apply Hl in Hx]. }
  destruct (zeros_tree 2 ex_m1 50) as (T2 & I2 & W2); [reflexivity|].
  destruct (retable 2 ex_m1 ex_m 50 (replicate 512 0) 0 ex_entry) as (T3 & I3 & V3 & V4); auto; try done; try lia.
  { intros i e u _ Hi Hu. by destruct (Hz _ _ i e u Hi Hu). }
  { intros [_ Hx]. rewrite L3 in Hx. by apply A1 in Hx. }
  { intros i e u _ Hi Hu. by destruct (Hz _ _ i e u Hi Hu). }
  split; [done|]. split.
  - intros u Hu. destruct (I3 u Hu) as [Hx|[_ Hx]]; [left; by apply I2|]. rewrite L3 in Hx. right. by apply A1.
  - intros v lv p q W. destruct (decide (idx 2 v = 0%nat)) as [E2|E2]; [|by rewrite V3, W2 in W].
    rewrite (V4 v E2) in W. unfold ewalk in W. change (isValid ex_entry) with true in W.
    change (isLeaf ex_entry) with false in W. rewrite L3 in W. cbv iota in W.
    destruct (decide (idx 1 v = 3%nat)) as [E1|E1]; [|by rewrite V1, W0 in W].
    rewrite (V2 v E1) in W. unfold ewalk in W. rewrite L1, L2 in W. by injection W as <- _ _.
Qed.
Lemma ex_place v : 0 <= v < 2 ^ 27 -> idx 2 v = 0%nat -> idx 1 v = 3%nat -> v - v mod 512 = 1536.
Proof.
  intros Hv E2 E1. unfold idx in E1, E2. change (big 1) with 512 in *. change (big 2) with (2 ^ 18) in *.
  pose proof (Z.div_mod v (2 ^ 18) ltac:(lia)). pose proof (Z.mod_pos_bound v (2 ^ 18) ltac:(lia)).
  pose proof (Z.div_mod v 512 ltac:(lia)). pose proof (Z.mod_pos_bound v 512 ltac:(lia)).
  rewrite (Z.mod_small (v / 2 ^ 18)) in E2 by (split; [apply Z.div_pos; lia|apply Z.div_lt_upper_bound; lia]).
  rewrite (Z.mod_small (v / 512)) in E1 by (split; [apply Z.div_pos; lia|apply Z.div_lt_upper_bound; lia]). lia.
Qed.
Lemma ex_straddle : no_straddle 2 ex_m 50 1536 512.
Proof.
  intros v lv p q Ev W. apply ex_table in W as (E2 & E1 & ->). unfold clear. change (big 1) with 512.
  rewrite (ex_place v); [lia| |done|done]. change (big 3) with (2 ^ 27) in Ev. change (1536 / 2 ^ 27) with 0 in Ev.
  pose proof (Z.div_mod v (2 ^ 27) ltac:(lia)). pose proof (Z.mod_pos_bound v (2 ^ 27) ltac:(lia)). lia.
Qed.
Lemma removeMapping_exact_witness :
  trans ex_pt1 50 1600 = Done 5184 /\
  exists s' H', removeMapping Buddy.Buddy.free 2 ex_pt1 50 1536 512 = Done s' /\ Owned (PagePool.pool_ok 6) 2 50 s' H' /\
    trans s' 50 1600 = Panic /\ (forall u, inn 2 (pmem s') 50 u -> u = 50) /\ 104 ∉ H'.
Proof.
  split; [vm_compute; reflexivity|].
  destruct (removeMapping_exact Buddy.Buddy.free (PagePool.pool_ok 6) ex_pt1 50 1536 512 {[104]}) as
    (s' & H' & E & O & P1 & P2 & P3 & P4 & P5 & P6).
  - destruct ex_table as (T & I & _). split; [exact T|]. split; [exact ex_held|].
    intros u Hu Hne. destruct (I u Hu); [done|]. by apply elem_of_singleton.
  - lia.
  - lia.
  - lia.
  - exact ex_straddle.
  - assert (Ht : tidy 2 (pmem ex_pt1) 50).
    { intros u Hu Hne. destruct ex_table as (_ & I & _). destruct (I u Hu) as [?| ->]; [done|].
      exists (<[3%nat := ex_leaf]> (replicate 512 0)), 3%nat, ex_leaf. split; [reflexivity|]. split; reflexivity. }
    destruct (P6 Ht) as [_ P7]. assert (Hall : forall v, 0 <= v < 2 ^ 27 -> trans s' 50 v = Panic).
    { intros v Hv. destruct (decide (1536 <= v < 1536 + 512)) as [Hi|Hi]; [by apply P1|]. rewrite (P2 v Hv Hi).
      rewrite trans_walk by (apply ex_table || lia). destruct (walk 2 (pmem ex_pt1) 50 v) as [[[lv p] q]|] eqn:W; [|done].
      destruct ex_table as (_ & _ & I). destruct (I _ _ _ _ W) as (E2 & E1 & _).
      pose proof (ex_place v Hv E2 E1). pose proof (Z.mod_pos_bound v 512 ltac:(lia)). lia. }
    exists s', H'. split; [exact E|]. split; [exact O|]. split; [apply P1; lia|]. split; [exact (P7 Hall)|].
    destruct (P5 104) as [Hx|Hx]; [|by apply (P7 Hall) in Hx|exact Hx].
    apply (inn_entry 2 _ 50 (<[0%nat := ex_entry]> (replicate 512 0))); [reflexivity|]. right.
    exists 0%nat, ex_entry. split; [reflexivity|]. split; [reflexivity|]. apply inn_self.
Defined.

End PtUnmap.
