(* ===== verification/Fat.v ===== *)
(** * Fat: FAT32 volumes and files (include/fat.hh, kernel/fs/fat.cc)

    The disk behind the block cache is a map from (device, sector) to the 512
    bytes of the sector; a sector that was never written is zero. Every access
    of the driver goes through [bcache[{dev,sec}]], which is [dget] and [dput]
    here. Addresses of kernel buffers become the bytes at them: an operation
    that fills a buffer returns its new contents. One volume is mounted: its
    superblock is the parameter [sb]. *)

From S2P Require Import Prelude Bytes.
Local Open Scope Z_scope.

Module Fat.

Definition ATTR_READ_ONLY : Z := 1.
Definition ATTR_SYSTEM : Z := 4.
Definition ATTR_DIRECTORY : Z := 16.
Definition ATTR_ARCHIVE : Z := 32.
Definition ATTR_LONG_NAME : Z := 15.
Definition ATTR_LINK : Z := 64.
Definition LAST_LONG_ENTRY : Z := 64.
Definition FAT32_EOC : Z := 268435448.
Definition EMPTY_ENTRY : Z := 229.
Definition END_OF_ENTRY : Z := 0.
Definition CHAR_LONG_NAME : Z := 13.
Definition CHAR_SHORT_NAME : Z := 11.
Definition ENTRY_CACHE_NUM : nat := 100.
Definition FAT32_MAX_FILENAME : Z := 255.
Definition blockSize : Z := 512.
Definition has (attr mask : Z) : bool := negb (Z.land attr mask =? 0).

(** ** Sectors *)
Definition zeros : list Z := replicate 512 0.
Definition dget (d : gmap (Z * Z) (list Z)) (k : Z * Z) : list Z := default zeros (d !! k).
Definition dput (d : gmap (Z * Z) (list Z)) (k : Z * Z) (b : list Z) : gmap (Z * Z) (list Z) := <[k := b]> d.

(** ** The BIOS parameter block and the superblock *)
Record BPB : Type := mkBPB {
  byts_per_sec : Z; sec_per_clus : Z; rsvd_sec_cnt : Z; fat_cnt : Z;
  hidd_sec : Z; tot_sec : Z; fat_sz : Z; root_clus : Z
}.
Definition BPB_of (blk : list Z) : BPB :=
  mkBPB (get16 blk 11) (vat blk 13) (get16 blk 14) (vat blk 16)
    (get32 blk 28) (get32 blk 32) (get32 blk 36) (get32 blk 44).

Record SuperBlock : Type := mkSuper {
  dev : Z; first_data_sec : Z; data_sec_cnt : Z; data_clus_cnt : Z; byts_per_clus : Z; bpb : BPB
}.
Definition SuperBlock_of (a_dev : Z) (b : BPB) : outcome SuperBlock :=
  let fds := u32 (rsvd_sec_cnt b + fat_cnt b * fat_sz b) in
  let dsc := u32 (tot_sec b - fds) in
  if sec_per_clus b =? 0 then Undef
  else Done (mkSuper a_dev fds dsc (dsc / sec_per_clus b) (sec_per_clus b * byts_per_sec b) b).
(** FileSystem::ldSpBlk: the boot sector of the device, and the check of the
    sector size. *)
Definition ldSpBlk (d : gmap (Z * Z) (list Z)) (a_dev : Z) : outcome SuperBlock :=
  let* s := SuperBlock_of a_dev (BPB_of (dget d (a_dev, 0))) in
  if negb (blockSize =? byts_per_sec (bpb s)) then Panic else Done s.

(** ** Directory entries in memory *)
Record DirEnt : Type := mkDirEnt {
  filename : list Z;
  attribute : Z;
  first_clus : Z;
  file_size : Z;
  cur_clus : Z;
  clus_cnt : Z;
  dirty : bool;
  valid : Z;
  ref : Z;
  off : Z;
  parent : option nat;
  next : nat;
  prev : nat;
  times : (Z * Z) * (Z * Z) * (Z * Z)
}.
Definition set_clus (e : DirEnt) (cur cnt : Z) : DirEnt :=
  mkDirEnt (filename e) (attribute e) (first_clus e) (file_size e) cur cnt (dirty e) (valid e) (ref e)
    (off e) (parent e) (next e) (prev e) (times e).
Definition set_first (e : DirEnt) (attr fst : Z) : DirEnt :=
  mkDirEnt (filename e) attr fst (file_size e) (cur_clus e) (clus_cnt e) (dirty e) (valid e) (ref e)
    (off e) (parent e) (next e) (prev e) (times e).
Definition set_size (e : DirEnt) (sz : Z) (dt : bool) : DirEnt :=
  mkDirEnt (filename e) (attribute e) (first_clus e) sz (cur_clus e) (clus_cnt e) dt (valid e) (ref e)
    (off e) (parent e) (next e) (prev e) (times e).

Section Volume.
Context (sb : SuperBlock).
Notation disk := (gmap (Z * Z) (list Z)).

Definition rBPS : Z := byts_per_sec (bpb sb).
Definition rSPC : Z := sec_per_clus (bpb sb).
Definition rRSC : Z := rsvd_sec_cnt (bpb sb).
Definition rFS : Z := fat_sz (bpb sb).
Definition rBPC : Z := byts_per_clus sb.
Definition rDCC : Z := data_clus_cnt sb.

Definition firstSec (c : Z) : Z := u32 (u32 (c - 2) * rSPC + first_data_sec sb).
Definition numthSec (c n : Z) : Z := u32 (rRSC + u32 (Z.shiftl c 2) / rBPS + rFS * (n - 1)).
Definition secOffset (c : Z) : Z := u32 (Z.shiftl c 2) mod rBPS.

(** SuperBlock::rwClus on a kernel buffer [buf]: the copies never fail. *)
Fixpoint rw_loop (fuel : nat) (d : disk) (iswrite : bool) (buf : list Z) (tot o sec len : Z)
  : outcome (Z * list Z * disk) :=
  if tot <? len then
    match fuel with
    | O => Diverge
    | S f =>
        let blk := dget d (dev sb, sec) in
        let m0 := blockSize - o mod blockSize in
        let m := if len - tot <? m0 then len - tot else m0 in
        if iswrite then
          rw_loop f (dput d (dev sb, sec) (splice blk (o mod blockSize) (slice buf tot m))) iswrite buf
            (tot + m) (u32 (o + m)) (u32 (sec + 1)) len
        else
          rw_loop f d iswrite (splice buf tot (slice blk (o mod blockSize) m))
            (tot + m) (u32 (o + m)) (u32 (sec + 1)) len
    end
  else Done (tot, buf, d).
Definition rwClus (d : disk) (c : Z) (iswrite : bool) (buf : list Z) (o len : Z)
  : outcome (Z * list Z * disk) :=
  if rBPC <? u32 (o + len) then Panic
  else if zlen buf <? len then Undef
  else rw_loop (S (Z.to_nat len)) d iswrite buf 0 (o mod rBPS) (u32 (firstSec c + o / rBPS)) len.

Definition fatRead (d : disk) (c : Z) : outcome Z :=
  if FAT32_EOC <=? c then Done c
  else if u32 (rDCC + 1) <? c then Done 0
  else if blockSize <? secOffset c + 4 then Undef
  else Done (get32 (dget d (0, numthSec c 1)) (secOffset c)).
Definition fatWrite (d : disk) (c content : Z) : outcome (Z * disk) :=
  if u32 (rDCC + 1) <? c then Done (-1, d)
  else if blockSize <? secOffset c + 4 then Undef
  else
    let k := (0, numthSec c 1) in
    Done (0, dput d k (splice (dget d k) (secOffset c) (le32 content))).
Definition freeClus (d : disk) (c : Z) : outcome disk := let* (_, d') := fatWrite d c 0 in Done d'.

Fixpoint clear_secs (n : nat) (d : disk) (sec : Z) : disk :=
  match n with O => d | S n' => clear_secs n' (dput d (0, sec) zeros) (u32 (sec + 1)) end.
Definition clearClus (d : disk) (c : Z) : disk := clear_secs (Z.to_nat rSPC) d (firstSec c).

(** DirEnt::allocClus: the first zero entry of the first FAT. *)
Fixpoint find_zero (n : nat) (blk : list Z) (j : Z) : option Z :=
  match n with
  | O => None
  | S n' => if get32 blk (4 * j) =? 0 then Some j else find_zero n' blk (j + 1)
  end.
Fixpoint alloc_loop (n : nat) (d : disk) (i sec : Z) : outcome (Z * disk) :=
  match n with
  | O => Panic
  | S n' =>
      let blk := dget d (dev sb, sec) in
      match find_zero (Z.to_nat (rBPS / 4)) blk 0 with
      | Some j =>
          let d1 := dput d (dev sb, sec) (splice blk (4 * j) (le32 (FAT32_EOC + 7))) in
          let clus := u32 (i * (rBPS / 4) + j) in
          Done (clus, clearClus d1 clus)
      | None => alloc_loop n' d (i + 1) (u32 (sec + 1))
      end
  end.
Definition allocClus (d : disk) : outcome (Z * disk) := alloc_loop (Z.to_nat rFS) d 0 rRSC.

(** DirEnt::relocClus: forward along the chain from the current cluster ([n]
    steps), or again from the first one. *)
Fixpoint reloc_fwd (n : nat) (d : disk) (e : DirEnt) (alloc : bool) : outcome (bool * DirEnt * disk) :=
  match n with
  | O => Done (true, e, d)
  | S n' =>
      let* c := fatRead d (cur_clus e) in
      if FAT32_EOC <=? i32 c then
        if alloc then
          let* (c', d1) := allocClus d in
          let* (_, d2) := fatWrite d1 (cur_clus e) c' in
          reloc_fwd n' d2 (set_clus e c' (clus_cnt e + 1)) alloc
        else Done (false, set_clus e (first_clus e) 0, d)
      else reloc_fwd n' d (set_clus e c (clus_cnt e + 1)) alloc
  end.
Fixpoint reloc_again (n : nat) (d : disk) (e : DirEnt) : outcome DirEnt :=
  match n with
  | O => Done e
  | S n' =>
      let* c := fatRead d (cur_clus e) in
      if FAT32_EOC <=? c then Panic else reloc_again n' d (set_clus e c (clus_cnt e + 1))
  end.
Definition relocClus (d : disk) (e : DirEnt) (a_off : Z) (alloc : bool) : outcome (Z * DirEnt * disk) :=
  if rBPC =? 0 then Undef
  else
    let clus_num := a_off / rBPC in
    let* (ok, e1, d1) := reloc_fwd (Z.to_nat (clus_num - clus_cnt e)) d e alloc in
    if negb ok then Done (-1, e1, d1)
    else
      let* e2 := (if clus_num <? clus_cnt e1
                  then reloc_again (Z.to_nat clus_num) d1 (set_clus e1 (first_clus e1) 0)
                  else Done e1) in
      Done (a_off mod rBPC, e2, d1).

(** A link entry holds the directory entry it stands for in its cluster. *)
Definition follow_link (d : disk) (e : DirEnt) : outcome DirEnt :=
  if has (attribute e) ATTR_LINK then
    let* (_, li, _) := rwClus d (first_clus e) false (replicate 36 0) 0 36 in
    Done (set_first e (vat li 11) (u32 (u32 (Z.shiftl (get16 li 20) 16) + get16 li 26)))
  else Done e.

(** DirEnt::entRead; [buf] is the destination. *)
Fixpoint read_loop (fuel : nat) (d : disk) (e : DirEnt) (buf : list Z) (tot o len : Z)
  : outcome (Z * list Z * DirEnt) :=
  if (cur_clus e <? FAT32_EOC) && (tot <? len) then
    match fuel with
    | O => Diverge
    | S f =>
        let* (_, e1, d1) := relocClus d e o false in
        let m0 := rBPC - o mod rBPC in
        let m := if len - tot <? m0 then len - tot else m0 in
        let* (r, bs, _) := rwClus d1 (cur_clus e1) false (slice buf tot m) (o mod rBPC) m in
        if negb (r =? m) then Done (tot, splice buf tot bs, e1)
        else read_loop f d1 e1 (splice buf tot bs) (tot + m) (u32 (o + m)) len
    end
  else Done (tot, buf, e).
Definition entRead (d : disk) (e : DirEnt) (buf : list Z) (a_off a_len : Z) : outcome (Z * list Z * DirEnt) :=
  if (file_size e <? a_off) || (u32 (a_off + a_len) <? a_off) || has (attribute e) ATTR_DIRECTORY
  then Done (0, buf, e)
  else
    let* e1 := follow_link d e in
    let len := if file_size e1 <? u32 (a_off + a_len) then u32 (file_size e1 - a_off) else a_len in
    read_loop (S (Z.to_nat len)) d e1 buf 0 a_off len.

(** DirEnt::entWrite; [buf] is the source. *)
Fixpoint write_loop (fuel : nat) (d : disk) (e : DirEnt) (buf : list Z) (tot o len : Z)
  : outcome (Z * Z * DirEnt * disk) :=
  if tot <? len then
    match fuel with
    | O => Diverge
    | S f =>
        let* (_, e1, d1) := relocClus d e o true in
        let m0 := rBPC - o mod rBPC in
        let m := if len - tot <? m0 then len - tot else m0 in
        let* (r, _, d2) := rwClus d1 (cur_clus e1) true (slice buf tot m) (o mod rBPC) m in
        if negb (r =? m) then Done (tot, o, e1, d2)
        else write_loop f d2 e1 buf (tot + m) (u32 (o + m)) len
    end
  else Done (tot, o, e, d).
Definition entWrite (d : disk) (e : DirEnt) (buf : list Z) (a_off a_len : Z) : outcome (Z * DirEnt * disk) :=
  if (file_size e <? a_off) || (u32 (a_off + a_len) <? a_off) || (4294967295 <? a_off + a_len)
     || has (attribute e) ATTR_READ_ONLY
  then Done (-1, e, d)
  else
    let* e1 := follow_link d e in
    let* (e2, d1) :=
      (if first_clus e1 =? 0 then
         let* (c, d1) := allocClus d in
         Done (set_size (set_clus (set_first e1 (attribute e1) c) c 0) (file_size e1) true, d1)
       else Done (e1, d)) in
    let* (tot, o, e3, d2) := write_loop (S (Z.to_nat a_len)) d1 e2 buf 0 a_off a_len in
    if (0 <? a_len) && (file_size e3 <? o) then Done (tot, set_size e3 o true, d2)
    else Done (tot, e3, d2).

(** DirEnt::entTrunc: every cluster of the chain is freed; a chain has at most
    as many clusters as the volume. *)
Fixpoint trunc_loop (fuel : nat) (d : disk) (c : Z) : outcome disk :=
  if (2 <=? c) && (c <? FAT32_EOC) then
    match fuel with
    | O => Diverge
    | S f => let* nx := fatRead d c in let* d1 := freeClus d c in trunc_loop f d1 nx
    end
  else Done d.
Definition entTrunc (d : disk) (e : DirEnt) : outcome (DirEnt * disk) :=
  let* d1 := (if has (attribute e) ATTR_LINK then Done d
              else trunc_loop (S (Z.to_nat rDCC)) d (first_clus e)) in
  Done (set_size (set_first e (attribute e) 0) 0 true, d1).

End Volume.

End Fat.
