(* ===== verification/FatFile.v ===== *)
(** * FatFile: correctness of the FAT32 file operations of [Fat]

    The volume is seen through two views: [fat d c], the FAT entry of cluster
    [c], and [cbyte d c i], byte [i] of cluster [c]. Every primitive of the
    driver is characterised by what it does to these two views; a file is a
    chain of clusters, and reading and writing it are characterised by its
    contents. *)

From S2P Require Import Prelude Bytes Fat.
Local Open Scope Z_scope.

Module FatFile.
Import Fat.

Notation disk := (gmap (Z * Z) (list Z)).

(** ** Bytes by linear address on device 0 *)
Definition byte (d : disk) (a : Z) : Z := vat (dget d (0, a / 512)) (a mod 512).
Definition word (d : disk) (a : Z) : Z :=
  byte d a + 256 * byte d (a + 1) + 65536 * byte d (a + 2) + 16777216 * byte d (a + 3).

Definition disk_ok (d : disk) : Prop := forall k, zlen (dget d k) = 512.

Lemma disk_ok_put d k b : disk_ok d -> zlen b = 512 -> disk_ok (dput d k b).
Proof.
  intros Hd Hb k'. unfold dget, dput. destruct (decide (k = k')) as [->|].
  - by rewrite lookup_insert_eq.
  - rewrite lookup_insert_ne by done. apply Hd.
Qed.

Lemma div_in s o a : 0 <= o < 512 -> a = 512 * s + o -> a / 512 = s /\ a mod 512 = o.
Proof.
  intros Ho ->. rewrite Z.add_comm, Z.mul_comm, Z.div_add, Z.mod_add, Z.div_small, Z.mod_small by lia. lia.
Qed.
Lemma div_split a : a = 512 * (a / 512) + a mod 512 /\ 0 <= a mod 512 < 512.
Proof. split; [apply Z.div_mod; lia|apply Z.mod_pos_bound; lia]. Qed.

Lemma byte_put d s b a :
  byte (dput d (0, s) b) a = if decide (a / 512 = s) then vat b (a mod 512) else byte d a.
Proof.
  unfold byte, dget, dput. case_decide as H.
  - subst s. by rewrite lookup_insert_eq.
  - rewrite lookup_insert_ne by congruence. done.
Qed.
(** Replacing [bs] at offset [o] of sector [s]. *)
Lemma byte_splice d s o bs a :
  disk_ok d -> 0 <= o -> o + zlen bs <= 512 ->
  byte (dput d (0, s) (splice (dget d (0, s)) o bs)) a =
  if decide (512 * s + o <= a < 512 * s + o + zlen bs) then vat bs (a - (512 * s + o)) else byte d a.
Proof.
  intros Hd Ho Hl. rewrite byte_put. destruct (div_split a) as [Ha Hm]. unfold byte.
  case_decide as H1.
  - rewrite vat_splice by (rewrite ?Hd; lia). subst s. repeat case_decide; try lia; try done. f_equal. lia.
  - assert (0 <= zlen bs) by (unfold zlen; lia). rewrite decide_False; [done|]. intros H2. apply H1.
    symmetry. apply (Z.div_unique a 512 s (a - 512 * s)); lia.
Qed.
Lemma get32_word d s o : 0 <= o -> o + 4 <= 512 -> get32 (dget d (0, s)) o = word d (512 * s + o).
Proof.
  intros Ho Hl. unfold get32, word, byte.
  destruct (div_in s o (512 * s + o)) as [-> ->]; [lia..|].
  destruct (div_in s (o + 1) (512 * s + o + 1)) as [-> ->]; [lia..|].
  destruct (div_in s (o + 2) (512 * s + o + 2)) as [-> ->]; [lia..|].
  by destruct (div_in s (o + 3) (512 * s + o + 3)) as [-> ->]; [lia..|].
Qed.
Lemma word_frame d d' a :
  (forall k, a <= k < a + 4 -> byte d' k = byte d k) -> word d' a = word d a.
Proof. intros H. unfold word. by rewrite !H by lia. Qed.

(** ** Volumes *)
Section Vol.
Context (sb : SuperBlock).

(** A mounted FAT32 volume on device 0: 512-byte sectors, a FAT that holds an
    entry for every cluster and lies before the data, sector and cluster
    numbers in range. *)
Record vol_ok : Prop := {
  vo_dev : dev sb = 0;
  vo_bps : rBPS sb = 512;
  vo_spc : 1 <= rSPC sb < 256;
  vo_bpc : rBPC sb = 512 * rSPC sb;
  vo_rsc : 0 <= rRSC sb;
  vo_fs : 0 <= rFS sb;
  vo_fat : rRSC sb + rFS sb <= first_data_sec sb;
  vo_dcc : 0 <= rDCC sb < 2 ^ 27;
  vo_ents : rDCC sb + 2 <= 128 * rFS sb;
  vo_data : first_data_sec sb + (rDCC sb + 4) * rSPC sb < 2 ^ 32
}.
Context (Hv : vol_ok).

Definition clus_ok (c : Z) : Prop := 2 <= c <= rDCC sb + 1.
Definition fat (d : disk) (c : Z) : Z := word d (512 * rRSC sb + 4 * c).
Definition cbase (c : Z) : Z := 512 * (first_data_sec sb + (c - 2) * rSPC sb).
Definition cbyte (d : disk) (c i : Z) : Z := byte d (cbase c + i).

Lemma spc_pos : 0 < rSPC sb.
Proof. pose proof (vo_spc Hv). lia. Qed.
Lemma firstSec_ok c : clus_ok c -> 512 * firstSec sb c = cbase c /\ 0 <= firstSec sb c /\
  firstSec sb c + rSPC sb < 2 ^ 32.
Proof.
  intros [Hc1 Hc2]. pose proof (vo_spc Hv). pose proof (vo_dcc Hv). pose proof (vo_data Hv). pose proof (vo_fat Hv).
  pose proof (vo_rsc Hv). pose proof (vo_fs Hv).
  assert ((c - 2) * rSPC sb <= (rDCC sb - 1) * rSPC sb) by (apply Z.mul_le_mono_nonneg_r; lia).
  assert (0 <= (c - 2) * rSPC sb) by (apply Z.mul_nonneg_nonneg; lia).
  unfold firstSec, cbase. rewrite (u32_small (c - 2)) by lia. rewrite u32_small by lia. lia.
Qed.

(** FAT entries lie before every cluster, distinct clusters are apart. *)
Lemma fat_before c' c : 0 <= c' -> c' < 128 * rFS sb -> clus_ok c -> 512 * rRSC sb + 4 * c' + 4 <= cbase c.
Proof.
  intros H1 H2 [H3 H4]. pose proof spc_pos. pose proof (vo_fat Hv). unfold cbase.
  assert (0 <= (c - 2) * rSPC sb) by (apply Z.mul_nonneg_nonneg; lia). lia.
Qed.
Lemma cbase_apart c c' : c < c' -> cbase c + rBPC sb <= cbase c'.
Proof.
  intros H. pose proof spc_pos. rewrite (vo_bpc Hv). unfold cbase.
  assert ((c - 2) * rSPC sb + rSPC sb <= (c' - 2) * rSPC sb); [|lia].
  transitivity ((c - 2 + 1) * rSPC sb); [lia|]. apply Z.mul_le_mono_nonneg_r; lia.
Qed.

(** ** FAT entries *)
Lemma fat_slot c : 0 <= c -> c <= rDCC sb + 1 ->
  numthSec sb c 1 = rRSC sb + c / 128 /\ secOffset sb c = 4 * (c mod 128) /\
  512 * numthSec sb c 1 + secOffset sb c = 512 * rRSC sb + 4 * c /\ 0 <= secOffset sb c <= 508.
Proof.
  intros H1 H2. pose proof (vo_dcc Hv). unfold numthSec, secOffset. rewrite (vo_bps Hv), Z.shiftl_mul_pow2 by lia.
  change (2 ^ 2) with 4. rewrite (u32_small (c * 4)) by lia. replace (c * 4) with (4 * c) by lia.
  pose proof (vo_rsc Hv). pose proof (vo_fat Hv). pose proof (vo_data Hv). pose proof (vo_ents Hv). pose proof spc_pos.
  assert (E1 : 4 * c / 512 = c / 128) by (change 512 with (4 * 128); apply Z.div_mul_cancel_l; lia).
  assert (E2 : (4 * c) mod 512 = 4 * (c mod 128)) by (change 512 with (4 * 128); rewrite Z.mul_mod_distr_l; lia).
  assert (0 <= (rDCC sb + 4) * rSPC sb) by (apply Z.mul_nonneg_nonneg; lia).
  assert (c / 128 < rFS sb) by (apply Z.div_lt_upper_bound; lia).
  assert (0 <= c / 128) by (apply Z.div_pos; lia). pose proof (vo_fs Hv).
  rewrite E1, E2. replace (rFS sb * (1 - 1)) with 0 by lia. rewrite Z.add_0_r, u32_small by lia.
  pose proof (Z.div_mod c 128 ltac:(lia)). pose proof (Z.mod_pos_bound c 128 ltac:(lia)). lia.
Qed.

Lemma fatRead_ok d c : clus_ok c -> fatRead sb d c = Done (fat d c).
Proof.
  intros [H1 H2]. destruct (fat_slot c) as (_ & _ & E3 & E4); [lia..|]. pose proof (vo_dcc Hv).
  unfold fatRead, FAT32_EOC, blockSize. rewrite (u32_small (rDCC sb + 1)) by lia.
  destruct (Z.leb_spec 268435448 c); [lia|]. destruct (Z.ltb_spec (rDCC sb + 1) c); [lia|].
  destruct (Z.ltb_spec 512 (secOffset sb c + 4)); [lia|].
  rewrite get32_word by lia. unfold fat. do 2 f_equal. lia.
Qed.

(** What a change of the disk leaves alone. *)
Definition fat_same (d d' : disk) (P : Z -> Prop) : Prop := forall c, 0 <= c < 128 * rFS sb -> P c -> fat d' c = fat d c.
Definition data_same (d d' : disk) (P : Z -> Prop) : Prop :=
  forall c i, clus_ok c -> 0 <= i < rBPC sb -> P c -> cbyte d' c i = cbyte d c i.

Lemma word_le32 d' a v :
  0 <= v < 2 ^ 32 -> (forall k, 0 <= k < 4 -> byte d' (a + k) = vat (le32 v) k) -> word d' a = v.
Proof.
  intros Hx H. rewrite <- (get32_le32 v Hx). unfold word, get32.
  rewrite <- (Z.add_0_r a) at 1. by rewrite !H by lia.
Qed.

Lemma set_fat d c v d' :
  disk_ok d -> 0 <= c < 128 * rFS sb -> 0 <= v < 2 ^ 32 -> disk_ok d' ->
  (forall a, byte d' a = if decide (512 * rRSC sb + 4 * c <= a < 512 * rRSC sb + 4 * c + 4)
     then vat (le32 v) (a - (512 * rRSC sb + 4 * c)) else byte d a) ->
  fat d' c = v /\ fat_same d d' (fun x => x <> c) /\ data_same d d' (fun _ => True).
Proof.
  intros Hd Hc Hx Hd' Hb. split; [|split].
  - apply (word_le32 d'); [done..|]. intros k Hk. rewrite Hb, decide_True by lia. f_equal. lia.
  - intros x Hx1 Hx2. apply word_frame. intros k Hk. rewrite Hb, decide_False by lia. done.
  - intros x i Hx1 Hi _. unfold cbyte. rewrite Hb, decide_False; [done|]. pose proof (fat_before c x ltac:(lia) ltac:(lia) Hx1). lia.
Qed.

Lemma fatWrite_ok d c v : disk_ok d -> clus_ok c -> 0 <= v < 2 ^ 32 ->
  exists d', fatWrite sb d c v = Done (0, d') /\ disk_ok d' /\
    fat d' c = v /\ fat_same d d' (fun x => x <> c) /\ data_same d d' (fun _ => True).
Proof.
  intros Hd [H1 H2] Hx. destruct (fat_slot c) as (_ & _ & E3 & E4); [lia..|].
  pose proof (vo_dcc Hv). pose proof (vo_ents Hv).
  unfold fatWrite, blockSize. rewrite (u32_small (rDCC sb + 1)) by lia. destruct (Z.ltb_spec (rDCC sb + 1) c); [lia|].
  destruct (Z.ltb_spec 512 (secOffset sb c + 4)); [lia|]. eexists. split; [done|].
  assert (Hk : disk_ok (dput d (0, numthSec sb c 1) (splice (dget d (0, numthSec sb c 1)) (secOffset sb c) (le32 v)))).
  { apply disk_ok_put; [done|]. rewrite splice_length; [apply Hd|lia|]. rewrite Hd, zlen_le32. lia. }
  split; [done|]. apply set_fat; try done; [lia|].
  intros a. rewrite byte_splice by (rewrite ?zlen_le32; done || lia). rewrite zlen_le32.
  by rewrite E3.
Qed.

(** ** Cluster contents *)

(** One turn of the loop of rwClus stays in one sector. *)
Lemma turn_size o len tot :
  tot < len -> let m0 := 512 - o mod 512 in
  let m := if len - tot <? m0 then len - tot else m0 in
  1 <= m <= len - tot /\ o mod 512 + m <= 512 /\ (tot + m < len -> (o + m) mod 512 = 0 /\ o mod 512 + m = 512).
Proof.
  intros Ht m0 m. pose proof (Z.mod_pos_bound o 512 ltac:(lia)). subst m m0.
  destruct (Z.ltb_spec (len - tot) (512 - o mod 512)); [lia|]. split; [lia|]. split; [lia|]. intros _. split; [|lia].
  pose proof (Z.div_mod o 512 ltac:(lia)).
  replace (o + (512 - o mod 512)) with ((o / 512 + 1) * 512) by lia. apply Z.mod_mul. lia.
Qed.

Lemma rw_write fuel d buf tot o sec len A :
  disk_ok d -> 0 <= tot <= len -> len <= zlen buf -> len - tot < Z.of_nat fuel ->
  0 <= o -> o + (len - tot) + 512 < 2 ^ 32 -> 0 <= sec -> A + len + 1024 < 512 * 2 ^ 32 ->
  (tot < len -> 512 * sec + o mod 512 = A + tot) ->
  exists d', rw_loop sb fuel d true buf tot o sec len = Done (len, buf, d') /\ disk_ok d' /\
    forall a, byte d' a = if decide (A + tot <= a < A + len) then vat buf (a - A) else byte d a.
Proof.
  revert d tot o sec. induction fuel as [|fuel IH]; intros d tot o sec Hd Ht Hb Hf Ho Hw Hs HA He; cbn [rw_loop];
    (destruct (Z.ltb_spec tot len);
      [|exists d; replace tot with len by lia; repeat split; try done; intros a; by rewrite decide_False by lia]); [lia|].
  destruct (turn_size o len tot H) as (M1 & M2 & M3). unfold blockSize.
  set (m := if len - tot <? 512 - o mod 512 then len - tot else 512 - o mod 512) in *.
  specialize (He H). rewrite (vo_dev Hv). pose proof (Z.mod_pos_bound o 512 ltac:(lia)).
  rewrite (u32_small (o + m)), (u32_small (sec + 1)) by lia.
  assert (Hsl : zlen (slice buf tot m) = m) by (apply slice_length; lia).
  edestruct (IH (dput d (0, sec) (splice (dget d (0, sec)) (o mod 512) (slice buf tot m))) (tot + m) (o + m) (sec + 1))
    as (d' & E & Hd' & Hb'); try lia.
  { apply disk_ok_put; [done|]. rewrite splice_length; [apply Hd|lia|rewrite Hd; lia]. }
  exists d'. split; [done|]. split; [done|]. intros a. rewrite Hb', byte_splice by (done || lia). rewrite Hsl, He.
  repeat case_decide; try lia; try done. rewrite vat_slice by lia. f_equal. lia.
Qed.

Lemma rw_read fuel d buf tot o sec len A :
  disk_ok d -> 0 <= tot <= len -> len = zlen buf -> len - tot < Z.of_nat fuel ->
  0 <= o -> o + (len - tot) + 512 < 2 ^ 32 -> 0 <= sec -> A + len + 1024 < 512 * 2 ^ 32 ->
  (tot < len -> 512 * sec + o mod 512 = A + tot) ->
  exists buf', rw_loop sb fuel d false buf tot o sec len = Done (len, buf', d) /\ zlen buf' = len /\
    forall i, 0 <= i < len -> vat buf' i = if decide (tot <= i) then byte d (A + i) else vat buf i.
Proof.
  revert buf tot o sec. induction fuel as [|fuel IH]; intros buf tot o sec Hd Ht Hb Hf Ho Hw Hs HA He; cbn [rw_loop];
    (destruct (Z.ltb_spec tot len);
      [|exists buf; replace tot with len by lia; repeat split; try done; intros i Hi; by rewrite decide_False by lia]);
    [lia|].
  destruct (turn_size o len tot H) as (M1 & M2 & M3). unfold blockSize.
  set (m := if len - tot <? 512 - o mod 512 then len - tot else 512 - o mod 512) in *.
  specialize (He H). rewrite (vo_dev Hv). pose proof (Z.mod_pos_bound o 512 ltac:(lia)).
  rewrite (u32_small (o + m)), (u32_small (sec + 1)) by lia.
  assert (Hsl : zlen (slice (dget d (0, sec)) (o mod 512) m) = m) by (apply slice_length; rewrite ?Hd; lia).
  edestruct (IH (splice buf tot (slice (dget d (0, sec)) (o mod 512) m)) (tot + m) (o + m) (sec + 1))
    as (buf' & E & Hl' & Hb'); try lia; try done.
  { rewrite splice_length; lia. }
  exists buf'. split; [done|]. split; [done|]. intros i Hi. rewrite Hb' by lia.
  rewrite vat_splice by lia. rewrite Hsl. repeat case_decide; try lia; try done.
  rewrite vat_slice by lia. unfold byte. destruct (div_in sec (o mod 512 + (i - tot)) (A + i)) as [-> ->]; [lia..|done].
Qed.

Lemma rw_start c o len : clus_ok c -> 0 <= o -> 0 <= len -> o + len <= rBPC sb ->
  rBPC sb <= 2 ^ 17 /\ u32 (o + len) = o + len /\ u32 (firstSec sb c + o / rBPS sb) = firstSec sb c + o / 512 /\
  512 * (firstSec sb c + o / 512) + (o mod rBPS sb) mod 512 = cbase c + o /\ 0 <= firstSec sb c + o / 512 /\
  0 <= o mod rBPS sb < 512 /\ cbase c + o + len <= 512 * 2 ^ 32 - 2048.
Proof.
  intros Hc Ho Hl Hb. destruct (firstSec_ok c Hc) as (F1 & F2 & F3). pose proof (vo_spc Hv). pose proof (vo_bpc Hv).
  assert (rBPC sb <= 2 ^ 17) by lia. rewrite (vo_bps Hv).
  assert (0 <= o / 512) by (apply Z.div_pos; lia).
  pose proof (Z.div_mod o 512 ltac:(lia)). pose proof (Z.mod_pos_bound o 512 ltac:(lia)).
  rewrite Z.mod_mod by lia. rewrite !u32_small by lia. repeat split; try lia.
  pose proof (vo_data Hv). destruct Hc as [Hc1 Hc2]. unfold cbase.
  assert ((c - 2) * rSPC sb <= (rDCC sb - 1) * rSPC sb) by (apply Z.mul_le_mono_nonneg_r; lia). lia.
Qed.

Lemma rwClus_read d c buf o len :
  disk_ok d -> clus_ok c -> 0 <= o -> 0 <= len -> o + len <= rBPC sb -> zlen buf = len ->
  exists buf', rwClus sb d c false buf o len = Done (len, buf', d) /\ zlen buf' = len /\
    forall i, 0 <= i < len -> vat buf' i = cbyte d c (o + i).
Proof.
  intros Hd Hc Ho Hl Hb Hz. destruct (rw_start c o len Hc Ho Hl Hb) as (R1 & R2 & R3 & R4 & R5 & R6 & R7).
  unfold rwClus. rewrite R2, R3. destruct (Z.ltb_spec (rBPC sb) (o + len)); [lia|].
  destruct (Z.ltb_spec (zlen buf) len); [lia|].
  destruct (rw_read (S (Z.to_nat len)) d buf 0 (o mod rBPS sb) (firstSec sb c + o / 512) len (cbase c + o))
    as (buf' & E & Hl' & Hi); try done; try lia.
  exists buf'. split; [done|]. split; [done|]. intros i Hi2. rewrite Hi, decide_True by lia. unfold cbyte. f_equal. lia.
Qed.

Lemma rwClus_write d c buf o len :
  disk_ok d -> clus_ok c -> 0 <= o -> 0 <= len -> o + len <= rBPC sb -> zlen buf = len ->
  exists d', rwClus sb d c true buf o len = Done (len, buf, d') /\ disk_ok d' /\
    (forall i, 0 <= i < rBPC sb -> cbyte d' c i = if decide (o <= i < o + len) then vat buf (i - o) else cbyte d c i) /\
    fat_same d d' (fun _ => True) /\ data_same d d' (fun x => x <> c).
Proof.
  intros Hd Hc Ho Hl Hb Hz. destruct (rw_start c o len Hc Ho Hl Hb) as (R1 & R2 & R3 & R4 & R5 & R6 & R7).
  unfold rwClus. rewrite R2, R3. destruct (Z.ltb_spec (rBPC sb) (o + len)); [lia|].
  destruct (Z.ltb_spec (zlen buf) len); [lia|].
  destruct (rw_write (S (Z.to_nat len)) d buf 0 (o mod rBPS sb) (firstSec sb c + o / 512) len (cbase c + o))
    as (d' & E & Hd' & Hi); try done; try lia.
  exists d'. split; [done|]. split; [done|]. split; [|split].
  - intros i Hi2. unfold cbyte. rewrite Hi. repeat case_decide; try lia; try done. f_equal. lia.
  - intros x Hx _. apply word_frame. intros k Hk. rewrite Hi, decide_False; [done|].
    pose proof (fat_before x c ltac:(lia) ltac:(lia) Hc). lia.
  - intros x i Hx Hi2 Hne. unfold cbyte. rewrite Hi, decide_False; [done|].
    destruct (Z.lt_total x c) as [Hlt|[?|Hlt]]; [|done|]; pose proof (cbase_apart _ _ Hlt); lia.
Qed.

(** ** Allocation *)
Lemma clear_secs_ok n d sec :
  disk_ok d -> 0 <= sec -> sec + Z.of_nat n < 2 ^ 32 ->
  disk_ok (clear_secs n d sec) /\
  forall a, byte (clear_secs n d sec) a = if decide (512 * sec <= a < 512 * (sec + Z.of_nat n)) then 0 else byte d a.
Proof.
  revert d sec. induction n as [|n IH]; intros d sec Hd Hs Hw; cbn [clear_secs].
  { split; [done|]. intros a. by rewrite decide_False by lia. }
  rewrite (u32_small (sec + 1)) by lia.
  destruct (IH (dput d (0, sec) zeros) (sec + 1)) as [H1 H2]; [by apply disk_ok_put|lia..|].
  split; [done|]. intros a. rewrite H2, byte_put. destruct (div_split a) as [Ha Hm].
  assert (Hz : vat zeros (a mod 512) = 0).
  { unfold vat, zeros. destruct (replicate 512 0 !! Z.to_nat (a mod 512)) eqn:E; [|done].
    apply lookup_replicate in E as [-> _]. done. }
  repeat case_decide; try lia; done.
Qed.

Lemma find_zero_spec n blk j0 :
  match find_zero n blk j0 with
  | Some j => j0 <= j < j0 + Z.of_nat n /\ get32 blk (4 * j) = 0
  | None => forall j, j0 <= j < j0 + Z.of_nat n -> get32 blk (4 * j) <> 0
  end.
Proof.
  revert j0. induction n as [|n IH]; intros j0; cbn [find_zero]; [intros; lia|].
  destruct (Z.eqb_spec (get32 blk (4 * j0)) 0); [split; [lia|done]|].
  specialize (IH (j0 + 1)). destruct (find_zero n blk (j0 + 1)).
  - split; [lia|apply IH].
  - intros j Hj. destruct (decide (j = j0)) as [->|]; [done|]. apply IH. lia.
Qed.

(** The entries of the FAT that stand for no cluster are not free. *)
Definition fat_closed (d : disk) : Prop :=
  forall c, 0 <= c < 128 * rFS sb -> fat d c = 0 -> clus_ok c.

Definition alloc_post (d : disk) (c : Z) (d' : disk) : Prop :=
  clus_ok c /\ fat d c = 0 /\ disk_ok d' /\ fat d' c = FAT32_EOC + 7 /\ fat_same d d' (fun x => x <> c) /\
  data_same d d' (fun x => x <> c) /\ (forall i, 0 <= i < rBPC sb -> cbyte d' c i = 0).

Lemma alloc_at d c s j :
  disk_ok d -> clus_ok c -> fat d c = 0 -> c = 128 * (s - rRSC sb) + j -> 0 <= j < 128 -> 
  alloc_post d c (clearClus sb (dput d (0, s) (splice (dget d (0, s)) (4 * j) (le32 (FAT32_EOC + 7)))) c).
Proof.
  intros Hd Hc Hz Ec Hj. set (d1 := dput d (0, s) _).
  assert (Hd1 : disk_ok d1).
  { apply disk_ok_put; [done|]. rewrite splice_length; [apply Hd|lia|rewrite Hd, zlen_le32; lia]. }
  pose proof (vo_ents Hv). pose proof (vo_spc Hv). pose proof (vo_bpc Hv). pose proof Hc as [Hc1 Hc2].
  destruct (set_fat d c (FAT32_EOC + 7) d1) as (F1 & F2 & F3); [done|lia|unfold FAT32_EOC; lia|done| |].
  { intros a. unfold d1. rewrite byte_splice by (rewrite ?zlen_le32; done || lia). rewrite zlen_le32.
    replace (512 * s + 4 * j) with (512 * rRSC sb + 4 * c) by lia. done. }
  destruct (firstSec_ok c Hc) as (S1 & S2 & S3). unfold clearClus.
  destruct (clear_secs_ok (Z.to_nat (rSPC sb)) d1 (firstSec sb c)) as [C1 C2]; [done|lia|lia|].
  replace (512 * (firstSec sb c + Z.of_nat (Z.to_nat (rSPC sb)))) with (cbase c + rBPC sb) in C2 by lia.
  rewrite S1 in C2. set (d2 := clear_secs _ _ _) in *.
  assert (Hfr : forall x, 0 <= x < 128 * rFS sb -> fat d2 x = fat d1 x).
  { intros x Hx. apply word_frame. intros k Hk. rewrite C2, decide_False; [done|].
    pose proof (fat_before x c ltac:(lia) ltac:(lia) Hc). lia. }
  split; [done|]. split; [done|]. split; [done|]. split; [rewrite Hfr; [done|lia]|]. split; [|split].
  - intros x Hx Hne. rewrite Hfr by done. by apply F2.
  - intros x i Hx Hi Hne. rewrite <- (F3 x i Hx Hi I). unfold cbyte. rewrite C2, decide_False; [done|].
    destruct (Z.lt_total x c) as [Hlt|[?|Hlt]]; [|done|]; pose proof (cbase_apart _ _ Hlt); lia.
  - intros i Hi. unfold cbyte. by rewrite C2, decide_True by lia.
Qed.

Lemma alloc_loop_ok n d i :
  disk_ok d -> fat_closed d -> 0 <= i -> i + Z.of_nat n = rFS sb ->
  (alloc_loop sb n d i (rRSC sb + i) = Panic /\ forall c, 128 * i <= c < 128 * rFS sb -> fat d c <> 0) \/
  exists c d', alloc_loop sb n d i (rRSC sb + i) = Done (c, d') /\ alloc_post d c d'.
Proof.
  intros Hd Hcl. revert i. induction n as [|n IH]; intros i Hi Hn; cbn [alloc_loop].
  { left. split; [done|]. intros. lia. }
  rewrite (vo_dev Hv), (vo_bps Hv). change (512 / 4) with 128. change (Z.to_nat 128) with 128%nat.
  pose proof (find_zero_spec 128 (dget d (0, rRSC sb + i)) 0) as Hfz. rewrite Z.add_0_l in Hfz.
  change (Z.of_nat 128) with 128 in Hfz.
  assert (Hent : forall j, 0 <= j < 128 -> get32 (dget d (0, rRSC sb + i)) (4 * j) = fat d (128 * i + j)).
  { intros j Hj. rewrite get32_word by lia. unfold fat. f_equal. lia. }
  destruct (find_zero 128 (dget d (0, rRSC sb + i)) 0) as [j|].
  - right. destruct Hfz as [Hj Hz]. rewrite Hent in Hz by done.
    assert (Hc : clus_ok (128 * i + j)) by (apply Hcl; [lia|done]).
    pose proof Hc as [_ ?]. pose proof (vo_dcc Hv). rewrite (u32_small (i * 128 + j)) by lia.
    replace (i * 128 + j) with (128 * i + j) by lia.
    eexists _, _. split; [done|]. apply alloc_at; [done..|lia|done].
  - pose proof (vo_fat Hv). pose proof (vo_data Hv). pose proof (vo_rsc Hv). pose proof (vo_dcc Hv). pose proof spc_pos.
    assert (0 <= (rDCC sb + 4) * rSPC sb) by (apply Z.mul_nonneg_nonneg; lia).
    rewrite u32_small by lia. replace (rRSC sb + i + 1) with (rRSC sb + (i + 1)) by lia.
    destruct (IH (i + 1)) as [[-> Hno]|Hyes]; [lia..| |by right]. left. split; [done|].
    intros c Hc. destruct (Z.lt_ge_cases c (128 * (i + 1))); [|apply Hno; lia].
    replace c with (128 * i + (c - 128 * i)) by lia. rewrite <- Hent by lia. apply Hfz. lia.
Qed.

Lemma allocClus_ok d :
  disk_ok d -> fat_closed d ->
  (allocClus sb d = Panic /\ forall c, clus_ok c -> fat d c <> 0) \/
  exists c d', allocClus sb d = Done (c, d') /\ alloc_post d c d'.
Proof.
  intros Hd Hcl. pose proof (vo_fs Hv). pose proof (vo_ents Hv).
  destruct (alloc_loop_ok (Z.to_nat (rFS sb)) d 0 Hd Hcl) as [[E Hno]|(c & d' & E & Hp)]; [lia..| |].
  - left. unfold allocClus. rewrite <- (Z.add_0_r (rRSC sb)). split; [done|]. intros c [? ?]. apply Hno. lia.
  - right. exists c, d'. unfold allocClus. rewrite <- (Z.add_0_r (rRSC sb)). done.
Qed.

(** ** Chains *)
Record chain (d : disk) (l : list Z) : Prop := {
  ch_ok : forall c, c ∈ l -> clus_ok c;
  ch_nodup : NoDup l;
  ch_next : forall k c c', l !! k = Some c -> l !! S k = Some c' -> fat d c = c';
  ch_last : forall c, last l = Some c -> FAT32_EOC <= fat d c < 2 ^ 31
}.
(** The cursor of an entry: the cluster at position [clus_cnt] of the chain. *)
Definition cursor (e : DirEnt) (l : list Z) : Prop :=
  0 <= clus_cnt e /\ l !! Z.to_nat (clus_cnt e) = Some (cur_clus e) /\ head l = Some (first_clus e).
Definition fc (d : disk) (l : list Z) (i : Z) : Z :=
  match l !! Z.to_nat (i / rBPC sb) with Some c => cbyte d c (i mod rBPC sb) | None => 0 end.

Lemma clus_small c : clus_ok c -> 0 <= c < FAT32_EOC.
Proof. intros [? ?]. pose proof (vo_dcc Hv). unfold FAT32_EOC. lia. Qed.
Lemma bpc_pos : 0 < rBPC sb.
Proof. pose proof (vo_bpc Hv). pose proof (vo_spc Hv). lia. Qed.

Lemma reloc_fwd_in n d e l alloc :
  chain d l -> 0 <= clus_cnt e -> l !! Z.to_nat (clus_cnt e) = Some (cur_clus e) ->
  (Z.to_nat (clus_cnt e) + n < length l)%nat ->
  exists c, l !! (Z.to_nat (clus_cnt e) + n)%nat = Some c /\
    reloc_fwd sb n d e alloc = Done (true, set_clus e c (clus_cnt e + Z.of_nat n), d).
Proof.
  intros Hc. revert e. induction n as [|n IH]; intros e H0 Hl Hn; cbn [reloc_fwd].
  { exists (cur_clus e). rewrite Nat.add_0_r, Z.add_0_r. split; [done|]. by destruct e. }
  assert (Hok : clus_ok (cur_clus e)) by (eapply ch_ok; [done|]; by eapply list_elem_of_lookup_2).
  rewrite fatRead_ok by done. cbn [obind].
  destruct (l !! S (Z.to_nat (clus_cnt e))) as [c'|] eqn:E.
  2:{ apply lookup_ge_None_1 in E. lia. }
  rewrite (ch_next _ _ Hc _ _ _ Hl E).
  assert (Hok' : clus_ok c') by (eapply ch_ok; [done|]; by eapply list_elem_of_lookup_2).
  pose proof (clus_small c' Hok'). unfold FAT32_EOC in *. rewrite i32_small by lia.
  destruct (Z.leb_spec 268435448 c'); [lia|].
  destruct (IH (set_clus e c' (clus_cnt e + 1))) as (c & Hc1 & Hc2); cbn [clus_cnt cur_clus set_clus].
  { lia. } { replace (Z.to_nat (clus_cnt e + 1)) with (S (Z.to_nat (clus_cnt e))) by lia. done. } { lia. }
  exists c. cbn [clus_cnt cur_clus set_clus] in Hc1, Hc2.
  replace (Z.to_nat (clus_cnt e) + S n)%nat with (Z.to_nat (clus_cnt e + 1) + n)%nat by lia. split; [done|].
  rewrite Hc2. unfold set_clus. cbn. do 4 f_equal. lia.
Qed.

Lemma reloc_again_in n d e l :
  chain d l -> 0 <= clus_cnt e -> l !! Z.to_nat (clus_cnt e) = Some (cur_clus e) ->
  (Z.to_nat (clus_cnt e) + n < length l)%nat ->
  exists c, l !! (Z.to_nat (clus_cnt e) + n)%nat = Some c /\
    reloc_again sb n d e = Done (set_clus e c (clus_cnt e + Z.of_nat n)).
Proof.
  intros Hc. revert e. induction n as [|n IH]; intros e H0 Hl Hn; cbn [reloc_again].
  { exists (cur_clus e). rewrite Nat.add_0_r, Z.add_0_r. split; [done|]. by destruct e. }
  assert (Hok : clus_ok (cur_clus e)) by (eapply ch_ok; [done|]; by eapply list_elem_of_lookup_2).
  rewrite fatRead_ok by done. cbn [obind].
  destruct (l !! S (Z.to_nat (clus_cnt e))) as [c'|] eqn:E.
  2:{ apply lookup_ge_None_1 in E. lia. }
  rewrite (ch_next _ _ Hc _ _ _ Hl E).
  assert (Hok' : clus_ok c') by (eapply ch_ok; [done|]; by eapply list_elem_of_lookup_2).
  pose proof (clus_small c' Hok'). destruct (Z.leb_spec FAT32_EOC c'); [lia|].
  destruct (IH (set_clus e c' (clus_cnt e + 1))) as (c & Hc1 & Hc2); cbn [clus_cnt cur_clus set_clus].
  { lia. } { replace (Z.to_nat (clus_cnt e + 1)) with (S (Z.to_nat (clus_cnt e))) by lia. done. } { lia. }
  exists c. cbn [clus_cnt cur_clus set_clus] in Hc1, Hc2.
  replace (Z.to_nat (clus_cnt e) + S n)%nat with (Z.to_nat (clus_cnt e + 1) + n)%nat by lia. split; [done|].
  rewrite Hc2. unfold set_clus. cbn. do 2 f_equal. lia.
Qed.

(** Seeking inside the chain. *)
Lemma relocClus_in d e l o alloc :
  chain d l -> cursor e l -> 0 <= o -> o / rBPC sb < Z.of_nat (length l) ->
  exists c, l !! Z.to_nat (o / rBPC sb) = Some c /\
    relocClus sb d e o alloc = Done (o mod rBPC sb, set_clus e c (o / rBPC sb), d).
Proof.
  intros Hc (H0 & Hl & Hf) Ho Hn. pose proof bpc_pos as Hb. unfold relocClus.
  destruct (Z.eqb_spec (rBPC sb) 0); [lia|]. assert (0 <= o / rBPC sb) by (apply Z.div_pos; lia).
  set (k := o / rBPC sb) in *. pose proof (lookup_lt_Some _ _ _ Hl) as Hlt.
  destruct (Z.lt_ge_cases k (clus_cnt e)) as [Hk|Hk].
  - replace (Z.to_nat (k - clus_cnt e)) with 0%nat by lia. cbn [reloc_fwd obind negb].
    destruct (Z.ltb_spec k (clus_cnt e)); [|lia].
    destruct (reloc_again_in (Z.to_nat k) d (set_clus e (first_clus e) 0) l) as (c & Hc1 & Hc2); [done|cbn..|].
    { lia. } { rewrite <- Hf. by destruct l. } { change (Z.to_nat 0) with 0%nat. lia. }
    change (Z.to_nat (clus_cnt (set_clus e (first_clus e) 0))) with 0%nat in Hc1. exists c. split; [done|].
    rewrite Hc2. cbn [obind]. unfold set_clus. cbn. do 4 f_equal. lia.
  - destruct (reloc_fwd_in (Z.to_nat (k - clus_cnt e)) d e l alloc) as (c & Hc1 & Hc2); [done..|lia|].
    replace (Z.to_nat (clus_cnt e) + Z.to_nat (k - clus_cnt e))%nat with (Z.to_nat k) in Hc1 by lia.
    rewrite Hc2. cbn [obind negb]. replace (clus_cnt e + Z.of_nat (Z.to_nat (k - clus_cnt e))) with k by lia.
    change (clus_cnt (set_clus e c k)) with k. rewrite Z.ltb_irrefl. by exists c.
Qed.

Lemma cursor_set e c k l :
  cursor e l -> 0 <= k -> l !! Z.to_nat k = Some c -> cursor (set_clus e c k) l.
Proof. by intros (_ & _ & Hf) H1 H2. Qed.

(** ** Growing a chain *)
Lemma filter_len_same {B} (P Q : B -> Prop) `{!forall x, Decision (P x)} `{!forall x, Decision (Q x)} (l : list B) :
  (forall x, x ∈ l -> P x <-> Q x) -> length (filter P l) = length (filter Q l).
Proof.
  induction l as [|x l IH]; intros HPQ; [done|]. rewrite !filter_cons.
  assert (Hx : P x <-> Q x) by (apply HPQ; set_solver). assert (length (filter P l) = length (filter Q l)) by (apply IH; set_solver).
  repeat case_decide; cbn; tauto || lia.
Qed.
Lemma filter_len_flip {B} (P Q : B -> Prop) `{!forall x, Decision (P x)} `{!forall x, Decision (Q x)} (l : list B) c :
  NoDup l -> c ∈ l -> P c -> ~ Q c -> (forall x, x ∈ l -> x <> c -> P x <-> Q x) ->
  length (filter P l) = S (length (filter Q l)).
Proof.
  intros Hnd Hc HP HQ. induction Hnd as [|x l Hx Hnd IH]; intros HPQ; [set_solver|]. rewrite !filter_cons.
  apply elem_of_cons in Hc as [->|Hc].
  - rewrite decide_True, decide_False by done. cbn. f_equal. apply filter_len_same. intros y Hy.
    apply HPQ; [set_solver|]. by intros ->.
  - assert (Hpx : P x <-> Q x) by (apply HPQ; [set_solver|]; by intros ->).
    assert (length (filter P l) = S (length (filter Q l))) by (apply IH; [done|set_solver]).
    repeat case_decide; cbn; tauto || lia.
Qed.

Definition nfree (d : disk) : nat := length (filter (fun c => fat d c = 0) (seqZ 2 (rDCC sb))).

Lemma nfree_same d d' :
  (forall c, clus_ok c -> fat d' c = 0 <-> fat d c = 0) -> nfree d' = nfree d.
Proof. intros H. apply filter_len_same. intros c Hc%elem_of_seqZ. apply H. split; lia. Qed.
Lemma nfree_take d d' c :
  clus_ok c -> fat d c = 0 -> fat d' c <> 0 ->
  (forall x, clus_ok x -> x <> c -> fat d' x = 0 <-> fat d x = 0) -> nfree d = S (nfree d').
Proof.
  intros Hc H1 H2 H. apply (filter_len_flip _ _ _ c).
  - apply NoDup_seqZ.
  - apply elem_of_seqZ. destruct Hc. lia.
  - done.
  - done.
  - intros x Hx%elem_of_seqZ Hne. symmetry. apply H; [split; lia|done].
Qed.

(** Two disks that agree on the entries of a chain agree that it is one. *)
Lemma chain_frame d d' l : (forall c, c ∈ l -> fat d' c = fat d c) -> chain d l -> chain d' l.
Proof.
  intros H [H1 H2 H3 H4]. split; [done|done| |].
  - intros k c c' Hk Hk'. rewrite H; [by eapply H3|]. by eapply list_elem_of_lookup_2.
  - intros c Hc. rewrite H; [by apply H4|]. by apply last_Some_elem_of.
Qed.

Lemma clus_fat_range c : clus_ok c -> 0 <= c < 128 * rFS sb.
Proof. intros [? ?]. pose proof (vo_ents Hv). lia. Qed.

(** What changes when a file grows by the clusters [new]. *)
Record grows (d d' : disk) (l new : list Z) : Prop := {
  gr_disk : disk_ok d';
  gr_closed : fat_closed d';
  gr_chain : chain d' (l ++ new);
  gr_new : forall c, c ∈ new -> fat d c = 0;
  gr_free : (nfree d' + length new = nfree d)%nat;
  gr_fat : fat_same d d' (fun c => c ∉ l ++ new);
  gr_data : data_same d d' (fun c => c ∉ l ++ new)
}.

(** A fresh cluster: the first of a file, or linked behind the last. *)
Lemma first_grow d c d' :
  disk_ok d -> fat_closed d -> alloc_post d c d' -> grows d d' [] [c].
Proof.
  intros Hd Hcl (Hc & Hz & Hd' & He & Hf & Hda & Hzero).
  assert (Hne : fat d' c <> 0) by (rewrite He; done).
  split; try done.
  - intros x Hx H0. destruct (decide (x = c)) as [->|]; [done|]. apply Hcl; [done|]. rewrite <- H0. symmetry. by apply Hf.
  - cbn. split.
    + by intros x ->%list_elem_of_singleton.
    + apply NoDup_singleton.
    + intros k a b Ha Hb. by destruct k.
    + intros x [=<-]. rewrite He. unfold FAT32_EOC. lia.
  - by intros x ->%list_elem_of_singleton.
  - cbn [length]. rewrite Nat.add_1_r. symmetry. apply (nfree_take d d' c); try done.
    intros x Hx Hxc. rewrite (Hf x); [done|by apply clus_fat_range|done].
  - intros x Hx Hn. apply Hf; [done|set_solver].
  - intros x i Hx Hi Hn. apply Hda; [done..|set_solver].
Qed.

Lemma fat_same_trans d1 d2 d3 (P Q R : Z -> Prop) :
  fat_same d1 d2 P -> fat_same d2 d3 Q -> (forall c, R c -> P c /\ Q c) -> fat_same d1 d3 R.
Proof. intros H1 H2 HR c Hc Hr. destruct (HR c Hr). rewrite H2 by done. by apply H1. Qed.
Lemma data_same_trans d1 d2 d3 (P Q R : Z -> Prop) :
  data_same d1 d2 P -> data_same d2 d3 Q -> (forall c, R c -> P c /\ Q c) -> data_same d1 d3 R.
Proof. intros H1 H2 HR c i Hc Hi Hr. destruct (HR c Hr). rewrite H2 by done. by apply H1. Qed.

Lemma chain_snoc d d' l c :
  chain d l -> l <> [] -> clus_ok c -> c ∉ l ->
  (forall x, x ∈ l -> last l <> Some x -> fat d' x = fat d x) ->
  (forall x, last l = Some x -> fat d' x = c) -> FAT32_EOC <= fat d' c < 2 ^ 31 -> chain d' (l ++ [c]).
Proof.
  intros [H1 H2 H3 H4] Hne Hc Hn Hs Hl He. split.
  - intros x Hx. apply elem_of_app in Hx as [Hx|Hx]; [by apply H1|]. by apply list_elem_of_singleton in Hx as ->.
  - apply NoDup_app. split; [done|]. split; [intros x Hx ->%list_elem_of_singleton; done|apply NoDup_singleton].
  - intros k a b Ha Hb. destruct (decide (S k < length l)%nat) as [Hk|Hk].
    + rewrite lookup_app_l in Ha, Hb by lia. rewrite Hs; [by eapply H3|by eapply list_elem_of_lookup_2|].
      rewrite last_lookup. intros E. assert (pred (length l) = k) as Ek by (eapply NoDup_lookup; eauto). lia.
    + apply lookup_lt_Some in Hb as Hb'. rewrite length_app in Hb'. cbn in Hb'.
      rewrite lookup_app_l in Ha by lia. rewrite lookup_app_r in Hb by lia.
      replace (S k - length l)%nat with 0%nat in Hb by lia. cbn in Hb. injection Hb as <-.
      apply Hl. rewrite last_lookup. by replace (pred (length l)) with k by lia.
  - intros x. rewrite last_snoc. intros [=<-]. done.
Qed.

Lemma last_grow d c d1 l x :
  disk_ok d -> fat_closed d -> chain d l -> last l = Some x -> alloc_post d c d1 ->
  exists d2, fatWrite sb d1 x c = Done (0, d2) /\ grows d d2 l [c] /\ data_same d d2 (fun y => y <> c) /\
    (forall i, 0 <= i < rBPC sb -> cbyte d2 c i = 0).
Proof.
  intros Hd Hcl Hch Hlx (Hc & Hz & Hd1 & He & Hf & Hda & Hzero).
  assert (Hx : x ∈ l) by (by apply last_Some_elem_of). pose proof (ch_ok _ _ Hch x Hx) as Hxo.
  pose proof (clus_small c Hc) as Hcs. assert (Hne0 : 2 <= c) by (destruct Hc; lia).
  assert (Hcl2 : c ∉ l).
  { intros Hin. apply list_elem_of_lookup in Hin as [k Hk]. destruct (l !! S k) as [y|] eqn:Ey.
    - pose proof (ch_next _ _ Hch _ _ _ Hk Ey) as E. rewrite Hz in E.
      assert (clus_ok y) as [? ?] by (eapply ch_ok; [done|]; by eapply list_elem_of_lookup_2). lia.
    - apply lookup_ge_None_1 in Ey. pose proof (lookup_lt_Some _ _ _ Hk).
      assert (last l = Some c) as E by (rewrite last_lookup; by replace (pred (length l)) with k by lia).
      apply (ch_last _ _ Hch) in E. rewrite Hz in E. unfold FAT32_EOC in E. lia. }
  assert (Hxc : x <> c) by (intros ->; done).
  destruct (fatWrite_ok d1 x c Hd1 Hxo) as (d2 & E & Hd2 & Fx & Ff & Fd); [unfold FAT32_EOC in *; lia|].
  exists d2. split; [done|].
  assert (Hfc : fat d2 c = FAT32_EOC + 7) by (rewrite (Ff c); [done|by apply clus_fat_range|done]).
  assert (Hother : forall y, 0 <= y < 128 * rFS sb -> y <> c -> y <> x -> fat d2 y = fat d y).
  { intros y Hy H1 H2. rewrite (Ff y) by done. by apply Hf. }
  assert (Hlast : FAT32_EOC <= fat d x < 2 ^ 31) by (by apply (ch_last _ _ Hch)).
  split; [|split].
  - split; try done.
    + intros y Hy H0. destruct (decide (y = c)) as [->|]; [done|]. destruct (decide (y = x)) as [->|]; [done|].
      apply Hcl; [done|]. rewrite <- H0. symmetry. by apply Hother.
    + apply (chain_snoc d); try done; [by intros ->|..].
      * intros y Hy Hnl. apply Hother; [apply clus_fat_range; by apply (ch_ok _ _ Hch)| |]; [by intros ->|]. intros ->. done.
      * intros y Hy. rewrite Hlx in Hy. injection Hy as <-. done.
      * rewrite Hfc. unfold FAT32_EOC. lia.
    + by intros y ->%list_elem_of_singleton.
    + cbn [length]. rewrite Nat.add_1_r. symmetry. apply (nfree_take d d2 c); try done; [rewrite Hfc; done|].
      intros y Hy Hyc. destruct (decide (y = x)) as [->|]; [|rewrite Hother; [done|by apply clus_fat_range|done..]].
      rewrite Fx. unfold FAT32_EOC in *. split; intros; lia.
    + intros y Hy Hn. apply Hother; [done|set_solver..].
    + intros y i Hy Hi Hn. rewrite (Fd y i Hy Hi I). apply Hda; [done..|set_solver].
  - intros y i Hy Hi Hn. rewrite (Fd y i Hy Hi I). by apply Hda.
  - intros i Hi. rewrite (Fd c i Hc Hi I). by apply Hzero.
Qed.

Lemma reloc_fwd_add n m d e alloc e1 d1 :
  reloc_fwd sb n d e alloc = Done (true, e1, d1) -> reloc_fwd sb (n + m) d e alloc = reloc_fwd sb m d1 e1 alloc.
Proof.
  revert d e. induction n as [|n IH]; intros d e H; cbn [reloc_fwd Nat.add] in *; [by injection H as -> ->|].
  odestr H. cbn [obind]. destruct (FAT32_EOC <=? i32 a); [|by apply IH]. destruct alloc; [|done].
  odestr H. destruct a0 as [c' d2]. odestr H. destruct a0 as [r d3]. cbn [obind]. rewrite E1. cbn [obind]. by apply IH.
Qed.

(** Seeking to the end of the chain with allocation. *)
Lemma relocClus_grow d e l o :
  disk_ok d -> fat_closed d -> chain d l -> cursor e l -> 0 <= o -> o / rBPC sb = Z.of_nat (length l) ->
  (0 < nfree d)%nat ->
  exists c d', relocClus sb d e o true = Done (o mod rBPC sb, set_clus e c (o / rBPC sb), d') /\
    grows d d' l [c] /\ data_same d d' (fun y => y <> c) /\ (forall i, 0 <= i < rBPC sb -> cbyte d' c i = 0).
Proof.
  intros Hd Hcl Hch (H0 & Hl & Hf) Ho Hn Hfree. pose proof bpc_pos as Hb. unfold relocClus.
  destruct (Z.eqb_spec (rBPC sb) 0); [lia|]. rewrite Hn. pose proof (lookup_lt_Some _ _ _ Hl) as Hlt.
  replace (Z.to_nat (Z.of_nat (length l) - clus_cnt e)) with (length l - 1 - Z.to_nat (clus_cnt e) + 1)%nat by lia.
  destruct (reloc_fwd_in (length l - 1 - Z.to_nat (clus_cnt e)) d e l true) as (x & Hx & E); [done..|lia|].
  rewrite (reloc_fwd_add _ _ _ _ _ _ _ E). cbn [reloc_fwd set_clus cur_clus clus_cnt].
  assert (Hlx : last l = Some x).
  { rewrite last_lookup, <- Hx. f_equal. lia. }
  assert (Hxo : clus_ok x) by (apply (ch_ok _ _ Hch); by apply last_Some_elem_of).
  rewrite fatRead_ok by done. cbn [obind]. pose proof (ch_last _ _ Hch x Hlx) as He. unfold FAT32_EOC in He.
  rewrite i32_small by lia. unfold FAT32_EOC at 1. destruct (Z.leb_spec 268435448 (fat d x)); [|lia].
  destruct (allocClus_ok d Hd Hcl) as [[_ Hno]|(c & d1 & -> & Hp)].
  { exfalso. unfold nfree in Hfree. rewrite filter_none in Hfree; [cbn in Hfree; lia|].
    intros y Hy%elem_of_seqZ. apply Hno. split; lia. }
  cbn [obind]. destruct (last_grow d c d1 l x) as (d2 & -> & G & D & Z0); [done..|].
  cbn [obind negb]. exists c, d2.
  replace (clus_cnt e + Z.of_nat (length l - 1 - Z.to_nat (clus_cnt e)) + 1) with (Z.of_nat (length l)) by lia.
  cbn [set_clus clus_cnt]. rewrite Z.ltb_irrefl. cbn [obind]. done.
Qed.

(** ** File contents *)
Lemma grows_refl d d' l :
  disk_ok d' -> fat_closed d -> chain d l -> fat_same d d' (fun _ => True) -> data_same d d' (fun c => c ∉ l) ->
  grows d d' l [].
Proof.
  intros Hd Hcl Hch Hf Hda. split; rewrite ?app_nil_r; try done.
  - intros c Hc H0. apply Hcl; [done|]. rewrite <- H0. symmetry. by apply Hf.
  - apply (chain_frame d); [|done]. intros c Hc. apply Hf; [|done]. apply clus_fat_range. by apply (ch_ok _ _ Hch).
  - set_solver.
  - cbn. rewrite Nat.add_0_r. apply nfree_same. intros c Hc. rewrite (Hf c); [done|by apply clus_fat_range|done].
  - intros c Hc _. by apply Hf.
Qed.

Lemma grows_trans d1 d2 d3 l n1 n2 :
  grows d1 d2 l n1 -> grows d2 d3 (l ++ n1) n2 -> grows d1 d3 l (n1 ++ n2).
Proof.
  intros [A1 A2 A3 A4 A5 A6 A7] [B1 B2 B3 B4 B5 B6 B7]. rewrite <- app_assoc in B3, B6, B7.
  split; try done.
  - intros c [Hc|Hc]%elem_of_app; [by apply A4|]. rewrite <- (B4 c Hc). symmetry. apply A6.
    + apply clus_fat_range. apply (ch_ok _ _ B3). set_solver.
    + pose proof (ch_nodup _ _ B3) as Hnd. rewrite app_assoc in Hnd. apply NoDup_app in Hnd as (_ & Hd & _).
      intros Hin. by apply (Hd c).
  - rewrite length_app. lia.
  - eapply fat_same_trans; [exact A6|exact B6|]. cbn. intros c Hc. set_solver.
  - eapply data_same_trans; [exact A7|exact B7|]. cbn. intros c Hc. set_solver.
Qed.

Lemma fc_grow d d' l c i :
  chain d l -> clus_ok c -> c ∉ l -> data_same d d' (fun y => y <> c) ->
  (forall j, 0 <= j < rBPC sb -> cbyte d' c j = 0) -> 0 <= i -> fc d' (l ++ [c]) i = fc d l i.
Proof.
  intros Hch Hc Hn Hda Hz Hi. pose proof bpc_pos. pose proof (Z.mod_pos_bound i (rBPC sb) ltac:(lia)). unfold fc.
  destruct (l !! Z.to_nat (i / rBPC sb)) as [x|] eqn:E.
  - rewrite (lookup_app_l_Some _ _ _ _ E). apply list_elem_of_lookup_2 in E.
    apply Hda; [by apply (ch_ok _ _ Hch)|lia|]. by intros ->.
  - apply lookup_ge_None_1 in E. rewrite lookup_app_r by done.
    destruct (Z.to_nat (i / rBPC sb) - length l)%nat; [cbn; apply Hz; lia|done].
Qed.

Lemma fc_write d d' l c o m (buf : list Z) i :
  chain d l -> 0 <= o -> l !! Z.to_nat (o / rBPC sb) = Some c -> o mod rBPC sb + m <= rBPC sb ->
  (forall j, 0 <= j < rBPC sb -> cbyte d' c j =
     if decide (o mod rBPC sb <= j < o mod rBPC sb + m) then vat buf (j - o mod rBPC sb) else cbyte d c j) ->
  data_same d d' (fun x => x <> c) -> 0 <= i ->
  fc d' l i = if decide (o <= i < o + m) then vat buf (i - o) else fc d l i.
Proof.
  intros Hch Ho Hc Hm Hw Hda Hi. pose proof bpc_pos as Hb.
  pose proof (Z.mod_pos_bound i (rBPC sb) ltac:(lia)) as Bi. pose proof (Z.div_mod i (rBPC sb) ltac:(lia)) as Di.
  pose proof (Z.mod_pos_bound o (rBPC sb) ltac:(lia)) as Bo. pose proof (Z.div_mod o (rBPC sb) ltac:(lia)) as Do.
  assert (0 <= i / rBPC sb) by (apply Z.div_pos; lia). assert (0 <= o / rBPC sb) by (apply Z.div_pos; lia).
  unfold fc. destruct (decide (i / rBPC sb = o / rBPC sb)) as [E|E].
  - rewrite E, Hc, Hw by lia. rewrite E in Di.
    repeat case_decide; try lia; try done. f_equal. lia.
  - rewrite (decide_False (P := o <= i < o + m)).
    2:{ intros Hin. apply E. symmetry. apply (Z.div_unique i (rBPC sb) (o / rBPC sb) (i - rBPC sb * (o / rBPC sb))); lia. }
    destruct (l !! Z.to_nat (i / rBPC sb)) as [x|] eqn:Ex; [|done].
    apply Hda; [|lia|].
    + apply (ch_ok _ _ Hch). by eapply list_elem_of_lookup_2.
    + intros ->. apply E. pose proof (NoDup_lookup _ _ _ _ (ch_nodup _ _ Hch) Ex Hc). lia.
Qed.

Lemma turn_bpc o len tot :
  0 <= o -> tot < len -> let m0 := rBPC sb - o mod rBPC sb in
  let m := if len - tot <? m0 then len - tot else m0 in
  1 <= m <= len - tot /\ 0 <= o mod rBPC sb /\ o mod rBPC sb + m <= rBPC sb /\ o + m <= rBPC sb * (o / rBPC sb + 1).
Proof.
  intros Ho Ht m0 m. pose proof bpc_pos. pose proof (Z.mod_pos_bound o (rBPC sb) ltac:(lia)).
  pose proof (Z.div_mod o (rBPC sb) ltac:(lia)). subst m m0.
  destruct (Z.ltb_spec (len - tot) (rBPC sb - o mod rBPC sb)); lia.
Qed.

(** Seeking for a write: inside the chain or one cluster behind it. *)
Lemma relocClus_write d e l o :
  disk_ok d -> fat_closed d -> chain d l -> cursor e l -> 0 <= o -> o <= rBPC sb * Z.of_nat (length l) ->
  o < rBPC sb * (Z.of_nat (length l) + Z.of_nat (nfree d)) ->
  exists c d' new, relocClus sb d e o true = Done (o mod rBPC sb, set_clus e c (o / rBPC sb), d') /\
    grows d d' l new /\ (l ++ new) !! Z.to_nat (o / rBPC sb) = Some c /\ cursor (set_clus e c (o / rBPC sb)) (l ++ new) /\
    (forall i, 0 <= i -> fc d' (l ++ new) i = fc d l i).
Proof.
  intros Hd Hcl Hch Hcu Ho H1 H2. pose proof bpc_pos as Hb.
  assert (Hq : 0 <= o / rBPC sb) by (apply Z.div_pos; lia).
  destruct (Z.lt_ge_cases (o / rBPC sb) (Z.of_nat (length l))) as [Hk|Hk].
  - destruct (relocClus_in d e l o true) as (c & Hc & E); [done..|]. exists c, d, [].
    rewrite app_nil_r. split; [done|]. split; [by apply grows_refl|]. split; [done|]. split; [by apply (cursor_set e c)|done].
  - assert (o / rBPC sb <= Z.of_nat (length l)) by (apply Z.div_le_upper_bound; lia).
    assert (En : o / rBPC sb = Z.of_nat (length l)) by lia.
    assert (Hfree : (0 < nfree d)%nat).
    { destruct (nfree d); [|lia]. exfalso. assert (o / rBPC sb < Z.of_nat (length l)); [|lia].
      apply Z.div_lt_upper_bound; lia. }
    destruct (relocClus_grow d e l o) as (c & d' & E & G & Da & Z0); [done..|].
    exists c, d', [c]. split; [done|]. split; [done|].
    assert (Hlk : (l ++ [c]) !! Z.to_nat (o / rBPC sb) = Some c).
    { rewrite lookup_app_r by lia. by replace (Z.to_nat (o / rBPC sb) - length l)%nat with 0%nat by lia. }
    split; [done|]. pose proof (gr_chain _ _ _ _ G) as Hch2. split.
    + split; [done|]. split; [done|]. destruct Hcu as (_ & _ & Hh). cbn. rewrite <- Hh. destruct l; done.
    + intros i Hi. apply fc_grow; try done.
      * apply (ch_ok _ _ Hch2). set_solver.
      * pose proof (ch_nodup _ _ Hch2) as Hnd. apply NoDup_app in Hnd as (_ & Hnd & _). intros Hin. by apply (Hnd c Hin); set_solver.
Qed.

Lemma write_loop_ok fuel d e l buf o0 tot len :
  disk_ok d -> fat_closed d -> chain d l -> cursor e l ->
  0 <= o0 -> 0 <= tot <= len -> zlen buf = len -> len - tot < Z.of_nat fuel -> o0 + len < 2 ^ 32 ->
  o0 + tot <= rBPC sb * Z.of_nat (length l) ->
  o0 + len <= rBPC sb * (Z.of_nat (length l) + Z.of_nat (nfree d)) ->
  exists c k d' new,
    write_loop sb fuel d e buf tot (o0 + tot) len = Done (len, o0 + len, set_clus e c k, d') /\
    grows d d' l new /\ cursor (set_clus e c k) (l ++ new) /\
    o0 + len <= rBPC sb * Z.of_nat (length (l ++ new)) /\
    (forall i, 0 <= i -> fc d' (l ++ new) i =
       if decide (o0 + tot <= i < o0 + len) then vat buf (i - o0) else fc d l i).
Proof.
  intros Hd Hcl Hch Hcu Ho. revert d e l tot Hd Hcl Hch Hcu.
  induction fuel as [|fuel IH]; intros d e l tot Hd Hcl Hch Hcu Ht Hz Hf Hw Hin Hcap; cbn [write_loop];
    (destruct (Z.ltb_spec tot len);
     [|exists (cur_clus e), (clus_cnt e), d, []; replace tot with len by lia; rewrite app_nil_r;
       split; [by destruct e|]; split; [by apply grows_refl|]; split; [by destruct e|]; split; [lia|];
       intros i Hi; by rewrite decide_False by lia]); [lia|].
  destruct (relocClus_write d e l (o0 + tot)) as (c & d1 & n1 & E1 & G1 & Hc & Hcu1 & Hfc1); [done..|lia|lia|lia|].
  rewrite E1. cbn [obind set_clus cur_clus]. destruct (turn_bpc (o0 + tot) len tot) as (M1 & M2 & M3 & M4); [lia..|].
  set (m := if len - tot <? rBPC sb - (o0 + tot) mod rBPC sb then len - tot else rBPC sb - (o0 + tot) mod rBPC sb) in *.
  pose proof (gr_chain _ _ _ _ G1) as Hch1.
  assert (Hco : clus_ok c) by (apply (ch_ok _ _ Hch1); by eapply list_elem_of_lookup_2).
  destruct (rwClus_write d1 c (slice buf tot m) ((o0 + tot) mod rBPC sb) m) as (d2 & E2 & Hd2 & W1 & W2 & W3);
    [apply G1|done|lia..|apply slice_length; lia|].
  rewrite E2. cbn [obind]. rewrite Z.eqb_refl. cbn [negb]. rewrite u32_small by lia.
  assert (G2 : grows d1 d2 (l ++ n1) []).
  { apply grows_refl; [done|apply G1|done..|]. intros x i Hx Hi Hn. apply W3; [done..|].
    intros ->. apply Hn. by eapply list_elem_of_lookup_2. }
  pose proof (gr_free _ _ _ _ G1). pose proof (gr_free _ _ _ _ G2) as Hfr2. cbn [length] in Hfr2.
  pose proof (lookup_lt_Some _ _ _ Hc) as Hlt. assert (0 <= (o0 + tot) / rBPC sb) by (apply Z.div_pos; pose proof bpc_pos; lia).
  assert (Hlen : o0 + tot + m <= rBPC sb * Z.of_nat (length (l ++ n1))).
  { etransitivity; [exact M4|]. apply Z.mul_le_mono_nonneg_l; [pose proof bpc_pos; lia|lia]. }
  replace (o0 + tot + m) with (o0 + (tot + m)) in * by lia.
  pose proof (grows_trans _ _ _ _ _ _ G1 G2) as G12. rewrite app_nil_r in G12.
  destruct (IH d2 (set_clus e c ((o0 + tot) / rBPC sb)) (l ++ n1) (tot + m)) as (c' & k' & d3 & n2 & E3 & G3 & Hcu3 & Hl3 & Hfc3);
    [apply G12|apply G12|apply G12|done|lia|done|lia|done|done|rewrite length_app in *; lia|].
  exists c', k', d3, (n1 ++ n2). cbn [set_clus filename attribute first_clus file_size cur_clus clus_cnt dirty valid ref off parent next prev times] in E3, Hcu3 |- *.
  split; [exact E3|]. split; [by apply (grows_trans d d2 d3)|].
  rewrite app_assoc. split; [done|]. split; [done|].
  intros i Hi. rewrite Hfc3 by done.
  rewrite (fc_write d1 d2 (l ++ n1) c (o0 + tot) m (slice buf tot m)) by (done || lia). rewrite Hfc1 by done.
  repeat case_decide; try lia; try done. rewrite vat_slice by lia. f_equal. lia.
Qed.

Lemma read_loop_ok fuel d e l buf o0 tot len :
  disk_ok d -> chain d l -> cursor e l ->
  0 <= o0 -> 0 <= tot <= len -> len <= zlen buf -> len - tot < Z.of_nat fuel -> o0 + len < 2 ^ 32 ->
  o0 + len <= rBPC sb * Z.of_nat (length l) ->
  exists c k buf', read_loop sb fuel d e buf tot (o0 + tot) len = Done (len, buf', set_clus e c k) /\
    cursor (set_clus e c k) l /\ zlen buf' = zlen buf /\
    (forall i, 0 <= i -> vat buf' i = if decide (tot <= i < len) then fc d l (o0 + i) else vat buf i).
Proof.
  intros Hd Hch Hcu Ho. revert e buf tot Hcu.
  induction fuel as [|fuel IH]; intros e buf tot Hcu Ht Hz Hf Hw Hcap; cbn [read_loop];
    (assert (Hcc : cur_clus e < FAT32_EOC)
      by (destruct Hcu as (_ & Hl & _); apply clus_small, (ch_ok _ _ Hch); by eapply list_elem_of_lookup_2));
    (destruct (Z.ltb_spec (cur_clus e) FAT32_EOC); [|lia]); cbn [andb];
    (destruct (Z.ltb_spec tot len);
     [|exists (cur_clus e), (clus_cnt e), buf; replace tot with len by lia;
       split; [by destruct e|]; split; [by destruct e|]; split; [done|];
       intros i Hi; by rewrite decide_False by lia]); [lia|].
  assert (0 <= (o0 + tot) / rBPC sb) by (apply Z.div_pos; pose proof bpc_pos; lia).
  destruct (relocClus_in d e l (o0 + tot) false) as (c & Hc & E1); [done..|lia|apply Z.div_lt_upper_bound; [apply bpc_pos|lia]|].
  rewrite E1. cbn [obind set_clus cur_clus]. destruct (turn_bpc (o0 + tot) len tot) as (M1 & M2 & M3 & M4); [lia..|].
  set (m := if len - tot <? rBPC sb - (o0 + tot) mod rBPC sb then len - tot else rBPC sb - (o0 + tot) mod rBPC sb) in *.
  assert (Hco : clus_ok c) by (apply (ch_ok _ _ Hch); by eapply list_elem_of_lookup_2).
  destruct (rwClus_read d c (slice buf tot m) ((o0 + tot) mod rBPC sb) m) as (bs & E2 & Hbl & W1);
    [done|done|lia..|apply slice_length; lia|].
  rewrite E2. cbn [obind]. rewrite Z.eqb_refl. cbn [negb]. rewrite u32_small by lia.
  replace (o0 + tot + m) with (o0 + (tot + m)) in * by lia.
  destruct (IH (set_clus e c ((o0 + tot) / rBPC sb)) (splice buf tot bs) (tot + m)) as (c' & k' & buf' & E3 & Hcu3 & Hl3 & Hfc3);
    [by apply (cursor_set e c)|lia|rewrite splice_length; lia|lia|done|done|].
  exists c', k', buf'. cbn [set_clus filename attribute first_clus file_size cur_clus clus_cnt dirty valid ref off parent next prev times] in E3, Hcu3 |- *.
  split; [exact E3|]. split; [done|]. split; [rewrite Hl3; apply splice_length; lia|].
  intros i Hi. rewrite Hfc3 by done. rewrite vat_splice by lia. rewrite Hbl.
  repeat case_decide; try lia; try done. rewrite W1 by lia. unfold fc.
  pose proof bpc_pos. pose proof (Z.div_mod (o0 + tot) (rBPC sb) ltac:(lia)).
  assert (Hq : (o0 + i) / rBPC sb = (o0 + tot) / rBPC sb).
  { symmetry. apply (Z.div_unique _ _ _ (o0 + i - rBPC sb * ((o0 + tot) / rBPC sb))); lia. }
  rewrite Hq, Hc. f_equal. pose proof (Z.div_mod (o0 + i) (rBPC sb) ltac:(lia)). rewrite Hq in *. lia.
Qed.

(** ** Files *)

(** An entry for a plain file whose clusters are [l]; an empty file may have
    none. *)
Record file_ok (d : disk) (e : DirEnt) (l : list Z) : Prop := {
  fi_disk : disk_ok d;
  fi_closed : fat_closed d;
  fi_chain : chain d l;
  fi_plain : has (attribute e) ATTR_LINK = false /\ has (attribute e) ATTR_DIRECTORY = false;
  fi_start : l = [] /\ first_clus e = 0 \/ cursor e l;
  fi_size : 0 <= file_size e < 2 ^ 32 /\ file_size e <= rBPC sb * Z.of_nat (length l)
}.

(** A file that shares no cluster with a growing one keeps its contents. *)
Lemma grows_other d d' l new l2 :
  grows d d' l new -> chain d l2 -> (forall c, c ∈ l2 -> c ∉ l) ->
  chain d' l2 /\ forall i, 0 <= i -> fc d' l2 i = fc d l2 i.
Proof.
  intros G Hch Hdis.
  assert (Hn : forall c, c ∈ l2 -> c ∉ l ++ new).
  { intros c Hc [?|Hin]%elem_of_app; [by apply (Hdis c)|]. pose proof (gr_new _ _ _ _ G c Hin) as Hz.
    apply list_elem_of_lookup in Hc as [k Hk]. destruct (l2 !! S k) as [y|] eqn:Ey.
    - pose proof (ch_next _ _ Hch _ _ _ Hk Ey) as E. assert (clus_ok y) as [? ?]; [|lia].
      eapply ch_ok; [done|]. by eapply list_elem_of_lookup_2.
    - apply lookup_ge_None_1 in Ey. pose proof (lookup_lt_Some _ _ _ Hk).
      assert (last l2 = Some c) as E by (rewrite last_lookup; by replace (pred (length l2)) with k by lia).
      apply (ch_last _ _ Hch) in E. unfold FAT32_EOC in E. lia. }
  split.
  - apply (chain_frame d); [|done]. intros c Hc. apply (gr_fat _ _ _ _ G); [|by apply Hn].
    apply clus_fat_range. by apply (ch_ok _ _ Hch).
  - intros i Hi. unfold fc. destruct (l2 !! Z.to_nat (i / rBPC sb)) as [c|] eqn:E; [|done].
    apply list_elem_of_lookup_2 in E. pose proof bpc_pos. apply (gr_data _ _ _ _ G); [by apply (ch_ok _ _ Hch)| |by apply Hn].
    apply Z.mod_pos_bound. lia.
Qed.

(** Results of a write: the entry, the disk and the clusters added. *)
Record written (d : disk) (e : DirEnt) (l buf : list Z) (o len : Z) (e' : DirEnt) (d' : disk) (new : list Z) : Prop := {
  wr_file : file_ok d' e' (l ++ new);
  wr_size : file_size e' = Z.max (file_size e) (o + len);
  wr_bytes : forall i, 0 <= i -> fc d' (l ++ new) i = if decide (o <= i < o + len) then vat buf (i - o) else fc d l i;
  wr_free : (nfree d' + length new = nfree d)%nat;
  wr_other : forall l2, chain d l2 -> (forall c, c ∈ l2 -> c ∉ l) ->
    chain d' l2 /\ forall i, 0 <= i -> fc d' l2 i = fc d l2 i
}.

Lemma chain_nil d : chain d [].
Proof. split; [set_solver|constructor|done|done]. Qed.

(** The entry before the loop: a file without clusters gets its first one. *)
Lemma write_start d e l :
  file_ok d e l -> 0 < Z.of_nat (length l) + Z.of_nat (nfree d) ->
  exists e1 d1 new,
    (if first_clus e =? 0 then
       let* (c, d1) := allocClus sb d in
       Done (set_size (set_clus (set_first e (attribute e) c) c 0) (file_size e) true, d1)
     else Done (e, d)) = Done (e1, d1) /\
    grows d d1 l new /\ cursor e1 (l ++ new) /\ file_size e1 = file_size e /\ attribute e1 = attribute e /\
    (forall i, 0 <= i -> fc d1 (l ++ new) i = fc d l i).
Proof.
  intros [H1 H2 H3 H4 H5 H6] Hfree. destruct H5 as [[-> Hz]|Hcu].
  - rewrite Hz, Z.eqb_refl. destruct (allocClus_ok d H1 H2) as [[_ Hno]|(c & d1 & -> & Hp)].
    { exfalso. unfold nfree in Hfree. rewrite filter_none in Hfree; [cbn in Hfree; lia|].
      intros y Hy%elem_of_seqZ. apply Hno. split; lia. }
    cbn [obind]. eexists _, d1, [c]. split; [done|]. split; [by apply first_grow|]. split; [done|]. split; [done|].
    split; [done|]. destruct Hp as (Hc & Hz2 & Hd' & He & Hf & Hda & Hzero).
    intros i Hi. apply (fc_grow d d1 [] c); try done. set_solver.
  - pose proof Hcu as (C1 & C2 & C3). assert (first_clus e <> 0).
    { destruct l as [|x l]; [done|]. cbn in C3. injection C3 as <-. assert (clus_ok x) as [? ?]; [|lia].
      apply (ch_ok _ _ H3). set_solver. }
    destruct (Z.eqb_spec (first_clus e) 0); [done|]. exists e, d, []. rewrite app_nil_r.
    split; [done|]. split; [by apply grows_refl|]. done.
Qed.

Lemma entWrite_ok d e l buf o len :
  file_ok d e l -> has (attribute e) ATTR_READ_ONLY = false ->
  0 <= o <= file_size e -> 0 < len -> zlen buf = len -> o + len < 2 ^ 32 ->
  o + len <= rBPC sb * (Z.of_nat (length l) + Z.of_nat (nfree d)) ->
  exists e' d' new, entWrite sb d e buf o len = Done (len, e', d') /\ written d e l buf o len e' d' new.
Proof.
  intros Hfi Hro Ho Hl Hz Hw Hcap. pose proof Hfi as [H1 H2 H3 [H4a H4b] H5 [H6a H6b]]. pose proof bpc_pos as Hb.
  unfold entWrite. rewrite (u32_small (o + len)) by lia.
  destruct (Z.ltb_spec (file_size e) o); [lia|]. destruct (Z.ltb_spec (o + len) o); [lia|].
  destruct (Z.ltb_spec 4294967295 (o + len)); [lia|]. rewrite Hro. cbn [orb].
  unfold follow_link. rewrite H4a. cbn [obind].
  destruct (write_start d e l Hfi) as (e1 & d1 & n1 & -> & G1 & Hcu1 & Es & Ea & Hfc1).
  { destruct (Z.lt_ge_cases 0 (Z.of_nat (length l) + Z.of_nat (nfree d))) as [|Hle]; [done|].
    assert (rBPC sb * (Z.of_nat (length l) + Z.of_nat (nfree d)) = 0) by (replace (Z.of_nat (length l) + Z.of_nat (nfree d)) with 0; lia). lia. }
  cbn [obind]. pose proof (gr_free _ _ _ _ G1).
  destruct (write_loop_ok (S (Z.to_nat len)) d1 e1 (l ++ n1) buf o 0 len) as (c & k & d2 & n2 & E & G2 & Hcu2 & Hl2 & Hfc2);
    [apply G1|apply G1|apply G1|done|lia|lia|done|lia|done| | |].
  { rewrite length_app. lia. } { rewrite length_app. lia. }
  rewrite Z.add_0_r in E, Hfc2. rewrite E. cbn [obind]. destruct (Z.ltb_spec 0 len); [|lia]. cbn [andb].
  cbn [set_clus file_size]. rewrite Es. rewrite <- app_assoc in Hcu2, Hl2, Hfc2.
  pose proof (grows_trans _ _ _ _ _ _ G1 G2) as G.
  assert (Hfin : forall i, 0 <= i -> fc d2 (l ++ n1 ++ n2) i = if decide (o <= i < o + len) then vat buf (i - o) else fc d l i).
  { intros i Hi. rewrite Hfc2 by done. case_decide; [done|]. by apply Hfc1. }
  assert (Hdone : forall e', cursor e' (l ++ n1 ++ n2) -> attribute e' = attribute e ->
    file_size e' = Z.max (file_size e) (o + len) -> written d e l buf o len e' d2 (n1 ++ n2)).
  { intros e' Hc' Ha' Hs'. split; [|done|done|apply G|].
    - split; [apply G|apply G|apply G|by rewrite Ha'|by right|]. rewrite Hs'. split; [lia|].
      rewrite !length_app in *. lia.
    - intros l2 Hl3 Hl4. by apply (grows_other d d2 l (n1 ++ n2)). }
  destruct (Z.ltb_spec (file_size e) (o + len)); eexists _, d2, (n1 ++ n2); (split; [done|]); apply Hdone; cbn; done || lia.
Qed.

Lemma entRead_ok d e l buf o len :
  file_ok d e l -> 0 <= o <= file_size e -> 0 <= len -> len <= zlen buf -> o + len < 2 ^ 32 ->
  let n := Z.min len (file_size e - o) in
  exists e' buf', entRead sb d e buf o len = Done (n, buf', e') /\ file_ok d e' l /\ file_size e' = file_size e /\
    attribute e' = attribute e /\ zlen buf' = zlen buf /\
    (forall i, 0 <= i -> vat buf' i = if decide (i < n) then fc d l (o + i) else vat buf i).
Proof.
  intros [H1 H2 H3 [H4a H4b] H5 [H6a H6b]] Ho Hl Hz Hw n. unfold entRead. rewrite (u32_small (o + len)) by lia.
  destruct (Z.ltb_spec (file_size e) o); [lia|]. destruct (Z.ltb_spec (o + len) o); [lia|].
  rewrite H4b. cbn [orb]. unfold follow_link. rewrite H4a. cbn [obind].
  assert (En : (if file_size e <? o + len then u32 (file_size e - o) else len) = n).
  { unfold n. destruct (Z.ltb_spec (file_size e) (o + len)); [rewrite u32_small by lia|]; lia. }
  rewrite En. destruct H5 as [[-> Hf]|Hcu].
  - cbn in H6b. assert (En0 : n = 0) by lia. rewrite En0. exists e, buf. cbn [read_loop]. rewrite Z.ltb_irrefl, andb_false_r.
    split; [done|]. split; [split; try done; by left|]. split; [done|]. split; [done|]. split; [done|].
    intros i Hi. by rewrite decide_False by lia.
  - destruct (read_loop_ok (S (Z.to_nat n)) d e l buf o 0 n) as (c & k & buf' & E & Hcu' & Hbl & Hb); [done..|lia|lia|lia|lia|lia|lia|].
    rewrite Z.add_0_r in E. exists (set_clus e c k), buf'. split; [done|]. split; [split; try done; by right|].
    split; [done|]. split; [done|]. split; [done|]. intros i Hi. rewrite Hb by done. repeat case_decide; done || lia.
Qed.

(** ** Truncation *)
Lemma chain_tail d c l : chain d (c :: l) -> chain d l.
Proof.
  intros [H1 H2 H3 H4]. split.
  - intros x Hx. apply H1. set_solver.
  - by inversion H2.
  - intros k a b Ha Hb. by apply (H3 (S k)).
  - intros x Hx. apply H4. destruct l; [done|]. done.
Qed.

Lemma trunc_loop_ok fuel d l c :
  disk_ok d -> chain d l -> (length l < fuel)%nat ->
  (head l = Some c \/ l = [] /\ (c < 2 \/ FAT32_EOC <= c)) ->
  exists d', trunc_loop sb fuel d c = Done d' /\ disk_ok d' /\ (forall x, x ∈ l -> fat d' x = 0) /\
    fat_same d d' (fun x => x ∉ l) /\ data_same d d' (fun _ => True) /\ (nfree d' = nfree d + length l)%nat.
Proof.
  revert d l c. induction fuel as [|fuel IH]; intros d l c Hd Hch Hf Hh; [lia|]. cbn [trunc_loop].
  destruct Hh as [Hh|[-> Hc]].
  2:{ exists d. replace ((2 <=? c) && (c <? FAT32_EOC)) with false by (symmetry; unfold FAT32_EOC in *; apply andb_false_iff;
        rewrite Z.leb_gt, Z.ltb_ge; lia).
      split; [done|]. split; [done|]. split; [set_solver|]. split; [done|]. split; [done|]. cbn. lia. }
  destruct l as [|x l]; [done|]. cbn in Hh. injection Hh as ->.
  assert (Hc : clus_ok c) by (apply (ch_ok _ _ Hch); set_solver). pose proof (clus_small c Hc). pose proof Hc as [? ?].
  destruct (Z.leb_spec 2 c); [|lia]. destruct (Z.ltb_spec c FAT32_EOC); [|lia]. cbn [andb].
  rewrite fatRead_ok by done. cbn [obind]. unfold freeClus.
  destruct (fatWrite_ok d c 0) as (d1 & -> & Hd1 & F0 & Fs & Fd); [done..|]. cbn [obind].
  pose proof (ch_nodup _ _ Hch) as Hnd. apply NoDup_cons in Hnd as [Hnc Hnd].
  assert (Hch1 : chain d1 l).
  { apply (chain_frame d); [|by eapply chain_tail]. intros y Hy. apply Fs; [|by intros ->].
    apply clus_fat_range. apply (ch_ok _ _ Hch). set_solver. }
  destruct (IH d1 l (fat d c)) as (d2 & -> & Hd2 & Z2 & S2 & D2 & N2); [done|done|cbn in Hf; lia| |].
  { destruct l as [|y l]; [right|left].
    - split; [done|]. right. by apply (ch_last _ _ Hch).
    - cbn. f_equal. symmetry. by apply (ch_next _ _ Hch 0). }
  exists d2. split; [done|]. split; [done|].
  assert (Hz : fat d2 c = 0) by (rewrite (S2 c); [done|by apply clus_fat_range|done]).
  split; [|split; [|split]].
  - intros y [->|Hy]%elem_of_cons; [done|by apply Z2].
  - intros y Hy Hn. rewrite (S2 y); [|done|set_solver]. apply Fs; [done|set_solver].
  - intros y j Hy Hj _. rewrite (D2 y j Hy Hj I). by apply Fd.
  - rewrite N2. cbn [length]. enough (nfree d1 = S (nfree d)) by lia. apply (nfree_take d1 d c); try done.
    + intros E0. destruct l as [|y l].
      * pose proof (ch_last _ _ Hch c eq_refl) as E. unfold FAT32_EOC in E. lia.
      * pose proof (ch_next _ _ Hch 0 c y eq_refl eq_refl) as E. assert (clus_ok y) as [? ?]; [|lia].
        apply (ch_ok _ _ Hch). set_solver.
    + intros y Hy Hne. rewrite (Fs y); [done|by apply clus_fat_range|done].
Qed.

Lemma chain_short d l : chain d l -> (length l <= Z.to_nat (rDCC sb))%nat.
Proof.
  intros [H1 H2 _ _]. pose proof (vo_dcc Hv). rewrite <- (length_seqZ 2 (rDCC sb)).
  apply submseteq_length. apply NoDup_submseteq; [done|]. intros c Hc%H1. destruct Hc. apply elem_of_seqZ. lia.
Qed.

(** ** The properties *)

(** C11. Writing [len] bytes at an offset inside a plain file of a volume with
    enough free clusters returns [len]: the file then holds the written bytes
    at the offset and its old bytes elsewhere, its size is the larger of the
    old size and the end of the write, clusters are taken only from the free
    ones, and every file that shares no cluster with it keeps its chain and
    its contents. *)
Theorem fat_write_exact d e l buf o len :
  file_ok d e l -> has (attribute e) ATTR_READ_ONLY = false ->
  0 <= o <= file_size e -> 0 < len -> zlen buf = len -> o + len < 2 ^ 32 ->
  o + len <= rBPC sb * (Z.of_nat (length l) + Z.of_nat (nfree d)) ->
  exists e' d' new, entWrite sb d e buf o len = Done (len, e', d') /\ written d e l buf o len e' d' new.
Proof. apply entWrite_ok. Qed.

(** Reading from a plain file returns the bytes of the file from the
    offset on, as many as were asked for or as the file has left, leaves the
    rest of the buffer alone and changes nothing but the cursor. *)
Theorem fat_read_exact d e l buf o len :
  file_ok d e l -> 0 <= o <= file_size e -> 0 <= len -> len <= zlen buf -> o + len < 2 ^ 32 ->
  let n := Z.min len (file_size e - o) in
  exists e' buf', entRead sb d e buf o len = Done (n, buf', e') /\ file_ok d e' l /\ file_size e' = file_size e /\
    attribute e' = attribute e /\ zlen buf' = zlen buf /\
    (forall i, 0 <= i -> vat buf' i = if decide (i < n) then fc d l (o + i) else vat buf i).
Proof. apply entRead_ok. Qed.

(** C22. What was written is read back: a read of the same range after a
    successful write fills the buffer with exactly the bytes written. *)
Theorem fat_write_read d e l buf o len buf2 :
  file_ok d e l -> has (attribute e) ATTR_READ_ONLY = false ->
  0 <= o <= file_size e -> 0 < len -> zlen buf = len -> o + len < 2 ^ 32 ->
  o + len <= rBPC sb * (Z.of_nat (length l) + Z.of_nat (nfree d)) -> zlen buf2 = len ->
  exists e' d' e'', entWrite sb d e buf o len = Done (len, e', d') /\ entRead sb d' e' buf2 o len = Done (len, buf, e'').
Proof.
  intros Hfi Hro Ho Hl Hz Hw Hcap Hz2.
  destruct (entWrite_ok d e l buf o len) as (e' & d' & new & E & [W1 W2 W3 W4 W5]); [done..|].
  destruct (entRead_ok d' e' (l ++ new) buf2 o len) as (e'' & buf' & E2 & _ & _ & _ & Hbl & Hb); [done|lia..|].
  exists e', d', e''. split; [done|]. rewrite W2 in E2, Hb.
  replace (Z.min len (Z.max (file_size e) (o + len) - o)) with len in E2, Hb by lia. rewrite E2. do 3 f_equal.
  apply list_vat_eq; [lia|]. intros i Hi. rewrite Hb, decide_True by lia. rewrite W3, decide_True by lia. f_equal. lia.
Qed.

(** C25. Truncation of a plain file frees exactly the clusters of its chain:
    their FAT entries become zero and no other entry and no data changes; the
    file is then empty. *)
Theorem fat_trunc_exact d e l :
  file_ok d e l ->
  exists e' d', entTrunc sb d e = Done (e', d') /\ file_ok d' e' [] /\ file_size e' = 0 /\
    (forall c, c ∈ l -> fat d' c = 0) /\ fat_same d d' (fun c => c ∉ l) /\ data_same d d' (fun _ => True) /\
    nfree d' = (nfree d + length l)%nat.
Proof.
  intros [H1 H2 H3 [H4a H4b] H5 H6]. unfold entTrunc. rewrite H4a. pose proof (chain_short d l H3).
  destruct (trunc_loop_ok (S (Z.to_nat (rDCC sb))) d l (first_clus e)) as (d' & -> & Hd & Z2 & S2 & D2 & N2); [done|done|lia| |].
  { destruct H5 as [[-> ->]|(_ & _ & Hh)]; [right; split; [done|lia]|by left]. }
  cbn [obind]. eexists _, d'. split; [done|]. split; [|done].
  split; [done| |apply chain_nil|done|by left|cbn; lia].
  intros c Hc H0. destruct (decide (c ∈ l)) as [Hin|Hn]; [by apply (ch_ok _ _ H3)|].
  apply H2; [done|]. by rewrite <- (S2 c Hc Hn).
Qed.

End Vol.

(** ** Witnesses: a volume of 126 one-sector clusters with an empty file *)
Definition ex_sb : SuperBlock := mkSuper 0 2 126 126 512 (mkBPB 512 1 1 1 0 128 1 2).
Definition ex_fat : list Z := [248; 255; 255; 15; 255; 255; 255; 15] ++ replicate 504 0.
Definition ex_d : disk := <[(0, 1) := ex_fat]> ∅.
Definition ex_e : DirEnt := mkDirEnt [] 32 0 0 0 0 false 1 1 64 None 0 0 ((0, 0), (0, 0), (0, 0)).
Definition ex_buf : list Z := replicate 700 65.

Lemma ex_vol : vol_ok ex_sb.
Proof. by split; vm_compute. Qed.
Lemma ex_disk : disk_ok ex_d.
Proof.
  intros k. unfold dget, ex_d. destruct (decide (k = (0, 1))) as [->|].
  - by rewrite lookup_insert_eq.
  - rewrite lookup_insert_ne by done. by rewrite lookup_empty.
Qed.
Lemma ex_closed : fat_closed ex_sb ex_d.
Proof.
  intros c Hc Hz. change (128 * rFS ex_sb) with 128 in Hc. unfold clus_ok. change (rDCC ex_sb) with 126.
  assert (c <> 0) by (intros ->; vm_compute in Hz; discriminate).
  assert (c <> 1) by (intros ->; vm_compute in Hz; discriminate). lia.
Qed.
Lemma ex_file : file_ok ex_sb ex_d ex_e [].
Proof. split; [exact ex_disk|exact ex_closed|exact (chain_nil ex_sb ex_vol ex_d)|done|by left|cbn; lia]. Qed.
Lemma ex_room : nfree ex_sb ex_d = 126%nat.
Proof. vm_compute. reflexivity. Qed.
Lemma ex_fits : 0 + 700 <= rBPC ex_sb * (Z.of_nat (length (@nil Z)) + Z.of_nat (nfree ex_sb ex_d)).
Proof. rewrite ex_room. cbn. lia. Qed.

Lemma fat_write_exact_witness :
  exists e' d' new, entWrite ex_sb ex_d ex_e ex_buf 0 700 = Done (700, e', d') /\
    written ex_sb ex_d ex_e [] ex_buf 0 700 e' d' new.
Proof.
  apply (fat_write_exact ex_sb ex_vol ex_d ex_e [] ex_buf 0 700 ex_file); try exact ex_fits; done.
Defined.

Lemma fat_read_exact_witness :
  exists e' buf', entRead ex_sb ex_d ex_e ex_buf 0 700 = Done (0, buf', e') /\ file_ok ex_sb ex_d e' [] /\
    file_size e' = 0 /\ attribute e' = 32 /\ zlen buf' = 700 /\
    (forall i, 0 <= i -> vat buf' i = if decide (i < 0) then fc ex_sb ex_d [] (0 + i) else vat ex_buf i).
Proof. apply (fat_read_exact ex_sb ex_vol ex_d ex_e [] ex_buf 0 700 ex_file); done. Defined.

Lemma fat_write_read_witness :
  exists e' d' e'', entWrite ex_sb ex_d ex_e ex_buf 0 700 = Done (700, e', d') /\
    entRead ex_sb d' e' (replicate 700 0) 0 700 = Done (700, ex_buf, e'').
Proof.
  apply (fat_write_read ex_sb ex_vol ex_d ex_e [] ex_buf 0 700 (replicate 700 0) ex_file); try exact ex_fits; done.
Defined.

(** The file of 700 bytes that the write leaves: clusters 2 and 3. *)
Definition ex_d2 : disk := <[(0, 1) := [248; 255; 255; 15; 255; 255; 255; 15; 3; 0; 0; 0; 255; 255; 255; 15] ++ replicate 496 0]> ∅.
Definition ex_e2 : DirEnt := mkDirEnt [] 32 2 700 3 1 true 1 1 64 None 0 0 ((0, 0), (0, 0), (0, 0)).
Lemma ex_file2 : file_ok ex_sb ex_d2 ex_e2 [2; 3].
Proof.
  split; [| | |done| |cbn; lia].
  - intros k. unfold dget, ex_d2. destruct (decide (k = (0, 1))) as [->|].
    + by rewrite lookup_insert_eq.
    + rewrite lookup_insert_ne by done. by rewrite lookup_empty.
  - intros c Hc Hz. change (128 * rFS ex_sb) with 128 in Hc. unfold clus_ok. change (rDCC ex_sb) with 126.
    assert (c <> 0) by (intros ->; vm_compute in Hz; discriminate).
    assert (c <> 1) by (intros ->; vm_compute in Hz; discriminate). lia.
  - split.
    + intros c Hc. unfold clus_ok. change (rDCC ex_sb) with 126. assert (c = 2 \/ c = 3) by set_solver. lia.
    + repeat constructor; set_solver.
    + intros [|[|k]] c c' H1 H2; [|done..]. injection H1 as <-. injection H2 as <-. vm_compute. reflexivity.
    + intros c [=<-]. vm_compute. done.
  - right. done.
Qed.
Lemma fat_trunc_exact_witness :
  exists e' d', entTrunc ex_sb ex_d2 ex_e2 = Done (e', d') /\ file_ok ex_sb d' e' [] /\ file_size e' = 0 /\
    (forall c, c ∈ [2; 3] -> fat ex_sb d' c = 0) /\ fat_same ex_sb ex_d2 d' (fun c => c ∉ [2; 3]) /\
    data_same ex_sb ex_d2 d' (fun _ => True) /\ nfree ex_sb d' = (nfree ex_sb ex_d2 + length [2; 3])%nat.
Proof. exact (fat_trunc_exact ex_sb ex_vol ex_d2 ex_e2 [2; 3] ex_file2). Defined.

End FatFile.
