(* ===== verification/FatDir.v ===== *)
(** * FatDir: names and directories of the FAT32 driver (kernel/fs/fat.cc)

    Directory entries on disk are 32 bytes; in memory they are the 100 slots of
    [ecache], linked by [next] and [prev], and a [DirEnt*] is the number of its
    slot. File names are C strings in 256-byte buffers, the [string] arguments
    are their bytes (which hold no NUL). A [DirEnt*] parameter that may be null
    is an [option]. *)

From S2P Require Import Prelude Bytes Cstring Fat.
Local Open Scope Z_scope.

Module FatDir.
Import Cstring Fat.

Notation disk := (gmap (Z * Z) (list Z)).

(** ** Names *)
Fixpoint drop_lead (l : list Z) : list Z :=
  match l with
  | c :: l' => if (c =? 32) || (c =? 46) then drop_lead l' else l
  | [] => []
  end.
Fixpoint drop_spaces (l : list Z) : list Z :=
  match l with c :: l' => if c =? 32 then drop_spaces l' else l | [] => [] end.
Definition illegal_long (c : Z) : bool := (c <? 32) || existsb (Z.eqb c) [34; 42; 47; 58; 60; 62; 63; 92; 124].
(** flName: leading blanks and dots and trailing blanks go; a name with an
    illegal character becomes the empty one. *)
Definition flName (name : list Z) : list Z :=
  let body := drop_lead name in
  if existsb illegal_long body then [] else rev (drop_spaces (rev body)).

Definition illegal_short (c : Z) : bool := existsb (Z.eqb c) [43; 44; 59; 61; 91; 93].
(** The last '.' of the name, else its beginning. *)
Fixpoint last_dot (l : list Z) (i p : nat) : nat :=
  match l with [] => p | c :: l' => last_dot l' (S i) (if c =? 46 then i else p) end.
(** The loop of getShortName: [ni] is [name], [p] the pointer to the last dot
    (none once it has been passed), [out] the bytes written so far. *)
Fixpoint short_loop (fuel : nat) (s : list Z) (ni : nat) (p : option nat) (out : list Z) : list Z :=
  match fuel with
  | O => out
  | S f =>
      if (11 <=? length out)%nat then out
      else
        match s !! ni with
        | None => out
        | Some c =>
            let ni := S ni in
            if (length out =? 8)%nat && bool_decide (is_Some p) then
              let q := default 0%nat p in
              if (q + 1 <? ni)%nat then out else short_loop f s (q + 1) None out
            else if c =? 32 then short_loop f s ni p out
            else if c =? 46 then
              if (default 0%nat p <? ni)%nat
              then short_loop f s ni None (out ++ replicate (8 - length out) 32)
              else short_loop f s ni p out
            else
              let c := if (97 <=? c) && (c <=? 122) then c - 32 else if illegal_short c then 95 else c in
              short_loop f s ni p (out ++ [c])
        end
  end.
Definition getShortName (name : list Z) : list Z :=
  let out := short_loop (2 * length name + 2) name 0 (Some (last_dot name 0 0)) [] in
  out ++ replicate (11 - length out) 32.

Definition sum_step (sum c : Z) : Z := u8 ((if Z.land sum 1 =? 0 then 0 else 128) + Z.shiftr sum 1 + c).
Definition getCheckSum (short : list Z) : Z := foldl sum_step 0 (take 11 short).

(** ** Entries on disk *)
Definition de_order (de : list Z) : Z := vat de 0.
Definition de_attr (de : list Z) : Z := vat de 11.

(** The 13 characters of a long-name entry: two bytes each, 0xffff after the
    terminating zero. *)
Fixpoint enc_chars (n : nat) (p : list Z) (ended : bool) : list Z :=
  match n with
  | O => []
  | S n' =>
      if ended then [255; 255] ++ enc_chars n' p true
      else match p with
           | c :: p' => [c; 0] ++ enc_chars n' p' (c =? 0)
           | [] => [0; 0] ++ enc_chars n' [] true
           end
  end.
Definition enc_lne (order checksum : Z) (p : list Z) : list Z :=
  let w := enc_chars 13 p false in
  [order] ++ slice w 0 10 ++ [ATTR_LONG_NAME; 0; checksum] ++ slice w 10 12 ++ [0; 0] ++ slice w 22 4.
Definition enc_sne (name : list Z) (attr clus size : Z) : list Z :=
  name ++ [attr; 0; 0] ++ le16 0 ++ le16 0 ++ le16 0 ++ le16 (Z.shiftr clus 16) ++ le16 0 ++ le16 0
    ++ le16 (Z.land clus 65535) ++ le32 size.

(** 16-bit characters of a byte range. *)
Fixpoint wchars (n : nat) (de : list Z) (o : Z) : list Z :=
  match n with O => [] | S n' => get16 de o :: wchars n' de (o + 2) end.
(** LNE::readEntName into [buf] at [j]. *)
Definition lne_readEntName (de buf : list Z) (j : Z) : outcome (list Z) :=
  let* b1 := snstr buf j (wchars 5 de 1) 5 in
  let* b2 := snstr b1 (j + 5) (wchars 6 de 14) 6 in
  snstr b2 (j + 11) (wchars 2 de 28) 2.
(** SNE::readEntName: name, dot, extension. *)
Fixpoint upto_space (l : list Z) : list Z :=
  match l with c :: l' => if c =? 32 then [] else c :: upto_space l' | [] => [] end.
Definition sne_readEntName (de buf : list Z) : list Z :=
  let base := upto_space (slice de 0 8) in
  let ext := if vat de 8 =? 32 then [] else 46 :: upto_space (slice de 8 3) in
  splice buf 0 ((base ++ ext) ++ replicate (13 - length (base ++ ext)) 0).

(** fat::getTimeSpec. *)
Definition getTimeSpec (date time tenth : Z) : Z * Z :=
  let day := Z.land date 31 in
  let date := Z.shiftr date 5 in
  let month := Z.land date 15 in
  let date := Z.shiftr date 4 in
  let year := Z.land date 127 + 1980 in
  let second := Z.land time 31 * 2 + tenth / 100 in
  let time := Z.shiftr time 5 in
  let minute := Z.land time 63 in
  let time := Z.shiftr time 6 in
  let hour := Z.land time 31 in
  (i32 (i32 ((year / 4 - year / 100 + year / 400 + 365 * year + 367 * month / 12 + day - 719499) * 86400)
        + hour * 3600 + minute * 60 + second),
   (tenth mod 100) * 10000000).

(** DirEnt::operator=(const Ent&). *)
Definition assign_ent (e : DirEnt) (de : list Z) : DirEnt :=
  let clus := Z.lor (u32 (Z.shiftl (get16 de 20) 16)) (get16 de 26) in
  mkDirEnt (filename e) (de_attr de) clus (get32 de 28) clus 0 (dirty e) (valid e) (ref e) (off e)
    (parent e) (next e) (prev e)
    (getTimeSpec (get16 de 16) (get16 de 14) (vat de 13), getTimeSpec (get16 de 24) (get16 de 22) 0,
     getTimeSpec (get16 de 18) 0 0).

Definition set_name (e : DirEnt) (nm : list Z) : DirEnt :=
  mkDirEnt nm (attribute e) (first_clus e) (file_size e) (cur_clus e) (clus_cnt e) (dirty e) (valid e)
    (ref e) (off e) (parent e) (next e) (prev e) (times e).
Definition set_ref (e : DirEnt) (r : Z) : DirEnt :=
  mkDirEnt (filename e) (attribute e) (first_clus e) (file_size e) (cur_clus e) (clus_cnt e) (dirty e)
    (valid e) r (off e) (parent e) (next e) (prev e) (times e).
Definition set_links (e : DirEnt) (nx pv : nat) : DirEnt :=
  mkDirEnt (filename e) (attribute e) (first_clus e) (file_size e) (cur_clus e) (clus_cnt e) (dirty e)
    (valid e) (ref e) (off e) (parent e) nx pv (times e).
Definition set_place (e : DirEnt) (p : option nat) (o v : Z) : DirEnt :=
  mkDirEnt (filename e) (attribute e) (first_clus e) (file_size e) (cur_clus e) (clus_cnt e) (dirty e)
    v (ref e) o p (next e) (prev e) (times e).
Definition set_dirty (e : DirEnt) (b : bool) : DirEnt := set_size e (file_size e) b.

Section Dir.
Context (sb : SuperBlock).

(** ** Scanning a directory *)

(** The loop of DirEnt::entNext. [out] is the entry that receives the result,
    [cnt] the deleted entries passed, [count] the value of [*a_count]. *)
Fixpoint next_loop (fuel : nat) (d : disk) (e : DirEnt) (out : option DirEnt) (o cnt count : Z) (islne : bool)
  : outcome (Z * option DirEnt * Z * DirEnt) :=
  match fuel with
  | O => Diverge
  | S f =>
      let* (off2, e1, _) := relocClus sb d e o false in
      if off2 =? -1 then Done (-1, out, count, e1)
      else
        let* (bytes, de, _) := rwClus sb d (cur_clus e1) false (replicate 32 0) off2 32 in
        if negb (bytes =? 32) || (de_order de =? END_OF_ENTRY) then Done (-1, out, count, e1)
        else if de_order de =? EMPTY_ENTRY then next_loop f d e1 out (u32 (o + 32)) (cnt + 1) count islne
        else if negb (cnt =? 0) then Done (0, out, cnt, e1)
        else if de_attr de =? ATTR_LONG_NAME then
          let lcnt := Z.land (de_order de) (255 - LAST_LONG_ENTRY) in
          let last := has (de_order de) LAST_LONG_ENTRY in
          let* out' :=
            match out with
            | None => Done None
            | Some a =>
                let* nm := lne_readEntName de (filename a) ((lcnt - 1) * CHAR_LONG_NAME) in
                Done (Some (set_name a nm))
            end in
          next_loop f d e1 out' (u32 (o + 32)) cnt (if last then lcnt + 1 else count) (islne || last)
        else
          let count' := if islne then count else 1 in
          let out' :=
            match out with
            | None => None
            | Some a =>
                let a := if islne then a else set_name a (sne_readEntName de (filename a)) in
                Some (assign_ent a de)
            end in
          Done (1, out', count', e1)
  end.
(** A directory has at most as many entries as the volume holds. *)
Definition dirFuel : nat := S (Z.to_nat ((rDCC sb + 1) * rBPC sb / 32)).
(** DirEnt::entNext: the result, the entry filled, [*a_count] and the
    directory. *)
Definition entNext (d : disk) (e : DirEnt) (out : option DirEnt) (a_off count : Z)
  : outcome (Z * option DirEnt * Z * DirEnt) :=
  if negb (has (attribute e) ATTR_DIRECTORY) then Panic
  else if match out with Some a => negb (valid a =? 0) | None => false end then Panic
  else if negb (a_off mod 32 =? 0) then Panic
  else if negb (valid e =? 1) then Done (-1, out, count, e)
  else
    let* e1 := follow_link sb d e in
    next_loop dirFuel d e1 ((fun a => set_name a (replicate 256 0)) <$> out) a_off 0 count false.
(** DirEnt::isEmpty. *)
Definition isEmpty (d : disk) (e : DirEnt) : outcome bool :=
  let* (r, _, _, _) := entNext d e None 64 0 in Done (r =? -1).

(** ** The entry cache *)
Definition cget (c : list DirEnt) (i : nat) : outcome DirEnt :=
  match c !! i with Some e => Done e | None => Undef end.
Definition cput (c : list DirEnt) (i : nat) (e : DirEnt) : list DirEnt := <[i := e]> c.

Fixpoint eCacheAlloc_loop (fuel : nat) (c : list DirEnt) (ep : nat) : outcome (nat * list DirEnt) :=
  match fuel with
  | O => Diverge
  | S f =>
      if (ep =? 0)%nat then Panic
      else
        let* e := cget c ep in
        if ref e =? 0 then
          Done (ep, cput c ep (set_dirty (set_ref (set_place e (parent e) 0 0) 1) false))
        else eCacheAlloc_loop f c (prev e)
  end.
Definition eCacheAlloc (c : list DirEnt) : outcome (nat * list DirEnt) :=
  let* h := cget c 0 in eCacheAlloc_loop (S ENTRY_CACHE_NUM) c (prev h).

(** Comparison of names up to case, as C strings of at most 255 bytes. *)
Definition same_name (a b : list Z) : outcome bool :=
  let* r := strncmpamb a b FAT32_MAX_FILENAME in Done (r =? 0).
Definition name_of (e : DirEnt) : outcome (list Z) :=
  match cstr (filename e) with Some s => Done s | None => Undef end.
Definition dots (s : list Z) : bool := bool_decide (s = [46]) || bool_decide (s = [46; 46]).
(** The test of entSearch and eCacheHit: the name, or any entry but the dots
    when the name is empty. *)
Definition matches (e : DirEnt) (name : list Z) : outcome bool :=
  let* s := name_of e in
  let* eq := same_name (name ++ [0]) (filename e) in
  Done (eq || (bool_decide (name = []) && negb (dots s))).

Fixpoint eCacheHit_loop (fuel : nat) (c : list DirEnt) (this : nat) (name : list Z) (a_off : Z) (ep : nat)
  : outcome (nat * list DirEnt) :=
  match fuel with
  | O => Diverge
  | S f =>
      if (ep =? 0)%nat then eCacheAlloc c
      else
        let* e := cget c ep in
        let* m := (if (valid e =? 1) && bool_decide (parent e = Some this) && (a_off <=? off e)
                   then matches e name else Done false) in
        if m then
          let c1 := cput c ep (set_ref e (ref e + 1)) in
          if ref e =? 0 then
            let* pe := cget c1 this in Done (ep, cput c1 this (set_ref pe (ref pe + 1)))
          else Done (ep, c1)
        else eCacheHit_loop f c this name a_off (next e)
  end.
Definition eCacheHit (c : list DirEnt) (this : nat) (name : list Z) (a_off : Z) : outcome (nat * list DirEnt) :=
  let* h := cget c 0 in eCacheHit_loop (S ENTRY_CACHE_NUM) c this name a_off (next h).

(** ** Releasing an entry *)

(** DirEnt::parentUpdate: cluster and size go back into the short entry. *)
Definition parentUpdate (d : disk) (c : list DirEnt) (this : nat) : outcome (disk * list DirEnt) :=
  let* e := cget c this in
  if negb (dirty e) || negb (valid e =? 1) then Done (d, c)
  else
    match parent e with
    | None => Undef
    | Some pi =>
        let* p := cget c pi in
        let* (poff, p1, _) := relocClus sb d p (off e) false in
        let* (_, b, _) := rwClus sb d (cur_clus p1) false [0] (u32 poff) 1 in
        let entcnt := Z.land (vat b 0) (4294967295 - LAST_LONG_ENTRY) in
        let* (poff2, p2, _) := relocClus sb d p1 (u32 (off e + Z.shiftl entcnt 5)) false in
        let* (_, de, _) := rwClus sb d (cur_clus p2) false (replicate 32 0) (u32 poff2) 32 in
        let de1 := splice (splice (splice de 20 (le16 (Z.shiftr (first_clus e) 16)))
                             26 (le16 (Z.land (first_clus e) 65535))) 28 (le32 (file_size e)) in
        let* (_, _, d1) := rwClus sb d (cur_clus p2) true de1 (u32 poff2) 32 in
        let c1 := cput c pi p2 in
        let* e' := cget c1 this in
        Done (d1, cput c1 this (set_dirty e' false))
    end.

(** Unlink the entry from its place in the list and insert it after the
    root. *)
Definition to_front (c : list DirEnt) (root this : nat) : outcome (list DirEnt) :=
  let* e := cget c this in
  let* n := cget c (next e) in
  let c1 := cput c (next e) (set_links n (next n) (prev e)) in
  let* p := cget c1 (prev e) in
  let c2 := cput c1 (prev e) (set_links p (next e) (prev p)) in
  let* r := cget c2 root in
  let* e2 := cget c2 this in
  let c3 := cput c2 this (set_links e2 (next r) root) in
  let* rn := cget c3 (next r) in
  let c4 := cput c3 (next r) (set_links rn (next rn) this) in
  let* r4 := cget c4 root in
  Done (cput c4 root (set_links r4 this (prev r4))).

(** DirEnt::entRelse; getFATRoot takes a reference on the root each time. *)
Fixpoint entRelse (fuel : nat) (d : disk) (c : list DirEnt) (root this : nat) : outcome (disk * list DirEnt) :=
  match fuel with
  | O => Diverge
  | S f =>
      let* r := cget c root in
      let c := cput c root (set_ref r (ref r + 1)) in
      let* e := cget c this in
      if negb (this =? root)%nat && negb (valid e =? 0) && (ref e =? 1) then
        let* c1 := to_front c root this in
        let* (d2, c2) :=
          (if valid e =? -1 then
             let* e1 := cget c1 this in
             let* (e2, d2) := entTrunc sb d e1 in Done (d2, cput c1 this e2)
           else parentUpdate d c1 this) in
        let* e2 := cget c2 this in
        let c3 := cput c2 this (set_ref e2 (ref e2 - 1)) in
        if ref e2 - 1 =? 0 then
          match parent e2 with Some pi => entRelse f d2 c3 root pi | None => Undef end
        else Done (d2, c3)
      else Done (d, cput c this (set_ref e (ref e - 1)))
  end.

(** ** Searching *)

(** The loop of entSearch over the directory [this]; [ep] receives the
    entries. The condition assigns a boolean to [type], which is therefore not
    0 in the body: the branch for a deleted entry is never taken. *)
Fixpoint search_loop (fuel : nat) (d : disk) (c : list DirEnt) (root this ep : nat) (name : list Z)
    (a_off : option Z) (o count : Z) : outcome (option nat * option Z * disk * list DirEnt) :=
  match fuel with
  | O => Diverge
  | S f =>
      let* e := cget c this in
      let* a := cget c ep in
      let* (r, out, count1, e1) := entNext d e (Some a) o count in
      let c1 := cput (cput c this e1) ep (default a out) in
      if r =? -1 then
        let* (d2, c2) := entRelse (S ENTRY_CACHE_NUM) d c1 root ep in
        Done (None, (fun _ => o) <$> a_off, d2, c2)
      else
        let* a1 := cget c1 ep in
        let* m := matches a1 name in
        if m then
          let* t := cget c1 this in
          let c2 := cput c1 this (set_ref t (ref t + 1)) in
          let c3 := cput c2 ep (set_place a1 (Some this) o 1) in
          Done (Some ep, (fun _ => u32 (o + Z.shiftl count1 5)) <$> a_off, d, c3)
        else search_loop f d c1 root this ep name a_off (u32 (o + Z.shiftl count1 5)) count1
  end.
(** DirEnt::entSearch; [*a_off] when the pointer is given. *)
Definition entSearch (d : disk) (c : list DirEnt) (root this : nat) (name : list Z) (a_off : option Z)
  : outcome (option nat * option Z * disk * list DirEnt) :=
  let* e := cget c this in
  if negb (has (attribute e) ATTR_DIRECTORY) then Panic
  else
    let* e1 := follow_link sb d e in
    let c := cput c this e1 in
    if negb (valid e1 =? 1) then Done (None, a_off, d, c)
    else
      let* (ep, c) := eCacheHit c this name (default 0 a_off) in
      let* a := cget c ep in
      if valid a =? 1 then
        match a_off with
        | None => Done (Some ep, None, d, c)
        | Some _ =>
            let* t := cget c this in
            let tmp := mkDirEnt (replicate 256 0) 0 0 0 0 0 false 0 0 0 None 0 0 ((0, 0), (0, 0), (0, 0)) in
            let* (_, _, count, t1) := entNext d t (Some tmp) (off a) 0 in
            Done (Some ep, Some (u32 (off a + Z.shiftl count 5)), d, cput c this t1)
        end
      else
        let* t := cget c this in
        let* (_, t1, _) := relocClus sb d t 0 false in
        search_loop dirFuel d (cput c this t1) root this ep name a_off (default 0 a_off) 0.

(** ** Creating *)

(** The long-name entries, last part first; [i] parts are left. *)
Fixpoint create_loop (i : nat) (entcnt checksum : Z) (d : disk) (e : DirEnt) (name : list Z) (o : Z)
  : outcome (Z * disk * DirEnt) :=
  match i with
  | O => Done (o, d, e)
  | S i' =>
      let order := if Z.of_nat i =? entcnt then Z.lor (Z.of_nat i) LAST_LONG_ENTRY else Z.of_nat i in
      let de := enc_lne (u8 order) checksum (drop (13 * i') name) in
      let* (off2, e1, d1) := relocClus sb d e o true in
      let* (_, _, d2) := rwClus sb d1 (cur_clus e1) true de (u32 off2) 32 in
      create_loop i' entcnt checksum d2 e1 name (u32 (o + 32))
  end.
Definition dot_name (o : Z) : list Z := if o =? 0 then 46 :: replicate 10 32 else 46 :: 46 :: replicate 9 32.
(** DirEnt::entCreateOnDisk of [a] at offset [o] of the directory [e]. *)
Definition entCreateOnDisk (d : disk) (e a : DirEnt) (o : Z) : outcome (disk * DirEnt) :=
  if negb (has (attribute e) ATTR_DIRECTORY) then Panic
  else if negb (o mod 32 =? 0) then Panic
  else if o <=? 32 then
    let* (o1, e1, d1) := relocClus sb d e o true in
    let* (_, _, d2) := rwClus sb d1 (cur_clus e1) true
                         (enc_sne (dot_name o) ATTR_DIRECTORY (first_clus a) 0) (u32 o1) 32 in
    Done (d2, e1)
  else
    let* name := name_of a in
    let short := getShortName name in
    let entcnt := (zlen name + CHAR_LONG_NAME - 1) / CHAR_LONG_NAME in
    let* (o1, d1, e1) := create_loop (Z.to_nat entcnt) entcnt (getCheckSum short) d e (filename a) o in
    let* (o2, e2, d2) := relocClus sb d1 e1 o1 true in
    let* (_, _, d3) := rwClus sb d2 (cur_clus e2) true
                         (enc_sne short (attribute a) (first_clus a) (file_size a)) (u32 o2) 32 in
    Done (d3, e2).

(** [strncpy] into the 256-byte name buffer. *)
Definition name_buffer (name : list Z) : list Z := take 255 (name ++ replicate 255 0) ++ [0].

(** DirEnt::entCreate. *)
Definition entCreate (d : disk) (c : list DirEnt) (root this : nat) (a_name : list Z) (a_attr : Z)
  : outcome (option nat * disk * list DirEnt) :=
  let* e := cget c this in
  if negb (has (attribute e) ATTR_DIRECTORY) then Panic
  else
    let name := flName a_name in
    if negb (valid e =? 1) || bool_decide (name = []) then Done (None, d, c)
    else
      let* (found, o, d, c) := entSearch d c root this name (Some 0) in
      match found with
      | Some ep => Done (Some ep, d, c)
      | None =>
          let o := default 0 o in
          let* (ep, c) := eCacheHit c this name 0 in
          let* a := cget c ep in
          let* t := cget c this in
          let c := cput c this (set_ref t (ref t + 1)) in
          let a := mkDirEnt (name_buffer name) (u8 a_attr) 0 0 0 0 false (valid a) (ref a) o (Some this)
                     (next a) (prev a) (times a) in
          let* (d, c, a) :=
            (if a_attr =? ATTR_DIRECTORY then
               let* (clus, d) := allocClus sb d in
               let a := set_clus (set_first a (Z.lor (attribute a) ATTR_DIRECTORY) clus) clus 0 in
               let* (d, a) := entCreateOnDisk d a a 0 in
               let* t := cget c this in
               let* (d, a) := entCreateOnDisk d a t 32 in
               Done (d, c, a)
             else Done (d, c, set_first a (Z.lor (attribute a) ATTR_ARCHIVE) (first_clus a))) in
          let* t := cget c this in
          let* (d, t) := entCreateOnDisk d t a o in
          let c := cput c this t in
          Done (Some ep, d, cput c ep (set_place a (parent a) (off a) 1))
      end.

(** ** Removing *)
Fixpoint remove_loop (n : nat) (d : disk) (p : DirEnt) (off1 off2 : Z) : outcome (disk * DirEnt) :=
  match n with
  | O => Done (d, p)
  | S n' =>
      let* (_, _, d1) := rwClus sb d (cur_clus p) true [EMPTY_ENTRY] off2 1 in
      let* (off2', p1, _) := relocClus sb d1 p (u32 (off1 + 32)) false in
      remove_loop n' d1 p1 (u32 (off1 + 32)) (u32 off2')
  end.
(** DirEnt::entRemove. *)
Definition entRemove (d : disk) (c : list DirEnt) (this : nat) : outcome (disk * list DirEnt) :=
  let* e := cget c this in
  if negb (valid e =? 1) then Done (d, c)
  else
    match parent e with
    | None => Undef
    | Some pi =>
        let* p := cget c pi in
        let* (off2, p1, _) := relocClus sb d p (off e) false in
        let* (_, b, _) := rwClus sb d (cur_clus p1) false [0] (u32 off2) 1 in
        let entcnt := Z.land (vat b 0) (4294967295 - LAST_LONG_ENTRY) in
        let* (d1, p2) := remove_loop (S (Z.to_nat entcnt)) d p1 (off e) (u32 off2) in
        let c1 := cput c pi p2 in
        let* e' := cget c1 this in
        Done (d1, cput c1 this (set_place e' (parent e') (off e') (-1)))
    end.

(** ** Hard links *)

(** DirEnt::entLink of [this] into the directory [target]. *)
Definition entLink (d : disk) (c : list DirEnt) (root this : nat) (target : option nat)
  : outcome (Z * disk * list DirEnt) :=
  match target with
  | None => Done (-1, d, c)
  | Some ti =>
      let* e := cget c this in
      match parent e with
      | None => Undef
      | Some pi =>
          let* p := cget c pi in
          let* (off2, p1, _) := relocClus sb d p (off e) false in
          let c := cput c pi p1 in
          let* (bytes, de, _) := rwClus sb d (cur_clus p1) false (replicate 32 0) (u32 off2) 32 in
          if negb (bytes =? 32) || (de_order de =? END_OF_ENTRY) then Done (-1, d, c)
          else
            let* (de, d) :=
              (if negb (has (de_attr de) ATTR_LINK) then
                 let* (clus, d1) := allocClus sb d in
                 let* (_, _, d2) := rwClus sb d1 clus true (de ++ le32 2) 0 36 in
                 let de1 := splice (splice (splice (splice de 11 [Z.lor ATTR_DIRECTORY ATTR_LINK])
                                      20 (le16 (Z.shiftr clus 16))) 26 (le16 (Z.land clus 65535))) 28 (le32 36) in
                 let* (_, _, d3) := rwClus sb d2 (cur_clus p1) true de1 (u32 off2) 32 in
                 Done (de1, d3)
               else
                 let clus := u32 (u32 (Z.shiftl (get16 de 20) 16) + get16 de 26) in
                 let* (_, li, _) := rwClus sb d clus false (replicate 36 0) 0 36 in
                 let* (_, _, d1) := rwClus sb d clus true (splice li 32 (le32 (u32 (get32 li 32 + 1)))) 0 36 in
                 Done (de, d1)) in
            let* t := cget c ti in
            let* tn := name_of t in
            let* (found, o, d, c) := entSearch d c root ti tn (Some 0) in
            match found with
            | Some _ => Done (-1, d, c)
            | None =>
                let* t := cget c ti in
                let* (o1, t1, d1) := relocClus sb d t (default 0 o) true in
                let* (_, _, d2) := rwClus sb d1 (cur_clus t1) true de (u32 o1) 32 in
                Done (0, d2, cput c ti t1)
            end
      end
  end.
(** DirEnt::entUnlink. *)
Definition entUnlink (d : disk) (c : list DirEnt) (this : nat) : outcome (Z * disk * list DirEnt) :=
  let* e := cget c this in
  match parent e with
  | None => Undef
  | Some pi =>
      let* p := cget c pi in
      let* (off2, p1, _) := relocClus sb d p (off e) false in
      let c := cput c pi p1 in
      let* (bytes, de, _) := rwClus sb d (cur_clus p1) false (replicate 32 0) (u32 off2) 32 in
      if negb (bytes =? 32) || (de_order de =? END_OF_ENTRY) then Done (-1, d, c)
      else if has (de_attr de) ATTR_LINK then
        let clus := u32 (u32 (Z.shiftl (get16 de 20) 16) + get16 de 26) in
        let* (_, li, _) := rwClus sb d clus false (replicate 36 0) 0 36 in
        if u32 (get32 li 32 - 1) =? 0 then
          let* d1 := freeClus sb d clus in
          let* (_, _, d2) := rwClus sb d1 (cur_clus p1) true (slice li 0 32) (u32 off2) 32 in
          Done (0, d2, c)
        else Done (0, d, c)
      else Done (0, d, c)
  end.

End Dir.

(** ** The empty cache: eCacheInit links the slots in a ring. *)
Definition slot0 (i : nat) : DirEnt :=
  mkDirEnt (replicate 256 0) 0 0 0 0 0 false 0 0 0 None
    (if (S i =? ENTRY_CACHE_NUM)%nat then 0%nat else S i)
    (if (i =? 0)%nat then (ENTRY_CACHE_NUM - 1)%nat else (i - 1)%nat) ((0, 0), (0, 0), (0, 0)).
Definition eCacheInit : list DirEnt := slot0 <$> seq 0 ENTRY_CACHE_NUM.

(** FileSystem::ldSpBlk: the root takes a slot of the cache. *)
Definition mount_root (sb : SuperBlock) (c : list DirEnt) : outcome (nat * list DirEnt) :=
  let* (r, c) := eCacheAlloc c in
  let* e := cget c r in
  Done (r, cput c r (mkDirEnt (name_buffer [47]) (Z.lor ATTR_DIRECTORY ATTR_SYSTEM) (root_clus (bpb sb)) 0
                       (root_clus (bpb sb)) 0 false 1 1 0 None (next e) (prev e) ((0, 0), (0, 0), (0, 0)))).

End FatDir.
