(* ===== verification/FatName.v ===== *)
(** * FatName: long names and directory entries of [FatDir]

    Round trip of a name through its long-name entries, and of an entry
    through the directory: what entCreateOnDisk writes, entNext reads back. *)

From S2P Require Import Prelude Bytes Cstring Fat FatFile FatDir.
Local Open Scope Z_scope.

Module FatName.
Import Cstring Fat FatFile FatDir.

(** ** Narrowing *)
Lemma memset_loop_spec k mem p c :
  0 <= p -> p + Z.of_nat k <= zlen mem ->
  exists mem', memset_loop k mem p c = Done mem' /\ zlen mem' = zlen mem /\
    forall i, 0 <= i -> vat mem' i = if decide (p <= i < p + Z.of_nat k) then u8 c else vat mem i.
Proof.
  revert mem p. induction k as [|k IH]; intros mem p Hp Hk; cbn [memset_loop].
  { exists mem. split; [done|]. split; [done|]. intros i Hi. by rewrite decide_False by lia. }
  unfold zlen in *. rewrite aset_upd by lia. cbn [obind].
  destruct (IH (upd mem p (u8 c)) (p + 1)) as (mem' & -> & Hl & Hi); [lia|rewrite length_upd; lia|].
  exists mem'. split; [done|]. split; [rewrite Hl, length_upd; done|]. intros i Hi0. rewrite Hi by done.
  destruct (decide (i = p)) as [->|Hne].
  - rewrite decide_False, decide_True by lia. apply vat_upd_eq. lia.
  - rewrite vat_upd_ne by lia. repeat case_decide; done || lia.
Qed.

Lemma snstr_spec n dst j src :
  0 <= j -> j + Z.of_nat n <= zlen dst -> (n <= length src)%nat ->
  exists dst', snstr dst j src n = Done dst' /\ zlen dst' = zlen dst /\
    forall k, 0 <= k ->
      (~ j <= k < j + Z.of_nat n -> vat dst' k = vat dst k) /\
      (j <= k < j + Z.of_nat n -> (forall m, 0 <= m <= k - j -> vat src m <> 0) ->
         vat dst' k = u8 (Z.land (vat src (k - j)) 255)) /\
      (j <= k < j + Z.of_nat n -> vat src (k - j) = 0 -> (forall m, 0 <= m < k - j -> vat src m <> 0) ->
         vat dst k = 0 -> vat dst' k = 0).
Proof.
  revert dst j src. induction n as [|n IH]; intros dst j src Hj Hl Hs.
  { exists dst. split; [by destruct src|]. split; [done|]. intros k Hk. split; [by intros|]. split; intros; lia. }
  destruct src as [|w src]; [cbn in Hs; lia|]. cbn [snstr]. cbn in Hs. destruct (Z.eqb_spec w 0) as [->|Hw].
  - destruct (memset_loop_spec n dst j 0) as (dst' & -> & Hl' & Hi); [lia..|].
    exists dst'. split; [done|]. split; [done|]. intros k Hk. rewrite Hi by done. split; [|split].
    + intros Hn. by rewrite decide_False by lia.
    + intros Hin Hz. exfalso. apply (Hz 0); [lia|done].
    + intros _ _ _ H0. case_decide; done.
  - unfold zlen in *. rewrite aset_upd by lia. cbn [obind].
    destruct (IH (upd dst j (u8 (Z.land w 255))) (j + 1) src) as (dst' & -> & Hl' & Hi); [lia|rewrite length_upd; lia|lia|].
    exists dst'. split; [done|]. split; [by rewrite Hl', length_upd|]. intros k Hk. destruct (Hi k Hk) as (I1 & I2 & I3).
    assert (Hsh : forall m, 0 < m -> vat (w :: src) m = vat src (m - 1)).
    { intros m Hm. unfold vat. replace (Z.to_nat m) with (S (Z.to_nat (m - 1))) by lia. done. }
    destruct (decide (k = j)) as [->|Hne].
    + assert (Ej : vat dst' j = u8 (Z.land w 255)) by (rewrite I1 by lia; apply vat_upd_eq; lia).
      split; [lia|]. split; [intros _ _; by rewrite Z.sub_diag|]. intros _ H0. by rewrite Z.sub_diag in H0.
    + rewrite vat_upd_ne in I1, I3 by lia. split; [intros; apply I1; lia|]. split.
      * intros Hin Hz. rewrite Hsh by lia. replace (k - j - 1) with (k - (j + 1)) by lia. apply I2; [lia|].
        intros m Hm. specialize (Hz (m + 1) ltac:(lia)). rewrite Hsh in Hz by lia. by replace (m + 1 - 1) with m in Hz by lia.
      * intros Hin H0 Hz Hk0. rewrite Hsh in H0 by lia. apply I3; [lia|by replace (k - (j + 1)) with (k - j - 1) by lia| |done].
        intros m Hm. specialize (Hz (m + 1) ltac:(lia)). rewrite Hsh in Hz by lia. by replace (m + 1 - 1) with m in Hz by lia.
Qed.

(** ** One long-name entry *)
Lemma enc_chars_length n p b : length (enc_chars n p b) = (2 * n)%nat.
Proof.
  revert p b. induction n as [|n IH]; intros p b; [done|]. cbn [enc_chars].
  destruct b; [|destruct p]; rewrite length_app, IH; cbn; lia.
Qed.

(** The characters of the entry as 16-bit values. *)
Definition wpairs (n : nat) (w : list Z) : list Z := (fun t => get16 w (2 * Z.of_nat t)) <$> seq 0 n.

Lemma enc_lne_parts order ck p :
  let de := enc_lne order ck p in
  let w := enc_chars 13 p false in
  wchars 5 de 1 = slice (wpairs 13 w) 0 5 /\ wchars 6 de 14 = slice (wpairs 13 w) 5 6 /\
  wchars 2 de 28 = slice (wpairs 13 w) 11 2 /\ length de = 32%nat /\ de_order de = order /\ de_attr de = 15.
Proof.
  cbn zeta. unfold enc_lne. pose proof (enc_chars_length 13 p false) as Hl.
  set (w := enc_chars 13 p false) in *. clearbody w. cbn in Hl.
  do 26 (destruct w as [|? w]; [discriminate Hl|]; injection Hl as Hl). destruct w; [|discriminate Hl].
  repeat split; reflexivity.
Qed.

Lemma enc_ended n p : forall t, 0 <= t < 2 * Z.of_nat n -> vat (enc_chars n p true) t = 255.
Proof.
  induction n as [|n IH]; intros t Ht; [lia|]. cbn [enc_chars]. rewrite vat_app by lia. change (zlen [255; 255]) with 2.
  destruct (Z.ltb_spec t 2); [|apply IH; lia]. assert (t = 0 \/ t = 1) as [-> | ->] by lia; done.
Qed.

Lemma enc_chars_val n u v t :
  Forall (fun c => c <> 0) u -> 0 <= t < Z.of_nat n ->
  get16 (enc_chars n (u ++ 0 :: v) false) (2 * t) =
  if t <? zlen u then vat u t else if t =? zlen u then 0 else 65535.
Proof.
  revert u t. induction n as [|n IH]; intros u t Hu Ht; [lia|]. unfold get16.
  destruct u as [|c u].
  - change ([] ++ 0 :: v) with (0 :: v). cbn [enc_chars]. change (0 =? 0) with true. rewrite !vat_app by lia. change (zlen [0; 0]) with 2. change (zlen []) with 0.
    destruct (Z.ltb_spec t 0); [lia|]. destruct (Z.eqb_spec t 0) as [->|]; [done|].
    destruct (Z.ltb_spec (2 * t) 2); [lia|]. destruct (Z.ltb_spec (2 * t + 1) 2); [lia|].
    rewrite !enc_ended by lia. done.
  - change ((c :: u) ++ 0 :: v) with (c :: (u ++ 0 :: v)). cbn [enc_chars].
    apply Forall_cons in Hu as [Hc Hu]. destruct (Z.eqb_spec c 0); [done|].
    rewrite !vat_app by lia. change (zlen [c; 0]) with 2.
    assert (El : zlen (c :: u) = zlen u + 1) by (unfold zlen; cbn; lia). rewrite El. assert (0 <= zlen u) by (unfold zlen; lia).
    destruct (decide (t = 0)) as [->|Hne].
    + destruct (Z.ltb_spec 0 (zlen u + 1)); [|lia].
      change (vat [c; 0] (2 * 0)) with c. change (vat [c; 0] (2 * 0 + 1)) with 0. change (vat (c :: u) 0) with c.
      change (2 * 0 <? 2) with true. change (2 * 0 + 1 <? 2) with true. cbn iota. lia.
    + destruct (Z.ltb_spec (2 * t) 2); [lia|]. destruct (Z.ltb_spec (2 * t + 1) 2); [lia|].
      specialize (IH u (t - 1) Hu ltac:(lia)). unfold get16 in IH.
      replace (2 * t - 2) with (2 * (t - 1)) by lia. replace (2 * t + 1 - 2) with (2 * (t - 1) + 1) by lia. rewrite IH.
      destruct (Z.ltb_spec (t - 1) (zlen u)), (Z.ltb_spec t (zlen u + 1)); try lia.
      * unfold vat. replace (Z.to_nat t) with (S (Z.to_nat (t - 1))) by lia. done.
      * destruct (Z.eqb_spec (t - 1) (zlen u)), (Z.eqb_spec t (zlen u + 1)); done || lia.
Qed.

Lemma vat_wpairs n w t : 0 <= t < Z.of_nat n -> vat (wpairs n w) t = get16 w (2 * t).
Proof.
  intros Ht. unfold vat, wpairs. rewrite list_lookup_fmap, lookup_seq_lt by lia. cbn. do 2 f_equal. lia.
Qed.

(** Names: no NUL, bytes. *)
Definition plain (name : list Z) : Prop := Forall (fun c => 0 < c < 256) name.

Lemma plain_vat name k : plain name -> 0 <= k < zlen name -> 0 < vat name k < 256.
Proof.
  intros Hp Hk. unfold vat, zlen in *. destruct (name !! Z.to_nat k) eqn:E; [|apply lookup_ge_None_1 in E; lia].
  cbn. by apply (Forall_lookup_1 _ _ _ _ Hp E).
Qed.

Lemma name_buffer_eq name : zlen name <= 255 -> name_buffer name = name ++ replicate (256 - length name) 0.
Proof.
  intros Hl. unfold name_buffer, zlen in *. rewrite take_app_ge by lia. rewrite take_replicate, <- app_assoc. f_equal.
  rewrite Nat.min_l by lia. change [0] with (replicate 1 0). rewrite <- replicate_add. f_equal. lia.
Qed.
Lemma name_chunk name (i : nat) : zlen name <= 255 -> (13 * i <= length name)%nat ->
  exists v, drop (13 * i) (name_buffer name) = drop (13 * i) name ++ 0 :: v.
Proof.
  intros Hl Hi. rewrite name_buffer_eq by done. rewrite drop_app_le by lia. unfold zlen in *.
  exists (replicate (255 - length name) 0). by replace (256 - length name)%nat with (S (255 - length name)) by lia.
Qed.

Lemma u8_low c : 0 <= c < 256 -> u8 (Z.land c 255) = c.
Proof. intros Hc. change 255 with (Z.ones 8). rewrite Z.land_ones by lia. change (2 ^ 8) with 256. rewrite Z.mod_small by lia. by apply u8_small. Qed.

(** [part_ok name lo n b b']: [b'] is [b] with the characters [lo..lo+n) of
    the name, its terminator left zero. *)
Definition part_ok (name : list Z) (lo n : Z) (b b' : list Z) : Prop :=
  zlen b' = zlen b /\ forall k, 0 <= k ->
    (~ lo <= k < lo + n -> vat b' k = vat b k) /\
    (lo <= k < lo + n -> k < zlen name -> vat b' k = vat name k) /\
    (lo <= k < lo + n -> k = zlen name -> vat b k = 0 -> vat b' k = 0).

Lemma part_trans name lo n m b b1 b2 :
  0 <= n -> 0 <= m -> part_ok name lo n b b1 -> part_ok name (lo + n) m b1 b2 -> part_ok name lo (n + m) b b2.
Proof.
  intros Hn Hm [L1 P1] [L2 P2]. split; [lia|]. intros k Hk. destruct (P1 k Hk) as (A1 & A2 & A3), (P2 k Hk) as (B1 & B2 & B3).
  destruct (decide (lo <= k < lo + n)).
  - rewrite B1 by lia. split; [lia|]. split; intros; auto.
  - rewrite A1 in * by lia. split; [intros; apply B1; lia|]. split; intros; [apply B2|apply B3]; auto; lia.
Qed.

(** The 16-bit characters of the entry for the characters of [name] from [j]. *)
Definition encodes (name : list Z) (j : Z) (W : list Z) : Prop :=
  zlen W = 13 /\ forall t, 0 <= t < 13 ->
    (j + t < zlen name -> vat W t = vat name (j + t)) /\ (j + t = zlen name -> vat W t = 0).

Lemma enc_encodes name (i : nat) v :
  plain name -> (13 * i <= length name)%nat ->
  encodes name (13 * Z.of_nat i) (wpairs 13 (enc_chars 13 (drop (13 * i) name ++ 0 :: v) false)).
Proof.
  intros Hp Hi. split; [unfold wpairs, zlen; by rewrite length_fmap, length_seq|]. intros t Ht.
  rewrite vat_wpairs, enc_chars_val by first [lia | apply Forall_drop; eapply Forall_impl; [exact Hp|]; cbn; lia].
  assert (Hu : zlen (drop (13 * i) name) = zlen name - 13 * Z.of_nat i) by (unfold zlen; rewrite length_drop; lia).
  rewrite Hu. split; intros H.
  - destruct (Z.ltb_spec t (zlen name - 13 * Z.of_nat i)); [|lia]. rewrite <- (Nat2Z.id (13 * i)), vat_drop by lia. f_equal. lia.
  - destruct (Z.ltb_spec t (zlen name - 13 * Z.of_nat i)); [lia|].
    by destruct (Z.eqb_spec t (zlen name - 13 * Z.of_nat i)); [|lia].
Qed.

Lemma snstr_part name j W b o n :
  plain name -> encodes name j W -> 0 <= j -> 0 <= o -> o + Z.of_nat n <= 13 -> j + o + Z.of_nat n <= zlen b ->
  exists b', snstr b (j + o) (slice W o (Z.of_nat n)) n = Done b' /\ part_ok name (j + o) (Z.of_nat n) b b'.
Proof.
  intros Hp [LW HW] Hj Ho Hn Hb. pose proof (slice_length W o (Z.of_nat n) ltac:(lia) ltac:(lia) ltac:(lia)) as Hl.
  destruct (snstr_spec n b (j + o) (slice W o (Z.of_nat n))) as (b' & -> & L & S); [lia|lia|unfold zlen in Hl; lia|].
  exists b'. split; [done|]. split; [done|]. intros k Hk. destruct (S k Hk) as (A1 & A2 & A3). split; [done|].
  assert (Hnz : forall m, 0 <= m < Z.of_nat n -> j + o + m < zlen name -> vat (slice W o (Z.of_nat n)) m = vat name (j + o + m)).
  { intros m Hm Hlt. rewrite vat_slice by lia. destruct (HW (o + m)) as [E _]; [lia|]. rewrite E by lia. f_equal. lia. }
  split.
  - intros Hin Hlt. rewrite A2; [|done|].
    + rewrite Hnz by lia. replace (j + o + (k - (j + o))) with k by lia. apply u8_low.
      pose proof (plain_vat name k Hp). lia.
    + intros m Hm. rewrite Hnz by lia. pose proof (plain_vat name (j + o + m) Hp). lia.
  - intros Hin -> H0. apply A3; [done| | |done].
    + rewrite vat_slice by lia. apply HW; lia.
    + intros m Hm. rewrite Hnz by lia. pose proof (plain_vat name (j + o + m) Hp). lia.
Qed.

Lemma lne_decode name (i : nat) order ck buf :
  plain name -> zlen name <= 255 -> (13 * i <= length name)%nat -> zlen buf = 256 -> (13 * i + 13 <= 256)%nat ->
  exists buf', lne_readEntName (enc_lne order ck (drop (13 * i) (name_buffer name))) buf (13 * Z.of_nat i) = Done buf' /\
    part_ok name (13 * Z.of_nat i) 13 buf buf'.
Proof.
  intros Hp Hl Hi Hb Hj. destruct (name_chunk name i Hl Hi) as [v Ev].
  destruct (enc_lne_parts order ck (drop (13 * i) (name_buffer name))) as (P1 & P2 & P3 & _). cbn zeta in P1, P2, P3.
  unfold lne_readEntName. rewrite P1, P2, P3, Ev. clear P1 P2 P3 Ev.
  pose proof (enc_encodes name i v Hp Hi) as HW. set (W := wpairs 13 _) in *. clearbody W.
  set (j := 13 * Z.of_nat i) in *. assert (0 <= j /\ j + 13 <= 256) by lia. clearbody j.
  destruct (snstr_part name j W buf 0 5) as (b1 & E1 & Q1); [done|done|lia..|]. rewrite Z.add_0_r in E1, Q1.
  change (Z.of_nat 5) with 5 in *. rewrite E1. cbn [obind]. pose proof (proj1 Q1).
  destruct (snstr_part name j W b1 5 6) as (b2 & E2 & Q2); [done|done|lia..|].
  change (Z.of_nat 6) with 6 in *. rewrite E2. cbn [obind]. pose proof (proj1 Q2).
  destruct (snstr_part name j W b2 11 2) as (b3 & E3 & Q3); [done|done|lia..|].
  change (Z.of_nat 2) with 2 in *. rewrite E3. exists b3. split; [done|].
  apply (part_trans name j 11 2 buf b2); [lia..| |done]. by apply (part_trans name j 5 6 buf b1); [lia..| |].
Qed.

(** ** Directories as files *)
Section Dir.
Context (sb : SuperBlock) (Hv : vol_ok sb).

Record dir_ok (d : disk) (e : DirEnt) (l : list Z) : Prop := {
  dr_disk : disk_ok d;
  dr_closed : fat_closed sb d;
  dr_chain : chain sb d l;
  dr_cursor : cursor e l;
  dr_attr : has (attribute e) ATTR_DIRECTORY = true /\ has (attribute e) ATTR_LINK = false;
  dr_valid : valid e = 1
}.

(** An entry of 32 bytes lies in one cluster. *)
Lemma ent_fits o : 0 <= o -> o mod 32 = 0 ->
  0 <= o mod rBPC sb /\ o mod rBPC sb + 32 <= rBPC sb /\ o + 32 <= rBPC sb * (o / rBPC sb + 1) /\ 0 <= o / rBPC sb.
Proof.
  intros Ho Hm. pose proof (vo_bpc sb Hv) as Hb. pose proof (vo_spc sb Hv). pose proof (bpc_pos sb Hv).
  pose proof (Z.mod_pos_bound o (rBPC sb) ltac:(lia)) as B. pose proof (Z.div_mod o (rBPC sb) ltac:(lia)) as D.
  assert (0 <= o / rBPC sb) by (apply Z.div_pos; lia).
  assert (E : (o mod rBPC sb) mod 32 = 0).
  { replace (o mod rBPC sb) with (o + (- (16 * rSPC sb * (o / rBPC sb))) * 32) by lia. rewrite Z.mod_add by lia. done. }
  pose proof (Z.div_mod (o mod rBPC sb) 32 ltac:(lia)) as D2. rewrite E in D2. lia.
Qed.

Lemma dir_read d e l o :
  disk_ok d -> chain sb d l -> cursor e l -> 0 <= o -> o mod 32 = 0 -> o + 32 <= rBPC sb * Z.of_nat (length l) ->
  exists c de, relocClus sb d e o false = Done (o mod rBPC sb, set_clus e c (o / rBPC sb), d) /\
    cursor (set_clus e c (o / rBPC sb)) l /\
    rwClus sb d c false (replicate 32 0) (o mod rBPC sb) 32 = Done (32, de, d) /\
    zlen de = 32 /\ forall i, 0 <= i < 32 -> vat de i = fc sb d l (o + i).
Proof.
  intros Hd Hch Hcu Ho Hm Hl. destruct (ent_fits o Ho Hm) as (F1 & F2 & F3 & F4). pose proof (bpc_pos sb Hv).
  destruct (relocClus_in sb Hv d e l o false) as (c & Hc & E); [done..|apply Z.div_lt_upper_bound; lia|].
  assert (Hco : clus_ok sb c) by (apply (ch_ok _ _ _ Hch); by eapply list_elem_of_lookup_2).
  destruct (rwClus_read sb Hv d c (replicate 32 0) (o mod rBPC sb) 32) as (de & E2 & L & V); [done|done|lia|lia|lia|done|].
  exists c, de. split; [done|]. split; [by apply (cursor_set e c)|]. split; [done|]. split; [done|].
  intros i Hi. rewrite V by done. unfold fc. pose proof (Z.div_mod o (rBPC sb) ltac:(lia)).
  assert (Hq : (o + i) / rBPC sb = o / rBPC sb).
  { symmetry. apply (Z.div_unique _ _ _ (o mod rBPC sb + i)); lia. }
  rewrite Hq, Hc. f_equal. apply (Z.mod_unique _ _ (o / rBPC sb)); lia.
Qed.

Lemma dir_write d e l o de :
  disk_ok d -> fat_closed sb d -> chain sb d l -> cursor e l -> 0 <= o -> o mod 32 = 0 -> o <= rBPC sb * Z.of_nat (length l) ->
  o < rBPC sb * (Z.of_nat (length l) + Z.of_nat (nfree sb d)) -> zlen de = 32 ->
  exists c d1 d2 new, relocClus sb d e o true = Done (o mod rBPC sb, set_clus e c (o / rBPC sb), d1) /\
    rwClus sb d1 c true de (u32 (o mod rBPC sb)) 32 = Done (32, de, d2) /\
    grows sb d d2 l new /\ cursor (set_clus e c (o / rBPC sb)) (l ++ new) /\
    o + 32 <= rBPC sb * Z.of_nat (length (l ++ new)) /\
    (forall i, 0 <= i -> fc sb d2 (l ++ new) i = if decide (o <= i < o + 32) then vat de (i - o) else fc sb d l i).
Proof.
  intros Hd Hcl Hch Hcu Ho Hm Hl Hcap Hde. destruct (ent_fits o Ho Hm) as (F1 & F2 & F3 & F4). pose proof (bpc_pos sb Hv).
  destruct (relocClus_write sb Hv d e l o) as (c & d1 & new & E & G & Hc & Hcu1 & Hfc); [done..|].
  pose proof (gr_chain _ _ _ _ _ G) as Hch1.
  assert (Hco : clus_ok sb c) by (apply (ch_ok _ _ _ Hch1); by eapply list_elem_of_lookup_2).
  pose proof (vo_bpc sb Hv). pose proof (vo_spc sb Hv). rewrite (u32_small (o mod rBPC sb)) by lia.
  destruct (rwClus_write sb Hv d1 c de (o mod rBPC sb) 32) as (d2 & E2 & Hd2 & W1 & W2 & W3); [apply G|done|lia..|].
  assert (G2 : grows sb d1 d2 (l ++ new) []).
  { apply (grows_refl sb Hv); [done|apply G|done..|]. intros x i Hx Hi Hn. apply W3; [done..|].
    intros ->. apply Hn. by eapply list_elem_of_lookup_2. }
  pose proof (grows_trans sb Hv _ _ _ _ _ _ G G2) as G12. rewrite app_nil_r in G12.
  exists c, d1, d2, new. split; [done|]. split; [done|]. split; [done|]. split; [done|]. split.
  - apply lookup_lt_Some in Hc. etransitivity; [exact F3|]. apply Z.mul_le_mono_nonneg_l; lia.
  - intros i Hi. rewrite (fc_write sb Hv d1 d2 (l ++ new) c o 32 de) by done. by rewrite Hfc.
Qed.

(** ** Writing an entry *)
Fixpoint ents (i : nat) (entcnt ck : Z) (F : list Z) : list Z :=
  match i with
  | O => []
  | S i' =>
      enc_lne (u8 (if Z.of_nat i =? entcnt then Z.lor (Z.of_nat i) LAST_LONG_ENTRY else Z.of_nat i)) ck
        (drop (13 * i') F) ++ ents i' entcnt ck F
  end.
Lemma enc_lne_length order ck p : zlen (enc_lne order ck p) = 32.
Proof. destruct (enc_lne_parts order ck p) as (_ & _ & _ & H & _). unfold zlen. by rewrite H. Qed.
Lemma ents_length i entcnt ck F : zlen (ents i entcnt ck F) = 32 * Z.of_nat i.
Proof.
  induction i as [|i IH]; [done|]. cbn [ents]. unfold zlen in *. rewrite length_app.
  pose proof (enc_lne_length (u8 (if Z.of_nat (S i) =? entcnt then Z.lor (Z.of_nat (S i)) LAST_LONG_ENTRY else Z.of_nat (S i))) ck (drop (13 * i) F)) as H.
  unfold zlen in H. lia.
Qed.
Lemma mod32_next o : o mod 32 = 0 -> (o + 32) mod 32 = 0.
Proof. intros H. rewrite <- (Z.mul_1_l 32) at 1. rewrite Z.mod_add by lia. done. Qed.

Lemma create_loop_ok i entcnt ck d e l F o :
  disk_ok d -> fat_closed sb d -> chain sb d l -> cursor e l -> 0 <= o -> o mod 32 = 0 -> o <= rBPC sb * Z.of_nat (length l) ->
  o + 32 * Z.of_nat i <= rBPC sb * (Z.of_nat (length l) + Z.of_nat (nfree sb d)) -> o + 32 * Z.of_nat i < 2 ^ 32 ->
  exists c k d' new, create_loop sb i entcnt ck d e F o = Done (o + 32 * Z.of_nat i, d', set_clus e c k) /\
    grows sb d d' l new /\ cursor (set_clus e c k) (l ++ new) /\ (o + 32 * Z.of_nat i) mod 32 = 0 /\
    o + 32 * Z.of_nat i <= rBPC sb * Z.of_nat (length (l ++ new)) /\
    (forall j, 0 <= j -> fc sb d' (l ++ new) j =
       if decide (o <= j < o + 32 * Z.of_nat i) then vat (ents i entcnt ck F) (j - o) else fc sb d l j).
Proof.
  revert d e l o. induction i as [|i IH]; intros d e l o Hd Hcl Hch Hcu Ho Hm Hl Hcap Hw; cbn [create_loop].
  { exists (cur_clus e), (clus_cnt e), d, []. rewrite app_nil_r, Z.add_0_r. split; [by destruct e|].
    split; [by apply (grows_refl sb Hv)|]. split; [by destruct e|]. split; [done|]. split; [lia|].
    intros j Hj. by rewrite decide_False by lia. }
  cbn [ents]. set (de := enc_lne _ ck _). assert (Hde : zlen de = 32) by apply enc_lne_length. clearbody de.
  destruct (dir_write d e l o de) as (c & d1 & d2 & n1 & E1 & E2 & G & Hcu1 & Hl1 & Hfc1); [done..|lia|done|].
  rewrite E1. cbn [obind set_clus cur_clus]. rewrite E2. cbn [obind]. rewrite u32_small by lia.
  pose proof (gr_free _ _ _ _ _ G).
  destruct (IH d2 (set_clus e c (o / rBPC sb)) (l ++ n1) (o + 32)) as (c' & k' & d' & n2 & E3 & G2 & Hcu2 & M2 & Hl2 & Hfc2);
    [apply G|apply G|apply G|done|lia|by apply mod32_next|lia|rewrite length_app in *; lia|lia|].
  exists c', k', d', (n1 ++ n2). cbn [set_clus filename attribute first_clus file_size cur_clus clus_cnt dirty valid ref off parent next prev times] in E3, Hcu2 |- *.
  replace (o + 32 + 32 * Z.of_nat i) with (o + 32 * Z.of_nat (S i)) in * by lia.
  split; [exact E3|]. split; [by apply (grows_trans sb Hv d d2 d')|]. rewrite app_assoc. split; [done|]. split; [done|]. split; [done|].
  intros j Hj. rewrite Hfc2, Hfc1 by done. rewrite Nat2Z.inj_succ in *.
  destruct (decide (o + 32 <= j < o + 32 * Z.succ (Z.of_nat i))).
  - rewrite decide_True by lia. rewrite vat_app by lia. rewrite Hde. destruct (Z.ltb_spec (j - o) 32); [lia|]. f_equal. lia.
  - destruct (decide (o <= j < o + 32)); [|by rewrite decide_False by lia].
    rewrite decide_True by lia. rewrite vat_app by lia. rewrite Hde. by destruct (Z.ltb_spec (j - o) 32); [|lia].
Qed.

(** The bytes of the whole entry of [a]. *)
Definition ent_bytes (a : DirEnt) (name : list Z) : list Z :=
  let n := (zlen name + CHAR_LONG_NAME - 1) / CHAR_LONG_NAME in
  ents (Z.to_nat n) n (getCheckSum (getShortName name)) (filename a) ++
  enc_sne (getShortName name) (attribute a) (first_clus a) (file_size a).
Definition parts (name : list Z) : Z := (zlen name + 12) / 13.

Lemma short_loop_length fuel s ni p out : (length out <= 11)%nat -> (length (short_loop fuel s ni p out) <= 11)%nat.
Proof.
  revert ni p out. induction fuel as [|fuel IH]; intros ni p out Ho; cbn [short_loop]; [done|].
  destruct (Nat.leb_spec 11 (length out)); [done|]. destruct (s !! ni); [|done].
  repeat case_match; try done; apply IH; rewrite ?length_app, ?length_replicate; cbn; lia.
Qed.
Lemma short_length name : zlen (getShortName name) = 11.
Proof.
  unfold getShortName, zlen. rewrite length_app, length_replicate.
  pose proof (short_loop_length (2 * length name + 2) name 0 (Some (last_dot name 0 0)) [] ltac:(cbn; lia)). lia.
Qed.
Lemma enc_sne_length nm attr clus size : zlen nm = 11 -> zlen (enc_sne nm attr clus size) = 32.
Proof. unfold zlen, enc_sne. rewrite !length_app. cbn. lia. Qed.

Lemma entCreateOnDisk_ok d e l a name o :
  dir_ok d e l -> name_of a = Done name -> 32 < o -> o mod 32 = 0 -> o <= rBPC sb * Z.of_nat (length l) ->
  o + 32 * (parts name + 1) <= rBPC sb * (Z.of_nat (length l) + Z.of_nat (nfree sb d)) -> o + 32 * (parts name + 1) < 2 ^ 32 ->
  exists d' e' new, entCreateOnDisk sb d e a o = Done (d', e') /\ dir_ok d' e' (l ++ new) /\ grows sb d d' l new /\
    o + 32 * (parts name + 1) <= rBPC sb * Z.of_nat (length (l ++ new)) /\
    (forall j, 0 <= j -> fc sb d' (l ++ new) j =
       if decide (o <= j < o + 32 * (parts name + 1)) then vat (ent_bytes a name) (j - o) else fc sb d l j).
Proof.
  intros [H1 H2 H3 H4 [H5 H6] H7] Hn Ho Hm Hl Hcap Hw. unfold entCreateOnDisk. rewrite H5, Hm. cbn [negb Z.eqb].
  destruct (Z.leb_spec o 32); [lia|]. rewrite Hn. cbn [obind]. unfold ent_bytes, CHAR_LONG_NAME, parts in *.
  replace (zlen name + 13 - 1) with (zlen name + 12) in * by lia. set (n := (zlen name + 12) / 13) in *.
  assert (0 <= n) by (apply Z.div_pos; unfold zlen; lia). clearbody n.
  destruct (create_loop_ok (Z.to_nat n) n (getCheckSum (getShortName name)) d e l (filename a) o)
    as (c & k & d1 & n1 & -> & G1 & Hcu1 & M1 & Hl1 & Hfc1); [done..|lia|done|lia|lia|lia|].
  cbn [obind]. rewrite Z2Nat.id in * by done. pose proof (gr_free _ _ _ _ _ G1).
  assert (Hs : zlen (enc_sne (getShortName name) (attribute a) (first_clus a) (file_size a)) = 32)
    by (apply enc_sne_length, short_length).
  destruct (dir_write d1 (set_clus e c k) (l ++ n1) (o + 32 * n)
    (enc_sne (getShortName name) (attribute a) (first_clus a) (file_size a)))
    as (c2 & d2 & d3 & n2 & E2 & E3 & G2 & Hcu2 & Hl2 & Hfc2); [apply G1|apply G1|apply G1|done|lia|done|lia| |done|].
  { rewrite length_app. lia. }
  rewrite E2. cbn [obind set_clus cur_clus]. rewrite E3. cbn [obind].
  pose proof (grows_trans sb Hv _ _ _ _ _ _ G1 G2) as G. rewrite <- app_assoc in Hcu2, Hl2, Hfc2.
  eexists d3, _, (n1 ++ n2). split; [done|]. split.
  { split; [apply G|apply G|apply G|exact Hcu2|done|done]. }
  split; [done|]. split; [lia|]. intros j Hj. rewrite Hfc2, Hfc1 by done.
  rewrite (decide_ext (o <= j < o + 32 * (n + 1)) (o <= j < o + 32 * n \/ o + 32 * n <= j < o + 32 * n + 32)) by lia.
  destruct (decide (o + 32 * n <= j < o + 32 * n + 32)).
  - rewrite decide_True by lia. rewrite vat_app, ents_length, Z2Nat.id by lia.
    destruct (Z.ltb_spec (j - o) (32 * n)); [lia|]. f_equal. lia.
  - destruct (decide (o <= j < o + 32 * n)); [|by rewrite decide_False by lia].
    rewrite decide_True by lia. rewrite vat_app, ents_length, Z2Nat.id by lia.
    by destruct (Z.ltb_spec (j - o) (32 * n)); [|lia].
Qed.

(** ** Reading an entry back *)
Lemma cstr_app name r : plain name -> cstr (name ++ 0 :: r) = Some name.
Proof.
  induction name as [|c name IH]; intros Hp; [done|]. apply Forall_cons in Hp as [Hc Hp]. cbn.
  destruct (Z.eqb_spec c 0); [lia|]. by rewrite IH.
Qed.
Lemma cstr_vat name b :
  plain name -> zlen name < zlen b -> (forall k, 0 <= k < zlen name -> vat b k = vat name k) -> vat b (zlen name) = 0 ->
  cstr b = Some name.
Proof.
  intros Hp Hl Hk H0. rewrite <- (take_drop (length name) b).
  assert (E1 : take (length name) b = name).
  { apply list_vat_eq; [unfold zlen in *; rewrite length_take; lia|]. intros i Hi.
    rewrite <- (Nat2Z.id (length name)), vat_take; [apply Hk|]; unfold zlen in *; rewrite length_take in Hi; lia. }
  rewrite E1. destruct (drop (length name) b) as [|x r] eqn:E2.
  { apply (f_equal length) in E2. rewrite length_drop in E2. unfold zlen in Hl. cbn in E2. lia. }
  assert (x = 0) as ->; [|by apply cstr_app].
  rewrite <- H0. unfold vat, zlen. rewrite Nat2Z.id, <- (Nat.add_0_r (length name)), <- lookup_drop, E2. done.
Qed.

(** The order byte of a long-name entry. *)
Definition order (n i : Z) : Z := u8 (if i =? n then Z.lor i LAST_LONG_ENTRY else i).
Lemma order_facts n i : 1 <= i <= n -> n <= 19 ->
  order n i <> END_OF_ENTRY /\ order n i <> EMPTY_ENTRY /\ Z.land (order n i) (255 - LAST_LONG_ENTRY) = i /\
  has (order n i) LAST_LONG_ENTRY = (i =? n).
Proof.
  intros Hi Hn. assert (H : Forall (fun x => forall b : bool,
    let o := u8 (if b then Z.lor x 64 else x) in
    o <> 0 /\ o <> 229 /\ Z.land o 191 = x /\ has o 64 = b) (seqZ 1 19)).
  { vm_compute seqZ. repeat apply Forall_cons_2; try apply Forall_nil_2; intros []; vm_compute; done. }
  rewrite Forall_forall in H. by apply (H i ltac:(apply elem_of_seqZ; lia) (i =? n)).
Qed.

Lemma le16_val v : 0 <= v < 65536 -> v mod 256 + 256 * ((v / 256) mod 256) = v.
Proof.
  intros Hx. rewrite (Z.mod_small (v / 256)); [pose proof (Z.div_mod v 256); lia|].
  split; [apply Z.div_pos; lia|apply Z.div_lt_upper_bound; lia].
Qed.
Lemma clus_join c : 0 <= c < 2 ^ 32 -> Z.lor (u32 (Z.shiftl (Z.shiftr c 16) 16)) (Z.land c 65535) = c.
Proof.
  intros Hc. rewrite u32_small.
  - change 65535 with (Z.ones 16). rewrite <- Z.ldiff_ones_r by lia. apply Z.lor_ldiff_and.
  - rewrite Z.shiftr_div_pow2, Z.shiftl_mul_pow2 by lia. change (2 ^ 16) with 65536.
    pose proof (Z.div_mod c 65536 ltac:(lia)). pose proof (Z.mod_pos_bound c 65536 ltac:(lia)).
    split; [apply Z.mul_nonneg_nonneg; [apply Z.div_pos|]; lia|lia].
Qed.

Lemma assign_sne b nm attr clus size :
  zlen nm = 11 -> 0 <= attr < 256 -> 0 <= clus < 2 ^ 32 -> 0 <= size < 2 ^ 32 ->
  let de := enc_sne nm attr clus size in
  de_order de = vat nm 0 /\ de_attr de = attr /\
  let b' := assign_ent b de in
  attribute b' = attr /\ first_clus b' = clus /\ file_size b' = size /\ filename b' = filename b.
Proof.
  intros Hn Ha Hc Hs. unfold zlen in Hn. assert (Hn' : length nm = 11%nat) by lia. clear Hn.
  do 11 (destruct nm as [|? nm]; [discriminate Hn'|]; injection Hn' as Hn'). destruct nm; [|discriminate Hn'].
  cbn zeta. split; [done|]. split; [done|]. split; [done|].
  split; [|split; [|done]].
  - unfold assign_ent. cbn [first_clus]. set (de := enc_sne _ _ _ _).
    change (get16 de 20) with (Z.shiftr clus 16 mod 256 + 256 * ((Z.shiftr clus 16 / 256) mod 256)).
    change (get16 de 26) with (Z.land clus 65535 mod 256 + 256 * ((Z.land clus 65535 / 256) mod 256)).
    rewrite !le16_val; [by apply clus_join|..].
    + change 65535 with (Z.ones 16). rewrite Z.land_ones by lia. apply Z.mod_pos_bound. lia.
    + rewrite Z.shiftr_div_pow2 by lia. split; [apply Z.div_pos; lia|apply Z.div_lt_upper_bound; lia].
  - unfold assign_ent. cbn [file_size]. etransitivity; [|apply (get32_le32 size Hs)]. reflexivity.
Qed.

(** One turn of the scan at an entry whose bytes are [de]. *)
Lemma dir_entry d e l o de :
  disk_ok d -> chain sb d l -> cursor e l -> 0 <= o -> o mod 32 = 0 -> o + 32 <= rBPC sb * Z.of_nat (length l) ->
  zlen de = 32 -> (forall j, 0 <= j < 32 -> fc sb d l (o + j) = vat de j) ->
  exists e1, relocClus sb d e o false = Done (o mod rBPC sb, e1, d) /\ cursor e1 l /\ (o mod rBPC sb =? -1) = false /\
    rwClus sb d (cur_clus e1) false (replicate 32 0) (o mod rBPC sb) 32 = Done (32, de, d) /\
    exists c k, e1 = set_clus e c k.
Proof.
  intros Hd Hch Hcu Ho Hm Hl Hde Hc. destruct (dir_read d e l o) as (c & de' & E1 & C1 & E2 & L & V); [done..|].
  exists (set_clus e c (o / rBPC sb)). split; [done|]. split; [done|]. split.
  { destruct (ent_fits o Ho Hm) as (? & _). destruct (Z.eqb_spec (o mod rBPC sb) (-1)); [lia|done]. }
  split; [|by eexists _, _]. cbn [set_clus cur_clus]. rewrite E2. do 3 f_equal.
  apply list_vat_eq; [lia|]. intros j Hj. rewrite V by lia. apply Hc. lia.
Qed.

(** The scan over what is left of an entry: [i] long-name entries and the
    short one. *)
Lemma next_run name n ck d l short attr clus size i fuel e b o count :
  plain name -> zlen name <= 247 -> n = parts name -> 1 <= n <= 19 ->
  disk_ok d -> chain sb d l -> cursor e l -> 0 <= o -> o mod 32 = 0 ->
  o + 32 * (Z.of_nat i + 1) <= rBPC sb * Z.of_nat (length l) -> o + 32 * (Z.of_nat i + 1) < 2 ^ 32 ->
  zlen short = 11 -> 0 <= attr < 256 -> attr <> ATTR_LONG_NAME -> 0 <= clus < 2 ^ 32 -> 0 <= size < 2 ^ 32 ->
  vat short 0 <> END_OF_ENTRY -> vat short 0 <> EMPTY_ENTRY ->
  (forall j, 0 <= j < 32 * (Z.of_nat i + 1) ->
     fc sb d l (o + j) = vat (ents i n ck (name_buffer name) ++ enc_sne short attr clus size) j) ->
  (i < fuel)%nat -> Z.of_nat i <= n -> (Z.of_nat i < n -> count = n + 1) ->
  zlen (filename b) = 256 -> vat (filename b) (zlen name) = 0 ->
  (forall k, 13 * Z.of_nat i <= k < zlen name -> vat (filename b) k = vat name k) ->
  exists b' e', next_loop sb fuel d e (Some b) o 0 count (Z.of_nat i <? n) = Done (1, Some b', n + 1, e') /\
    cstr (filename b') = Some name /\ attribute b' = attr /\ first_clus b' = clus /\ file_size b' = size.
Proof.
  intros Hp Hl247 En Hn Hd Hch. revert fuel e b o count.
  induction i as [|i IH]; intros fuel e b o count Hcu Ho Hm Hl Hw Hsl Ha1 Ha2 Hcl Hsz Hs0 Hse Hc Hf Hi Hcnt Hb Hb0 Hbk.
  all: destruct fuel as [|fuel]; [lia|]; cbn [next_loop].
  - destruct (assign_sne b short attr clus size) as (A1 & A2 & A3 & A4 & A5 & A6); [done..|].
    destruct (dir_entry d e l o (enc_sne short attr clus size)) as (e1 & -> & C1 & Hne & E2 & _);
      [done..|lia|by apply enc_sne_length| |].
    { intros j Hj. apply Hc. lia. }
    cbn [obind]. rewrite Hne, E2. cbn [obind]. rewrite A1, A2. change (negb (32 =? 32)) with false. cbn [orb].
    destruct (Z.eqb_spec (vat short 0) END_OF_ENTRY); [done|]. destruct (Z.eqb_spec (vat short 0) EMPTY_ENTRY); [done|].
    change (negb (0 =? 0)) with false. cbn iota. destruct (Z.eqb_spec attr ATTR_LONG_NAME); [done|].
    destruct (Z.ltb_spec (Z.of_nat 0) n); [|lia]. rewrite (Hcnt ltac:(lia)). eexists _, _. split; [done|].
    rewrite A6. split; [|done]. apply cstr_vat; [done|unfold zlen in *; lia| |done]. intros k Hk. apply Hbk. lia.
  - cbn [ents] in Hc. fold (order n (Z.of_nat (S i))) in Hc.
    destruct (order_facts n (Z.of_nat (S i))) as (O1 & O2 & O3 & O4); [lia..|].
    set (de := enc_lne (order n (Z.of_nat (S i))) ck (drop (13 * i) (name_buffer name))) in *.
    assert (Hde : zlen de = 32) by apply enc_lne_length.
    destruct (enc_lne_parts (order n (Z.of_nat (S i))) ck (drop (13 * i) (name_buffer name))) as (_ & _ & _ & _ & P1 & P2).
    cbn zeta in P1, P2. fold de in P1, P2.
    assert (Hparts : 13 * Z.of_nat i < zlen name).
    { unfold parts in En. pose proof (Z.div_mod (zlen name + 12) 13 ltac:(lia)). pose proof (Z.mod_pos_bound (zlen name + 12) 13 ltac:(lia)). lia. }
    destruct (dir_entry d e l o de) as (e1 & -> & C1 & Hne & E2 & c1 & k1 & Ee1); [done..|lia|done| |].
    { intros j Hj. rewrite Hc by lia. rewrite <- app_assoc, vat_app by lia. rewrite Hde. by destruct (Z.ltb_spec j 32); [|lia]. }
    cbn [obind]. rewrite Hne, E2. cbn [obind]. rewrite P1, P2. change (negb (32 =? 32)) with false. cbn [orb].
    destruct (Z.eqb_spec (order n (Z.of_nat (S i))) END_OF_ENTRY); [done|].
    destruct (Z.eqb_spec (order n (Z.of_nat (S i))) EMPTY_ENTRY); [done|].
    change (negb (0 =? 0)) with false. change (15 =? ATTR_LONG_NAME) with true. cbn iota. rewrite O3, O4.
    replace ((Z.of_nat (S i) - 1) * CHAR_LONG_NAME) with (13 * Z.of_nat i) by (unfold CHAR_LONG_NAME; lia).
    destruct (lne_decode name i (order n (Z.of_nat (S i))) ck (filename b)) as (nb & Edec & [L1 P]); [done|lia|unfold zlen in *; lia|done|unfold zlen in *; lia|].
    fold de in Edec. rewrite Edec. cbn [obind]. rewrite u32_small by lia.
    replace ((Z.of_nat (S i) <? n) || (Z.of_nat (S i) =? n)) with (Z.of_nat i <? n)
      by (destruct (Z.ltb_spec (Z.of_nat i) n), (Z.ltb_spec (Z.of_nat (S i)) n), (Z.eqb_spec (Z.of_nat (S i)) n); done || lia).
    apply (IH fuel e1 (set_name b nb) (o + 32)); try done; try lia.
    + by apply mod32_next.
    + intros j Hj. replace (o + 32 + j) with (o + (32 + j)) by lia. rewrite Hc by lia.
      rewrite <- app_assoc, vat_app by lia. rewrite Hde. destruct (Z.ltb_spec (32 + j) 32); [lia|]. f_equal. lia.
    + intros _. destruct (Z.eqb_spec (Z.of_nat (S i)) n); [lia|]. apply Hcnt. lia.
    + cbn [set_name filename]. lia.
    + cbn [set_name filename]. destruct (P (zlen name)) as (Q1 & Q2 & Q3); [unfold zlen; lia|].
      destruct (decide (13 * Z.of_nat i <= zlen name < 13 * Z.of_nat i + 13)); [by apply Q3|]. by rewrite Q1.
    + cbn [set_name filename]. intros k Hk. destruct (P k) as (Q1 & Q2 & _); [lia|].
      destruct (decide (13 * Z.of_nat i <= k < 13 * Z.of_nat i + 13)); [apply Q2; lia|]. rewrite Q1 by done. apply Hbk. lia.
Qed.

Lemma name_of_buffer a name : plain name -> zlen name <= 255 -> filename a = name_buffer name -> name_of a = Done name.
Proof.
  intros Hp Hl Hf. unfold name_of. rewrite Hf, name_buffer_eq by done. unfold zlen in Hl.
  replace (256 - length name)%nat with (S (255 - length name)) by lia. cbn [replicate]. by rewrite cstr_app.
Qed.
Lemma parts_bounds name : 1 <= zlen name <= 247 -> 1 <= parts name <= 19.
Proof.
  intros H. unfold parts. split; [apply Z.div_le_lower_bound; lia|].
  enough ((zlen name + 12) / 13 < 20) by lia. apply Z.div_lt_upper_bound; lia.
Qed.

(** The entries that fit in a chain are fewer than the budget of the scan. *)
Lemma dirFuel_enough d l k : chain sb d l -> 0 <= k -> 32 * (k + 1) <= rBPC sb * Z.of_nat (length l) -> (Z.to_nat k < dirFuel sb)%nat.
Proof.
  intros Hch Hk Hl. pose proof (chain_short sb Hv d l Hch). pose proof (vo_dcc sb Hv). pose proof (bpc_pos sb Hv).
  assert (rBPC sb * Z.of_nat (length l) <= (rDCC sb + 1) * rBPC sb)
    by (rewrite (Z.mul_comm (rDCC sb + 1)); apply Z.mul_le_mono_nonneg_l; lia).
  assert (k + 1 <= (rDCC sb + 1) * rBPC sb / 32) by (apply Z.div_le_lower_bound; lia).
  unfold dirFuel. lia.
Qed.

(** C24. An entry written into a directory is read back, for a name of 1 to 247
    bytes, none of them NUL (from 248 bytes on the long-name entries overrun
    filename[256]), whose short form does not start with the marks 0x00 and 0xE5
    of an unused or deleted entry, and for attributes other than the mark of a
    long-name entry: after entCreateOnDisk of such an entry at an offset that is
    a multiple of 32 beyond the two dot entries and at most the size of the
    directory, on a volume with enough free clusters for it, the scan of entNext
    at that offset finds a valid entry with the same name, attributes, first
    cluster and size, and reports the number of 32-byte entries it takes; the
    rest of the directory keeps its bytes. *)
Theorem created_entry_found d e l a name o b count :
  dir_ok d e l -> plain name -> 1 <= zlen name <= 247 -> filename a = name_buffer name ->
  0 <= attribute a < 256 -> attribute a <> ATTR_LONG_NAME -> 0 <= first_clus a < 2 ^ 32 -> 0 <= file_size a < 2 ^ 32 ->
  vat (getShortName name) 0 <> END_OF_ENTRY -> vat (getShortName name) 0 <> EMPTY_ENTRY -> valid b = 0 ->
  32 < o -> o mod 32 = 0 -> o <= rBPC sb * Z.of_nat (length l) ->
  o + 32 * (parts name + 1) <= rBPC sb * (Z.of_nat (length l) + Z.of_nat (nfree sb d)) -> o + 32 * (parts name + 1) < 2 ^ 32 ->
  exists d' e' new, entCreateOnDisk sb d e a o = Done (d', e') /\ dir_ok d' e' (l ++ new) /\
    (forall j, 0 <= j -> ~ o <= j < o + 32 * (parts name + 1) -> fc sb d' (l ++ new) j = fc sb d l j) /\
    exists b' e'', entNext sb d' e' (Some b) o count = Done (1, Some b', parts name + 1, e'') /\
      cstr (filename b') = Some name /\ attribute b' = attribute a /\ first_clus b' = first_clus a /\
      file_size b' = file_size a.
Proof.
  intros Hdir Hp Hl Hf Ha1 Ha2 Hc Hs Hs0 Hse Hb Ho Hm Hol Hcap Hw. pose proof (parts_bounds name Hl) as Hn.
  destruct (entCreateOnDisk_ok d e l a name o) as (d' & e' & new & E & D & G & Hl2 & Hfc);
    [done|apply name_of_buffer; [done|lia|done]|done..|].
  exists d', e', new. split; [done|]. split; [done|]. split; [intros j Hj Hn2; by rewrite Hfc, decide_False|].
  destruct D as [D1 D2 D3 D4 [D5 D6] D7]. unfold entNext. rewrite D5, Hb, D7, Hm. cbn [negb].
  change (negb (0 =? 0)) with false. change (negb (1 =? 1)) with false. cbn iota.
  unfold follow_link. rewrite D6. cbn [obind fmap option_fmap option_map].
  pose proof (dirFuel_enough d' (l ++ new) (parts name) D3 ltac:(lia) ltac:(lia)).
  destruct (next_run name (parts name) (getCheckSum (getShortName name)) d' (l ++ new) (getShortName name)
    (attribute a) (first_clus a) (file_size a) (Z.to_nat (parts name)) (dirFuel sb) e' (set_name b (replicate 256 0)) o count)
    as (b' & e'' & E2 & R); rewrite ?Z2Nat.id by lia; try done; try lia.
  - by apply short_length.
  - intros j Hj. rewrite Hfc, decide_True by lia. replace (o + j - o) with j by lia. unfold ent_bytes.
    replace (zlen name + CHAR_LONG_NAME - 1) with (zlen name + 12) by (unfold CHAR_LONG_NAME; lia). by rewrite Hf.
  - cbn [set_name filename]. unfold vat. destruct (replicate 256 0 !! Z.to_nat (zlen name)) eqn:E0; [|done].
    apply lookup_replicate in E0 as [-> _]. done.
  - intros k Hk. unfold parts in Hk. pose proof (Z.div_mod (zlen name + 12) 13 ltac:(lia)).
    pose proof (Z.mod_pos_bound (zlen name + 12) 13 ltac:(lia)). lia.
  - exists b', e''. rewrite Z2Nat.id, Z.ltb_irrefl in E2 by lia. done.
Qed.

End Dir.

(** ** Two defects of the directory code, on a volume of 126 clusters *)
Definition ex_root : disk :=
  <[(0, 1) := [248; 255; 255; 15; 255; 255; 255; 15; 255; 255; 255; 15] ++ replicate 500 0]> ∅.

(** A file created in an empty root directory is lost: its entry lands at
    offset 0, where entCreateOnDisk writes the entry of ".", so that after the
    next mount the directory holds "." and the name is not found. *)
Theorem root_first_entry_lost :
  (let* (r, c) := mount_root ex_sb eCacheInit in
   let* (x, d, c) := entCreate ex_sb ex_root c r r [65; 46; 84] ATTR_ARCHIVE in
   let* (r2, c2) := mount_root ex_sb eCacheInit in
   let* (found, _, _, _) := entSearch ex_sb d c2 r2 r2 [65; 46; 84] None in
   let* e := cget c2 r2 in
   let* (k, out, _, _) := entNext ex_sb d e (Some (slot0 3)) 0 0 in
   Done (bool_decide (is_Some x), found, k, (fun b => cstr (filename b)) <$> out)) =
  Done (true, None, 1, Some (Some [46])).
Proof. vm_compute. reflexivity. Qed.

(** A deleted entry is listed: the search for any entry from the offset of
    a deleted one that is followed by another answers with a valid entry whose
    name is empty, because the value -1 is compared before the result of
    entNext is stored. *)
Theorem deleted_entry_listed :
  (let* (r, c) := mount_root ex_sb eCacheInit in
   let* (dir, d, c) := entCreate ex_sb ex_root c r r [68] ATTR_DIRECTORY in
   let x := default 0%nat dir in
   let* (one, d, c) := entCreate ex_sb d c r x [111; 110; 101] ATTR_ARCHIVE in
   let* (two, d, c) := entCreate ex_sb d c r x [116; 119; 111] ATTR_ARCHIVE in
   let* (d, c) := entRemove ex_sb d c (default 0%nat one) in
   let* e := cget c x in
   let sb2 := mkSuper 0 2 126 126 512 (mkBPB 512 1 1 1 0 128 1 (first_clus e)) in
   let* (r2, c2) := mount_root sb2 eCacheInit in
   let* (found, o, _, c2) := entSearch sb2 d c2 r2 r2 [] (Some 64) in
   let* f := cget c2 (default 0%nat found) in
   Done (bool_decide (is_Some found), valid f, cstr (filename f), o)) =
  Done (true, 1, Some [], Some 128).
Proof. vm_compute. reflexivity. Qed.

(** ** Witness *)
Definition ex_dir : DirEnt := mkDirEnt (name_buffer [47]) 20 2 0 2 0 false 1 1 0 None 0 0 ((0, 0), (0, 0), (0, 0)).
Definition ex_name : list Z := [104; 101; 108; 108; 111; 45; 119; 111; 114; 108; 100; 46; 116; 120; 116].
Definition ex_new : DirEnt := mkDirEnt (name_buffer ex_name) 32 7 700 7 0 false 0 1 64 None 0 0 ((0, 0), (0, 0), (0, 0)).
Lemma ex_dir_ok : dir_ok ex_sb ex_root ex_dir [2].
Proof.
  split; [| | | |done|done].
  - intros k. unfold dget, ex_root. destruct (decide (k = (0, 1))) as [->|].
    + by rewrite lookup_insert_eq.
    + rewrite lookup_insert_ne by done. by rewrite lookup_empty.
  - intros c Hc Hz. change (128 * rFS ex_sb) with 128 in Hc. unfold clus_ok. change (rDCC ex_sb) with 126.
    assert (c <> 0) by (intros ->; vm_compute in Hz; discriminate).
    assert (c <> 1) by (intros ->; vm_compute in Hz; discriminate). lia.
  - split.
    + intros c ->%list_elem_of_singleton. by vm_compute.
    + apply NoDup_singleton.
    + intros [|k] c c' H1 H2; done.
    + intros c [=<-]. vm_compute. done.
  - done.
Qed.
Lemma created_entry_found_witness :
  exists d' e' new, entCreateOnDisk ex_sb ex_root ex_dir ex_new 64 = Done (d', e') /\ dir_ok ex_sb d' e' ([2] ++ new) /\
    (forall j, 0 <= j -> ~ 64 <= j < 64 + 32 * (parts ex_name + 1) -> fc ex_sb d' ([2] ++ new) j = fc ex_sb ex_root [2] j) /\
    exists b' e'', entNext ex_sb d' e' (Some (slot0 3)) 64 0 = Done (1, Some b', parts ex_name + 1, e'') /\
      cstr (filename b') = Some ex_name /\ attribute b' = 32 /\ first_clus b' = 7 /\ file_size b' = 700.
Proof.
  apply (created_entry_found ex_sb ex_vol ex_root ex_dir [2] ex_new ex_name 64 (slot0 3) 0 ex_dir_ok);
    try (vm_compute; done).
  repeat apply Forall_cons_2; try apply Forall_nil_2; lia.
Defined.

End FatName.
