(* ===== verification/Path.v ===== *)
(** * Path: path names (Path::pathBuild, pathAbsolute and pathHitTable of
    kernel/fs/fs.cc)

    A path is its bytes. [pathBuild] is the scanner with its index table, as
    the code has it; it is shown equal to the reference [scan], and to invert
    [join]. *)

From S2P Require Import Prelude Bytes.
Local Open Scope Z_scope.

Module Path.

Definition slash : Z := 47.
Definition dot : list Z := [46].
Definition dotdot : list Z := [46; 46].

(** ** Path::pathBuild *)

(** The loop over the characters from [i] on; [ind] holds start and length of
    each component found, [rep] that the last character was a slash. *)
Fixpoint build_loop (l : list Z) (i : Z) (rep : bool) (dirnum : Z) (ind : list (Z * Z))
  : outcome (bool * Z * list (Z * Z)) :=
  match l with
  | [] => Done (rep, dirnum, ind)
  | c :: l' =>
      if c =? slash then
        if rep then build_loop l' (i + 1) rep dirnum ind
        else build_loop l' (i + 1) true (dirnum + 1) ind
      else
        let* x := aget ind dirnum in
        let* ind1 := aset ind dirnum (if rep then i else x.1, x.2 + 1) in
        build_loop l' (i + 1) false dirnum ind1
  end.
Definition pathBuild (pathname : list Z) : outcome (list (list Z)) :=
  let ind := replicate (length pathname) (0, 0) in
  let* (rep, dirnum, ind) := build_loop pathname 0 true 0 ind in
  let dirnum := if rep then dirnum else dirnum + 1 in
  Done ((fun x => slice pathname x.1 x.2) <$> take (Z.to_nat dirnum) ind).

(** ** Path::pathAbsolute on the names from the root down *)
Fixpoint abs_names (l : list (list Z)) : list Z :=
  match l with
  | [] => []
  | n :: rest =>
      if bool_decide (n = dot) || bool_decide (n = dotdot) then abs_names rest
      else if bool_decide (head rest = Some dotdot) then abs_names rest
      else slash :: n ++ abs_names rest
  end.
Definition pathAbsolute (names : list (list Z)) : list Z :=
  if bool_decide (abs_names names = []) then [slash] else abs_names names.

(** ** Path::pathHitTable: the longest key of the mount table that is a prefix
    of the path, keys in the order of the table. *)
Definition is_prefix (p l : list Z) : bool := bool_decide (take (length p) l = p).
Fixpoint hit_loop (keys : list (list Z)) (path : list Z) (longest : nat) (best : list Z) : nat * list Z :=
  match keys with
  | [] => (longest, best)
  | p :: keys' =>
      if (length p <=? length path)%nat && (longest <? length p)%nat && is_prefix p path
      then hit_loop keys' path (length p) p
      else hit_loop keys' path longest best
  end.
Definition pathHitTable (keys : list (list Z)) (path : list Z) : option (list Z * list Z) :=
  let '(longest, best) := hit_loop keys path 0 [] in
  if (0 <? longest)%nat then Some (best, drop longest path) else None.

(** ** The reference scanner *)
Fixpoint scan (l : list Z) (done : list (list Z)) (cur : list Z) : list (list Z) :=
  match l with
  | [] => match cur with [] => done | _ => done ++ [cur] end
  | c :: l' =>
      if c =? slash then match cur with [] => scan l' done [] | _ => scan l' (done ++ [cur]) [] end
      else scan l' done (cur ++ [c])
  end.
Definition join (names : list (list Z)) : list Z := concat ((fun n => slash :: n) <$> names).
(** A file name: not empty, without slash. *)
Definition name_ok (n : list Z) : Prop := n <> [] /\ slash ∉ n.

(** What the index table means after [i] characters of [path]: the closed
    components, then the open one if there is one. *)
Record table (path : list Z) (i : Z) (rep : bool) (dirnum : Z) (ind : list (Z * Z))
    (done : list (list Z)) (cur : list Z) : Prop := {
  tb_len : length ind = length path;
  tb_num : dirnum = Z.of_nat (length done);
  tb_done : ((fun x => slice path x.1 x.2) <$> take (length done) ind) = done;
  tb_room : 2 * dirnum + (if rep then 0 else 1) <= i;
  tb_rep : rep = true -> cur = [] /\ forall k, (length done <= k < length path)%nat -> ind !! k = Some (0, 0);
  tb_cur : rep = false -> cur <> [] /\ exists s, ind !! length done = Some (s, zlen cur) /\ 0 <= s /\ s + zlen cur = i /\
    slice path s (zlen cur) = cur /\ forall k, (length done < k < length path)%nat -> ind !! k = Some (0, 0)
}.

Lemma slice_snoc path s n c :
  0 <= s -> 0 <= n -> path !! Z.to_nat (s + n) = Some c -> slice path s (n + 1) = slice path s n ++ [c].
Proof.
  intros Hs Hn Hc. unfold slice. replace (Z.to_nat (n + 1)) with (S (Z.to_nat n)) by lia.
  apply take_S_r. rewrite lookup_drop, <- Hc. f_equal. lia.
Qed.

Lemma slash_turn path i dirnum ind done cur :
  table path i false dirnum ind done cur -> table path (i + 1) true (dirnum + 1) ind (done ++ [cur]) [].
Proof.
  intros [T1 T2 T3 T4 T5 T6]. destruct (T6 eq_refl) as (Hc & s & Hs & H1 & H2 & H3 & H4).
  split; [done|rewrite length_app; cbn; lia| |lia| |done].
  - rewrite length_app. cbn. rewrite Nat.add_1_r, (take_S_r _ _ _ Hs), fmap_app, T3. cbn. by rewrite H3.
  - intros _. split; [done|]. intros k Hk. rewrite length_app in Hk. cbn in Hk. apply H4. lia.
Qed.

Lemma char_turn path i rep dirnum ind done cur c :
  table path i rep dirnum ind done cur -> path !! Z.to_nat i = Some c -> 0 <= i ->
  exists x, aget ind dirnum = Done x /\ exists ind1, aset ind dirnum (if rep then i else x.1, x.2 + 1) = Done ind1 /\
    table path (i + 1) false dirnum ind1 done (cur ++ [c]).
Proof.
  intros [T1 T2 T3 T4 T5 T6] Hc Hi. pose proof (lookup_lt_Some _ _ _ Hc) as Hlt.
  assert (Hd : (length done < length path)%nat) by (destruct rep; lia).
  assert (Hx : exists x, ind !! length done = Some x /\
    (if rep then i else x.1) + (x.2 + 1) = i + 1 /\ 0 <= x.2 /\ 0 <= (if rep then i else x.1) /\ x.2 = zlen cur /\
    slice path (if rep then i else x.1) x.2 = cur).
  { destruct rep.
    - destruct (T5 eq_refl) as [-> H0]. exists (0, 0). split; [apply H0; lia|]. cbn. repeat split; try lia.
    - destruct (T6 eq_refl) as (_ & s & Hs & H1 & H2 & H3 & _). exists (s, zlen cur). cbn.
      split; [done|]. unfold zlen in *. repeat split; try lia. done. }
  destruct Hx as (x & Ex & Hsum & Hx2 & Hx1 & Hxc & Hsl). exists x.
  assert (Eg : aget ind dirnum = Done x).
  { unfold aget. destruct (Z.ltb_spec dirnum 0); [lia|]. rewrite T2, Nat2Z.id, Ex. done. }
  split; [done|]. rewrite aset_upd by lia. eexists. split; [done|]. unfold upd. rewrite T2, Nat2Z.id.
  split; [by rewrite length_insert|done| | |done|].
  - rewrite take_insert_ge by lia. done.
  - destruct rep; lia.
  - intros _. split; [by destruct cur|]. exists (if rep then i else x.1).
    assert (El : zlen (cur ++ [c]) = x.2 + 1) by (unfold zlen in *; rewrite length_app; cbn; lia).
    rewrite El. split; [rewrite list_lookup_insert_eq; [done|lia]|]. split; [done|]. split; [lia|]. split.
    + rewrite (slice_snoc path _ _ c), Hsl; [done|lia|lia|]. rewrite <- Hc. f_equal. lia.
    + intros k Hk. rewrite list_lookup_insert_ne by lia. destruct rep.
      * apply T5; [done|lia].
      * destruct (T6 eq_refl) as (_ & s & _ & _ & _ & _ & H4). apply H4. lia.
Qed.

Lemma build_loop_scan l pre rep dirnum ind done cur :
  let path := pre ++ l in
  table path (zlen pre) rep dirnum ind done cur ->
  exists rep' dirnum' ind', build_loop l (zlen pre) rep dirnum ind = Done (rep', dirnum', ind') /\
    exists done' cur', table path (zlen path) rep' dirnum' ind' done' cur' /\
      scan l done cur = match cur' with [] => done' | _ => done' ++ [cur'] end.
Proof.
  revert pre rep dirnum ind done cur. induction l as [|c l IH]; intros pre rep dirnum ind done cur path T; cbn [build_loop scan].
  { exists rep, dirnum, ind. split; [done|]. exists done, cur. split; [|done]. subst path. by rewrite app_nil_r in T |- *. }
  assert (Ep : path = (pre ++ [c]) ++ l) by (unfold path; by rewrite <- app_assoc).
  assert (Ez : zlen pre + 1 = zlen (pre ++ [c])) by (unfold zlen; rewrite length_app; cbn; lia).
  rewrite Ep in *. destruct (Z.eqb_spec c slash) as [->|Hne].
  - destruct rep.
    + pose proof (tb_rep _ _ _ _ _ _ _ T eq_refl) as [-> _]. rewrite Ez. apply IH. destruct T as [T1 T2 T3 T4 T5 T6].
      split; try done. lia.
    + pose proof (tb_cur _ _ _ _ _ _ _ T eq_refl) as [Hc _]. apply slash_turn in T. rewrite Ez in T |- *.
      destruct cur; [done|]. by apply IH.
  - destruct (char_turn _ _ _ _ _ _ _ c T) as (x & -> & ind1 & E & T'); [| unfold zlen; lia|].
    { unfold zlen. rewrite Nat2Z.id, <- app_assoc. by apply list_lookup_middle. }
    cbn [obind]. rewrite E. cbn [obind]. rewrite Ez in T' |- *. by apply IH.
Qed.

Lemma build_scan path : pathBuild path = Done (scan path [] []).
Proof.
  destruct (build_loop_scan path [] true 0 (replicate (length path) (0, 0)) [] []) as (rep & n & ind & E & done & cur & T & ->).
  { split; [by rewrite length_replicate|done|done|unfold zlen; cbn; lia| |done]. intros _. split; [done|].
    intros k Hk. cbn in Hk. apply lookup_replicate. split; [done|lia]. }
  unfold pathBuild. change (zlen []) with 0 in E. rewrite E. cbn [obind]. f_equal. cbn [app] in T.
  destruct T as [T1 T2 T3 T4 T5 T6]. subst n. destruct rep.
  - destruct (T5 eq_refl) as [-> _]. by rewrite Nat2Z.id.
  - destruct (T6 eq_refl) as (Hc & s & Hs & H1 & H2 & H3 & H4). destruct cur as [|c cur]; [done|].
    replace (Z.to_nat (Z.of_nat (length done) + 1)) with (S (length done)) by lia.
    rewrite (take_S_r _ _ _ Hs), fmap_app, T3. cbn [fmap list_fmap fst snd]. by rewrite H3.
Qed.

(** ** Names joined by slashes *)
Lemma scan_name n l done cur : slash ∉ n -> scan (n ++ l) done cur = scan l done (cur ++ n).
Proof.
  revert cur. induction n as [|c n IH]; intros cur Hn; [by rewrite app_nil_r|]. cbn [app scan].
  destruct (Z.eqb_spec c slash); [set_solver|]. rewrite IH by set_solver. by rewrite <- app_assoc.
Qed.
Lemma scan_join names done cur :
  Forall name_ok names -> scan (join names) done cur = (match cur with [] => done | _ => done ++ [cur] end) ++ names.
Proof.
  revert done cur. induction names as [|n names IH]; intros done cur Hf.
  { cbn. rewrite app_nil_r. done. }
  apply Forall_cons in Hf as [[Hn1 Hn2] Hf]. unfold join. cbn [fmap list_fmap concat app scan]. rewrite Z.eqb_refl.
  fold (join names).
  destruct cur; rewrite scan_name by done; cbn [app]; rewrite IH by done; (destruct n; [done|]); by rewrite <- app_assoc.
Qed.

(** C28. The components of a path are found: the scanner with its table of
    indices never leaves the table and answers, for every path, with the
    components of the reference scanner; the path made of slash-free,
    non-empty names has exactly these names as components. *)
Theorem pathBuild_correct path :
  pathBuild path = Done (scan path [] []) /\
  forall names, Forall name_ok names -> path = join names -> pathBuild path = Done names.
Proof.
  rewrite build_scan. split; [done|]. intros names Hn ->. by rewrite scan_join.
Qed.

(** ** Absolute paths *)

(** Lists in which every ".." directly follows the name it cancels. *)
Inductive tidy : list (list Z) -> Prop :=
| tidy_nil : tidy []
| tidy_dot l : tidy l -> tidy (dot :: l)
| tidy_name n l : name_ok n -> n <> dot -> n <> dotdot -> head l <> Some dotdot -> tidy l -> tidy (n :: l)
| tidy_up n l : name_ok n -> n <> dot -> n <> dotdot -> head l <> Some dotdot -> tidy l -> tidy (n :: dotdot :: l).

(** The reference: names are pushed, ".." pops, "." is skipped. *)
Fixpoint resolve (l : list (list Z)) (stack : list (list Z)) : list (list Z) :=
  match l with
  | [] => stack
  | n :: l' =>
      if bool_decide (n = dot) then resolve l' stack
      else if bool_decide (n = dotdot) then resolve l' (take (length stack - 1) stack)
      else resolve l' (stack ++ [n])
  end.

Lemma abs_skip n l : n = dot \/ n = dotdot -> abs_names (n :: l) = abs_names l.
Proof. intros [-> | ->]; done. Qed.

Lemma join_app a b : join (a ++ b) = join a ++ join b.
Proof. unfold join. by rewrite fmap_app, concat_app. Qed.

Lemma tidy_resolve l stack : tidy l -> join (resolve l stack) = join stack ++ abs_names l.
Proof.
  intros Ht. revert stack. induction Ht as [|l _ IH|n l Hn Hd Hdd Hh _ IH|n l Hn Hd Hdd Hh _ IH]; intros stack.
  - by rewrite app_nil_r.
  - rewrite abs_skip by auto. apply IH.
  - cbn [resolve abs_names]. rewrite !bool_decide_false by done. cbn [orb].
    rewrite IH, join_app, <- app_assoc. f_equal. unfold join. cbn. by rewrite app_nil_r.
  - cbn [resolve abs_names head]. rewrite (bool_decide_false (n = dot)), (bool_decide_false (n = dotdot)) by done.
    rewrite (bool_decide_true (dotdot = dotdot)), (bool_decide_false (dotdot = dot)) by done.
    rewrite (bool_decide_true (Some dotdot = Some dotdot)) by done. cbn [orb].
    rewrite length_app. cbn [length]. replace (length stack + 1 - 1)%nat with (length stack) by lia.
    rewrite take_app_length. apply IH.
Qed.

(** A path in which every ".." directly follows the name it cancels is made
    absolute as the reference does: names are pushed, ".." takes the last one
    away, "." is skipped. *)
Theorem pathAbsolute_tidy names :
  tidy names -> resolve names [] <> [] -> pathAbsolute names = join (resolve names []).
Proof.
  intros Ht Hne. pose proof (tidy_resolve names [] Ht) as E. change (join []) with (@nil Z) in E. cbn [app] in E. unfold pathAbsolute. rewrite <- E.
  rewrite bool_decide_false; [done|]. destruct (resolve names []) as [|n l]; [done|]. done.
Qed.

(** Two ".." in a row are not resolved: the code makes "/a" of "a/b/../..",
    whose absolute path is "/". *)
Theorem pathAbsolute_nested :
  pathBuild [97; 47; 98; 47; 46; 46; 47; 46; 46] = Done [[97]; [98]; dotdot; dotdot] /\
  pathAbsolute [[97]; [98]; dotdot; dotdot] = [47; 97] /\ resolve [[97]; [98]; dotdot; dotdot] [] = [].
Proof. split; [|split]; reflexivity. Qed.

(** ** The mount table *)
Lemma hit_loop_spec keys path longest best :
  (longest = length best) -> (longest = 0%nat \/ take (length best) path = best) ->
  let '(n, b) := hit_loop keys path longest best in
  n = length b /\ (longest <= n)%nat /\ (n = 0%nat \/ take n path = b) /\ (b = best \/ b ∈ keys) /\
  forall k, k ∈ keys -> take (length k) path = k -> (length k <= n)%nat.
Proof.
  revert longest best. induction keys as [|p keys IH]; intros longest best El Hp; cbn [hit_loop].
  { split; [done|]. split; [done|]. split; [subst longest; exact Hp|]. split; [by left|]. set_solver. }
  destruct (Nat.leb_spec (length p) (length path)) as [H1|H1], (Nat.ltb_spec longest (length p)) as [H2|H2];
    unfold is_prefix; cbn [andb].
  1: destruct (decide (take (length p) path = p)) as [H3|H3];
    [rewrite bool_decide_true by done|rewrite bool_decide_false by done].
  1: { specialize (IH (length p) p eq_refl (or_intror H3)). destruct (hit_loop keys path (length p) p) as [n b].
    destruct IH as (I1 & I2 & I3 & I4 & I5). split; [done|]. split; [lia|]. split; [done|]. split; [set_solver|].
    intros k [->|Hk]%elem_of_cons Hkp; [done|by apply I5]. }
  all: specialize (IH longest best El Hp); destruct (hit_loop keys path longest best) as [n b];
    destruct IH as (I1 & I2 & I3 & I4 & I5); (split; [done|]); (split; [done|]); (split; [done|]); (split; [set_solver|]);
    intros k [->|Hk]%elem_of_cons Hkp; [|by apply I5].
  - done.
  - lia.
  - apply (f_equal length) in Hkp. rewrite length_take in Hkp. lia.
  - lia.
Qed.

(** The longest key of the mount table that is a prefix of the path is
    chosen, and the rest of the path kept; there is no answer only when no
    non-empty key is a prefix. *)
Theorem pathHitTable_longest keys path :
  match pathHitTable keys path with
  | Some (k, rest) => k ∈ keys /\ path = k ++ rest /\
      forall k', k' ∈ keys -> take (length k') path = k' -> (length k' <= length k)%nat
  | None => forall k', k' ∈ keys -> take (length k') path = k' -> k' = []
  end.
Proof.
  unfold pathHitTable. pose proof (hit_loop_spec keys path 0 [] eq_refl (or_introl eq_refl)) as H.
  destruct (hit_loop keys path 0 []) as [n b]. destruct H as (-> & _ & H3 & H4 & H5).
  destruct (Nat.ltb_spec 0 (length b)) as [Hb|Hb].
  - destruct H3 as [H3|H3]; [lia|]. split; [destruct H4 as [->|?]; [cbn in Hb; lia|done]|]. split; [|done].
    rewrite <- H3 at 1. symmetry. apply take_drop.
  - intros k Hk Hp. specialize (H5 k Hk Hp). destruct k; [done|]. cbn in H5. lia.
Qed.

(** ** Witnesses *)
Lemma pathAbsolute_tidy_witness :
  tidy [[97]; dotdot; [98]; dot; [99]] /\
  pathAbsolute [[97]; dotdot; [98]; dot; [99]] = join (resolve [[97]; dotdot; [98]; dot; [99]] []).
Proof.
  assert (T : tidy [[97]; dotdot; [98]; dot; [99]]).
  { repeat first [apply tidy_nil | apply tidy_dot | apply tidy_up; [split; [done|set_solver]|done|done|done|]
      | apply tidy_name; [split; [done|set_solver]|done|done|done|]]. }
  split; [exact T|]. apply (pathAbsolute_tidy _ T). done.
Defined.

End Path.
