(* ===== verification/Vfs.v ===== *)
(** * Vfs: directory entries, path lookup and mounting (include/fs.hh,
    kernel/fs/fs.cc)

    The virtual class [INode] is the interface [INodeOps] over a state [S] of
    all file systems, an [INodeRef] is a number. Directory entries live in a
    table; an entry that is no longer in the table has been destroyed, so that
    a [weak_ptr] to it has expired. The mount table is an association list in
    the iteration order of the hash map. *)

From S2P Require Import Prelude Bytes Path.
Local Open Scope Z_scope.

(** What an inode offers to the layers above it. [nodRead s nod dst off len] is
    given the destination buffer and returns it filled; [readLink] and
    [readDir] return the bytes they produce, [readDir] the new offset too. *)
Class INodeOps (S : Type) : Type := mkINodeOps {
  nod_lookup : S -> Z -> list Z -> outcome (option Z * S);
  nod_mknod : S -> Z -> list Z -> Z -> outcome (option Z * S);
  nodRead : S -> Z -> list Z -> Z -> Z -> outcome (Z * list Z * S);
  nodWrite : S -> Z -> list Z -> Z -> Z -> outcome (Z * S);
  nodTrunc : S -> Z -> outcome S;
  nodRemove : S -> Z -> outcome S;
  nodHardUnlink : S -> Z -> outcome (Z * S);
  nodHardLink : S -> Z -> Z -> outcome (Z * S);
  nod_entSymLink : S -> Z -> list Z -> outcome (Z * S);
  nod_isEmpty : S -> Z -> outcome (bool * S);
  chMod : S -> Z -> Z -> outcome (Z * S);
  chOwn : S -> Z -> Z -> Z -> outcome (Z * S);
  readLink : S -> Z -> Z -> outcome (Z * list Z * S);
  readDir : S -> Z -> Z -> Z -> outcome (Z * list Z * Z * S);
  nod_ioctl : S -> Z -> Z -> Z -> outcome (Z * S);
  rMode : S -> Z -> Z;
  rFileSize : S -> Z -> Z;
  rDev : S -> Z -> Z;
  rINo : S -> Z -> Z;
  rFS : S -> Z -> Z
}.

Module Vfs.
Import Path.

Definition S_IFMT : Z := 61440.
Definition S_IFDIR : Z := 16384.
Definition S_IFREG : Z := 32768.
Definition S_ISDIR (mode : Z) : bool := Z.land mode S_IFMT =? S_IFDIR.
Definition T_DIR : Z := 1.
Definition T_FILE : Z := 2.

Record DEntry : Type := mkDEntry {
  de_parent : option Z;
  de_nod : Z;
  de_name : list Z;
  de_subs : gmap (list Z) Z;
  de_mount : bool
}.
(** StatFS: what a file system says about itself. *)
Record StatFS : Type := mkStatFS {
  f_type : Z; f_bsize : Z; f_blocks : Z; f_bfree : Z; f_bavail : Z;
  f_files : Z; f_ffree : Z; f_fsid : Z; f_namelen : Z
}.
(** A file system: whether it is the root one, its root entry, its type. *)
Record FSys : Type := mkFSys { isRootFS : bool; fs_root : Z; rFSType : list Z; fs_stat : StatFS }.

Record World (S : Type) : Type := mkWorld {
  nods : S;
  dents : gmap Z DEntry;
  nextde : Z;
  fss : gmap Z FSys;
  mnt_table : list (list Z * Z)
}.
Arguments mkWorld {S} _ _ _ _ _.
Arguments nods {S} _.
Arguments dents {S} _.
Arguments nextde {S} _.
Arguments fss {S} _.
Arguments mnt_table {S} _.

Record PathObj : Type := mkPath { pathname : list Z; dirname : list (list Z); base : Z }.

Section Lookup.
Context {S : Type} `{!INodeOps S}.

Definition de_get (w : World S) (e : Z) : outcome DEntry :=
  match dents w !! e with Some x => Done x | None => Undef end.
Definition with_nods (w : World S) (s : S) : World S := mkWorld s (dents w) (nextde w) (fss w) (mnt_table w).
Definition with_dents (w : World S) (d : gmap Z DEntry) (n : Z) : World S := mkWorld (nods w) d n (fss w) (mnt_table w).
Definition with_mnt (w : World S) (m : list (list Z * Z)) : World S := mkWorld (nods w) (dents w) (nextde w) (fss w) m.

Definition is_dir (w : World S) (e : DEntry) : bool := S_ISDIR (rMode (nods w) (de_nod e)).

(** A new entry under [self], recorded in its [subs]. *)
Definition de_new (w : World S) (self : Z) (e : DEntry) (name : list Z) (nod : Z) : Z * World S :=
  let sub := nextde w in
  (sub, with_dents w
     (<[sub := mkDEntry (Some self) nod name ∅ false]>
        (<[self := mkDEntry (de_parent e) (de_nod e) (de_name e) (<[name := sub]> (de_subs e)) (de_mount e)]> (dents w)))
     (sub + 1)).

(** DEntry::entSearch: a live cached entry, else the inode is asked. *)
Definition entSearch (w : World S) (self : Z) (name : list Z) : outcome (option Z * World S) :=
  let* e := de_get w self in
  match de_subs e !! name with
  | Some sub =>
      match dents w !! sub with
      | Some _ => Done (Some sub, w)
      | None =>
          let* (r, s) := nod_lookup (nods w) (de_nod e) name in
          match r with
          | Some nod => let '(sub, w') := de_new (with_nods w s) self e name nod in Done (Some sub, w')
          | None => Done (None, with_nods w s)
          end
      end
  | None =>
      let* (r, s) := nod_lookup (nods w) (de_nod e) name in
      match r with
      | Some nod => let '(sub, w') := de_new (with_nods w s) self e name nod in Done (Some sub, w')
      | None => Done (None, with_nods w s)
      end
  end.
(** DEntry::entCreate: a name in [subs] is refused, even when the entry has
    expired. *)
Definition entCreate (w : World S) (self : Z) (name : list Z) (mode : Z) : outcome (option Z * World S) :=
  let* e := de_get w self in
  match de_subs e !! name with
  | Some _ => Done (None, w)
  | None =>
      let* (r, s) := nod_mknod (nods w) (de_nod e) name mode in
      match r with
      | Some nod => let '(sub, w') := de_new (with_nods w s) self e name nod in Done (Some sub, w')
      | None => Done (None, with_nods w s)
      end
  end.

Fixpoint mnt_find (m : list (list Z * Z)) (k : list Z) : option Z :=
  match m with [] => None | (k', f) :: m' => if bool_decide (k' = k) then Some f else mnt_find m' k end.
(** [mnt_table[k]->getSpBlk()->getRoot()]; a missing key is a null pointer. *)
Definition mnt_root (w : World S) (k : list Z) : outcome Z :=
  match mnt_find (mnt_table w) k with
  | Some f => match fss w !! f with Some x => Done (fs_root x) | None => Undef end
  | None => Undef
  end.

(** Path::pathBuild with its choice of the base. *)
Definition path_build (w : World S) (cwd : Z) (p : list Z) (b : option Z) : outcome PathObj :=
  match p with
  | [] => Done (mkPath p [] cwd)
  | c :: _ =>
      let* b' := (if c =? slash then mnt_root w [slash]
                  else match b with Some x => Done x | None => Done cwd end) in
      let* names := pathBuild p in
      Done (mkPath p names b')
  end.

(** The names from the root of the root file system down to [e]. *)
Fixpoint base_names (fuel : nat) (w : World S) (e : Z) (acc : list (list Z)) : outcome (list (list Z)) :=
  match fuel with
  | O => Diverge
  | Datatypes.S f =>
      let* x := de_get w e in
      let top := bool_decide (de_parent x = None) &&
                 match fss w !! rFS (nods w) (de_nod x) with Some y => isRootFS y | None => false end in
      if top then Done acc
      else match de_parent x with
           | Some p => base_names f w p (de_name x :: acc)
           | None => Undef
           end
  end.
Definition path_absolute (w : World S) (p : PathObj) : outcome (list Z) :=
  let* names := base_names (Datatypes.S (Z.to_nat (nextde w))) w (base p) [] in
  Done (pathAbsolute (names ++ dirname p)).

(** Path::pathHitTable: the entry to start from and the rewritten path. *)
Definition path_hit (w : World S) (cwd : Z) (p : PathObj) : outcome (option Z * PathObj) :=
  let* abs := path_absolute w p in
  match pathHitTable (fst <$> mnt_table w) abs with
  | Some (k, rest) =>
      let* entry := mnt_root w k in
      let* p' := (if bool_decide (rest = []) then Done (mkPath rest [] entry)
                  else path_build w cwd rest (Some entry)) in
      Done (Some entry, p')
  | None => Done (None, p)
  end.

(** The walk of Path::pathSearch over the names that are left. *)
Fixpoint walk (w : World S) (e : Z) (names : list (list Z)) (a_parent : bool) : outcome (option Z * World S) :=
  match names with
  | [] => Done (Some e, w)
  | n :: rest =>
      let* x := de_get w e in
      if de_mount x then Panic
      else if negb (is_dir w x) then Done (None, w)
      else if a_parent && bool_decide (rest = []) then Done (Some e, w)
      else if bool_decide (n = dot) then walk w e rest a_parent
      else if bool_decide (n = dotdot) then
        match de_parent x with
        | Some p => walk w p rest a_parent
        | None => if bool_decide (rest = []) then Done (None, w) else Undef
        end
      else
        let* (r, w') := entSearch w e n in
        match r with Some sub => walk w' sub rest a_parent | None => Done (None, w') end
  end.
Definition pathSearch (w : World S) (cwd : Z) (p : PathObj) (a_parent : bool)
  : outcome (option Z * PathObj * World S) :=
  if bool_decide (pathname p = [slash]) then let* r := mnt_root w [slash] in Done (Some r, p, w)
  else if bool_decide (pathname p = []) then Done (None, p, w)
  else
    let* (hit, p') := path_hit w cwd p in
    let* (r, w') := walk w (default (base p') hit) (dirname p') a_parent in
    Done (r, p', w').

(** Path::pathCreate; the type is checked on what the directory returned. *)
Definition pathCreate (w : World S) (cwd : Z) (p : PathObj) (a_type a_mode : Z)
  : outcome (option Z * PathObj * World S) :=
  let* (dp, p, w) := pathSearch w cwd p true in
  match dp with
  | None => Done (None, p, w)
  | Some d =>
      let mode := Z.lor a_mode (if a_type =? T_DIR then S_IFDIR else S_IFREG) in
      match last (dirname p) with
      | None => Undef
      | Some name =>
          let* (r, w) := entCreate w d name mode in
          match r with
          | None => Done (None, p, w)
          | Some ep =>
              let* x := de_get w ep in
              if ((a_type =? T_DIR) && negb (is_dir w x)) || ((a_type =? T_FILE) && is_dir w x)
              then Done (None, p, w) else Done (Some ep, p, w)
          end
      end
  end.

(** Path::pathRemove and pathHardUnlink. *)
Definition pathRemove (w : World S) (cwd : Z) (p : PathObj) : outcome (Z * World S) :=
  let* (r, _, w) := pathSearch w cwd p false in
  match r with
  | None => Done (-1, w)
  | Some ep =>
      let* x := de_get w ep in
      let* (empty, s) := (if is_dir w x then nod_isEmpty (nods w) (de_nod x) else Done (true, nods w)) in
      let w := with_nods w s in
      if negb empty then Done (-1, w)
      else let* s := nodRemove (nods w) (de_nod x) in Done (0, with_nods w s)
  end.
Definition pathHardUnlink (w : World S) (cwd : Z) (p : PathObj) : outcome (Z * World S) :=
  let* (r, p, w) := pathSearch w cwd p false in
  match r with
  | None => Done (-1, w)
  | Some ep =>
      let* x := de_get w ep in
      let* (k, s) := nodHardUnlink (nods w) (de_nod x) in
      if k =? -1 then Done (-1, with_nods w s) else pathRemove (with_nods w s) cwd p
  end.
Definition fs_type (w : World S) (x : DEntry) : outcome (list Z) :=
  match fss w !! rFS (nods w) (de_nod x) with Some f => Done (rFSType f) | None => Undef end.
Definition fat32 : list Z := [102; 97; 116; 51; 50].
Definition vfat : list Z := [118; 102; 97; 116].
Definition is_fat (t : list Z) : bool := bool_decide (t = fat32) || bool_decide (t = vfat).
(** Path::pathHardLink: a path that is not found is dereferenced. *)
Definition pathHardLink (w : World S) (cwd : Z) (p q : PathObj) : outcome (Z * World S) :=
  let* (r1, _, w) := pathSearch w cwd p false in
  match r1 with
  | None => Undef
  | Some e1 =>
      let* (r2, _, w) := pathSearch w cwd q false in
      match r2 with
      | None => Undef
      | Some e2 =>
          let* x1 := de_get w e1 in
          let* x2 := de_get w e2 in
          let* t1 := fs_type w x1 in
          let* t2 := fs_type w x2 in
          if negb (bool_decide (t1 = t2)) then Done (-1, w)
          else if is_fat t1 then
            let* (k, s) := nodHardLink (nods w) (de_nod x1) (de_nod x2) in
            Done (if k =? -1 then -1 else 0, with_nods w s)
          else Done (-1, w)
      end
  end.
(** Path::pathSymLink. *)
Definition pathSymLink (w : World S) (cwd : Z) (p : PathObj) (target : list Z) : outcome (Z * World S) :=
  let* (r, p, w) := pathSearch w cwd p false in
  match r with
  | Some _ => Done (-1, w)
  | None =>
      let* (r, _, w) := pathSearch w cwd p true in
      match r with
      | None => Done (-1, w)
      | Some e =>
          let* x := de_get w e in
          if negb (is_dir w x) then Done (-1, w)
          else let* (k, s) := nod_entSymLink (nods w) (de_nod x) target in Done (k, with_nods w s)
      end
  end.

(** ** Mounting *)
Fixpoint mnt_set (m : list (list Z * Z)) (k : list Z) (f : Z) : list (list Z * Z) :=
  match m with
  | [] => [(k, f)]
  | (k', f') :: m' => if bool_decide (k' = k) then (k, f) :: m' else (k', f') :: mnt_set m' k f
  end.
(** Path::mount of a file system that is set up already: note that the search
    has rewritten the path before its absolute name is taken. *)
Definition path_mount (w : World S) (cwd : Z) (p : PathObj) (f : Z) : outcome (Z * World S) :=
  let* (r, p, w) := pathSearch w cwd p false in
  match r with
  | None => Done (-1, w)
  | Some _ => let* abs := path_absolute w p in Done (0, with_mnt w (mnt_set (mnt_table w) abs f))
  end.

(** [ldspblk w dev mnt] loads a FAT superblock from a device: the new file
    system, or none on failure; [a_mnt->setMntPoint()] is done here. *)
Context (ldspblk : S -> Z -> Z -> outcome (option Z * S)).
Definition set_mount (w : World S) (e : Z) (b : bool) : outcome (World S) :=
  let* x := de_get w e in
  Done (with_dents w (<[e := mkDEntry (de_parent x) (de_nod x) (de_name x) (de_subs x) b]> (dents w)) (nextde w)).
Definition pathMount (w : World S) (cwd : Z) (p dev : PathObj) (fstype : list Z) : outcome (Z * World S) :=
  let* (r, p, w) := pathSearch w cwd p false in
  let* (rd, _, w) := pathSearch w cwd dev false in
  match r, rd with
  | Some ep, Some dp =>
      let* x := de_get w ep in
      let* y := de_get w dp in
      if bool_decide (de_parent x = None) || de_mount x then Done (-1, w)
      else if negb (is_dir w x) then Done (-1, w)
      else if is_fat fstype then
        let* abs := path_absolute w p in
        let* (f, s) := ldspblk (nods w) (rDev (nods w) (de_nod y)) ep in
        let w := with_nods w s in
        match f with
        | None => Done (-1, with_mnt w (filter (fun kf => kf.1 <> abs) (mnt_table w)))
        | Some f =>
            let* w := set_mount w ep true in
            Done (0, with_mnt w (match mnt_find (mnt_table w) abs with
                                 | Some _ => mnt_table w | None => mnt_table w ++ [(abs, f)] end))
        end
      else Done (-1, w)
  | _, _ => Done (-1, w)
  end.
(** Path::pathUnmount; [mntpoint f] is the entry the file system is mounted on,
    [uninstall] drops its superblock. *)
Context (mntpoint : S -> Z -> option Z) (uninstall : S -> Z -> outcome S).
Definition pathUnmount (w : World S) (p : PathObj) : outcome (Z * World S) :=
  let* abs := path_absolute w p in
  match mnt_find (mnt_table w) abs with
  | None => Undef
  | Some f =>
      match fss w !! f with
      | None => Undef
      | Some x =>
          if isRootFS x then Done (-1, w)
          else
            let mp := mntpoint (nods w) f in
            let* s := uninstall (nods w) f in
            let w := with_nods w s in
            let* w := match mp with Some e => set_mount w e false | None => Done w end in
            Done (0, with_mnt w (filter (fun kf => kf.1 <> abs) (mnt_table w)))
      end
  end.

End Lookup.
End Vfs.
