(* ===== verification/File.v ===== *)
(** * File: open file objects and descriptor tables (include/fs.hh, the File
    part of kernel/fs/fs.cc, Process::ofile and fdAlloc of kernel/proc.cc)

    A [shared_ptr<File>] is a number into the store [fobjs]; the slots of the
    descriptor tables are the owners, and so are the local variables of blocked
    system calls ([locals]); a file whose last owner is gone is destroyed by
    [file_drop] (File::~File). A [File] of a pipe or an entry never
    releases what it refers to, because the destructor of the union [Data] is
    empty; so pipes stay in their table. Blocking calls return [IoBlock] with
    the offset at which they are continued. *)

From S2P Require Import Prelude Klib Buddy Sched Pipe Bytes Path Vfs.
Local Open Scope Z_scope.

(** User memory as the system calls see it: VMAR::copyin, copyinstr (the bytes
    before the terminating zero) and copyout of include/vm.hh. *)
Class UserMem (U : Type) : Type := mkUserMem {
  copyin : U -> Z -> Z -> outcome (list Z);
  copyinstr : U -> Z -> Z -> outcome (list Z);
  copyout : U -> Z -> list Z -> outcome U
}.

Module File.
Import Path Vfs.

(** ** Constants of linux/fcntl.h *)
Definition O_WRONLY : Z := 1.
Definition O_RDWR : Z := 2.
Definition O_CREAT : Z := 64.
Definition O_TRUNC : Z := 512.
Definition O_APPEND : Z := 1024.
Definition O_NONBLOCK : Z := 2048.
Definition O_ASYNC : Z := 8192.
Definition O_DIRECT : Z := 16384.
Definition O_DIRECTORY : Z := 65536.
Definition O_NOATIME : Z := 262144.
Definition O_CLOEXEC : Z := 524288.
Definition S_IFCHR : Z := 8192.
Definition S_IFIFO : Z := 4096.
Definition has (flags bit : Z) : bool := negb (Z.land flags bit =? 0).
Definition S_ISCHR (mode : Z) : bool := Z.land mode S_IFMT =? S_IFCHR.
Definition S_ISIFO (mode : Z) : bool := Z.land mode S_IFMT =? S_IFIFO.
Definition err : Z := -1.
Definition EBADF : Z := 9.
Definition ENOMEM : Z := 12.
Definition ENOTDIR : Z := 20.
Definition EISDIR : Z := 21.
Definition EINVAL : Z := 22.

(** ** File objects *)
Record FileOps : Type := mkOps { op_r : bool; op_w : bool; op_a : bool }.
(** FileOps(FileOp) and FileOps(int): a one-bit field keeps the lowest bit of
    what is assigned to it. *)
Definition ops_raw (op : Z) : FileOps := mkOps (Z.testbit op 0) (Z.testbit op 1) (Z.testbit op 2).
Definition ops_flags (flags : Z) : FileOps :=
  mkOps (negb (has flags O_WRONLY)) (has flags O_WRONLY || has flags O_RDWR)
        (Z.testbit (Z.land flags O_APPEND) 0).
Definition fop_read : Z := 1.
Definition fop_write : Z := 2.

Inductive FileType : Type := ft_none | ft_pipe | ft_entry | ft_dev | ft_stdin | ft_stdout | ft_stderr.
Definition mkDevNum (t : FileType) : Z :=
  match t with
  | ft_stdin => 0
  | ft_stdout => Z.lor (Z.shiftl 1 20) 1
  | ft_stderr => Z.lor (Z.shiftl 2 20) 2
  | _ => u64 (-1)
  end.

Record KStat : Type := mkKStat {
  st_dev : Z; st_ino : Z; st_mode : Z; st_nlink : Z; st_rdev : Z;
  st_size : Z; st_blksize : Z; st_blocks : Z
}.
Definition kst_pipe : KStat := mkKStat 0 (u64 (-1)) S_IFIFO 1 0 0 0 0.
Definition kst_dev (t : FileType) : KStat :=
  mkKStat 0 (mkDevNum t) (match t with ft_dev => S_IFCHR | _ => S_IFIFO end) 1 (mkDevNum t) 0 0 0.

Inductive Data : Type :=
| DV (t : FileType) (kst : KStat)
| PP (kst : KStat) (p : Z)
| EP (kst : KStat) (de : Z) (off : Z).
Definition rType (d : Data) : FileType :=
  match d with DV t _ => t | PP _ _ => ft_pipe | EP _ _ _ => ft_entry end.
Definition d_kst (d : Data) : KStat := match d with DV _ k => k | PP k _ => k | EP k _ _ => k end.

Record File : Type := mkFile { ops : FileOps; flags : Z; obj : Data }.

Definition mOFiles : Z := 101.
Definition FdCwd : Z := 3.
Definition AT_FDCWD : Z := -100.
Definition fdOutRange (fd : Z) : bool := (fd <? 0) || (mOFiles <=? fd).

Record Proc (U : Type) : Type := mkProc {
  files : list (option Z); cwd : Z; umem : U; parent : Z; zombie : bool
}.
Arguments mkProc {U} _ _ _ _ _.
Arguments files {U} _.
Arguments cwd {U} _.
Arguments umem {U} _.
Arguments parent {U} _.
Arguments zombie {U} _.

Record K (S U : Type) : Type := mkK {
  world : World S;
  fobjs : gmap Z File;
  nextf : Z;
  pipes : gmap Z Pipe.Pipe.Pipe;
  nextp : Z;
  procs : gmap Z (Proc U);
  sched : Sched.Sched.Scheduler;
  pages : Buddy.Buddy.PageMgr;
  console : list Z;
  locals : list Z
}.
Arguments mkK {S U} _ _ _ _ _ _ _ _ _ _.
Arguments world {S U} _.
Arguments fobjs {S U} _.
Arguments nextf {S U} _.
Arguments pipes {S U} _.
Arguments nextp {S U} _.
Arguments procs {S U} _.
Arguments sched {S U} _.
Arguments pages {S U} _.
Arguments console {S U} _.
Arguments locals {S U} _.

Section Files.
Context {S U : Type} `{!INodeOps S}.
Notation KSt := (K S U).

Definition with_world (k : KSt) (w : World S) : KSt :=
  mkK w (fobjs k) (nextf k) (pipes k) (nextp k) (procs k) (sched k) (pages k) (console k) (locals k).
Definition with_fobjs (k : KSt) (m : gmap Z File) (n : Z) : KSt :=
  mkK (world k) m n (pipes k) (nextp k) (procs k) (sched k) (pages k) (console k) (locals k).
Definition with_pipe (k : KSt) (p : Z) (x : Pipe.Pipe.Pipe) (s : Sched.Sched.Scheduler) : KSt :=
  mkK (world k) (fobjs k) (nextf k) (<[p := x]> (pipes k)) (nextp k) (procs k) s (pages k) (console k) (locals k).
Definition with_procs (k : KSt) (m : gmap Z (Proc U)) : KSt :=
  mkK (world k) (fobjs k) (nextf k) (pipes k) (nextp k) m (sched k) (pages k) (console k) (locals k).
Definition with_pages (k : KSt) (a : Buddy.Buddy.PageMgr) : KSt :=
  mkK (world k) (fobjs k) (nextf k) (pipes k) (nextp k) (procs k) (sched k) a (console k) (locals k).
Definition with_console (k : KSt) (c : list Z) : KSt :=
  mkK (world k) (fobjs k) (nextf k) (pipes k) (nextp k) (procs k) (sched k) (pages k) c (locals k).

Definition with_locals (k : KSt) (l : list Z) : KSt :=
  mkK (world k) (fobjs k) (nextf k) (pipes k) (nextp k) (procs k) (sched k) (pages k) (console k) l.

Definition file_get (k : KSt) (f : Z) : outcome File :=
  match fobjs k !! f with Some x => Done x | None => Undef end.
Definition pipe_get (k : KSt) (p : Z) : outcome Pipe.Pipe.Pipe :=
  match pipes k !! p with Some x => Done x | None => Undef end.
Definition proc_get (k : KSt) (pid : Z) : outcome (Proc U) :=
  match procs k !! pid with Some x => Done x | None => Undef end.
Definition set_obj (k : KSt) (f : Z) (x : File) (d : Data) : KSt :=
  with_fobjs k (<[f := mkFile (ops x) (flags x) d]> (fobjs k)) (nextf k).
Definition set_flags (k : KSt) (f : Z) (x : File) (fl : Z) : KSt :=
  with_fobjs k (<[f := mkFile (ops x) fl (obj x)]> (fobjs k)) (nextf k).
(** [obj.getEntry()] fails its assertion on a file that is not an entry. *)
Definition getEntry (x : File) : outcome Z := match obj x with EP _ de _ => Done de | _ => Panic end.

(** KStat(shared_ptr<DEntry>). *)
Definition kst_entry (w : World S) (de : Z) : outcome KStat :=
  let* x := de_get w de in
  match fss w !! rFS (nods w) (de_nod x) with
  | None => Undef
  | Some f =>
      let size := rFileSize (nods w) (de_nod x) in
      let blk := u32 (f_bsize (fs_stat f)) in
      if blk =? 0 then Undef
      else
        let b := u64 size / blk in
        Done (mkKStat (rDev (nods w) (de_nod x)) (rINo (nods w) (de_nod x)) (rMode (nods w) (de_nod x)) 1 0
                size blk (if u64 (b * blk) <? u64 size then b + 1 else b))
  end.

(** make_shared<File>(...) for an entry opened with flags, and for an end of a
    pipe, whose [flags] are left at what the allocation holds. *)
Definition file_new (k : KSt) (x : File) : Z * KSt :=
  (nextf k, with_fobjs k (<[nextf k := x]> (fobjs k)) (nextf k + 1)).
Definition File_entry (k : KSt) (de fl : Z) : outcome (Z * KSt) :=
  let* st := kst_entry (world k) de in
  Done (file_new k (mkFile (ops_flags fl) fl (EP st de 0))).
Definition File_pipe (k : KSt) (p op junk : Z) : outcome (Z * KSt) :=
  let* x := pipe_get k p in
  let o := ops_raw op in
  let x1 := if op_r o then Pipe.Pipe.addReader x else x in
  let x2 := if op_w o then Pipe.Pipe.addWriter x1 else x1 in
  Done (file_new (with_pipe k p x2 (sched k)) (mkFile o junk (PP kst_pipe p))).

(** Whether a slot of some descriptor table, or a system call that is blocked
    in a read or a write, owns the file. *)
Definition held (k : KSt) (f : Z) : bool :=
  existsb (fun pp => bool_decide (Some f ∈ files (snd pp))) (map_to_list (procs k)) || bool_decide (f ∈ locals k).
(** File::~File, run when the last owner is gone. *)
Definition file_close (k : KSt) (x : File) : outcome KSt :=
  match obj x with
  | PP _ p =>
      let* q := pipe_get k p in
      if op_r (ops x) then let* (q', s) := Pipe.Pipe.decReader q (sched k) in Done (with_pipe k p q' s)
      else if op_w (ops x) then let* (q', s) := Pipe.Pipe.decWriter q (sched k) in Done (with_pipe k p q' s)
      else Done k
  | _ => Done k
  end.
Definition file_drop (k : KSt) (f : Z) : outcome KSt :=
  if held k f then Done k
  else match fobjs k !! f with
       | None => Done k
       | Some x => let* k' := file_close k x in Done (with_fobjs k' (delete f (fobjs k')) (nextf k'))
       end.

(** [files[fd] = v]: the previous owner is released. *)
Definition set_slot (k : KSt) (pid fd : Z) (v : option Z) : outcome KSt :=
  let* p := proc_get k pid in
  let* old := aget (files p) fd in
  let* fs' := aset (files p) fd v in
  let k' := with_procs k (<[pid := mkProc fs' (cwd p) (umem p) (parent p) (zombie p)]> (procs k)) in
  match old with Some f => file_drop k' f | None => Done k' end.

(** ** Process::ofile and Process::fdAlloc *)
Definition ofile (p : Proc U) (fd : Z) : outcome (option Z) :=
  let fd := if fd =? AT_FDCWD then FdCwd else fd in
  if fdOutRange fd then Done None else aget (files p) fd.

Fixpoint fd_loop (fuel : nat) (l : list (option Z)) (fd : Z) : outcome Z :=
  if fd <? mOFiles then
    match fuel with
    | O => Diverge
    | Datatypes.S f =>
        let* x := aget l fd in
        match x with None => Done fd | Some _ => fd_loop f l (fd + 1) end
    end
  else Done (- ENOMEM).
Definition fdAlloc (k : KSt) (pid f afd : Z) (appoint : bool) : outcome (Z * KSt) :=
  let* p := proc_get k pid in
  if negb appoint then
    let* fd := fd_loop (Z.to_nat mOFiles) (files p) (if afd <? 0 then 0 else afd) in
    if fd <? 0 then Done (fd, k)
    else let* k' := set_slot k pid fd (Some f) in Done (fd, k')
  else if fdOutRange afd then Done (- EBADF, k)
  else let* k' := set_slot k pid afd (Some f) in Done (afd, k').

(** ** Reading and writing *)
Notation IoRet := Pipe.Pipe.IoRet.
Notation IoBlock := Pipe.Pipe.IoBlock.

(** printf("%s", ...): up to the first zero byte; 1999 bytes and more end in an
    endless loop. *)
Fixpoint cstr (l : list Z) : list Z :=
  match l with [] => [] | c :: l' => if c =? 0 then [] else c :: cstr l' end.
Definition print (k : KSt) (bytes : list Z) : outcome KSt :=
  let s := cstr bytes in
  if 2000 <=? zlen s + 1 then Diverge else Done (with_console k (console k ++ s)).

Definition is_stdout (t : FileType) : bool := match t with ft_stdout | ft_stderr => true | _ => false end.

(** File::write, continued at [off] after a wake-up. *)
Definition write (k : KSt) (f : Z) (bytes : list Z) (off : Z) : outcome (Pipe.Pipe.io * KSt) :=
  let* x := file_get k f in
  let len := zlen bytes in
  if negb (op_w (ops x)) then Done (IoRet err, k)
  else match obj x with
  | DV t _ => if is_stdout t then let* k' := print k bytes in Done (IoRet (i32 len), k') else Done (IoRet err, k)
  | PP _ p =>
      let* q := pipe_get k p in
      let* (r, q', s) := Pipe.Pipe.write_from (Datatypes.S (length bytes)) q (sched k) bytes off in
      let k' := with_pipe k p q' s in
      match r with Pipe.Pipe.IoRet _ => Done (IoRet (i32 len), k') | IoBlock o => Done (IoBlock o, k') end
  | EP st de o =>
      let* d := de_get (world k) de in
      let* (n, s) := nodWrite (nods (world k)) (de_nod d) bytes (u32 o) (u32 len) in
      let k' := with_world k (with_nods (world k) s) in
      if u64 n =? len then Done (IoRet (i32 len), set_obj k' f x (EP st de (i64 (o + len))))
      else Done (IoRet err, k')
  end.

(** File::read into the buffer [buf]. *)
Definition read (k : KSt) (f : Z) (buf : list Z) (a_off : Z) (upd : bool) (resume : Z)
  : outcome (Pipe.Pipe.io * list Z * KSt) :=
  let* x := file_get k f in
  if negb (op_r (ops x)) then Done (IoRet err, buf, k)
  else match obj x with
  | DV _ _ => Panic
  | PP _ p =>
      let* q := pipe_get k p in
      let* (r, buf', q', s) := Pipe.Pipe.read_from (Datatypes.S (length buf)) q (sched k) buf resume in
      Done (r, buf', with_pipe k p q' s)
  | EP st de o =>
      let* d := de_get (world k) de in
      let at_ := if a_off <? 0 then o else a_off in
      let* (n, buf', s) := nodRead (nods (world k)) (de_nod d) buf (u32 at_) (u32 (zlen buf)) in
      let k' := with_world k (with_nods (world k) s) in
      if 0 <? n then Done (IoRet n, buf', if upd then set_obj k' f x (EP st de (i64 (at_ + n))) else k')
      else Done (IoRet 0, buf', k')
  end.

(** File::readAll: the bytes are read into a temporary, and the number of bytes
    read is converted to a new array of that length ([fresh] is its content). *)
Definition readAll (fresh : Z -> list Z) (k : KSt) (f : Z) : outcome (list Z * KSt) :=
  let* x := file_get k f in
  match obj x with
  | EP _ de _ =>
      let* d := de_get (world k) de in
      let* (r, _, k') := read k f (fresh (rFileSize (nods (world k)) (de_nod d))) (-1) true 0 in
      match r with
      | Pipe.Pipe.IoRet n => if n <? 0 then Undef else Done (fresh n, k')
      | IoBlock _ => Undef
      end
  | _ => Panic
  end.

(** File::lSeek: on what is not an entry the position is 0. *)
Definition SEEK_SET : Z := 0.
Definition SEEK_CUR : Z := 1.
Definition SEEK_END : Z := 2.
Definition lSeek (k : KSt) (f off whence : Z) : outcome (Z * KSt) :=
  let* x := file_get k f in
  let st := d_kst (obj x) in
  if S_ISCHR (st_mode st) || S_ISIFO (st_mode st) then Done (0, k)
  else
    let* de := getEntry x in
    let* kst := kst_entry (world k) de in
    match obj x with
    | EP st de o =>
        let move n := if (n <? 0) || (st_size kst <? n) then Done (- EINVAL, k)
                      else Done (n, set_obj k f x (EP st de n)) in
        if whence =? SEEK_SET then move off
        else if whence =? SEEK_CUR then move (i64 (o + off))
        else if whence =? SEEK_END then move (i64 (st_size kst + off))
        else Done (- EINVAL, k)
    | _ => Panic
    end.

(** ** File::sendFile

    One turn of the loop allocates a page, reads into it ([SRead]), writes what
    was read ([SWrite]) and frees the page; the two calls can block, and the
    loop is continued at the same point. *)
Definition pageSize : Z := 4096.
Inductive sendpt : Type := SIter | SRead (pg : Z) (buf : list Z) (off : Z) | SWrite (pg : Z) (buf : list Z) (off : Z).
Inductive sendres : Type := SDone (n : Z) | SBlocked (len nsend : Z) (pt : sendpt).

Fixpoint send_loop (fuel : nat) (k : KSt) (i o len nsend : Z) (pt : sendpt) : outcome (sendres * KSt) :=
  match fuel with
  | O => Diverge
  | Datatypes.S fu =>
      match pt with
      | SIter =>
          if len <=? 0 then Done (SDone nsend, k)
          else
            let rem := if pageSize <? len then pageSize else len in
            let* (pg, a) := Buddy.Buddy.alloc (pages k) 1 in
            send_loop fu (with_pages k a) i o len nsend (SRead pg (replicate (Z.to_nat rem) 0) 0)
      | SRead pg buf off =>
          let* (r, buf', k) := read k i buf (-1) true off in
          match r with
          | Pipe.Pipe.IoBlock off' => Done (SBlocked len nsend (SRead pg buf' off'), k)
          | Pipe.Pipe.IoRet n =>
              if n =? 0 then Done (SDone nsend, k)
              else if n <? 0 then
                (** the length is converted to a huge unsigned one *)
                let* x := file_get k o in
                if op_w (ops x) then Undef
                else let* a := Buddy.Buddy.free (pages k) pg 0 in Done (SDone err, with_pages k a)
              else send_loop fu k i o len nsend (SWrite pg (take (Z.to_nat n) buf') 0)
          end
      | SWrite pg buf off =>
          let* (r, k) := write k o buf off in
          match r with
          | Pipe.Pipe.IoBlock off' => Done (SBlocked len nsend (SWrite pg buf off'), k)
          | Pipe.Pipe.IoRet n =>
              let* a := Buddy.Buddy.free (pages k) pg 0 in
              let k := with_pages k a in
              if n <? 0 then Done (SDone n, k)
              else if negb (n =? zlen buf) then Done (SDone (nsend + n), k)
              else send_loop fu k i o (len - n) (nsend + n) SIter
          end
      end
  end.
(** The end of the call: an error returns at once, otherwise [*a_offset] is set
    to the position reached and the position is set to [in_off]. *)
Definition send_from (k : KSt) (i o : Z) (offp : option Z) (in_off len nsend : Z) (pt : sendpt)
  : outcome (sendres * option Z * KSt) :=
  let* (r, k) := send_loop (Z.to_nat (3 * len + 4)) k i o len nsend pt in
  match r, offp with
  | SDone n, Some _ =>
      if n <? 0 then Done (r, offp, k)
      else
        let* (cur, k) := lSeek k i 0 SEEK_CUR in
        let* (_, k) := lSeek k i in_off SEEK_SET in
        Done (r, Some cur, k)
  | _, _ => Done (r, offp, k)
  end.
Definition sendFile (k : KSt) (i o : Z) (offp : option Z) (len : Z) : outcome (sendres * option Z * KSt) :=
  match offp with
  | Some off =>
      let* (in_off, k) := lSeek k o 0 SEEK_CUR in
      if in_off <? 0 then Done (SDone in_off, offp, k)
      else let* (_, k) := lSeek k i off SEEK_SET in send_from k i o offp in_off len 0 SIter
  | None => send_from k i o offp 0 len 0 SIter
  end.

(** File::isRReady and isWReady. *)
Definition isRReady (k : KSt) (x : File) : outcome bool :=
  match obj x with
  | PP _ p => let* q := pipe_get k p in Done (Pipe.Pipe.readable q)
  | EP _ _ _ => Done true
  | DV _ _ => Done false
  end.
Definition isWReady (k : KSt) (x : File) : outcome bool :=
  match obj x with
  | PP _ p => let* q := pipe_get k p in Done (Pipe.Pipe.writable q)
  | EP _ _ _ => Done true
  | DV _ _ => Done false
  end.

(** ** Path::pathOpen *)
Definition pathOpen (k : KSt) (pid : Z) (p : PathObj) (fl mode : Z) : outcome (Z * KSt) :=
  let* pr := proc_get k pid in
  let* (r, p, w) := pathSearch (world k) (cwd pr) p false in
  let* (r, w) :=
    (match r with
     | None => if has fl O_CREAT
               then let* (r, _, w) := pathCreate w (cwd pr) p (if S_ISDIR mode then T_DIR else T_FILE) fl in Done (r, w)
               else Done (r, w)
     | Some _ => Done (r, w) end) in
  let k := with_world k w in
  match r with
  | None => Done (-1, k)
  | Some e =>
      let* x := de_get w e in
      if is_dir w x && (has fl O_RDWR || has fl O_WRONLY) then Done (- EISDIR, k)
      else if has fl O_DIRECTORY && negb (is_dir w x) then Done (- ENOTDIR, k)
      else
        let* (f, k) := File_entry k e fl in
        let* y := file_get k f in
        let k := set_obj k f y (EP (d_kst (obj y)) e (if has fl O_APPEND then rFileSize (nods w) (de_nod x) else 0)) in
        let* (fd, k) := fdAlloc k pid f 0 false in
        if fd <? 0 then let* k := file_drop k f in Done (-1, k)
        else if negb (is_dir w x) && has fl O_TRUNC then
          let* s := nodTrunc (nods (world k)) (de_nod x) in
          Done (fd, with_world k (with_nods (world k) s))
        else Done (fd, k)
  end.

End Files.

(** A flat user memory, the concrete instance used in examples. *)
#[global] Instance flat_mem : UserMem (list Z) := {|
  copyin u a n := if (0 <=? a) && (a + n <=? zlen u) then Done (slice u a n) else Undef;
  copyinstr u a n := if (0 <=? a) && (a + n <=? zlen u) then Done (cstr (slice u a n)) else Undef;
  copyout u a bs := if (0 <=? a) && (a + zlen bs <=? zlen u) then Done (splice u a bs) else Undef
|}.
End File.
