(* ===== verification/FileSys.v ===== *)
(** * FileSys: the file system calls (kernel/syscall/file.cc) and what processes
    do to descriptor tables (proc::clone and Process::zombieExit of
    kernel/proc.cc)

    A handler gets the pid of the calling process and its arguments and returns
    the [expected] of the source: a value or an error number; [rtval] is what
    trap.cc stores into a0. A buffer from [new] is modelled filled with zeros:
    only the bytes that a read reports are ever copied from it. *)

From S2P Require Import Prelude Klib Buddy Sched Pipe Bytes Path Vfs File.
Local Open Scope Z_scope.

Module FileSys.
Import Path Vfs File.

Inductive sysrt : Type := RtOk (v : Z) | RtErr (e : Z).
Definition rt (v : Z) : sysrt := RtOk (u64 v).
(** uecallHandler of kernel/trap.cc: the value for a0. *)
Definition rtval (r : sysrt) : Z := match r with RtOk v => v | RtErr e => u64 (- e) end.

Definition EFAULT : Z := 14.
Definition ENOENT : Z := 2.
Definition ENOTTY : Z := 25.
Definition ok : Z := 0.
Definition FAT32_MAX_PATH : Z := 260.
Definition FAT32_MAX_FILENAME : Z := 255.
Definition F_DUPFD : Z := 0.
Definition F_GETFD : Z := 1.
Definition F_SETFD : Z := 2.
Definition F_GETFL : Z := 3.
Definition F_SETFL : Z := 4.
Definition F_DUPFD_CLOEXEC : Z := 1030.
Definition FD_CLOEXEC : Z := 1.
Definition SETFL_MASK : Z := Z.lor O_APPEND (Z.lor O_ASYNC (Z.lor O_DIRECT (Z.lor O_NOATIME O_NONBLOCK))).
Definition sizeof_DStat : Z := 280.

(** The bytes of a KStat and of a StatFS as they are copied to the user. *)
Definition kstat_bytes (s : KStat) : list Z :=
  le64 (st_dev s) ++ le64 (st_ino s) ++ le32 (u32 (st_mode s)) ++ le32 (st_nlink s) ++ le32 0 ++ le32 0 ++
  le64 (st_rdev s) ++ le64 0 ++ le64 (st_size s) ++ le32 (st_blksize s) ++ le32 0 ++ le64 (st_blocks s) ++
  concat (replicate 6 (le64 0)) ++ le32 0 ++ le32 0.
Definition statfs_bytes (s : StatFS) : list Z :=
  le64 (f_type s) ++ le64 (f_bsize s) ++ le64 (f_blocks s) ++ le64 (f_bfree s) ++ le64 (f_bavail s) ++
  le64 (f_files s) ++ le64 (f_ffree s) ++ le64 (f_fsid s) ++ le64 (f_namelen s).

Section Calls.
Context {S U : Type} `{!INodeOps S} `{!UserMem U}.
Notation KSt := (K S U).

Definition set_umem (k : KSt) (pid : Z) (u : U) : outcome KSt :=
  let* p := proc_get k pid in
  Done (with_procs k (<[pid := mkProc (files p) (cwd p) u (parent p) (zombie p)]> (procs k))).
Definition set_cwd (k : KSt) (pid de : Z) : outcome KSt :=
  let* p := proc_get k pid in
  Done (with_procs k (<[pid := mkProc (files p) de (umem p) (parent p) (zombie p)]> (procs k))).
(** [curproc->vmar.copyout(addr, bytes)]. *)
Definition to_user (k : KSt) (pid addr : Z) (bytes : list Z) : outcome KSt :=
  let* p := proc_get k pid in let* u := copyout (umem p) addr bytes in set_umem k pid u.
Definition from_user_str (k : KSt) (pid addr max : Z) : outcome (list Z) :=
  let* p := proc_get k pid in copyinstr (umem p) addr max.
Definition fd_file (k : KSt) (pid fd : Z) : outcome (option Z) := let* p := proc_get k pid in ofile p fd.

(** Path(path, shared_ptr<File>): the file must be an entry, whatever the
    path. *)
Definition Path_file (k : KSt) (pid : Z) (s : list Z) (base : option Z) : outcome PathObj :=
  let* p := proc_get k pid in
  let* b := match base with
            | None => Done None
            | Some f => let* x := file_get k f in let* de := getEntry x in Done (Some de)
            end in
  path_build (world k) (cwd p) s b.
Definition Path_str (k : KSt) (pid : Z) (s : list Z) : outcome PathObj := Path_file k pid s None.

(** What the [...At] calls begin with: the path is copied in, the base
    descriptor is looked up. *)
Definition at_path (k : KSt) (pid basefd addr max : Z) (go : PathObj -> outcome (sysrt * KSt))
  : outcome (sysrt * KSt) :=
  let* s := from_user_str k pid addr max in
  let* b := fd_file k pid basefd in
  match b with
  | None => Done (RtErr EBADF, k)
  | Some f => let* p := Path_file k pid s (Some f) in go p
  end.
Definition with_file (k : KSt) (pid fd : Z) (go : Z -> outcome (sysrt * KSt)) : outcome (sysrt * KSt) :=
  let* f := fd_file k pid fd in
  match f with None => Done (RtErr EBADF, k) | Some f => go f end.
Definition on_world (k : KSt) (r : outcome (Z * World S)) : outcome (sysrt * KSt) :=
  let* (v, w) := r in Done (rt v, with_world k w).

(** ** Working directory *)
Definition getCwd (k : KSt) (pid buf len : Z) : outcome (sysrt * KSt) :=
  if buf =? 0 then Done (rt err, k)
  else
    let* p := proc_get k pid in
    let* po := path_build (world k) (cwd p) [] (Some (cwd p)) in
    let* s := path_absolute (world k) po in
    if len <? zlen s + 1 then Done (rt 0, k)
    else let* k := to_user k pid buf (s ++ [0]) in Done (RtOk buf, k).
Definition chDir (k : KSt) (pid path : Z) : outcome (sysrt * KSt) :=
  if path =? 0 then Done (RtErr EFAULT, k)
  else
    let* s := from_user_str k pid path FAT32_MAX_PATH in
    let* po := Path_str k pid s in
    let* p := proc_get k pid in
    let* (r, _, w) := pathSearch (world k) (cwd p) po false in
    let k := with_world k w in
    match r with
    | None => Done (rt err, k)
    | Some e =>
        let* x := de_get w e in
        if negb (is_dir w x) then Done (rt err, k)
        else
          let* k := set_cwd k pid e in
          let* (f, k) := File_entry k e O_RDWR in
          let* k := set_slot k pid FdCwd (Some f) in
          Done (rt ok, k)
    end.
Definition fChDir (k : KSt) (pid fd : Z) : outcome (sysrt * KSt) :=
  with_file k pid fd (fun f =>
    let* x := file_get k f in
    let* e := getEntry x in
    let* d := de_get (world k) e in
    if negb (is_dir (world k) d) then Done (RtErr ENOTDIR, k)
    else
      let* k := set_cwd k pid e in
      let* k := set_slot k pid FdCwd (Some f) in
      Done (rt ok, k)).

(** ** Descriptors *)
Definition dup (k : KSt) (pid fd : Z) : outcome (sysrt * KSt) :=
  with_file k pid fd (fun f => let* (n, k) := fdAlloc k pid f 0 false in Done (rt n, k)).
(** [ofile(newfd)->flags &= ~O_CLOEXEC; ... |= fl]. *)
Definition reflag (k : KSt) (pid newfd fl : Z) : outcome KSt :=
  let* g := fd_file k pid newfd in
  match g with
  | None => Undef
  | Some g =>
      let* x := file_get k g in
      Done (set_flags k g x (i32 (Z.lor (Z.land (flags x) (Z.lnot O_CLOEXEC)) fl)))
  end.
Definition dup3 (k : KSt) (pid fd newfd fl : Z) : outcome (sysrt * KSt) :=
  if fd =? newfd then Done (RtErr EINVAL, k)
  else with_file k pid fd (fun f =>
    let* (n, k) := fdAlloc k pid f newfd true in
    let* k := (if 0 <=? n then reflag k pid n fl else Done k) in
    Done (rt n, k)).
Definition fCntl (k : KSt) (pid fd cmd arg : Z) : outcome (sysrt * KSt) :=
  with_file k pid fd (fun f =>
    let* x := file_get k f in
    if cmd =? F_DUPFD then let* (n, k) := fdAlloc k pid f (i32 arg) false in Done (rt n, k)
    else if cmd =? F_GETFD then Done (rt (if has (flags x) O_CLOEXEC then FD_CLOEXEC else 0), k)
    else if cmd =? F_SETFD then
      Done (rt 0, set_flags k f x (if has arg FD_CLOEXEC then Z.lor (flags x) O_CLOEXEC
                                   else Z.land (flags x) (Z.lnot O_CLOEXEC)))
    else if cmd =? F_GETFL then Done (rt (flags x), k)
    else if cmd =? F_SETFL then
      Done (rt 0, set_flags k f x (Z.lor (Z.land (flags x) (Z.lnot SETFL_MASK)) (Z.land arg SETFL_MASK)))
    else if cmd =? F_DUPFD_CLOEXEC then
      let* (n, k) := fdAlloc k pid f (i32 arg) false in
      let* k := (if 0 <=? n then reflag k pid n O_CLOEXEC else Done k) in
      Done (rt n, k)
    else Done (RtErr EINVAL, k)).
Definition close (k : KSt) (pid fd : Z) : outcome (sysrt * KSt) :=
  let* f := fd_file k pid fd in
  match f with
  | None => Done (RtErr EBADF, k)
  | Some _ =>
      (** [files[a_fd]] with the number as given: AT_FDCWD passes the test *)
      let* k := set_slot k pid fd None in Done (rt ok, k)
  end.
Definition pipe2 (fresh : list Z) (junk : Z) (k : KSt) (pid fd : Z) : outcome (sysrt * KSt) :=
  let p := nextp k in
  let k := mkK (world k) (fobjs k) (nextf k) (<[p := Pipe.Pipe.Pipe_new fresh]> (pipes k)) (p + 1)
             (procs k) (sched k) (pages k) (console k) (locals k) in
  let* (r, k) := File_pipe k p fop_read junk in
  let* (w, k) := File_pipe k p fop_write junk in
  let* (n1, k) := fdAlloc k pid r 0 false in
  let* (n2, k) := fdAlloc k pid w 0 false in
  let* k := to_user k pid (u64 fd) (le32 (u32 n1) ++ le32 (u32 n2)) in
  let* k := file_drop k w in
  let* k := file_drop k r in
  Done (rt ok, k).

(** ** Paths *)
Definition mkDirAt (k : KSt) (pid basefd path mode : Z) : outcome (sysrt * KSt) :=
  if path =? 0 then Done (RtErr EFAULT, k)
  else at_path k pid basefd path FAT32_MAX_PATH (fun po =>
    let* p := proc_get k pid in
    let* (r, _, w) := pathCreate (world k) (cwd p) po T_DIR 0 in
    Done (rt (match r with None => err | Some _ => ok end), with_world k w)).
Definition unlinkAt (k : KSt) (pid basefd path fl : Z) : outcome (sysrt * KSt) :=
  if path =? 0 then Done (RtErr EFAULT, k)
  else at_path k pid basefd path FAT32_MAX_PATH (fun po =>
    let* p := proc_get k pid in on_world k (pathHardUnlink (world k) (cwd p) po)).
Definition symLinkAt (k : KSt) (pid target basefd link : Z) : outcome (sysrt * KSt) :=
  let* t := from_user_str k pid target FAT32_MAX_PATH in
  at_path k pid basefd link FAT32_MAX_PATH (fun po =>
    let* p := proc_get k pid in on_world k (pathSymLink (world k) (cwd p) po t)).
Definition linkAt (k : KSt) (pid oldfd oldpath newfd newpath fl : Z) : outcome (sysrt * KSt) :=
  if (oldpath =? 0) || (newpath =? 0) then Done (RtErr EFAULT, k)
  else
    let* s1 := from_user_str k pid oldpath FAT32_MAX_PATH in
    let* s2 := from_user_str k pid newpath FAT32_MAX_PATH in
    let* b1 := fd_file k pid oldfd in
    let* b2 := fd_file k pid newfd in
    match b1, b2 with
    | Some f1, Some f2 =>
        let* p1 := Path_file k pid s1 (Some f1) in
        let* p2 := Path_file k pid s2 (Some f2) in
        let* p := proc_get k pid in
        on_world k (pathHardLink (world k) (cwd p) p1 p2)
    | _, _ => Done (RtErr EBADF, k)
    end.
Definition statFS (k : KSt) (pid path buf : Z) : outcome (sysrt * KSt) :=
  let* s := from_user_str k pid path FAT32_MAX_PATH in
  let* po := Path_str k pid s in
  let* p := proc_get k pid in
  let* (r, _, w) := pathSearch (world k) (cwd p) po false in
  let k := with_world k w in
  match r with
  | None => Done (rt err, k)
  | Some e =>
      let* x := de_get w e in
      match fss w !! rFS (nods w) (de_nod x) with
      | None => Undef
      | Some f => let* k := to_user k pid buf (statfs_bytes (fs_stat f)) in Done (rt ok, k)
      end
  end.

(** ** Opening *)
Definition openAt (k : KSt) (pid basefd path fl mode : Z) : outcome (sysrt * KSt) :=
  if path =? 0 then Done (RtErr EFAULT, k)
  else at_path k pid basefd path FAT32_MAX_PATH (fun po =>
    let* (fd, k) := pathOpen k pid po fl mode in Done (rt fd, k)).
(** In fAccessAt [fd != Err(EISDIR)] compares a number with an [expected] that
    holds an error, so it is always true. *)
Definition fAccessAt (k : KSt) (pid basefd path mode fl : Z) : outcome (sysrt * KSt) :=
  if path =? 0 then Done (RtErr EFAULT, k)
  else
    let want := if has mode 5 && has mode 2 then Some O_RDWR
                else if has mode 2 then Some O_WRONLY
                else if has mode 5 then Some 0 else None in
    match want with
    | None => Done (RtErr EINVAL, k)
    | Some want =>
        at_path k pid basefd path FAT32_MAX_PATH (fun po =>
          let* (fd, k) := pathOpen k pid po (Z.lor want fl) S_IFREG in
          if fd <? 0 then Done (rt fd, k)
          else let* k := set_slot k pid fd None in Done (rt 0, k))
    end.
(** A call on the inode of an open file. *)
Definition on_inode (k : KSt) (f : Z) (go : S -> Z -> outcome (Z * S)) : outcome (Z * KSt) :=
  let* x := file_get k f in
  let* e := getEntry x in
  let* d := de_get (world k) e in
  let* (v, s) := go (nods (world k)) (de_nod d) in
  Done (v, with_world k (with_nods (world k) s)).
(** Open, call, close, as fChModAt and fChOwnAt do. *)
Definition open_do (k : KSt) (pid : Z) (po : PathObj) (fl : Z) (go : S -> Z -> outcome (Z * S)) : outcome (sysrt * KSt) :=
  let* (fd, k) := pathOpen k pid po fl S_IFREG in
  if fd <? 0 then Done (rt fd, k)
  else
    let* f := fd_file k pid fd in
    match f with
    | None => Undef
    | Some f =>
        let* (v, k) := on_inode k f go in
        let* k := set_slot k pid fd None in
        Done (rt v, k)
    end.
Definition fChMod (k : KSt) (pid fd mode : Z) : outcome (sysrt * KSt) :=
  with_file k pid fd (fun f => let* (v, k) := on_inode k f (fun s n => chMod s n mode) in Done (rt v, k)).
Definition fChModAt (k : KSt) (pid basefd path mode fl : Z) : outcome (sysrt * KSt) :=
  at_path k pid basefd path FAT32_MAX_FILENAME (fun po => open_do k pid po fl (fun s n => chMod s n mode)).
Definition fChOwnAt (k : KSt) (pid basefd path uid gid fl : Z) : outcome (sysrt * KSt) :=
  at_path k pid basefd path FAT32_MAX_FILENAME (fun po => open_do k pid po fl (fun s n => chOwn s n uid gid)).
Definition fChOwn (k : KSt) (pid fd uid gid : Z) : outcome (sysrt * KSt) :=
  with_file k pid fd (fun f => let* (v, k) := on_inode k f (fun s n => chOwn s n uid gid) in Done (rt v, k)).
(** The base of readLinkAt is not checked; without one the path is relative to
    the working directory. The whole buffer is copied to the user. *)
Definition readLinkAt (k : KSt) (pid basefd path buf bufsiz : Z) : outcome (sysrt * KSt) :=
  let* b := fd_file k pid basefd in
  let* s := from_user_str k pid path FAT32_MAX_PATH in
  let* po := Path_file k pid s b in
  let* (fd, k) := pathOpen k pid po 0 S_IFREG in
  if fd <? 0 then Done (rt fd, k)
  else
    let* f := fd_file k pid fd in
    match f with
    | None => Undef
    | Some f =>
        let* x := file_get k f in
        let* e := getEntry x in
        let* d := de_get (world k) e in
        let* (v, bytes, s) := readLink (nods (world k)) (de_nod d) bufsiz in
        let k := with_world k (with_nods (world k) s) in
        let* k := set_slot k pid fd None in
        let* k := to_user k pid buf bytes in
        Done (rt v, k)
    end.

(** ** Status *)
Definition fStatAt (k : KSt) (pid basefd path kst fl : Z) : outcome (sysrt * KSt) :=
  if (kst =? 0) || (path =? 0) then Done (RtErr EFAULT, k)
  else at_path k pid basefd path FAT32_MAX_PATH (fun po =>
    let* p := proc_get k pid in
    let* (r, _, w) := pathSearch (world k) (cwd p) po false in
    let k := with_world k w in
    match r with
    | None => Done (RtErr ENOENT, k)
    | Some e =>
        let* st := kst_entry w e in
        let* k := to_user k pid kst (kstat_bytes st) in Done (rt ok, k)
    end).
(** fStat copies the status taken when the file was opened. *)
Definition fStat (k : KSt) (pid fd kst : Z) : outcome (sysrt * KSt) :=
  if kst =? 0 then Done (RtErr EFAULT, k)
  else with_file k pid fd (fun f =>
    let* x := file_get k f in
    let* k := to_user k pid kst (kstat_bytes (d_kst (obj x))) in Done (rt ok, k)).
Definition ioCtl (k : KSt) (pid fd req arg : Z) : outcome (sysrt * KSt) :=
  let* f := fd_file k pid fd in
  match f with
  | None => Undef
  | Some f =>
      let* x := file_get k f in
      if negb (S_ISCHR (st_mode (d_kst (obj x)))) then Done (rt (- ENOTTY), k)
      else let* (v, k) := on_inode k f (fun s n => nod_ioctl s n (u32 req) arg) in Done (rt v, k)
  end.
Definition getDents64 (k : KSt) (pid fd buf len : Z) : outcome (sysrt * KSt) :=
  if buf =? 0 then Done (RtErr EFAULT, k)
  else with_file k pid fd (fun f =>
    let* x := file_get k f in
    match obj x with
    | EP st e o =>
        let* d := de_get (world k) e in
        let* (n, bytes, o', s) := readDir (nods (world k)) (de_nod d) (u32 (len / sizeof_DStat)) o in
        let k := set_obj (with_world k (with_nods (world k) s)) f x (EP st e o') in
        let* k := (if 0 <? n then to_user k pid buf (take (Z.to_nat n) bytes) else Done k) in
        Done (rt n, k)
    | _ => Done (RtErr EINVAL, k)
    end).
Definition lSeek (k : KSt) (pid fd off whence : Z) : outcome (sysrt * KSt) :=
  with_file k pid fd (fun f => let* (n, k) := File.lSeek k f off whence in Done (rt n, k)).

(** ** Reading, writing and sendfile

    A call that blocks keeps its reference to the file until it is finished
    with [read_resume], [write_resume] or [send_resume]. *)
Inductive sysio : Type :=
| SysRet (r : sysrt)
| SysRead (f : Z) (buf : list Z) (off uva : Z)
| SysWrite (f : Z) (bytes : list Z) (off : Z).

Fixpoint remove_one (x : Z) (l : list Z) : list Z :=
  match l with [] => [] | y :: l' => if x =? y then l' else y :: remove_one x l' end.
Definition unlocal (k : KSt) (f : Z) : outcome KSt := file_drop (with_locals k (remove_one f (locals k))) f.

(** A negative count is converted to a length of almost 2^64. *)
Definition read_end (k : KSt) (pid f uva : Z) (r : Pipe.Pipe.io) (buf : list Z) : outcome (sysio * KSt) :=
  match r with
  | Pipe.Pipe.IoBlock off => Done (SysRead f buf off uva, with_locals k (f :: locals k))
  | Pipe.Pipe.IoRet n =>
      if n <? 0 then Undef
      else let* k := to_user k pid uva (take (Z.to_nat n) buf) in Done (SysRet (rt n), k)
  end.
Definition read (k : KSt) (pid fd uva len : Z) : outcome (sysio * KSt) :=
  let* f := fd_file k pid fd in
  match f with
  | None => Done (SysRet (RtErr EBADF), k)
  | Some f =>
      let* (r, buf, k) := File.read k f (replicate (Z.to_nat len) 0) (-1) true 0 in
      read_end k pid f uva r buf
  end.
Definition read_resume (k : KSt) (pid f : Z) (buf : list Z) (off uva : Z) : outcome (sysio * KSt) :=
  let* (r, buf, k) := File.read k f buf (-1) true off in
  let* (x, k') := read_end k pid f uva r buf in
  let* k' := unlocal k' f in Done (x, k').
Definition write_end (k : KSt) (f : Z) (r : Pipe.Pipe.io) (bytes : list Z) : outcome (sysio * KSt) :=
  match r with
  | Pipe.Pipe.IoBlock off => Done (SysWrite f bytes off, with_locals k (f :: locals k))
  | Pipe.Pipe.IoRet n => Done (SysRet (rt n), k)
  end.
Definition write (k : KSt) (pid fd src len : Z) : outcome (sysio * KSt) :=
  if src =? 0 then Done (SysRet (RtErr EFAULT), k)
  else
    let* f := fd_file k pid fd in
    match f with
    | None => Done (SysRet (RtErr EBADF), k)
    | Some f =>
        let* p := proc_get k pid in
        let* bytes := copyin (umem p) src len in
        let* (r, k) := File.write k f bytes 0 in
        write_end k f r bytes
    end.
Definition write_resume (k : KSt) (f : Z) (bytes : list Z) (off : Z) : outcome (sysio * KSt) :=
  let* (r, k) := File.write k f bytes off in
  let* (x, k') := write_end k f r bytes in
  let* k' := unlocal k' f in Done (x, k').
(** sendFile: a call that blocks in one of the files keeps its references to both until
    it is finished with [send_resume]; [uoff] is the user's offset pointer, [off] the
    offset read from it, [in_off] the position that File::sendFile notes at its start. *)
Definition get64 (l : list Z) : Z := i64 (get32 l 0 + 4294967296 * get32 l 4).
Inductive sendio : Type :=
| SendRet (r : sysrt)
| SendBlocked (i o uoff : Z) (off : option Z) (in_off len nsend : Z) (pt : sendpt).
Definition send_end (k : KSt) (pid i o uoff : Z) (off : option Z) (in_off : Z) (r : sendres) : outcome (sendio * KSt) :=
  match r with
  | SDone n =>
      if uoff =? 0 then Done (SendRet (rt n), k)
      else let* k := to_user k pid uoff (le64 (default 0 off)) in Done (SendRet (rt n), k)
  | SBlocked len nsend pt => Done (SendBlocked i o uoff off in_off len nsend pt, with_locals k (i :: o :: locals k))
  end.
Definition sendFile (k : KSt) (pid outfd infd uoff len : Z) : outcome (sendio * KSt) :=
  let* o := fd_file k pid outfd in
  let* i := fd_file k pid infd in
  match o, i with
  | Some o, Some i =>
      if uoff =? 0 then
        let* (r, off, k) := File.sendFile k i o None len in send_end k pid i o uoff off 0 r
      else
        let* p := proc_get k pid in
        let* b := copyin (umem p) uoff 8 in
        let* (in_off, _) := File.lSeek k o 0 SEEK_CUR in
        let* (r, off, k) := File.sendFile k i o (Some (get64 b)) len in send_end k pid i o uoff off in_off r
  | _, _ => Done (SendRet (RtErr EBADF), k)
  end.
Definition send_resume (k : KSt) (pid i o uoff : Z) (off : option Z) (in_off len nsend : Z) (pt : sendpt)
  : outcome (sendio * KSt) :=
  let* (r, off, k) := send_from k i o off in_off len nsend pt in
  let* (x, k) := send_end k pid i o uoff off in_off r in
  let* k := unlocal k i in
  let* k := unlocal k o in
  Done (x, k).
Definition sync (k : KSt) : outcome (sysrt * KSt) := Done (rt ok, k).

(** ** Mounting *)
Context (ldspblk : S -> Z -> Z -> outcome (option Z * S)) (mntpoint : S -> Z -> option Z)
  (uninstall : S -> Z -> outcome S).
Definition mount (k : KSt) (pid dev path fstype : Z) : outcome (sysrt * KSt) :=
  if (dev =? 0) || (path =? 0) || (fstype =? 0) then Done (RtErr EFAULT, k)
  else
    let* s1 := from_user_str k pid dev FAT32_MAX_PATH in
    let* s2 := from_user_str k pid path FAT32_MAX_PATH in
    let* s3 := from_user_str k pid fstype FAT32_MAX_PATH in
    let* p1 := Path_str k pid s1 in
    let* p2 := Path_str k pid s2 in
    let* p := proc_get k pid in
    on_world k (pathMount ldspblk (world k) (cwd p) p2 p1 s3).
Definition umount2 (k : KSt) (pid path fl : Z) : outcome (sysrt * KSt) :=
  if path =? 0 then Done (RtErr EFAULT, k)
  else
    let* s := from_user_str k pid path FAT32_MAX_PATH in
    let* po := Path_str k pid s in
    on_world k (pathUnmount mntpoint uninstall (world k) po).

(** ** Processes: what clone, exit and the reaping of a zombie do to the tables *)
Definition proc_clone (k : KSt) (pid newpid : Z) : outcome KSt :=
  let* p := proc_get k pid in
  Done (with_procs k (<[newpid := mkProc (files p) (cwd p) (umem p) pid false]> (procs k))).
Definition proc_exit (k : KSt) (pid : Z) : outcome KSt :=
  let* p := proc_get k pid in
  Done (with_procs k (<[pid := mkProc (files p) (cwd p) (umem p) (parent p) true]> (procs k))).
(** Process::zombieExit: the children that getChilds finds (it looks at the pids
    below 512) are handed to the parent, the process is destroyed and with it
    its table, from the last slot to the first. *)
Fixpoint drop_all (k : KSt) (l : list (option Z)) : outcome KSt :=
  match l with
  | [] => Done k
  | None :: l' => drop_all k l'
  | Some f :: l' =>
      if bool_decide (Some f ∈ l') then drop_all k l'
      else let* k := file_drop k f in drop_all k l'
  end.
Definition zombieExit (k : KSt) (pid : Z) : outcome KSt :=
  let* p := proc_get k pid in
  let m := map_imap (fun i q => Some (if (0 <=? i) && (i <? 512) && (parent q =? pid)
                     then mkProc (files q) (cwd q) (umem q) (parent p) (zombie q) else q)) (procs k) in
  drop_all (with_procs k (delete pid m)) (rev (files p)).

End Calls.
End FileSys.
