(* ===== verification/Ramfs.v ===== *)
(** * Ramfs: the memory file system (include/fs/ramfs.hh)

    An inode is known by its number, which SuperBlock::mknod counts up. The file
    system is an instance of the interface of inodes, and it keeps the laws that
    readers and writers of files rely on ([INodeLaws]). *)

From S2P Require Import Prelude Klib Bytes Path Vfs.
Local Open Scope Z_scope.

(** What a file system promises about regular files: reading returns the bytes
    at the offset and changes no content, writing replaces them and extends the
    file. *)
Class INodeLaws (S : Type) `{!INodeOps S} : Type := mkINodeLaws {
  content : S -> Z -> list Z;
  regular : S -> Z -> Prop;
  law_size : forall s n, regular s n -> rFileSize s n = zlen (content s n);
  law_read : forall s n dst off len,
    regular s n -> 0 <= off <= zlen (content s n) -> 0 <= len <= zlen dst -> off + len < 2 ^ 31 ->
    zlen (content s n) < 2 ^ 31 ->
    let m := Z.min len (zlen (content s n) - off) in
    exists s', nodRead s n dst off len = Done (m, splice dst 0 (slice (content s n) off m), s') /\
      regular s' n /\ content s' n = content s n /\ rFS s' n = rFS s n /\ rMode s' n = rMode s n /\
      (forall n', regular s n' -> regular s' n' /\ content s' n' = content s n');
  law_write : forall s n bytes off,
    regular s n -> 0 <= off <= zlen (content s n) -> off + zlen bytes < 2 ^ 31 ->
    exists s', nodWrite s n bytes off (zlen bytes) = Done (zlen bytes, s') /\
      regular s' n /\ content s' n = splice (content s n) off bytes /\ rFS s' n = rFS s n /\ rMode s' n = rMode s n
}.

Module Ramfs.
Import Vfs.

Record INode : Type := mkINode { isDir : bool; bytes : list Z; subs : gmap (list Z) Z }.
Record SuperBlock : Type := mkSuper { inodes : gmap Z INode; ino : Z; fsid : Z }.
Implicit Types s : SuperBlock.

Definition nod_get s (n : Z) : outcome INode :=
  match inodes s !! n with Some x => Done x | None => Undef end.
Definition set_nod s (n : Z) (x : INode) : SuperBlock := mkSuper (<[n := x]> (inodes s)) (ino s) (fsid s).
(** SuperBlock::mknod and the constructor of the superblock. *)
Definition super_mknod s (isdir : bool) : Z * SuperBlock :=
  let i := ino s + 1 in (i, mkSuper (<[i := mkINode isdir [] ∅]> (inodes s)) i (fsid s)).
Definition SuperBlock_new (fsid : Z) : SuperBlock := snd (super_mknod (mkSuper ∅ 0 fsid) true).

Definition link s (n : Z) (name : list Z) (m : Z) : outcome SuperBlock :=
  let* x := nod_get s n in Done (set_nod s n (mkINode (isDir x) (bytes x) (<[name := m]> (subs x)))).
Definition lookup s (n : Z) (name : list Z) : outcome (option Z * SuperBlock) :=
  let* x := nod_get s n in
  if negb (isDir x) then Done (None, s) else Done (subs x !! name, s).
Definition mknod s (n : Z) (name : list Z) (mode : Z) : outcome (option Z * SuperBlock) :=
  let* x := nod_get s n in
  if negb (isDir x) then Done (None, s)
  else
    let '(m, s1) := super_mknod s (S_ISDIR mode) in
    Done (Some m, set_nod s1 n (mkINode (isDir x) (bytes x) (<[name := m]> (subs x)))).

(** nodRead: [bytes.size()-a_off] is unsigned. *)
Definition ram_read s (n : Z) (dst : list Z) (off len : Z) : outcome (Z * list Z * SuperBlock) :=
  let* x := nod_get s n in
  if isDir x then Done (-1, dst, s)
  else
    let rd := kmin len (u64 (zlen (bytes x) - off)) in
    if (0 <? rd) && ((zlen (bytes x) <? off + rd) || (zlen dst <? rd)) then Undef
    else Done (i32 rd, splice dst 0 (slice (bytes x) off rd), s).
(** nodWrite: [a_off+a_len] is a 32-bit sum, a vector grows with zeros. *)
Definition resize (l : list Z) (n : Z) : list Z := take (Z.to_nat n) l ++ replicate (Z.to_nat n - length l) 0.
Definition ram_write s (n : Z) (src : list Z) (off len : Z) : outcome (Z * SuperBlock) :=
  let* x := nod_get s n in
  if isDir x then Done (-1, s)
  else
    let b := if zlen (bytes x) <? u32 (off + len) then resize (bytes x) (u32 (off + len)) else bytes x in
    if (0 <? len) && ((zlen b <? off + len) || (zlen src <? len)) then Undef
    else Done (i32 len, set_nod s n (mkINode (isDir x) (splice b off (take (Z.to_nat len) src)) (subs x))).
Definition ram_mode s (n : Z) : Z :=
  match inodes s !! n with Some x => if isDir x then S_IFDIR else S_IFREG | None => 0 end.
Definition ram_size s (n : Z) : Z := match inodes s !! n with Some x => zlen (bytes x) | None => 0 end.
Definition isEmpty s (n : Z) : outcome (bool * SuperBlock) :=
  let* x := nod_get s n in
  Done ((if isDir x then bool_decide (subs x = ∅) else zlen (bytes x) =? 0), s).

(** The operations that ramfs leaves empty or refuses. *)
#[global] Instance ramfs_ops : INodeOps SuperBlock := {|
  nod_lookup := lookup;
  nod_mknod := mknod;
  nodRead := ram_read;
  nodWrite := ram_write;
  nodTrunc s _ := Done s;
  nodRemove s _ := Done s;
  nodHardUnlink s _ := Done (-1, s);
  nodHardLink _ _ _ := Undef;
  nod_entSymLink s _ _ := Done (-1, s);
  nod_isEmpty := isEmpty;
  chMod s _ _ := Done (-1, s);
  chOwn s _ _ _ := Done (-1, s);
  readLink s _ siz := Done (-1, replicate (Z.to_nat siz) 0, s);
  readDir s _ _ off := Done (0, [], off, s);
  nod_ioctl s _ _ _ := Done (-25, s);
  rMode := ram_mode;
  rFileSize := ram_size;
  rDev _ _ := 0;
  rINo _ n := n;
  rFS s _ := fsid s
|}.

Definition ram_content s (n : Z) : list Z := match inodes s !! n with Some x => bytes x | None => [] end.
Definition ram_regular s (n : Z) : Prop := exists x, inodes s !! n = Some x /\ isDir x = false.

Lemma ram_read_law s n dst off len :
  ram_regular s n -> 0 <= off <= zlen (ram_content s n) -> 0 <= len <= zlen dst -> off + len < 2 ^ 31 ->
  zlen (ram_content s n) < 2 ^ 31 ->
  let m := Z.min len (zlen (ram_content s n) - off) in
  ram_read s n dst off len = Done (m, splice dst 0 (slice (ram_content s n) off m), s).
Proof.
  intros (x & Hx & Hd). unfold ram_content, ram_read, nod_get. rewrite Hx. cbn [obind]. rewrite Hd. intros Ho Hl H1 H2.
  rewrite kmin_spec, u64_small by (unfold zlen in *; lia). set (m := Z.min len _).
  assert (0 <= m) by lia. destruct (Z.ltb_spec 0 m); cbn [andb]; [|by rewrite i32_small by lia].
  destruct (Z.ltb_spec (zlen (bytes x)) (off + m)); [lia|]. destruct (Z.ltb_spec (zlen dst) m); [lia|].
  by rewrite i32_small by lia.
Qed.
Lemma splice_resize (l : list Z) o bs :
  0 <= o <= zlen l -> zlen l < o + zlen bs -> splice (resize l (o + zlen bs)) o bs = splice l o bs.
Proof.
  unfold splice, resize, zlen. intros Ho Hl. rewrite (take_ge l) by lia.
  rewrite take_app_le by lia. f_equal. f_equal.
  rewrite (drop_ge l) by lia. apply drop_ge. rewrite length_app, length_replicate. lia.
Qed.
Lemma ram_write_law s n src off :
  ram_regular s n -> 0 <= off <= zlen (ram_content s n) -> off + zlen src < 2 ^ 31 ->
  exists s', ram_write s n src off (zlen src) = Done (zlen src, s') /\ ram_regular s' n /\
    ram_content s' n = splice (ram_content s n) off src /\ fsid s' = fsid s /\ ram_mode s' n = ram_mode s n.
Proof.
  intros (x & Hx & Hd). unfold ram_content, ram_write, nod_get, ram_mode. rewrite Hx. cbn [obind]. rewrite Hd.
  intros Ho Hl. assert (H0 : 0 <= zlen src) by (unfold zlen; lia). rewrite u32_small by lia.
  set (b := if _ <? _ then _ else _).
  assert (Hb : off + zlen src <= zlen b /\ splice b off src = splice (bytes x) off src).
  { unfold b. destruct (Z.ltb_spec (zlen (bytes x)) (off + zlen src)); [|split; [lia|done]].
    split; [|apply splice_resize; lia]. unfold zlen, resize in *. rewrite length_app, length_take, length_replicate. lia. }
  destruct Hb as [Hb1 Hb2].
  assert ((0 <? zlen src) && ((zlen b <? off + zlen src) || (zlen src <? zlen src)) = false) as ->.
  { destruct (Z.ltb_spec (zlen b) (off + zlen src)); [lia|]. rewrite Z.ltb_irrefl. by rewrite andb_false_r. }
  rewrite i32_small by lia. eexists. split; [done|]. cbn. unfold set_nod. cbn. rewrite lookup_insert_eq. cbn.
  rewrite take_ge by (unfold zlen; lia). split_and!; try done.
  - eexists. cbn. rewrite lookup_insert_eq. split; [done|]. done.
Qed.

(** ramfs keeps the laws of files. *)
#[global] Program Instance ramfs_laws : INodeLaws SuperBlock := {|
  content := ram_content;
  regular := ram_regular
|}.
Next Obligation. intros s n (x & Hx & _). cbn. unfold ram_size, ram_content. by rewrite Hx. Qed.
Next Obligation.
  intros s n dst off len Hr Ho Hl H1 H2 m. exists s. split_and!; try done. by apply ram_read_law.
Qed.
Next Obligation. intros s n src off Hr Ho Hl. by apply ram_write_law. Qed.

End Ramfs.
