(* ===== verification/FdInv.v ===== *)
(** * FdInv: descriptor tables own the open files, and pipes count their ends

    The invariant of the file layer: every descriptor refers to a live file,
    every live file has an owner, a pipe has one file for each end, and the
    reader and writer counts of the pipe tell which of the two are alive. It is
    kept by every file system call, by clone and by the reaping of a process. *)

From S2P Require Import Prelude Klib Buddy Sched Pipe Bytes Path Vfs File FileSys.
Local Open Scope Z_scope.

Module FdInv.
Import Path Vfs File FileSys.

Section Inv.
Context {S U : Type} `{!INodeOps S} `{!UserMem U}.
Notation KSt := (K S U).
Implicit Types (k : KSt) (t : list Z).

Definition live k (f : Z) : Prop := is_Some (fobjs k !! f).
Definition count (m : gmap Z File) (f : Z) : Z := if decide (is_Some (m !! f)) then 1 else 0.

(** The two ends of a pipe: their files and what they may do. *)
Record pipe_ends (m : gmap Z File) (n : Z) (p : Z) (q : Pipe.Pipe.Pipe) (fr fw : Z) : Prop := {
  pe_ne : fr <> fw;
  pe_r : fr < n;
  pe_w : fw < n;
  pe_files : forall f x st, m !! f = Some x -> obj x = PP st p ->
    (f = fr /\ ops x = ops_raw fop_read) \/ (f = fw /\ ops x = ops_raw fop_write);
  pe_rlive : forall x, m !! fr = Some x -> obj x = PP kst_pipe p;
  pe_wlive : forall x, m !! fw = Some x -> obj x = PP kst_pipe p;
  pe_rcnt : Pipe.Pipe.rcnt q = count m fr;
  pe_wcnt : Pipe.Pipe.wcnt q = count m fw
}.

(** [t] lists files that a running call still owns. *)
Record InvT t k : Prop := {
  i_len : forall pid p, procs k !! pid = Some p -> Z.of_nat (length (files p)) = mOFiles;
  i_slot : forall pid p f, procs k !! pid = Some p -> Some f ∈ files p -> live k f;
  i_loc : forall f, f ∈ locals k -> live k f;
  i_held : forall f, live k f -> held k f = true \/ f ∈ t;
  i_next : forall f, live k f -> f < nextf k;
  i_pnext : forall p, is_Some (pipes k !! p) -> p < nextp k;
  i_pipe : forall f x st p, fobjs k !! f = Some x -> obj x = PP st p -> is_Some (pipes k !! p);
  i_ends : forall p q, pipes k !! p = Some q -> exists fr fw, pipe_ends (fobjs k) (nextf k) p q fr fw
}.

Lemma held_spec k f :
  held k f = true <-> (exists pid p, procs k !! pid = Some p /\ Some f ∈ files p) \/ f ∈ locals k.
Proof.
  unfold held. rewrite orb_true_iff, existsb_exists, bool_decide_eq_true. split.
  - intros [([pid p] & Hin & Hb)|Hl]; [left|by right]. exists pid, p. cbn in Hb. rewrite bool_decide_eq_true in Hb.
    split; [|done]. apply elem_of_map_to_list. by apply list_elem_of_In.
  - intros [(pid & p & Hp & Hf)|Hl]; [left|by right]. exists (pid, p). split.
    + apply list_elem_of_In. by apply elem_of_map_to_list.
    + cbn. by rewrite bool_decide_eq_true.
Qed.

Lemma inv_mono t t' k : InvT t k -> t ⊆ t' -> InvT t' k.
Proof. intros [] Hs. constructor; auto. intros f Hf. destruct (i_held0 f Hf); auto. Qed.
Lemma inv_unt t f k : InvT (f :: t) k -> held k f = true -> InvT t k.
Proof.
  intros [] Hh. constructor; auto. intros g Hg. destruct (i_held0 g Hg) as [|[->|]%elem_of_cons]; auto.
Qed.

(** ** Changes that the invariant does not see *)
Lemma inv_world t k w : InvT t k -> InvT t (with_world k w).
Proof. intros []. constructor; assumption. Qed.
Lemma inv_pages t k a : InvT t k -> InvT t (with_pages k a).
Proof. intros []. constructor; assumption. Qed.
Lemma inv_console t k c : InvT t k -> InvT t (with_console k c).
Proof. intros []. constructor; assumption. Qed.

(** Replacing the contents of a live file that is not the end of a pipe by
    another such, or only its flags. *)
Lemma inv_file t k f x y :
  InvT t k -> fobjs k !! f = Some x -> ops y = ops x ->
  (obj y = obj x \/ ((forall st p, obj x <> PP st p) /\ (forall st p, obj y <> PP st p))) ->
  InvT t (with_fobjs k (<[f := y]> (fobjs k)) (nextf k)).
Proof.
  intros [] Hx Ho Hd. pose proof (mk_is_Some _ _ Hx) as Hlf.
  assert (Hl : forall g, live (with_fobjs k (<[f := y]> (fobjs k)) (nextf k)) g <-> live k g).
  { intros g. unfold live. cbn. destruct (decide (g = f)) as [->|Hn].
    - rewrite lookup_insert_eq. split; [done|eauto].
    - by rewrite lookup_insert_ne. }
  assert (Hc : forall g, count (<[f := y]> (fobjs k)) g = count (fobjs k) g).
  { intros g. unfold count. apply decide_ext, Hl. }
  assert (Hg : forall g z st p, <[f:=y]> (fobjs k) !! g = Some z -> obj z = PP st p ->
    exists z', fobjs k !! g = Some z' /\ ops z = ops z' /\ obj z' = PP st p).
  { intros g z st p. destruct (decide (g = f)) as [->|Hn].
    - rewrite lookup_insert_eq. intros [= <-] Hz. exists x. destruct Hd as [Hd|[_ Hd]]; [|by destruct (Hd st p)].
      split_and!; congruence.
    - rewrite lookup_insert_ne by done. eauto. }
  assert (Hb : forall g p, (forall z, fobjs k !! g = Some z -> obj z = PP kst_pipe p) ->
    forall z, <[f:=y]> (fobjs k) !! g = Some z -> obj z = PP kst_pipe p).
  { intros g p Hz z. destruct (decide (g = f)) as [->|Hn].
    - rewrite lookup_insert_eq. intros [= <-]. specialize (Hz x Hx). destruct Hd as [->|[Hd _]]; [done|].
      by destruct (Hd kst_pipe p).
    - rewrite lookup_insert_ne by done. auto. }
  constructor; try (intros; rewrite ?Hl in *; by eauto).
  - intros g z st p Hz Hp. cbn in *. destruct (Hg _ _ _ _ Hz Hp) as (z' & ? & _ & ?). eauto.
  - intros p q Hq. destruct (i_ends0 p q Hq) as (fr & fw & []). exists fr, fw. constructor; cbn [with_fobjs fobjs]; rewrite ?Hc; eauto.
    intros g z st Hz Hp. cbn in *. destruct (Hg _ _ _ _ Hz Hp) as (z' & ? & Hoz & ?). rewrite Hoz. eauto.
Qed.
Lemma inv_flags t k f x fl : InvT t k -> fobjs k !! f = Some x -> InvT t (set_flags k f x fl).
Proof. intros I Hx. eapply inv_file; eauto. Qed.
Lemma inv_obj t k f x a b c a' b' c' :
  InvT t k -> fobjs k !! f = Some x -> obj x = EP a b c -> InvT t (set_obj k f x (EP a' b' c')).
Proof. intros I Hx Ho. eapply inv_file; eauto. right. split; intros; cbn; congruence. Qed.

(** A pipe whose counts stay the same. *)
Lemma inv_pipe t k p q q' s :
  InvT t k -> pipes k !! p = Some q -> Pipe.Pipe.rcnt q' = Pipe.Pipe.rcnt q ->
  Pipe.Pipe.wcnt q' = Pipe.Pipe.wcnt q -> InvT t (with_pipe k p q' s).
Proof.
  intros [] Hq Hr Hw.
  assert (Hd : forall p', is_Some (<[p := q']> (pipes k) !! p') <-> is_Some (pipes k !! p')).
  { intros p'. destruct (decide (p' = p)) as [->|Hn].
    - rewrite lookup_insert_eq. split; eauto.
    - by rewrite lookup_insert_ne. }
  constructor; try assumption.
  - intros p' Hp'. cbn in Hp'. rewrite Hd in Hp'. eauto.
  - intros f x st p' Hx Hp'. cbn. rewrite Hd. eauto.
  - intros p' q2. cbn. destruct (decide (p' = p)) as [->|Hn].
    + rewrite lookup_insert_eq. intros [= <-]. destruct (i_ends0 p q Hq) as (fr & fw & []). exists fr, fw.
      constructor; auto; unfold count, live in *; cbn; congruence.
    + rewrite lookup_insert_ne by done. intros Hq2. destruct (i_ends0 p' q2 Hq2) as (fr & fw & []). exists fr, fw.
      by constructor.
Qed.
(** ** New files *)
Lemma live_new k x f : live (snd (file_new k x)) f <-> f = nextf k \/ live k f.
Proof.
  unfold live. cbn. destruct (decide (f = nextf k)) as [->|Hn].
  - rewrite lookup_insert_eq. split; eauto.
  - rewrite lookup_insert_ne by done. split; [auto|by intros [|]].
Qed.
Lemma count_old (m : gmap Z File) n x f : f < n -> count (<[n := x]> m) f = count m f.
Proof. intros Hf. unfold count. by rewrite lookup_insert_ne by lia. Qed.
Lemma ends_new (m : gmap Z File) n p q fr fw x :
  pipe_ends m n p q fr fw -> (forall st, obj x <> PP st p) -> pipe_ends (<[n := x]> m) (n + 1) p q fr fw.
Proof.
  intros [] Hx. constructor; rewrite ?count_old by done; auto; try lia.
  - intros f y st. destruct (decide (f = n)) as [->|Hn].
    + rewrite lookup_insert_eq. intros [= <-] Hp. by destruct (Hx st).
    + rewrite lookup_insert_ne by done. eauto.
  - intros y. rewrite lookup_insert_ne by lia. auto.
  - intros y. rewrite lookup_insert_ne by lia. auto.
Qed.
Lemma inv_new t k x :
  InvT t k -> (forall st p, obj x <> PP st p) -> InvT (nextf k :: t) (snd (file_new k x)).
Proof.
  intros [] Hx. constructor; try assumption.
  - intros pid p f Hp Hf. apply live_new. right. eauto.
  - intros f Hf. apply live_new. eauto.
  - intros f [->|Hf]%live_new; [right; by left|]. destruct (i_held0 f Hf); [left; assumption|right; by right].
  - intros f [->|Hf]%live_new; cbn; [lia|]. specialize (i_next0 f Hf). lia.
  - intros f y st p. cbn. destruct (decide (f = nextf k)) as [->|Hn].
    + rewrite lookup_insert_eq. intros [= <-] Hp. by destruct (Hx st p).
    + rewrite lookup_insert_ne by done. eauto.
  - intros p q Hq. destruct (i_ends0 p q Hq) as (fr & fw & He). exists fr, fw. by apply ends_new.
Qed.

(** The pipe that pipe2 makes, with its two files. *)
Definition new_pipe (fresh : list Z) (junk : Z) k : KSt :=
  let p := nextp k in
  let q := Pipe.Pipe.addWriter (Pipe.Pipe.addReader (Pipe.Pipe.Pipe_new fresh)) in
  mkK (world k)
    (<[nextf k + 1 := mkFile (ops_raw fop_write) junk (PP kst_pipe p)]>
       (<[nextf k := mkFile (ops_raw fop_read) junk (PP kst_pipe p)]> (fobjs k)))
    (nextf k + 1 + 1) (<[p := q]> (pipes k)) (p + 1) (procs k) (sched k) (pages k) (console k) (locals k).
Lemma live_pipe fresh junk k f :
  live (new_pipe fresh junk k) f <-> f = nextf k \/ f = nextf k + 1 \/ live k f.
Proof.
  unfold live. cbn. destruct (decide (f = nextf k + 1)) as [->|Hn].
  { rewrite lookup_insert_eq. split; eauto. }
  rewrite lookup_insert_ne by done. destruct (decide (f = nextf k)) as [->|Hn'].
  - rewrite lookup_insert_eq. split; eauto.
  - rewrite lookup_insert_ne by done. split; [auto|by intros [|[|]]].
Qed.
Lemma inv_new_pipe t fresh junk k :
  InvT t k -> InvT (nextf k :: nextf k + 1 :: t) (new_pipe fresh junk k).
Proof.
  intros []. constructor; try assumption.
  - intros pid p f Hp Hf. apply live_pipe. right; right. eauto.
  - intros f Hf. apply live_pipe. eauto.
  - intros f [->|[->|Hf]]%live_pipe; [right; set_solver..|].
    destruct (i_held0 f Hf); [left; assumption|right; set_solver].
  - intros f [->|[->|Hf]]%live_pipe; cbn; [lia..|]. specialize (i_next0 f Hf). lia.
  - intros p [q Hq]. cbn in *. destruct (decide (p = nextp k)) as [->|Hn]; [lia|].
    rewrite lookup_insert_ne in Hq by done. specialize (i_pnext0 p (mk_is_Some _ _ Hq)). lia.
  - intros f x st p. cbn. destruct (decide (p = nextp k)) as [->|Hp]; [rewrite lookup_insert_eq; eauto|].
    rewrite (lookup_insert_ne (pipes k)) by done. rewrite !lookup_insert_Some.
    intros [[_ <-]|[_ [[_ <-]|[_ Hx]]]]; cbn; [intros [=]; congruence..|]. eauto.
  - intros p q. cbn. rewrite lookup_insert_Some. intros [[<- <-]|[Hn Hq]].
    + exists (nextf k), (nextf k + 1). constructor; try lia.
      * intros f x st. rewrite !lookup_insert_Some. intros [[<- <-]|[_ [[<- <-]|[_ Hx]]]] Ho; [by right|by left|].
        specialize (i_pnext0 _ (i_pipe0 _ _ _ _ Hx Ho)). lia.
      * intros x. rewrite lookup_insert_ne, lookup_insert_eq by lia. by intros [= <-].
      * intros x. rewrite lookup_insert_eq. by intros [= <-].
      * unfold count. rewrite lookup_insert_ne, lookup_insert_eq by lia. by rewrite decide_True.
      * unfold count. rewrite lookup_insert_eq. by rewrite decide_True.
    + destruct (i_ends0 p q Hq) as (fr & fw & He). exists fr, fw.
      apply ends_new; [apply ends_new; [done|]|]; cbn; congruence.
Qed.

(** ** The last owner of a file *)
Definition same_owners k k' : Prop := procs k' = procs k /\ locals k' = locals k.
Lemma held_same k k' f : same_owners k k' -> held k' f = held k f.
Proof. intros [Hp Hl]. unfold held. by rewrite Hp, Hl. Qed.

Lemma count_delete (m : gmap Z File) f g : g <> f -> count (delete f m) g = count m g.
Proof. intros Hn. unfold count. by rewrite lookup_delete_ne. Qed.
Lemma count_gone (m : gmap Z File) f : count (delete f m) f = 0.
Proof. unfold count. rewrite lookup_delete_eq. by rewrite decide_False by (intros [? [=]]). Qed.

(** What File::~File does to the counts of its pipe. *)
Definition closed_counts (x : File) (q q' : Pipe.Pipe.Pipe) : Prop :=
  Pipe.Pipe.rcnt q' = (if op_r (ops x) then i32 (Pipe.Pipe.rcnt q - 1) else Pipe.Pipe.rcnt q) /\
  Pipe.Pipe.wcnt q' = (if negb (op_r (ops x)) && op_w (ops x) then i32 (Pipe.Pipe.wcnt q - 1) else Pipe.Pipe.wcnt q).
Lemma decReader_counts q s q' s' :
  Pipe.Pipe.decReader q s = Done (q', s') ->
  Pipe.Pipe.rcnt q' = i32 (Pipe.Pipe.rcnt q - 1) /\ Pipe.Pipe.wcnt q' = Pipe.Pipe.wcnt q.
Proof.
  unfold Pipe.Pipe.decReader. case_match; [|by intros [= <- <-]]. intros Hd. odestr Hd. destruct a. by injection Hd as <- <-.
Qed.
Lemma decWriter_counts q s q' s' :
  Pipe.Pipe.decWriter q s = Done (q', s') ->
  Pipe.Pipe.wcnt q' = i32 (Pipe.Pipe.wcnt q - 1) /\ Pipe.Pipe.rcnt q' = Pipe.Pipe.rcnt q.
Proof.
  unfold Pipe.Pipe.decWriter. case_match; [|by intros [= <- <-]]. intros Hd. odestr Hd. destruct a. by injection Hd as <- <-.
Qed.
Lemma file_close_pipe k x st p :
  obj x = PP st p ->
  rets (file_close k x) (fun k' => exists q q' s, pipes k !! p = Some q /\ closed_counts x q q' /\
    k' = with_pipe k p q' s).
Proof.
  intros Ho. unfold file_close. rewrite Ho. unfold pipe_get. apply rets_skip. intros q Hq.
  destruct (pipes k !! p) as [q0|] eqn:Hp; [|done]. injection Hq as <-.
  unfold closed_counts. destruct (op_r (ops x)); cbn [negb andb].
  { apply rets_skip. intros [q' s] [? ?]%decReader_counts. cbn. eauto 10. }
  destruct (op_w (ops x)); cbn [negb andb].
  { apply rets_skip. intros [q' s] [? ?]%decWriter_counts. cbn. eauto 10. }
  cbn. exists q0, q0, (sched k). split_and!; auto. destruct k; unfold with_pipe; cbn in *. by rewrite insert_id.
Qed.

Lemma ends_delete (m : gmap Z File) n f p q fr fw :
  pipe_ends m n p q fr fw -> f <> fr -> f <> fw -> pipe_ends (delete f m) n p q fr fw.
Proof.
  intros [] Hr Hw. constructor; rewrite ?count_delete by done; auto.
  - intros g x st Hg. rewrite lookup_delete_Some in Hg. destruct Hg. eauto.
  - intros x. rewrite lookup_delete_ne by done. auto.
  - intros x. rewrite lookup_delete_ne by done. auto.
Qed.
(** The deletion of a file that nobody holds, with the pipe table after its
    destructor. *)
Lemma inv_delete_but t k f m s :
  InvT (f :: t) k -> held k f = false -> (forall p, is_Some (m !! p) <-> is_Some (pipes k !! p)) ->
  (forall p q, m !! p = Some q -> exists fr fw, pipe_ends (delete f (fobjs k)) (nextf k) p q fr fw) ->
  InvT t (mkK (world k) (delete f (fobjs k)) (nextf k) m (nextp k) (procs k) s (pages k) (console k) (locals k)).
Proof.
  intros [] Hh Hm He.
  assert (Hl : forall g, is_Some (delete f (fobjs k) !! g) <-> g <> f /\ live k g).
  { intros g. unfold live, is_Some. setoid_rewrite lookup_delete_Some. naive_solver. }
  assert (Hn : ~ ((exists pid p, procs k !! pid = Some p /\ Some f ∈ files p) \/ f ∈ locals k)).
  { rewrite <- held_spec. congruence. }
  constructor; try assumption.
  - intros pid p g Hp Hg. apply Hl. split; [|eauto]. intros ->. apply Hn. eauto.
  - intros g Hg. apply Hl. split; [|eauto]. intros ->. apply Hn. by right.
  - intros g [Hgf Hg]%Hl. destruct (i_held0 g Hg) as [|[->|]%elem_of_cons]; [by left|done|by right].
  - intros g [Hgf Hg]%Hl. cbn. eauto.
  - intros p Hp. cbn in *. rewrite Hm in Hp. eauto.
  - intros g y st p Hg. cbn in Hg. rewrite lookup_delete_Some in Hg. destruct Hg. cbn. rewrite Hm. eauto.
Qed.
Lemma inv_delete t k f x :
  InvT (f :: t) k -> held k f = false -> fobjs k !! f = Some x -> (forall st p, obj x <> PP st p) ->
  InvT t (with_fobjs k (delete f (fobjs k)) (nextf k)).
Proof.
  intros I Hh Hx Ho. apply inv_delete_but; auto. intros p q Hq. destruct (i_ends _ _ I p q Hq) as (fr & fw & He).
  exists fr, fw. apply ends_delete; [done| |]; intros ->; destruct He; eapply Ho; eauto.
Qed.
Lemma count_live (m : gmap Z File) f x : m !! f = Some x -> count m f = 1.
Proof. intros Hx. unfold count. by rewrite Hx, decide_True. Qed.
Lemma ends_close (m : gmap Z File) n f x st p q q' fr fw :
  pipe_ends m n p q fr fw -> m !! f = Some x -> obj x = PP st p -> closed_counts x q q' ->
  pipe_ends (delete f m) n p q' fr fw.
Proof.
  intros [] Hx Ho [Hr Hw].
  assert (Hcr : Pipe.Pipe.rcnt q' = count (delete f m) fr /\ Pipe.Pipe.wcnt q' = count (delete f m) fw).
  { destruct (pe_files0 f x st Hx Ho) as [[-> Hops]|[-> Hops]]; rewrite Hops in Hr, Hw; cbn in Hr, Hw;
      rewrite Hr, Hw, count_gone, count_delete, ?pe_rcnt0, ?pe_wcnt0, ?(count_live m _ x Hx) by congruence; done. }
  destruct Hcr. constructor; auto.
  - intros g y st' Hg. rewrite lookup_delete_Some in Hg. destruct Hg. eauto.
  - intros y Hy. rewrite lookup_delete_Some in Hy. destruct Hy. auto.
  - intros y Hy. rewrite lookup_delete_Some in Hy. destruct Hy. auto.
Qed.
Lemma inv_delete_pipe t k f x st p q q' s :
  InvT (f :: t) k -> held k f = false -> fobjs k !! f = Some x -> obj x = PP st p -> pipes k !! p = Some q ->
  closed_counts x q q' -> InvT t (with_fobjs (with_pipe k p q' s) (delete f (fobjs k)) (nextf k)).
Proof.
  intros I Hh Hx Ho Hq Hc. apply (inv_delete_but t k f (<[p := q']> (pipes k)) s); auto.
  - intros p'. destruct (decide (p' = p)) as [->|Hn].
    + rewrite lookup_insert_eq. split; eauto.
    + by rewrite lookup_insert_ne.
  - intros p' q2. rewrite lookup_insert_Some. intros [[<- <-]|[Hn Hq2]].
    + destruct (i_ends _ _ I p q Hq) as (fr & fw & He). exists fr, fw. by eapply ends_close.
    + destruct (i_ends _ _ I p' q2 Hq2) as (fr & fw & He). exists fr, fw.
      apply ends_delete; [done| |]; intros ->; destruct He.
      * specialize (pe_rlive0 x Hx). congruence.
      * specialize (pe_wlive0 x Hx). congruence.
Qed.

Lemma inv_drop t k f : InvT (f :: t) k -> rets (file_drop k f) (fun k' => InvT t k' /\ same_owners k k' /\
  forall g, g <> f -> fobjs k' !! g = fobjs k !! g).
Proof.
  intros I. unfold file_drop. destruct (held k f) eqn:Hh.
  { cbn. split; [by eapply inv_unt|]. by split. }
  destruct (fobjs k !! f) as [x|] eqn:Hx; cycle 1.
  { cbn. split; [|by split]. destruct I. constructor; auto. intros g Hg.
    destruct (i_held0 g Hg) as [|[->|]%elem_of_cons]; auto. destruct Hg. congruence. }
  apply (rets_bind _ _ (fun k' => same_owners k k' /\ fobjs k' = fobjs k /\
    InvT t (with_fobjs k' (delete f (fobjs k')) (nextf k')))).
  2: { intros k' _ (Ho & He & Hi). cbn. split; [done|]. split; [done|]. intros g Hg. by rewrite He, lookup_delete_ne. }
  destruct (obj x) as [| st p|] eqn:Ho.
  2: { eapply rets_mono; [by apply (file_close_pipe k x st p)|]. intros k' (q & q' & s & Hq & Hc & ->).
       split; [done|]. split; [done|]. by apply (inv_delete_pipe t k f x st p q q' s). }
  all: unfold file_close; rewrite Ho; cbn; (split; [done|]); (split; [done|]); eapply inv_delete; eauto; rewrite Ho; done.
Qed.
(** ** Slots *)
Lemma aget_Done {A} (l : list A) i v : aget l i = Done v -> 0 <= i /\ l !! Z.to_nat i = Some v.
Proof. unfold aget. destruct (Z.ltb_spec i 0); [done|]. case_match; [|done]. by intros [= ->]. Qed.

(** The owners after a slot has been assigned, before the old file is released:
    the old file may have no owner left. *)
Lemma inv_assign t k pid p fd v old fs' :
  InvT t k -> procs k !! pid = Some p -> aget (files p) fd = Done old -> aset (files p) fd v = Done fs' ->
  (forall f, v = Some f -> live k f) ->
  InvT (option_list old ++ t)
    (with_procs k (<[pid := mkProc fs' (cwd p) (umem p) (parent p) (zombie p)]> (procs k))).
Proof.
  intros [] Hp [H0 Ho]%aget_Done [Hr ->]%aset_Done Hv.
  assert (Hin : forall pid' p', <[pid := mkProc (upd (files p) fd v) (cwd p) (umem p) (parent p) (zombie p)]> (procs k)
      !! pid' = Some p' -> (pid' = pid /\ files p' = upd (files p) fd v) \/ (pid' <> pid /\ procs k !! pid' = Some p')).
  { intros pid' p'. rewrite lookup_insert_Some. intros [[<- <-]|[? ?]]; auto. }
  constructor; try assumption.
  - intros pid' p' [[-> ->]|[_ Hp']]%Hin; [rewrite length_upd|]; eauto.
  - intros pid' p' f [[-> ->]|[_ Hp']]%Hin Hf; [|by eapply i_slot0].
    apply list_elem_of_lookup in Hf as [j Hj]. unfold upd in Hj. apply list_lookup_insert_Some in Hj.
    destruct Hj as [(_ & -> & _)|[_ Hj]]; [by apply Hv|]. eapply i_slot0; [done|]. by eapply list_elem_of_lookup_2.
  - intros f Hf. destruct (i_held0 f Hf) as [Hh|Ht]; [|right; set_solver].
    apply held_spec in Hh. destruct Hh as [(pid' & p' & Hp' & Hin')|Hl].
    2: { left. apply held_spec. by right. }
    destruct (decide (pid' = pid)) as [->|Hn].
    2: { left. apply held_spec. left. exists pid', p'. cbn. by rewrite lookup_insert_ne. }
    assert (p' = p) as -> by congruence. apply list_elem_of_lookup in Hin' as [j Hj].
    destruct (decide (j = Z.to_nat fd)) as [->|Hjn].
    + right. rewrite Ho in Hj. injection Hj as ->. cbn. set_solver.
    + left. apply held_spec. left. exists pid. eexists. cbn. rewrite lookup_insert_eq. split; [done|]. cbn.
      apply list_elem_of_lookup. exists j. unfold upd. by rewrite list_lookup_insert_ne.
Qed.
Lemma held_assign k pid p fd f fs' :
  aset (files p) fd (Some f) = Done fs' ->
  held (with_procs k (<[pid := mkProc fs' (cwd p) (umem p) (parent p) (zombie p)]> (procs k))) f = true.
Proof.
  intros [Hr ->]%aset_Done. apply held_spec. left. exists pid. eexists. cbn. rewrite lookup_insert_eq. split; [done|]. cbn.
  apply list_elem_of_lookup. exists (Z.to_nat fd). apply list_lookup_insert_eq. lia.
Qed.

(** What an assignment to a slot keeps: the invariant, and every file that is
    not the one released. *)
Lemma inv_slot t k pid fd v :
  InvT t k -> (forall f, v = Some f -> live k f) ->
  rets (set_slot k pid fd v) (fun k' => InvT t k' /\ locals k' = locals k /\
    (forall f, v = Some f -> held k' f = true /\ live k' f) /\
    (forall p, procs k !! pid = Some p -> aget (files p) fd = Done None -> fobjs k' = fobjs k)).
Proof.
  intros I Hv. unfold set_slot, proc_get. destruct (procs k !! pid) as [p|] eqn:Hp; [|done]. cbn [obind].
  apply rets_skip. intros old Ho. apply rets_skip. intros fs' Hs.
  pose proof (inv_assign t k pid p fd v old fs' I Hp Ho Hs Hv) as I'.
  set (k1 := with_procs k _) in *.
  assert (Hk : forall f, v = Some f -> held k1 f = true) by (intros f ->; by eapply held_assign).
  destruct old as [g|].
  - eapply rets_mono; [apply (inv_drop t); exact I'|]. intros k' (I2 & Hso & Hg). split; [done|]. split; [apply Hso|]. split.
    + intros f Hf. pose proof (Hk f Hf) as Hh. rewrite <- (held_same k1 k' f Hso) in Hh. split; [done|].
      apply held_spec in Hh as [(pid' & p' & ? & ?)|]; [by eapply (i_slot _ _ I2)|by apply (i_loc _ _ I2)].
    + intros p' [= <-] Hn. congruence.
  - cbn. split; [done|]. split; [done|]. split; [|done]. intros f Hf. split; [by apply Hk|]. by apply (Hv f).
Qed.

Lemma fd_loop_ge fuel l fd n : 0 <= fd -> fd_loop fuel l fd = Done n -> (n < 0 \/ aget l n = Done None).
Proof.
  revert fd. induction fuel as [|fuel IH]; intros fd H0; cbn; destruct (fd <? mOFiles) eqn:E; try done.
  1,3: intros [= <-]; left; by cbn.
  destruct (aget l fd) as [[x|]| | |] eqn:Ha; cbn; try done; [apply IH; lia|]. intros [= <-]. by right.
Qed.
Lemma inv_fdAlloc t k pid f afd ap :
  InvT t k -> live k f ->
  rets (fdAlloc k pid f afd ap) (fun r => InvT t (snd r) /\ locals (snd r) = locals k /\ live (snd r) f /\
    (0 <= fst r -> held (snd r) f = true) /\ (ap = false -> fobjs (snd r) = fobjs k)).
Proof.
  intros I Hf. unfold fdAlloc. apply rets_skip. intros p Hp. unfold proc_get in Hp. case_match; [|done]. injection Hp as ->.
  destruct ap; cbn [negb].
  - destruct (fdOutRange afd) eqn:Hr; [cbn; split_and!; auto; lia|].
    eapply rets_bind; [by apply (inv_slot t k pid afd (Some f)); [|intros ? [= <-]]|].
    intros k' _ (I' & Hl & Hv & _). cbn. destruct (Hv f eq_refl). split_and!; auto. done.
  - apply rets_skip. intros n Hn. destruct (Z.ltb_spec n 0); [cbn; split_and!; auto; lia|].
    eapply rets_bind; [by apply (inv_slot t k pid n (Some f)); [|intros ? [= <-]]|].
    intros k' _ (I' & Hl & Hv & Hs). cbn. destruct (Hv f eq_refl). split_and!; auto. intros _. apply (Hs p); [done|].
    apply fd_loop_ge in Hn; [|case_match; lia]. destruct Hn; [lia|done].
Qed.
(** ** Processes whose table stays the same *)
Lemma held_sub k k' f :
  (forall pid p, procs k !! pid = Some p -> exists p', procs k' !! pid = Some p' /\ files p' = files p) ->
  locals k' = locals k -> held k f = true -> held k' f = true.
Proof.
  intros Hs Hl. rewrite !held_spec, Hl. intros [(pid & p & Hp & Hf)|]; [left|by right].
  destruct (Hs pid p Hp) as (p' & ? & E). exists pid, p'. by rewrite E.
Qed.
Lemma inv_procs t k pid p p' :
  InvT t k -> procs k !! pid = Some p -> files p' = files p -> InvT t (with_procs k (<[pid := p']> (procs k))).
Proof.
  intros [] Hp Hf. constructor; try assumption.
  - intros pid' q. cbn. rewrite lookup_insert_Some. intros [[<- <-]|[? ?]]; [rewrite Hf|]; eauto.
  - intros pid' q f. cbn. rewrite lookup_insert_Some. intros [[<- <-]|[? ?]] Hin; [rewrite Hf in Hin|]; by eapply i_slot0.
  - intros f Hl. destruct (i_held0 f Hl) as [Hh|]; [left|by right]. apply (held_sub k); [|done|done].
    intros pid' q Hq. cbn. destruct (decide (pid' = pid)) as [->|Hn].
    + rewrite lookup_insert_eq. exists p'. split; [done|congruence].
    + rewrite lookup_insert_ne by done. eauto.
Qed.
Lemma proc_get_Done k pid p : proc_get k pid = Done p -> procs k !! pid = Some p.
Proof. unfold proc_get. case_match; [|done]. by intros [= ->]. Qed.
Lemma file_get_Done k f x : file_get k f = Done x -> fobjs k !! f = Some x.
Proof. unfold file_get. case_match; [|done]. by intros [= ->]. Qed.
Lemma pipe_get_Done k p x : pipe_get k p = Done x -> pipes k !! p = Some x.
Proof. unfold pipe_get. case_match; [|done]. by intros [= ->]. Qed.
Lemma fd_file_live t k pid fd f : InvT t k -> fd_file k pid fd = Done (Some f) -> live k f.
Proof.
  intros I. unfold fd_file. intros Hf. odestr Hf. apply proc_get_Done in E. unfold ofile in Hf.
  destruct (fdOutRange _); [done|]. apply aget_Done in Hf as [_ Hf]. eapply (i_slot _ _ I); [done|].
  by eapply list_elem_of_lookup_2.
Qed.

(** What a call leaves behind: the invariant, and the files that were alive. *)
Definition kept t k k' : Prop := InvT t k' /\ locals k' = locals k /\ (forall f, live k f -> live k' f) /\
  (forall f, held k f = true -> held k' f = true).
Lemma kept_refl t k : InvT t k -> kept t k k.
Proof. intros I. split; [done|]. by split. Qed.
Lemma kept_trans t k1 k2 k3 : kept t k1 k2 -> kept t k2 k3 -> kept t k1 k3.
Proof. intros (? & ? & ? & ?) (? & ? & ? & ?). split; [done|]. split; [congruence|]. split; auto. Qed.
Lemma kept_inv t k k' : kept t k k' -> InvT t k'.
Proof. by intros []. Qed.
Lemma kept_world t k w : InvT t k -> kept t k (with_world k w).
Proof. intros I. split; [by apply inv_world|]. by split. Qed.
Lemma kept_user t k pid addr bytes : InvT t k -> rets (to_user k pid addr bytes) (kept t k).
Proof.
  intros I. unfold to_user. apply rets_skip. intros p Hp. apply rets_skip. intros u _. unfold set_umem. rewrite Hp. cbn.
  apply proc_get_Done in Hp. split; [by eapply inv_procs|]. split; [done|]. split; [done|]. intros f. apply (held_sub k); [|done].
  intros pid' q Hq. cbn. destruct (decide (pid' = pid)) as [->|Hn].
  - rewrite lookup_insert_eq. eexists. split; [done|]. cbn. congruence.
  - rewrite lookup_insert_ne by done. eauto.
Qed.
Lemma kept_file t k f x y :
  InvT t k -> fobjs k !! f = Some x -> ops y = ops x ->
  (obj y = obj x \/ ((forall st p, obj x <> PP st p) /\ (forall st p, obj y <> PP st p))) ->
  kept t k (with_fobjs k (<[f := y]> (fobjs k)) (nextf k)).
Proof.
  intros I Hx Ho Hd. split; [by eapply inv_file|]. split; [done|]. split; [|done]. intros g Hg. unfold live. cbn.
  destruct (decide (g = f)) as [->|Hn]; [by rewrite lookup_insert_eq|by rewrite lookup_insert_ne].
Qed.
Lemma kept_flags t k f x fl : InvT t k -> fobjs k !! f = Some x -> kept t k (set_flags k f x fl).
Proof. intros I Hx. eapply kept_file; eauto. Qed.
Lemma kept_obj t k f x a b c a' b' c' :
  InvT t k -> fobjs k !! f = Some x -> obj x = EP a b c -> kept t k (set_obj k f x (EP a' b' c')).
Proof. intros I Hx Ho. eapply kept_file; eauto. right. split; intros; cbn; congruence. Qed.
Lemma kept_pipe t k p q q' s :
  InvT t k -> pipes k !! p = Some q -> Pipe.Pipe.rcnt q' = Pipe.Pipe.rcnt q ->
  Pipe.Pipe.wcnt q' = Pipe.Pipe.wcnt q -> kept t k (with_pipe k p q' s).
Proof. intros. split; [by eapply inv_pipe|]. by split. Qed.

(** ** Reading and writing keep the ends of a pipe *)
Lemma tryWakeup_counts q s q' s' :
  Pipe.Pipe.tryWakeup q s = Done (q', s') ->
  Pipe.Pipe.rcnt q' = Pipe.Pipe.rcnt q /\ Pipe.Pipe.wcnt q' = Pipe.Pipe.wcnt q.
Proof. unfold Pipe.Pipe.tryWakeup. intros H. odestr H. destruct a. odestr H. destruct a. by injection H as <- <-. Qed.
Lemma write_from_counts fuel q s bytes off r q' s' :
  Pipe.Pipe.write_from fuel q s bytes off = Done (r, q', s') ->
  Pipe.Pipe.rcnt q' = Pipe.Pipe.rcnt q /\ Pipe.Pipe.wcnt q' = Pipe.Pipe.wcnt q.
Proof.
  revert q off. induction fuel as [|fuel IH]; intros q off; cbn; (case_match; [|intros H'; odestr H'; destruct a;
    injection H' as <- <- <-; by eapply tryWakeup_counts]); [done|].
  case_match; [case_match|].
  - intros H'. odestr H'. destruct a. injection H' as <- <- <-. by eapply tryWakeup_counts.
  - intros H'. odestr H'. destruct a. odestr H'. destruct a. by injection H' as <- <- <-.
  - intros H'. odestr H'. odestr H'. by apply IH in H'.
Qed.
Lemma read_from_counts fuel q s out off r out' q' s' :
  Pipe.Pipe.read_from fuel q s out off = Done (r, out', q', s') ->
  Pipe.Pipe.rcnt q' = Pipe.Pipe.rcnt q /\ Pipe.Pipe.wcnt q' = Pipe.Pipe.wcnt q.
Proof.
  revert q off out. induction fuel as [|fuel IH]; intros q off out; cbn; (case_match; [|intros H'; odestr H'; destruct a;
    injection H' as <- <- <- <-; by eapply tryWakeup_counts]); [done|].
  case_match; [case_match|].
  - intros H'. odestr H'. destruct a. injection H' as <- <- <- <-. by eapply tryWakeup_counts.
  - intros H'. odestr H'. destruct a. odestr H'. destruct a. by injection H' as <- <- <- <-.
  - intros H'. odestr H'. odestr H'. by apply IH in H'.
Qed.
Lemma kept_write t k f bytes off : InvT t k -> rets (File.write k f bytes off) (fun r => kept t k (snd r)).
Proof.
  intros I. unfold File.write. apply rets_skip. intros x Hx%file_get_Done.
  destruct (op_w (ops x)); cbn [negb]; [|by apply kept_refl].
  destruct (obj x) as [ty st|st p|st de o] eqn:Ho.
  - destruct (is_stdout ty); [|by apply kept_refl]. unfold print. destruct (2000 <=? _); [done|]. cbn.
    split; [by apply inv_console|by split].
  - apply rets_skip. intros q Hq%pipe_get_Done. apply rets_skip. intros [[r q'] s] [? ?]%write_from_counts.
    destruct r; cbn; by eapply kept_pipe.
  - apply rets_skip. intros d _. apply rets_skip. intros [n s] _. pose proof (kept_world t k (with_nods (world k) s) I) as Hk.
    destruct (u64 n =? zlen bytes); cbn; [|done]. eapply kept_trans; [done|]. eapply kept_obj; [by apply inv_world|done|done].
Qed.
Lemma kept_read t k f buf a u off : InvT t k -> rets (File.read k f buf a u off) (fun r => kept t k (snd r)).
Proof.
  intros I. unfold File.read. apply rets_skip. intros x Hx%file_get_Done.
  destruct (op_r (ops x)); cbn [negb]; [|by apply kept_refl].
  destruct (obj x) as [ty st|st p|st de o] eqn:Ho; [done| |].
  - apply rets_skip. intros q Hq%pipe_get_Done. apply rets_skip. intros [[[r out] q'] s] [? ?]%read_from_counts.
    cbn; by eapply kept_pipe.
  - apply rets_skip. intros d _. apply rets_skip. intros [[n buf'] s] _. pose proof (kept_world t k (with_nods (world k) s) I) as Hk.
    destruct (0 <? n); cbn; [|done]. destruct u; [|done]. eapply kept_trans; [done|].
    eapply kept_obj; [by apply inv_world|done|done].
Qed.
Lemma kept_lSeek t k f off wh : InvT t k -> rets (File.lSeek k f off wh) (fun r => kept t k (snd r)).
Proof.
  intros I. unfold File.lSeek. apply rets_skip. intros x Hx%file_get_Done. case_match; [by apply kept_refl|].
  apply rets_skip. intros de _. apply rets_skip. intros kst _. destruct (obj x) as [| |st e o] eqn:Ho; [done..|].
  repeat case_match; cbn; (by apply kept_refl) || by eapply kept_obj.
Qed.
End Inv.
End FdInv.
