(* ===== verification/FdCalls.v ===== *)
(** * FdCalls: every file system call keeps the descriptor invariant

    The system calls as one command type, the step relation of the file layer
    and its invariant by rule induction; which descriptor fdAlloc chooses. *)

From S2P Require Import Prelude Klib Buddy Sched Pipe Bytes Path Vfs File FileSys FdInv.
Local Open Scope Z_scope.

Module FdCalls.
Import Path Vfs File FileSys FdInv.

(** Split on the test that a computation begins with. *)
Ltac rif := match goal with |- rets (if ?b then _ else _) _ => destruct b eqn:? end.

Section Calls.
Context {S U : Type} `{!INodeOps S} `{!UserMem U}.
Notation KSt := (K S U).
Implicit Types (k : KSt) (t : list Z).

(** ** Opening *)
Lemma inv_File_entry t k de fl :
  InvT t k -> rets (File_entry k de fl) (fun r => InvT (fst r :: t) (snd r) /\ locals (snd r) = locals k /\
    exists x a b c, fobjs (snd r) !! fst r = Some x /\ obj x = EP a b c).
Proof.
  intros I. unfold File_entry. apply rets_skip. intros st _. cbn -[file_new].
  split; [by apply inv_new|]. split; [done|]. do 4 eexists. cbn. by rewrite lookup_insert_eq.
Qed.
Lemma inv_pathOpen t k pid po fl mode : InvT t k -> rets (pathOpen k pid po fl mode) (fun r => InvT t (snd r)).
Proof.
  intros I. unfold pathOpen. apply rets_skip. intros pr _. apply rets_skip. intros [[r p] w] _.
  apply rets_skip. intros [r' w'] _. destruct r' as [e|]; [|by apply inv_world].
  apply rets_skip. intros x _. rif; [by apply inv_world|]. rif; [by apply inv_world|].
  eapply rets_bind; [apply (inv_File_entry t), inv_world, I|]. intros [f k1] _ (I1 & _ & y & a & b & c & Hy & Ho).
  cbn [fst snd] in *. unfold file_get. rewrite Hy. cbn [obind]. rewrite Ho. cbn [d_kst].
  destruct (kept_obj _ _ _ _ _ _ _ a e (if has fl O_APPEND then rFileSize (nods w') (de_nod x) else 0) I1 Hy Ho)
    as (I2 & _ & Hl2 & _).
  assert (Hlf : live (set_obj k1 f y (EP a e (if has fl O_APPEND then rFileSize (nods w') (de_nod x) else 0))) f)
    by (apply Hl2; by exists y).
  eapply rets_bind; [by apply (inv_fdAlloc (f :: t))|]. intros [fd k3] _ (I3 & _ & Hl3 & Hh3 & _). cbn [fst snd] in *.
  destruct (Z.ltb_spec fd 0).
  { eapply rets_bind; [by apply inv_drop|]. by intros k4 _ [I4 _]. }
  pose proof (inv_unt _ _ _ I3 (Hh3 ltac:(lia))) as I4. rif; [|done].
  apply rets_skip. intros s _. by apply inv_world.
Qed.

(** ** sendFile *)
Lemma kept_pages t k a : InvT t k -> kept t k (with_pages k a).
Proof. intros I. split; [by apply inv_pages|]. by split. Qed.
Lemma kept_send_loop t fuel k i o len n pt :
  InvT t k -> rets (send_loop fuel k i o len n pt) (fun r => kept t k (snd r)).
Proof.
  revert k len n pt. induction fuel as [|fuel IH]; intros k len n pt I; [done|]. cbn [send_loop].
  destruct pt as [|pg buf off|pg buf off].
  - rif; [by apply kept_refl|]. apply rets_skip. intros [pg a] _.
    eapply rets_mono; [by apply IH, inv_pages|]. intros r Hr. apply (kept_trans _ _ (with_pages k a)); [by apply kept_pages|done].
  - eapply rets_bind; [by apply (kept_read t)|]. intros [[r buf'] k1] _ Hk. cbn [snd] in Hk.
    destruct r as [n1|off']; [|done]. rif; [done|]. rif.
    + apply rets_skip. intros x _. rif; [done|]. apply rets_skip. intros a _. cbn.
      eapply kept_trans; [done|]. apply kept_pages. by eapply kept_inv.
    + eapply rets_mono; [apply IH; by eapply kept_inv|]. intros r Hr. by eapply kept_trans.
  - eapply rets_bind; [by apply (kept_write t)|]. intros [r k1] _ Hk. cbn [snd] in Hk.
    destruct r as [n1|off']; [|done]. apply rets_skip. intros a _.
    assert (Hk2 : kept t k (with_pages k1 a)) by (eapply kept_trans; [done|]; apply kept_pages; by eapply kept_inv).
    rif; [done|]. rif; [done|].
    eapply rets_mono; [apply IH; by eapply kept_inv|]. intros r Hr. by eapply kept_trans.
Qed.
Lemma kept_send_from t k i o offp in_off len n pt :
  InvT t k -> rets (send_from k i o offp in_off len n pt) (fun r => kept t k (snd r)).
Proof.
  intros I. unfold send_from. eapply rets_bind; [by apply (kept_send_loop t)|]. intros [r k1] _ Hk. cbn [snd] in Hk.
  destruct r as [m|]; [|done]. destruct offp; [|done]. rif; [done|].
  eapply rets_bind; [apply (kept_lSeek t); by eapply kept_inv|]. intros [c k2] _ H2. cbn [snd] in H2.
  eapply rets_bind; [apply (kept_lSeek t); by eapply kept_inv|]. intros [c' k3] _ H3. cbn [snd rets] in *.
  eapply kept_trans; [done|]. by eapply kept_trans.
Qed.
Lemma kept_sendFile t k i o offp len :
  InvT t k -> rets (File.sendFile k i o offp len) (fun r => kept t k (snd r)).
Proof.
  intros I. unfold File.sendFile. destruct offp as [off|]; [|by apply kept_send_from].
  eapply rets_bind; [by apply (kept_lSeek t)|]. intros [c k1] _ H1. cbn [snd] in H1. rif; [done|].
  eapply rets_bind; [apply (kept_lSeek t); by eapply kept_inv|]. intros [c' k2] _ H2. cbn [snd] in H2.
  eapply rets_mono; [apply kept_send_from; by eapply kept_inv|]. intros r Hr.
  eapply kept_trans; [done|]. by eapply kept_trans.
Qed.

(** ** The handlers *)
Notation keeps m := (rets m (fun r => InvT [] (snd r))).
Notation Inv := (InvT []).

Lemma keeps_at_path k pid b a mx go :
  Inv k -> (forall po, keeps (go po)) -> keeps (at_path k pid b a mx go).
Proof.
  intros I Hg. unfold at_path. apply rets_skip. intros s _. apply rets_skip. intros [f|] _; [|done].
  apply rets_skip. intros po _. apply Hg.
Qed.
Lemma keeps_with_file k pid fd go :
  Inv k -> (forall f, live k f -> keeps (go f)) -> keeps (with_file k pid fd go).
Proof.
  intros I Hg. unfold with_file. apply rets_skip. intros [f|] Hf; [|done]. apply Hg. by eapply fd_file_live.
Qed.
Lemma keeps_on_world k r : Inv k -> keeps (on_world k r).
Proof. intros I. unfold on_world. apply rets_skip. intros [v w] _. by apply inv_world. Qed.
Lemma keeps_user k pid a bytes (v : sysrt) : Inv k -> keeps (let* k' := to_user k pid a bytes in Done (v, k')).
Proof. intros I. eapply rets_bind; [by apply kept_user|]. intros k' _ H. by eapply kept_inv. Qed.
Lemma keeps_on_inode k f go : Inv k -> rets (on_inode k f go) (fun r => Inv (snd r)).
Proof.
  intros I. unfold on_inode. apply rets_skip. intros x _. apply rets_skip. intros e _. apply rets_skip. intros d _.
  apply rets_skip. intros [v s] _. by apply inv_world.
Qed.
Lemma keeps_slot_none k pid fd (v : sysrt) : Inv k -> keeps (let* k' := set_slot k pid fd None in Done (v, k')).
Proof. intros I. eapply rets_bind; [by apply inv_slot|]. by intros k' _ [I' _]. Qed.
Lemma keeps_open_do k pid po fl go : Inv k -> keeps (open_do k pid po fl go).
Proof.
  intros I. unfold open_do. eapply rets_bind; [by apply (inv_pathOpen [])|]. intros [fd k1] _ I1. cbn [snd] in I1.
  rif; [done|]. apply rets_skip. intros [f|] _; [|done].
  eapply rets_bind; [by apply keeps_on_inode|]. intros [v k2] _ I2. by apply keeps_slot_none.
Qed.
Lemma keeps_reflag k pid n fl : Inv k -> rets (reflag k pid n fl) Inv.
Proof.
  intros I. unfold reflag. apply rets_skip. intros [g|] _; [|done]. apply rets_skip. intros x Hx%file_get_Done.
  by eapply inv_flags.
Qed.
Lemma inv_set_cwd t k pid e :
  InvT t k -> rets (set_cwd k pid e) (fun k' => InvT t k' /\ fobjs k' = fobjs k /\ nextf k' = nextf k).
Proof.
  intros I. unfold set_cwd. apply rets_skip. intros p Hp%proc_get_Done. cbn. split; [by eapply inv_procs|done].
Qed.

(** The commands of the file layer, with what the environment supplies: the
    contents of fresh memory, a new pid. *)
Inductive call : Type :=
| CGetCwd (buf len : Z) | CChDir (path : Z) | CFChDir (fd : Z)
| CDup (fd : Z) | CDup3 (fd newfd fl : Z) | CFCntl (fd cmd arg : Z) | CClose (fd : Z)
| CPipe2 (fresh : list Z) (junk fd : Z)
| CMkDirAt (b path mode : Z) | CUnlinkAt (b path fl : Z) | CSymLinkAt (target b link : Z)
| CLinkAt (b1 p1 b2 p2 fl : Z) | CStatFS (path buf : Z)
| COpenAt (b path fl mode : Z) | CFAccessAt (b path mode fl : Z)
| CFChMod (fd mode : Z) | CFChModAt (b path mode fl : Z) | CFChOwnAt (b path uid gid fl : Z) | CFChOwn (fd uid gid : Z)
| CReadLinkAt (b path buf siz : Z) | CFStatAt (b path kst fl : Z) | CFStat (fd kst : Z)
| CIoCtl (fd req arg : Z) | CGetDents64 (fd buf len : Z) | CLSeek (fd off whence : Z) | CSync.
Definition exec k (pid : Z) (c : call) : outcome (sysrt * KSt) :=
  match c with
  | CGetCwd b l => getCwd k pid b l | CChDir p => chDir k pid p | CFChDir fd => fChDir k pid fd
  | CDup fd => dup k pid fd | CDup3 fd n fl => dup3 k pid fd n fl | CFCntl fd c a => fCntl k pid fd c a
  | CClose fd => close k pid fd | CPipe2 fr j fd => pipe2 fr j k pid fd
  | CMkDirAt b p m => mkDirAt k pid b p m | CUnlinkAt b p fl => unlinkAt k pid b p fl
  | CSymLinkAt t b l => symLinkAt k pid t b l | CLinkAt b1 p1 b2 p2 fl => linkAt k pid b1 p1 b2 p2 fl
  | CStatFS p b => statFS k pid p b | COpenAt b p fl m => openAt k pid b p fl m
  | CFAccessAt b p m fl => fAccessAt k pid b p m fl | CFChMod fd m => fChMod k pid fd m
  | CFChModAt b p m fl => fChModAt k pid b p m fl | CFChOwnAt b p u g fl => fChOwnAt k pid b p u g fl
  | CFChOwn fd u g => fChOwn k pid fd u g | CReadLinkAt b p bf s => readLinkAt k pid b p bf s
  | CFStatAt b p s fl => fStatAt k pid b p s fl | CFStat fd s => fStat k pid fd s
  | CIoCtl fd r a => ioCtl k pid fd r a | CGetDents64 fd b l => getDents64 k pid fd b l
  | CLSeek fd o w => lSeek k pid fd o w | CSync => sync k
  end.

Lemma pipe2_eq fresh junk k pid fd :
  pipe2 fresh junk k pid fd =
  (let* (n1, k1) := fdAlloc (new_pipe fresh junk k) pid (nextf k) 0 false in
   let* (n2, k1) := fdAlloc k1 pid (nextf k + 1) 0 false in
   let* k1 := to_user k1 pid (u64 fd) (le32 (u32 n1) ++ le32 (u32 n2)) in
   let* k1 := file_drop k1 (nextf k + 1) in
   let* k1 := file_drop k1 (nextf k) in
   Done (rt ok, k1)).
Proof.
  unfold pipe2, File_pipe, pipe_get. cbn [pipes]. rewrite lookup_insert_eq.
  cbn -[fdAlloc to_user file_drop le32 u32 u64]. rewrite lookup_insert_eq.
  cbn -[fdAlloc to_user file_drop le32 u32 u64]. unfold with_fobjs, with_pipe. cbn -[fdAlloc to_user file_drop le32 u32 u64].
  by rewrite !insert_insert_eq.
Qed.
Lemma keeps_pipe2 fresh junk k pid fd : Inv k -> keeps (pipe2 fresh junk k pid fd).
Proof.
  intros I. rewrite pipe2_eq. pose proof (inv_new_pipe [] fresh junk k I) as I0.
  assert (live (new_pipe fresh junk k) (nextf k) /\ live (new_pipe fresh junk k) (nextf k + 1)) as [Hr Hw]
    by (rewrite !live_pipe; auto).
  eapply rets_bind; [by apply (inv_fdAlloc [nextf k; nextf k + 1])|]. intros [n1 k1] _ (I1 & _ & _ & _ & Hf1). cbn [fst snd] in *.
  assert (Hw1 : live k1 (nextf k + 1)) by (unfold live; by rewrite Hf1).
  eapply rets_bind; [by apply (inv_fdAlloc [nextf k; nextf k + 1])|]. intros [n2 k2] _ (I2 & _). cbn [fst snd] in *.
  eapply rets_bind; [by apply (kept_user [nextf k; nextf k + 1])|]. intros k3 _ I3%kept_inv.
  eapply rets_bind; [apply (inv_drop [nextf k]); eapply inv_mono; [done|set_solver]|]. intros k4 _ [I4 _].
  eapply rets_bind; [by apply inv_drop|]. by intros k5 _ [I5 _].
Qed.
Lemma keeps_chDir k pid path : Inv k -> keeps (chDir k pid path).
Proof.
  intros I. unfold chDir. rif; [done|]. apply rets_skip. intros s _. apply rets_skip. intros po _.
  apply rets_skip. intros p _. apply rets_skip. intros [[[e|] po'] w] _; [|by apply inv_world].
  apply rets_skip. intros x _. rif; [by apply inv_world|].
  eapply rets_bind; [by apply (inv_set_cwd []), inv_world|]. intros k1 _ (I1 & _).
  eapply rets_bind; [by apply inv_File_entry|]. intros [f k2] _ (I2 & _ & y & a & b & c & Hy & _). cbn [fst snd] in *.
  eapply rets_bind; [apply (inv_slot [f] k2 pid FdCwd (Some f)); [done|intros ? [= <-]; by exists y]|].
  intros k3 _ (I3 & _ & H3 & _). cbn. destruct (H3 f eq_refl). by eapply inv_unt.
Qed.
Lemma keeps_fChDir k pid fd : Inv k -> keeps (fChDir k pid fd).
Proof.
  intros I. apply keeps_with_file; [done|]. intros f Hf. apply rets_skip. intros x _. apply rets_skip. intros e _.
  apply rets_skip. intros d _. rif; [done|].
  eapply rets_bind; [by apply (inv_set_cwd [])|]. intros k1 _ (I1 & Hf1 & _).
  eapply rets_bind; [apply (inv_slot [] k1 pid FdCwd (Some f)); [done|intros ? [= <-]; unfold live; by rewrite Hf1]|].
  by intros k2 _ (I2 & _).
Qed.
(** fdAlloc of a live file, and what the callers do next. *)
Lemma keeps_alloc k pid f afd ap (go : Z -> KSt -> outcome (sysrt * KSt)) :
  Inv k -> live k f -> (forall n k', Inv k' -> keeps (go n k')) ->
  keeps (let* (n, k') := fdAlloc k pid f afd ap in go n k').
Proof. intros I Hf Hg. eapply rets_bind; [by apply (inv_fdAlloc [])|]. intros [n k'] _ (I' & _). by apply Hg. Qed.
Lemma keeps_alloc_reflag k pid f afd ap fl :
  Inv k -> live k f ->
  keeps (let* (n, k') := fdAlloc k pid f afd ap in
         let* k' := (if 0 <=? n then reflag k' pid n fl else Done k') in Done (rt n, k')).
Proof.
  intros I Hf. apply keeps_alloc; [done..|]. intros n k' I'. eapply rets_bind; [|by intros ? _ Hi].
  rif; [by apply keeps_reflag|done].
Qed.
Lemma keeps_fCntl k pid fd cmd arg : Inv k -> keeps (fCntl k pid fd cmd arg).
Proof.
  intros I. apply keeps_with_file; [done|]. intros f Hf. apply rets_skip. intros x Hx%file_get_Done.
  repeat rif; try done; try (by apply keeps_alloc); try (by eapply inv_flags). by apply keeps_alloc_reflag.
Qed.
Lemma keeps_getDents64 k pid fd buf len : Inv k -> keeps (getDents64 k pid fd buf len).
Proof.
  intros I. unfold getDents64. rif; [done|]. apply keeps_with_file; [done|]. intros f Hf.
  apply rets_skip. intros x Hx%file_get_Done. destruct (obj x) as [| |st e o] eqn:Ho; [done..|].
  apply rets_skip. intros d _. apply rets_skip. intros [[[n bytes] o'] s] _.
  assert (I1 : Inv (set_obj (with_world k (with_nods (world k) s)) f x (EP st e o')))
    by (eapply inv_obj; [by apply inv_world|done|done]).
  eapply rets_bind; [|by intros ? _ Hi]. rif; [|done].
  eapply rets_mono; [by apply kept_user|]. intros ? Hk. by eapply kept_inv.
Qed.
Lemma keeps_readLinkAt k pid b path buf siz : Inv k -> keeps (readLinkAt k pid b path buf siz).
Proof.
  intros I. unfold readLinkAt. apply rets_skip. intros bf _. apply rets_skip. intros s _. apply rets_skip. intros po _.
  eapply rets_bind; [by apply (inv_pathOpen [])|]. intros [fd k1] _ I1. cbn [snd] in I1. rif; [done|].
  apply rets_skip. intros [f|] _; [|done]. apply rets_skip. intros x _. apply rets_skip. intros e _.
  apply rets_skip. intros d _. apply rets_skip. intros [[v bytes] s'] _.
  eapply rets_bind; [by apply (inv_slot [] _ pid fd None); [apply inv_world|]|]. intros k2 _ (I2 & _). by apply keeps_user.
Qed.

Lemma keeps_getCwd k pid buf len : Inv k -> keeps (getCwd k pid buf len).
Proof.
  intros I. unfold getCwd. rif; [done|]. do 3 (apply rets_skip; intros ? _). rif; [done|]. by apply keeps_user.
Qed.
Lemma keeps_linkAt k pid b1 p1 b2 p2 fl : Inv k -> keeps (linkAt k pid b1 p1 b2 p2 fl).
Proof.
  intros I. unfold linkAt. rif; [done|]. do 2 (apply rets_skip; intros ? _). apply rets_skip; intros [f1|] _;
    apply rets_skip; intros [f2|] _; try done. do 3 (apply rets_skip; intros ? _). by apply keeps_on_world.
Qed.
Lemma keeps_statFS k pid path buf : Inv k -> keeps (statFS k pid path buf).
Proof.
  intros I. unfold statFS. do 3 (apply rets_skip; intros ? _). apply rets_skip. intros [[[e|] po] w] _; [|by apply inv_world].
  apply rets_skip. intros x _. destruct (fss w !! _); [|done]. by apply keeps_user, inv_world.
Qed.
Lemma keeps_fAccessAt k pid b path mode fl : Inv k -> keeps (fAccessAt k pid b path mode fl).
Proof.
  intros I. unfold fAccessAt. rif; [done|]. match goal with |- rets (match ?w with _ => _ end) _ => destruct w as [want|] end; [|done].
  apply keeps_at_path; [done|]. intros po. eapply rets_bind; [by apply (inv_pathOpen [])|]. intros [fd k1] _ I1.
  rif; [done|]. by apply keeps_slot_none.
Qed.
Lemma keeps_fStatAt k pid b path kst fl : Inv k -> keeps (fStatAt k pid b path kst fl).
Proof.
  intros I. unfold fStatAt. rif; [done|]. apply keeps_at_path; [done|]. intros po. apply rets_skip. intros p _.
  apply rets_skip. intros [[[e|] po'] w] _; [|by apply inv_world]. apply rets_skip. intros st _.
  by apply keeps_user, inv_world.
Qed.
Lemma keeps_ioCtl k pid fd req arg : Inv k -> keeps (ioCtl k pid fd req arg).
Proof.
  intros I. unfold ioCtl. apply rets_skip. intros [f|] _; [|done]. apply rets_skip. intros x _. rif; [done|].
  eapply rets_bind; [by apply keeps_on_inode|]. by intros [v k1] _ I1.
Qed.
Lemma keeps_inode_call k pid fd go :
  Inv k -> keeps (with_file k pid fd (fun f => let* (v, k) := on_inode k f go in Done (rt v, k))).
Proof.
  intros I. apply keeps_with_file; [done|]. intros f _. eapply rets_bind; [by apply keeps_on_inode|]. by intros [v k1] _ I1.
Qed.
Lemma keeps_mkDirAt k pid b path mode : Inv k -> keeps (mkDirAt k pid b path mode).
Proof.
  intros I. unfold mkDirAt. rif; [done|]. apply keeps_at_path; [done|]. intros po. apply rets_skip. intros p _.
  apply rets_skip. intros [[r po'] w] _. by apply inv_world.
Qed.
Lemma keeps_world_at k pid b path mx go :
  Inv k -> keeps (at_path k pid b path mx (fun po => let* p := proc_get k pid in on_world k (go p po))).
Proof. intros I. apply keeps_at_path; [done|]. intros po. apply rets_skip. intros p _. by apply keeps_on_world. Qed.
Lemma keeps_dup3 k pid fd newfd fl : Inv k -> keeps (dup3 k pid fd newfd fl).
Proof.
  intros I. unfold dup3. rif; [done|]. apply keeps_with_file; [done|]. intros f Hf. by apply keeps_alloc_reflag.
Qed.
Lemma keeps_close k pid fd : Inv k -> keeps (close k pid fd).
Proof. intros I. unfold close. apply rets_skip. intros [f|] _; [|done]. by apply keeps_slot_none. Qed.
Lemma keeps_openAt k pid b path fl mode : Inv k -> keeps (openAt k pid b path fl mode).
Proof.
  intros I. unfold openAt. rif; [done|]. apply keeps_at_path; [done|]. intros po.
  eapply rets_bind; [by apply (inv_pathOpen [])|]. by intros [fd k1] _ I1.
Qed.
Lemma keeps_lSeek k pid fd off wh : Inv k -> keeps (lSeek k pid fd off wh).
Proof.
  intros I. apply keeps_with_file; [done|]. intros f _. eapply rets_bind; [by apply (kept_lSeek [])|].
  intros [n k1] _ Hk. by eapply kept_inv.
Qed.

(** Each handler keeps the invariant. *)
Lemma exec_keeps k pid c : Inv k -> keeps (exec k pid c).
Proof.
  intros I. destruct c; cbn [exec];
    eauto using keeps_pipe2, keeps_chDir, keeps_fChDir, keeps_fCntl, keeps_getDents64, keeps_readLinkAt, keeps_getCwd,
      keeps_linkAt, keeps_statFS, keeps_fAccessAt, keeps_fStatAt, keeps_ioCtl, keeps_inode_call, keeps_mkDirAt,
      keeps_dup3, keeps_close, keeps_openAt, keeps_lSeek.
  - apply keeps_with_file; [done|]. intros f Hf. by apply keeps_alloc.
  - unfold unlinkAt. rif; [done|]. by apply keeps_world_at.
  - unfold symLinkAt. apply rets_skip. intros s _. by apply keeps_world_at.
  - apply keeps_at_path; [done|]. intros po. by apply keeps_open_do.
  - apply keeps_at_path; [done|]. intros po. by apply keeps_open_do.
  - unfold fStat. rif; [done|]. apply keeps_with_file; [done|]. intros f _. apply rets_skip. intros x _. by apply keeps_user.
Qed.
(** ** Calls that can block *)
Lemma inv_local t k f : InvT t k -> live k f -> InvT t (with_locals k (f :: locals k)).
Proof.
  intros [] Hf. constructor; try assumption.
  - intros g [->|Hg]%elem_of_cons; [done|]. by apply i_loc0.
  - intros g Hg. destruct (i_held0 g Hg) as [Hh|]; [left|by right]. revert Hh. rewrite !held_spec. cbn. set_solver.
Qed.
Lemma remove_one_sub f g l : g ∈ remove_one f l -> g ∈ l.
Proof. induction l as [|x l IH]; cbn; [done|]. destruct (f =? x); set_solver. Qed.
Lemma remove_one_ne f g l : g ∈ l -> g <> f -> g ∈ remove_one f l.
Proof. induction l as [|x l IH]; cbn; [done|]. destruct (Z.eqb_spec f x); set_solver. Qed.
Lemma inv_unlocal t k f : InvT t k -> rets (unlocal k f) (InvT t).
Proof.
  intros I. unfold unlocal. eapply rets_mono; [apply (inv_drop t)|by intros ? []]. destruct I. constructor; try assumption.
  - intros g Hg%remove_one_sub. by apply i_loc0.
  - intros g Hg. destruct (decide (g = f)) as [->|Hn]; [right; by left|].
    destruct (i_held0 g Hg) as [Hh|]; [left|right; by right]. revert Hh. rewrite !held_spec. cbn.
    intros [|Hl]; [by left|right; by apply remove_one_ne].
Qed.
Lemma keeps_read_end k pid f uva r buf : Inv k -> live k f -> rets (read_end k pid f uva r buf) (fun r => Inv (snd r)).
Proof.
  intros I Hf. destruct r; cbn; [rif; [done|]|by apply inv_local].
  eapply rets_bind; [by apply kept_user|]. intros k1 _ H1. by eapply kept_inv.
Qed.
Lemma keeps_write_end k f r bytes : Inv k -> live k f -> rets (write_end k f r bytes) (fun r => Inv (snd r)).
Proof. intros I Hf. destruct r; cbn; [done|by apply inv_local]. Qed.
Lemma keeps_read k pid fd uva len : Inv k -> rets (read k pid fd uva len) (fun r => Inv (snd r)).
Proof.
  intros I. unfold read. apply rets_skip. intros [f|] Hf; [|done]. pose proof (fd_file_live _ _ _ _ _ I Hf).
  eapply rets_bind; [by apply (kept_read [])|]. intros [[r buf] k1] _ (I1 & _ & Hl & _). by apply keeps_read_end; [|apply Hl].
Qed.
Lemma keeps_read_resume k pid f buf off uva :
  Inv k -> f ∈ locals k -> rets (read_resume k pid f buf off uva) (fun r => Inv (snd r)).
Proof.
  intros I Hf%(i_loc _ _ I). unfold read_resume.
  eapply rets_bind; [by apply (kept_read [])|]. intros [[r buf'] k1] _ (I1 & _ & Hl & _).
  eapply rets_bind; [by apply keeps_read_end; [|apply Hl]|]. intros [x k2] _ I2.
  eapply rets_bind; [by apply inv_unlocal|]. by intros k3 _ I3.
Qed.
Lemma keeps_write k pid fd src len : Inv k -> rets (write k pid fd src len) (fun r => Inv (snd r)).
Proof.
  intros I. unfold write. rif; [done|]. apply rets_skip. intros [f|] Hf; [|done].
  pose proof (fd_file_live _ _ _ _ _ I Hf). apply rets_skip. intros p _. apply rets_skip. intros bytes _.
  eapply rets_bind; [by apply (kept_write [])|]. intros [r k1] _ (I1 & _ & Hl & _). by apply keeps_write_end; [|apply Hl].
Qed.
Lemma keeps_write_resume k f bytes off :
  Inv k -> f ∈ locals k -> rets (write_resume k f bytes off) (fun r => Inv (snd r)).
Proof.
  intros I Hf%(i_loc _ _ I). unfold write_resume.
  eapply rets_bind; [by apply (kept_write [])|]. intros [r k1] _ (I1 & _ & Hl & _).
  eapply rets_bind; [by apply keeps_write_end; [|apply Hl]|]. intros [x k2] _ I2.
  eapply rets_bind; [by apply inv_unlocal|]. by intros k3 _ I3.
Qed.
Lemma keeps_send_end k pid i o uoff off in_off r :
  Inv k -> live k i -> live k o -> rets (send_end k pid i o uoff off in_off r) (fun r => Inv (snd r)).
Proof.
  intros I Hi Ho. unfold send_end. destruct r as [n|len nsend pt].
  - rif; [done|]. eapply rets_bind; [by apply kept_user|]. intros k2 _ H2. by eapply kept_inv.
  - apply (inv_local [] (with_locals k (o :: locals k)) i); [by apply inv_local|exact Hi].
Qed.
Lemma keeps_sendFile k pid o i uoff len : Inv k -> rets (sendFile k pid o i uoff len) (fun r => Inv (snd r)).
Proof.
  intros I. unfold sendFile. apply rets_skip; intros [fo|] Hfo; apply rets_skip; intros [fi|] Hfi; try done.
  pose proof (fd_file_live _ _ _ _ _ I Hfo). pose proof (fd_file_live _ _ _ _ _ I Hfi). rif.
  - eapply rets_bind; [by apply (kept_sendFile [])|]. intros [[r off] k1] _ (I1 & _ & Hl & _). apply keeps_send_end; [done|by apply Hl..].
  - apply rets_skip. intros p _. apply rets_skip. intros b _. apply rets_skip. intros [in_off k0] _.
    eapply rets_bind; [by apply (kept_sendFile [])|]. intros [[r off] k1] _ (I1 & _ & Hl & _). apply keeps_send_end; [done|by apply Hl..].
Qed.
Lemma keeps_send_resume k pid i o uoff off in_off len nsend pt :
  Inv k -> i ∈ locals k -> o ∈ locals k -> rets (send_resume k pid i o uoff off in_off len nsend pt) (fun r => Inv (snd r)).
Proof.
  intros I Hi%(i_loc _ _ I) Ho%(i_loc _ _ I). unfold send_resume.
  eapply rets_bind; [by apply (kept_send_from [])|]. intros [[r off'] k1] _ (I1 & _ & Hl & _).
  eapply rets_bind; [apply keeps_send_end; [done|by apply Hl..]|]. intros [x k2] _ I2.
  eapply rets_bind; [by apply inv_unlocal|]. intros k3 _ I3.
  eapply rets_bind; [by apply inv_unlocal|]. by intros k4 _ I4.
Qed.

(** ** Processes *)
Lemma keeps_clone k pid newpid : Inv k -> procs k !! newpid = None -> rets (proc_clone k pid newpid) Inv.
Proof.
  intros [] Hn. unfold proc_clone. apply rets_skip. intros p Hp%proc_get_Done. cbn. constructor; try assumption.
  - intros pid' q. cbn. rewrite lookup_insert_Some. intros [[<- <-]|[? ?]]; cbn; eauto.
  - intros pid' q f. cbn. rewrite lookup_insert_Some. intros [[<- <-]|[? ?]]; cbn; by eapply i_slot0.
  - intros f Hf. destruct (i_held0 f Hf) as [Hh|]; [left|by right]. apply (held_sub k); [|done|done].
    intros pid' q Hq. exists q. cbn. rewrite lookup_insert_ne by congruence. done.
Qed.
Lemma keeps_exit k pid : Inv k -> rets (proc_exit k pid) Inv.
Proof. intros I. unfold proc_exit. apply rets_skip. intros p Hp%proc_get_Done. by eapply inv_procs. Qed.
Lemma keeps_drop_all t k l : InvT (omap id l ++ t) k -> rets (drop_all k l) (InvT t).
Proof.
  revert k. induction l as [|[f|] l IH]; intros k I; cbn [drop_all]; [done| |by apply IH].
  rif.
  - apply IH. eapply inv_mono; [done|]. apply bool_decide_eq_true in Heqb. intros g Hg. cbn in Hg.
    apply elem_of_cons in Hg as [->|]; [|done]. apply elem_of_app. left. apply list_elem_of_omap. by exists (Some f).
  - eapply rets_bind; [apply (inv_drop (omap id l ++ t)); exact I|]. intros k1 _ [I1 _]. by apply IH.
Qed.
Lemma keeps_reap k pid : Inv k -> rets (zombieExit k pid) Inv.
Proof.
  intros []. unfold zombieExit. apply rets_skip. intros p Hp%proc_get_Done. apply keeps_drop_all.
  set (m := map_imap _ _).
  assert (Hm : forall pid' q', delete pid m !! pid' = Some q' -> exists q, procs k !! pid' = Some q /\ files q' = files q).
  { intros pid' q'. rewrite lookup_delete_Some. intros [_ Hq]. unfold m in Hq. rewrite map_lookup_imap in Hq.
    destruct (procs k !! pid') as [q|]; [|done]. cbn in Hq. injection Hq as <-. exists q. split; [done|]. by case_match. }
  constructor; try assumption.
  - intros pid' q' Hq'. destruct (Hm _ _ Hq') as (q & Hq & ->). eauto.
  - intros pid' q' f Hq'. destruct (Hm _ _ Hq') as (q & Hq & ->). by eapply i_slot0.
  - intros f Hf. destruct (i_held0 f Hf) as [Hh|]; [|set_solver]. rewrite held_spec in Hh |- *. cbn.
    destruct Hh as [(pid' & q & Hq & Hin)|]; [|by left; right]. destruct (decide (pid' = pid)) as [->|Hn].
    + right. assert (q = p) as -> by congruence. apply elem_of_app. left. apply list_elem_of_omap. exists (Some f).
      split; [|done]. by rewrite list_elem_of_In, <- in_rev, <- list_elem_of_In.
    + left. left. exists pid'. eexists. rewrite lookup_delete_ne by done. unfold m. rewrite map_lookup_imap, Hq. cbn.
      split; [done|]. by case_match.
Qed.
(** ** The steps of the file layer *)
Inductive fstep : KSt -> KSt -> Prop :=
| fs_call k pid c r k' : exec k pid c = Done (r, k') -> fstep k k'
| fs_read k pid fd uva len r k' : read k pid fd uva len = Done (r, k') -> fstep k k'
| fs_read_on k pid f buf off uva r k' :
    f ∈ locals k -> read_resume k pid f buf off uva = Done (r, k') -> fstep k k'
| fs_write k pid fd src len r k' : write k pid fd src len = Done (r, k') -> fstep k k'
| fs_write_on k f bytes off r k' : f ∈ locals k -> write_resume k f bytes off = Done (r, k') -> fstep k k'
| fs_send k pid o i uoff len r k' : sendFile k pid o i uoff len = Done (r, k') -> fstep k k'
| fs_send_on k pid i o uoff off in_off len nsend pt r k' :
    i ∈ locals k -> o ∈ locals k -> send_resume k pid i o uoff off in_off len nsend pt = Done (r, k') -> fstep k k'
| fs_mount k pid ld dev path ty r k' : mount ld k pid dev path ty = Done (r, k') -> fstep k k'
| fs_umount k pid mp un path fl r k' : umount2 mp un k pid path fl = Done (r, k') -> fstep k k'
| fs_clone k pid newpid k' : procs k !! newpid = None -> proc_clone k pid newpid = Done k' -> fstep k k'
| fs_exit k pid k' : proc_exit k pid = Done k' -> fstep k k'
| fs_reap k pid k' : zombieExit k pid = Done k' -> fstep k k'.

Lemma step_keeps k k' : fstep k k' -> Inv k -> Inv k'.
Proof.
  intros Hs I. destruct Hs as [????? H|??????? H|???????? Hl H|??????? H|?????? Hl H|???????? H|???????????? Hi Ho H|???????? H|???????? H
    |???? Hn H|??? H|??? H].
  - exact (rets_Done _ _ _ (exec_keeps _ _ _ I) H).
  - exact (rets_Done _ _ _ (keeps_read _ _ _ _ _ I) H).
  - exact (rets_Done _ _ _ (keeps_read_resume _ _ _ _ _ _ I Hl) H).
  - exact (rets_Done _ _ _ (keeps_write _ _ _ _ _ I) H).
  - exact (rets_Done _ _ _ (keeps_write_resume _ _ _ _ I Hl) H).
  - exact (rets_Done _ _ _ (keeps_sendFile _ _ _ _ _ _ I) H).
  - exact (rets_Done _ _ _ (keeps_send_resume _ _ _ _ _ _ _ _ _ _ I Hi Ho) H).
  - refine (rets_Done _ (fun r => Inv (snd r)) _ _ H). unfold mount. rif; [done|].
    do 6 (apply rets_skip; intros ? _). by apply keeps_on_world.
  - refine (rets_Done _ (fun r => Inv (snd r)) _ _ H). unfold umount2. rif; [done|].
    do 2 (apply rets_skip; intros ? _). by apply keeps_on_world.
  - exact (rets_Done _ _ _ (keeps_clone _ _ _ I Hn) H).
  - exact (rets_Done _ _ _ (keeps_exit _ _ I) H).
  - exact (rets_Done _ _ _ (keeps_reap _ _ I) H).
Qed.

(** A state before any pipe was made: every descriptor refers to a file, and
    every file is referred to. *)
Record boot k : Prop := {
  b_pipes : pipes k = ∅;
  b_nopipe : forall f x st p, fobjs k !! f = Some x -> obj x <> PP st p;
  b_len : forall pid p, procs k !! pid = Some p -> Z.of_nat (length (files p)) = mOFiles;
  b_slot : forall pid p f, procs k !! pid = Some p -> Some f ∈ files p -> live k f;
  b_held : forall f, live k f -> f < nextf k /\ exists pid p, procs k !! pid = Some p /\ Some f ∈ files p;
  b_locals : locals k = []
}.
Lemma boot_inv k : boot k -> Inv k.
Proof.
  intros []. constructor; auto.
  - rewrite b_locals0. set_solver.
  - intros f Hf. left. apply held_spec. left. by destruct (b_held0 f Hf).
  - intros f Hf. by destruct (b_held0 f Hf).
  - intros p. rewrite b_pipes0. intros [? H]. by rewrite lookup_empty in H.
  - intros f x st p Hx Ho. by destruct (b_nopipe0 f x st p Hx).
  - intros p q Hq. by rewrite b_pipes0, lookup_empty in Hq.
Qed.
Lemma reach_inv k0 k : boot k0 -> rtc fstep k0 k -> Inv k.
Proof. intros Hb Hr. apply boot_inv in Hb. induction Hr; [done|]. eauto using step_keeps. Qed.
End Calls.
End FdCalls.
