(* ===== verification/FileClaims.v ===== *)
(** * FileClaims: what the file layer promises

    Properties of open files and descriptors: the counts of pipe ends and the
    table hold over every inode implementation, reading back what was written is
    stated for ramfs. The witnesses run on ramfs and a flat user memory. *)

From S2P Require Import Prelude Klib Buddy Sched Pipe Bytes Path Vfs File FileSys Ramfs FdInv FdCalls.
Local Open Scope Z_scope.

Module FileClaims.
Import Path Vfs File FileSys FdInv FdCalls.

Section Claims.
Context {S U : Type} `{!INodeOps S} `{!UserMem U}.
Notation KSt := (K S U).
Implicit Types (k : KSt).

(** An owner of an end of the pipe: a descriptor, or a call blocked in it. *)
Definition owner k (f : Z) : Prop := (exists pid p, procs k !! pid = Some p /\ Some f ∈ files p) \/ f ∈ locals k.
Definition end_open k (p : Z) (op : FileOps -> bool) : Prop :=
  exists f x st, owner k f /\ fobjs k !! f = Some x /\ obj x = PP st p /\ op (ops x) = true.

Lemma end_count k p q fr fw f :
  InvT [] k -> pipe_ends (fobjs k) (nextf k) p q fr fw -> f = fr \/ f = fw ->
  (count (fobjs k) f = 1 /\ exists x, owner k f /\ fobjs k !! f = Some x /\ obj x = PP kst_pipe p) \/
  (count (fobjs k) f = 0 /\ fobjs k !! f = None).
Proof.
  intros I He Hf. unfold count. destruct (fobjs k !! f) as [x|] eqn:Hx.
  - left. rewrite decide_True by done. split; [done|]. exists x. split_and!; [|done|].
    + destruct (i_held _ _ I f (mk_is_Some _ _ Hx)) as [Hh|]; [by apply held_spec in Hh|set_solver].
    + destruct He, Hf as [->| ->]; auto.
  - right. rewrite decide_False by (intros [? [=]]). done.
Qed.

(** C12. After any sequence of file system calls, reads and writes (blocked ones
    included), clones, exits and reapings from a state without pipes, the reader
    count of every pipe is 1 exactly when some descriptor of some process, or a
    call blocked on it, holds its read end, and 0 otherwise; the same for the
    writer count and the write end. *)
Theorem pipe_ends_counted k0 k p q :
  boot k0 -> rtc fstep k0 k -> pipes k !! p = Some q ->
  ((Pipe.Pipe.rcnt q = 1 /\ end_open k p op_r) \/ (Pipe.Pipe.rcnt q = 0 /\ ~ end_open k p op_r)) /\
  ((Pipe.Pipe.wcnt q = 1 /\ end_open k p op_w) \/ (Pipe.Pipe.wcnt q = 0 /\ ~ end_open k p op_w)).
Proof.
  intros Hb Hr Hq. pose proof (reach_inv _ _ Hb Hr) as I. destruct (i_ends _ _ I p q Hq) as (fr & fw & He).
  rewrite (pe_rcnt _ _ _ _ _ _ He), (pe_wcnt _ _ _ _ _ _ He).
  assert (Hf : forall f x st, fobjs k !! f = Some x -> obj x = PP st p ->
    (f = fr /\ ops x = ops_raw fop_read) \/ (f = fw /\ ops x = ops_raw fop_write)) by apply He.
  split.
  - destruct (end_count k p q fr fw fr I He (or_introl eq_refl)) as [(Hc & x & Ho & Hx & Hp)|[Hc Hn]]; [left|right];
      (split; [done|]).
    + exists fr, x, kst_pipe. split_and!; try done. destruct (Hf _ _ _ Hx Hp) as [[_ ->]|[E _]]; [done|].
      by destruct (pe_ne _ _ _ _ _ _ He).
    + intros (f & x & st & _ & Hx & Hp & Hop). destruct (Hf _ _ _ Hx Hp) as [[-> E]|[-> E]]; [congruence|].
      by rewrite E in Hop.
  - destruct (end_count k p q fr fw fw I He (or_intror eq_refl)) as [(Hc & x & Ho & Hx & Hp)|[Hc Hn]]; [left|right];
      (split; [done|]).
    + exists fw, x, kst_pipe. split_and!; try done. destruct (Hf _ _ _ Hx Hp) as [[E _]|[_ ->]]; [|done].
      by destruct (pe_ne _ _ _ _ _ _ He).
    + intros (f & x & st & _ & Hx & Hp & Hop). destruct (Hf _ _ _ Hx Hp) as [[-> E]|[-> E]]; [|congruence].
      by rewrite E in Hop.
Qed.

(** After any such sequence every descriptor refers to a live file object,
    every live file object has an owner (nothing dangles, nothing leaks), and
    every table has 101 slots. *)
Theorem descriptors_sound k0 k :
  boot k0 -> rtc fstep k0 k ->
  (forall pid p, procs k !! pid = Some p -> Z.of_nat (length (files p)) = mOFiles) /\
  (forall pid p f, procs k !! pid = Some p -> Some f ∈ files p -> live k f) /\
  (forall f, live k f -> owner k f).
Proof.
  intros Hb Hr. pose proof (reach_inv _ _ Hb Hr) as I. split; [apply I|]. split; [apply I|].
  intros f Hf. destruct (i_held _ _ I f Hf) as [Hh|]; [by apply held_spec in Hh|set_solver].
Qed.

(** ** The descriptor that fdAlloc chooses *)
Definition taken (l : list (option Z)) (i : Z) : Prop := exists f, l !! Z.to_nat i = Some (Some f).
Lemma fd_loop_spec fuel l fd :
  Z.of_nat (length l) = mOFiles -> 0 <= fd <= mOFiles -> (Z.to_nat (mOFiles - fd) <= fuel)%nat ->
  (exists n, fd_loop fuel l fd = Done n /\ fd <= n < mOFiles /\ l !! Z.to_nat n = Some None /\
    forall i, fd <= i < n -> taken l i) \/
  (fd_loop fuel l fd = Done (- ENOMEM) /\ forall i, fd <= i < mOFiles -> taken l i).
Proof.
  intros Hl. revert fd. induction fuel as [|fuel IH]; intros fd Hfd Hfu; cbn [fd_loop].
  { assert (fd = mOFiles) as -> by lia. right. split; [done|]. lia. }
  destruct (Z.ltb_spec fd mOFiles); [|right; split; [done|lia]].
  unfold aget. destruct (Z.ltb_spec fd 0); [lia|].
  destruct (l !! Z.to_nat fd) as [[x|]|] eqn:Hx; cbn [obind].
  - destruct (IH (fd + 1)) as [(n & Hn & Hr & Hno & Ht)|[Hn Ht]]; [lia..| |].
    + left. exists n. split_and!; try done; try lia. intros i Hi. destruct (decide (i = fd)) as [->|]; [by exists x|].
      apply Ht. lia.
    + right. split; [done|]. intros i Hi. destruct (decide (i = fd)) as [->|]; [by exists x|]. apply Ht. lia.
  - left. exists fd. split_and!; try done; lia.
  - apply lookup_ge_None_1 in Hx. lia.
Qed.

(** fdAlloc without an appointed number always returns: it takes the least
    free descriptor that is not below the one asked for, stores the file there
    and changes no other slot; -ENOMEM comes back, with the table unchanged,
    exactly when all of them are taken. *)
Theorem fdAlloc_least k pid f afd p :
  procs k !! pid = Some p -> Z.of_nat (length (files p)) = mOFiles -> afd <= mOFiles ->
  let lo := Z.max 0 afd in
  (exists n k', fdAlloc k pid f afd false = Done (n, k') /\ lo <= n < mOFiles /\
     files p !! Z.to_nat n = Some None /\ (forall i, lo <= i < n -> taken (files p) i) /\
     exists p', procs k' !! pid = Some p' /\ files p' = <[Z.to_nat n := Some f]> (files p)) \/
  (fdAlloc k pid f afd false = Done (- ENOMEM, k) /\ forall i, lo <= i < mOFiles -> taken (files p) i).
Proof.
  intros Hp Hl Ha lo. unfold fdAlloc, proc_get. rewrite Hp. cbn [obind negb].
  assert ((if afd <? 0 then 0 else afd) = lo) as -> by (bdestr; lia).
  destruct (fd_loop_spec (Z.to_nat mOFiles) (files p) lo Hl) as [(n & -> & Hr & Hno & Ht)|[-> Ht]]; [unfold mOFiles in *; lia..| |].
  2: { right. cbn. done. }
  left. exists n. cbn [obind]. destruct (Z.ltb_spec n 0); [lia|]. unfold set_slot, proc_get. rewrite Hp. cbn [obind].
  unfold aget at 1. destruct (Z.ltb_spec n 0); [lia|]. rewrite Hno. cbn [obind]. rewrite aset_upd by lia. cbn [obind].
  eexists. split; [done|]. split_and!; try done; try lia. eexists. cbn. rewrite lookup_insert_eq. split; [done|]. done.
Qed.
(** ** Descriptors that the calls do not check *)
Lemma Path_file_panics k pid s f x p :
  procs k !! pid = Some p -> fobjs k !! f = Some x -> getEntry x = Panic -> Path_file k pid s (Some f) = Panic.
Proof. intros Hp Hx Hg. unfold Path_file, proc_get, file_get. by rewrite Hp, Hx; cbn; rewrite Hg. Qed.

(** A descriptor of a write-only file that is not a directory entry (stdout,
    the write end of a pipe) brings the kernel down from user space: as the base
    of openat it fails an assertion, whatever the path is, and reading from it
    copies almost 2^64 bytes to the user. *)
Theorem unchecked_descriptor_crashes k pid fd f x p path s fl mode uva len :
  procs k !! pid = Some p -> ofile p fd = Done (Some f) -> fobjs k !! f = Some x ->
  (forall st de o, obj x <> EP st de o) -> op_r (ops x) = false ->
  path <> 0 -> copyinstr (umem p) path FAT32_MAX_PATH = Done s ->
  openAt k pid fd path fl mode = Panic /\ read k pid fd uva len = Undef.
Proof.
  intros Hp Hf Hx Ho Hr Hpath Hs. split.
  - unfold openAt, at_path, from_user_str, fd_file, proc_get. rewrite Hp. cbn [obind].
    destruct (Z.eqb_spec path 0); [done|]. rewrite Hs, Hf. cbn [obind]. rewrite (Path_file_panics k pid s f x p); try done.
    unfold getEntry. destruct (obj x) eqn:E; try done. by destruct (Ho kst de off).
  - unfold read, fd_file, proc_get, File.read, file_get. rewrite Hp. cbn [obind]. rewrite Hf. cbn [obind].
    rewrite Hx. cbn [obind]. by rewrite Hr.
Qed.

(** A write of 1999 or more bytes without a zero to stdout or stderr never
    returns: the kernel loops in printf. *)
Theorem long_console_write_hangs k f x t st bytes :
  fobjs k !! f = Some x -> op_w (ops x) = true -> obj x = DV t st -> is_stdout t = true ->
  Forall (fun c => c <> 0) bytes -> 1999 <= zlen bytes ->
  File.write k f bytes 0 = Diverge.
Proof.
  intros Hx Hw Ho Ht Hb Hl. unfold File.write, file_get. rewrite Hx. cbn [obind]. rewrite Hw, Ho, Ht. cbn [negb]. unfold print.
  assert (cstr bytes = bytes) as ->.
  { clear Hl. induction Hb as [|c l Hc Hl IH]; cbn; [done|]. destruct (Z.eqb_spec c 0); [done|]. by rewrite IH. }
  by destruct (Z.leb_spec 2000 (zlen bytes + 1)); [|lia].
Qed.
End Claims.

(** ** Reading back what was written *)
Section RoundTrip.
Context {S U : Type} `{!INodeOps S} `{!INodeLaws S} `{!UserMem U}.
Implicit Types (k : K S U).

(** An open file over a regular file of a mounted file system, at offset [o]. *)
Record opened k (f : Z) (st : KStat) (de o : Z) (d : DEntry) : Prop := {
  op_file : exists fl op, fobjs k !! f = Some (mkFile op fl (EP st de o)) /\ op_r op = true /\ op_w op = true;
  op_dent : dents (world k) !! de = Some d;
  op_reg : regular (nods (world k)) (de_nod d);
  op_fs : exists fs, fss (world k) !! rFS (nods (world k)) (de_nod d) = Some fs /\ u32 (f_bsize (fs_stat fs)) <> 0;
  op_chr : S_ISCHR (st_mode st) = false /\ S_ISIFO (st_mode st) = false
}.
Definition data k (d : DEntry) : list Z := content (nods (world k)) (de_nod d).

Lemma write_step k f st de o d bytes :
  opened k f st de o d -> 0 <= o <= zlen (data k d) -> o + zlen bytes < 2 ^ 31 ->
  exists k', File.write k f bytes 0 = Done (Pipe.Pipe.IoRet (zlen bytes), k') /\
    opened k' f st de (o + zlen bytes) d /\ data k' d = splice (data k d) o bytes.
Proof.
  intros [(fl & op & Hx & Hr & Hw) Hd Hreg (fs & Hfs & Hb) Hc] Ho Hl. unfold File.write, file_get. rewrite Hx. cbn [obind ops obj].
  rewrite Hw. cbn [negb]. unfold de_get. rewrite Hd. cbn [obind].
  assert (0 <= zlen bytes) by (unfold zlen; lia).
  destruct (law_write (nods (world k)) (de_nod d) bytes o Hreg Ho Hl) as (s' & Hn & Hreg' & Hcon & Hfs' & _).
  rewrite !u32_small by lia. rewrite Hn. cbn [obind]. rewrite u64_small, Z.eqb_refl, i32_small, i64_small by lia.
  eexists. split; [done|]. split; [|done]. constructor; cbn; try done.
  - exists fl, op. by rewrite lookup_insert_eq.
  - rewrite Hfs'. by exists fs.
Qed.
Lemma seek_step k f st de o d n :
  opened k f st de o d -> 0 <= n <= zlen (data k d) ->
  exists k', File.lSeek k f n SEEK_SET = Done (n, k') /\ opened k' f st de n d /\ data k' d = data k d.
Proof.
  intros [(fl & op & Hx & Hr & Hw) Hd Hreg (fs & Hfs & Hb) [Hc1 Hc2]] Hn. unfold File.lSeek, file_get. rewrite Hx.
  cbn [obind obj d_kst]. rewrite Hc1, Hc2. cbn [orb]. unfold getEntry. cbn [obj obind]. unfold kst_entry, de_get.
  rewrite Hd. cbn [obind]. rewrite Hfs. destruct (Z.eqb_spec (u32 (f_bsize (fs_stat fs))) 0); [done|]. cbn [obind].
  cbn -[zlen rFileSize set_obj]. rewrite law_size by done. fold (data k d).
  destruct (Z.ltb_spec n 0); [lia|]. destruct (Z.ltb_spec (zlen (data k d)) n); [lia|]. cbn [orb].
  eexists. split; [done|]. split; [|done]. constructor; cbn; try done; eauto.
  exists fl, op. by rewrite lookup_insert_eq.
Qed.
Lemma read_step k f st de o d buf :
  opened k f st de o d -> 0 <= o <= zlen (data k d) -> o + zlen buf < 2 ^ 31 -> zlen (data k d) < 2 ^ 31 ->
  let m := Z.min (zlen buf) (zlen (data k d) - o) in
  0 < m ->
  exists k', File.read k f buf (-1) true 0 = Done (Pipe.Pipe.IoRet m, splice buf 0 (slice (data k d) o m), k') /\
    opened k' f st de (o + m) d /\ data k' d = data k d.
Proof.
  intros [(fl & op & Hx & Hr & Hw) Hd Hreg (fs & Hfs & Hb) Hc] Ho Hl Hs m Hm. unfold File.read, file_get. rewrite Hx.
  cbn [obind ops obj]. rewrite Hr. cbn [negb]. unfold de_get. rewrite Hd. cbn [obind]. change (-1 <? 0) with true. cbv iota.
  destruct (law_read (nods (world k)) (de_nod d) buf o (zlen buf) Hreg Ho) as (s' & Hn & Hreg' & Hcon & Hfs' & _);
    [unfold zlen; lia|done|done|]. fold (data k d) in Hn. fold m in Hn.
  rewrite !u32_small by (unfold zlen in *; lia). rewrite Hn. cbn [obind]. destruct (Z.ltb_spec 0 m); [|lia].
  rewrite i64_small by lia. eexists. split; [done|]. split; [|done]. constructor; cbn; try done.
  - exists fl, op. by rewrite lookup_insert_eq.
  - rewrite Hfs'. by exists fs.
Qed.

(** Over a file system that keeps the laws of files, what is written is read back. *)
Lemma laws_write_seek_read k f st de o d bytes buf :
  opened k f st de o d -> 0 <= o <= zlen (data k d) -> o + zlen bytes < 2 ^ 31 -> zlen (data k d) < 2 ^ 31 ->
  0 < zlen bytes -> zlen buf = zlen bytes ->
  exists k1 k2 k3,
    File.write k f bytes 0 = Done (Pipe.Pipe.IoRet (zlen bytes), k1) /\
    File.lSeek k1 f o SEEK_SET = Done (o, k2) /\
    File.read k2 f buf (-1) true 0 = Done (Pipe.Pipe.IoRet (zlen bytes), bytes, k3) /\
    opened k3 f st de (o + zlen bytes) d /\ data k3 d = splice (data k d) o bytes.
Proof.
  intros Hop Ho Hl Hs Hp Hb. destruct (write_step k f st de o d bytes Hop Ho Hl) as (k1 & Hw & Hop1 & Hd1).
  assert (Hz : o + zlen bytes <= zlen (data k1 d) < 2 ^ 31 /\ slice (data k1 d) o (zlen bytes) = bytes).
  { rewrite Hd1. split; [|by apply slice_splice]. unfold splice, zlen in *. rewrite !length_app, length_take, length_drop. lia. }
  destruct Hz as [Hz Hsl].
  destruct (seek_step k1 f st de _ d o Hop1) as (k2 & Hk2 & Hop2 & Hd2); [lia|].
  destruct (read_step k2 f st de o d buf Hop2) as (k3 & Hk3 & Hop3 & Hd3); [rewrite ?Hd2; lia..|].
  exists k1, k2, k3. revert Hk3 Hop3. rewrite Hd2. replace (Z.min (zlen buf) (zlen (data k1 d) - o)) with (zlen bytes) by lia.
  intros Hk3 Hop3. split_and!; try done; [|congruence]. rewrite Hk3, Hsl. do 3 f_equal.
  unfold splice. rewrite drop_ge by (unfold zlen in *; lia). cbn. by rewrite app_nil_r.
Qed.
End RoundTrip.

(** C23. A regular file on the memory file system, open for reading and writing and
    positioned at an offset [o] no larger than the file (the file, and the offset after
    the write, below 2^31 bytes): what is written through the open file is read back
    through it after seeking to [o]. The write stores all (at least one) bytes and
    advances the position, lseek to [o] succeeds, the read into a buffer of that length
    returns exactly these bytes and leaves the position behind them; the file holds the
    old contents with the bytes in place. The file may be shared by several descriptors,
    since dup and clone copy the reference; nobody else uses it between the calls. *)
Theorem write_seek_read {U : Type} `{!UserMem U} (k : K Ramfs.Ramfs.SuperBlock U) f st de o d bytes buf :
  opened k f st de o d ->
  let old := Ramfs.Ramfs.ram_content (nods (world k)) (de_nod d) in
  0 <= o <= zlen old -> o + zlen bytes < 2 ^ 31 -> zlen old < 2 ^ 31 ->
  0 < zlen bytes -> zlen buf = zlen bytes ->
  exists k1 k2 k3,
    File.write k f bytes 0 = Done (Pipe.Pipe.IoRet (zlen bytes), k1) /\
    File.lSeek k1 f o SEEK_SET = Done (o, k2) /\
    File.read k2 f buf (-1) true 0 = Done (Pipe.Pipe.IoRet (zlen bytes), bytes, k3) /\
    opened k3 f st de (o + zlen bytes) d /\
    Ramfs.Ramfs.ram_content (nods (world k3)) (de_nod d) = splice old o bytes.
Proof. intros Hop old. apply (laws_write_seek_read k f st de o d bytes buf Hop). Qed.

(** ** A concrete kernel: ramfs as the root file system, a flat user memory *)
Definition ex_stat : StatFS := mkStatFS 0 512 0 0 0 0 0 0 255.
Definition ex_ram : Ramfs.Ramfs.SuperBlock := Ramfs.Ramfs.SuperBlock_new 7.
Definition ex_root : KStat := mkKStat 0 1 S_IFDIR 1 0 0 512 0.
Definition ex_world : World Ramfs.Ramfs.SuperBlock :=
  mkWorld ex_ram {[1 := mkDEntry None 1 [slash] ∅ false]} 2
    {[7 := mkFSys true 1 [114; 97; 109] ex_stat]} [([slash], 7)].
(** stdout at 1, the working directory at 3; "/a" and "/b" at the
    addresses 16 and 19 of the user memory. *)
Definition ex_files : gmap Z File :=
  {[1 := mkFile (ops_raw fop_write) 0 (DV ft_stdout (kst_dev ft_stdout));
    2 := mkFile (ops_flags O_RDWR) O_RDWR (EP ex_root 1 0)]}.
Definition ex_proc : Proc (list Z) :=
  mkProc (None :: Some 1 :: None :: Some 2 :: replicate 97 None) 1
    (replicate 16 0 ++ [slash; 97; 0; slash; 98; 0] ++ replicate 500 0) 0 false.
Definition ex_task : Sched.Sched.Scheduler :=
  Sched.Sched.mkScheduler {[1 := Sched.Sched.mkScheduable 0 Sched.Sched.Running]} [[]; []] ∅ 1 1 false.
Definition ex_pages : Buddy.Buddy.PageMgr :=
  match Buddy.Buddy.PageMgr_new 0 100 107 with Done a => a | _ => Buddy.Buddy.mkPageMgr 0 0 0 0 [] 0 0 end.
Definition ex_k : K Ramfs.Ramfs.SuperBlock (list Z) :=
  mkK ex_world ex_files 3 ∅ 1 {[1 := ex_proc]} ex_task ex_pages [] [].

Lemma ex_boot : boot ex_k.
Proof.
  constructor; try done.
  - intros f x st p. cbn. unfold ex_files. rewrite lookup_insert_Some, lookup_singleton_Some.
    intros [[<- <-]|[_ [<- <-]]]; done.
  - intros pid p. cbn. rewrite lookup_singleton_Some. by intros [<- <-].
  - intros pid p f. cbn. rewrite lookup_singleton_Some. intros [<- <-]. cbn [files ex_proc].
    rewrite !elem_of_cons. intros [[=]|[[= ->]|[[=]|[[= ->]|H]]]]; [by eexists..|].
    by apply elem_of_replicate in H as [[=] _].
  - intros f [x Hx]. cbn in *. unfold ex_files in Hx. rewrite lookup_insert_Some, lookup_singleton_Some in Hx.
    destruct Hx as [[<- _]|[_ [<- _]]]; (split; [done|]); exists 1, ex_proc; (split; [done|]); set_solver.
Qed.

Notation exK := (K Ramfs.Ramfs.SuperBlock (list Z)).
Definition ret_k {A : Type} (m : outcome (A * exK)) : exK := match m with Done (_, k) => k | _ => ex_k end.
(** After pipe2 (descriptors 0 and 2), and after the write end is closed. *)
Definition ex_k1 : exK := ret_k (exec ex_k 1 (CPipe2 (replicate 64 0) 0 100)).
Definition ex_k2 : exK := ret_k (exec ex_k1 1 (CClose 2)).
Lemma ex_steps : rtc fstep ex_k ex_k2.
Proof.
  apply (rtc_l _ _ ex_k1); [eapply (fs_call _ 1 (CPipe2 (replicate 64 0) 0 100)); vm_compute; reflexivity|].
  apply rtc_once. eapply (fs_call _ 1 (CClose 2)). vm_compute. reflexivity.
Qed.
Definition ex_q : Pipe.Pipe.Pipe := default (Pipe.Pipe.Pipe_new []) (pipes ex_k2 !! 1).
Lemma pipe_ends_counted_witness :
  ((Pipe.Pipe.rcnt ex_q = 1 /\ end_open ex_k2 1 op_r) \/ (Pipe.Pipe.rcnt ex_q = 0 /\ ~ end_open ex_k2 1 op_r)) /\
  ((Pipe.Pipe.wcnt ex_q = 1 /\ end_open ex_k2 1 op_w) \/ (Pipe.Pipe.wcnt ex_q = 0 /\ ~ end_open ex_k2 1 op_w)).
Proof. apply (pipe_ends_counted ex_k ex_k2 1 ex_q ex_boot ex_steps). vm_compute. reflexivity. Defined.
Lemma descriptors_sound_witness :
  (forall pid p, procs ex_k2 !! pid = Some p -> Z.of_nat (length (files p)) = mOFiles) /\
  (forall pid p f, procs ex_k2 !! pid = Some p -> Some f ∈ files p -> live ex_k2 f) /\
  (forall f, live ex_k2 f -> owner ex_k2 f).
Proof. apply (descriptors_sound ex_k ex_k2 ex_boot ex_steps). Defined.
Lemma fdAlloc_least_witness :
  (exists n k', fdAlloc ex_k 1 2 1 false = Done (n, k') /\ 1 <= n < mOFiles /\
     files ex_proc !! Z.to_nat n = Some None /\ (forall i, 1 <= i < n -> taken (files ex_proc) i) /\
     exists p', procs k' !! 1 = Some p' /\ files p' = <[Z.to_nat n := Some 2]> (files ex_proc)) \/
  (fdAlloc ex_k 1 2 1 false = Done (- ENOMEM, ex_k) /\ forall i, 1 <= i < mOFiles -> taken (files ex_proc) i).
Proof. apply (fdAlloc_least ex_k 1 2 1 ex_proc); [reflexivity|reflexivity|unfold mOFiles; lia]. Defined.
Lemma unchecked_descriptor_crashes_witness :
  openAt ex_k 1 1 16 0 0 = Panic /\ read ex_k 1 1 100 4 = Undef.
Proof.
  apply (unchecked_descriptor_crashes ex_k 1 1 1 (mkFile (ops_raw fop_write) 0 (DV ft_stdout (kst_dev ft_stdout))) ex_proc 16
    [slash; 97] 0 0 100 4); try reflexivity; discriminate.
Defined.
Lemma long_console_write_hangs_witness : File.write ex_k 1 (replicate 1999 65) 0 = Diverge.
Proof.
  apply (long_console_write_hangs ex_k 1 (mkFile (ops_raw fop_write) 0 (DV ft_stdout (kst_dev ft_stdout))) ft_stdout
    (kst_dev ft_stdout)); try reflexivity; [apply Forall_replicate; lia|..]; vm_compute; discriminate.
Defined.

(** After open("/a", O_CREAT|O_RDWR), which makes file 3 on entry 2. *)
Definition ex_ka : exK := ret_k (openAt ex_k 1 AT_FDCWD 16 66 0).
Definition ex_da : DEntry := mkDEntry (Some 1) 2 [97] ∅ false.
Definition ex_sta : KStat := mkKStat 0 2 S_IFREG 1 0 0 512 0.
Lemma ex_opened : opened ex_ka 3 ex_sta 2 0 ex_da.
Proof.
  constructor.
  - exists 66, (mkOps true true false). vm_compute. auto.
  - vm_compute. reflexivity.
  - eexists. vm_compute. auto.
  - eexists. split; [vm_compute; reflexivity|]. vm_compute. discriminate.
  - vm_compute. auto.
Qed.
Lemma write_seek_read_witness :
  exists k1 k2 k3,
    File.write ex_ka 3 [5; 6; 7] 0 = Done (Pipe.Pipe.IoRet 3, k1) /\
    File.lSeek k1 3 0 SEEK_SET = Done (0, k2) /\
    File.read k2 3 [0; 0; 0] (-1) true 0 = Done (Pipe.Pipe.IoRet 3, [5; 6; 7], k3) /\
    opened k3 3 ex_sta 2 (0 + 3) ex_da /\
    Ramfs.Ramfs.ram_content (nods (world k3)) 2 = [5; 6; 7].
Proof.
  apply (write_seek_read ex_ka 3 ex_sta 2 0 ex_da [5; 6; 7] [0; 0; 0]);
    [apply ex_opened|vm_compute; split; discriminate|reflexivity..].
Defined.

(** Five bytes written to "/a", "/b" opened as file 4; then the call. *)
Definition ex_kb : exK := ret_k (openAt (ret_k (File.write ex_ka 3 [1; 2; 3; 4; 5] 0)) 1 AT_FDCWD 19 66 0).
Definition ex_ks : exK := ret_k (File.sendFile ex_kb 3 4 (Some 1) 2).

(** sendfile with an offset moves the position of its input: it saves the
    position of the output file and restores the input to that. Here "/a" holds
    five bytes and is at position 5, "/b" is empty; two bytes are sent from
    offset 1, and afterwards "/a" is at position 0. *)
Theorem sendfile_moves_input :
  lSeek ex_kb 1 0 0 SEEK_CUR = Done (RtOk 5, ex_kb) /\
  File.sendFile ex_kb 3 4 (Some 1) 2 = Done (SDone 2, Some 3, ex_ks) /\
  lSeek ex_ks 1 0 0 SEEK_CUR = Done (RtOk 0, ex_ks).
Proof. split; [vm_compute; reflexivity|]. split; vm_compute; reflexivity. Qed.
End FileClaims.
