(* ===== verification/Signal.v ===== *)
(** * Signal: sending, masking, delivering and returning from signals
    (include/ipc.hh, kernel/ipc.cc, kernel/syscall/signal.cc, and
    uecallHandler of kernel/trap.cc)

    A [Task] has the registers and signal state that these functions use; the
    process owns the actions and the user memory. Signal frames are written to
    and read from user memory as 64-bit words: a siginfo is 16 words, a ucontext
    120 (6 of header and mask, 16 unused, pc and 31 registers, 66 for the
    floating-point state). Words that the source leaves uninitialised are the
    arguments [junk]. *)

From S2P Require Import Prelude Bytes Path Vfs File FileSys.
Local Open Scope Z_scope.

(** What the stack discipline of signal frames relies on. [mapped u a n]: the [n] bytes
    from [a] on lie in one page of the process that is present (VMAR::copyin reads through
    the translation of the first byte only, so that nothing is promised of a range that
    crosses the end of a page). A copy to such a range succeeds, is read back, and changes
    no other such range. [paged_laws] below is an instance that translates page by page. *)
Class UserMemLaws (U : Type) `{!UserMem U} : Type := mkUserMemLaws {
  mapped : U -> Z -> Z -> Prop;
  law_sub : forall u a n b m, mapped u a n -> a <= b -> 0 <= m -> b + m <= a + n -> mapped u b m;
  law_out : forall u a bs, mapped u a (zlen bs) ->
    exists u', copyout u a bs = Done u' /\ copyin u' a (zlen bs) = Done bs /\
      (forall b n, mapped u b n -> mapped u' b n) /\
      (forall b n, mapped u b n -> b + n <= a \/ a + zlen bs <= b -> copyin u' b n = copyin u b n)
}.

Module Signal.
Import FileSys.

Definition numSigs : Z := 64.
Definition SIGKILL : Z := 9.
Definition SIGSTOP : Z := 19.
Definition SIGCHLD : Z := 17.
Definition SIG_DFL : Z := 0.
Definition SIG_IGN : Z := 1.
Definition SIG_ERR : Z := 18446744073709551615.
Definition SA_SIGINFO : Z := 4.
Definition SA_ONSTACK : Z := 134217728.
Definition SA_RESETHAND : Z := 2147483648.
Definition SIG_BLOCK : Z := 0.
Definition SIG_UNBLOCK : Z := 1.
Definition SIG_SETMASK : Z := 2.
Definition EINVAL : Z := 22.
Definition ESRCH : Z := 3.
Definition EPERM : Z := 1.
Definition sigStackSiz : Z := 8192.

Record SigAct : Type := mkSigAct { sa_handler : Z; sa_flags : Z; sa_restorer : Z; sa_mask : Z }.
Definition defaultSigAct : SigAct := mkSigAct 0 0 0 0.
Record SigStack : Type := mkSigStack { ss_sp : Z; ss_flags : Z; ss_size : Z }.
Record Task : Type := mkTask {
  gpr : list Z;
  pc : Z;
  sigmask : Z;
  sigpending : Z;
  siginfos : list (option (list Z));
  sigstack : SigStack;
  hasInfo : bool
}.
Record SProc (U : Type) : Type := mkSProc { sigacts : list (option SigAct); smem : U }.
Arguments mkSProc {U} _ _.
Arguments sigacts {U} _.
Arguments smem {U} _.

Definition set_regs (t : Task) (g : list Z) (p : Z) : Task :=
  mkTask g p (sigmask t) (sigpending t) (siginfos t) (sigstack t) (hasInfo t).
Definition set_mask (t : Task) (m : Z) : Task :=
  mkTask (gpr t) (pc t) m (sigpending t) (siginfos t) (sigstack t) (hasInfo t).
Definition set_pending (t : Task) (m : Z) : Task :=
  mkTask (gpr t) (pc t) (sigmask t) m (siginfos t) (sigstack t) (hasInfo t).
Definition set_info (t : Task) (l : list (option (list Z))) (b : bool) : Task :=
  mkTask (gpr t) (pc t) (sigmask t) (sigpending t) l (sigstack t) b.
(** [ctx.x(r)] and its assignment. *)
Definition x (t : Task) (r : Z) : Z := vat (gpr t) (r - 1).
Definition set_x (t : Task) (r v : Z) : Task := set_regs t (upd (gpr t) (r - 1) v) (pc t).
Definition REG_RA : Z := 1.
Definition REG_SP : Z := 2.
Definition REG_A0 : Z := 10.
Definition REG_A1 : Z := 11.
Definition REG_A2 : Z := 12.
Definition REG_A7 : Z := 17.

(** ** Masks *)
Definition sigMaskBit (mask bit : Z) : outcome bool :=
  if (bit <? 0) || (64 <=? bit) then Undef else Done (Z.testbit mask bit).
Definition sigMaskBitSet (mask bit : Z) (set : bool) : outcome Z :=
  if (bit <? 0) || (64 <=? bit) then Undef
  else Done (if set then Z.lor mask (2 ^ bit) else Z.land mask (Z.lnot (2 ^ bit))).
Definition unmaskable : Z := Z.lor (2 ^ (SIGKILL - 1)) (2 ^ (SIGSTOP - 1)).

(** ** Sending *)
Definition sigSend_task (t : Task) (sig : Z) (info : option (list Z)) : outcome Task :=
  let* i := aget (siginfos t) (sig - 1) in
  match i with
  | None =>
      let* p := sigMaskBitSet (sigpending t) (sig - 1) true in
      let* l := aset (siginfos t) (sig - 1) info in
      Done (set_info (set_pending t p) l (hasInfo t))
  | Some _ => Done t
  end.
(** sigSend to a process: the first task that does not mask the signal gets it. *)
Fixpoint sigSend (ts : list Task) (sig : Z) (info : option (list Z)) : outcome (list Task) :=
  match ts with
  | [] => Done []
  | t :: ts' =>
      let* b := sigMaskBit (sigmask t) (sig - 1) in
      if negb b then let* t' := sigSend_task t sig info in Done (t' :: ts')
      else let* r := sigSend ts' sig info in Done (t :: r)
  end.

Section Handlers.
Context {U : Type} `{!UserMem U}.
Notation Proc := (SProc U).

Definition getSigAct (p : Proc) (i : Z) : outcome SigAct :=
  let* a := aget (sigacts p) i in Done (default defaultSigAct a).

(** signal::sigAction: the old action when it is asked for, and the process. *)
Definition sigAction (p : Proc) (sig : Z) (nact : option SigAct) (want_old : bool)
  : outcome (Z * option SigAct * Proc) :=
  if (sig <=? 0) || (numSigs <? sig) || (sig =? SIGKILL) || (sig =? SIGSTOP) then Done (- EINVAL, None, p)
  else
    let* o := (if want_old then let* a := getSigAct p (sig - 1) in Done (Some a) else Done None) in
    let* p' := match nact with
               | Some a => let* l := aset (sigacts p) (sig - 1) (Some a) in Done (mkSProc l (smem p))
               | None => Done p
               end in
    Done (0, o, p').
(** signal::sigProcMask: result, old mask, task. *)
Definition sigProcMask (t : Task) (how : Z) (nset : option Z) (size : Z) : Z * option Z * Task :=
  if negb (size =? 8) then (- EINVAL, None, t)
  else
    let old := Some (sigmask t) in
    match nset with
    | None => (0, old, t)
    | Some n =>
        let go m := (0, old, set_mask t (Z.land m (Z.lnot unmaskable))) in
        if how =? SIG_BLOCK then go (Z.lor (sigmask t) n)
        else if how =? SIG_UNBLOCK then go (Z.land (sigmask t) (Z.lnot n))
        else if how =? SIG_SETMASK then go n
        else (- EINVAL, old, t)
    end.

(** ** The system calls *)
Definition tkill (tasks : gmap Z Task) (tid sig : Z) : outcome (sysrt * gmap Z Task) :=
  match tasks !! tid with
  | None => Undef
  | Some t => let* t' := sigSend_task t sig None in Done (rt 0, <[tid := t']> tasks)
  end.
(** kill(pid, sig): [procs] holds the tasks of each process; pid -1 goes to the
    pids below 512 above 2 that are not the caller's. *)
Fixpoint kill_all (fuel : nat) (procs : gmap Z (list Task)) (i cur sig : Z) (success : bool)
  : outcome (bool * gmap Z (list Task)) :=
  match fuel with
  | O => Done (success, procs)
  | S f =>
      match procs !! i with
      | Some ts =>
          if negb (i =? cur) && (2 <? i) then
            let* ts' := sigSend ts sig None in kill_all f (<[i := ts']> procs) (i + 1) cur sig true
          else kill_all f procs (i + 1) cur sig success
      | None => kill_all f procs (i + 1) cur sig success
      end
  end.
Definition kill (procs : gmap Z (list Task)) (cur pid sig : Z) : outcome (sysrt * gmap Z (list Task)) :=
  let pid := if pid =? 0 then cur else pid in
  let pid := if pid <? -1 then i32 (- pid) else pid in
  if 0 <? pid then
    match procs !! pid with
    | None => Done (RtErr ESRCH, procs)
    | Some ts =>
        if sig =? 0 then Done (rt 0, procs)
        else let* ts' := sigSend ts sig None in Done (rt 0, <[pid := ts']> procs)
    end
  else if pid =? -1 then
    if sig =? 0 then Done (rt 0, procs)
    else if (sig =? SIGKILL) || (sig =? SIGSTOP) then Done (RtErr EPERM, procs)
    else let* (b, procs) := kill_all 512 procs 0 cur sig false in Done (rt (if b then 0 else -1), procs)
  else Done (rt 0, procs).
Definition act_bytes (a : SigAct) : list Z := enc [sa_handler a; sa_flags a; sa_restorer a; sa_mask a].
Definition act_of (b : list Z) : SigAct := mkSigAct (word b 0) (word b 1) (word b 2) (word b 3).
Definition sys_sigAction (p : Proc) (sig nact oact : Z) : outcome (sysrt * Proc) :=
  let* n := (if nact =? 0 then Done None
             else let* b := copyin (smem p) nact 32 in Done (Some (act_of b))) in
  let* (r, old, p) := sigAction p sig n (negb (oact =? 0)) in
  match old with
  | Some a => if r =? 0 then let* u := copyout (smem p) oact (act_bytes a) in Done (rt r, mkSProc (sigacts p) u)
              else Done (rt r, p)
  | None => Done (rt r, p)
  end.
(** sigProcMask of the system call returns before the old mask is stored when no
    new one is given. [junk] is what the local [oset] holds when it is not set. *)
Definition sys_sigProcMask (junk : Z) (t : Task) (p : Proc) (how nset oset size : Z) : outcome (sysrt * Task * Proc) :=
  if nset =? 0 then Done (rt 0, t, p)
  else
    let* b := copyin (smem p) nset 8 in
    let '(r, old, t') := sigProcMask t how (Some (word b 0)) size in
    let* p' := (if oset =? 0 then Done p
                else let* u := copyout (smem p) oset (enc [default junk old]) in Done (mkSProc (sigacts p) u)) in
    Done (rt r, t', p').

(** ** Delivery *)
Inductive sigres : Type :=
| SigNone                      (* nothing pending that is not masked *)
| SigExit (status : Z)         (* Process::exit *)
| SigDump (status : Z)         (* SIGCHLD to the parent, then Process::exit *)
| SigStop | SigCont            (* not implemented in the kernel: logged *)
| SigIgnored
| SigRun (sig : Z).            (* a handler was set up *)
Definition exit_of (sig : Z) : sigres := SigExit (128 + sig).

(** The first signal that is pending and not masked, 0 if there is none. *)
Fixpoint first_signal (n : nat) (i pending mask : Z) : Z :=
  match n with
  | O => 0
  | S f => if Z.testbit pending (i - 1) && negb (Z.testbit mask (i - 1)) then i else first_signal f (i + 1) pending mask
  end.
Definition default_action (sig : Z) : sigres :=
  if bool_decide (sig ∈ [1; 2; 9; 13; 14; 15; 10; 12; 29; 27; 26]) || ((32 <=? sig) && (sig <=? 64)) then exit_of sig
  else if bool_decide (sig ∈ [17; 23; 30]) then SigIgnored
  else if bool_decide (sig ∈ [3; 4; 6; 8; 11; 7; 31; 5; 24; 25]) then SigDump (128 + sig)
  else if bool_decide (sig ∈ [19; 20; 21; 22]) then SigStop
  else if sig =? 18 then SigCont
  else exit_of sig.

(** A Writer with [reverse] set: the address before the bytes. *)
Definition push (u : U) (addr : Z) (bytes : list Z) : outcome (Z * U) :=
  let a := u64 (addr - zlen bytes) in let* u' := copyout u a bytes in Done (a, u').
Definition pop (u : U) (addr n : Z) : outcome (Z * list Z) :=
  let a := u64 (addr - n) in let* b := copyin u a n in Done (a, b).

Definition sizeof_info : Z := 128.
Definition sizeof_uctx : Z := 960.
Record junk : Type := mkJunk { j_info : list Z; j_uctx : list Z; j_fp : list Z }.
Definition junk_ok (j : junk) : Prop := zlen (j_info j) = 14 /\ zlen (j_uctx j) = 16 /\ zlen (j_fp j) = 66.
(** The siginfo made up for a signal sent without one. *)
Definition new_info (j : junk) (sig : Z) : list Z := u32 sig :: 0 :: j_info j.
Definition uctx_words (j : junk) (st : SigStack) (mask : Z) (g : list Z) (p : Z) : list Z :=
  [0; 0; ss_sp st; u32 (ss_flags st); ss_size st; mask] ++ j_uctx j ++ [p] ++ g ++ j_fp j.
Definition onSigStack (t : Task) : bool := u64 (x t REG_SP - ss_sp (sigstack t)) <? ss_size (sigstack t).

(** The registers a handler starts with; [vdso] is the address of the default
    restorer. *)
Definition enter (vdso : Z) (t : Task) (sa : SigAct) (sig sp pinfo puctx : Z) : Task :=
  let t := set_x t REG_RA (if sa_restorer sa =? 0 then vdso else sa_restorer sa) in
  let t := set_x t REG_SP sp in
  let t := set_x t REG_A0 sig in
  let t := if negb (Z.land (sa_flags sa) SA_SIGINFO =? 0) then set_x (set_x t REG_A1 pinfo) REG_A2 puctx else t in
  set_regs t (gpr t) (sa_handler sa).
(** The part of sigHandler that sets up a user handler. *)
Definition set_frame (j : junk) (vdso : Z) (t : Task) (p : Proc) (sig : Z) (sa : SigAct)
  : outcome (sigres * Task * Proc) :=
  let sw := negb (Z.land (sa_flags sa) SA_ONSTACK =? 0) && negb (onSigStack t) in
  let* (base, u) := push (smem p) (if sw then ss_sp (sigstack t) else x t REG_SP) (enc [0]) in
  let info := negb (Z.land (sa_flags sa) SA_SIGINFO =? 0) in
  let* old := aget (siginfos t) (sig - 1) in
  let* (a, pinfo, u) :=
    (if info then let* (a, u) := push u base (enc (default (new_info j sig) old)) in Done (a, a, u)
     else Done (base, 0, u)) in
  let* l := aset (siginfos t) (sig - 1) None in
  let st := if sw then sigstack t else mkSigStack base 0 sigStackSiz in
  let* (puctx, u) := push u a (enc (uctx_words j st (sigmask t) (gpr t) (pc t))) in
  let* (sp, u) := push u puctx (enc [base]) in
  let t := enter vdso (set_info (set_mask t (Z.lor (sigmask t) (sa_mask sa))) l info) sa sig sp pinfo puctx in
  let* acts := (if negb (Z.land (sa_flags sa) SA_RESETHAND =? 0)
                then aset (sigacts p) (sig - 1) None else Done (sigacts p)) in
  Done (SigRun sig, t, mkSProc acts u).

Definition sigHandler (j : junk) (vdso : Z) (t : Task) (p : Proc) : outcome (sigres * Task * Proc) :=
  let sig := first_signal (Z.to_nat numSigs) 1 (sigpending t) (sigmask t) in
  if sig =? 0 then Done (SigNone, t, p)
  else
    let t := set_pending t (Z.land (sigpending t) (Z.lnot (2 ^ (sig - 1)))) in
    if sig =? SIGKILL then Done (exit_of sig, t, p)
    else if sig =? SIGSTOP then Done (SigStop, t, p)
    else
      let* sa := getSigAct p (sig - 1) in
      if sa_handler sa =? SIG_ERR then Done (exit_of sig, t, p)
      else if sa_handler sa =? SIG_DFL then Done (default_action sig, t, p)
      else if sa_handler sa =? SIG_IGN then Done (SigIgnored, t, p)
      else set_frame j vdso t p sig sa.

(** ** Return *)
Definition sigReturn (t : Task) (p : Proc) : outcome Task :=
  let* b := copyin (smem p) (x t REG_SP) 8 in
  let base := word b 0 in
  let* a := (if hasInfo t then let* (a, _) := pop (smem p) base sizeof_info in Done a else Done base) in
  let* (_, u) := pop (smem p) a sizeof_uctx in
  let t := set_mask t (word u 5) in
  Done (set_regs t ((fun i => word u (23 + Z.of_nat i)) <$> seq 0 31) (word u 22)).

(** uecallHandler: the number is a signed int, a handler that is not installed
    leaves a0 as it is. *)
Definition nSyscalls : Z := 284.
Definition uecallHandler (calls : Z -> option (Task -> outcome (sysrt * Task))) (t : Task) : outcome Task :=
  let id := i32 (x t REG_A7) in
  let t := set_regs t (gpr t) (u64 (pc t + 4)) in
  if id <? nSyscalls then
    if id <? 0 then Undef
    else match calls id with
         | Some h => let* (r, t) := h t in Done (set_x t REG_A0 (rtval r))
         | None => Done t
         end
  else Done (set_x t REG_A0 1).
Definition sys_sigReturn (p : Proc) (t : Task) : outcome (sysrt * Task) :=
  let* t := sigReturn t p in Done (rt 0, t).
End Handlers.

(** ** Frames are read back *)
Section Frames.
Context {U : Type} `{!UserMem U} `{!UserMemLaws U}.
Notation Proc := (SProc U).

Lemma push_mapped (u : U) a bs :
  mapped u (a - zlen bs) (zlen bs) -> zlen bs <= a < 2 ^ 64 ->
  exists u', push u a bs = Done (a - zlen bs, u') /\ copyin u' (a - zlen bs) (zlen bs) = Done bs /\
    (forall b n, mapped u b n -> mapped u' b n) /\
    (forall b n, mapped u b n -> b + n <= a - zlen bs \/ a <= b -> copyin u' b n = copyin u b n).
Proof.
  intros Hm Ha. destruct (law_out u (a - zlen bs) bs Hm) as (u' & Ho & Hi & Hk & Hd). exists u'.
  unfold push. rewrite u64_small by (unfold zlen in *; lia). rewrite Ho. cbn. split_and!; try done.
  intros b n Hn Hb. apply Hd; [done|]. lia.
Qed.

(** Registers and masks are 64-bit values. *)
Definition is_word (w : Z) : Prop := 0 <= w < 2 ^ 64.
Record task_ok (t : Task) : Prop := {
  tk_gpr : length (gpr t) = 31%nat;
  tk_regs : Forall is_word (gpr t);
  tk_pc : is_word (pc t);
  tk_mask : is_word (sigmask t);
  tk_infos : Z.of_nat (length (siginfos t)) = numSigs;
  tk_info : forall i l, siginfos t !! i = Some (Some l) -> zlen l = 16
}.

Lemma uctx_len j st m g p : junk_ok j -> length g = 31%nat -> zlen (enc (uctx_words j st m g p)) = sizeof_uctx.
Proof.
  intros (_ & Hj & Hf) Hg. rewrite zlen_enc. unfold uctx_words. rewrite !zlen_app. unfold zlen in *. cbn [length].
  rewrite Hg. unfold sizeof_uctx. lia.
Qed.
Lemma uctx_get j st m g p :
  junk_ok j -> length g = 31%nat -> Forall is_word g -> is_word m -> is_word p ->
  word (enc (uctx_words j st m g p)) 5 = m /\ word (enc (uctx_words j st m g p)) 22 = p /\
  ((fun i => word (enc (uctx_words j st m g p)) (23 + Z.of_nat i)) <$> seq 0 31) = g.
Proof.
  intros (_ & Hj & _) Hg Hw Hm Hp. unfold zlen in Hj.
  assert (Hl : forall i, uctx_words j st m g p !! (23 + i)%nat = (g ++ j_fp j) !! i).
  { intros i. unfold uctx_words. rewrite lookup_app_r by (cbn; lia). cbn [length]. rewrite lookup_app_r by lia.
    replace (23 + i - 6 - length (j_uctx j))%nat with (S i) by lia. done. }
  split; [|split].
  - change 5 with (Z.of_nat 5). by apply word_enc.
  - change 22 with (Z.of_nat 22). apply word_enc; [|done]. unfold uctx_words.
    rewrite lookup_app_r by (cbn; lia). cbn [length]. rewrite lookup_app_r by lia.
    by replace (22 - 6 - length (j_uctx j))%nat with O by lia.
  - apply list_eq. intros i. destruct (decide (i < 31)%nat) as [Hi|Hi].
    + rewrite list_lookup_fmap, lookup_seq_lt by done. cbn [fmap option_fmap option_map].
      destruct (lookup_lt_is_Some_2 g i) as [r Hr]; [lia|]. rewrite Hr. f_equal.
      replace (23 + Z.of_nat (0 + i)) with (Z.of_nat (23 + i)) by lia. apply word_enc.
      * by rewrite Hl, lookup_app_l by lia.
      * exact (Forall_lookup_1 _ _ _ _ Hw Hr).
    + rewrite !lookup_ge_None_2; [done|lia|]. rewrite length_fmap, length_seq. lia.
Qed.

(** The memory that a frame for [sa] takes below its top. *)
Definition use_info (sa : SigAct) : bool := negb (Z.land (sa_flags sa) SA_SIGINFO =? 0).
Definition frame_size (sa : SigAct) : Z := 8 + (if use_info sa then sizeof_info else 0) + sizeof_uctx + 8.
Definition frame_top (t : Task) (sa : SigAct) : Z :=
  if negb (Z.land (sa_flags sa) SA_ONSTACK =? 0) && negb (onSigStack t) then ss_sp (sigstack t) else x t REG_SP.

(** A later state in which the frame, the stack pointer and the flag of the task
    are as the delivery left them. *)
Definition untouched (t1 : Task) (p1 : Proc) (lo hi : Z) (t2 : Task) (p2 : Proc) : Prop :=
  x t2 REG_SP = x t1 REG_SP /\ hasInfo t2 = hasInfo t1 /\
  forall b n, lo <= b -> 0 <= n -> b + n <= hi -> copyin (smem p2) b n = copyin (smem p1) b n.
Definition restores (t : Task) (t2 : Task) (p2 : Proc) : Prop :=
  exists t3, sigReturn t2 p2 = Done t3 /\ gpr t3 = gpr t /\ pc t3 = pc t /\ sigmask t3 = sigmask t.

Lemma x_set_eq t r v : 1 <= r <= 31 -> length (gpr t) = 31%nat -> x (set_x t r v) r = v.
Proof. intros Hr Hl. unfold x, set_x. cbn. apply vat_upd_eq. lia. Qed.
Lemma x_set_ne t r r' v : 1 <= r -> 1 <= r' -> r <> r' -> x (set_x t r v) r' = x t r'.
Proof. intros. unfold x, set_x. cbn. apply vat_upd_ne; lia. Qed.

Definition info_size (sa : SigAct) : Z := if use_info sa then sizeof_info else 0.
(** The optional siginfo of a frame. *)
Lemma info_push (u : U) base sa iw :
  zlen iw = 16 -> info_size sa <= base < 2 ^ 64 -> mapped u (base - info_size sa) (info_size sa) ->
  exists pinfo u', (if use_info sa then let* (a, u) := push u base (enc iw) in Done (a, a, u) else Done (base, 0, u)) =
      Done (base - info_size sa, pinfo, u') /\
    (use_info sa = true -> exists b, copyin u' (base - info_size sa) sizeof_info = Done b) /\
    (forall b n, mapped u b n -> mapped u' b n).
Proof.
  unfold info_size. intros Hi Hb Hm. destruct (use_info sa).
  - assert (Hz : zlen (enc iw) = sizeof_info) by (rewrite zlen_enc, Hi; done).
    destruct (push_mapped u base (enc iw)) as (u' & -> & Hc & Hk & _); [rewrite Hz; done|rewrite Hz; lia|].
    cbn. rewrite Hz in *. eexists _, u'. split; [done|]. eauto.
  - exists 0, u. replace (base - 0) with base by lia. done.
Qed.

(** The two last parts of a frame: the context and, below it, the base. *)
Lemma tail_push (u : U) a bs base :
  zlen bs = sizeof_uctx -> sizeof_uctx + 8 <= a < 2 ^ 64 -> mapped u (a - sizeof_uctx - 8) (sizeof_uctx + 8) ->
  exists u1 u2, push u a bs = Done (a - sizeof_uctx, u1) /\
    push u1 (a - sizeof_uctx) (enc [base]) = Done (a - sizeof_uctx - 8, u2) /\
    copyin u2 (a - sizeof_uctx) sizeof_uctx = Done bs /\ copyin u2 (a - sizeof_uctx - 8) 8 = Done (enc [base]) /\
    forall b n, mapped u b n -> a <= b -> copyin u2 b n = copyin u b n.
Proof.
  intros Hz Ha Hm. unfold sizeof_uctx in *.
  destruct (push_mapped u a bs) as (u1 & H1 & Hc1 & Hk1 & Hd1); [rewrite Hz; eapply law_sub; [done|lia..]|rewrite Hz; lia|].
  rewrite Hz in *. assert (Hz2 : zlen (enc [base]) = 8) by done.
  destruct (push_mapped u1 (a - 960) (enc [base])) as (u2 & H2 & Hc2 & Hk2 & Hd2);
    [rewrite Hz2; eapply law_sub; [by apply Hk1|lia..]|rewrite Hz2; lia|].
  rewrite Hz2 in *. exists u1, u2. split_and!; try done.
  - rewrite Hd2; [done|apply Hk1; eapply law_sub; [done|lia..]|lia].
  - intros b n Hn Hb. rewrite Hd2, Hd1; [done|done|lia|by apply Hk1|lia].
Qed.

(** sigReturn over the parts of a frame. *)
Lemma return_ok t2 (p2 : Proc) sa base a bs b0 m g pcv :
  hasInfo t2 = use_info sa -> is_word base -> info_size sa + sizeof_uctx <= base -> a = base - info_size sa ->
  copyin (smem p2) (x t2 REG_SP) 8 = Done (enc [base]) ->
  (use_info sa = true -> copyin (smem p2) a sizeof_info = Done b0) ->
  copyin (smem p2) (a - sizeof_uctx) sizeof_uctx = Done bs ->
  word bs 5 = m -> word bs 22 = pcv -> ((fun i => word bs (23 + Z.of_nat i)) <$> seq 0 31) = g ->
  exists t3, sigReturn t2 p2 = Done t3 /\ gpr t3 = g /\ pc t3 = pcv /\ sigmask t3 = m.
Proof.
  intros Hi Hb Hs -> Hsp Hinfo Hu Hm Hp Hg. unfold sigReturn. rewrite Hsp. cbn [obind].
  change 0 with (Z.of_nat 0). rewrite (word_enc [base] 0 base) by done. rewrite Hi. unfold info_size in *.
  assert (Hpop : forall n b, 0 <= n <= base -> copyin (smem p2) (base - n) n = Done b ->
    pop (smem p2) base n = Done (base - n, b)).
  { intros n b Hn Hc. unfold pop. destruct Hb. rewrite u64_small by lia. by rewrite Hc. }
  destruct (use_info sa).
  - rewrite (Hpop _ b0); [|unfold sizeof_info, sizeof_uctx in *; lia|auto]. cbn [obind]. unfold pop. destruct Hb.
    rewrite u64_small by (unfold sizeof_info, sizeof_uctx in *; lia). rewrite Hu. cbn. eauto.
  - replace (base - 0) with base in * by lia. cbn [obind]. rewrite (Hpop _ bs); [|unfold sizeof_uctx in *; lia|done].
    cbn. eauto.
Qed.

Lemma enter_regs vdso t sa sig sp pinfo puctx :
  length (gpr t) = 31%nat -> let t1 := enter vdso t sa sig sp pinfo puctx in
  pc t1 = sa_handler sa /\ x t1 REG_A0 = sig /\ x t1 REG_SP = sp /\ sigmask t1 = sigmask t /\ hasInfo t1 = hasInfo t.
Proof.
  intros Hl t1. unfold t1, enter. set (b := negb _). clearbody b. unfold REG_RA, REG_SP, REG_A0, REG_A1, REG_A2.
  set (ra := if _ =? 0 then _ else _). clearbody ra.
  assert (Hr : forall y r g, x (set_regs y (gpr y) g) r = x y r) by done. rewrite !Hr.
  split; [done|]. split; [|split; [|by destruct b]].
  - destruct b; rewrite ?(x_set_ne _ _ 10) by lia; apply x_set_eq; cbn; rewrite ?length_upd; done.
  - destruct b; rewrite ?(x_set_ne _ _ 2) by lia; apply x_set_eq; cbn; rewrite ?length_upd; done.
Qed.

Lemma set_frame_ok j vdso t (p : Proc) sig sa :
  junk_ok j -> task_ok t -> 1 <= sig <= numSigs -> Z.of_nat (length (sigacts p)) = numSigs ->
  frame_size sa <= frame_top t sa < 2 ^ 64 -> mapped (smem p) (frame_top t sa - frame_size sa) (frame_size sa) ->
  exists t1 p1, set_frame j vdso t p sig sa = Done (SigRun sig, t1, p1) /\
    pc t1 = sa_handler sa /\ x t1 REG_A0 = sig /\ sigmask t1 = Z.lor (sigmask t) (sa_mask sa) /\
    forall t2 p2, untouched t1 p1 (frame_top t sa - frame_size sa) (frame_top t sa) t2 p2 -> restores t t2 p2.
Proof.
  intros Hj [] Hsig Hacts Htop Hmap. unfold set_frame. fold (frame_top t sa) (use_info sa).
  set (top := frame_top t sa) in *. assert (Hz : zlen (enc [0]) = 8) by done.
  assert (Hfs : frame_size sa = 16 + info_size sa + sizeof_uctx) by (unfold frame_size, info_size; lia).
  assert (Hi0 : 0 <= info_size sa) by (unfold info_size, sizeof_info; destruct (use_info sa); lia).
  assert (Hc0 : 0 <= sizeof_uctx) by done.
  destruct (push_mapped (smem p) top (enc [0])) as (u1 & -> & _ & Hm1 & _); [eapply law_sub; [done|lia..]|lia|].
  rewrite Hz. cbn [obind].
  destruct (lookup_lt_is_Some_2 (siginfos t) (Z.to_nat (sig - 1))) as [old Hold]; [lia|].
  assert (aget (siginfos t) (sig - 1) = Done old) as ->.
  { unfold aget. destruct (Z.ltb_spec (sig - 1) 0); [lia|]. by rewrite Hold. }
  assert (Hiw : zlen (default (new_info j sig) old) = 16).
  { destruct old as [l|]; cbn; [by eapply tk_info0|]. destruct Hj as (Hj & _). unfold new_info, zlen in *. cbn [length]. lia. }
  cbn [obind].
  destruct (info_push u1 (top - 8) sa (default (new_info j sig) old)) as (pinfo & u2 & -> & Hinfo & Hm2);
    [done|lia|eapply law_sub; [by apply Hm1|lia..]|].
  cbn [obind]. rewrite aset_upd by lia. cbn [obind].
  set (st := if negb _ && _ then _ else _).
  pose proof (uctx_len j st (sigmask t) (gpr t) (pc t) Hj tk_gpr0) as Hul.
  destruct (tail_push u2 (top - 8 - info_size sa) (enc (uctx_words j st (sigmask t) (gpr t) (pc t))) (top - 8))
    as (u3 & u4 & H3 & H4 & Hcu & Hcb & Hd4); [done|lia|eapply law_sub; [by apply Hm2, Hm1|lia..]|].
  rewrite H3. cbn [obind]. rewrite H4. cbn [obind].
  assert (exists acts, (if negb (Z.land (sa_flags sa) SA_RESETHAND =? 0) then aset (sigacts p) (sig - 1) None
      else Done (sigacts p)) = Done acts) as [acts ->].
  { destruct (negb (Z.land (sa_flags sa) SA_RESETHAND =? 0)); [rewrite aset_upd by lia|]; by eexists. }
  cbn [obind]. eexists _, _. split; [reflexivity|]. set (t0 := set_info _ _ _).
  destruct (enter_regs vdso t0 sa sig (top - 8 - info_size sa - sizeof_uctx - 8) pinfo (top - 8 - info_size sa - sizeof_uctx))
    as (Hpc & Ha0 & Hsp & Hmask & Hhi); [done|].
  split; [done|]. split; [done|]. split; [by rewrite Hmask|]. intros t2 p2 (Hsp2 & Hhi2 & Hmem). cbn [smem] in Hmem.
  destruct (uctx_get j st (sigmask t) (gpr t) (pc t) Hj) as (Hw5 & Hw22 & Hwg); [done..|].
  rewrite Hhi in Hhi2. rewrite Hsp in Hsp2.
  assert (Hib : exists b0, use_info sa = true -> copyin (smem p2) (top - 8 - info_size sa) sizeof_info = Done b0).
  { destruct (use_info sa) eqn:Hui; [|by exists []]. destruct (Hinfo eq_refl) as [b0 Hb0]. exists b0. intros _.
    assert (info_size sa = sizeof_info) as Hie by (unfold info_size; by rewrite Hui). rewrite <- Hie in Hb0 |- *.
    rewrite Hmem by lia. rewrite Hd4; [done|apply Hm2, Hm1; eapply law_sub; [done|lia..]|lia]. }
  destruct Hib as [b0 Hib].
  apply (return_ok t2 p2 sa (top - 8) (top - 8 - info_size sa)
    (enc (uctx_words j st (sigmask t) (gpr t) (pc t))) b0); try done; try lia.
  - unfold is_word. lia.
  - rewrite Hsp2. rewrite Hmem by lia. done.
  - rewrite Hmem by lia. done.
Qed.

Lemma first_signal_spec n i pending mask sig :
  first_signal n i pending mask = sig -> sig <> 0 -> 1 <= i -> i <= sig < i + Z.of_nat n /\
    Z.testbit pending (sig - 1) = true /\ Z.testbit mask (sig - 1) = false.
Proof.
  revert i. induction n as [|n IH]; intros i; cbn [first_signal]; [lia|].
  destruct (Z.testbit pending (i - 1)) eqn:Hp, (Z.testbit mask (i - 1)) eqn:Hm; cbn [andb negb]; intros Hs H0 Hi.
  1,3,4: destruct (IH (i + 1) Hs H0) as (? & ? & ?); [lia|]; split_and!; [lia|lia|done|done].
  subst i. split_and!; [lia|lia|done|done].
Qed.

(** C17. Delivering a signal to a user handler and returning from it. The signal is
    pending and not masked, has a user handler, and the frame for it (1104 bytes with a
    siginfo, 976 without) fits below the stack pointer within one page of the stack that
    is present. Then the handler is entered with the signal number in a0; and whatever it
    does to registers and memory, as long as it comes back with the stack pointer it was
    entered with, leaves its frame alone, and no other signal has been delivered to the
    task meanwhile that changed its flag hasInfo (there is one flag for all frames:
    nested_signal_breaks_return), sigReturn restores all 31 registers, the program counter
    and the signal mask. *)
Theorem signal_frame_roundtrip j vdso t (p : Proc) sig sa :
  junk_ok j -> task_ok t -> Z.of_nat (length (sigacts p)) = numSigs ->
  first_signal (Z.to_nat numSigs) 1 (sigpending t) (sigmask t) = sig -> sig <> 0 -> sig <> SIGKILL -> sig <> SIGSTOP ->
  getSigAct p (sig - 1) = Done sa -> sa_handler sa <> SIG_ERR -> sa_handler sa <> SIG_DFL -> sa_handler sa <> SIG_IGN ->
  frame_size sa <= frame_top t sa < 2 ^ 64 -> mapped (smem p) (frame_top t sa - frame_size sa) (frame_size sa) ->
  Z.testbit (sigpending t) (sig - 1) = true /\ Z.testbit (sigmask t) (sig - 1) = false /\
  exists t1 p1, sigHandler j vdso t p = Done (SigRun sig, t1, p1) /\ pc t1 = sa_handler sa /\ x t1 REG_A0 = sig /\
    forall t2 p2, untouched t1 p1 (frame_top t sa - frame_size sa) (frame_top t sa) t2 p2 -> restores t t2 p2.
Proof.
  intros Hj Ht Hacts Hfs H0 Hk Hst Hsa He Hd Hi Htop Hmap.
  destruct (first_signal_spec _ _ _ _ _ Hfs H0) as (Hr & Hp & Hm); [lia|]. split; [done|]. split; [done|].
  unfold sigHandler. rewrite Hfs. destruct (Z.eqb_spec sig 0); [done|]. destruct (Z.eqb_spec sig SIGKILL); [done|].
  destruct (Z.eqb_spec sig SIGSTOP); [done|]. rewrite Hsa. cbn [obind].
  destruct (Z.eqb_spec (sa_handler sa) SIG_ERR); [done|]. destruct (Z.eqb_spec (sa_handler sa) SIG_DFL); [done|].
  destruct (Z.eqb_spec (sa_handler sa) SIG_IGN); [done|].
  destruct (set_frame_ok j vdso (set_pending t (Z.land (sigpending t) (Z.lnot (2 ^ (sig - 1))))) p sig sa)
    as (t1 & p1 & Hf & Hpc & Ha0 & _ & Hret); try done; [by destruct Ht|lia|].
  exists t1, p1. split_and!; try done.
Qed.

(** The mask that sigProcMask sets: for SIG_BLOCK the union, for SIG_UNBLOCK
    the difference, for SIG_SETMASK the new set, always without SIGKILL and
    SIGSTOP; any other request and a wrong size change nothing. *)
Theorem sigProcMask_exact t how n size :
  let '(r, old, t') := sigProcMask t how (Some n) size in
  let wanted b := if how =? SIG_BLOCK then Z.testbit (sigmask t) b || Z.testbit n b
                  else if how =? SIG_UNBLOCK then Z.testbit (sigmask t) b && negb (Z.testbit n b)
                  else Z.testbit n b in
  if (size =? 8) && (0 <=? how) && (how <=? 2)
  then r = 0 /\ old = Some (sigmask t) /\
       forall b, 0 <= b -> Z.testbit (sigmask t') b = wanted b && negb ((b =? SIGKILL - 1) || (b =? SIGSTOP - 1))
  else r = - EINVAL /\ t' = t.
Proof.
  unfold sigProcMask. destruct (Z.eqb_spec size 8); cbn [negb andb]; [|done].
  assert (Hun : forall b, 0 <= b -> Z.testbit unmaskable b = (b =? SIGKILL - 1) || (b =? SIGSTOP - 1)).
  { intros b Hb. unfold unmaskable. rewrite Z.lor_spec, !Z.pow2_bits_eqb by done. f_equal; apply Z.eqb_sym. }
  destruct (Z.eqb_spec how SIG_BLOCK) as [->|H1]; [cbn|].
  { split; [done|]. split; [done|]. intros b Hb. by rewrite Z.land_spec, Z.lor_spec, Z.lnot_spec, Hun by done. }
  destruct (Z.eqb_spec how SIG_UNBLOCK) as [->|H2]; [cbn|].
  { split; [done|]. split; [done|]. intros b Hb. by rewrite !Z.land_spec, !Z.lnot_spec, Hun by done. }
  destruct (Z.eqb_spec how SIG_SETMASK) as [->|H3]; [cbn|].
  { split; [done|]. split; [done|]. intros b Hb. by rewrite Z.land_spec, Z.lnot_spec, Hun by done. }
  unfold SIG_BLOCK, SIG_UNBLOCK, SIG_SETMASK in *.
  destruct (Z.leb_spec 0 how), (Z.leb_spec how 2); cbn; try done. lia.
Qed.

Lemma sigSend_masked ts sig info :
  1 <= sig <= 64 -> Forall (fun t => Z.testbit (sigmask t) (sig - 1) = true) ts -> sigSend ts sig info = Done ts.
Proof.
  intros Hs. induction 1 as [|t ts Ht _ IH]; [done|]. cbn [sigSend]. unfold sigMaskBit.
  destruct (Z.ltb_spec (sig - 1) 0); [lia|]. destruct (Z.leb_spec 64 (sig - 1)); [lia|]. cbn [orb obind]. rewrite Ht.
  cbn [negb]. by rewrite IH.
Qed.

(** A signal sent to a process while all of its tasks mask it is lost: kill
    reports success and nothing becomes pending, so it is not delivered when it
    is unmasked. *)
Theorem masked_signal_lost procs cur pid sig ts :
  0 < pid -> procs !! pid = Some ts -> 1 <= sig <= 64 ->
  Forall (fun t => Z.testbit (sigmask t) (sig - 1) = true) ts ->
  kill procs cur pid sig = Done (RtOk 0, procs).
Proof.
  intros Hp Hts Hs Hm. unfold kill. destruct (Z.eqb_spec pid 0); [lia|]. destruct (Z.ltb_spec pid (-1)); [lia|].
  destruct (Z.ltb_spec 0 pid); [|lia]. rewrite Hts. destruct (Z.eqb_spec sig 0); [lia|].
  rewrite sigSend_masked by done. cbn. by rewrite insert_id.
Qed.

(** SIGKILL can be masked: while a handler runs whose action has SIGKILL in
    its mask, kill(pid, SIGKILL) reports success and has no effect on the (single
    threaded) process. *)
Theorem sigkill_masked_in_handler j vdso t (p : Proc) sig sa procs cur pid :
  junk_ok j -> task_ok t -> 1 <= sig <= numSigs -> Z.of_nat (length (sigacts p)) = numSigs ->
  frame_size sa <= frame_top t sa < 2 ^ 64 -> mapped (smem p) (frame_top t sa - frame_size sa) (frame_size sa) ->
  Z.testbit (sa_mask sa) (SIGKILL - 1) = true -> 0 < pid ->
  exists t1 p1, set_frame j vdso t p sig sa = Done (SigRun sig, t1, p1) /\
    kill (<[pid := [t1]]> procs) cur pid SIGKILL = Done (RtOk 0, <[pid := [t1]]> procs).
Proof.
  intros Hj Ht Hsig Hacts Htop Hmap Hmask Hpid.
  destruct (set_frame_ok j vdso t p sig sa) as (t1 & p1 & Hf & _ & _ & Hm & _); try done.
  exists t1, p1. split; [done|]. unfold kill. destruct (Z.eqb_spec pid 0); [lia|]. destruct (Z.ltb_spec pid (-1)); [lia|].
  destruct (Z.ltb_spec 0 pid); [|lia]. rewrite lookup_insert_eq. change (SIGKILL =? 0) with false. cbv iota.
  rewrite sigSend_masked; [cbn; by rewrite insert_insert_eq|unfold SIGKILL; lia|].
  apply Forall_singleton. by rewrite Hm, Z.lor_spec, Hmask, orb_true_r.
Qed.

(** The system call that returns from a handler does not restore a0: what
    sigReturn put there is overwritten by the result 0 of the call, so a program
    interrupted by a signal goes on with a0 = 0. *)
Theorem sigreturn_clobbers_a0 (p : Proc) t t3 :
  x t REG_A7 = 139 -> sigReturn t p = Done t3 -> length (gpr t3) = 31%nat ->
  exists t4, uecallHandler (fun id => if id =? 139 then Some (sys_sigReturn p) else None) t = Done t4 /\
    x t4 REG_A0 = 0 /\ pc t4 = pc t3 /\ forall r, 1 <= r -> r <> REG_A0 -> x t4 r = x t3 r.
Proof.
  intros Ha7 Hr Hl. unfold uecallHandler. rewrite Ha7. change (i32 139) with 139. cbn -[sys_sigReturn].
  unfold sys_sigReturn. set (t' := set_regs _ _ _).
  assert (sigReturn t' p = Done t3) as ->; [exact Hr|]. cbn [obind]. eexists. split; [done|].
  split; [by apply x_set_eq; [unfold REG_A0; lia|]|]. split; [done|]. intros r Hr1 Hr2. apply x_set_ne; [done|done|congruence].
Qed.
End Frames.

(** ** A concrete process: the flat memory, a handler for SIGUSR1 (10) *)
Lemma flat_copyin (u : list Z) a n : 0 <= a -> a + n <= zlen u -> copyin u a n = Done (slice u a n).
Proof. intros. cbn. destruct (Z.leb_spec 0 a); [|lia]. by destruct (Z.leb_spec (a + n) (zlen u)); [|lia]. Qed.
#[global] Program Instance flat_laws : UserMemLaws (list Z) := {| mapped u a n := 0 <= a /\ a + n <= zlen u |}.
Next Obligation. cbn. intros. lia. Qed.
Next Obligation.
  intros u a bs [Ha Hb]. exists (splice u a bs). assert (Hl : zlen (splice u a bs) = zlen u) by by apply splice_length.
  split; [|split; [|split]].
  - cbn. destruct (Z.leb_spec 0 a); [|lia]. by destruct (Z.leb_spec (a + zlen bs) (zlen u)); [|lia].
  - rewrite flat_copyin by lia. f_equal. apply slice_splice. unfold zlen in *. lia.
  - intros b n. by rewrite Hl.
  - intros b n _ Hd. destruct (Z.le_gt_cases 0 n) as [Hn|Hn].
    2:{ cbn. rewrite Hl. destruct (Z.leb_spec 0 b), (Z.leb_spec (b + n) (zlen u)); try done. cbn. unfold slice.
        by replace (Z.to_nat n) with 0%nat by lia. }
    cbn. rewrite Hl. destruct (Z.leb_spec 0 b); [|done].
    destruct (Z.leb_spec (b + n) (zlen u)); [|done]. cbn. f_equal. apply list_vat_eq; [rewrite !slice_length; lia|].
    intros i Hi. rewrite slice_length in Hi by lia. rewrite !vat_slice, vat_splice by lia.
    rewrite decide_False by lia. done.
Qed.
(** Memory behind a translation of pages to frames, read like VMAR::copyin: from the
    frame of the first byte on. *)
Record PMem : Type := mkPMem { frame : Z -> option Z; phys : Z -> Z }.
Definition paddr (u : PMem) (a : Z) : option Z := (fun f => f * 4096 + a mod 4096) <$> frame u (a / 4096).
#[global] Instance paged_mem : UserMem PMem := {|
  copyin u a n := if n <=? 0 then Done [] else
    match paddr u a with Some p => Done (phys u <$> seqZ p n) | None => Panic end;
  copyinstr u a n := Panic;
  copyout u a bs := if zlen bs <=? 0 then Done u else
    match paddr u a with
    | Some p => Done (mkPMem (frame u) (fun y => if (p <=? y) && (y <? p + zlen bs) then vat bs (y - p) else phys u y))
    | None => Panic
    end |}.
Definition in_page (u : PMem) (a n : Z) : Prop :=
  0 <= n /\ (n = 0 \/ (a mod 4096 + n <= 4096 /\ is_Some (frame u (a / 4096)))) /\
  forall p q f, frame u p = Some f -> frame u q = Some f -> p = q.
Lemma page_split a k : 0 <= k -> a mod 4096 + k < 4096 -> (a + k) / 4096 = a / 4096 /\ (a + k) mod 4096 = a mod 4096 + k.
Proof.
  intros Hk Hb. pose proof (Z.mod_pos_bound a 4096 ltac:(lia)). pose proof (Z.div_mod a 4096 ltac:(lia)) as E.
  split; symmetry; [apply (Z.div_unique_pos _ _ _ (a mod 4096 + k))|apply (Z.mod_unique_pos _ _ (a / 4096))]; lia.
Qed.
#[global] Program Instance paged_laws : UserMemLaws PMem := {| mapped := in_page |}.
Next Obligation.
  intros u a n b m (Hn & Hp & Hi) Hb Hm He. split; [done|]. split; [|done]. destruct Hp as [->|[Hp Hf]]; [left; lia|].
  destruct (decide (m = 0)) as [|Hm0]; [by left|right]. destruct (page_split a (b - a)) as [E1 E2]; [lia..|].
  replace (a + (b - a)) with b in * by lia. rewrite E1, E2. split; [lia|done].
Qed.
Next Obligation.
  intros u a bs (Hn & Hp & Hi). cbn [copyin copyout paged_mem]. destruct (Z.leb_spec (zlen bs) 0) as [Hz|Hz].
  { exists u. split; [done|]. destruct bs; [done|unfold zlen in Hz; cbn in Hz; lia]. }
  destruct Hp as [?|[Hp [f Hf]]]; [lia|]. unfold paddr. rewrite Hf. cbn [fmap option_fmap option_map]. eexists. split; [reflexivity|].
  cbn [frame phys]. rewrite Hf. cbn. set (p := f * 4096 + a mod 4096). split; [|split; [done|]].
  - f_equal. apply list_vat_eq; [unfold zlen; rewrite length_fmap, length_seqZ; unfold zlen in *; lia|].
    intros i Hl. unfold zlen in Hl at 1. rewrite length_fmap, length_seqZ in Hl. unfold vat at 1. rewrite list_lookup_fmap, lookup_seqZ_lt by lia. cbn.
    replace (p + Z.of_nat (Z.to_nat i)) with (p + i) by lia.
    destruct (Z.leb_spec p (p + i)); [|lia]. destruct (Z.ltb_spec (p + i) (p + zlen bs)); [|lia]. cbn. by replace (p + i - p) with i by lia.
  - intros b n (Hn' & Hb & _) Hd. destruct (Z.leb_spec n 0); [done|]. destruct Hb as [?|[Hb [g Hg]]]; [lia|]. rewrite Hg. cbn. f_equal.
    apply list_fmap_ext. intros i y Hy. apply lookup_seqZ in Hy as [-> Hy]. pose proof (Z.mod_pos_bound a 4096 ltac:(lia)). pose proof (Z.mod_pos_bound b 4096 ltac:(lia)).
    destruct (Z.leb_spec p (g * 4096 + b mod 4096 + Z.of_nat i)), (Z.ltb_spec (g * 4096 + b mod 4096 + Z.of_nat i) (p + zlen bs)); try done. exfalso. subst p.
    assert (f = g) as <- by lia. pose proof (Hi _ _ _ Hf Hg) as Ep.
    pose proof (Z.div_mod a 4096 ltac:(lia)). pose proof (Z.div_mod b 4096 ltac:(lia)). lia.
Qed.

Definition ex_sa : SigAct := mkSigAct 4096 SA_SIGINFO 0 256.
Definition ex_acts : list (option SigAct) := <[9%nat := Some ex_sa]> (replicate 64 None).
Definition ex_sproc : SProc (list Z) := mkSProc ex_acts (replicate 3000 0).
Definition ex_t : Task :=
  mkTask ([7; 2000] ++ replicate 29 5) 300 0 512 (replicate 64 None) (mkSigStack 0 0 0) false.
Definition ex_j : junk := mkJunk (replicate 14 1) (replicate 16 1) (replicate 66 1).
Lemma ex_junk_ok : junk_ok ex_j.
Proof. done. Qed.
Lemma ex_task_ok : task_ok ex_t.
Proof.
  constructor; try done.
  - cbn. repeat constructor; lia.
  - intros i l Hi. apply lookup_replicate in Hi as [[=] _].
Qed.
Definition ex_run : Task * SProc (list Z) :=
  match sigHandler ex_j 9 ex_t ex_sproc with Done (_, t, p) => (t, p) | _ => (ex_t, ex_sproc) end.
Lemma signal_frame_roundtrip_witness :
  exists t1 p1, sigHandler ex_j 9 ex_t ex_sproc = Done (SigRun 10, t1, p1) /\ pc t1 = 4096 /\ x t1 REG_A0 = 10 /\
    restores ex_t t1 p1.
Proof.
  destruct (signal_frame_roundtrip ex_j 9 ex_t ex_sproc 10 ex_sa) as (_ & _ & t1 & p1 & Hh & Hpc & Ha & Hr);
    [apply ex_junk_ok|apply ex_task_ok|reflexivity|reflexivity|discriminate|discriminate|discriminate|reflexivity|
     discriminate|discriminate|discriminate|vm_compute; split; discriminate || reflexivity|
     vm_compute; split; discriminate|].
  exists t1, p1. split; [exact Hh|]. split; [exact Hpc|]. split; [exact Ha|]. apply Hr. repeat split.
Defined.
(** A handler for SIGUSR1 (10) with SA_SIGINFO is interrupted by SIGUSR2 (12), whose handler has
    no siginfo and masks nothing; both return at once. *)
Definition ex_nested : outcome (Task * Task) :=
  let p := mkSProc (<[11%nat := Some (mkSigAct 8192 0 0 0)]> ex_acts) (replicate 6000 0) in
  let t := set_regs ex_t ([7; 5000] ++ replicate 29 5) 300 in
  let* (_, t1, p) := sigHandler ex_j 9 t p in
  let* t1' := sigSend_task t1 12 None in
  let* (_, t2, p) := sigHandler ex_j 9 t1' p in
  let* t2 := sigReturn t2 p in
  let* t3 := sigReturn t2 p in
  Done (t2, t3).
Lemma masked_signal_lost_witness :
  kill {[4 := [set_mask ex_t 512]]} 3 4 10 = Done (RtOk 0, {[4 := [set_mask ex_t 512]]}).
Proof.
  apply (masked_signal_lost {[4 := [set_mask ex_t 512]]} 3 4 10 [set_mask ex_t 512]);
    [lia|reflexivity|lia|repeat constructor].
Defined.
Lemma sigkill_masked_in_handler_witness :
  exists t1 p1, set_frame ex_j 9 ex_t ex_sproc 10 ex_sa = Done (SigRun 10, t1, p1) /\
    kill {[4 := [t1]]} 3 4 SIGKILL = Done (RtOk 0, {[4 := [t1]]}).
Proof.
  apply (sigkill_masked_in_handler ex_j 9 ex_t ex_sproc 10 ex_sa ∅ 3 4);
    [apply ex_junk_ok|apply ex_task_ok|unfold numSigs; lia|reflexivity|vm_compute; split; discriminate || reflexivity|
     vm_compute; split; discriminate|reflexivity|lia].
Defined.
Definition ex_t17 : Task := set_x (fst ex_run) REG_A7 139.
Definition ex_t3 : Task := match sigReturn ex_t17 (snd ex_run) with Done t => t | _ => ex_t end.
Lemma sigreturn_clobbers_a0_witness :
  exists t4, uecallHandler (fun id => if id =? 139 then Some (sys_sigReturn (snd ex_run)) else None) ex_t17 = Done t4 /\
    x t4 REG_A0 = 0 /\ pc t4 = pc ex_t3 /\ forall r, 1 <= r -> r <> REG_A0 -> x t4 r = x ex_t3 r.
Proof. apply (sigreturn_clobbers_a0 (snd ex_run) ex_t17 ex_t3); vm_compute; reflexivity. Defined.
End Signal.
