(* ===== verification/Syscall.v ===== *)
(** * Syscall: the table of system calls and the calls of kernel/syscall.cc

    syscall::init fills an array of handlers indexed by the numbers of include/sys.hh;
    uecallHandler ([Signal]) looks the number up. A handler is named here by a
    constructor; what the handlers do is in the files of their parts. *)

From S2P Require Import Prelude Bytes Path Vfs File FileSys Signal.
Local Open Scope Z_scope.

Module Syscall.
Import FileSys Signal.

(** The functions that init() enters. *)
Inductive handler : Type :=
| sc_testFATInit | sc_reboot1 | sc_getCwd | sc_dup | sc_dup3 | sc_fCntl | sc_ioCtl | sc_mkDirAt
| sc_linkAt | sc_unlinkAt | sc_symLinkAt | sc_umount2 | sc_mount | sc_statFS | sc_fAccessAt
| sc_chDir | sc_fChDir | sc_fChMod | sc_fChModAt | sc_fChOwnAt | sc_fChOwn | sc_openAt | sc_close
| sc_pipe2 | sc_getDents64 | sc_lSeek | sc_read | sc_write | sc_readv | sc_writev | sc_sendFile
| sc_pselect | sc_pPoll | sc_readLinkAt | sc_fStatAt | sc_fStat | sc_sync | sc_exit | sc_exitGroup
| sc_setTidAddress | sc_futex | sc_nanoSleep | sc_clock_gettime | sc_sysyield | sc_kill | sc_tkill
| sc_sigAction | sc_sigProcMask | sc_sigReturn | sc_setGid | sc_setUid | sc_getRESgid
| sc_getRESuid | sc_setPGid | sc_getPGid | sc_getSid | sc_setSid | sc_getGroups | sc_setGroups
| sc_times | sc_uName | sc_getRLimit | sc_setRLimit | sc_getrusage | sc_uMask | sc_gettimeofday
| sc_getPid | sc_getPPid | sc_getUid | sc_getEuid | sc_getGid | sc_getEgid | sc_getTid | sc_brk
| sc_munmap | sc_mremap | sc_clone | sc_execve | sc_mmap | sc_mprotect | sc_mlock | sc_munlock
| sc_madvise | sc_wait | sc_syncFS | sc_membarrier.

(** The DECLSYSCALL lines of init(), in their order. *)
Definition decls : list (Z * handler) :=
  [(7, sc_testFATInit); (142, sc_reboot1); (17, sc_getCwd); (23, sc_dup); (24, sc_dup3);
   (25, sc_fCntl); (29, sc_ioCtl); (34, sc_mkDirAt); (37, sc_linkAt); (35, sc_unlinkAt);
   (36, sc_symLinkAt); (39, sc_umount2); (40, sc_mount); (43, sc_statFS); (48, sc_fAccessAt);
   (49, sc_chDir); (50, sc_fChDir); (52, sc_fChMod); (53, sc_fChModAt); (54, sc_fChOwnAt);
   (55, sc_fChOwn); (56, sc_openAt); (57, sc_close); (59, sc_pipe2); (61, sc_getDents64);
   (62, sc_lSeek); (63, sc_read); (64, sc_write); (65, sc_readv); (66, sc_writev);
   (71, sc_sendFile); (72, sc_pselect); (73, sc_pPoll); (78, sc_readLinkAt); (79, sc_fStatAt);
   (80, sc_fStat); (81, sc_sync); (93, sc_exit); (94, sc_exitGroup); (96, sc_setTidAddress);
   (98, sc_futex); (101, sc_nanoSleep); (113, sc_clock_gettime); (124, sc_sysyield);
   (129, sc_kill); (130, sc_tkill); (134, sc_sigAction); (135, sc_sigProcMask);
   (139, sc_sigReturn); (144, sc_setGid); (146, sc_setUid); (150, sc_getRESgid);
   (148, sc_getRESuid); (154, sc_setPGid); (155, sc_getPGid); (156, sc_getSid); (157, sc_setSid);
   (158, sc_getGroups); (159, sc_setGroups); (153, sc_times); (160, sc_uName); (163, sc_getRLimit);
   (164, sc_setRLimit); (165, sc_getrusage); (166, sc_uMask); (169, sc_gettimeofday);
   (172, sc_getPid); (173, sc_getPPid); (174, sc_getUid); (175, sc_getEuid); (176, sc_getGid);
   (177, sc_getEgid); (178, sc_getTid); (214, sc_brk); (215, sc_munmap); (216, sc_mremap);
   (220, sc_clone); (221, sc_execve); (222, sc_mmap); (226, sc_mprotect); (228, sc_mlock);
   (229, sc_munlock); (233, sc_madvise); (260, sc_wait); (267, sc_syncFS); (283, sc_membarrier)].

(** init(): syscallPtrs starts out as zeros and has nSyscalls entries. *)
Definition declare (ptrs : list (option handler)) (d : Z * handler) : outcome (list (option handler)) :=
  aset ptrs (fst d) (Some (snd d)).
Fixpoint declare_all (ds : list (Z * handler)) (ptrs : list (option handler)) : outcome (list (option handler)) :=
  match ds with [] => Done ptrs | d :: ds => let* p := declare ptrs d in declare_all ds p end.
Definition init : outcome (list (option handler)) :=
  declare_all decls (replicate (Z.to_nat nSyscalls) None).

(** ** The calls of the file itself *)

Definition EFAULT : Z := 14.
Definition statcode_ok : Z := 0.
Definition statcode_err : Z := -1.

(** KernelInfo::utsname: five names of 65 bytes. *)
Definition pad65 (s : list Z) : list Z := s ++ replicate (65 - length s) 0.
Definition uts : list (list Z) :=
  [pad65 [76; 117; 111; 79; 83]; pad65 [48]; pad65 [53; 46; 48; 46; 48]; pad65 [35; 49];
   pad65 [82; 73; 83; 67; 86; 45; 54; 52]].

Section Calls.
Context {U : Type} `{!UserMem U}.

Definition uName (u : U) (a_uts : Z) : outcome (sysrt * U) :=
  if a_uts =? 0 then Done (rt (- EFAULT), u)
  else let* u := copyout u a_uts (concat uts) in Done (rt statcode_ok, u).
End Calls.

(** reboot1 ends in sbi_shutdown for the power-off command. *)
Definition reboot1 (magic magic2 cmd : Z) : outcome sysrt :=
  if negb ((u32 magic =? 4276215469) && (magic2 =? 672274793)) then Done (rt (-1))
  else if cmd =? 1126301404 then Panic else Done (rt statcode_err).
Definition syncFS : sysrt := rt statcode_ok.
Definition membarrier (cmd flags : Z) : sysrt := rt 0.

(** ** The table *)

Lemma declare_all_spec ds ptrs :
  NoDup ds.*1 -> Forall (fun d => 0 <= fst d < Z.of_nat (length ptrs)) ds ->
  exists p, declare_all ds ptrs = Done p /\ length p = length ptrs /\
    (forall n h, (n, h) ∈ ds -> p !! Z.to_nat n = Some (Some h)) /\
    (forall n, 0 <= n -> n ∉ ds.*1 -> p !! Z.to_nat n = ptrs !! Z.to_nat n).
Proof.
  revert ptrs. induction ds as [|[m f] ds IH]; intros ptrs Hn Hr; cbn [declare_all].
  - exists ptrs. split_and!; try done. by intros n h ?%elem_of_nil.
  - cbn in Hn. apply NoDup_cons in Hn as [Hm Hn]. apply Forall_cons in Hr as [H0 Hr]. cbn in H0.
    unfold declare. cbn [fst snd]. rewrite aset_upd by lia. cbn [obind].
    destruct (IH (upd ptrs m (Some f)) Hn) as (p & E & Hl & Hi & Ho).
    { by rewrite length_upd. }
    rewrite length_upd in Hl. exists p. split_and!; [done|done|..].
    + intros n h [[= -> ->]|Hin]%elem_of_cons; [|by apply Hi].
      rewrite Ho by (done || lia). unfold upd. apply list_lookup_insert_eq. lia.
    + intros n Hp Hne. cbn in Hne. apply not_elem_of_cons in Hne as [Hne Hnin]. rewrite Ho by done.
      unfold upd. apply list_lookup_insert_ne. rewrite Forall_forall in Hr. lia.
Qed.
Lemma decls_nodup : NoDup decls.*1.
Proof. apply (bool_decide_unpack _). vm_compute. exact I. Qed.
Lemma decls_range : Forall (fun d => 0 <= fst d < 284) decls.
Proof. repeat (constructor; [cbn; lia|]). constructor. Qed.

(** syscallPtrs[n]. *)
Definition entry (p : list (option handler)) (n : Z) : option handler :=
  match p !! Z.to_nat n with Some h => h | None => None end.

(** C32. The table of system calls: init() stays within the array and installs every
    declared handler under its number, none of them over another; uecallHandler then runs
    for each declared number exactly that handler and puts its result into a0 behind the
    ecall instruction; a number from 0 to nSyscalls-1 that is not declared only moves the
    program counter, a number from nSyscalls on gives 1, and a negative one reads in front
    of the table, which the language leaves undefined. *)
Theorem syscall_dispatch (sem : handler -> Task -> outcome (sysrt * Task)) (t : Task) :
  exists p, init = Done p /\ length p = Z.to_nat nSyscalls /\
    let calls := fun n => sem <$> entry p n in
    let id := i32 (x t REG_A7) in
    let t' := set_regs t (gpr t) (u64 (pc t + 4)) in
    (forall h, (id, h) ∈ decls ->
       uecallHandler calls t = let* (r, t1) := sem h t' in Done (set_x t1 REG_A0 (rtval r))) /\
    (0 <= id < nSyscalls -> id ∉ decls.*1 -> uecallHandler calls t = Done t') /\
    (nSyscalls <= id -> uecallHandler calls t = Done (set_x t' REG_A0 1)) /\
    (id < 0 -> uecallHandler calls t = Undef).
Proof.
  destruct (declare_all_spec decls (replicate (Z.to_nat nSyscalls) None) decls_nodup) as (p & E & Hl & Hi & Ho).
  { rewrite length_replicate. exact decls_range. }
  rewrite length_replicate in Hl. exists p. split; [exact E|]. split; [done|]. cbn zeta.
  unfold uecallHandler. split_and!.
  - intros h Hh. pose proof decls_range as Hr. rewrite Forall_forall in Hr. pose proof (Hr _ Hh) as Hb. cbn in Hb.
    unfold nSyscalls. destruct (Z.ltb_spec (i32 (x t REG_A7)) 284); [|lia].
    destruct (Z.ltb_spec (i32 (x t REG_A7)) 0); [lia|]. unfold entry. by rewrite (Hi _ _ Hh).
  - intros Hb Hn. destruct (Z.ltb_spec (i32 (x t REG_A7)) nSyscalls); [|lia].
    destruct (Z.ltb_spec (i32 (x t REG_A7)) 0); [lia|]. unfold entry. rewrite (Ho _ (proj1 Hb) Hn).
    rewrite lookup_replicate_2; [done|]. lia.
  - intros Hb. destruct (Z.ltb_spec (i32 (x t REG_A7)) nSyscalls); [lia|done].
  - intros Hb. unfold nSyscalls. destruct (Z.ltb_spec (i32 (x t REG_A7)) 284); [|lia].
    destruct (Z.ltb_spec (i32 (x t REG_A7)) 0); [done|lia].
Qed.

(** A negative number in a7 reads the table out of bounds. *)
Theorem negative_syscall_undefined calls (t : Task) :
  i32 (x t REG_A7) < 0 -> uecallHandler calls t = Undef.
Proof.
  intros H. unfold uecallHandler, nSyscalls. destruct (Z.ltb_spec (i32 (x t REG_A7)) 284); [|lia].
  destruct (Z.ltb_spec (i32 (x t REG_A7)) 0); [done|lia].
Qed.

(** uname writes its five names, one every 65 bytes, and nothing else: a sixth field
    (domainname) of the caller's structure keeps what it had. *)
Theorem uname_fields {U} `{!UserMem U} `{!UserMemLaws U} (u : U) a :
  a <> 0 -> mapped u a 325 ->
  exists u', uName u a = Done (rt 0, u') /\ copyin u' a 325 = Done (concat uts) /\
    (forall b n, mapped u b n -> b + n <= a \/ a + 325 <= b -> copyin u' b n = copyin u b n).
Proof.
  intros Ha Hm. unfold uName. destruct (Z.eqb_spec a 0); [done|].
  destruct (law_out u a (concat uts)) as (u' & -> & Hi & _ & Hd); [done|]. cbn [obind].
  exists u'. split; [done|]. split; [exact Hi|exact Hd].
Qed.

(** getpid (172) with a handler that answers 41. *)
Definition ex_caller : Task := set_x ex_t 17 172.
Definition ex_sem (h : handler) (t : Task) : outcome (sysrt * Task) :=
  Done (match h with sc_getPid => rt 41 | _ => rt 0 end, t).
Lemma syscall_dispatch_witness :
  exists p, init = Done p /\ exists t, uecallHandler (fun n => ex_sem <$> entry p n) ex_caller = Done t /\
    x t REG_A0 = 41 /\ pc t = 304.
Proof.
  destruct (syscall_dispatch ex_sem ex_caller) as (p & E & _ & H & _). exists p. split; [done|].
  assert (i32 (x ex_caller REG_A7) = 172) as E7 by by vm_compute. rewrite E7 in H.
  specialize (H sc_getPid (list_elem_of_lookup_2 decls 66 (172, sc_getPid) eq_refl)).
  rewrite H. eexists. split; [reflexivity|]. split; vm_compute; reflexivity.
Defined.

End Syscall.
