(* ===== verification/Futex.v ===== *)
(** * Futex: waiting on user words (kernel/syscall/futex.cc)

    [futexes] maps a physical address to the condition variable of the tasks
    waiting there, in the order they came. [load] reads the 32-bit word at a
    physical address, [trans] is VMAR::transaddr; both belong to the address
    space and are parameters here. *)

From S2P Require Import Prelude Klib Sched Bytes Path Vfs File FileSys.
Local Open Scope Z_scope.

Module Futex.
Import Sched FileSys.

Definition FUTEX_CMD_MASK : Z := -385.
Definition FUTEX_WAIT : Z := 0.
Definition FUTEX_WAKE : Z := 1.
Definition FUTEX_REQUEUE : Z := 3.
Definition FUTEX_CMP_REQUEUE : Z := 4.
Definition INT_MAX : Z := 2147483647.
Definition EAGAIN : Z := 11.
Definition EINVAL : Z := 22.

Record FState : Type := mkF { futexes : gmap Z condvar; fsched : Scheduler }.
Definition waiters (f : FState) (a : Z) : condvar := default [] (futexes f !! a).
Definition set_cv (f : FState) (a : Z) (w : condvar) (s : Scheduler) : FState := mkF (<[a := w]> (futexes f)) s.

(** [for(i=0;i<val;i++) cv.notify_one()]. *)
Fixpoint notify_n (n : nat) (w : condvar) (s : Scheduler) : outcome (condvar * Scheduler) :=
  match n with
  | O => Done (w, s)
  | S m => let* (w, s) := notify_one w s in notify_n m w s
  end.

Section Calls.
Context (trans : Z -> outcome Z) (load : Z -> Z).

(** FUTEX_WAKE and FUTEX_REQUEUE, the same in both functions of the file. *)
Definition wake (f : FState) (a val : Z) : outcome (Z * FState) :=
  match futexes f !! a with
  | None => Done (0, f)
  | Some w =>
      if val =? INT_MAX then
        let* (w', s) := notify_all w (fsched f) in Done (Z.of_nat (length w), set_cv f a w' s)
      else let* (w', s) := notify_n (Z.to_nat val) w (fsched f) in Done (val, set_cv f a w' s)
  end.
Definition requeue (f : FState) (a val uaddr2 : Z) : outcome (sysrt * FState) :=
  let f := set_cv f a (waiters f a) (fsched f) in
  if val =? INT_MAX then Done (RtErr EINVAL, f)
  else
    let* (w, s) := notify_n (Z.to_nat val) (waiters f a) (fsched f) in
    let* a2 := trans uaddr2 in
    Done (rt val, mkF (delete a (<[a2 := w]> (<[a := w]> (futexes f)))) s).

(** The system call. A wait returns [None]: the caller has been put to sleep and
    the call returns 0 once it runs again. With a timeout the call does not
    wait. *)
Definition futex (f : FState) (uaddr op val : Z) (timeout : bool) (uaddr2 val3 : Z)
  : outcome (option sysrt * FState) :=
  let* a := trans uaddr in
  let cmd := Z.land op FUTEX_CMD_MASK in
  if cmd =? FUTEX_WAIT then
    let f := set_cv f a (waiters f a) (fsched f) in
    if negb (load a =? val) then Done (Some (RtErr EAGAIN), f)
    else if timeout then Done (Some (rt 0), f)
    else let* (w, s) := cv_wait (waiters f a) (fsched f) in Done (None, set_cv f a w s)
  else if cmd =? FUTEX_WAKE then let* (v, f) := wake f a val in Done (Some (rt v), f)
  else if cmd =? FUTEX_CMP_REQUEUE then
    if negb (load a =? val3) then Done (Some (RtErr EAGAIN), f)
    else let* (r, f) := requeue f a val uaddr2 in Done (Some r, f)
  else if cmd =? FUTEX_REQUEUE then let* (r, f) := requeue f a val uaddr2 in Done (Some r, f)
  else Done (Some (RtErr EINVAL), f).

(** The function for callers in the kernel: errors are negative integers, and a
    wait can be bounded. [KSlept]: the caller sleeps and gets 0 once it runs
    again; [KTimed a dura]: it enters condition_variable::wait_for on the
    condition variable of [a] ([Timer] has its steps) and gets 0 afterwards. *)
Inductive kret : Type := KRet (r : Z) | KSlept | KTimed (a dura : Z).
Definition kfutex (f : FState) (uaddr op val : Z) (timeout : option Z) (uaddr2 val3 : Z) : outcome (kret * FState) :=
  let* a := trans uaddr in
  let cmd := Z.land op FUTEX_CMD_MASK in
  let requeue_int f := let* (r, f) := requeue f a val uaddr2 in
    Done (KRet (match r with RtErr e => - e | RtOk _ => val end), f) in
  if cmd =? FUTEX_WAIT then
    let f := set_cv f a (waiters f a) (fsched f) in
    if negb (load a =? val) then Done (KRet (- EAGAIN), f)
    else
      match timeout with
      | Some dura => Done (KTimed a dura, f)
      | None => let* (w, s) := cv_wait (waiters f a) (fsched f) in Done (KSlept, set_cv f a w s)
      end
  else if cmd =? FUTEX_WAKE then let* (v, f) := wake f a val in Done (KRet v, f)
  else if cmd =? FUTEX_CMP_REQUEUE then
    if negb (load a =? val3) then Done (KRet (- EAGAIN), f) else requeue_int f
  else if cmd =? FUTEX_REQUEUE then requeue_int f
  else Done (KRet (- EINVAL), f).

(** Without a timeout the two functions do the same to the waiters and return the
    same, up to the encoding of errors. *)
Definition same_ret (k : kret) (r : option sysrt) : Prop :=
  match k, r with
  | KRet v, Some (RtErr e) => v = - e
  | KRet v, Some r => r = rt v
  | KSlept, None => True
  | _, _ => False
  end.
Theorem kfutex_agrees f uaddr op val uaddr2 val3 :
  match kfutex f uaddr op val None uaddr2 val3, futex f uaddr op val false uaddr2 val3 with
  | Done (k, f1), Done (r, f2) => same_ret k r /\ f1 = f2
  | Panic, Panic | Undef, Undef | Diverge, Diverge => True
  | _, _ => False
  end.
Proof.
  assert (Hrq : forall a, match (let* (r, f) := requeue f a val uaddr2 in
      Done (KRet (match r with RtErr e => - e | RtOk _ => val end), f)),
      (let* (r, f) := requeue f a val uaddr2 in Done (Some r, f)) with
    | Done (k, f1), Done (r, f2) => same_ret k r /\ f1 = f2
    | Panic, Panic | Undef, Undef | Diverge, Diverge => True | _, _ => False end).
  { intros a. unfold requeue. destruct (val =? INT_MAX); [done|]. destruct (notify_n _ _ _) as [[w s]| | |]; try done. cbn [obind].
    by destruct (trans uaddr2). }
  unfold kfutex, futex. destruct (trans uaddr) as [a| | |]; try done. cbn [obind].
  destruct (_ =? FUTEX_WAIT); [destruct (negb _); [done|]; by destruct (cv_wait _ _) as [[w s]| | |]|].
  destruct (_ =? FUTEX_WAKE); [by destruct (wake f a val) as [[v f']| | |]|].
  destruct (_ =? FUTEX_CMP_REQUEUE); [destruct (negb _); [done|apply Hrq]|].
  by destruct (_ =? FUTEX_REQUEUE); [apply Hrq|].
Qed.

(** ** What wake does *)
Definition woken (s s' : Scheduler) (l : list Z) : Prop := wakeup_all l s = Done s'.
Lemma notify_n_spec n w s :
  notify_n n w s = let* s' := wakeup_all (take n w) s in Done (drop n w, s').
Proof.
  revert w s. induction n as [|n IH]; intros w s; cbn [notify_n]; [by rewrite take_0, drop_0|].
  destruct w as [|t w]; cbn; [rewrite IH; by rewrite take_nil, drop_nil|].
  destruct (wakeup s t) as [s'| | |]; cbn; [|done..]. by rewrite IH.
Qed.

(** FUTEX_WAKE on a list of waiters. *)
Lemma futex_wake_takes f uaddr a val timeout uaddr2 val3 s' :
  trans uaddr = Done a -> 0 <= val ->
  let n := if val =? INT_MAX then length (waiters f a) else Z.to_nat val in
  wakeup_all (take n (waiters f a)) (fsched f) = Done s' ->
  exists f', futex f uaddr FUTEX_WAKE val timeout uaddr2 val3 =
      Done (Some (rt (if bool_decide (futexes f !! a = None) then 0 else
                      if val =? INT_MAX then Z.of_nat (length (waiters f a)) else val)), f') /\
    fsched f' = s' /\ waiters f' a = drop n (waiters f a) /\ (forall b, b <> a -> waiters f' b = waiters f b).
Proof.
  intros Ht Hv n Hw. unfold futex. rewrite Ht. cbn [obind]. change (Z.land FUTEX_WAKE FUTEX_CMD_MASK) with FUTEX_WAKE.
  change (FUTEX_WAKE =? FUTEX_WAIT) with false. change (FUTEX_WAKE =? FUTEX_WAKE) with true. cbv iota. unfold wake.
  unfold waiters in Hw at 1. destruct (futexes f !! a) as [w|] eqn:Hf.
  2: { cbn [default from_option] in Hw. rewrite take_nil in Hw. injection Hw as <-. exists f. split; [done|]. split; [done|].
       unfold waiters. rewrite Hf. cbn. by rewrite drop_nil. }
  cbn [default from_option] in Hw. unfold id in Hw. assert (Hwt : waiters f a = w) by (unfold waiters; by rewrite Hf).
  unfold n in *. rewrite Hwt in *. destruct (Z.eqb_spec val INT_MAX).
  - rewrite take_ge in Hw by done. unfold notify_all. rewrite Hw. cbn [obind]. eexists. split; [done|]. split; [done|].
    unfold waiters, set_cv. cbn. rewrite lookup_insert_eq, drop_ge by done. split; [done|]. intros b Hb.
    by rewrite lookup_insert_ne by done.
  - rewrite notify_n_spec, Hw. cbn [obind]. eexists. split; [done|]. split; [done|].
    unfold waiters, set_cv. cbn. rewrite lookup_insert_eq. split; [done|]. intros b Hb. by rewrite lookup_insert_ne by done.
Qed.

(** *** Histories of waits and wakes

    [fhist f q]: the state [f] has come about from a kernel without futexes by calls of
    FUTEX_WAIT and FUTEX_WAKE at any addresses, with the rest of the kernel changing the
    scheduler between them, and [q a] are the tasks that went to sleep at [a], each behind
    the ones that were there before, less those that wakes have taken from the front: what
    a queue of arrivals would hold. *)
Definition wake_count (q : Z -> list Z) (a val : Z) : nat := if val =? INT_MAX then length (q a) else Z.to_nat val.
Definition at_addr (q : Z -> list Z) (a : Z) (l : list Z) : Z -> list Z := fun b => if decide (b = a) then l else q b.
Inductive fhist : FState -> (Z -> list Z) -> Prop :=
| fh_new s : fhist (mkF ∅ s) (fun _ => [])
| fh_sched f q s : fhist f q -> fhist (mkF (futexes f) s) q
| fh_wait f q uaddr a val timeout uaddr2 val3 f' :
    fhist f q -> trans uaddr = Done a -> futex f uaddr FUTEX_WAIT val timeout uaddr2 val3 = Done (None, f') ->
    fhist f' (at_addr q a (q a ++ [curtask (fsched f)]))
| fh_nowait f q uaddr val timeout uaddr2 val3 r f' :
    fhist f q -> futex f uaddr FUTEX_WAIT val timeout uaddr2 val3 = Done (Some r, f') -> fhist f' q
| fh_wake f q uaddr a val timeout uaddr2 val3 r f' :
    fhist f q -> trans uaddr = Done a -> futex f uaddr FUTEX_WAKE val timeout uaddr2 val3 = Done (r, f') ->
    fhist f' (at_addr q a (drop (wake_count q a val) (q a))).

Lemma waiters_set f a w s b : waiters (set_cv f a w s) b = if decide (b = a) then w else waiters f b.
Proof.
  unfold waiters, set_cv. cbn. destruct (decide (b = a)) as [->|]; [by rewrite lookup_insert_eq|by rewrite lookup_insert_ne].
Qed.
Lemma fhist_waiters f q : fhist f q -> forall b, waiters f b = q b.
Proof.
  induction 1 as [s|f q s _ IH|f q uaddr a val timeout uaddr2 val3 f' _ IH Ht E|f q uaddr val timeout uaddr2 val3 r f' _ IH E
    |f q uaddr a val timeout uaddr2 val3 r f' _ IH Ht E]; intros b.
  - done.
  - apply IH.
  - unfold futex in E. rewrite Ht in E. cbn [obind] in E. change (Z.land FUTEX_WAIT FUTEX_CMD_MASK =? FUTEX_WAIT) with true in E. cbv iota in E.
    destruct (negb _); [done|]. destruct timeout; [done|]. rewrite waiters_set, decide_True in E by done. unfold cv_wait in E.
    destruct (ksleep _) as [s'| | |]; cbn [obind] in E; try done. injection E as <-. rewrite !waiters_set. unfold at_addr.
    destruct (decide (b = a)) as [->|]; [|apply IH]. rewrite IH. done.
  - unfold futex in E. destruct (trans uaddr) as [a| | |]; cbn [obind] in E; try done.
    change (Z.land FUTEX_WAIT FUTEX_CMD_MASK =? FUTEX_WAIT) with true in E. cbv iota in E.
    assert (Hf : f' = set_cv f a (waiters f a) (fsched f)).
    { destruct (negb _); [by injection E as _ <-|]. destruct timeout; [by injection E as _ <-|].
      by destruct (cv_wait _ _) as [[w s]| | |]. }
    subst f'. rewrite waiters_set. destruct (decide (b = a)) as [->|]; apply IH.
  - unfold futex in E. rewrite Ht in E. cbn [obind] in E. change (Z.land FUTEX_WAKE FUTEX_CMD_MASK) with FUTEX_WAKE in E.
    change (FUTEX_WAKE =? FUTEX_WAIT) with false in E. change (FUTEX_WAKE =? FUTEX_WAKE) with true in E. cbv iota in E.
    unfold wake in E. unfold at_addr, wake_count. rewrite <- IH.
    destruct (futexes f !! a) as [w|] eqn:Hf.
    2: { injection E as _ <-. destruct (decide (b = a)) as [->|]; [|apply IH]. 
       assert (Hw : waiters f a = []) by exact (f_equal (default []) Hf). by rewrite Hw, drop_nil. }
    assert (Hw : waiters f a = w) by exact (f_equal (default []) Hf). rewrite Hw. destruct (val =? INT_MAX).
    + destruct (notify_all w (fsched f)) as [[w' s']| | |] eqn:En; cbn [obind] in E; try done. injection E as _ <-.
      unfold notify_all in En. destruct (wakeup_all w (fsched f)); cbn in En; try done. injection En as <- _.
      rewrite waiters_set. destruct (decide (b = a)); [by rewrite drop_ge|apply IH].
    + rewrite notify_n_spec in E. destruct (wakeup_all _ _) as [s'| | |]; cbn [obind] in E; try done. injection E as _ <-.
      rewrite waiters_set. destruct (decide (b = a)); [done|apply IH].
Qed.

(** C34. Wakes come in the order of arrival. After any history of FUTEX_WAIT and
    FUTEX_WAKE calls at any addresses, with arbitrary changes of the scheduler between them
    (requeueing and timed waits are not part of the history), FUTEX_WAKE with a count that
    is not negative wakes, of the tasks that went to sleep at the address and have not been
    woken there, those that came first, as many as asked for and in the order they came
    (INT_MAX: all of them), leaves the others waiting in their order and the waiters of
    other addresses alone, provided the scheduler can wake these tasks. The result is the
    count asked for, the number of waiters for INT_MAX, and 0 at an address that was never
    used. *)
Theorem futex_wake_fifo f q uaddr a val timeout uaddr2 val3 s' :
  fhist f q -> trans uaddr = Done a -> 0 <= val ->
  wakeup_all (take (wake_count q a val) (q a)) (fsched f) = Done s' ->
  exists f', futex f uaddr FUTEX_WAKE val timeout uaddr2 val3 =
      Done (Some (rt (if bool_decide (futexes f !! a = None) then 0 else
                      if val =? INT_MAX then Z.of_nat (length (q a)) else val)), f') /\
    fsched f' = s' /\ forall b, waiters f' b = at_addr q a (drop (wake_count q a val) (q a)) b.
Proof.
  intros Hh Ht Hv Hw. pose proof (fhist_waiters f q Hh) as Hq. unfold wake_count in *. rewrite <- !Hq in *.
  destruct (futex_wake_takes f uaddr a val timeout uaddr2 val3 s' Ht Hv Hw) as (f' & E & Es & Ea & Eo).
  exists f'. split; [done|]. split; [done|]. intros b. unfold at_addr. destruct (decide (b = a)) as [->|Hb]; [done|].
  rewrite Eo by done. apply Hq.
Qed.

(** FUTEX_REQUEUE forgets the tasks that already wait at the second address:
    they are replaced by the ones that are moved there, and no later wake of
    either address reaches them. *)
Theorem futex_requeue_forgets f uaddr uaddr2 a a2 val timeout val3 s' :
  trans uaddr = Done a -> trans uaddr2 = Done a2 -> a <> a2 -> 0 <= val < INT_MAX ->
  wakeup_all (take (Z.to_nat val) (waiters f a)) (fsched f) = Done s' ->
  exists f', futex f uaddr FUTEX_REQUEUE val timeout uaddr2 val3 = Done (Some (rt val), f') /\
    waiters f' a = [] /\ waiters f' a2 = drop (Z.to_nat val) (waiters f a) /\
    forall t, t ∈ waiters f a2 -> t ∉ waiters f a -> forall b, b = a \/ b = a2 -> t ∉ waiters f' b.
Proof.
  intros Ht Ht2 Hne Hv Hw. unfold futex. rewrite Ht. cbn [obind].
  change (Z.land FUTEX_REQUEUE FUTEX_CMD_MASK) with FUTEX_REQUEUE.
  change (FUTEX_REQUEUE =? FUTEX_WAIT) with false. change (FUTEX_REQUEUE =? FUTEX_WAKE) with false.
  change (FUTEX_REQUEUE =? FUTEX_CMP_REQUEUE) with false. change (FUTEX_REQUEUE =? FUTEX_REQUEUE) with true. cbv iota.
  unfold requeue. destruct (Z.eqb_spec val INT_MAX); [lia|].
  assert (Hs : waiters (set_cv f a (waiters f a) (fsched f)) a = waiters f a)
    by (unfold waiters, set_cv; cbn; by rewrite lookup_insert_eq).
  rewrite Hs, notify_n_spec. cbn [fsched set_cv]. rewrite Hw. cbn [obind]. rewrite Ht2. cbn [obind].
  eexists. split; [done|].
  match goal with |- waiters ?f' a = _ /\ _ => assert (H1 : waiters f' a = []);
    [|assert (H2 : waiters f' a2 = drop (Z.to_nat val) (waiters f a))] end.
  { unfold waiters. cbn. by rewrite lookup_delete_eq. }
  { unfold waiters at 1. cbn. by rewrite lookup_delete_ne, lookup_insert_eq by done. }
  split; [done|]. split; [done|]. intros t _ Hn b [->| ->]; [rewrite H1|rewrite H2]; [set_solver|].
  intros [i Hi]%list_elem_of_lookup. rewrite lookup_drop in Hi. apply Hn. by eapply list_elem_of_lookup_2.
Qed.
End Calls.

(** Tasks 3 and 4 asleep at address 8, task 5 at address 16. *)
Definition ex_s : Scheduler :=
  mkScheduler {[1 := mkScheduable 0 Running; 3 := mkScheduable 0 Pending; 4 := mkScheduable 0 Pending;
                5 := mkScheduable 0 Pending]} [[]; []] {[3; 4; 5]} 1 9 false.
Definition ex_f : FState := mkF {[8 := [3; 4]; 16 := [5]]} ex_s.
Definition ex_s1 : Scheduler := match wakeup_all [3] ex_s with Done s => s | _ => ex_s end.
(** Task 1 goes to sleep at address 8, then task 3; a wake of one task reaches task 1. *)
Definition ex_h0 : Scheduler :=
  mkScheduler {[1 := mkScheduable 0 Running; 3 := mkScheduable 0 Ready; 4 := mkScheduable 0 Ready]} [[3; 4]; []] ∅ 1 9 false.
Definition ex_wait (f : FState) : FState :=
  match futex Done (fun _ => 5) f 8 FUTEX_WAIT 5 false 0 0 with Done (None, f') => f' | _ => f end.
Definition ex_w1 : FState := ex_wait (mkF ∅ ex_h0).
Definition ex_w2 : FState := ex_wait ex_w1.
Definition ex_w3 : Scheduler := match wakeup_all [1] (fsched ex_w2) with Done s => s | _ => ex_h0 end.
Lemma futex_wake_fifo_witness :
  waiters ex_w2 8 = [1; 3] /\
  exists f', futex Done (fun _ => 5) ex_w2 8 FUTEX_WAKE 1 false 0 0 = Done (Some (rt 1), f') /\
    fsched f' = ex_w3 /\ waiters f' 8 = [3].
Proof.
  split; [vm_compute; reflexivity|].
  destruct (futex_wake_fifo Done (fun _ => 5) ex_w2
    (at_addr (at_addr (fun _ => []) 8 [curtask ex_h0]) 8 ([curtask ex_h0] ++ [curtask (fsched ex_w1)])) 8 8 1 false 0 0 ex_w3) as (f' & E & Es & Hw).
  - apply (fh_wait Done (fun _ => 5) ex_w1 (at_addr (fun _ => []) 8 [curtask ex_h0]) 8 8 5 false 0 0);
      [|reflexivity|vm_compute; reflexivity].
    apply (fh_wait Done (fun _ => 5) (mkF ∅ ex_h0) (fun _ => []) 8 8 5 false 0 0);
      [apply fh_new|reflexivity|vm_compute; reflexivity].
  - reflexivity.
  - lia.
  - vm_compute; reflexivity.
  - exists f'. split; [rewrite E; vm_compute; reflexivity|]. split; [exact Es|]. rewrite Hw. vm_compute; reflexivity.
Defined.
Lemma futex_requeue_forgets_witness :
  exists f', futex Done (fun _ => 0) ex_f 8 FUTEX_REQUEUE 1 false 16 0 = Done (Some (rt 1), f') /\
    waiters f' 8 = [] /\ waiters f' 16 = [4] /\
    forall t, t ∈ waiters ex_f 16 -> t ∉ waiters ex_f 8 -> forall b, b = 8 \/ b = 16 -> t ∉ waiters f' b.
Proof.
  apply (futex_requeue_forgets Done (fun _ => 0) ex_f 8 16 8 16 1 false 0 ex_s1);
    [reflexivity|reflexivity|lia|unfold INT_MAX; lia|vm_compute; reflexivity].
Defined.
End Futex.
