(* ===== verification/Timer.v ===== *)
(** * Timer: timed callbacks and the clock calls (include/time.hh,
    kernel/time.cc, kernel/syscall/time.cc)

    A timer keeps its events in the priority queue of [Heap]. The clock is a
    function [clk] from the number of the reading to nanoseconds: every call of
    system_clock::now takes the next reading. A callback is a plain function
    [Once f], or the closure that setInterval builds around one, which first
    enters itself again ([Every]). What the plain functions do ([run]: the
    scheduler tick, the wake-up of a sleeping task) does not touch the timer. *)

From S2P Require Import Prelude Klib Buddy Sched Bytes Heap File FileSys.
From Stdlib Require Import Sorted.
Local Open Scope Z_scope.

Module Timer.
Import Heap.

(** ** Durations *)
Definition mtickDuration : Z := 100.
Definition tickHz : Z := 50.
Definition tickDuration : Z := 1000000000 / tickHz.
(** Arithmetic on [long long] counts overflows into undefined behaviour. *)
Definition chk64 (x : Z) : outcome Z :=
  if (- 2 ^ 63 <=? x) && (x <? 2 ^ 63) then Done x else Undef.
(** duration2timespec and duration2timeval: seconds by truncation, one less for
    a negative remainder. *)
Definition duration2timespec (dura : Z) : outcome (Z * Z) :=
  let s := Z.quot dura 1000000000 in
  let s := if dura <? s * 1000000000 then s - 1 else s in
  let* b := chk64 (s * 1000000000) in
  let* r := chk64 (dura - b) in
  Done (s, r).
Definition duration2timeval (dura : Z) : outcome (Z * Z) :=
  let* (s, r) := duration2timespec dura in Done (s, Z.quot r 1000).
Definition timespec2duration (sec nsec : Z) : outcome Z :=
  let* s := chk64 (sec * 1000000000) in chk64 (s + nsec).
Definition ticks2chrono (ticks : Z) : outcome Z := chk64 (ticks * tickDuration).

(** ** The timer *)
Notation Key := (Z * Z * Z)%type.
Definition key_lt (a b : Key) : bool :=
  let '(a1, a2, a3) := a in
  let '(b1, b2, b3) := b in
  (a1 <? b1) || ((a1 =? b1) && ((a2 <? b2) || ((a2 =? b2) && (a3 <? b3)))).
Section Timer.
Context {F W : Type} (run : F -> W -> outcome W) (clk : nat -> Z).

Inductive callback : Type :=
| Once (f : F)
| Every (dura : Z) (f : F) (prior : Z).
Notation value_t := (Key * callback)%type.
(** first_less: the greater key is the smaller event. *)
Definition first_less (lhs rhs : value_t) : bool := key_lt (fst rhs) (fst lhs).
Record Timer : Type := mkTimer { events : list value_t; reads : nat; armed : option Z; world : W }.
Implicit Types (t : Timer) (e : value_t).

Definition now t : Z * Timer := (clk (reads t), mkTimer (events t) (S (reads t)) (armed t) (world t)).
Definition set_events t (l : list value_t) : Timer := mkTimer l (reads t) (armed t) (world t).
Definition mticks (ns : Z) : Z := Z.quot ns mtickDuration.
Definition key_of (tp prior : Z) : Key := (mticks tp, prior, i32 (tp - mticks tp * mtickDuration)).
Definition add t (tp : Z) (func : callback) (prior : Z) : outcome Timer :=
  let* l := pq_push first_less (events t) (key_of tp prior, func) in Done (set_events t l).
Definition setTimeout t (dura : Z) (func : callback) (prior : Z) : outcome Timer :=
  let (n, t) := now t in let* tp := chk64 (n + dura) in add t tp func prior.
Definition setInterval t (dura : Z) (func : F) (prior : Z) : outcome Timer :=
  setTimeout t dura (Every dura func prior) prior.
Definition call_f t (f : F) : outcome Timer :=
  let* w := run f (world t) in Done (mkTimer (events t) (reads t) (armed t) w).
Definition call t (func : callback) : outcome Timer :=
  match func with
  | Once f => call_f t f
  | Every dura f prior => let* t := setInterval t dura f prior in call_f t f
  end.
(** Timer::next; a queue that has run empty fails the assertion at the end. *)
Fixpoint next (fuel : nat) t : outcome Timer :=
  match fuel with
  | O => Diverge
  | S fuel =>
      if bool_decide (events t = []) then Panic
      else
        let* top := pq_top (events t) in
        let mtp := (fst top).1.1 in
        let (n, t) := now t in
        if mticks n <? mtp then Done (mkTimer (events t) (reads t) (Some (u64 mtp)) (world t))
        else
          let* l := pq_pop first_less (events t) in
          let* t := call (set_events t l) (snd top) in
          next fuel t
  end.
(** kernel.cc timerInit: the tick of the scheduler. *)
Definition timerInit (f : F) (w : W) (fuel : nat) : outcome Timer :=
  let* t := setInterval (mkTimer [] 0 None w) tickDuration f 0 in next fuel t.
End Timer.
Arguments callback F : clear implicits.
Arguments Timer F W : clear implicits.

(** ** The functions that the kernel gives to its timers

    kernel.cc enters schedule(), condition_variable::wait_for the wake-up of one
    task; condition variables are named by their address. *)
Inductive kfun : Type := KSchedule | KNotify (cv task : Z).
Notation KWorld := (gmap Z Sched.condvar * Sched.Scheduler)%type.
Definition run_k (f : kfun) (w : KWorld) : outcome KWorld :=
  match f with
  | KSchedule => let* s := Sched.schedule (snd w) in Done (fst w, s)
  | KNotify cv task =>
      match fst w !! cv with
      | None => Undef
      | Some l => let* (l, s) := Sched.notify_specific l (snd w) task in Done (<[cv := l]> (fst w), s)
      end
  end.
(** condition_variable::wait_for, up to the switch to another task. *)
Definition wait_for (clk : nat -> Z) (t : Timer kfun KWorld) (cv dura : Z) : outcome (Timer kfun KWorld) :=
  let cur := Sched.curtask (snd (world t)) in
  let* t := setTimeout clk t dura (Once (KNotify cv cur)) 1 in
  match fst (world t) !! cv with
  | None => Undef
  | Some l =>
      let* (l, s) := Sched.cv_wait l (snd (world t)) in
      Done (mkTimer (events t) (reads t) (armed t) (<[cv := l]> (fst (world t)), s))
  end.

(** ** The clock calls; [n] is the reading that the call takes *)
Section Calls.
Context {U : Type} `{UserMem U}.
Implicit Types (u : U).
Import FileSys.
Definition put_timespec u (a dura : Z) : outcome U :=
  let* (s, ns) := duration2timespec dura in copyout u a (enc [s; ns]).
Definition clock_gettime u (clockid tp n : Z) : outcome (U * sysrt) :=
  if tp =? 0 then Done (u, rt ok) else let* u := put_timespec u tp n in Done (u, rt ok).
Definition gettimeofday u (tv tz n : Z) : outcome (U * sysrt) :=
  if tv =? 0 then Done (u, rt ok) else let* u := put_timespec u tv n in Done (u, rt ok).
(** [ti]: the four counters of stats.ti. *)
Definition times u (ti : list Z) (buf n : Z) : outcome (U * sysrt) :=
  if buf =? 0 then Done (u, RtErr EFAULT) else let* u := copyout u buf (enc ti) in Done (u, rt n).
(** nanoSleep until it waits, and after it was woken; [cv] is the address of its
    local condition variable. *)
Definition nanoSleep_begin (clk : nat -> Z) u (preq cv : Z) (t : Timer kfun KWorld) : outcome (Timer kfun KWorld) :=
  let* bs := copyin u preq 16 in
  let* dura := timespec2duration (i64 (word bs 0)) (i64 (word bs 1)) in
  wait_for clk (mkTimer (events t) (reads t) (armed t) (<[cv := []]> (fst (world t)), snd (world t))) cv dura.
Definition nanoSleep_end u (prem : Z) : outcome (U * sysrt) :=
  if prem =? 0 then Done (u, rt (-1)) else let* u := put_timespec u prem 0 in Done (u, rt (-1)).
End Calls.

(** ** One call of [next] *)
Definition mtp {F} (e : Key * callback F) : Z := (fst e).1.1.
Definition key_le {F} (e e' : Key * callback F) : Prop := key_lt (fst e') (fst e) = false.
Definition is_every {F} (e : Key * callback F) : bool := match snd e with Every _ _ _ => true | Once _ => false end.
Definition func {F} (e : Key * callback F) : F := match snd e with Every _ f _ => f | Once f => f end.
(** The plain functions of a list of events, one after the other. *)
Fixpoint run_all {F W} (run : F -> W -> outcome W) (l : list (Key * callback F)) (w : W) : outcome W :=
  match l with
  | [] => Done w
  | e :: l => let* w := run (func e) w in run_all run l w
  end.
(** [e'] is [e] entered again at one of the readings [r], ..., [r'-1]. *)
Definition rearmed {F} (clk : nat -> Z) (r r' : nat) (e e' : Key * callback F) : Prop :=
  exists j d f p, (r <= j < r')%nat /\ snd e = Every d f p /\ e' = (key_of (clk j + d) p, Every d f p).

Section Proofs.
Context {F W : Type} (run : F -> W -> outcome W) (clk : nat -> Z).
Notation value_t := (Key * callback F)%type.
Implicit Types (e : value_t) (ev old new fired rest again : list value_t).

Lemma key_lt_asym (a b : Key) : key_lt a b = true -> key_lt b a = false.
Proof. destruct a as [[a1 a2] a3], b as [[b1 b2] b3]. cbn. lia. Qed.
Lemma key_lt_trans (a b c : Key) : key_lt b a = false -> key_lt c b = false -> key_lt c a = false.
Proof. destruct a as [[a1 a2] a3], b as [[b1 b2] b3], c as [[c1 c2] c3]. cbn. lia. Qed.
Lemma fl_asym e e' : first_less e e' = true -> first_less e' e = false.
Proof. apply key_lt_asym. Qed.
Lemma fl_trans e1 e2 e3 : first_less e1 e2 = false -> first_less e2 e3 = false -> first_less e1 e3 = false.
Proof. apply key_lt_trans. Qed.
Lemma key_le_mtp e e' : key_le e e' -> mtp e <= mtp e'.
Proof. destruct e as [[[a1 a2] a3] c], e' as [[[b1 b2] b3] c']. unfold key_le, mtp. cbn. lia. Qed.
Lemma mticks_mono a b : 0 <= a <= b -> mticks a <= mticks b.
Proof. intros. unfold mticks, mtickDuration. apply Z.quot_le_mono; lia. Qed.

Notation wfq := (wf (@first_less F)).
Lemma top_min ev e : wfq ev -> pq_top ev = Done e -> e ∈ ev /\ forall e', e' ∈ ev -> key_le e e'.
Proof.
  unfold pq_top, nget. intros Hw Ht. destruct (ev !! 0%nat) as [x|] eqn:E; [|done]. injection Ht as ->. split.
  - by eapply list_elem_of_lookup_2.
  - intros e' He. apply (wf_top _ fl_asym fl_trans ev e Hw E e' He).
Qed.
Lemma top_some ev : ev <> [] -> exists e, pq_top ev = Done e.
Proof. destruct ev as [|e ev]; [done|]. intros _. by exists e. Qed.

(** The state of the loop: [old] are the events of the beginning that have not
    fired, [new] those entered since, which are beyond [B]; no reading of this
    call exceeds [B]. *)
Record Loop (B : Z) (ev old new : list value_t) (r : nat) : Prop := {
  lp_wf : wfq ev;
  lp_ev : ev ≡ₚ old ++ new;
  lp_new : forall e, e ∈ new -> B < mtp e;
  lp_clk : forall j, (r <= j <= r + 2 * length old)%nat -> 0 <= clk j < 2 ^ 62 /\ mticks (clk j) <= B;
  lp_far : forall e d f p, e ∈ old -> snd e = Every d f p -> 0 <= d < 2 ^ 62 /\
    forall j, (r <= j <= r + 2 * length old)%nat -> B < mticks (clk j + d);
  lp_some : new <> [] \/ exists e, e ∈ old /\ is_every e = true
}.
(** Firing one event. *)
Lemma chk64_ok x : - 2 ^ 63 <= x < 2 ^ 63 -> chk64 x = Done x.
Proof. intros Hx. unfold chk64. rewrite (proj2 (Z.leb_le _ _)), (proj2 (Z.ltb_lt _ _)) by lia. done. Qed.
Lemma fire_once B ev ev' e f old new r :
  Loop B ev (e :: old) new r -> snd e = Once f -> wfq ev' -> ev ≡ₚ e :: ev' -> Loop B ev' old new (S r).
Proof.
  intros [L1 L2 L3 L4 L5 L6] He Hw Hp. cbn in *. split; auto.
  - apply (Permutation_cons_inv (a := e)). by rewrite <- Hp.
  - intros j Hj. apply L4. lia.
  - intros e' d f' p Hin Hs. destruct (L5 e' d f' p) as [H1 H2]; [set_solver|done|]. split; [done|]. intros j Hj. apply H2. lia.
  - destruct L6 as [?|(e' & [->|Hin]%elem_of_cons & Hev)]; [by left| |right; by exists e'].
    unfold is_every in Hev. by rewrite He in Hev.
Qed.
Lemma fire_every B ev ev' e d f p old new r :
  Loop B ev (e :: old) new r -> snd e = Every d f p -> wfq ev' -> ev ≡ₚ e :: ev' ->
  let e' := (key_of (clk (S r) + d) p, Every d f p) in
  exists ev2, (forall a (w : W), setInterval clk (mkTimer ev' (S r) a w) d f p = Done (mkTimer ev2 (S (S r)) a w)) /\
    Loop B ev2 old (e' :: new) (S (S r)).
Proof.
  intros [L1 L2 L3 L4 L5 L6] He Hw Hp e'. cbn in *.
  destruct (L5 e d f p) as [Hd Hfar]; [set_solver|done|]. destruct (L4 (S r)) as [Hc _]; [lia|].
  destruct (pq_push_ok _ fl_asym fl_trans ev' e' Hw) as (ev2 & E & Hw2 & Hp2).
  exists ev2. split.
  { intros a' w'. unfold setInterval, setTimeout, now, add. cbn. rewrite chk64_ok by lia. cbn. fold e'. by rewrite E. }
  split; auto.
  - rewrite Hp2. rewrite Permutation_cons_append, (Permutation_cons_append new), app_assoc. f_equiv.
    apply (Permutation_cons_inv (a := e)). by rewrite <- Hp.
  - intros x [->|Hx]%elem_of_cons; [|by apply L3]. apply Hfar. lia.
  - intros j Hj. apply L4. lia.
  - intros x d' f' p' Hin Hs. destruct (L5 x d' f' p') as [H1 H2]; [set_solver|done|]. split; [done|]. intros j Hj. apply H2. lia.
Qed.

Lemma Loop_perm B ev old old' new r : old ≡ₚ old' -> Loop B ev old new r -> Loop B ev old' new r.
Proof.
  intros Hp [L1 L2 L3 L4 L5 L6]. pose proof (Permutation_length Hp) as Hl. split; rewrite <- ?Hl; auto.
  - by rewrite <- Hp.
  - intros e d f p He. apply L5. by rewrite Hp.
  - destruct L6 as [?|(e & He & Hev)]; [by left|right; exists e; by rewrite <- Hp].
Qed.
(** What the loop has done when it stops: [fired] in order, [rest] left alone,
    [again] entered by the intervals among [fired]; [m] is the armed time. *)
Record Result (r : nat) (old new fired rest again ev' : list value_t) (r' : nat) (m : Z) : Prop := {
  rs_split : old ≡ₚ fired ++ rest;
  rs_ev : ev' ≡ₚ rest ++ again ++ new;
  rs_wf : wfq ev';
  rs_reads : (r < r' <= r + 2 * length old + 1)%nat;
  rs_sorted : StronglySorted key_le fired;
  rs_first : forall e e', e ∈ fired -> e' ∈ rest -> key_le e e';
  rs_due : forall e, e ∈ fired -> mtp e <= mticks (clk (r' - 1));
  rs_future : forall e, e ∈ ev' -> mticks (clk (r' - 1)) < mtp e;
  rs_again : Forall2 (rearmed clk r r') (List.filter is_every fired) again;
  rs_min : exists e, e ∈ ev' /\ mtp e = m /\ forall e', e' ∈ ev' -> m <= mtp e'
}.
Context (clk_mono : forall i j, (i <= j)%nat -> clk i <= clk j).
Lemma rearmed_earlier r1 r r' e e' : (r <= r1)%nat -> rearmed clk r1 r' e e' -> rearmed clk r r' e e'.
Proof. intros Hr (j & d & f & p & Hj & Hs & E). exists j, d, f, p. split; [lia|done]. Qed.
Lemma Result_cons r r1 e old old1 new new1 fired rest again again1 ev' r' m :
  Result r1 old1 new1 fired rest again1 ev' r' m -> old ≡ₚ e :: old1 -> (r < r1 <= r + 2)%nat ->
  (forall e', e' ∈ old1 -> key_le e e') -> 0 <= clk r -> mtp e <= mticks (clk r) ->
  again1 ++ new1 ≡ₚ again ++ new ->
  Forall2 (rearmed clk r r') (List.filter is_every (e :: fired)) again ->
  Result r old new (e :: fired) rest again ev' r' m.
Proof.
  intros [R1 R2 R3 R4 R5 R6 R7 R8 R9 R10] Hp Hr Hmin Hc Hdue Hag Hre. pose proof (Permutation_length Hp) as Hlen. cbn in Hlen.
  split; auto.
  - by rewrite Hp, R1.
  - by rewrite R2, Hag.
  - lia.
  - constructor; [done|]. apply Forall_forall. intros e' He'. apply Hmin. rewrite R1. set_solver.
  - intros x x' [->|Hx]%elem_of_cons Hx'; [|by apply R6]. apply Hmin. rewrite R1. set_solver.
  - intros x [->|Hx]%elem_of_cons; [|by apply R7]. etrans; [done|]. apply mticks_mono. split; [done|]. apply clk_mono. lia.
Qed.
Lemma Loop_nonempty B ev old new r : Loop B ev old new r -> ev <> [].
Proof.
  intros L ->. pose proof (Permutation_length (lp_ev _ _ _ _ _ L)) as Hz. rewrite length_app in Hz. cbn in Hz.
  destruct (lp_some _ _ _ _ _ L) as [Hn|(e & He & _)].
  - by destruct new; cbn in Hz; [|lia].
  - destruct old; cbn in Hz; [set_solver|lia].
Qed.
(** One turn of the loop. *)
Lemma next_turn fuel ev e r a (w : W) :
  pq_top ev = Done e ->
  next run clk (S fuel) (mkTimer ev r a w) =
    if mticks (clk r) <? mtp e then Done (mkTimer ev (S r) (Some (u64 (mtp e))) w)
    else let* l := pq_pop first_less ev in
         let* t := call run clk (mkTimer l (S r) a w) (snd e) in next run clk fuel t.
Proof.
  intros He. cbn [next events]. rewrite bool_decide_false, He; [done|]. by intros ->.
Qed.
Lemma Result_stop B ev old new r e :
  Loop B ev old new r -> e ∈ ev -> (forall e', e' ∈ ev -> key_le e e') -> mticks (clk r) < mtp e ->
  Result r old new [] old [] ev (S r) (mtp e).
Proof.
  intros L Hin Hmin Hlt. split; try (done || lia || by constructor || apply L || set_solver).
  - intros e' He'. replace (S r - 1)%nat with r by lia. pose proof (key_le_mtp _ _ (Hmin e' He')). lia.
  - exists e. split; [done|]. split; [done|]. intros e' He'. by apply key_le_mtp, Hmin.
Qed.
Lemma next_ok B fuel : forall ev old new r,
  Loop B ev old new r -> (length old < fuel)%nat ->
  exists fired rest again ev' r' m,
    (forall a (w : W), next run clk fuel (mkTimer ev r a w) =
       let* w' := run_all run fired w in Done (mkTimer ev' r' (Some (u64 m)) w')) /\
    Result r old new fired rest again ev' r' m.
Proof.
  induction fuel as [|fuel IH]; intros ev old new r L Hf; [lia|].
  destruct (top_some ev (Loop_nonempty _ _ _ _ _ L)) as [e He].
  destruct (top_min ev e (lp_wf _ _ _ _ _ L) He) as [Hin Hmin]. destruct (lp_clk _ _ _ _ _ L r) as [Hc HB]; [lia|].
  pose proof (fun a w => next_turn fuel ev e r a w He) as Hstep.
  destruct (Z.ltb_spec (mticks (clk r)) (mtp e)) as [Hlt|Hge].
  { exists [], old, [], ev, (S r), (mtp e). split; [exact Hstep|by eapply Result_stop]. }
  assert (Ho : e ∈ old).
  { rewrite (lp_ev _ _ _ _ _ L), elem_of_app in Hin. destruct Hin as [?|Hn]; [done|].
    pose proof (lp_new _ _ _ _ _ L e Hn). lia. }
  apply elem_of_Permutation in Ho as [old1 Hp]. pose proof (Permutation_length Hp) as Hlen. cbn in Hlen.
  apply (Loop_perm _ _ _ _ _ _ Hp) in L.
  destruct (pq_pop_ok _ fl_asym fl_trans ev e (lp_wf _ _ _ _ _ L) He) as (ev1 & Epop & Hw1 & Hp1).
  assert (Hmin1 : forall e', e' ∈ old1 -> key_le e e').
  { intros e' He'. apply Hmin. rewrite (lp_ev _ _ _ _ _ L). set_solver. }
  destruct (snd e) as [f|d f p] eqn:Es.
  - pose proof (fire_once _ _ _ _ _ _ _ _ L Es Hw1 Hp1) as L1.
    destruct (IH _ _ _ _ L1) as (fired & rest & again & ev' & r' & m & E & R); [lia|].
    exists (e :: fired), rest, again, ev', r', m. split.
    + intros a w. rewrite Hstep, Epop. cbn. unfold call_f, func. rewrite Es. cbn. by destruct (run f w); cbn; rewrite ?E.
    + eapply Result_cons; eauto; try lia. cbn. unfold is_every at 1. rewrite Es.
      eapply Forall2_impl; [apply R|]. intros ? ?. apply rearmed_earlier. lia.
  - destruct (fire_every _ _ _ _ _ _ _ _ _ _ L Es Hw1 Hp1) as (ev2 & Eset & L1). cbn zeta in L1.
    destruct (IH _ _ _ _ L1) as (fired & rest & again & ev' & r' & m & E & R); [lia|].
    eexists (e :: fired), rest, (_ :: again), ev', r', m. split.
    + intros a w. rewrite Hstep, Epop. cbn [obind call]. rewrite Eset. cbn. unfold call_f, func. rewrite Es. cbn.
      by destruct (run f w); cbn; rewrite ?E.
    + eapply Result_cons; eauto; try lia; [symmetry; apply Permutation_middle|].
      cbn. unfold is_every at 1. rewrite Es. constructor.
      * exists (S r), d, f, p. pose proof (rs_reads _ _ _ _ _ _ _ _ _ R). split; [lia|done].
      * eapply Forall2_impl; [apply R|]. intros ? ?. apply rearmed_earlier. lia.
Qed.

End Proofs.
(** ** Claims *)
(** C18. One call of Timer::next whose callbacks return ends after at most one
    turn per event and one more, whatever else the callbacks do, provided that the
    clock does not advance by a whole interval while they run and that an interval (the scheduler tick) is
    among the events: it runs the callbacks of [fired] in the order of their
    keys, these are due, all events that were due when it began are among them,
    every interval among them and nothing else is entered again at the time of
    its turn plus its period, the other events are kept, all events left are in
    the future and the earliest of them is programmed into the hardware. *)
Theorem timer_next_exact {F W} (run : F -> W -> outcome W) (clk : nat -> Z) (t : Timer F W) :
  let n := length (events t) in
  let r := reads t in
  wf first_less (events t) -> (forall i j, (i <= j)%nat -> clk i <= clk j) ->
  0 <= clk r -> clk (r + 2 * n)%nat < 2 ^ 62 -> (exists e, e ∈ events t /\ is_every e = true) ->
  (forall e d f p, e ∈ events t -> snd e = Every d f p -> clk (r + 2 * n)%nat + mtickDuration <= clk r + d < 2 ^ 62) ->
  exists fired rest again ev' r' m,
    next run clk (S n) t =
      (let* w := run_all run fired (world t) in Done (mkTimer ev' r' (Some (u64 m)) w)) /\
    Result clk r (events t) [] fired rest again ev' r' m /\
    forall e, e ∈ events t -> mtp e <= mticks (clk r) -> e ∈ fired.
Proof.
  intros n r Hw Hm H0 H1 He Hd. destruct t as [ev r0 a w]. cbn [events reads world] in *. subst r.
  assert (L : Loop clk (mticks (clk (r0 + 2 * n)%nat)) ev ev [] r0).
  { split; try (done || set_solver || by rewrite app_nil_r || by right).
    - intros j Hj. pose proof (Hm r0 j ltac:(lia)). pose proof (Hm j (r0 + 2 * n)%nat ltac:(lia)).
      split; [lia|]. apply mticks_mono. lia.
    - intros e d f p Hin Hs. specialize (Hd e d f p Hin Hs). unfold mtickDuration in Hd.
      pose proof (Hm r0 (r0 + 2 * n)%nat ltac:(lia)). split; [lia|]. intros j Hj. pose proof (Hm r0 j ltac:(lia)).
      enough (mticks (clk (r0 + 2 * n)%nat + 100) <= mticks (clk j + d)) as Hq.
      { unfold mticks, mtickDuration in *. rewrite !Z.quot_div_nonneg in * by lia.
        replace (clk (r0 + 2 * n)%nat + 100) with (clk (r0 + 2 * n)%nat + 1 * 100) in Hq by lia.
        rewrite Z.div_add in Hq by lia. lia. }
      apply mticks_mono. lia. }
  destruct (next_ok run clk Hm _ (S n) ev ev [] r0 L ltac:(lia)) as (fired & rest & again & ev' & r' & m & E & R).
  exists fired, rest, again, ev', r', m. split; [apply E|]. split; [done|].
  intros e Hin Hdue. rewrite (rs_split _ _ _ _ _ _ _ _ _ _ R), elem_of_app in Hin. destruct Hin as [?|Hr]; [done|].
  pose proof (rs_reads _ _ _ _ _ _ _ _ _ _ R). exfalso.
  assert (Hev : e ∈ ev') by (rewrite (rs_ev _ _ _ _ _ _ _ _ _ _ R); set_solver).
  pose proof (rs_future _ _ _ _ _ _ _ _ _ _ R e Hev). pose proof (Hm r0 (r' - 1)%nat ltac:(lia)).
  pose proof (mticks_mono (clk r0) (clk (r' - 1)%nat) ltac:(lia)). lia.
Qed.

Lemma timespec_split dura :
  - 2 ^ 63 + 1000000000 <= dura < 2 ^ 63 ->
  duration2timespec dura = Done (dura / 1000000000, dura mod 1000000000) /\ 0 <= dura mod 1000000000 < 1000000000.
Proof.
  intros Hd. pose proof (Z.div_mod dura 1000000000 ltac:(lia)). pose proof (Z.mod_pos_bound dura 1000000000 ltac:(lia)).
  assert (Hs : (if dura <? Z.quot dura 1000000000 * 1000000000 then Z.quot dura 1000000000 - 1 else Z.quot dura 1000000000)
               = dura / 1000000000).
  { pose proof (Z.quot_rem dura 1000000000 ltac:(lia)).
    pose proof (Z.rem_bound_abs dura 1000000000 ltac:(lia)). pose proof (Z.rem_sign_nz dura 1000000000 ltac:(lia)).
    destruct (Z.ltb_spec dura (Z.quot dura 1000000000 * 1000000000)); destruct (Z.le_gt_cases 0 dura); nia. }
  unfold duration2timespec. cbn zeta. rewrite Hs, !chk64_ok by lia. cbn [obind]. rewrite chk64_ok by lia. cbn [obind].
  split; [|done]. do 2 f_equal. lia.
Qed.
(** Splitting a duration into seconds and nanoseconds is division with a
    remainder that is never negative, for durations before the epoch too, and
    putting them together gives the duration back. *)
Theorem timespec_roundtrip dura :
  - 2 ^ 63 + 1000000000 <= dura < 2 ^ 63 ->
  duration2timespec dura = Done (dura / 1000000000, dura mod 1000000000) /\
  0 <= dura mod 1000000000 < 1000000000 /\
  timespec2duration (dura / 1000000000) (dura mod 1000000000) = Done dura.
Proof.
  intros Hd. destruct (timespec_split dura Hd) as [E Hr]. split; [done|]. split; [done|].
  pose proof (Z.div_mod dura 1000000000 ltac:(lia)). unfold timespec2duration.
  rewrite chk64_ok by lia. cbn [obind]. rewrite chk64_ok by lia. f_equal. lia.
Qed.

(** gettimeofday fills a timeval with a timespec: the microseconds are a
    thousand times too large. *)
Theorem gettimeofday_nanoseconds {U} `{UserMem U} (u : U) tv tz n :
  tv <> 0 -> 0 <= n < 2 ^ 63 ->
  gettimeofday u tv tz n = (let* u := copyout u tv (enc [n / 1000000000; n mod 1000000000]) in Done (u, FileSys.rt 0)) /\
  duration2timeval n = Done (n / 1000000000, n mod 1000000000 / 1000).
Proof.
  intros Htv Hn. destruct (timespec_split n) as [E Hr]; [lia|]. split.
  - unfold gettimeofday, put_timespec. rewrite (proj2 (Z.eqb_neq _ _)), E by done. done.
  - unfold duration2timeval. rewrite E. cbn. rewrite Z.quot_div_nonneg by lia. done.
Qed.
(** nanoSleep reports -1 after sleeping for the whole time. *)
Theorem nanosleep_reports_failure {U} `{UserMem U} (u : U) : nanoSleep_end u 0 = Done (u, FileSys.rt (-1)).
Proof. done. Qed.

(** ** Concrete timers *)
Definition ex_clk (at3 : Z) (j : nat) : Z := if (j <? 3)%nat then 10 * Z.of_nat j else at3 + 10 * Z.of_nat j.
Lemma ex_clk_mono a i j : 0 <= a -> (i <= j)%nat -> ex_clk a i <= ex_clk a j.
Proof. intros. unfold ex_clk. destruct (Nat.ltb_spec i 3), (Nat.ltb_spec j 3); lia. Qed.
Definition ex_run (f : Z) (w : list Z) : outcome (list Z) := Done (w ++ [f]).
(** A tick of 20 ms, an event after 5 ms and one after 60 ms; the call comes
    after 25 ms. *)
Definition ex_timer : Timer Z (list Z) := Eval vm_compute in
  match (let* t := setInterval (ex_clk 25000000) (mkTimer [] 0 None []) tickDuration 1 0 in
         let* t := setTimeout (ex_clk 25000000) t 60000000 (Once 3) 1 in
         setTimeout (ex_clk 25000000) t 5000000 (Once 2) 1)
  with Done t => t | _ => mkTimer [] 0 None [] end.
Lemma timer_next_exact_witness :
  (let* t := next ex_run (ex_clk 25000000) 4 ex_timer in Done (world t)) = Done [2; 1] /\
  exists fired rest again ev' r' m,
    next ex_run (ex_clk 25000000) 4 ex_timer =
      (let* w := run_all ex_run fired [] in Done (mkTimer ev' r' (Some (u64 m)) w)) /\
    Result (ex_clk 25000000) 3 (events ex_timer) [] fired rest again ev' r' m /\
    forall e, e ∈ events ex_timer -> mtp e <= mticks (ex_clk 25000000 3) -> e ∈ fired.
Proof.
  split; [vm_compute; reflexivity|]. apply (timer_next_exact ex_run (ex_clk 25000000) ex_timer).
  - intros i x y Hi. destruct i as [|[|[|i]]]; cbn in *; try lia; intros; simplify_eq; done.
  - intros i j. by apply ex_clk_mono.
  - done.
  - done.
  - exists (200000, 0, 0, Every 20000000 1 0). split; [|done]. cbn. set_solver.
  - intros e d f p He Hs. cbn in He. rewrite !elem_of_cons in He.
    destruct He as [->|[->|[->|He]]]; cbn in Hs; [done|done|simplify_eq; vm_compute; by split|set_solver].
Defined.
Lemma timespec_roundtrip_witness :
  duration2timespec (-1) = Done (-1, 999999999) /\ 0 <= 999999999 < 1000000000 /\
  timespec2duration (-1) 999999999 = Done (-1).
Proof. apply (timespec_roundtrip (-1)). lia. Defined.

(** Task 1 sleeps for 5 ms: task 2 runs; the timer interrupt after 6 ms makes
    task 1 ready again. *)
Example nanosleep_wakes :
  (let* t := timerInit run_k (ex_clk 6000000) KSchedule (∅, Sched.ex_sched) 1 in
   let* t := nanoSleep_begin (ex_clk 6000000) (enc [0; 5000000]) 0 4096 t in
   let* t' := next run_k (ex_clk 6000000) 3 t in
   Done (Sched.curtask (snd (world t)), Sched.ready (snd (world t)), Sched.ready (snd (world t')), fst (world t') !! 4096))
  = Done (2, [[]; []], [[1]; []], Some []).
Proof. vm_compute. reflexivity. Qed.

End Timer.
