(* ===== verification/Virtio.v ===== *)
(** * Virtio: the block device driver (kernel/virtio_disk.cc, include/virtio.hh)

    The memory that the driver shares with the device (descriptors, the avail
    and the used ring), the driver's own book-keeping, the stack variables
    [buf0] and [ready] of the calls in progress (named by a request number; a
    pointer to one of them dangles once the call has returned), the buffers and
    the device. One turn of the loop of virtio_disk_rw is cut where it waits:
    [rw_begin] up to the notification, [rw_end] from the end of the waiting.
    The device is not part of the kernel: it is a function of the interface
    [BlkDevice], with what the driver relies on as its law. *)

From S2P Require Import Prelude Bytes.
Local Open Scope Z_scope.

Module Virtio.

Definition NUM : Z := 8.
Definition VRING_DESC_F_NEXT : Z := 1.
Definition VRING_DESC_F_WRITE : Z := 2.
Definition VIRTIO_BLK_T_IN : Z := 0.
Definition VIRTIO_BLK_T_OUT : Z := 1.
Definition blockSize : Z := 512.
Definition sizeof_outhdr : Z := 16.

(** What a descriptor points to. *)
Inductive Ptr : Type := PNull | PHdr (r : Z) | PData (b : Z) | PStatus (i : Z).
Record VRingDesc : Type := mkDesc { addr : Ptr; dlen : Z; flags : Z; next : Z }.
Record outhdr : Type := mkHdr { h_type : Z; h_sector : Z }.
(** The state; [W] is what waking a task changes. *)
Record Disk (W : Type) : Type := mkDisk {
  desc : list VRingDesc;
  avail : list Z;
  used_id : Z;
  elems : list Z;
  free : list bool;
  used_idx : Z;
  i_ready : list (option Z);
  i_status : list Z;
  waiting : list Z;
  hdrs : gmap Z outhdr;
  ready : gmap Z Z;
  bufs : gmap Z (list Z);
  sectors : gmap Z (list Z);
  wk : W
}.
Arguments mkDisk {W} _ _ _ _ _ _ _ _ _ _ _ _ _ _.
Arguments desc {W} _. Arguments avail {W} _. Arguments used_id {W} _. Arguments elems {W} _.
Arguments free {W} _. Arguments used_idx {W} _. Arguments i_ready {W} _. Arguments i_status {W} _.
Arguments waiting {W} _. Arguments hdrs {W} _. Arguments ready {W} _. Arguments bufs {W} _.
Arguments sectors {W} _. Arguments wk {W} _.

Section Driver.
Context {W : Type} (wakeup : W -> Z -> outcome W).
Implicit Types d : Disk W.

Definition set_free d (f : list bool) : Disk W :=
  mkDisk (desc d) (avail d) (used_id d) (elems d) f (used_idx d) (i_ready d) (i_status d) (waiting d) (hdrs d)
    (ready d) (bufs d) (sectors d) (wk d).
Definition set_desc d (l : list VRingDesc) : Disk W :=
  mkDisk l (avail d) (used_id d) (elems d) (free d) (used_idx d) (i_ready d) (i_status d) (waiting d) (hdrs d)
    (ready d) (bufs d) (sectors d) (wk d).
Definition set_waiting d (q : list Z) (w : W) : Disk W :=
  mkDisk (desc d) (avail d) (used_id d) (elems d) (free d) (used_idx d) (i_ready d) (i_status d) q (hdrs d)
    (ready d) (bufs d) (sectors d) w.
Definition set_frames d (h : gmap Z outhdr) (r : gmap Z Z) : Disk W :=
  mkDisk (desc d) (avail d) (used_id d) (elems d) (free d) (used_idx d) (i_ready d) (i_status d) (waiting d) h
    r (bufs d) (sectors d) (wk d).

(** virtio_disk_init: the registers it reads and, in order, those it writes. *)
Inductive Reg : Type := Rstatus | RdriverFeatures | RguestPageSize | Rselect | Rsize | Rppn.
Record Config : Type := mkConfig {
  magic : Z; version : Z; devId : Z; venderId : Z; devFeatures : Z; maxSize : Z
}.
Definition no_bit (f k : Z) : Z := Z.ldiff f (Z.shiftl 1 k).
Definition negotiate (f : Z) : Z := foldl no_bit f [5; 7; 11; 12; 27; 29; 28].
Definition virtio_disk_probe (c : Config) (pages : Z) : outcome (list (Reg * Z)) :=
  if negb (magic c =? 1953655158) || negb (version c =? 1) || negb (devId c =? 2) || negb (venderId c =? 1431127377)
  then Panic
  else if maxSize c =? 0 then Panic
  else if maxSize c <? NUM then Panic
  else Done [(Rstatus, 1); (Rstatus, 3); (RdriverFeatures, negotiate (devFeatures c)); (Rstatus, 11); (Rstatus, 15);
             (RguestPageSize, 4096); (Rselect, 0); (Rsize, NUM); (Rppn, Z.shiftr pages 12)].
Lemma negotiate_bits f k :
  0 <= k -> Z.testbit (negotiate f) k = Z.testbit f k && negb (bool_decide (k ∈ [5; 7; 11; 12; 27; 28; 29])).
Proof.
  intros Hk. unfold negotiate, no_bit. cbn [foldl]. rewrite !Z.ldiff_spec, !Z.shiftl_spec by done.
  assert (E : forall n, Z.testbit 1 (k - n) = bool_decide (k = n)).
  { intros n. destruct (decide (k = n)) as [->|Hn]; [by rewrite Z.sub_diag, bool_decide_true|].
    rewrite bool_decide_false by done. destruct (Z.lt_ge_cases (k - n) 0); [by apply Z.testbit_neg_r|].
    apply Z.bits_above_log2; [lia|]. cbn. lia. }
  rewrite !E. destruct (Z.testbit f k); [|done]. repeat case_bool_decide; subst; try done; set_solver.
Qed.
(** What virtio_disk_init leaves behind: the pages cleared, every descriptor
    free; [info] is static and starts as zero. *)
Definition virtio_disk_init (bs ss : gmap Z (list Z)) (w : W) : Disk W :=
  mkDisk (replicate 8 (mkDesc PNull 0 0 0)) (replicate 10 0) 0 (replicate 8 0) (replicate 8 true) 0
    (replicate 8 None) (replicate 8 0) [] ∅ ∅ bs ss w.

Fixpoint first_free (l : list bool) (i : Z) : Z :=
  match l with
  | [] => -1
  | b :: l => if b : bool then i else first_free l (i + 1)
  end.
Definition alloc_desc d : Z * Disk W :=
  let i := first_free (free d) 0 in
  if i <? 0 then (-1, d) else (i, set_free d (upd (free d) i false)).
Fixpoint wake_all (q : list Z) (w : W) : outcome W :=
  match q with [] => Done w | t :: q => let* w := wakeup w t in wake_all q w end.
Definition free_desc d (i : Z) : outcome (Disk W) :=
  if NUM <=? i then Panic
  else
    let* b := aget (free d) i in
    if b : bool then Panic
    else
      let* x := aget (desc d) i in
      let* l := aset (desc d) i (mkDesc PNull (dlen x) (flags x) (next x)) in
      let* f := aset (free d) i true in
      let d := set_free (set_desc d l) f in
      let* w := wake_all (waiting d) (wk d) in
      Done (set_waiting d [] w).
Fixpoint free_chain (fuel : nat) d (i : Z) : outcome (Disk W) :=
  match fuel with
  | O => Diverge
  | S fuel =>
      let* d := free_desc d i in
      let* x := aget (desc d) i in
      if Z.testbit (flags x) 0 then free_chain fuel d (next x) else Done d
  end.
Fixpoint free_all d (l : list Z) : outcome (Disk W) :=
  match l with [] => Done d | i :: l => let* d := free_desc d i in free_all d l end.
(** alloc3_desc: [n] descriptors still to be found, [got] those found. *)
Fixpoint alloc_loop (n : nat) (got : list Z) d : outcome (option (list Z) * Disk W) :=
  match n with
  | O => Done (Some got, d)
  | S n =>
      let (i, d) := alloc_desc d in
      if i <? 0 then let* d := free_all d got in Done (None, d)
      else alloc_loop n (got ++ [i]) d
  end.
Definition alloc3_desc d : outcome (option (list Z) * Disk W) := alloc_loop 3 [] d.

(** virtio_disk_rw until it waits, as request [r] of task [t] for buffer [b]:
    the first descriptor, or [None] when the task was put to sleep because
    descriptors are missing. *)
Definition format3 d (r b : Z) (write : bool) (i0 i1 i2 : Z) : outcome (Disk W) :=
  let* l := aset (desc d) i0 (mkDesc (PHdr r) sizeof_outhdr VRING_DESC_F_NEXT i1) in
  let fl := Z.lor (if write then 0 else VRING_DESC_F_WRITE) VRING_DESC_F_NEXT in
  let* l := aset l i1 (mkDesc (PData b) blockSize fl i2) in
  let* st := aset (i_status d) i0 0 in
  let* l := aset l i2 (mkDesc (PStatus i0) 1 VRING_DESC_F_WRITE 0) in
  let* rd := aset (i_ready d) i0 (Some r) in
  let* a1 := aget (avail d) 1 in
  let* av := aset (avail d) (2 + a1 mod NUM) i0 in
  let* av := aset av 1 (u16 (a1 + 1)) in
  Done (mkDisk l av (used_id d) (elems d) (free d) (used_idx d) rd st (waiting d) (hdrs d) (ready d) (bufs d)
          (sectors d) (wk d)).
Definition rw_begin d (t r b sector : Z) (write : bool) : outcome (option Z * Disk W) :=
  let* (o, d) := alloc3_desc d in
  match o with
  | Some [i0; i1; i2] =>
      let ty := if write then VIRTIO_BLK_T_OUT else VIRTIO_BLK_T_IN in
      let d := set_frames d (<[r := mkHdr ty sector]> (hdrs d)) (<[r := 0]> (ready d)) in
      let* d := format3 d r b write i0 i1 i2 in
      Done (Some i0, d)
  | _ => Done (None, set_waiting d (waiting d ++ [t]) (wk d))
  end.
(** The end of the waiting, with [i0] the first descriptor of request [r]: the
    variables of the turn are gone; [true] when the request has finished. *)
Definition rw_end d (r i0 : Z) : outcome (bool * Disk W) :=
  match ready d !! r with
  | None => Undef
  | Some v =>
      let* d := free_chain 9 d i0 in
      Done (negb (v =? 0), set_frames d (delete r (hdrs d)) (delete r (ready d)))
  end.

(** virtio_disk_intr: [*info.ready=1] is undefined when the variable is gone. *)
Fixpoint intr_loop (fuel : nat) d : outcome (Disk W) :=
  if used_idx d mod NUM =? used_id d mod NUM then Done d
  else
    match fuel with
    | O => Diverge
    | S fuel =>
        let* h := aget (elems d) (used_idx d) in
        let* p := aget (i_ready d) h in
        match p with
        | None => Undef
        | Some r =>
            match ready d !! r with
            | None => Undef
            | Some _ =>
                intr_loop fuel
                  (mkDisk (desc d) (avail d) (used_id d) (elems d) (free d) (u16 ((used_idx d + 1) mod NUM)) (i_ready d)
                     (i_status d) (waiting d) (hdrs d) (<[r := 1]> (ready d)) (bufs d) (sectors d) (wk d))
            end
        end
    end.
Definition virtio_disk_intr d : outcome (Disk W) := intr_loop 8 d.
End Driver.

(** ** The device *)
(** A chain in memory: the descriptor of the header, of the data and of the
    status, linked, with the flags the protocol asks for. *)
Definition is_chain {W} (d : Disk W) (h r b : Z) (write : bool) (sector i1 i2 : Z) : Prop :=
  desc d !! Z.to_nat h = Some (mkDesc (PHdr r) sizeof_outhdr VRING_DESC_F_NEXT i1) /\
  desc d !! Z.to_nat i1 =
    Some (mkDesc (PData b) blockSize (if write then VRING_DESC_F_NEXT else VRING_DESC_F_NEXT + VRING_DESC_F_WRITE) i2) /\
  desc d !! Z.to_nat i2 = Some (mkDesc (PStatus h) 1 VRING_DESC_F_WRITE 0) /\
  hdrs d !! r = Some (mkHdr (if write then VIRTIO_BLK_T_OUT else VIRTIO_BLK_T_IN) sector).
(** The state after the transfer of a request: the data moved, the status byte
    cleared, the head of the chain entered into the used ring. *)
Definition served {W} (d : Disk W) (h b : Z) (write : bool) (sector : Z) (buf sec : list Z) : Disk W :=
  mkDisk (desc d) (avail d) (u16 (used_id d + 1)) (upd (elems d) (used_id d mod NUM) h) (free d) (used_idx d)
    (i_ready d) (upd (i_status d) h 0) (waiting d) (hdrs d) (ready d)
    (if write then bufs d else <[b := sec]> (bufs d))
    (if write then <[sector := buf]> (sectors d) else sectors d) (wk d).
(** A device that serves its queue in order: as long as the avail ring is ahead
    of the used ring, the next chain is carried out. *)
Class BlkDevice (W : Type) := {
  dev_serve : Disk W -> Disk W;
  dev_law : forall d h r b write sector i1 i2 buf sec,
    vat (avail d) 1 <> used_id d -> vat (avail d) (2 + used_id d mod NUM) = h ->
    is_chain d h r b write sector i1 i2 -> bufs d !! b = Some buf -> sectors d !! sector = Some sec ->
    zlen buf = blockSize -> zlen sec = blockSize ->
    dev_serve d = served d h b write sector buf sec
}.
(** ** Descriptors *)
(** The descriptors that are not free are those of [X]. *)
Definition taken (f : list bool) (X : list Z) : Prop :=
  length f = 8%nat /\ forall i, 0 <= i < 8 -> f !! Z.to_nat i = Some (bool_decide (i ∉ X)).
Definition fits (X : list Z) : Prop := NoDup X /\ forall i, i ∈ X -> 0 <= i < 8.

Lemma lookup_upd {A} (l : list A) i j v :
  0 <= i < Z.of_nat (length l) -> 0 <= j -> upd l i v !! Z.to_nat j = if decide (i = j) then Some v else l !! Z.to_nat j.
Proof.
  intros Hi Hj. unfold upd. destruct (decide (i = j)) as [->|Hn]; [by rewrite list_lookup_insert_eq by lia|].
  rewrite list_lookup_insert_ne; [done|lia].
Qed.
Lemma aget_some {A} (l : list A) i x : 0 <= i -> l !! Z.to_nat i = Some x -> aget l i = Done x.
Proof. intros Hi E. unfold aget. rewrite (proj2 (Z.ltb_ge _ _)) by lia. by rewrite E. Qed.

Lemma fits_length X : fits X -> (length X <= 8)%nat.
Proof.
  intros [Hn Hr]. rewrite <- (size_list_to_set (C := gset Z) X Hn).
  change 8%nat with (size (list_to_set (seqZ 0 8) : gset Z)). apply subseteq_size.
  intros i Hi. apply elem_of_list_to_set in Hi. apply elem_of_list_to_set, elem_of_seqZ. by apply Hr.
Qed.
Lemma fits_full X i : fits X -> length X = 8%nat -> 0 <= i < 8 -> i ∈ X.
Proof.
  intros Hf Hl Hi. destruct (decide (i ∈ X)) as [|Hn]; [done|].
  assert (Hf' : fits (i :: X)).
  { destruct Hf as [H1 H2]. split; [by constructor|]. intros j [->|Hj]%elem_of_cons; auto. }
  apply fits_length in Hf'. cbn in Hf'. lia.
Qed.
Lemma fits_room X : fits X -> (length X < 8)%nat -> exists i, 0 <= i < 8 /\ i ∉ X.
Proof.
  intros [Hn _] Hl. destruct (decide (list_to_set (seqZ 0 8) ⊆ (list_to_set X : gset Z))) as [Hs|Hs].
  - apply subseteq_size in Hs. rewrite (size_list_to_set X Hn) in Hs. vm_compute (size _) in Hs. lia.
  - destruct (set_choose_L ((list_to_set (seqZ 0 8) : gset Z) ∖ list_to_set X)) as [i Hi].
    { intros E. apply Hs. intros x Hx. destruct (decide (x ∈ (list_to_set X : gset Z))) as [|Hq]; [done|].
      assert (Hd : x ∈ (list_to_set (seqZ 0 8) : gset Z) ∖ list_to_set X) by by apply elem_of_difference.
      by rewrite E in Hd. }
    exists i. rewrite elem_of_difference, !elem_of_list_to_set, elem_of_seqZ in Hi. done.
Qed.
Lemma first_free_spec l i0 :
  (first_free l i0 = -1 /\ forall k, l !! k <> Some true) \/
  exists k, first_free l i0 = i0 + Z.of_nat k /\ l !! k = Some true.
Proof.
  revert i0. induction l as [|b l IH]; intros i0; cbn; [by left|]. destruct b.
  - right. exists 0%nat. split; [lia|done].
  - destruct (IH (i0 + 1)) as [[E H]|(k & E & H)].
    + left. split; [done|]. intros [|k]; [done|apply H].
    + right. exists (S k). split; [lia|done].
Qed.

Section Proofs.
Context {W : Type} (wakeup : W -> Z -> outcome W) (wok : W -> Prop) (tok : Z -> Prop).
Context (wake_ok : forall w t, wok w -> tok t -> exists w', wakeup w t = Done w' /\ wok w').
Implicit Types d : Disk W.

Lemma wake_all_ok q : forall w, wok w -> Forall tok q -> exists w', wake_all wakeup q w = Done w' /\ wok w'.
Proof.
  induction q as [|t q IH]; intros w Hw Hq; cbn; [by exists w|]. inversion_clear Hq.
  destruct (wake_ok w t) as (w1 & -> & Hw1); auto. cbn. by apply IH.
Qed.
Lemma alloc_desc_ok d X :
  taken (free d) X -> fits X -> (length X < 8)%nat ->
  exists i f, alloc_desc d = (i, set_free d f) /\ fits (i :: X) /\ taken f (i :: X).
Proof.
  intros [Hl Ht] Hf Hx. unfold alloc_desc. destruct (first_free_spec (free d) 0) as [[E Hn]|(k & E & Hk)].
  - destruct (fits_room X Hf Hx) as (i & Hi & Hni). exfalso. apply (Hn (Z.to_nat i)). rewrite Ht by done.
    by rewrite bool_decide_true.
  - pose proof (lookup_lt_Some _ _ _ Hk) as Hlt. rewrite E, Z.add_0_l, (proj2 (Z.ltb_ge _ _)) by lia.
    eexists _, _. split; [done|].
    assert (Hni : Z.of_nat k ∉ X).
    { specialize (Ht (Z.of_nat k) ltac:(lia)). rewrite Nat2Z.id, Hk in Ht. injection Ht as Ht. symmetry in Ht.
      by apply bool_decide_eq_true in Ht. }
    split; [|split].
    + destruct Hf as [H1 H2]. split; [by constructor|]. intros j [->|Hj]%elem_of_cons; [lia|auto].
    + by rewrite length_upd.
    + intros j Hj. rewrite lookup_upd by lia. destruct (decide (Z.of_nat k = j)) as [<-|Hn].
      * rewrite bool_decide_false; [done|]. set_solver.
      * rewrite Ht by done. f_equal. apply bool_decide_ext. set_solver.
Qed.
Lemma alloc_desc_none d X : taken (free d) X -> fits X -> length X = 8%nat -> alloc_desc d = (-1, d).
Proof.
  intros [Hl Ht] Hf Hx. unfold alloc_desc. destruct (first_free_spec (free d) 0) as [[E Hn]|(k & E & Hk)]; [by rewrite E|].
  pose proof (lookup_lt_Some _ _ _ Hk) as Hlt. specialize (Ht (Z.of_nat k) ltac:(lia)). rewrite Nat2Z.id, Hk in Ht.
  rewrite bool_decide_false in Ht; [done|]. intros Hi. apply Hi. apply fits_full; auto. lia.
Qed.
(** Freeing a descriptor of [X]; the others keep what they hold, and a freed
    one keeps its flags and its link. *)
Definition cleared (x : VRingDesc) : VRingDesc := mkDesc PNull (dlen x) (flags x) (next x).
Record freed (d d' : Disk W) (i : Z) (x : VRingDesc) (X : list Z) : Prop := {
  fr_taken : taken (free d') X;
  fr_same : exists l f w, d' = set_waiting (set_free (set_desc d l) f) [] w;
  fr_desc : forall j, 0 <= j -> desc d' !! Z.to_nat j = if decide (i = j) then Some (cleared x) else desc d !! Z.to_nat j;
  fr_len : length (desc d') = length (desc d);
  fr_wok : wok (wk d')
}.
Lemma free_desc_ok d i x X Y :
  taken (free d) X -> fits X -> X ≡ₚ i :: Y -> desc d !! Z.to_nat i = Some x -> wok (wk d) -> Forall tok (waiting d) ->
  exists d', free_desc wakeup d i = Done d' /\ freed d d' i x Y.
Proof.
  intros [Hl Ht] [Hn Hr] Hp Hx Hw Hq. assert (Hi : 0 <= i < 8) by (apply Hr; rewrite Hp; set_solver).
  rewrite Hp in Hn. apply NoDup_cons in Hn as [HiY HnY].
  unfold free_desc. rewrite (proj2 (Z.leb_gt _ _)) by (unfold NUM; lia).
  assert (Hfi : free d !! Z.to_nat i = Some false).
  { rewrite Ht by done. rewrite bool_decide_false; [done|]. rewrite Hp. set_solver. }
  rewrite (aget_some (free d) i false) by (done || lia).
  pose proof (lookup_lt_Some _ _ _ Hx). cbn [obind]. rewrite (aget_some _ _ x) by (done || lia). cbn [obind].
  rewrite !aset_upd by lia. cbn [obind]. destruct (wake_all_ok (waiting d) (wk d) Hw Hq) as (w & Ew & Hw').
  cbn [waiting wk set_free set_desc]. rewrite Ew. cbn [obind]. eexists. split; [done|]. split; cbn.
  - split; [by rewrite length_upd|]. intros j Hj. rewrite lookup_upd by lia. destruct (decide (i = j)) as [<-|Hne].
    + by rewrite bool_decide_true.
    + rewrite Ht by done. f_equal. apply bool_decide_ext. rewrite Hp. set_solver.
  - eauto.
  - intros j Hj. rewrite lookup_upd by lia. done.
  - by rewrite length_upd.
  - done.
Qed.

(** alloc3_desc takes three descriptors, or none: then what the others hold is
    the same. *)
Lemma alloc3_some d X :
  taken (free d) X -> fits X -> (length X <= 5)%nat ->
  exists i0 i1 i2 f, alloc3_desc wakeup d = Done (Some [i0; i1; i2], set_free d f) /\
    fits (i2 :: i1 :: i0 :: X) /\ taken f (i2 :: i1 :: i0 :: X).
Proof.
  intros Ht Hf Hl. unfold alloc3_desc. cbn [alloc_loop].
  destruct (alloc_desc_ok d X Ht Hf ltac:(lia)) as (i0 & f0 & E0 & Hf0 & Ht0). rewrite E0.
  rewrite (proj2 (Z.ltb_ge i0 0)) by (apply (proj2 Hf0); set_solver).
  destruct (alloc_desc_ok (set_free d f0) _ Ht0 Hf0 ltac:(cbn; lia)) as (i1 & f1 & E1 & Hf1 & Ht1). rewrite E1.
  rewrite (proj2 (Z.ltb_ge i1 0)) by (apply (proj2 Hf1); set_solver).
  destruct (alloc_desc_ok (set_free (set_free d f0) f1) _ Ht1 Hf1 ltac:(cbn; lia)) as (i2 & f2 & E2 & Hf2 & Ht2). rewrite E2.
  rewrite (proj2 (Z.ltb_ge i2 0)) by (apply (proj2 Hf2); set_solver).
  by exists i0, i1, i2, f2.
Qed.
Lemma alloc3_none d X :
  taken (free d) X -> fits X -> length X = 6%nat -> length (desc d) = 8%nat -> wok (wk d) -> Forall tok (waiting d) ->
  exists l f w, alloc3_desc wakeup d = Done (None, set_waiting (set_free (set_desc d l) f) [] w) /\
    taken f X /\ length l = 8%nat /\ wok w /\
    forall j, j ∈ X -> l !! Z.to_nat j = desc d !! Z.to_nat j.
Proof.
  intros Ht Hf Hl Hd Hw Hq. unfold alloc3_desc. cbn [alloc_loop].
  destruct (alloc_desc_ok d X Ht Hf ltac:(lia)) as (i0 & f0 & E0 & Hf0 & Ht0). rewrite E0.
  assert (Hi0 : 0 <= i0 < 8) by (apply (proj2 Hf0); set_solver). rewrite (proj2 (Z.ltb_ge i0 0)) by lia.
  destruct (alloc_desc_ok (set_free d f0) _ Ht0 Hf0 ltac:(cbn; lia)) as (i1 & f1 & E1 & Hf1 & Ht1). rewrite E1.
  assert (Hi1 : 0 <= i1 < 8) by (apply (proj2 Hf1); set_solver). rewrite (proj2 (Z.ltb_ge i1 0)) by lia.
  rewrite (alloc_desc_none (set_free (set_free d f0) f1) _ Ht1 Hf1 ltac:(cbn; lia)). cbn [Z.ltb Z.compare free_all app].
  destruct (lookup_lt_is_Some_2 (desc d) (Z.to_nat i0)) as [x0 Hx0]; [lia|].
  destruct (free_desc_ok (set_free (set_free d f0) f1) i0 x0 _ (i1 :: X) Ht1 Hf1) as (d1 & -> & F1); auto.
  { apply Permutation_swap. }
  cbn [obind]. destruct (fr_same _ _ _ _ _ F1) as (l1 & g1 & w1 & ->).
  destruct (lookup_lt_is_Some_2 l1 (Z.to_nat i1)) as [x1 Hx1].
  { pose proof (fr_len _ _ _ _ _ F1) as E. cbn in E. lia. }
  assert (Hf1' : fits (i1 :: X)).
  { destruct Hf1 as [Hn Hr]. apply NoDup_cons in Hn as [Hn1 Hn0]. apply NoDup_cons in Hn0 as [Hn0 HnX].
    split; [constructor; [set_solver|done]|]. intros j Hj. apply Hr. set_solver. }
  edestruct (free_desc_ok (set_waiting (set_free (set_desc (set_free (set_free d f0) f1) l1) g1) [] w1) i1 x1 _ X
    (fr_taken _ _ _ _ _ F1) Hf1') as (d2 & -> & F2); auto; [exact (fr_wok _ _ _ _ _ F1)|].
  cbn [obind]. destruct (fr_same _ _ _ _ _ F2) as (l2 & g2 & w2 & ->). exists l2, g2, w2. split; [done|].
  split; [exact (fr_taken _ _ _ _ _ F2)|]. pose proof (fr_len _ _ _ _ _ F1). pose proof (fr_len _ _ _ _ _ F2). cbn in *.
  split; [lia|]. split; [exact (fr_wok _ _ _ _ _ F2)|]. intros j Hj.
  assert (Hr : 0 <= j) by (apply (proj2 Hf); done).
  pose proof (fr_desc _ _ _ _ _ F2 j Hr) as D2. pose proof (fr_desc _ _ _ _ _ F1 j Hr) as D1. cbn in D1, D2.
  destruct Hf1 as [Hn _]. apply NoDup_cons in Hn as [Hn1 Hn0]. apply NoDup_cons in Hn0 as [Hn0 _].
  rewrite D2, decide_False by set_solver. rewrite D1, decide_False; [done|set_solver].
Qed.

(** A request in progress, with its descriptors. *)
Record Req : Type := mkReq { q_r : Z; q_b : Z; q_w : bool; q_s : Z; q_0 : Z; q_1 : Z; q_2 : Z }.
Definition idxs (q : Req) : list Z := [q_0 q; q_1 q; q_2 q].
Definition idxl (l : list Req) : list Z := l ≫= idxs.
Definition chain d (q : Req) : Prop := is_chain d (q_0 q) (q_r q) (q_b q) (q_w q) (q_s q) (q_1 q) (q_2 q).

Lemma fits_cons i X : fits (i :: X) -> 0 <= i < 8 /\ i ∉ X /\ fits X.
Proof. intros [[Hn HnX]%NoDup_cons Hr]. split; [apply Hr; set_solver|]. split; [done|]. split; [done|]. set_solver. Qed.
Lemma fits_perm X Y : X ≡ₚ Y -> fits X -> fits Y.
Proof. intros Hp [Hn Hr]. split; [by rewrite <- Hp|]. intros i. rewrite <- Hp. apply Hr. Qed.
Lemma taken_perm f X Y : X ≡ₚ Y -> taken f X -> taken f Y.
Proof. intros Hp [Hl Ht]. split; [done|]. intros i Hi. rewrite Ht by done. f_equal. apply bool_decide_ext. by rewrite Hp. Qed.

(** One step of free_chain: the freed descriptor still tells whether the chain
    goes on. *)
Lemma free_chain_step fuel d i x X :
  taken (free d) (i :: X) -> fits (i :: X) -> desc d !! Z.to_nat i = Some x -> wok (wk d) -> Forall tok (waiting d) ->
  exists l f w, let d' := set_waiting (set_free (set_desc d l) f) [] w in
    free_chain wakeup (S fuel) d i = (if Z.testbit (flags x) 0 then free_chain wakeup fuel d' (next x) else Done d') /\
    taken f X /\ length l = length (desc d) /\ wok w /\
    forall j, 0 <= j -> j <> i -> l !! Z.to_nat j = desc d !! Z.to_nat j.
Proof.
  intros Ht Hf Hx Hw Hq. destruct (fits_cons _ _ Hf) as (R & _ & _).
  destruct (free_desc_ok d i x _ X Ht Hf (reflexivity _) Hx Hw Hq) as (d1 & E & [F1 (l & f & w & ->) F3 F4 F5]).
  exists l, f, w. cbn zeta. cbn [free_chain]. rewrite E. cbn [obind]. cbn in F3. split; [|split; [done|split; [done|split; [done|]]]].
  - rewrite (aget_some _ i (cleared x)); [done|lia|]. cbn. rewrite F3 by lia. by rewrite decide_True.
  - intros j Hj Hn. rewrite F3, decide_False by (done || congruence). done.
Qed.
Lemma free_chain_ok d q X Y :
  taken (free d) X -> fits X -> X ≡ₚ idxs q ++ Y -> chain d q -> wok (wk d) -> Forall tok (waiting d) ->
  exists l f w, free_chain wakeup 9 d (q_0 q) = Done (set_waiting (set_free (set_desc d l) f) [] w) /\
    taken f Y /\ length l = length (desc d) /\ wok w /\ forall j, j ∈ Y -> l !! Z.to_nat j = desc d !! Z.to_nat j.
Proof.
  intros Ht Hf Hp (H0 & H1 & H2 & _) Hw Hq. cbn in Hp.
  pose proof (fits_perm _ _ Hp Hf) as Hf0. apply (taken_perm _ _ _ Hp) in Ht.
  destruct (fits_cons _ _ Hf0) as (R0 & N0 & Hf1). destruct (fits_cons _ _ Hf1) as (R1 & N1 & Hf2).
  destruct (fits_cons _ _ Hf2) as (R2 & N2 & Hf3). 
  apply not_elem_of_cons in N0 as [N01 N0]. apply not_elem_of_cons in N0 as [N02 N0Y]. apply not_elem_of_cons in N1 as [N12 N1Y].
  destruct (free_chain_step 8 d _ _ _ Ht Hf0 H0 Hw Hq) as (l1 & g1 & w1 & E1 & T1 & L1 & W1 & S1).
  cbn [flags next] in E1. replace (Z.testbit _ 0) with true in E1 by done.
  edestruct (free_chain_step 7 (set_waiting (set_free (set_desc d l1) g1) [] w1) (q_1 q))
    as (l2 & g2 & w2 & E2 & T2 & L2 & W2 & S2); [exact T1|done|cbn; rewrite S1; [exact H1|lia|done]|done|constructor|].
  cbn [flags next] in E2. replace (Z.testbit _ 0) with true in E2 by by destruct (q_w q).
  edestruct (free_chain_step 6 (set_waiting (set_free (set_desc d l2) g2) [] w2) (q_2 q))
    as (l3 & g3 & w3 & E3 & T3 & L3 & W3 & S3); [exact T2|done| |done|constructor|].
  { cbn. cbn in S2. rewrite S2, S1 by (lia || done). exact H2. }
  exists l3, g3, w3. cbn in L2, L3, S2, S3. split; [|split; [done|split; [lia|split; [done|]]]].
  - etrans; [exact E1|]. etrans; [exact E2|]. exact E3.
  - clear E1 E2 E3. intros j Hj. assert (0 <= j) by (destruct Hf3 as [_ Hr]; apply Hr; done).
    rewrite S3, S2, S1; try (done || by intros ->).
Qed.

(** ** The invariant: [out] are the requests the device has not served, in the
    order of the ring, [cmp] those it has served, [fin] those the interrupt
    handler has seen. *)
Record Inv d (out cmp fin : list Req) : Prop := {
  v_len : length (desc d) = 8%nat /\ length (avail d) = 10%nat /\ length (elems d) = 8%nat /\
          length (i_ready d) = 8%nat /\ length (i_status d) = 8%nat;
  v_fits : fits (idxl (out ++ cmp ++ fin));
  v_taken : taken (free d) (idxl (out ++ cmp ++ fin));
  v_rs : NoDup (q_r <$> out ++ cmp ++ fin);
  v_chain : forall q, q ∈ out ++ cmp ++ fin -> chain d q /\ i_ready d !! Z.to_nat (q_0 q) = Some (Some (q_r q)) /\
    is_Some (bufs d !! q_b q) /\ is_Some (sectors d !! q_s q);
  v_rdy0 : forall q, q ∈ out ++ cmp -> ready d !! q_r q = Some 0;
  v_rdy1 : forall q, q ∈ fin -> ready d !! q_r q = Some 1;
  v_uid : 0 <= used_id d < 65536 /\ vat (avail d) 1 = u16 (used_id d + Z.of_nat (length out));
  v_uix : used_idx d = (used_id d - Z.of_nat (length cmp)) mod 8;
  v_av : forall k q, out !! k = Some q -> vat (avail d) (2 + (used_id d + Z.of_nat k) mod 8) = q_0 q;
  v_el : forall k q, cmp !! k = Some q -> vat (elems d) ((used_idx d + Z.of_nat k) mod 8) = q_0 q;
  v_bufs : (forall b l, bufs d !! b = Some l -> zlen l = blockSize) /\ (forall s l, sectors d !! s = Some l -> zlen l = blockSize);
  v_wk : wok (wk d) /\ Forall tok (waiting d)
}.
Lemma idxl_length l : length (idxl l) = (3 * length l)%nat.
Proof. induction l as [|q l IH]; [done|]. unfold idxl in *. rewrite bind_cons, length_app, IH. cbn. lia. Qed.
Lemma idxl_app l1 l2 : idxl (l1 ++ l2) = idxl l1 ++ idxl l2.
Proof. apply bind_app. Qed.
Lemma idxl_perm l1 l2 : l1 ≡ₚ l2 -> idxl l1 ≡ₚ idxl l2.
Proof. intros Hp. unfold idxl. by rewrite Hp. Qed.
Lemma in_idxl q l j : q ∈ l -> j ∈ idxs q -> j ∈ idxl l.
Proof. intros Hq Hj. apply list_elem_of_bind. by exists q. Qed.
Lemma act_small d out cmp fin : Inv d out cmp fin -> (length out + length cmp + length fin <= 2)%nat.
Proof.
  intros I. pose proof (fits_length _ (v_fits _ _ _ _ I)) as Hl. rewrite idxl_length, !length_app in Hl. lia.
Qed.
(** A chain only depends on its descriptors and its header. *)
Lemma chain_same d d' q :
  (forall j, j ∈ idxs q -> desc d' !! Z.to_nat j = desc d !! Z.to_nat j) -> hdrs d' !! q_r q = hdrs d !! q_r q ->
  chain d q -> chain d' q.
Proof.
  intros Hd Hh (H0 & H1 & H2 & H3). unfold chain, is_chain. rewrite Hh, !Hd by (unfold idxs; set_solver). done.
Qed.

(** The interrupt handler sees every served request once. *)
Lemma intr_step d q out cmp fin :
  Inv d out (q :: cmp) fin ->
  exists h, aget (elems d) (used_idx d) = Done h /\ aget (i_ready d) h = Done (Some (q_r q)) /\ ready d !! q_r q = Some 0 /\
    used_idx d mod NUM <> used_id d mod NUM /\
    Inv (mkDisk (desc d) (avail d) (used_id d) (elems d) (free d) (u16 ((used_idx d + 1) mod NUM)) (i_ready d)
           (i_status d) (waiting d) (hdrs d) (<[q_r q := 1]> (ready d)) (bufs d) (sectors d) (wk d)) out cmp (q :: fin).
Proof.
  intros I. pose proof (act_small _ _ _ _ I) as Hs. cbn in Hs.
  destruct I as [V1 V2 V3 V4 V5 V6 V7 V8 V9 V10 V11 V12 V13]. destruct V1 as (L1 & L2 & L3 & L4 & L5).
  assert (Hp : out ++ (q :: cmp) ++ fin ≡ₚ out ++ cmp ++ q :: fin).
  { f_equiv. cbn. by rewrite Permutation_middle. }
  pose proof (V11 0%nat q eq_refl) as Eh. rewrite Z.add_0_r in Eh.
  assert (Hu : 0 <= used_idx d < 8) by (rewrite V9; apply Z.mod_pos_bound; lia).
  rewrite Z.mod_small in Eh by lia.
  destruct (V5 q) as (Hc & Hr & Hb); [set_solver|]. destruct V8 as [V8 V8'].
  exists (q_0 q). split; [by rewrite aget_vat, Eh by lia|].
  assert (H0 : 0 <= q_0 q < 8) by (apply (proj2 V2); eapply (in_idxl q); [set_solver|unfold idxs; set_solver]).
  split; [by apply aget_some; [lia|]|]. split; [apply V6; set_solver|]. cbn in V9. unfold NUM.
  split; [rewrite V9; Z.to_euclidean_division_equations; lia|].
  split; cbn; auto.
  - by eapply fits_perm; [apply idxl_perm|].
  - by eapply taken_perm; [apply idxl_perm|].
  - by rewrite <- Hp.
  - intros q' Hq'. apply V5. by rewrite Hp.
  - intros q' Hq'. rewrite lookup_insert_ne; [apply V6; set_solver|]. intros E.
    rewrite Hp in V4. rewrite app_assoc, fmap_app in V4. apply NoDup_app in V4 as (_ & V4 & _).
    apply (V4 (q_r q)); [rewrite E; by apply list_elem_of_fmap_2|cbn; set_solver].
  - intros q' [->|Hq']%elem_of_cons; [by rewrite lookup_insert_eq|].
    destruct (decide (q_r q = q_r q')) as [->|Hn]; [by rewrite lookup_insert_eq|]. rewrite lookup_insert_ne by done. by apply V7.
  - unfold NUM. rewrite u16_small by (Z.to_euclidean_division_equations; lia). rewrite V9. Z.to_euclidean_division_equations; lia.
  - intros k q' Hk. rewrite <- (V11 (S k) q' Hk). f_equal. unfold NUM.
    rewrite u16_small by (Z.to_euclidean_division_equations; lia). Z.to_euclidean_division_equations; lia.
Qed.
Lemma intr_ok cmp : forall d out fin fuel,
  Inv d out cmp fin -> (length cmp <= fuel)%nat ->
  exists d', intr_loop fuel d = Done d' /\ Inv d' out [] (rev cmp ++ fin) /\ bufs d' = bufs d /\ sectors d' = sectors d.
Proof.
  induction cmp as [|q cmp IH]; intros d out fin fuel I Hf.
  - exists d. split; [|done]. assert (E : used_idx d mod NUM = used_id d mod NUM).
    { rewrite (v_uix _ _ _ _ I). unfold NUM. cbn. by rewrite Z.sub_0_r, Zmod_mod. }
    apply Z.eqb_eq in E. destruct fuel; cbn; by rewrite E.
  - destruct (intr_step _ _ _ _ _ I) as (h & E1 & E2 & E3 & En & I'). destruct fuel as [|fuel]; [cbn in Hf; lia|].
    cbn [intr_loop]. apply Z.eqb_neq in En. rewrite En, E1. cbn [obind]. rewrite E2. cbn [obind]. rewrite E3.
    destruct (IH _ _ _ fuel I') as (d' & E & I2 & Hb & Hs); [cbn in Hf; lia|].
    exists d'. split; [done|]. split; [|done]. cbn. by rewrite <- app_assoc.
Qed.

(** The device serves the next request. *)
Lemma serve_ok `{!BlkDevice W} d q out cmp fin buf sec :
  Inv d (q :: out) cmp fin -> bufs d !! q_b q = Some buf -> sectors d !! q_s q = Some sec ->
  vat (avail d) 1 <> used_id d /\ dev_serve d = served d (q_0 q) (q_b q) (q_w q) (q_s q) buf sec /\
  Inv (served d (q_0 q) (q_b q) (q_w q) (q_s q) buf sec) out (cmp ++ [q]) fin.
Proof.
  intros I Hb Hs. pose proof (act_small _ _ _ _ I) as Hsm. cbn in Hsm.
  destruct I as [V1 V2 V3 V4 V5 V6 V7 V8 V9 V10 V11 V12 V13]. destruct V1 as (L1 & L2 & L3 & L4 & L5).
  assert (Hp : (q :: out) ++ cmp ++ fin ≡ₚ out ++ (cmp ++ [q]) ++ fin).
  { cbn. rewrite <- app_assoc. cbn. rewrite <- Permutation_middle. rewrite <- Permutation_middle. done. }
  destruct (V5 q) as (Hc & Hr & _); [set_solver|]. destruct V8 as [V8 V8']. destruct V12 as [V12 V12'].
  assert (H0 : 0 <= q_0 q < 8) by (apply (proj2 V2); eapply (in_idxl q); [set_solver|unfold idxs; set_solver]).
  assert (Ha : vat (avail d) 1 <> used_id d).
  { rewrite V8'. cbn [length]. unfold u16. Z.to_euclidean_division_equations; lia. }
  split; [done|]. pose proof (V10 0%nat q eq_refl) as E0. rewrite Z.add_0_r in E0. split.
  { by eapply dev_law; eauto. }
  split; cbn; rewrite ?length_upd; auto.
  - by eapply fits_perm; [apply idxl_perm|].
  - by eapply taken_perm; [apply idxl_perm|].
  - by rewrite <- Hp.
  - intros q' Hq'. destruct (V5 q') as (H1 & H2 & H3 & H4); [by rewrite Hp|]. split; [by eapply chain_same; [| |exact H1]|].
    split; [done|]. split; destruct (q_w q); auto; apply lookup_insert_is_Some'; auto.
  - intros q' Hq'. apply V6. set_solver.
  - cbn [length] in V8'. rewrite V8'. unfold u16. split; Z.to_euclidean_division_equations; lia.
  - rewrite V9, length_app. cbn [length]. unfold u16. Z.to_euclidean_division_equations; lia.
  - intros k q' Hk. rewrite <- (V10 (S k) q' Hk). f_equal. unfold u16. Z.to_euclidean_division_equations; lia.
  - intros k q' Hk. assert (Hui : used_idx d = (used_id d - Z.of_nat (length cmp)) mod 8) by done. unfold NUM.
    apply lookup_app_Some in Hk as [Hk|[Hk1 Hk2]].
    + pose proof (lookup_lt_Some _ _ _ Hk). rewrite vat_upd_ne; [by apply V11|..]; Z.to_euclidean_division_equations; lia.
    + apply list_lookup_singleton_Some in Hk2 as [Hk2 <-].
      assert (Ek : (used_idx d + Z.of_nat k) mod 8 = used_id d mod 8) by (rewrite Hui; Z.to_euclidean_division_equations; lia).
      rewrite Ek. apply vat_upd_eq. Z.to_euclidean_division_equations; lia.
  - split; destruct (q_w q); auto.
    + intros b l [[_ <-]|[_ Hl]]%lookup_insert_Some; eauto.
    + intros s l [[_ <-]|[_ Hl]]%lookup_insert_Some; eauto.
Qed.

(** A finished request gives its descriptors back. *)
Lemma end_ok d q out cmp fin :
  Inv d out cmp (q :: fin) ->
  exists d', rw_end wakeup d (q_r q) (q_0 q) = Done (true, d') /\ Inv d' out cmp fin /\ bufs d' = bufs d /\ sectors d' = sectors d.
Proof.
  intros I. destruct I as [V1 V2 V3 V4 V5 V6 V7 V8 V9 V10 V11 V12 V13]. destruct V1 as (L1 & L2 & L3 & L4 & L5).
  assert (Hp : out ++ cmp ++ q :: fin ≡ₚ q :: out ++ cmp ++ fin) by (rewrite !app_assoc; by rewrite <- Permutation_middle).
  destruct (V5 q) as (Hc & _); [set_solver|]. destruct V13 as [Hw Hq].
  pose proof (idxl_perm _ _ Hp) as Hx. unfold idxl in Hx at 2. rewrite bind_cons in Hx. fold (idxl (out ++ cmp ++ fin)) in Hx.
  destruct (free_chain_ok d q _ _ V3 V2 Hx Hc Hw Hq) as (l & f & w & E & T & Hl & Hwk & Hs).
  unfold rw_end. rewrite (V7 q) by set_solver. rewrite E. cbn [obind]. eexists. split; [done|].
  split; [|done]. pose proof (fits_perm _ _ Hx V2) as Hf. rewrite Hp in V4. cbn in V4. apply NoDup_cons in V4 as [Hnr V4].
  assert (Hne : forall q', q' ∈ out ++ cmp ++ fin -> q_r q <> q_r q').
  { intros q' Hq' Er. apply Hnr. rewrite Er. by apply list_elem_of_fmap_2. }
  split; cbn; auto.
  - by rewrite Hl.
  - destruct (fits_cons _ _ Hf) as (_ & _ & Hf1). destruct (fits_cons _ _ Hf1) as (_ & _ & Hf2). by destruct (fits_cons _ _ Hf2) as (_ & _ & ?).
  - intros q' Hq'. destruct (V5 q') as (H1 & H2 & H3); [rewrite Hp; set_solver|]. split; [|done].
    eapply chain_same; [| |exact H1]; cbn.
    + intros j Hj. apply Hs. by eapply in_idxl.
    + rewrite lookup_delete_ne; [done|by apply Hne].
  - intros q' Hq'. rewrite lookup_delete_ne; [by apply V6|]. apply Hne. set_solver.
  - intros q' Hq'. rewrite lookup_delete_ne; [apply V7; set_solver|]. apply Hne. set_solver.
Qed.

(** A new request. *)
Definition formatted d (q : Req) (f : list bool) : Disk W :=
  let fl := if q_w q then VRING_DESC_F_NEXT else VRING_DESC_F_NEXT + VRING_DESC_F_WRITE in
  mkDisk
    (upd (upd (upd (desc d) (q_0 q) (mkDesc (PHdr (q_r q)) sizeof_outhdr VRING_DESC_F_NEXT (q_1 q))) (q_1 q)
       (mkDesc (PData (q_b q)) blockSize fl (q_2 q))) (q_2 q) (mkDesc (PStatus (q_0 q)) 1 VRING_DESC_F_WRITE 0))
    (upd (upd (avail d) (2 + vat (avail d) 1 mod NUM) (q_0 q)) 1 (u16 (vat (avail d) 1 + 1)))
    (used_id d) (elems d) f (used_idx d) (upd (i_ready d) (q_0 q) (Some (q_r q))) (upd (i_status d) (q_0 q) 0) (waiting d)
    (<[q_r q := mkHdr (if q_w q then VIRTIO_BLK_T_OUT else VIRTIO_BLK_T_IN) (q_s q)]> (hdrs d)) (<[q_r q := 0]> (ready d))
    (bufs d) (sectors d) (wk d).
Lemma begin_formats d t r b s (wr : bool) out cmp fin :
  Inv d out cmp fin -> (length out + length cmp + length fin <= 1)%nat ->
  exists i0 i1 i2 f, let q := mkReq r b wr s i0 i1 i2 in
    rw_begin wakeup d t r b s wr = Done (Some i0, formatted d q f) /\
    fits (idxs q ++ idxl (out ++ cmp ++ fin)) /\ taken f (idxs q ++ idxl (out ++ cmp ++ fin)).
Proof.
  intros I Hs. destruct (v_len _ _ _ _ I) as (L1 & L2 & L3 & L4 & L5).
  destruct (alloc3_some d (idxl (out ++ cmp ++ fin))) as (i0 & i1 & i2 & f & E & Hf & Ht);
    [apply I|apply I|rewrite idxl_length, !length_app; lia|].
  exists i0, i1, i2, f. cbn zeta. unfold rw_begin. rewrite E. cbn [obind].
  destruct (fits_cons _ _ Hf) as (R2 & _ & Hf1). destruct (fits_cons _ _ Hf1) as (R1 & _ & Hf0). destruct (fits_cons _ _ Hf0) as (R0 & _ & _).
  assert (Hp : i2 :: i1 :: i0 :: idxl (out ++ cmp ++ fin) ≡ₚ idxs (mkReq r b wr s i0 i1 i2) ++ idxl (out ++ cmp ++ fin)).
  { cbn. rewrite Permutation_swap. etrans; [|apply Permutation_swap]. rewrite (Permutation_swap i0 i2). done. }
  split; [|split; [by eapply fits_perm|by eapply taken_perm]].
  unfold format3, set_frames, set_free. cbn [desc avail used_id elems free used_idx i_ready i_status waiting hdrs ready bufs sectors wk].
  pose proof (Z.mod_pos_bound (vat (avail d) 1) NUM ltac:(done)) as Hm. unfold NUM in Hm.
  rewrite aset_upd by lia. cbn [obind]. rewrite aset_upd by (rewrite length_upd; lia). cbn [obind].
  rewrite aset_upd by lia. cbn [obind]. rewrite aset_upd by (rewrite !length_upd; lia). cbn [obind].
  rewrite aset_upd by lia. cbn [obind]. rewrite aget_vat by lia. cbn [obind]. rewrite aset_upd by (unfold NUM; lia). cbn [obind].
  rewrite aset_upd by (rewrite length_upd; lia). cbn [obind]. do 3 f_equal. unfold formatted. cbn. by destruct wr.
Qed.
Lemma formatted_Inv d q f out cmp fin :
  Inv d out cmp fin -> fits (idxs q ++ idxl (out ++ cmp ++ fin)) -> taken f (idxs q ++ idxl (out ++ cmp ++ fin)) ->
  q_r q ∉ q_r <$> out ++ cmp ++ fin -> is_Some (bufs d !! q_b q) -> is_Some (sectors d !! q_s q) ->
  Inv (formatted d q f) (out ++ [q]) cmp fin.
Proof.
  intros I Hf Ht Hr Hb Hs. pose proof (fits_length _ Hf) as Hsm. rewrite length_app, idxl_length, !length_app in Hsm. cbn in Hsm.
  destruct I as [V1 V2 V3 V4 V5 V6 V7 V8 V9 V10 V11 V12 V13]. destruct V1 as (L1 & L2 & L3 & L4 & L5).
  assert (Hp : q :: out ++ cmp ++ fin ≡ₚ (out ++ [q]) ++ cmp ++ fin) by (rewrite <- app_assoc; cbn; apply Permutation_middle).
  pose proof (idxl_perm _ _ Hp) as Hx. unfold idxl in Hx at 1. rewrite bind_cons in Hx. fold (idxl (out ++ cmp ++ fin)) in Hx.
  pose proof Hf as Hf0. cbn in Hf. destruct (fits_cons _ _ Hf) as (R0 & N0 & Hf1). destruct (fits_cons _ _ Hf1) as (R1 & N1 & Hf2).
  destruct (fits_cons _ _ Hf2) as (R2 & N2 & _). clear Hf Hf1 Hf2.
  apply not_elem_of_cons in N0 as [N01 N0]. apply not_elem_of_cons in N0 as [N02 N0]. apply not_elem_of_cons in N1 as [N12 N1].
  destruct V8 as [V8 V8'].
  assert (Hold : forall j, j ∈ idxl (out ++ cmp ++ fin) -> 0 <= j /\ j <> q_0 q /\ j <> q_1 q /\ j <> q_2 q).
  { intros j Hj. split; [by apply (proj2 V2)|]. split; [by intros ->|]. split; by intros ->. }
  assert (Hne : forall q', q' ∈ out ++ cmp ++ fin -> q_r q <> q_r q').
  { intros q' Hq' Er. apply Hr. rewrite Er. by apply list_elem_of_fmap_2. }
  split; cbn; rewrite ?length_upd; auto.
  - by eapply fits_perm; [exact Hx|].
  - by eapply taken_perm; [exact Hx|].
  - rewrite <- Hp. by constructor.
  - intros q' Hq'. rewrite <- Hp in Hq'. apply elem_of_cons in Hq' as [->|Hq'].
    + split; [|split; [|done]].
      * unfold chain, is_chain. cbn. rewrite !lookup_upd by (rewrite ?length_upd; lia).
        rewrite lookup_insert_eq. repeat split; repeat case_decide; congruence.
      * rewrite lookup_upd by lia. by rewrite decide_True.
    + destruct (V5 q' Hq') as (H1 & H2 & H3). split; [|split; [|done]].
      * eapply chain_same; [| |exact H1]; cbn.
        -- intros j Hj. destruct (Hold j) as (G0 & G1 & G2 & G3); [by eapply in_idxl|].
           rewrite !lookup_upd by (rewrite ?length_upd; lia). by rewrite !decide_False by congruence.
        -- by rewrite lookup_insert_ne by auto.
      * destruct (Hold (q_0 q')) as (G0 & G1 & _); [eapply in_idxl; [done|unfold idxs; set_solver]|].
        rewrite lookup_upd by lia. by rewrite decide_False by congruence.
  - intros q' Hq'. assert (Hq2 : q' = q \/ q' ∈ out ++ cmp) by set_solver. destruct Hq2 as [->|Hq2]; [by rewrite lookup_insert_eq|].
    rewrite lookup_insert_ne; [by apply V6|]. apply Hne. set_solver.
  - intros q' Hq'. rewrite lookup_insert_ne; [by apply V7|]. apply Hne. set_solver.
  - split; [done|]. rewrite vat_upd_eq by (rewrite length_upd; lia). rewrite V8', length_app. cbn [length].
    unfold u16. Z.to_euclidean_division_equations; lia.
  - assert (Ea : vat (avail d) 1 mod NUM = (used_id d + Z.of_nat (length out)) mod 8).
    { rewrite V8'. unfold u16, NUM. Z.to_euclidean_division_equations; lia. }
    rewrite Ea. intros k q' Hk. apply lookup_app_Some in Hk as [Hk|[Hk1 Hk2]].
    + pose proof (lookup_lt_Some _ _ _ Hk). rewrite !vat_upd_ne; [by apply V10|..]; Z.to_euclidean_division_equations; lia.
    + apply list_lookup_singleton_Some in Hk2 as [Hk2 <-]. replace k with (length out) by lia.
      rewrite vat_upd_ne by (Z.to_euclidean_division_equations; lia). apply vat_upd_eq. Z.to_euclidean_division_equations; lia.
Qed.
Lemma begin_full d t r b s wr out cmp fin :
  Inv d out cmp fin -> (length out + length cmp + length fin = 2)%nat -> tok t ->
  exists d', rw_begin wakeup d t r b s wr = Done (None, d') /\ Inv d' out cmp fin /\ bufs d' = bufs d /\ sectors d' = sectors d.
Proof.
  intros I Hs Hk. destruct (v_len _ _ _ _ I) as (L1 & L2 & L3 & L4 & L5). destruct (v_wk _ _ _ _ I) as [Hw Hq].
  destruct (alloc3_none d (idxl (out ++ cmp ++ fin))) as (l & f & w & E & Ht & Hl & Hw' & Hd);
    [apply I|apply I|rewrite idxl_length, !length_app; lia|done|done|done|].
  unfold rw_begin. rewrite E. cbn [obind]. eexists. split; [done|]. split; [|done].
  split; cbn; try apply I; try done.
  - intros q Hq'. destruct (v_chain _ _ _ _ I q Hq') as (H1 & H2). split; [|done].
    eapply chain_same; [| |exact H1]; cbn; [|done]. intros j Hj. apply Hd. by eapply in_idxl.
  - split; [done|]. repeat constructor. done.
Qed.

Lemma Inv_fin d out cmp fin fin' : fin ≡ₚ fin' -> Inv d out cmp fin -> Inv d out cmp fin'.
Proof.
  intros Hp [V1 V2 V3 V4 V5 V6 V7 V8 V9 V10 V11 V12 V13].
  assert (Ha : out ++ cmp ++ fin ≡ₚ out ++ cmp ++ fin') by by rewrite Hp.
  split; auto.
  - by eapply fits_perm; [apply idxl_perm|].
  - by eapply taken_perm; [apply idxl_perm|].
  - by rewrite <- Ha.
  - intros q Hq. apply V5. by rewrite Ha.
  - intros q Hq. apply V7. by rewrite Hp.
Qed.
End Proofs.

(** ** Calls, interrupts and the device in any order

    [calls] has the calls that wait, with the first descriptor of their chain.
    A call whose request is not finished stays in its waiting loop ([EEnd] does nothing)
    until the loop runs out of its 2^31 - 1 turns ([ETimeout]): then the chain is freed,
    the variables of the turn are gone and the call tries again, with another [EBegin]. *)
Inductive ev : Type :=
| EBegin (t r b s : Z) (wr : bool)
| EServe
| EIntr
| EEnd (r : Z)
| ETimeout (r : Z).
Definition vexec {W} `{!BlkDevice W} (wakeup : W -> Z -> outcome W) (e : ev) (x : Disk W * gmap Z Z)
  : outcome (Disk W * gmap Z Z) :=
  let (d, calls) := x in
  match e with
  | EBegin t r b s wr =>
      match calls !! r with
      | Some _ => Done x
      | None =>
          let* (o, d) := rw_begin wakeup d t r b s wr in
          Done (d, match o with Some i0 => <[r := i0]> calls | None => calls end)
      end
  | EServe => if vat (avail d) 1 =? used_id d then Done x else Done (dev_serve d, calls)
  | EIntr => let* d := virtio_disk_intr d in Done (d, calls)
  | EEnd r =>
      match calls !! r with
      | None => Done x
      | Some i0 =>
          if bool_decide (ready d !! r = Some 0) then Done x
          else let* (_, d) := rw_end wakeup d r i0 in Done (d, delete r calls)
      end
  | ETimeout r =>
      match calls !! r with
      | None => Done x
      | Some i0 => let* (_, d) := rw_end wakeup d r i0 in Done (d, delete r calls)
      end
  end.
Fixpoint vrun {W} `{!BlkDevice W} (wakeup : W -> Z -> outcome W) (es : list ev) (x : Disk W * gmap Z Z)
  : outcome (Disk W * gmap Z Z) :=
  match es with [] => Done x | e :: es => let* x := vexec wakeup e x in vrun wakeup es x end.

(** The abstract disk: a queue for at most two requests. *)
Record AReq : Type := mkAReq { a_r : Z; a_b : Z; a_w : bool; a_s : Z }.
Record ADisk : Type := mkADisk {
  a_out : list AReq; a_cmp : list AReq; a_fin : list AReq; a_bufs : gmap Z (list Z); a_sectors : gmap Z (list Z)
}.
Definition a_all (a : ADisk) : list AReq := a_out a ++ a_cmp a ++ a_fin a.
Definition transfer (q : AReq) (bs ss : gmap Z (list Z)) : gmap Z (list Z) * gmap Z (list Z) :=
  match bs !! a_b q, ss !! a_s q with
  | Some buf, Some sec => if a_w q then (bs, <[a_s q := buf]> ss) else (<[a_b q := sec]> bs, ss)
  | _, _ => (bs, ss)
  end.
Definition aexec (e : ev) (a : ADisk) : ADisk :=
  match e with
  | EBegin t r b s wr =>
      if bool_decide (r ∈ a_r <$> a_all a) || (2 <=? length (a_all a))%nat then a
      else mkADisk (a_out a ++ [mkAReq r b wr s]) (a_cmp a) (a_fin a) (a_bufs a) (a_sectors a)
  | EServe =>
      match a_out a with
      | [] => a
      | q :: out =>
          let (bs, ss) := transfer q (a_bufs a) (a_sectors a) in mkADisk out (a_cmp a ++ [q]) (a_fin a) bs ss
      end
  | EIntr => mkADisk (a_out a) [] (a_cmp a ++ a_fin a) (a_bufs a) (a_sectors a)
  | EEnd r => mkADisk (a_out a) (a_cmp a) (filter (fun q => a_r q <> r) (a_fin a)) (a_bufs a) (a_sectors a)
  | ETimeout _ => a
  end.
Definition arun (es : list ev) (a : ADisk) : ADisk := foldl (fun a e => aexec e a) a es.
Definition ev_ok (tok : Z -> Prop) (bs ss : gmap Z (list Z)) (e : ev) : Prop :=
  match e with EBegin t r b s wr => tok t /\ is_Some (bs !! b) /\ is_Some (ss !! s) | ETimeout _ => False | _ => True end.

Section Refine.
Context {W : Type} `{!BlkDevice W} (wakeup : W -> Z -> outcome W) (wok : W -> Prop) (tok : Z -> Prop).
Context (wake_ok : forall w t, wok w -> tok t -> exists w', wakeup w t = Done w' /\ wok w').

Definition erase (q : Req) : AReq := mkAReq (q_r q) (q_b q) (q_w q) (q_s q).
Definition Rel (x : Disk W * gmap Z Z) (a : ADisk) : Prop := exists out cmp fin,
  Inv wok tok x.1 out cmp fin /\ a_out a = erase <$> out /\ a_cmp a = erase <$> cmp /\ a_fin a ≡ₚ erase <$> fin /\
  a_bufs a = bufs x.1 /\ a_sectors a = sectors x.1 /\
  forall r i, x.2 !! r = Some i <-> exists q, q ∈ out ++ cmp ++ fin /\ q_r q = r /\ q_0 q = i.

Lemma Rel_all a out cmp fin :
  a_out a = erase <$> out -> a_cmp a = erase <$> cmp -> a_fin a ≡ₚ erase <$> fin ->
  a_r <$> a_all a ≡ₚ q_r <$> out ++ cmp ++ fin /\ length (a_all a) = (length out + length cmp + length fin)%nat.
Proof.
  intros E1 E2 E3. unfold a_all. rewrite E1, E2, E3, !fmap_app, <- !list_fmap_compose. split; [done|].
  rewrite !length_app, !length_fmap. apply Permutation_length in E3. rewrite length_fmap in E3. lia.
Qed.
Lemma step_begin d calls a t r b s wr :
  Rel (d, calls) a -> ev_ok tok (a_bufs a) (a_sectors a) (EBegin t r b s wr) ->
  exists x', vexec wakeup (EBegin t r b s wr) (d, calls) = Done x' /\ Rel x' (aexec (EBegin t r b s wr) a).
Proof.
  intros (out & cmp & fin & I & E1 & E2 & E3 & E4 & E5 & Hc) (Hk & Hb & Hs). cbn [vexec aexec fst snd] in *.
  destruct (Rel_all a out cmp fin E1 E2 E3) as [Hr Hl]. pose proof (act_small _ _ _ _ _ _ I) as Hsm.
  destruct (calls !! r) as [i|] eqn:Er.
  { apply Hc in Er as (q & Hq & Hqr & _). rewrite bool_decide_true by (rewrite Hr, <- Hqr; by apply list_elem_of_fmap_2).
    eexists. split; [done|]. exists out, cmp, fin. by split_and!. }
  assert (Hn : r ∉ q_r <$> out ++ cmp ++ fin).
  { intros (q & -> & Hq)%list_elem_of_fmap. assert (E : calls !! q_r q = Some (q_0 q)) by (apply Hc; by exists q). congruence. }
  rewrite bool_decide_false by by rewrite Hr. rewrite Hl. cbn [orb].
  destruct (Nat.leb_spec 2 (length out + length cmp + length fin)) as [Hfull|Hroom].
  - destruct (begin_full wakeup wok tok wake_ok d t r b s wr out cmp fin I ltac:(lia) Hk) as (d' & -> & I' & Eb & Es).
    eexists. split; [done|]. exists out, cmp, fin. cbn. rewrite Eb, Es. by split_and!.
  - destruct (begin_formats wakeup wok tok wake_ok d t r b s wr out cmp fin I ltac:(lia)) as (i0 & i1 & i2 & f & E & Hf & Ht).
    rewrite E. cbn [obind]. eexists. split; [done|]. set (q := mkReq r b wr s i0 i1 i2) in *.
    exists (out ++ [q]), cmp, fin. cbn.
    split; [apply (formatted_Inv wakeup wok tok wake_ok); auto; cbn; [by rewrite <- E4|by rewrite <- E5]|]. rewrite E1, fmap_app. cbn.
    split; [done|]. split; [done|]. split; [done|]. split; [done|]. split; [done|]. intros r' i. rewrite lookup_insert_Some, Hc. split.
    + intros [[-> ->]|[Hne (q' & Hq' & H1 & H2)]]; [by exists q; split; [set_solver|]|exists q'; split; [set_solver|done]].
    + intros (q' & Hq' & H1 & H2). rewrite <- app_assoc in Hq'. cbn in Hq'. rewrite <- Permutation_middle in Hq'.
      apply elem_of_cons in Hq' as [->|Hq']; [by left|]. right. split; [|by exists q'].
      intros ->. apply Hn. rewrite <- H1. by apply list_elem_of_fmap_2.
Qed.
Lemma step_serve d calls a : Rel (d, calls) a -> exists x', vexec wakeup EServe (d, calls) = Done x' /\ Rel x' (aexec EServe a).
Proof.
  intros (out & cmp & fin & I & E1 & E2 & E3 & E4 & E5 & Hc). cbn in *. rewrite E1. destruct out as [|q out]; cbn.
  - destruct (v_uid _ _ _ _ _ _ I) as [Hu Ha]. cbn in Ha. rewrite Z.add_0_r in Ha. unfold u16 in Ha. rewrite Z.mod_small in Ha by done.
    rewrite Ha, Z.eqb_refl. eexists. split; [done|]. by exists [], cmp, fin.
  - destruct (v_chain _ _ _ _ _ _ I q) as (_ & _ & [buf Hb] & [sec Hs]); [set_solver|].
    destruct (serve_ok wakeup wok tok wake_ok d q out cmp fin buf sec I Hb Hs) as (Hne & Ed & I'). apply Z.eqb_neq in Hne. rewrite Hne.
    eexists. split; [done|]. unfold transfer. cbn. rewrite E4, E5, Hb, Hs.
    assert (Hcalls : forall r i, calls !! r = Some i <-> exists q', q' ∈ out ++ (cmp ++ [q]) ++ fin /\ q_r q' = r /\ q_0 q' = i).
    { intros r i. rewrite Hc. split; intros (q' & Hq' & ?); exists q'; (split; [set_solver|done]). }
    exists out, (cmp ++ [q]), fin. cbn. rewrite Ed. destruct (q_w q) eqn:Ew; cbn; rewrite E2, fmap_app; by split_and!.
Qed.
Lemma step_intr d calls a : Rel (d, calls) a -> exists x', vexec wakeup EIntr (d, calls) = Done x' /\ Rel x' (aexec EIntr a).
Proof.
  intros (out & cmp & fin & I & E1 & E2 & E3 & E4 & E5 & Hc). cbn [vexec aexec fst snd] in *. pose proof (act_small _ _ _ _ _ _ I) as Hsm.
  destruct (intr_ok wakeup wok tok wake_ok cmp d out fin 8 I ltac:(lia)) as (d' & E & I' & Eb & Es). unfold virtio_disk_intr. rewrite E. cbn [obind].
  eexists. split; [done|]. exists out, [], (rev cmp ++ fin). cbn [fst snd a_out a_cmp a_fin a_bufs a_sectors]. rewrite Eb, Es.
  assert (Hp : rev cmp ++ fin ≡ₚ cmp ++ fin) by by rewrite <- (Permutation_rev cmp).
  repeat (split; [done|]). split; [by rewrite Hp, fmap_app, E2, E3|]. repeat (split; [done|]).
  intros r i. rewrite Hc. split; intros (q & Hq & ?); exists q; (split; [|done]); [by rewrite Hp|by rewrite Hp in Hq].
Qed.
Lemma step_end d calls a r : Rel (d, calls) a -> exists x', vexec wakeup (EEnd r) (d, calls) = Done x' /\ Rel x' (aexec (EEnd r) a).
Proof.
  intros (out & cmp & fin & I & E1 & E2 & E3 & E4 & E5 & Hc). cbn [vexec aexec fst snd] in *.
  assert (Hkeep : (forall q, q ∈ fin -> q_r q <> r) -> Rel (d, calls) (aexec (EEnd r) a)).
  { intros Hno. exists out, cmp, fin. cbn. repeat (split; [done|]). split; [|done]. rewrite E3, filter_all; [done|].
    intros x (q & -> & Hq)%list_elem_of_fmap. by apply Hno. }
  pose proof (v_rs _ _ _ _ _ _ I) as Hnd.
  destruct (calls !! r) as [i|] eqn:Er.
  2: { eexists. split; [done|]. apply Hkeep. intros q Hq Eq. assert (E : calls !! r = Some (q_0 q)); [|congruence].
       apply Hc. exists q. split; [set_solver|done]. }
  apply Hc in Er as (q & Hq & Hqr & Hq0). rewrite app_assoc in Hq. apply elem_of_app in Hq as [Hq|Hq].
  - rewrite bool_decide_true by (rewrite <- Hqr; by eapply v_rdy0). eexists. split; [done|]. apply Hkeep. intros q' Hq' Eq'.
    rewrite app_assoc, fmap_app in Hnd. apply NoDup_app in Hnd as (_ & Hnd & _). apply (Hnd r).
    + rewrite <- Hqr. by apply list_elem_of_fmap_2.
    + rewrite <- Eq'. by apply list_elem_of_fmap_2.
  - rewrite bool_decide_false by (rewrite <- Hqr, (v_rdy1 _ _ _ _ _ _ I q Hq); done).
    apply elem_of_Permutation in Hq as [fin1 Hp]. apply (Inv_fin _ _ _ _ _ _ _ Hp) in I.
    destruct (end_ok wakeup wok tok wake_ok d q out cmp fin1 I) as (d' & E & I' & Eb & Es).
    rewrite <- Hqr, <- Hq0, E. cbn [obind]. eexists. split; [done|]. exists out, cmp, fin1. cbn [fst snd a_out a_cmp a_fin a_bufs a_sectors]. rewrite Eb, Es.
    assert (Ha : out ++ cmp ++ fin ≡ₚ q :: out ++ cmp ++ fin1) by (rewrite Hp, !app_assoc; by rewrite <- Permutation_middle).
    rewrite Ha in Hnd. cbn in Hnd. apply NoDup_cons in Hnd as [Hnr _].
    assert (Hne : forall q', q' ∈ out ++ cmp ++ fin1 -> q_r q' <> q_r q).
    { intros q' Hq' Eq'. apply Hnr. rewrite <- Eq'. by apply list_elem_of_fmap_2. }
    repeat (split; [done|]). split.
    { rewrite E3, Hp, fmap_cons, filter_cons_False by (cbn; tauto). rewrite filter_all; [done|].
      intros x (q' & -> & Hq')%list_elem_of_fmap. cbn. apply Hne. set_solver. }
    repeat (split; [done|]). intros r' i'. rewrite lookup_delete_Some, Hc. split.
    + intros [Hn (q' & Hq' & H1 & H2)]. exists q'. rewrite Ha in Hq'. apply elem_of_cons in Hq' as [->|Hq']; [congruence|done].
    + intros (q' & Hq' & H1 & H2). split; [rewrite <- H1; intros Eq; by eapply Hne|]. exists q'. rewrite Ha. split; [set_solver|done].
Qed.
Lemma step_sim x a e : Rel x a -> ev_ok tok (a_bufs a) (a_sectors a) e -> exists x', vexec wakeup e x = Done x' /\ Rel x' (aexec e a).
Proof. destruct x as [d calls], e; try done; eauto using step_begin, step_serve, step_intr, step_end. Qed.
Lemma aexec_dom e a s : (is_Some (a_bufs (aexec e a) !! s) <-> is_Some (a_bufs a !! s)) /\
  (is_Some (a_sectors (aexec e a) !! s) <-> is_Some (a_sectors a !! s)).
Proof.
  destruct e; cbn; try done; [by case_match|]. destruct (a_out a) as [|q out]; [done|].
  unfold transfer. destruct (a_bufs a !! a_b q) as [buf|] eqn:Eb; [|done]. destruct (a_sectors a !! a_s q) as [sec|] eqn:Es; [|done].
  destruct (a_w q); cbn; (split; [|try done]); try done; rewrite lookup_insert_is_Some'; naive_solver.
Qed.
Lemma run_sim es : forall x a, Rel x a -> Forall (ev_ok tok (a_bufs a) (a_sectors a)) es ->
  exists x', vrun wakeup es x = Done x' /\ Rel x' (arun es a).
Proof.
  induction es as [|e es IH]; intros x a R Hok; cbn; [by exists x|]. apply Forall_cons in Hok as [He Hok].
  destruct (step_sim x a e R He) as (x1 & -> & R1). cbn. apply IH; [done|]. eapply Forall_impl; [exact Hok|].
  intros [t r b s wr| | | |]; cbn; auto. by rewrite (proj1 (aexec_dom e a b)), (proj2 (aexec_dom e a s)).
Qed.
Lemma Rel_init bs ss w :
  (forall b l, bs !! b = Some l -> zlen l = blockSize) -> (forall s l, ss !! s = Some l -> zlen l = blockSize) -> wok w ->
  Rel (virtio_disk_init bs ss w, ∅) (mkADisk [] [] [] bs ss).
Proof.
  intros Hb Hs Hw. exists [], [], []. cbn. split; [|repeat (split; [done|]); set_solver].
  split; cbn; try (done || set_solver).
  - split; [constructor|set_solver].
  - split; [done|]. intros i Hi. rewrite bool_decide_true by set_solver. apply (lookup_replicate_2 8 true). lia.
  - constructor.
Qed.
End Refine.

(** ** Claims *)
(** C10. The driver implements a queue for two requests, as long as no call runs out of
    the 2^31 - 1 turns of its waiting loop (late_completion_undefined shows what happens
    then), the calls name buffers and sectors that exist and have 512 bytes, the tasks can
    be woken, and the device serves the chains of its queue in order: whatever the order of
    calls, device activity, interrupts and returns, no descriptor is freed twice, no
    interrupt writes through a dead pointer and nothing panics; every call is accepted
    exactly when fewer than two are in progress, requests are carried out in the order of
    their submission and move exactly the bytes of their sector, and when no call is in
    progress all descriptors are free. *)
Theorem virtio_refines {W} `{!BlkDevice W} (wakeup : W -> Z -> outcome W) (wok : W -> Prop) (tok : Z -> Prop) bs ss w es :
  (forall w t, wok w -> tok t -> exists w', wakeup w t = Done w' /\ wok w') -> wok w ->
  (forall b l, bs !! b = Some l -> zlen l = blockSize) -> (forall s l, ss !! s = Some l -> zlen l = blockSize) ->
  Forall (ev_ok tok bs ss) es ->
  let a := arun es (mkADisk [] [] [] bs ss) in
  exists d calls, vrun wakeup es (virtio_disk_init bs ss w, ∅) = Done (d, calls) /\
    bufs d = a_bufs a /\ sectors d = a_sectors a /\ dom calls = list_to_set (a_r <$> a_all a) /\
    (calls = ∅ -> free d = replicate 8 true).
Proof.
  intros Hwk Hw Hb Hs Hes a. destruct (run_sim wakeup wok tok Hwk es (virtio_disk_init bs ss w, ∅) (mkADisk [] [] [] bs ss))
    as ([d calls] & E & out & cmp & fin & I & E1 & E2 & E3 & E4 & E5 & Hc); [by eapply Rel_init|done|].
  fold a in E1, E2, E3, E4, E5. cbn [fst snd] in *. exists d, calls. split; [done|]. split; [done|]. split; [done|].
  destruct (Rel_all a out cmp fin E1 E2 E3) as [Hr _]. split.
  - apply set_eq. intros r. rewrite elem_of_dom, elem_of_list_to_set, Hr, list_elem_of_fmap. split.
    + intros [i (q & Hq & <- & _)%Hc]. by exists q.
    + intros (q & -> & Hq). exists (q_0 q). apply Hc. by exists q.
  - intros ->. destruct (v_taken _ _ _ _ _ _ I) as [Hl Ht].
    assert (Hno : out ++ cmp ++ fin = []).
    { destruct (out ++ cmp ++ fin) as [|q l] eqn:El; [done|]. exfalso.
      assert (E' : (∅ : gmap Z Z) !! q_r q = Some (q_0 q)) by (apply Hc; exists q; split; [set_solver|done]). done. }
    rewrite Hno in Ht. apply list_eq. intros k. destruct (decide (k < 8)%nat) as [Hk|Hk].
    + rewrite lookup_replicate_2 by done. rewrite <- (Nat2Z.id k), Ht by lia. by rewrite bool_decide_true by set_solver.
    + rewrite !lookup_ge_None_2; [done|rewrite length_replicate; lia|lia].
Qed.

(** ** A device, and concrete runs *)
Definition seq_serve {W} (d : Disk W) : Disk W :=
  let h := vat (avail d) (2 + used_id d mod NUM) in
  if vat (avail d) 1 =? used_id d then d
  else
    match desc d !! Z.to_nat h with
    | Some (mkDesc (PHdr r) _ _ i1) =>
        match desc d !! Z.to_nat i1, hdrs d !! r with
        | Some (mkDesc (PData b) _ _ _), Some (mkHdr ty sector) =>
            match bufs d !! b, sectors d !! sector with
            | Some buf, Some sec => served d h b (ty =? VIRTIO_BLK_T_OUT) sector buf sec
            | _, _ => d
            end
        | _, _ => d
        end
    | _ => d
    end.
#[export] Instance seq_device W : BlkDevice W.
Proof.
  exists seq_serve. intros d h r b write sector i1 i2 buf sec Ha Hh (H1 & H2 & _ & H4) Hb Hs _ _.
  unfold seq_serve. rewrite Hh. apply Z.eqb_neq in Ha. rewrite Ha, H1, H2, H4, Hb, Hs. by destruct write.
Defined.
Definition ex_bufs : gmap Z (list Z) := {[ 1 := replicate 512 11; 2 := replicate 512 22 ]}.
Definition ex_secs : gmap Z (list Z) := {[ 5 := replicate 512 55; 6 := replicate 512 66 ]}.
(** Two calls at once, a third finds no descriptors; buffer 1 is written to
    sector 5, then sector 5 is read into buffer 2. *)
Definition ex_run : list ev :=
  [EBegin 100 1 1 5 true; EBegin 101 2 2 5 false; EBegin 102 3 1 6 false; EServe; EServe; EEnd 1; EIntr; EEnd 2; EEnd 1].
Definition ex_wake (w : list Z) (t : Z) : outcome (list Z) := Done (w ++ [t]).
Lemma ex_sized (m : gmap Z (list Z)) : m = ex_bufs \/ m = ex_secs -> forall b l, m !! b = Some l -> zlen l = blockSize.
Proof.
  intros [-> | ->] b l; unfold ex_bufs, ex_secs; rewrite lookup_insert_Some, lookup_singleton_Some; naive_solver.
Qed.
Lemma virtio_refines_witness :
  let a := arun ex_run (mkADisk [] [] [] ex_bufs ex_secs) in
  (a_bufs a !! 2 = Some (replicate 512 11) /\ a_all a = []) /\
  exists d calls, vrun ex_wake ex_run (virtio_disk_init ex_bufs ex_secs [], ∅) = Done (d, calls) /\
    bufs d = a_bufs a /\ sectors d = a_sectors a /\ dom calls = list_to_set (a_r <$> a_all a) /\
    (calls = ∅ -> free d = replicate 8 true).
Proof.
  intros a. split; [split; vm_compute; reflexivity|].
  apply (virtio_refines ex_wake (fun _ => True) (fun _ => True) ex_bufs ex_secs [] ex_run).
  - intros w t _ _. by eexists.
  - done.
  - apply ex_sized. by left.
  - apply ex_sized. by right.
  - repeat constructor; eexists; vm_compute; reflexivity.
Defined.

(** The loop of virtio_disk_rw gives up after a number of turns and frees the
    chain although the device may still work on it: when the interrupt of a request comes
    after its call has run out of turns, the handler writes to a variable that is gone. *)
Definition ex_timeout : list ev := [EBegin 100 1 1 5 true; EServe; ETimeout 1].
Theorem late_completion_undefined :
  (let* (d, calls) := vrun ex_wake ex_timeout (virtio_disk_init ex_bufs ex_secs [], ∅) in Done (free d, calls)) =
    Done (replicate 8 true, ∅) /\
  vrun ex_wake (ex_timeout ++ [EIntr]) (virtio_disk_init ex_bufs ex_secs [], ∅) = Undef.
Proof. split; vm_compute; reflexivity. Qed.
End Virtio.
