(* ===== verification/Scatter.v ===== *)
(** * Scatter: scattered input and output (include/scatterio.hh, the readv,
    writev and readPages of kernel/fs/fs.cc, kernel/syscall/uio.cc)

    A transfer goes through two objects: one gives the pieces of memory one after
    the other ([ScatterDst]: [d_next] is told how many bytes of the last piece
    were used), the other moves bytes between a piece and a file or the console
    ([ScatterSrc]). Memory is read and written through [KMemory]; physical memory
    is a function from addresses to bytes, user memory the interface [UserMem]. A
    piece of user memory is reached through a window on its mapping ([Region]): its
    address is moved by [region_bias], as VMOMapper and the bias of the code do.
    An iterator is an index into the vector; [junk] is what the code finds where
    it looks past the end of one. *)

From S2P Require Import Prelude Klib Buddy PageTable Sched Pipe Bytes Path Vfs File FileSys Ramfs.
Local Open Scope Z_scope.

Class KMemory (M : Type) : Type := mkKMemory {
  kread : M -> Z -> Z -> outcome (list Z);
  kwrite : M -> Z -> list Z -> outcome M
}.
(** ScatteredIO: [avail], [next] of the memory side and [contConsume] of the
    file side; [W] is what a transfer changes besides the object. *)
Class ScatterDst (D : Type) : Type := mkScatterDst {
  d_avail : D -> bool;
  d_next : D -> Z -> outcome (Segment * D)
}.
Class ScatterSrc (W S : Type) : Type := mkScatterSrc {
  s_avail : S -> bool;
  s_consume : W -> S -> Segment -> outcome (Z * S * W)
}.

Module Scatter.
Import File.

(** ** Memory *)
Definition Mem : Type := Z -> Z.
Definition mread (m : Mem) (a n : Z) : list Z := m <$> seqZ a n.
Definition mwrite (m : Mem) (a : Z) (bs : list Z) : Mem :=
  fun x => if (a <=? x) && (x <? a + zlen bs) then vat bs (x - a) else m x.
#[export] Instance phys_mem : KMemory Mem :=
  {| kread m a n := Done (mread m a n); kwrite m a bs := Done (mwrite m a bs) |}.
#[export] Instance user_mem {U} `{UserMem U} : KMemory U :=
  {| kread u a n := copyin u a n; kwrite u a bs := copyout u a bs |}.

(** ** scatteredCopy *)
Section Copy.
Context {W D S : Type} `{!ScatterDst D} `{!ScatterSrc W S}.
Fixpoint copy_loop (fuel : nat) (w : W) (d : D) (s : S) (davail : Segment) (tot : Z) : outcome (Z * D * S * W) :=
  if s_avail (W := W) s && seg_bool davail then
    match fuel with
    | O => Diverge
    | Datatypes.S fuel =>
        let* (cnt, s, w) := s_consume w s davail in
        let* (davail, d) := d_next d cnt in
        copy_loop fuel w d s davail (u64 (tot + cnt))
    end
  else Done (tot, d, s, w).
Definition scatteredCopy (fuel : nat) (w : W) (d : D) (s : S) : outcome (Z * D * S * W) :=
  if negb (d_avail d) then Done (0, d, s, w)
  else let* (davail, d) := d_next d 0 in copy_loop fuel w d s davail 0.
End Copy.

(** ** The memory side *)
Record Cursor : Type := mkCursor { vec : list Segment; it : nat; off : Z }.
Definition at_end (c : Cursor) : bool := (length (vec c) <=? it c)%nat.
Definition cur (junk : Segment) (c : Cursor) : Segment := default junk (vec c !! it c).
(** KMemScatteredIO *)
Record KMemScatteredIO : Type := mkKMem { k_cur : Cursor; k_junk : Segment }.
Definition kmem_next (x : KMemScatteredIO) (bytes : Z) : outcome (Segment * KMemScatteredIO) :=
  let c := k_cur x in
  let o := u64 (off c + bytes) in
  let c := if o =? seg_length (cur (k_junk x) c) then mkCursor (vec c) (S (it c)) 0 else mkCursor (vec c) (it c) o in
  let g := cur (k_junk x) c in
  Done (mkSegment (u64 (sl g + off c)) (sr g), mkKMem c (k_junk x)).
#[export] Instance kmem_dst : ScatterDst KMemScatteredIO :=
  {| d_avail x := negb (at_end (k_cur x)); d_next := kmem_next |}.
(** UMemScatteredIO: VMAR::findMapping gives the mapping of an address, VMOMapper shows
    its object in a window of the kernel's address space. Both are modelled elsewhere
    ([Vmar.find], [Umem.VMOMapper_new]); here they are the argument [u_find], which
    answers with the address of the window and the first page and the offset of the
    mapping. A region that is not mapped is skipped. *)
Record Region : Type := mkRegion { rg_start : Z; rg_vpn : Z; rg_offset : Z }.
Definition region_bias (a : Z) (r : Region) : Z := u64 (a - PageTable.pn2addr (rg_vpn r) + PageTable.pn2addr (rg_offset r)).
Record UMemScatteredIO : Type := mkUMem { u_cur : Cursor; u_mapper : option Z; u_bias : Z; u_find : Z -> option Region }.
Fixpoint next_region (find : Z -> option Region) (l : list Segment) (i : nat) : nat * option (Z * Region) :=
  match l with
  | [] => (i, None)
  | g :: l => match find (sl g) with Some r => (i, Some (sl g, r)) | None => next_region find l (S i) end
  end.
Definition nextRegion (x : UMemScatteredIO) : bool * UMemScatteredIO :=
  let c := u_cur x in
  let (i, a) := next_region (u_find x) (drop (it c) (vec c)) (it c) in
  let c' := mkCursor (vec c) i (off c) in
  match a with
  | Some (a, r) => (true, mkUMem c' (Some (rg_start r)) (region_bias a r) (u_find x))
  | None => (false, mkUMem c' (u_mapper x) (u_bias x) (u_find x))
  end.
Definition UMem_new (find : Z -> option Region) (v : list Segment) : UMemScatteredIO :=
  snd (nextRegion (mkUMem (mkCursor v 0 0) None 0 find)).
Definition umem_next (x : UMemScatteredIO) (bytes : Z) : outcome (Segment * UMemScatteredIO) :=
  let c := u_cur x in
  match vec c !! it c with
  | None => Undef
  | Some g =>
      let o := u64 (off c + bytes) in
      let (ok, x) :=
        if o =? seg_length g then nextRegion (mkUMem (mkCursor (vec c) (S (it c)) 0) (u_mapper x) (u_bias x) (u_find x))
        else (true, mkUMem (mkCursor (vec c) (it c) o) (u_mapper x) (u_bias x) (u_find x)) in
      if negb ok then Done (mkSegment 1 0, x)
      else
        let c := u_cur x in
        match u_mapper x, vec c !! it c with
        | None, _ => Panic
        | Some st, Some g =>
            let b := u64 (st + u_bias x) in
            Done (mkSegment (u64 (b + off c)) (u64 (b + seg_length g - 1)), x)
        | _, None => Undef
        end
  end.
#[export] Instance umem_dst : ScatterDst UMemScatteredIO :=
  {| d_avail x := negb (at_end (u_cur x)); d_next := umem_next |}.

(** ** The file side *)
Section FileSide.
Context {S M : Type} `{!INodeOps S} `{!KMemory M}.
Notation FW := (M * S)%type.
(** SingleFileScatteredReader *)
Record Reader : Type := mkReader { r_node : Z; r_cur : Cursor }.
Definition reader_consume (w : FW) (x : Reader) (g : Segment) : outcome (Z * Reader * FW) :=
  let c := r_cur x in
  match vec c !! it c with
  | None => Undef
  | Some f =>
      let avail := kmin (u64 (seg_length f - off c)) (seg_length g) in
      let* dst := kread (fst w) (sl g) avail in
      let* (rd, bs, s) := nodRead (snd w) (r_node x) dst (u32 (sl f + off c)) (u32 avail) in
      let* m := kwrite (fst w) (sl g) bs in
      let o := u64 (off c + rd) in
      let c := if o =? seg_length f then mkCursor (vec c) (Datatypes.S (it c)) 0 else mkCursor (vec c) (it c) o in
      let c := if negb (avail =? 0) && (rd =? 0) then mkCursor (vec c) (length (vec c)) (off c) else c in
      Done (u64 rd, mkReader (r_node x) c, (m, s))
  end.
#[export] Instance reader_src : ScatterSrc FW Reader :=
  {| s_avail x := negb (at_end (r_cur x)); s_consume := reader_consume |}.
(** SingleFileScatteredWriter *)
Record Writer : Type := mkWriter { w_node : Z; w_cur : Cursor }.
Definition writer_consume (w : FW) (x : Writer) (g : Segment) : outcome (Z * Writer * FW) :=
  let c := w_cur x in
  match vec c !! it c with
  | None => Undef
  | Some f =>
      let avail := kmin (u64 (seg_length f - off c)) (seg_length g) in
      let* bs := kread (fst w) (sl g) avail in
      let* (rd, s) := nodWrite (snd w) (w_node x) bs (u32 (sl f + off c)) (u32 avail) in
      passert (0 <? rd) ;;;
      let o := u64 (off c + rd) in
      let c := if o =? seg_length f then mkCursor (vec c) (Datatypes.S (it c)) 0 else mkCursor (vec c) (it c) o in
      Done (u64 rd, mkWriter (w_node x) c, (fst w, s))
  end.
#[export] Instance writer_src : ScatterSrc FW Writer :=
  {| s_avail x := negb (at_end (w_cur x)); s_consume := writer_consume |}.
(** INode::readv and INode::readPages *)
Definition inode_readv (fuel : nat) (junk : Segment) (m : M) (s : S) (n : Z) (src dst : list Segment) : outcome FW :=
  let* (_, _, _, w) := scatteredCopy fuel (m, s) (mkKMem (mkCursor dst 0 0) junk) (mkReader n (mkCursor src 0 0)) in
  Done w.
Definition page_segment (g : Segment) : Segment := mkSegment (u64 (sl g * 4096)) (u64 ((sr g + 1) * 4096 - 1)).
Definition readPages (fuel : nat) (junk : Segment) (m : M) (s : S) (n : Z) (src dst : list Segment) : outcome FW :=
  inode_readv fuel junk m s n (page_segment <$> src) (page_segment <$> dst).
End FileSide.
(** PrintScatteredWriter: the console as a list of bytes. *)
Definition print_consume {M} `{!KMemory M} (w : M * list Z) (x : unit) (g : Segment) : outcome (Z * unit * (M * list Z)) :=
  let* bs := kread (fst w) (sl g) (seg_length g) in Done (seg_length g, x, (fst w, snd w ++ bs)).
#[export] Instance print_src {M} `{!KMemory M} : ScatterSrc (M * list Z) unit :=
  {| s_avail _ := true; s_consume := print_consume |}.

(** ** Open files and the system calls

    The memory of a process is reached in two ways: at user addresses ([UserMem], for the
    vector itself) and at the kernel addresses of the windows onto its objects (the
    instance [KW]). *)
Section Calls.
Context {S U : Type} `{!INodeOps S} `{!UserMem U} `{KW : !KMemory U}.
Notation KSt := (K S U).
Import FileSys.
(** What a transfer comes to: an amount, or a place where it blocks in a pipe. *)
Inductive wv : Type := WvRet (n : Z) | WvBlock (d : UMemScatteredIO) (g : Segment) (off tot : Z).
Definition file_readv (fuel : nat) (k : KSt) (f : Z) (u : U) (dst : UMemScatteredIO) : outcome (wv * U * KSt) :=
  let* x := file_get k f in
  match obj x with
  | EP st de o =>
      let* d := Vfs.de_get (world k) de in
      let s := Vfs.nods (world k) in
      let fvec := [mkSegment (u64 o) (u64 (rFileSize s (Vfs.de_nod d)))] in
      let* (n, _, _, w) := scatteredCopy fuel (u, s) dst (mkReader (Vfs.de_nod d) (mkCursor fvec 0 0)) in
      let k := with_world k (Vfs.with_nods (world k) (snd w)) in
      Done (WvRet n, fst w, set_obj k f x (EP st de (i64 (o + n))))
  | _ => Done (WvRet (u64 (-1)), u, k)
  end.
(** PipeScatteredWriter: a write that blocks in a piece stops the copy at
    [off] bytes of it; the transfer goes on from there. *)
Fixpoint pipe_copy (fuel : nat) (u : U) (q : Pipe.Pipe.Pipe) (s : Sched.Sched.Scheduler) (d : UMemScatteredIO) (g : Segment) (off tot : Z) :
    outcome (wv * Pipe.Pipe.Pipe * Sched.Sched.Scheduler) :=
  if Pipe.Pipe.writable q && seg_bool g then
    match fuel with
    | O => Diverge
    | Datatypes.S fuel =>
        let* bs := kread u (sl g) (seg_length g) in
        let* (r, q, s) := Pipe.Pipe.write_from (Datatypes.S (length bs)) q s bs off in
        match r with
        | Pipe.Pipe.IoBlock o => Done (WvBlock d g o tot, q, s)
        | Pipe.Pipe.IoRet n => let* (g, d) := umem_next d (u64 n) in pipe_copy fuel u q s d g 0 (u64 (tot + n))
        end
    end
  else Done (WvRet tot, q, s).
Definition pipe_writev (fuel : nat) (k : KSt) (p : Z) (u : U) (dst : UMemScatteredIO) : outcome (wv * U * KSt) :=
  let* q := pipe_get k p in
  if negb (d_avail dst) then Done (WvRet 0, u, k)
  else
    let* (g, d) := umem_next dst 0 in
    let* (r, q, s) := pipe_copy fuel u q (sched k) d g 0 0 in
    Done (r, u, with_pipe k p q s).
Definition file_writev (fuel : nat) (k : KSt) (f : Z) (u : U) (dst : UMemScatteredIO) : outcome (wv * U * KSt) :=
  let* x := file_get k f in
  match obj x with
  | EP st de o =>
      let* d := Vfs.de_get (world k) de in
      let s := Vfs.nods (world k) in
      let fvec := [mkSegment (u64 o) (u64 (rFileSize s (Vfs.de_nod d)))] in
      let* (n, _, _, w) := scatteredCopy fuel (u, s) dst (mkWriter (Vfs.de_nod d) (mkCursor fvec 0 0)) in
      let k := with_world k (Vfs.with_nods (world k) (snd w)) in
      Done (WvRet n, fst w, set_obj k f x (EP st de (i64 (o + n))))
  | DV t _ =>
      if is_stdout t then
        let* (n, _, _, w) := scatteredCopy fuel (u, console k) dst tt in Done (WvRet n, fst w, with_console k (snd w))
      else Done (WvRet (u64 (-1)), u, k)
  | PP _ p => pipe_writev fuel k p u dst
  end.
(** The vectors of struct iovec; [iovcnt--] reaches zero from a count that is
    not negative, and overflows from a negative one. *)
Fixpoint read_iovs (u : U) (iov : Z) (n : nat) : outcome (list Segment) :=
  match n with
  | O => Done []
  | Datatypes.S n =>
      let* bs := copyin u iov 16 in
      let* l := read_iovs u (u64 (iov + 16)) n in
      Done (mkSegment (word bs 0) (u64 (word bs 0 + word bs 1 - 1)) :: l)
  end.
Definition set_umem (k : KSt) (pid : Z) (p : Proc U) (u : U) : KSt :=
  with_procs k (<[pid := mkProc (files p) (cwd p) u (parent p) (zombie p)]> (procs k)).
Inductive iov_res : Type := IovRet (r : sysrt) | IovBlock (d : UMemScatteredIO) (g : Segment) (off tot : Z).
Definition sys_iov (go : nat -> KSt -> Z -> U -> UMemScatteredIO -> outcome (wv * U * KSt)) (fuel : nat) (find : Z -> option Region)
    (k : KSt) (pid fd iov iovcnt : Z) : outcome (iov_res * KSt) :=
  let* f := fd_file k pid fd in
  match f with
  | None => Done (IovRet (RtErr EBADF), k)
  | Some f =>
      let* p := proc_get k pid in
      if iovcnt <? 0 then Undef
      else
        let* v := read_iovs (umem p) iov (Z.to_nat iovcnt) in
        let* (r, u, k) := go fuel k f (umem p) (UMem_new find v) in
        let* p := proc_get k pid in
        Done (match r with WvRet n => IovRet (RtOk n) | WvBlock d g o t => IovBlock d g o t end, set_umem k pid p u)
  end.
Definition readv := sys_iov file_readv.
Definition writev := sys_iov file_writev.

(** pPoll: [sigset_size] is sizeof(sigset_t) of the C library's header; a struct
    pollfd is 8 bytes: fd, events and revents. *)
Definition POLLIN : Z := 1.
Definition POLLOUT : Z := 4.
Definition poll_revents (events : Z) : Z :=
  let r := if has events POLLIN then Z.lor 0 POLLIN else 0 in
  if has events POLLOUT then Z.lor r POLLOUT else r.
Fixpoint poll_loop (n : nat) (i : Z) (fds : list Z) (ret : Z) : Z * list Z :=
  match n with
  | O => (ret, fds)
  | Datatypes.S n =>
      let fds := splice fds (8 * i + 6) (le16 0) in
      if i32 (get32 fds (8 * i)) <? 0 then poll_loop n (i + 1) fds ret
      else poll_loop n (i + 1) (splice fds (8 * i + 6) (le16 (poll_revents (get16 fds (8 * i + 4))))) (i32 (ret + 1))
  end.
Definition pPoll (sigset_size : Z) (k : KSt) (pid a_fds nfds sigsetsize : Z) : outcome (sysrt * KSt) :=
  if (a_fds =? 0) || (nfds <? 0) || negb (sigsetsize =? sigset_size) then Done (RtErr EINVAL, k)
  else
    let* p := proc_get k pid in
    let* fdsarr := copyin (umem p) a_fds (nfds * 8) in
    let (ret, fds) := poll_loop (Z.to_nat nfds) 0 fdsarr 0 in
    let* u := copyout (umem p) a_fds fds in
    Done (RtOk ret, set_umem k pid p u).

(** pselect: a set of descriptors is the bytes of an fd_set, a null pointer
    [None]; the loop looks at the state as it is at each pass, with the condition
    of the loop after it ([env]); a descriptor that is not open is a null pointer
    that is followed. *)
Definition FD_ISSET (fds : list Z) (i : Z) : outcome bool :=
  let* b := aget fds (i / 8) in Done (Z.testbit b (i mod 8)).
Definition FD_CLR (fds : list Z) (i : Z) : outcome (list Z) :=
  let* b := aget fds (i / 8) in aset fds (i / 8) (Z.clearbit b (i mod 8)).
Definition select_one (ready : File -> outcome bool) (k : KSt) (pid i : Z) (fds : option (list Z)) (rt : Z) :
    outcome (Z * option (list Z)) :=
  match fds with
  | None => Done (rt, None)
  | Some l =>
      let* b := FD_ISSET l i in
      if negb b then Done (rt, Some l)
      else
        let* f := fd_file k pid i in
        match f with
        | None => Undef
        | Some f =>
            let* x := file_get k f in
            let* r := ready x in
            if r : bool then Done (i32 (rt + 1), Some l) else let* l := FD_CLR l i in Done (rt, Some l)
        end
  end.
Fixpoint select_pass (n : nat) (i : Z) (k : KSt) (pid : Z) (rfds wfds : option (list Z)) (rt : Z) :
    outcome (Z * option (list Z) * option (list Z)) :=
  match n with
  | O => Done (rt, rfds, wfds)
  | Datatypes.S n =>
      let* (rt, rfds) := select_one (isRReady k) k pid i rfds rt in
      let* (rt, wfds) := select_one (isWReady k) k pid i wfds rt in
      select_pass n (i + 1) k pid rfds wfds rt
  end.
Fixpoint select_loop (env : list (KSt * bool)) (nfds pid : Z) (rfds wfds : option (list Z)) :
    outcome (Z * option (list Z) * option (list Z) * KSt) :=
  match env with
  | [] => Diverge
  | (k, more) :: env =>
      let* (rt, rfds, wfds) := select_pass (Z.to_nat nfds) 0 k pid rfds wfds 0 in
      if negb (rt =? 0) then Done (rt, rfds, wfds, k)
      else if more : bool then select_loop env nfds pid rfds wfds
      else Done (rt, rfds, wfds, match env with (k, _) :: _ => k | [] => k end)
  end.
Definition get_fds (fdset_size : Z) (u : U) (a : Z) : outcome (option (list Z)) :=
  if a =? 0 then Done None else let* l := copyin u a fdset_size in Done (Some l).
Definition put_fds (u : U) (a : Z) (l : option (list Z)) : outcome U :=
  match l with None => Done u | Some l => copyout u a l end.
Definition pselect (fdset_size : Z) (k : KSt) (env : list (KSt * bool)) (more : bool) (pid nfds readfds writefds exceptfds : Z) :
    outcome (sysrt * KSt) :=
  let* p := proc_get k pid in
  let* rfds := get_fds fdset_size (umem p) readfds in
  let* wfds := get_fds fdset_size (umem p) writefds in
  let* efds := get_fds fdset_size (umem p) exceptfds in
  let* (rt, rfds, wfds, k) := select_loop ((k, more) :: env) nfds pid rfds wfds in
  let* p := proc_get k pid in
  let* u := put_fds (umem p) readfds rfds in
  let* u := put_fds u writefds wfds in
  let* u := put_fds u exceptfds efds in
  Done (RtOk rt, set_umem k pid p u).
End Calls.
End Scatter.
