(* ===== verification/ScatterClaims.v ===== *)
(** * ScatterClaims: what a scattered transfer moves

    [KMemLaws] is what memory promises to a transfer, [DstLaws] what the memory
    side promises to the loop: it gives the pieces of its vector in order. The
    transfers are compared with the references [fill] (spread a list of bytes
    over a vector) and [gather] (the bytes of a vector). *)

From S2P Require Import Prelude Klib Buddy Sched Pipe Bytes Path Vfs File FileSys Ramfs FdInv FdCalls FileClaims Scatter.
Local Open Scope Z_scope.

(** [byte m x] is the byte at [x], if there is memory. *)
Class KMemLaws (M : Type) `{!KMemory M} : Type := mkKMemLaws {
  byte : M -> Z -> option Z;
  law_kread : forall m a n, 0 < n -> (forall x, a <= x < a + n -> is_Some (byte m x)) ->
    kread m a n = Done ((fun x => default 0 (byte m x)) <$> seqZ a n);
  law_kwrite : forall m a bs, bs <> [] \/ is_Some (byte m a) -> (forall x, a <= x < a + zlen bs -> is_Some (byte m x)) ->
    exists m', kwrite m a bs = Done m' /\
      forall x, byte m' x = if decide (a <= x < a + zlen bs) then Some (vat bs (x - a)) else byte m x
}.
Definition good (g : Segment) : Prop := 0 <= sl g <= sr g /\ sr g < 2 ^ 63.
(** [at_ d l o]: the side is [o] bytes into the first of the pieces [l];
    [d_stops]: after the last piece it gives an empty one. *)
Class DstLaws (D : Type) `{!ScatterDst D} : Type := mkDstLaws {
  at_ : D -> list Segment -> Z -> Prop;
  d_stops : Prop;
  law_within : forall d g l o b, at_ d (g :: l) o -> good g -> 0 <= o -> 0 <= b -> o + b < sr g - sl g + 1 ->
    exists d', d_next d b = Done (mkSegment (sl g + o + b) (sr g), d') /\ at_ d' (g :: l) (o + b);
  law_across : forall d g g' l o b, at_ d (g :: g' :: l) o -> good g -> good g' -> 0 <= o -> 0 <= b ->
    o + b = sr g - sl g + 1 -> exists d', d_next d b = Done (g', d') /\ at_ d' (g' :: l) 0;
  law_last : forall d g o b, at_ d [g] o -> good g -> 0 <= o -> 0 <= b -> o + b = sr g - sl g + 1 ->
    exists e d', d_next d b = Done (e, d') /\ (d_stops -> seg_bool e = false)
}.

Module ScatterClaims.
Import Path Vfs File FileSys FileClaims Scatter.

Definition slen (g : Segment) : Z := sr g - sl g + 1.
Fixpoint total (v : list Segment) : Z := match v with [] => 0 | g :: v => slen g + total v end.
(** References: the bytes [bs] spread over the pieces of a vector in order, and
    the bytes that the pieces hold. *)
Definition overlay (f : Z -> option Z) (a : Z) (bs : list Z) (x : Z) : option Z :=
  if decide (a <= x < a + zlen bs) then Some (vat bs (x - a)) else f x.
Fixpoint fill (f : Z -> option Z) (v : list Segment) (bs : list Z) : Z -> option Z :=
  match v with
  | [] => f
  | g :: v => fill (overlay f (sl g) (take (Z.to_nat (slen g)) bs)) v (drop (Z.to_nat (slen g)) bs)
  end.
Definition piece (f : Z -> option Z) (a n : Z) : list Z := (fun x => default 0 (f x)) <$> seqZ a n.
Definition gather (f : Z -> option Z) (v : list Segment) : list Z := concat ((fun g => piece f (sl g) (slen g)) <$> v).
Definition backed (f : Z -> option Z) (v : list Segment) : Prop :=
  Forall (fun g => forall x, sl g <= x <= sr g -> is_Some (f x)) v.

Lemma seg_length_good g : good g -> seg_length g = slen g.
Proof. intros [H1 H2]. unfold seg_length, slen. rewrite u64_small; lia. Qed.
Lemma seg_bool_good g : good g -> seg_bool g = true.
Proof. intros [H1 H2]. unfold seg_bool. apply Z.leb_le. lia. Qed.
Lemma total_pos v : Forall good v -> 0 <= total v.
Proof. induction 1 as [|g v [H1 H2] _ IH]; cbn; [lia|]. unfold slen. lia. Qed.
Lemma fill_ext f f' v bs : (forall x, f x = f' x) -> forall x, fill f v bs x = fill f' v bs x.
Proof.
  revert f f' bs. induction v as [|g v IH]; intros f f' bs H x; cbn; [done|]. apply IH. intros y. unfold overlay.
  by destruct decide.
Qed.
Lemma fill_nil f v x : fill f v [] x = f x.
Proof.
  revert f. induction v as [|g v IH]; intros f; cbn; [done|]. rewrite take_nil, drop_nil, IH. unfold overlay, zlen. cbn.
  by rewrite decide_False by lia.
Qed.
Lemma piece_zlen f a n : 0 <= n -> zlen (piece f a n) = n.
Proof. intros. unfold zlen, piece. rewrite length_fmap, length_seqZ. lia. Qed.
Lemma piece_vat f a n i : 0 <= i < n -> vat (piece f a n) i = default 0 (f (a + i)).
Proof.
  intros. unfold vat, piece. rewrite list_lookup_fmap, lookup_seqZ_lt by lia. cbn. do 2 f_equal. lia.
Qed.

Section Laws.
Context {M : Type} `{!KMemory M} `{!KMemLaws M}.
Implicit Types m : M.
(** Overlaying a piece of memory with bytes followed by what was there. *)
Lemma kwrite_head m a n bs :
  0 < n -> zlen bs <= n -> (forall x, a <= x < a + n -> is_Some (byte m x)) ->
  exists m', kwrite m a (splice (piece (byte m) a n) 0 bs) = Done m' /\ forall x, byte m' x = overlay (byte m) a bs x.
Proof.
  intros Hn Hb Hm. assert (Hz : zlen (splice (piece (byte m) a n) 0 bs) = n).
  { rewrite splice_length; rewrite ?piece_zlen; lia. }
  destruct (law_kwrite m a (splice (piece (byte m) a n) 0 bs)) as (m' & Hw & Hx); [right; apply Hm; lia|by rewrite Hz|].
  exists m'. split; [done|]. intros x. rewrite Hx, Hz. unfold overlay. assert (0 <= zlen bs) by (unfold zlen; lia).
  destruct (decide (a <= x < a + n)) as [Hi|Hi]; [|by rewrite decide_False by lia].
  rewrite vat_splice by (rewrite ?piece_zlen; lia). destruct (decide (a <= x < a + zlen bs)).
  - rewrite decide_True by lia. do 2 f_equal. lia.
  - rewrite decide_False by lia. rewrite piece_vat by lia. replace (a + (x - a)) with x by lia.
    by destruct (Hm x Hi) as [y ->].
Qed.
Lemma backed_overlay f a bs v : backed f v -> backed (overlay f a bs) v.
Proof.
  intros H. eapply Forall_impl; [exact H|]. cbn. intros g Hg x Hx. unfold overlay. destruct decide; [by eexists|by apply Hg].
Qed.
Lemma backed_ext f f' v : (forall x, f' x = f x) -> backed f v -> backed f' v.
Proof. intros E H. eapply Forall_impl; [exact H|]. cbn. intros g Hg x Hx. rewrite E. by apply Hg. Qed.
End Laws.

Lemma fill_short f g l bs x : good g -> zlen bs <= slen g -> fill f (g :: l) bs x = overlay f (sl g) bs x.
Proof.
  intros [H1 H2] Hb. cbn. unfold zlen, slen in *. rewrite take_ge, drop_ge by lia. apply fill_nil.
Qed.
Lemma slice_split (c : list Z) p a b :
  0 <= p -> 0 <= a <= b -> take (Z.to_nat a) (slice c p b) = slice c p a /\ drop (Z.to_nat a) (slice c p b) = slice c (p + a) (b - a).
Proof.
  intros Hp Ha. unfold slice. rewrite take_take, Nat.min_l by lia. split; [done|].
  rewrite skipn_firstn_comm, drop_drop. f_equal; [lia|f_equal; lia].
Qed.
Lemma slice_nil (c : list Z) p : slice c p 0 = [].
Proof. done. Qed.

(** ** A file read into a vector *)
Section Transfer.
Context {S M D : Type} `{!INodeOps S} `{!INodeLaws S} `{!KMemory M} `{!KMemLaws M} `{!ScatterDst D} `{!DstLaws D}.
Implicit Types (m : M) (s : S) (d : D) (g h : Segment).

Lemma d_any d g l b :
  at_ d (g :: l) 0 -> Forall good (g :: l) -> 0 <= b <= slen g -> exists e d', d_next d b = Done (e, d').
Proof.
  intros Ha Hg Hb. apply Forall_cons in Hg as [Hg Hl]. unfold slen in *. destruct (decide (b = sr g - sl g + 1)).
  - destruct l as [|g' l].
    + destruct (law_last d g 0 b) as (e1 & d' & E & _); [done|done|lia..|]. eauto.
    + apply Forall_cons in Hl as [Hg' _]. destruct (law_across d g g' l 0 b) as (d' & E & _); [done..|lia|lia|lia|]. eauto.
  - destruct (law_within d g l 0 b) as (d' & E & _); [done|done|lia..|]. eauto.
Qed.

(** The reader after [rd] more bytes. *)
Definition reader_at (n : Z) (fs : Segment) (r rd : Z) : Reader :=
  mkReader n (if rd =? 0 then mkCursor [fs] 1 r else if r + rd =? slen fs then mkCursor [fs] 1 0 else mkCursor [fs] 0 (r + rd)).
Definition same_files s s' : Prop := forall n, regular s n -> regular s' n /\ content s' n = content s n.
Lemma same_files_trans s1 s2 s3 : same_files s1 s2 -> same_files s2 s3 -> same_files s1 s3.
Proof. intros H1 H2 n Hn. destruct (H1 n Hn) as [Hr <-]. by apply H2. Qed.
Definition file_ok s (n : Z) (fs : Segment) (r : Z) : Prop :=
  regular s n /\ good fs /\ 0 <= r < slen fs /\ sr fs < 2 ^ 31 - 1 /\ sl fs + r <= zlen (content s n) < 2 ^ 31.
Lemma reader_step m s n fs r h :
  file_ok s n fs r -> good h -> (forall x, sl h <= x <= sr h -> is_Some (byte m x)) ->
  let p := sl fs + r in
  let rd := Z.min (Z.min (slen fs - r) (slen h)) (zlen (content s n) - p) in
  exists m' s', reader_consume (m, s) (mkReader n (mkCursor [fs] 0 r)) h = Done (rd, reader_at n fs r rd, (m', s')) /\
    (forall x, byte m' x = overlay (byte m) (sl h) (slice (content s n) p rd) x) /\
    regular s' n /\ content s' n = content s n /\ rFS s' n = rFS s n /\ same_files s s'.
Proof.
  intros (Hreg & Hf & Hr & Hb & Hz) Hh Hm p rd. unfold reader_consume. cbn [r_cur vec it off r_node fst snd].
  change ([fs] !! 0%nat) with (Some fs). cbv iota. rewrite kmin_spec, !seg_length_good by done.
  assert (Hlen : 0 <= sl fs /\ slen fs = sr fs - sl fs + 1 /\ slen h = sr h - sl h + 1 /\ 0 < slen h).
  { destruct Hf, Hh. unfold slen. lia. }
  assert (slen h <= 2 ^ 63) by (destruct Hh; lia).
  rewrite (u64_small (slen fs - r)) by lia. set (avail := Z.min (slen fs - r) (slen h)) in *.
  rewrite law_kread by (try lia; intros; apply Hm; lia). cbn [obind]. fold (piece (byte m) (sl h) avail).
  rewrite !u32_small by lia.
  destruct (law_read s n (piece (byte m) (sl h) avail) p avail) as (s' & Hn & Hreg' & Hc & Hfs & _ & Hsame);
    [done|lia|rewrite piece_zlen; lia|lia|lia|]. fold p rd in Hn |- *. rewrite Hn. cbn [obind].
  destruct (kwrite_head m (sl h) avail (slice (content s n) p rd)) as (m' & Hw & Hx);
    [lia|rewrite slice_length; lia|intros; apply Hm; lia|]. rewrite Hw. cbn [obind]. exists m', s'.
  split; [|by split_and!]. rewrite !u64_small by lia. destruct (Z.eqb_spec avail 0); [lia|]. cbn [negb andb]. unfold reader_at.
  destruct (Z.eqb_spec rd 0) as [E|E]; [|done]. destruct (Z.eqb_spec (r + rd) (slen fs)); [lia|]. rewrite E, Z.add_0_r. done.
Qed.
(** What a transfer of [bs] leaves: the references applied to the old memory. *)
Definition moved m s n (v : list Segment) (bs : list Z) m' s' : Prop :=
  (forall x, byte m' x = fill (byte m) v bs x) /\ regular s' n /\ content s' n = content s n /\ rFS s' n = rFS s n /\ same_files s s'.
Lemma moved_cons m s n g l c p N m1 s1 m2 s2 :
  0 <= p -> 0 <= slen g <= N -> (forall x, byte m1 x = overlay (byte m) (sl g) (slice c p (slen g)) x) ->
  content s1 n = content s n -> rFS s1 n = rFS s n -> same_files s s1 ->
  moved m1 s1 n l (slice c (p + slen g) (N - slen g)) m2 s2 -> moved m s n (g :: l) (slice c p N) m2 s2.
Proof.
  intros Hp Hg Hm Hc Hf Hs (Hx & Hr & Hc2 & Hf2 & Hs2).
  split; [|split; [done|split; [congruence|split; [congruence|by apply (same_files_trans s s1 s2)]]]]. intros x. rewrite Hx. cbn [fill].
  destruct (slice_split c p (slen g) N Hp Hg) as [-> ->]. by apply fill_ext.
Qed.

Lemma read_ended fuel w d n fs o g tot :
  copy_loop (S := Reader) fuel w d (mkReader n (mkCursor [fs] 1 o)) g tot = Done (tot, d, mkReader n (mkCursor [fs] 1 o), w).
Proof. by destruct fuel. Qed.
(** One turn of the loop, from the start of a piece or from inside it. *)
Lemma read_turn fuel m s d n fs r h tot :
  file_ok s n fs r -> good h -> (forall x, sl h <= x <= sr h -> is_Some (byte m x)) -> 0 <= tot -> tot + slen fs - r < 2 ^ 62 ->
  let p := sl fs + r in
  let rd := Z.min (Z.min (slen fs - r) (slen h)) (zlen (content s n) - p) in
  exists m' s', (forall x, byte m' x = overlay (byte m) (sl h) (slice (content s n) p rd) x) /\
    regular s' n /\ content s' n = content s n /\ rFS s' n = rFS s n /\ same_files s s' /\
    forall e d', d_next d rd = Done (e, d') ->
      copy_loop (Datatypes.S fuel) (m, s) d (mkReader n (mkCursor [fs] 0 r)) h tot =
      copy_loop fuel (m', s') d' (reader_at n fs r rd) e (tot + rd).
Proof.
  intros Hok Hh Hb Htot Ht2 p rd. destruct (reader_step m s n fs r h Hok Hh Hb) as (m' & s' & Hc & Hx & Hreg & Hco & Hfs & Hsame).
  fold p rd in Hc, Hx. exists m', s'. split_and!; [done..|]. intros e d' Hd. cbn [copy_loop].
  rewrite seg_bool_good by done. cbn [s_avail reader_src r_cur at_end it vec length Nat.leb negb andb s_consume].
  rewrite Hc. cbn [obind]. rewrite Hd. cbn [obind]. rewrite u64_small; [done|].
  destruct Hok as (_ & _ & ? & ? & ?), Hh. subst rd p. unfold slen in *. lia.
Qed.

(** The file, or its segment, ends inside the piece. *)
Lemma read_finish fuel m s d n fs r g l tot :
  file_ok s n fs r -> Forall good (g :: l) -> backed (byte m) (g :: l) -> at_ d (g :: l) 0 -> 0 <= tot -> tot + slen fs - r < 2 ^ 62 ->
  let p := sl fs + r in
  let rd := Z.min (Z.min (slen fs - r) (slen g)) (zlen (content s n) - p) in
  rd < slen g \/ rd = slen fs - r ->
  exists d' x m' s',
    copy_loop (2 + fuel) (m, s) d (mkReader n (mkCursor [fs] 0 r)) g tot = Done (tot + rd, d', x, (m', s')) /\
    moved m s n (g :: l) (slice (content s n) p rd) m' s'.
Proof.
  intros Hok Hg Hb Hat Htot Ht2 p rd Hrd. pose proof (Forall_inv Hg) as Hg0. pose proof (Forall_inv Hb) as Hb0. cbn beta in Hb0.
  destruct (read_turn (1 + fuel) m s d n fs r g tot Hok Hg0 Hb0 Htot Ht2) as (m1 & s1 & Hx & Hreg & Hco & Hfs & Hsame & Hturn).
  fold p rd in Hx, Hturn. pose proof Hok as (_ & Hf & Hr & Hsr & Hz).
  assert (Hrd0 : 0 <= rd <= slen g) by (destruct Hg0; unfold slen in *; lia).
  assert (Hmv : moved m s n (g :: l) (slice (content s n) p rd) m1 s1).
  { split; [|done]. intros x. rewrite Hx, fill_short; [done..|]. rewrite slice_length; destruct Hf; lia. }
  destruct (d_any d g l rd Hat Hg Hrd0) as (e & d' & Hd). specialize (Hturn _ _ Hd). cbn [Nat.add] in *. rewrite Hturn.
  unfold reader_at. destruct (Z.eqb_spec rd 0) as [E|E].
  { rewrite read_ended. by exists d', (mkReader n (mkCursor [fs] 1 r)), m1, s1. }
  destruct (Z.eqb_spec (r + rd) (slen fs)) as [E2|E2].
  { rewrite read_ended. by exists d', (mkReader n (mkCursor [fs] 1 0)), m1, s1. }
  destruct (law_within d g l 0 rd) as (d1 & Hd1 & Hat1); [done|done|unfold slen in *; lia..|]. rewrite Hd in Hd1. injection Hd1 as -> ->.
  set (h := mkSegment _ _). assert (Hh : good h) by (destruct Hg0; unfold good, h, slen in *; cbn; lia).
  destruct (read_turn fuel m1 s1 d1 n fs (r + rd) h (tot + rd)) as (m2 & s2 & Hx2 & Hreg2 & Hco2 & Hfs2 & Hsame2 & Hturn2); [|done| |lia|lia|].
  { split_and!; rewrite ?Hco; try done; lia. }
  { intros x Hi. rewrite Hx. unfold overlay. destruct decide; [by eexists|]. apply Hb0. unfold h in Hi. cbn in Hi. lia. }
  cbv zeta in Hturn2, Hx2. rewrite Hco in Hturn2, Hx2.
  replace (Z.min (Z.min (slen fs - (r + rd)) (slen h)) (zlen (content s n) - (sl fs + (r + rd)))) with 0 in Hturn2, Hx2
    by (destruct Hh; unfold slen in *; lia).
  destruct (law_within d1 g l (0 + rd) 0) as (d2 & Hd2 & _); [done|done|unfold slen in *; lia..|].
  rewrite (Hturn2 _ _ Hd2). unfold reader_at. rewrite Z.eqb_refl, read_ended, Z.add_0_r.
  eexists d2, _, m2, s2. split; [done|]. destruct Hmv as (H1 & _). split; [|split; [done|split; [congruence|split; [congruence|by eapply same_files_trans]]]].
  intros x. rewrite <- H1, Hx2, slice_nil. unfold overlay, zlen. cbn [length]. by rewrite decide_False by lia.
Qed.

Lemma read_loop l : forall fuel m s d n fs r g tot,
  file_ok s n fs r -> Forall good (g :: l) -> backed (byte m) (g :: l) -> at_ d (g :: l) 0 ->
  d_stops \/ slen fs - r <= total (g :: l) -> (length l + 2 <= fuel)%nat -> 0 <= tot -> tot + slen fs - r < 2 ^ 62 ->
  let p := sl fs + r in
  let N := Z.min (total (g :: l)) (Z.min (slen fs - r) (zlen (content s n) - p)) in
  exists d' x m' s', copy_loop fuel (m, s) d (mkReader n (mkCursor [fs] 0 r)) g tot = Done (tot + N, d', x, (m', s')) /\
    moved m s n (g :: l) (slice (content s n) p N) m' s'.
Proof.
  induction l as [|g' l IH]; intros fuel m s d n fs r g tot Hok Hg Hb Hat Hst Hfu Htot Ht2 p N;
    pose proof (Forall_inv Hg) as Hg0; pose proof (Forall_inv Hb) as Hb0; cbn beta in Hb0;
    pose proof Hok as (_ & Hf & Hr & Hsr & Hz); assert (Hs0 : 0 < slen g) by (destruct Hg0; unfold slen; lia);
    pose proof (total_pos _ (Forall_inv_tail Hg)) as Htp; assert (0 <= p) by (destruct Hf; lia);
    set (rd := Z.min (Z.min (slen fs - r) (slen g)) (zlen (content s n) - p)) in *;
    cbn [total] in *; cbn [length] in Hfu.
  - assert (N = rd) as -> by lia. destruct (decide (rd < slen g \/ rd = slen fs - r)) as [Hd|Hd].
    { destruct fuel as [|[|fuel]]; [lia..|]. by apply read_finish. }
    destruct fuel as [|fuel]; [lia|].
    destruct (read_turn fuel m s d n fs r g tot Hok Hg0 Hb0 Htot Ht2) as (m1 & s1 & Hx & Hreg & Hco & Hfs & Hsame & Hturn).
    fold p rd in Hx, Hturn. destruct (law_last d g 0 rd) as (e & d' & Hn & He); [done|done|unfold slen in *; lia..|].
    rewrite (Hturn _ _ Hn). eexists d', _, m1, s1. split.
    + destruct Hst as [Hst|]; [|lia]. specialize (He Hst). destruct fuel; cbn [copy_loop]; by rewrite He, andb_false_r.
    + split; [|done]. intros x. rewrite Hx, fill_short; [done..|]. rewrite slice_length; lia.
  - destruct (decide (rd < slen g \/ rd = slen fs - r)) as [Hd|Hd].
    { assert (N = rd) as -> by lia. destruct fuel as [|[|fuel]]; [lia..|]. by apply read_finish. }
    destruct fuel as [|fuel]; [lia|]. assert (Erd : rd = slen g) by lia.
    destruct (read_turn fuel m s d n fs r g tot Hok Hg0 Hb0 Htot Ht2) as (m1 & s1 & Hx & Hreg & Hco & Hfs & Hsame & Hturn).
    fold p rd in Hx, Hturn. pose proof (Forall_inv (Forall_inv_tail Hg)) as Hg1.
    destruct (law_across d g g' l 0 rd) as (d' & Hn & Hat'); [done|done|done|unfold slen in *; lia..|].
    rewrite (Hturn _ _ Hn). unfold reader_at. destruct (Z.eqb_spec rd 0); [lia|]. destruct (Z.eqb_spec (r + rd) (slen fs)); [lia|].
    destruct (IH fuel m1 s1 d' n fs (r + rd) g' (tot + rd)) as (d2 & x & m2 & s2 & Hl & Hmv); try lia; try done.
    + split_and!; rewrite ?Hco; try done; lia.
    + by apply Forall_inv_tail in Hg.
    + eapply backed_ext; [exact Hx|]. apply backed_overlay. by apply Forall_inv_tail in Hb.
    + destruct Hst as [Hst|Hst]; [by left|right; lia].
    + exists d2, x, m2, s2. rewrite Hl. rewrite Hco in Hmv |- *.
      replace (Z.min (slen g' + total l) (Z.min (slen fs - (r + rd)) (zlen (content s n) - (sl fs + (r + rd))))) with (N - slen g)
        in Hmv |- * by lia.
      split; [do 4 f_equal; lia|]. rewrite Erd in Hx. apply (moved_cons _ _ _ _ _ _ _ _ m1 s1); try done; [lia|].
      by replace (p + slen g) with (sl fs + (r + rd)) by lia.
Qed.

(** ** A vector written to a file *)
Definition writer_at (n : Z) (fs : Segment) (r : Z) : Writer :=
  mkWriter n (if r =? slen fs then mkCursor [fs] 1 0 else mkCursor [fs] 0 r).
Lemma writer_turn fuel m s d n fs r g tot :
  regular s n -> good fs -> 0 <= r < slen fs -> sr fs < 2 ^ 31 - 1 -> sl fs + r <= zlen (content s n) -> good g ->
  (forall x, sl g <= x <= sr g -> is_Some (byte m x)) -> 0 <= tot -> tot + slen fs - r < 2 ^ 62 ->
  let p := sl fs + r in
  let a := Z.min (slen fs - r) (slen g) in
  exists s', regular s' n /\ content s' n = splice (content s n) p (piece (byte m) (sl g) a) /\ rFS s' n = rFS s n /\
    forall e d', d_next d a = Done (e, d') ->
      copy_loop (Datatypes.S fuel) (m, s) d (mkWriter n (mkCursor [fs] 0 r)) g tot =
      copy_loop fuel (m, s') d' (writer_at n fs (r + a)) e (tot + a).
Proof.
  intros Hreg Hf Hr Hb Hp Hg Hm Htot Ht2 p a.
  assert (Hlen : 0 <= sl fs /\ slen fs = sr fs - sl fs + 1 /\ slen g = sr g - sl g + 1 /\ 0 < slen g <= 2 ^ 63).
  { destruct Hf, Hg. unfold slen. lia. }
  destruct (law_write s n (piece (byte m) (sl g) a) p Hreg) as (s' & Hw & Hreg' & Hc & Hfs & _); [lia|rewrite piece_zlen; lia|].
  exists s'. split_and!; [done..|]. intros e d' Hd. cbn [copy_loop]. rewrite seg_bool_good by done.
  cbn [s_avail writer_src w_cur at_end it vec length Nat.leb negb andb s_consume]. unfold writer_consume.
  cbn [w_cur vec it off w_node fst snd]. change ([fs] !! 0%nat) with (Some fs). cbv iota.
  rewrite kmin_spec, !seg_length_good, (u64_small (slen fs - r)) by (done || lia). fold a.
  rewrite law_kread by (try lia; intros; apply Hm; lia). cbn [obind]. fold (piece (byte m) (sl g) a).
  rewrite piece_zlen in Hw by lia. rewrite !u32_small by lia. fold p. rewrite Hw. cbn [obind].
  destruct (Z.ltb_spec 0 a); [|lia]. cbn [passert obind]. rewrite (u64_small a) by lia. rewrite Hd. cbn [obind].
  rewrite !u64_small by lia. unfold writer_at. by destruct (Z.eqb_spec (r + a) (slen fs)).
Qed.
Lemma splice_app (c a b : list Z) p :
  0 <= p <= zlen c -> splice (splice c p a) (p + zlen a) b = splice c p (a ++ b).
Proof.
  intros Hp. unfold splice, zlen in *. rewrite !(app_assoc (take (Z.to_nat p) c) a).
  rewrite take_app_length' by (rewrite length_app, length_take; lia).
  rewrite drop_app_ge by (rewrite length_app, length_take; lia). rewrite drop_drop, <- !app_assoc. do 4 f_equal.
  rewrite !length_app, length_take. lia.
Qed.
Lemma take_gather f g l N :
  slen g <= N -> 0 <= slen g -> take (Z.to_nat N) (gather f (g :: l)) = piece f (sl g) (slen g) ++ take (Z.to_nat (N - slen g)) (gather f l).
Proof.
  intros HN Hg. unfold gather. cbn [fmap list_fmap concat]. pose proof (piece_zlen f (sl g) (slen g) Hg) as E. unfold zlen in E.
  rewrite take_app_ge by lia. f_equal. f_equal. lia.
Qed.
Lemma take_piece f g l a : 0 <= a <= slen g -> take (Z.to_nat a) (gather f (g :: l)) = piece f (sl g) a.
Proof.
  intros Ha. unfold gather. cbn [fmap list_fmap concat]. pose proof (piece_zlen f (sl g) (slen g)) as E. unfold zlen in E.
  rewrite take_app_le by lia. unfold piece. rewrite <- fmap_take. f_equal. unfold seqZ. rewrite <- fmap_take. f_equal.
  rewrite take_seq. f_equal. lia.
Qed.
Lemma zlen_splice_ge (c a : list Z) p : 0 <= p <= zlen c -> p + zlen a <= zlen (splice c p a).
Proof. unfold splice, zlen. rewrite !length_app, length_take, length_drop. lia. Qed.

Lemma write_loop l : forall fuel m s d n fs r g tot,
  regular s n -> good fs -> 0 <= r < slen fs -> sr fs < 2 ^ 31 - 1 -> sl fs + r <= zlen (content s n) ->
  Forall good (g :: l) -> backed (byte m) (g :: l) -> at_ d (g :: l) 0 ->
  d_stops \/ slen fs - r <= total (g :: l) -> (length l + 1 <= fuel)%nat -> 0 <= tot -> tot + slen fs - r < 2 ^ 62 ->
  let N := Z.min (total (g :: l)) (slen fs - r) in
  exists d' x s', copy_loop fuel (m, s) d (mkWriter n (mkCursor [fs] 0 r)) g tot = Done (tot + N, d', x, (m, s')) /\
    regular s' n /\ content s' n = splice (content s n) (sl fs + r) (take (Z.to_nat N) (gather (byte m) (g :: l))) /\
    rFS s' n = rFS s n.
Proof.
  induction l as [|g' l IH]; intros fuel m s d n fs r g tot Hreg Hf Hr Hsr Hp Hg Hb Hat Hst Hfu Htot Ht2 N;
    pose proof (Forall_inv Hg) as Hg0; pose proof (Forall_inv Hb) as Hb0; cbn beta in Hb0;
    assert (Hs0 : 0 < slen g) by (destruct Hg0; unfold slen; lia);
    pose proof (total_pos _ (Forall_inv_tail Hg)) as Htp; cbn [total] in *; cbn [length] in Hfu;
    (destruct fuel as [|fuel]; [lia|]);
    destruct (writer_turn fuel m s d n fs r g tot) as (s1 & Hreg1 & Hc1 & Hfs1 & Hturn); try done;
    set (a := Z.min (slen fs - r) (slen g)) in *; assert (Ha : 0 < a) by lia.
  - assert (N = a) as -> by lia. destruct (d_any d g [] a Hat Hg) as (e & d' & Hn); [lia|].
    rewrite take_piece by lia. destruct (decide (a = slen fs - r)) as [Ea|Ea].
    { rewrite (Hturn _ _ Hn). unfold writer_at. destruct (Z.eqb_spec (r + a) (slen fs)); [|lia].
      eexists d', _, s1. split; [by destruct fuel|done]. }
    destruct (law_last d g 0 a) as (e' & d1 & Hn' & He); [done|done|unfold slen in *; lia..|]. rewrite (Hturn _ _ Hn').
    eexists d1, _, s1. split; [|done]. destruct Hst as [Hst|]; [|lia]. specialize (He Hst).
    destruct fuel; cbn [copy_loop]; by rewrite He, andb_false_r.
  - destruct (decide (a = slen fs - r)) as [Ea|Ea].
    { assert (N = a) as -> by lia. destruct (d_any d g (g' :: l) a Hat Hg) as (e & d' & Hn); [lia|].
      rewrite take_piece by lia. rewrite (Hturn _ _ Hn). unfold writer_at. destruct (Z.eqb_spec (r + a) (slen fs)); [|lia].
      eexists d', _, s1. split; [by destruct fuel|done]. }
    pose proof (Forall_inv (Forall_inv_tail Hg)) as Hg1. assert (Eg : a = slen g) by lia.
    destruct (law_across d g g' l 0 a) as (d' & Hn & Hat'); [done|done|done|unfold slen in *; lia..|].
    rewrite (Hturn _ _ Hn). unfold writer_at. destruct (Z.eqb_spec (r + a) (slen fs)); [lia|].
    assert (Hz : zlen (piece (byte m) (sl g) a) = a) by (apply piece_zlen; lia).
    assert (0 <= sl fs + r) by (destruct Hf; lia).
    destruct (IH fuel m s1 d' n fs (r + a) g' (tot + a)) as (d2 & x & s2 & Hl & Hreg2 & Hc2 & Hfs2); try lia; try done.
    + rewrite Hc1. pose proof (zlen_splice_ge (content s n) (piece (byte m) (sl g) a) (sl fs + r)). lia.
    + by apply Forall_inv_tail in Hg.
    + by apply Forall_inv_tail in Hb.
    + destruct Hst as [Hst|Hst]; [by left|right; lia].
    + exists d2, x, s2. rewrite Hl. split; [do 4 f_equal; lia|]. split; [done|]. split; [|congruence].
      rewrite Hc2, Hc1, (take_gather _ g (g' :: l) N) by lia. rewrite <- Eg. replace (sl fs + (r + a)) with (sl fs + r + zlen (piece (byte m) (sl g) a)) by lia.
      rewrite splice_app by lia. do 4 f_equal. lia.
Qed.
End Transfer.

(** ** The memories and the memory sides of the code *)
#[export] Program Instance phys_laws : KMemLaws Mem := {| byte m x := Some (m x) |}.
Next Obligation. done. Qed.
Next Obligation.
  intros m a bs _ _. eexists. split; [done|]. intros x. unfold mwrite.
  destruct (Z.leb_spec a x), (Z.ltb_spec x (a + zlen bs)); cbn [andb]; [rewrite decide_True by lia|rewrite decide_False by lia..]; done.
Qed.
#[export] Program Instance flat_kmem_laws : KMemLaws (list Z) :=
  {| byte u x := if decide (0 <= x < zlen u) then Some (vat u x) else None |}.
Next Obligation.
  intros u a n Hn Hm. cbn. assert (Hr : 0 <= a /\ a + n <= zlen u).
  { destruct (Hm a) as [y Hy]; [lia|]. destruct (Hm (a + n - 1)) as [z Hz]; [lia|]. repeat destruct decide; try done; lia. }
  destruct (Z.leb_spec 0 a), (Z.leb_spec (a + n) (zlen u)); try lia. cbn [andb]. f_equal. fold (piece (fun x => if decide (0 <= x < zlen u) then Some (vat u x) else None) a n).
  apply list_vat_eq; [rewrite slice_length, piece_zlen; lia|]. intros i Hi. rewrite slice_length in Hi by lia.
  rewrite vat_slice, piece_vat, decide_True by lia. done.
Qed.
Next Obligation.
  intros u a bs Hne Hm. cbn in *. assert (Hr : 0 <= a /\ a + zlen bs <= zlen u).
  { destruct (decide (bs = [])) as [->|Hnil].
    { destruct Hne as [|[y Hy]]; [done|]. change (zlen []) with 0. destruct decide; [lia|done]. }
    assert (Hb : 0 < zlen bs) by (destruct bs; [done|unfold zlen; cbn [length]; lia]).
    destruct (Hm a) as [y Hy]; [lia|]. destruct (Hm (a + zlen bs - 1)) as [z Hz]; [lia|]. repeat destruct decide; try done; lia. }
  destruct (Z.leb_spec 0 a), (Z.leb_spec (a + zlen bs) (zlen u)); try lia. cbn [andb]. eexists. split; [done|]. intros x.
  rewrite splice_length by lia. destruct (decide (0 <= x < zlen u)).
  - rewrite vat_splice by lia. by destruct (decide (a <= x < a + zlen bs)).
  - by rewrite decide_False by lia.
Qed.

Lemma drop_S_tail {A} (v : list A) i x l : drop i v = x :: l -> v !! i = Some x /\ drop (S i) v = l.
Proof.
  intros H. split.
  - rewrite <- (Nat.add_0_r i), <- lookup_drop, H. done.
  - replace (S i) with (i + 1)%nat by lia. by rewrite <- drop_drop, H.
Qed.
#[export] Program Instance kmem_laws : DstLaws KMemScatteredIO :=
  {| at_ x l o := drop (it (k_cur x)) (vec (k_cur x)) = l /\ off (k_cur x) = o; d_stops := False |}.
Next Obligation.
  intros [[v i o0] j] g l o b [Hd Ho] [Hg1 Hg2] H1 H2 H3. cbn in *. subst o0. apply drop_S_tail in Hd as [Hi Hd'].
  unfold kmem_next, cur. cbn. rewrite Hi. cbn. rewrite seg_length_good by done. unfold slen.
  rewrite (u64_small (o + b)) by lia. destruct (Z.eqb_spec (o + b) (sr g - sl g + 1)); [lia|]. cbn. rewrite Hi. cbn.
  rewrite u64_small by lia. eexists. split; [do 3 f_equal; lia|]. cbn. split; [|done]. by rewrite <- Hd', (drop_S _ _ _ Hi).
Qed.
Next Obligation.
  intros [[v i o0] j] g g' l o b [Hd Ho] Hg [Hg1 Hg2] H1 H2 H3. cbn in *. subst o0. pose proof Hg as [].
  apply drop_S_tail in Hd as [Hi Hd']. pose proof (drop_S_tail _ _ _ _ Hd') as [Hi' _].
  unfold kmem_next, cur. cbn. rewrite Hi. cbn. rewrite seg_length_good by done. unfold slen.
  rewrite (u64_small (o + b)) by lia. destruct (Z.eqb_spec (o + b) (sr g - sl g + 1)); [|lia]. cbn. rewrite Hi'. cbn.
  rewrite u64_small by lia. eexists. split; [rewrite Z.add_0_r; by destruct g'|done].
Qed.
Next Obligation. intros [[v i o0] j] g o b _ _ _ _ _. eexists _, _. split; [reflexivity|intros []]. Qed.
(** The regions of the vector that are not read yet are mapped, and the windows are at the
    addresses that they show. *)
Definition kaddr (find : Z -> option Region) (a : Z) : option Z := (fun r => u64 (rg_start r + region_bias a r)) <$> find a.
Definition umem_at (x : UMemScatteredIO) (l : list Segment) (o : Z) : Prop :=
  drop (it (u_cur x)) (vec (u_cur x)) = l /\ off (u_cur x) = o /\
  (fun st => u64 (st + u_bias x)) <$> u_mapper x = sl <$> head l /\
  Forall (fun g => kaddr (u_find x) (sl g) = Some (sl g)) l.
Lemma next_region_mapped find g l i : kaddr find (sl g) = Some (sl g) ->
  exists r, next_region find (g :: l) i = (i, Some (sl g, r)) /\ u64 (rg_start r + region_bias (sl g) r) = sl g.
Proof. unfold kaddr. cbn. destruct (find (sl g)) as [r|]; [|done]. intros [= E]. by exists r. Qed.
#[export] Program Instance umem_laws : DstLaws UMemScatteredIO := {| at_ := umem_at; d_stops := True |}.
Next Obligation.
  intros [[v i o0] [st|] bi ka] g l o b (Hd & Ho & Hb & Hm) Hg H1 H2 H3; [|done]. cbn in *. injection Hb as Hb. subst o0.
  pose proof Hg as [Hg1 Hg2].
  pose proof (drop_S_tail _ _ _ _ Hd) as [Hi Hd']. unfold umem_next. cbn. rewrite Hi. rewrite seg_length_good by done. unfold slen.
  rewrite (u64_small (o + b)) by lia. destruct (Z.eqb_spec (o + b) (sr g - sl g + 1)); [lia|]. cbn. rewrite Hi, Hb.
  rewrite seg_length_good by done. unfold slen. rewrite !u64_small by lia. eexists. split; [do 3 f_equal; lia|].
  split_and!; try done. cbn. by rewrite Hb.
Qed.
Next Obligation.
  intros [[v i o0] [st|] bi ka] g g' l o b (Hd & Ho & Hb & Hm) Hg Hg' H1 H2 H3; [|done]. cbn in *. subst o0. pose proof Hg as [Hg1 Hg2].
  pose proof Hg' as [Hg3 Hg4]. pose proof (drop_S_tail _ _ _ _ Hd) as [Hi Hd']. pose proof (drop_S_tail _ _ _ _ Hd') as [Hi' _].
  unfold umem_next. cbn. rewrite Hi. rewrite seg_length_good by done. unfold slen.
  rewrite (u64_small (o + b)) by lia. destruct (Z.eqb_spec (o + b) (sr g - sl g + 1)); [|lia]. unfold nextRegion. cbn [u_cur it vec off u_find].
  destruct (next_region_mapped ka g' l (S i)) as (r & En & Er); [by apply Forall_inv_tail, Forall_inv in Hm|].
  rewrite Hd', En. cbn. rewrite Hi', Er.
  rewrite seg_length_good by done. unfold slen. rewrite !u64_small by lia. eexists. split.
  - rewrite Z.add_0_r. replace (sl g' + (sr g' - sl g' + 1) - 1) with (sr g') by lia. by destruct g'.
  - split_and!; try done; [cbn; by rewrite Er|]. by apply Forall_inv_tail in Hm.
Qed.
Next Obligation.
  intros [[v i o0] bs bi ka] g o b (Hd & Ho & Hb & Hm) Hg H1 H2 H3. cbn in *. subst o0. pose proof Hg as [Hg1 Hg2].
  pose proof (drop_S_tail _ _ _ _ Hd) as [Hi Hd']. unfold umem_next. cbn. rewrite Hi. rewrite seg_length_good by done. unfold slen.
  rewrite (u64_small (o + b)) by lia. destruct (Z.eqb_spec (o + b) (sr g - sl g + 1)); [|lia]. unfold nextRegion. cbn [u_cur it vec off u_find].
  rewrite Hd'. cbn. eexists _, _. split; [done|]. done.
Qed.

(** ** readv and writev *)
Lemma copy_start {W D S : Type} `{!ScatterDst D} `{!DstLaws D} `{!ScatterSrc W S} fuel (w : W) (d : D) (x : S) g l :
  at_ d (g :: l) 0 -> d_avail d = true -> good g ->
  exists d', at_ d' (g :: l) 0 /\ scatteredCopy fuel w d x = copy_loop fuel w d' x g 0.
Proof.
  intros Ha Hd Hg. destruct (law_within d g l 0 0 Ha Hg) as (d' & Hn & Ha'); [lia..|destruct Hg; lia|].
  exists d'. split; [exact Ha'|]. unfold scatteredCopy. rewrite Hd. cbn [negb]. rewrite Hn. cbn [obind].
  rewrite !Z.add_0_r. by destruct g.
Qed.
Lemma UMem_new_at find g l :
  Forall (fun h => kaddr find (sl h) = Some (sl h)) (g :: l) ->
  at_ (UMem_new find (g :: l)) (g :: l) 0 /\ d_avail (UMem_new find (g :: l)) = true.
Proof.
  intros Hm. unfold UMem_new, nextRegion. cbn [u_cur it vec off u_find]. rewrite drop_0.
  destruct (next_region_mapped find g l 0) as (r & -> & Er); [by apply Forall_inv in Hm|]. split; [|done].
  split_and!; try done. cbn. by rewrite Er.
Qed.

Section Calls.
Context {S U : Type} `{!INodeOps S} `{!INodeLaws S} `{!UserMem U} `{!KMemLaws U}.
Implicit Types (k : K S U).

(** File [f] is open on the entry [d] at offset [o], with any mode. *)
Record entry_file k (f : Z) (x : File) (st : KStat) (de o : Z) (d : DEntry) : Prop := {
  ef_file : fobjs k !! f = Some x;
  ef_obj : obj x = EP st de o;
  ef_dent : dents (world k) !! de = Some d;
  ef_reg : regular (nods (world k)) (de_nod d);
  ef_off : 0 <= o <= zlen (data k d);
  ef_size : zlen (data k d) < 2 ^ 31 - 1
}.
(** The vector of a call: pieces that are not empty and mapped, with windows at the
    addresses that they show. *)
Record vector_ok (find : Z -> option Region) (u : U) (v : list Segment) : Prop := {
  vo_good : Forall good v;
  vo_mapped : Forall (fun h => kaddr find (sl h) = Some (sl h)) v;
  vo_backed : backed (byte u) v
}.
(** After the call the file is open at offset [o]. *)
Definition moved_to k k' (f : Z) (x : File) (st : KStat) (de o : Z) : Prop :=
  fobjs k' = <[f := mkFile (ops x) (flags x) (EP st de o)]> (fobjs k).

Lemma fvec_ok k f x st de o d :
  entry_file k f x st de o d -> good (mkSegment o (zlen (data k d))) /\ file_ok (nods (world k)) (de_nod d) (mkSegment o (zlen (data k d))) 0.
Proof.
  intros [_ _ _ Hreg Ho Hz]. unfold file_ok, good, slen, data in *. cbn [sl sr]. split_and!; try done; lia.
Qed.
Lemma fvec_eq k f x st de o d :
  entry_file k f x st de o d ->
  mkSegment (u64 o) (u64 (rFileSize (nods (world k)) (de_nod d))) = mkSegment o (zlen (data k d)).
Proof. intros [_ _ _ Hreg Ho Hz]. rewrite law_size by done. fold (data k d). by rewrite !u64_small by lia. Qed.

Lemma file_readv_exact fuel find k f x st de o d u g l :
  entry_file k f x st de o d -> vector_ok find u (g :: l) -> (length l + 2 <= fuel)%nat ->
  let n := Z.min (total (g :: l)) (zlen (data k d) - o) in
  exists u' k', file_readv fuel k f u (UMem_new find (g :: l)) = Done (WvRet n, u', k') /\
    (forall a, byte u' a = fill (byte u) (g :: l) (slice (data k d) o n) a) /\
    moved_to k k' f x st de (o + n) /\ data k' d = data k d /\ procs k' = procs k.
Proof.
  intros He [Hg Hm Hb] Hfu n. pose proof He as [Hx Hobj Hd Hreg Ho Hz]. destruct (fvec_ok _ _ _ _ _ _ _ He) as [Hf Hok].
  unfold file_readv, file_get. rewrite Hx. cbn [obind]. rewrite Hobj. unfold de_get. rewrite Hd. cbn [obind].
  rewrite (fvec_eq _ _ _ _ _ _ _ He). destruct (UMem_new_at find g l Hm) as [Ha Hav].
  destruct (copy_start fuel (u, nods (world k)) _ (mkReader (de_nod d) (mkCursor [mkSegment o (zlen (data k d))] 0 0)) g l Ha Hav)
    as (d' & Ha' & ->); [by apply Forall_inv in Hg|].
  destruct (read_loop l fuel u (nods (world k)) d' (de_nod d) _ 0 g 0 Hok Hg Hb Ha') as (d2 & r & u' & s' & Hl & Hx' & Hreg' & Hc' & _);
    [left; exact I|lia|lia|unfold slen; cbn [sl sr]; lia|].
  cbv zeta in *. pose proof (total_pos _ Hg) as Htp.
  assert (EN : Z.min (total (g :: l)) (Z.min (slen (mkSegment o (zlen (data k d))) - 0)
    (zlen (content (nods (world k)) (de_nod d)) - (sl (mkSegment o (zlen (data k d))) + 0))) = n).
  { fold (data k d). unfold slen. cbn [sl sr]. lia. }
  rewrite EN in *. rewrite Hl. cbn [obind fst snd sl] in *. rewrite Z.add_0_l, i64_small by lia. rewrite Z.add_0_r in Hx'.
  eexists u', _. by split_and!.
Qed.
Lemma file_writev_exact fuel find k f x st de o d u g l :
  entry_file k f x st de o d -> vector_ok find u (g :: l) -> (length l + 1 <= fuel)%nat ->
  let n := Z.min (total (g :: l)) (zlen (data k d) - o + 1) in
  exists k', file_writev fuel k f u (UMem_new find (g :: l)) = Done (WvRet n, u, k') /\
    data k' d = splice (data k d) o (take (Z.to_nat n) (gather (byte u) (g :: l))) /\
    moved_to k k' f x st de (o + n) /\ procs k' = procs k.
Proof.
  intros He [Hg Hm Hb] Hfu n. pose proof He as [Hx Hobj Hd Hreg Ho Hz]. destruct (fvec_ok _ _ _ _ _ _ _ He) as [Hf Hok].
  unfold file_writev, file_get. rewrite Hx. cbn [obind]. rewrite Hobj. unfold de_get. rewrite Hd. cbn [obind].
  rewrite (fvec_eq _ _ _ _ _ _ _ He). destruct (UMem_new_at find g l Hm) as [Ha Hav]. set (fs := mkSegment o _) in *.
  assert (Es : sl fs + 0 = o /\ slen fs - 0 = zlen (data k d) - o + 1) by (unfold slen; cbn; lia). destruct Es as [Es1 Es2].
  destruct (copy_start fuel (u, nods (world k)) _ (mkWriter (de_nod d) (mkCursor [fs] 0 0)) g l Ha Hav) as (d' & Ha' & ->);
    [by apply Forall_inv in Hg|].
  destruct (write_loop l fuel u (nods (world k)) d' (de_nod d) fs 0 g 0 Hreg Hf) as (d2 & r & s' & Hl & Hreg' & Hc' & _);
    try done; [unfold fs, data in *; cbn [sl sr] in *; lia..|left; exact I|lia|].
  cbv zeta in *. rewrite Es2 in Hl, Hc'. fold n in Hl, Hc'. rewrite Hl. cbn [obind fst snd]. pose proof (total_pos _ Hg) as Htp.
  rewrite Z.add_0_l, i64_small by lia. rewrite Es1 in Hc'. eexists _. by split_and!.
Qed.

Lemma sys_iov_file go fuel find k pid fd iov cnt p f v n u' k' :
  procs k !! pid = Some p -> ofile p fd = Done (Some f) -> 0 <= cnt -> read_iovs (umem p) iov (Z.to_nat cnt) = Done v ->
  go fuel k f (umem p) (UMem_new find v) = Done (WvRet n, u', k') -> procs k' = procs k ->
  sys_iov go fuel find k pid fd iov cnt = Done (IovRet (RtOk n), set_umem k' pid p u').
Proof.
  intros Hp Hf Hc Hv Hgo Hpr. unfold sys_iov, fd_file, proc_get. rewrite Hp. cbn [obind]. rewrite Hf. cbn [obind].
  destruct (Z.ltb_spec cnt 0); [lia|]. rewrite Hv. cbn [obind]. rewrite Hgo. cbn [obind].
  rewrite Hpr, Hp. done.
Qed.

(** readv on an open regular file and a vector of mapped, non-empty pieces, when the
    windows onto the memory of the process are at the addresses that they show, returns (it always ends: one turn of the copy loop per piece and two more)
    the smaller of the vector's length and what the file has left, spreads exactly
    these bytes of the file over the pieces in order, changes no other byte of
    user memory and not the file, and advances the offset. Nothing is asked of
    the mode of the descriptor. *)
Theorem readv_exact fuel find k pid fd iov cnt p f x st de o d g l :
  procs k !! pid = Some p -> ofile p fd = Done (Some f) -> entry_file k f x st de o d ->
  0 <= cnt -> read_iovs (umem p) iov (Z.to_nat cnt) = Done (g :: l) -> vector_ok find (umem p) (g :: l) ->
  (length l + 2 <= fuel)%nat ->
  let n := Z.min (total (g :: l)) (zlen (data k d) - o) in
  exists k' p', readv fuel find k pid fd iov cnt = Done (IovRet (RtOk n), k') /\ procs k' !! pid = Some p' /\
    (forall a, byte (umem p') a = fill (byte (umem p)) (g :: l) (slice (data k d) o n) a) /\
    moved_to k k' f x st de (o + n) /\ data k' d = data k d.
Proof.
  intros Hp Hf He Hc Hv Hok Hfu n. destruct (file_readv_exact fuel find k f x st de o d (umem p) g l He Hok Hfu)
    as (u' & k' & Hr & Hx & Hmv & Hd & Hpr). fold n in Hr, Hx, Hmv.
  exists (set_umem k' pid p u'). eexists. split; [by eapply sys_iov_file|]. cbn. rewrite lookup_insert_eq. by split_and!.
Qed.
(** writev writes the bytes of the vector in order at the offset, but never
    more than one byte past the end of the file: the segment of the file it
    writes to is the closed one from the offset to the size. At the end of a
    file a call therefore writes exactly one byte, whatever the vector holds. *)
Theorem writev_stops_at_size fuel find k pid fd iov cnt p f x st de o d g l :
  procs k !! pid = Some p -> ofile p fd = Done (Some f) -> entry_file k f x st de o d ->
  0 <= cnt -> read_iovs (umem p) iov (Z.to_nat cnt) = Done (g :: l) -> vector_ok find (umem p) (g :: l) ->
  (length l + 1 <= fuel)%nat ->
  let n := Z.min (total (g :: l)) (zlen (data k d) - o + 1) in
  exists k', writev fuel find k pid fd iov cnt = Done (IovRet (RtOk n), k') /\
    data k' d = splice (data k d) o (take (Z.to_nat n) (gather (byte (umem p)) (g :: l))) /\
    moved_to k k' f x st de (o + n) /\ (o = zlen (data k d) -> n = 1).
Proof.
  intros Hp Hf He Hc Hv Hok Hfu n. destruct (file_writev_exact fuel find k f x st de o d (umem p) g l He Hok Hfu)
    as (k' & Hr & Hd & Hmv & Hpr). fold n in Hr, Hd, Hmv.
  exists (set_umem k' pid p (umem p)). split; [by eapply sys_iov_file|]. split_and!; try done. intros ->.
  pose proof (vo_good _ _ _ Hok) as Hg. pose proof (Forall_inv Hg) as []. pose proof (total_pos _ (Forall_inv_tail Hg)).
  unfold n. cbn [total]. unfold slen. lia.
Qed.

(** ** pselect *)
Definition cleared (fds : option (list Z)) (i : Z) : Prop := forall l, fds = Some l -> FD_ISSET l i = Done false.
Lemma FD_CLR_spec l i l' j :
  FD_CLR l i = Done l' -> 0 <= i -> 0 <= j -> FD_ISSET l' j = if decide (j = i) then Done false else FD_ISSET l j.
Proof.
  unfold FD_CLR, FD_ISSET. intros H Hi Hj. odestr H. apply aset_Done in H as (Hr & ->). destruct (decide (i / 8 = j / 8)) as [E8|E8].
  - rewrite <- E8. unfold aget in *. destruct (Z.ltb_spec (i / 8) 0); [done|]. unfold upd. rewrite list_lookup_insert_eq by lia.
    destruct (l !! Z.to_nat (i / 8)) as [b|]; [|done]. injection E as <-. cbn [obind].
    rewrite Z.clearbit_eqb. destruct decide as [->|Hne]; [by rewrite Z.eqb_refl, andb_false_r|].
    destruct (Z.eqb_spec (i mod 8) (j mod 8)) as [Em|]; [|by rewrite andb_true_r].
    pose proof (Z.div_mod i 8). pose proof (Z.div_mod j 8). lia.
  - rewrite decide_False by (by intros ->). unfold aget in *. destruct (Z.ltb_spec (j / 8) 0); [done|]. unfold upd.
    rewrite list_lookup_insert_ne; [done|]. assert (0 <= i / 8) by (apply Z.div_pos; lia). lia.
Qed.
Lemma select_one_spec ready k pid i fds rt rt' fds' :
  select_one ready k pid i fds rt = Done (rt', fds') -> 0 <= i -> 0 <= rt < 2 ^ 31 - 1 ->
  rt <= rt' <= rt + 1 /\ (rt' = rt -> cleared fds' i) /\ (forall j, 0 <= j -> cleared fds j -> cleared fds' j).
Proof.
  unfold select_one. intros H Hi Hrt. destruct fds as [l|]; [|injection H as <- <-; split_and!; try lia; [by intros _ l [=]|by intros j _ _ l [=]]].
  odestr H. destruct a; cbn [negb] in H.
  2: { injection H as <- <-. split_and!; try lia; [|done]. by intros _ l' [= <-]. }
  odestr H. destruct a as [f|]; [|done]. odestr H. odestr H. destruct a0.
  - injection H as <- <-. rewrite i32_small by lia. split_and!; try lia. done.
  - odestr H. injection H as <- <-. split_and!; try lia.
    + intros _ l' [= <-]. rewrite (FD_CLR_spec _ _ _ i E3) by lia. by rewrite decide_True.
    + intros j Hj Hc l' [= <-]. rewrite (FD_CLR_spec _ _ _ j E3) by lia. destruct decide; [done|]. by apply Hc.
Qed.
Lemma select_pass_spec n : forall i k pid r w rt rt' r' w',
  select_pass n i k pid r w rt = Done (rt', r', w') -> 0 <= i -> 0 <= rt -> rt + 2 * Z.of_nat n < 2 ^ 31 - 1 ->
  rt <= rt' /\ (rt' = rt -> forall j, i <= j < i + Z.of_nat n -> cleared r' j /\ cleared w' j) /\
  (forall j, 0 <= j -> (cleared r j -> cleared r' j) /\ (cleared w j -> cleared w' j)).
Proof.
  induction n as [|n IH]; intros i k pid r w rt rt' r' w' H Hi Hrt Hb.
  { cbn in H. injection H as <- <- <-. split; [lia|]. split; [lia|done]. }
  cbn [select_pass] in H. odestr H. destruct a as [rt1 r1]. odestr H. destruct a as [rt2 w1].
  apply select_one_spec in E as (Hr1 & Hr2 & Hr3); [|lia..]. apply select_one_spec in E0 as (Hw1 & Hw2 & Hw3); [|lia..].
  apply IH in H as (H1 & H2 & H3); [|lia..]. split; [lia|]. split.
  - intros -> j Hj. destruct (decide (j = i)) as [->|]; [|apply H2; lia]. split; apply H3; try lia; [apply Hr2; lia|apply Hw2; lia].
  - intros j Hj. destruct (H3 j Hj). split; eauto.
Qed.
(** With every bit cleared a pass finds nothing and looks at no descriptor. *)
Lemma select_one_cleared ready k pid i fds rt : cleared fds i -> select_one ready k pid i fds rt = Done (rt, fds).
Proof. intros H. destruct fds as [l|]; [|done]. unfold select_one. by rewrite (H l eq_refl). Qed.
Lemma select_pass_cleared n : forall i k pid r w rt,
  (forall j, i <= j < i + Z.of_nat n -> cleared r j /\ cleared w j) -> select_pass n i k pid r w rt = Done (rt, r, w).
Proof.
  induction n as [|n IH]; intros i k pid r w rt H; [done|]. cbn [select_pass]. destruct (H i) as [H1 H2]; [lia|].
  rewrite !select_one_cleared by done. cbn [obind]. rewrite select_one_cleared by done. cbn [obind]. apply IH. intros j Hj. apply H. lia.
Qed.
Lemma select_loop_cleared env : forall nfds pid r w,
  (forall j, 0 <= j < Z.of_nat (Z.to_nat nfds) -> cleared r j /\ cleared w j) ->
  (Forall (fun e => snd e = true) env -> select_loop env nfds pid r w = Diverge) /\
  (forall rt r' w' k', select_loop env nfds pid r w = Done (rt, r', w', k') -> rt = 0).
Proof.
  induction env as [|[k more] env IH]; intros nfds pid r w H; [done|]. cbn [select_loop].
  rewrite select_pass_cleared by done. cbn [obind Z.eqb negb]. destruct (IH nfds pid r w H) as [H1 H2]. split.
  - intros Hf. apply Forall_cons in Hf as [E Hf]. cbn in E. rewrite E. by apply H1.
  - destruct more; [apply H2|]. by intros rt r' w' k' [= <- _ _ _].
Qed.

(** pselect looks once: descriptors that are not ready at the first pass are
    removed from the sets that the next passes look at. If none is ready at
    first, then whatever other tasks do in the meantime the call returns 0 if it
    returns, and without a timeout it never returns. *)
Theorem pselect_looks_once fdset_size k env more pid nfds rf wf ef p r w e r1 w1 :
  procs k !! pid = Some p -> get_fds fdset_size (umem p) rf = Done r -> get_fds fdset_size (umem p) wf = Done w ->
  get_fds fdset_size (umem p) ef = Done e ->
  0 <= nfds < 2 ^ 30 - 1 -> select_pass (Z.to_nat nfds) 0 k pid r w 0 = Done (0, r1, w1) ->
  (forall rt k', pselect fdset_size k env more pid nfds rf wf ef = Done (rt, k') -> rt = RtOk 0) /\
  (more = true -> Forall (fun e => snd e = true) env -> pselect fdset_size k env more pid nfds rf wf ef = Diverge).
Proof.
  intros Hp Hr Hw He Hn Hpass. apply select_pass_spec in Hpass as Hs; [|lia..]. destruct Hs as (_ & Hcl & _).
  destruct (select_loop_cleared env nfds pid r1 w1) as [H1 H2]; [apply Hcl; done|].
  unfold pselect, proc_get. rewrite Hp. cbn [obind]. rewrite Hr, Hw. cbn [obind].
  rewrite He. cbn [obind select_loop]. rewrite Hpass. cbn [obind Z.eqb negb].
  split.
  - intros rt k' H. odestr H. destruct a as [[[rt0 r0] w0] k0]. assert (rt0 = 0) as ->.
    { destruct more; [by eapply H2|]. by injection E as <- _ _ _. }
    odestr H. odestr H. odestr H. odestr H. by injection H as <- _.
  - intros -> Hf. by rewrite H1.
Qed.
End Calls.

(** ** Pages of a file *)
Section Pages.
Context {S M : Type} `{!INodeOps S} `{!INodeLaws S} `{!KMemory M} `{!KMemLaws M}.
Implicit Types (m : M) (s : S).
Definition page_ok (g : Segment) : Prop := 0 <= sl g <= sr g /\ sr g < 2 ^ 50.
Lemma page_segment_good g : page_ok g -> good (page_segment g) /\ slen (page_segment g) = 4096 * (sr g - sl g + 1) /\
  sl (page_segment g) = 4096 * sl g /\ sr (page_segment g) = 4096 * (sr g + 1) - 1.
Proof. intros [H1 H2]. unfold good, slen, page_segment. cbn [sl sr]. rewrite !u64_small by lia. lia. Qed.
(** readPages of consecutive pages [a..b] of a file into frames (a vector of
    [b-a+1] pages): the bytes the file has there are spread over the frames in
    order; the frames keep what they held past the end of the file. The copy
    ends after one turn for each segment of frames and at most two more, without
    looking past the end of the vector for memory. *)
Lemma readPages_fill fuel junk m s n src g l :
  regular s n -> page_ok src -> 4096 * (sr src + 1) < 2 ^ 31 - 1 -> 4096 * sl src <= zlen (content s n) < 2 ^ 31 ->
  Forall page_ok (g :: l) -> total (page_segment <$> g :: l) = 4096 * (sr src - sl src + 1) ->
  backed (byte m) (page_segment <$> g :: l) -> (length l + 2 <= fuel)%nat ->
  let N := Z.min (4096 * (sr src - sl src + 1)) (zlen (content s n) - 4096 * sl src) in
  exists m' s', readPages fuel junk m s n [src] (g :: l) = Done (m', s') /\
    (forall x, byte m' x = fill (byte m) (page_segment <$> g :: l) (slice (content s n) (4096 * sl src) N) x) /\
    same_files s s'.
Proof.
  intros Hreg Hs Hb Hz Hg Ht Hbk Hfu N. unfold readPages, inode_readv.
  destruct (page_segment_good src Hs) as (Hgs & Hls & Es & Er). change (page_segment <$> [src]) with [page_segment src].
  assert (Hgood : Forall good (page_segment <$> g :: l)).
  { apply Forall_fmap. eapply Forall_impl; [exact Hg|]. intros y Hy. by apply page_segment_good. }
  set (fs := page_segment src) in *. set (h := page_segment g) in *. set (v := page_segment <$> l) in *.
  change (page_segment <$> g :: l) with (h :: v) in *.
  assert (Ha : at_ (mkKMem (mkCursor (h :: v) 0 0) junk) (h :: v) 0) by done.
  destruct (copy_start fuel (m, s) _ (mkReader n (mkCursor [fs] 0 0)) h v Ha eq_refl) as (d' & Ha' & ->); [by apply Forall_inv in Hgood|].
  assert (Hl : length v = length l) by apply length_fmap. destruct Hs as [Hs1 Hs2].
  destruct (read_loop v fuel m s d' n fs 0 h 0) as (d2 & x & m' & s' & Hloop & Hx & _ & _ & _ & Hsame); try done; try lia.
  { split_and!; try done; lia. }
  cbv zeta in *. rewrite Z.add_0_r, Es in Hx, Hloop. rewrite Z.sub_0_r, Hls, Ht in Hx, Hloop.
  replace (Z.min _ (Z.min _ _)) with N in Hx, Hloop by lia. rewrite Hloop. cbn [obind]. exists m', s'. by split_and!.
Qed.
End Pages.

(** ** A concrete process: "/a" of five bytes at descriptor 0, and a vector of
    two and nine bytes at address 100 *)
Definition ex_put (k : exK) : exK :=
  match procs k !! 1 with Some p => set_umem k 1 p (splice (umem p) 100 (enc [200; 2; 210; 9])) | None => k end.
Definition ex_kr : exK := ex_put (ret_k (FileSys.FileSys.lSeek ex_kb 1 0 1 SEEK_SET)).
Definition ex_kw : exK := ex_put ex_kb.
Definition ex_p (k : exK) : Proc (list Z) := default ex_proc (procs k !! 1).
Definition ex_f (k : exK) : File := default (mkFile (ops_raw 0) 0 (PP kst_pipe 0)) (fobjs k !! 3).
Definition ex_st (k : exK) : KStat := d_kst (obj (ex_f k)).
Definition ex_vec : list Segment := [mkSegment 200 201; mkSegment 210 218].
Lemma ex_entry_r : entry_file ex_kr 3 (ex_f ex_kr) (ex_st ex_kr) 2 1 ex_da.
Proof. constructor; [vm_compute; reflexivity..|eexists; vm_compute; auto|vm_compute; split; discriminate|vm_compute; reflexivity]. Qed.
Lemma ex_entry_w : entry_file ex_kw 3 (ex_f ex_kw) (ex_st ex_kw) 2 5 ex_da.
Proof. constructor; [vm_compute; reflexivity..|eexists; vm_compute; auto|vm_compute; split; discriminate|vm_compute; reflexivity]. Qed.
(** Every page mapped from page 0 of its object, the window at address 0: byte [a] of the
    process is at kernel address [a]. *)
Definition ex_find (a : Z) : option Region := Some (mkRegion 0 0 0).
Lemma ex_vector k : zlen (umem (ex_p k)) = 522 -> vector_ok ex_find (umem (ex_p k)) ex_vec.
Proof.
  intros H. constructor.
  - repeat constructor; cbn; lia.
  - repeat constructor.
  - repeat constructor; intros x Hx; cbn -[zlen] in *; rewrite decide_True by lia; by eexists.
Qed.
Lemma readv_exact_witness :
  exists k' p', readv 5 ex_find ex_kr 1 0 100 2 = Done (IovRet (RtOk 4), k') /\ procs k' !! 1 = Some p' /\
    (forall a, byte (umem p') a = fill (byte (umem (ex_p ex_kr))) ex_vec [2; 3; 4; 5] a) /\
    moved_to ex_kr k' 3 (ex_f ex_kr) (ex_st ex_kr) 2 5 /\ data k' ex_da = [1; 2; 3; 4; 5].
Proof.
  assert (Ed : data ex_kr ex_da = [1; 2; 3; 4; 5]) by (vm_compute; reflexivity).
  assert (Hv : vector_ok ex_find (umem (ex_p ex_kr)) ex_vec) by (apply ex_vector; vm_compute; reflexivity).
  pose proof (readv_exact 5 ex_find ex_kr 1 0 100 2 (ex_p ex_kr) 3 (ex_f ex_kr) (ex_st ex_kr) 2 1 ex_da
    (mkSegment 200 201) [mkSegment 210 218] ltac:(vm_compute; reflexivity) ltac:(vm_compute; reflexivity) ex_entry_r ltac:(lia)
    ltac:(vm_compute; reflexivity) Hv ltac:(cbn; lia)) as H. cbv zeta in H. rewrite Ed in *. exact H.
Defined.
Lemma writev_stops_at_size_witness :
  exists k', writev 5 ex_find ex_kw 1 0 100 2 = Done (IovRet (RtOk 1), k') /\
    data k' ex_da = splice (data ex_kw ex_da) 5 (take 1 (gather (byte (umem (ex_p ex_kw))) ex_vec)) /\
    moved_to ex_kw k' 3 (ex_f ex_kw) (ex_st ex_kw) 2 6 /\ (5 = zlen (data ex_kw ex_da) -> 1 = 1).
Proof.
  assert (Ed : data ex_kw ex_da = [1; 2; 3; 4; 5]) by (vm_compute; reflexivity).
  assert (Hv : vector_ok ex_find (umem (ex_p ex_kw)) ex_vec) by (apply ex_vector; vm_compute; reflexivity).
  pose proof (writev_stops_at_size 5 ex_find ex_kw 1 0 100 2 (ex_p ex_kw) 3 (ex_f ex_kw) (ex_st ex_kw) 2 5 ex_da
    (mkSegment 200 201) [mkSegment 210 218] ltac:(vm_compute; reflexivity) ltac:(vm_compute; reflexivity) ex_entry_w ltac:(lia)
    ltac:(vm_compute; reflexivity) Hv ltac:(cbn; lia)) as H. cbv zeta in H. rewrite Ed in *. exact H.
Defined.
(** Descriptor 1 is standard output, which is never ready for reading: bit 1
    of the set at address 300. *)
Definition ex_ks1 : exK := match procs ex_k !! 1 with Some p => set_umem ex_k 1 p (splice (umem p) 300 [2]) | None => ex_k end.
Lemma pselect_looks_once_witness :
  (forall rt k', pselect 8 ex_ks1 [(ex_ks1, true); (ex_ks1, false)] true 1 4 300 0 0 = Done (rt, k') -> rt = RtOk 0) /\
  (true = true -> Forall (fun e => snd e = true) [(ex_ks1, true); (ex_ks1, false)] ->
   pselect 8 ex_ks1 [(ex_ks1, true); (ex_ks1, false)] true 1 4 300 0 0 = Diverge).
Proof.
  apply (pselect_looks_once 8 ex_ks1 [(ex_ks1, true); (ex_ks1, false)] true 1 4 300 0 0 (ex_p ex_ks1)
    (Some [2; 0; 0; 0; 0; 0; 0; 0]) None None (Some [0; 0; 0; 0; 0; 0; 0; 0]) None); [vm_compute; reflexivity..|lia|vm_compute; reflexivity].
Defined.
End ScatterClaims.
