(* ===== verification/Pager.v ===== *)
(** * Pager: pagers and memory objects (include/vm/pager.hh, include/vm/vmo.hh,
    include/vm/pcache.hh, kernel/vm/vm.cc)

    A page buffer is known by the frame it owns; pagers and VMOs are numbers into
    the state. Physical memory is the function [mem], frame [p] are the bytes from
    [p * 4096]. Pagers keep the buffers they made, so buffers live as long as
    their pagers; how pagers and VMOs die and give their frames back is in
    PagerFree. [junk] is what readPages finds past the end of a vector. *)

From S2P Require Import Prelude Klib Buddy PageAlloc PageTable Bcache Bytes Path Vfs Ramfs Scatter ScatterClaims.
Local Open Scope Z_scope.

Module Pager.
Import PageTable Scatter.

Inductive Pager : Type :=
| VnodePager (vnode : Z) (pages : gmap Z Z) (reloadcount : Z)
| SwapPager (backing : option Z) (backingregion : Segment) (pages : gmap Z Z).
Inductive VMO : Type :=
| VMOPaged (pages : list (option Z)) (pager : Z)
| VMOContiguous (ppn pages : Z).
Definition pg_pages (g : Pager) : gmap Z Z := match g with VnodePager _ ps _ => ps | SwapPager _ _ ps => ps end.

(** memset and memmove on physical memory. *)
Definition memset (m : Mem) (a v n : Z) : Mem := fun x => if (a <=? x) && (x <? a + n) then v else m x.
Definition memmove (m : Mem) (dst src n : Z) : Mem :=
  fun x => if (dst <=? x) && (x <? dst + n) then m (src + (x - dst)) else m x.

Section Ops.
Context {S : Type} `{!INodeOps S} (junk : Segment).

Record PW : Type := mkPW {
  mem : Mem;
  pmgr : Buddy.Buddy.PageMgr;
  nods : S;
  pagers : gmap Z Pager;
  nextpg : Z;
  vmos : gmap Z VMO;
  nextvm : Z
}.
Implicit Types w : PW.
Definition with_mem w (m : Mem) : PW := mkPW m (pmgr w) (nods w) (pagers w) (nextpg w) (vmos w) (nextvm w).
Definition set_pager w (g : Z) (x : Pager) : PW :=
  mkPW (mem w) (pmgr w) (nods w) (<[g := x]> (pagers w)) (nextpg w) (vmos w) (nextvm w).
Definition set_vmo w (v : Z) (x : VMO) : PW := mkPW (mem w) (pmgr w) (nods w) (pagers w) (nextpg w) (<[v := x]> (vmos w)) (nextvm w).
Definition pager_get w (g : Z) : outcome Pager := match pagers w !! g with Some x => Done x | None => Undef end.
Definition vmo_get w (v : Z) : outcome VMO := match vmos w !! v with Some x => Done x | None => Undef end.

(** ** PageBuf *)
Definition PageBuf_new w : outcome (Z * PW) :=
  let* (ppn, a) := Buddy.Buddy.alloc (pmgr w) 1 in
  Done (ppn, mkPW (mem w) a (nods w) (pagers w) (nextpg w) (vmos w) (nextvm w)).
Definition fillzero w (ppn : Z) : PW := with_mem w (memset (mem w) (pn2addr ppn) 0 pageSize).
Definition fillwith w (ppn other : Z) : PW := with_mem w (memmove (mem w) (pn2addr ppn) (pn2addr other) pageSize).

(** ** VnodePager *)
Definition vnode_load w (g offset : Z) : outcome (Z * PW) :=
  let* x := pager_get w g in
  match x with
  | VnodePager n pages _ =>
      match pages !! offset with
      | Some p => Done (p, w)
      | None =>
          let* (ppn, w) := PageBuf_new w in
          let* (m, s) := readPages 3 junk (mem w) (nods w) n [mkSegment offset offset] [mkSegment ppn ppn] in
          let w := mkPW m (pmgr w) s (pagers w) (nextpg w) (vmos w) (nextvm w) in
          let* x := pager_get w g in
          match x with
          | VnodePager n pages rc => Done (ppn, set_pager w g (VnodePager n (<[offset := ppn]> pages) rc))
          | _ => Undef
          end
      end
  | _ => Undef
  end.
Definition vnode_loadTo w (g offset ppn : Z) : outcome PW :=
  let* x := pager_get w g in
  match x with
  | VnodePager n pages rc =>
      let w := set_pager w g (VnodePager n pages (u64 (rc + 1))) in
      let* (p, w) := vnode_load w g offset in
      Done (fillwith w ppn p)
  | _ => Undef
  end.
(** ** SwapPager: a chain of backing pagers, [fuel] is its length *)
Definition zero_partial w (region : Segment) (offset backingoff ppn : Z) : PW :=
  let w := if offset =? 0 then with_mem w (memset (mem w) (pn2addr ppn) 0 (u64 (sl region - pn2addr backingoff))) else w in
  if backingoff =? addr2pn (sr region) then
    let partial := u64 (sr region - pn2addr backingoff) in
    with_mem w (memset (mem w) (pn2addr ppn + partial) 0 (u64 (pageSize - partial)))
  else w.
Fixpoint loadTo (fuel : nat) w (g offset ppn : Z) : outcome PW :=
  match fuel with
  | O => Diverge
  | Datatypes.S fuel =>
      let* x := pager_get w g in
      match x with
      | VnodePager _ _ _ => vnode_loadTo w g offset ppn
      | SwapPager backing region pages =>
          match pages !! offset with
          | Some q => Done (fillwith w ppn q)
          | None =>
              let backingoff := u64 (addr2pn (sl region) + offset) in
              match backing with
              | Some b =>
                  if backingoff <=? addr2pn (sr region) then
                    let* w := loadTo fuel w b backingoff ppn in
                    Done (zero_partial w region offset backingoff ppn)
                  else Done (fillzero w ppn)
              | None => Done (fillzero w ppn)
              end
          end
      end
  end.
Definition load (fuel : nat) w (g offset : Z) : outcome (Z * PW) :=
  let* x := pager_get w g in
  match x with
  | VnodePager _ _ _ => vnode_load w g offset
  | SwapPager _ _ pages =>
      match pages !! offset with
      | Some q => Done (q, w)
      | None =>
          let* (ppn, w) := PageBuf_new w in
          let* w := loadTo fuel w g offset ppn in
          let* x := pager_get w g in
          match x with
          | SwapPager backing region pages => Done (ppn, set_pager w g (SwapPager backing region (<[offset := ppn]> pages)))
          | _ => Undef
          end
      end
  end.
Definition new_pager w (x : Pager) : Z * PW :=
  (nextpg w, mkPW (mem w) (pmgr w) (nods w) (<[nextpg w := x]> (pagers w)) (nextpg w + 1) (vmos w) (nextvm w)).
Definition new_vmo w (x : VMO) : Z * PW :=
  (nextvm w, mkPW (mem w) (pmgr w) (nods w) (pagers w) (nextpg w) (<[nextvm w := x]> (vmos w)) (nextvm w + 1)).

(** ** VMOPaged and VMOContiguous *)
Definition vmo_len (x : VMO) : Z := match x with VMOPaged ps _ => Z.of_nat (length ps) | VMOContiguous _ n => n end.
Definition req (fuel : nat) w (v offset : Z) : outcome (Z * Z * Z * PW) :=
  let* x := vmo_get w v in
  match x with
  | VMOPaged pages g =>
      passert (offset <? Z.of_nat (length pages)) ;;;
      let* e := aget pages offset in
      match e with
      | Some p => Done (offset, p, 1, w)
      | None =>
          let* (p, w) := load fuel w g offset in
          Done (offset, p, 1, set_vmo w v (VMOPaged (<[Z.to_nat offset := Some p]> pages) g))
      end
  | VMOContiguous ppn n => Done (0, ppn, n, w)
  end.
Definition copyframes w (src dst n : Z) : PW := with_mem w (memmove (mem w) (pn2addr dst) (pn2addr src) (u64 (n * pageSize))).
Definition clone w (v : Z) : outcome (Z * PW) :=
  let* x := vmo_get w v in
  match x with
  | VMOPaged pages g =>
      let (g', w) := new_pager w (SwapPager (Some g) (mkSegment 0 (pn2addr (Z.of_nat (length pages)))) ∅) in
      Done (new_vmo w (VMOPaged (replicate (length pages) None) g'))
  | VMOContiguous ppn n =>
      let* (q, a) := Buddy.Buddy.alloc (pmgr w) n in
      let w := mkPW (mem w) a (nods w) (pagers w) (nextpg w) (vmos w) (nextvm w) in
      Done (new_vmo (copyframes w ppn q n) (VMOContiguous q n))
  end.
(** File::vmo for a file without one: pages for the size it has now. *)
Definition file_vmo w (n : Z) : Z * PW :=
  let (g, w) := new_pager w (VnodePager n ∅ 0) in
  new_vmo w (VMOPaged (replicate (Z.to_nat (bytes2pages (rFileSize (nods w) n))) None) g).
End Ops.
End Pager.
