(* ===== verification/PagerClaims.v ===== *)
(** * PagerClaims: what a page of a memory object holds

    [view] says what byte a pager gives for a page, without loading anything:
    the cached buffer if there is one, otherwise the file's byte or, for a swap
    pager, the backing pager's byte inside its region and zero outside. Loading
    is proved to deliver the view and to keep every other view ([ext]). *)

From S2P Require Import Prelude Klib Buddy PageAlloc PageTable Bcache Bytes Path Vfs Ramfs Scatter ScatterClaims Pager.
Local Open Scope Z_scope.

Module PagerClaims.
Import PageTable Scatter ScatterClaims Pager.

Lemma pool_range n s (H : gset Z) p : PagePool.pool_ok n s H -> p ∈ H -> 0 < p < 2 ^ 44.
Proof.
  intros (Hn & k & l & r & L) Hp. assert (HL : PagePool.ones H !! p = Some 0%nat) by by apply lookup_gset_to_gmap_Some.
  destruct (PageAlloc.ld_used _ _ _ _ _ L _ _ HL) as [Hu He]. pose proof (PageAlloc.ld_inv _ _ _ _ _ L) as I.
  destruct (PageAlloc.used_in _ _ _ _ _ _ (Buddy.iv_base _ _ _ _ I) Hu) as [H1 _].
  destruct (Buddy.iv_start _ _ _ _ (Buddy.iv_base _ _ _ _ I)) as (H2 & H3 & H4). change (2 ^ Z.of_nat 0) with 1 in He. lia.
Qed.
Lemma pn2addr_small p : 0 <= p < 2 ^ 50 -> pn2addr p = p * 4096.
Proof. intros Hp. unfold pn2addr. rewrite Z.shiftl_mul_pow2, u64_small by lia. lia. Qed.
Lemma addr2pn_div a : addr2pn a = a / 4096.
Proof. unfold addr2pn. by rewrite Z.shiftr_div_pow2 by lia. Qed.

Section Views.
Context {S : Type} `{!INodeOps S} `{!INodeLaws S} (junk : Segment).
Notation PW := (@PW S).
Implicit Types (w : PW).

(** [a] is the byte of the backing object that byte [i] of the page shows. *)
Fixpoint view (fuel : nat) w (g off i : Z) : option Z :=
  match fuel with
  | O => None
  | Datatypes.S fuel =>
      match pagers w !! g with
      | None => None
      | Some x =>
          match pg_pages x !! off with
          | Some p => Some (mem w (p * 4096 + i))
          | None =>
              match x with
              | VnodePager n _ _ =>
                  let a := off * 4096 + i in if a <? zlen (content (nods w) n) then Some (vat (content (nods w) n) a) else None
              | SwapPager b region _ =>
                  let bo := sl region / 4096 + off in
                  let a := bo * 4096 + i in
                  match b with
                  | Some b => if (sl region <=? a) && (a <? sr region) then view fuel w b bo i else Some 0
                  | None => Some 0
                  end
              end
          end
      end
  end.
(** The pages that a load goes down to lie in their files. *)
Fixpoint loadable (fuel : nat) w (g off : Z) : Prop :=
  match fuel with
  | O => False
  | Datatypes.S fuel =>
      match pagers w !! g with
      | None => False
      | Some x =>
          0 <= off /\
          (is_Some (pg_pages x !! off) \/
           match x with
           | VnodePager n _ _ => off * 4096 <= zlen (content (nods w) n)
           | SwapPager None _ _ => True
           | SwapPager (Some b) region _ =>
               let bo := sl region / 4096 + off in bo <= sr region / 4096 -> loadable fuel w b bo
           end)
      end
  end.
Definition cached w (g off p : Z) : Prop := exists x, pagers w !! g = Some x /\ pg_pages x !! off = Some p.
(** The same pager with perhaps more pages. *)
Definition grows (x y : Pager) : Prop :=
  match x, y with
  | VnodePager n ps _, VnodePager m qs _ => n = m /\ ps ⊆ qs
  | SwapPager b r ps, SwapPager c q qs => b = c /\ r = q /\ ps ⊆ qs
  | _, _ => False
  end.
(** A backing pager is older than the pager it backs. *)
Definition pager_ok w (g : Z) (x : Pager) : Prop :=
  match x with
  | VnodePager n _ _ => regular (nods w) n /\ zlen (content (nods w) n) < 2 ^ 31 - 8192
  | SwapPager b region _ => (forall b', b = Some b' -> b' < g) /\ 0 <= sl region <= sr region /\ sr region < 2 ^ 50
  end.
Record Inv (N : Z) (H : gset Z) w : Prop := {
  in_pool : PagePool.pool_ok N (pmgr w) H;
  in_held : forall g off p, cached w g off p -> p ∈ H;
  in_inj : forall g off g' off' p, cached w g off p -> cached w g' off' p -> g = g' /\ off = off';
  in_pager : forall g x, pagers w !! g = Some x -> pager_ok w g x;
  in_fresh : forall g x, pagers w !! g = Some x -> g < nextpg w
}.
(** What loading may change: buffers are added, memory held before and not
    [q] stays, a page that is new in a pager holds what the pager showed. *)
Record ext (H : gset Z) (q : Z) w w' : Prop := {
  ex_grow : forall g x, pagers w !! g = Some x -> exists y, pagers w' !! g = Some y /\ grows x y;
  ex_dom : forall g, pagers w !! g = None -> pagers w' !! g = None;
  ex_mem : forall p i, p ∈ H -> p <> q -> 0 <= i < 4096 -> mem w' (p * 4096 + i) = mem w (p * 4096 + i);
  ex_new : forall g off p, cached w' g off p -> ~ cached w g off p ->
    p ∉ H /\ forall f i b, 0 <= i < 4096 -> view f w g off i = Some b -> mem w' (p * 4096 + i) = b;
  ex_files : same_files (nods w) (nods w');
  ex_rest : vmos w' = vmos w /\ nextpg w' = nextpg w /\ nextvm w' = nextvm w
}.
Lemma cached_grow H q w w' g off p : ext H q w w' -> cached w g off p -> cached w' g off p.
Proof.
  intros E (x & Hx & Hp). destruct (ex_grow _ _ _ _ E g x Hx) as (y & Hy & Hg). exists y. split; [done|].
  destruct x, y; cbn in *; try done; [destruct Hg as [_ Hs]|destruct Hg as (_ & _ & Hs)]; by eapply lookup_weaken.
Qed.
(** A byte that a view fixes stays what it is. *)
Lemma view_ext N H q w w' f g off i b :
  Inv N H w -> ext H q w w' -> (forall g off, ~ cached w g off q) -> 0 <= i < 4096 ->
  view f w g off i = Some b -> view f w' g off i = Some b.
Proof.
  intros I E Hq Hi. revert g off. induction f as [|f IH]; intros g off Hv; [done|]. cbn [view] in Hv |- *.
  destruct (pagers w !! g) as [x|] eqn:Hx; [|done]. destruct (ex_grow _ _ _ _ E g x Hx) as (y & Hy & Hg). rewrite Hy.
  destruct (pg_pages x !! off) as [p|] eqn:Hp.
  - assert (Hc : cached w g off p) by by exists x. pose proof (cached_grow _ _ _ _ _ _ _ E Hc) as (y' & Hy' & Hp').
    assert (y' = y) as -> by congruence. rewrite Hp', <- Hv. f_equal. apply (ex_mem _ _ _ _ E); [by eapply in_held| |done].
    intros ->. by apply (Hq g off).
  - destruct (pg_pages y !! off) as [p|] eqn:Hp'.
    { f_equal. destruct (ex_new _ _ _ _ E g off p) as [_ Hn]; [by exists y|intros (x' & Hx' & Hpx); congruence|].
      apply (Hn (Datatypes.S f)); [done|]. cbn [view]. by rewrite Hx, Hp. }
    destruct x as [n ps rc|bk rg ps], y as [m qs rc'|bk' rg' qs]; cbn in Hg; try done.
    + destruct Hg as [<- _]. pose proof (in_pager _ _ _ I g _ Hx) as [Hr _]. by destruct (ex_files _ _ _ _ E n Hr) as [_ ->].
    + destruct Hg as (<- & <- & _). destruct bk as [b'|]; [|done]. by destruct (_ && _); [apply IH|].
Qed.

(** ** Changes to one frame *)
Definition frame_of (p x : Z) : Prop := p * 4096 <= x < p * 4096 + 4096.
(** [w'] is [w] with new bytes in frame [q] at most. *)
Definition at_frame (q : Z) w w' : Prop :=
  (exists m, w' = with_mem w m) /\ forall x, ~ frame_of q x -> mem w' x = mem w x.
Lemma at_frame_refl q w : at_frame q w w.
Proof. split; [exists (mem w); by destruct w|done]. Qed.
Lemma at_frame_trans q w1 w2 w3 : at_frame q w1 w2 -> at_frame q w2 w3 -> at_frame q w1 w3.
Proof. intros [[m ->] H1] [[m' ->] H2]. split; [by exists m'|]. intros x Hx. rewrite H2, H1 by done. done. Qed.
Lemma at_frame_memset q w a v n :
  q * 4096 <= a -> a + n <= q * 4096 + 4096 -> at_frame q w (with_mem w (memset (mem w) a v n)).
Proof.
  intros H1 H2. split; [by eexists|]. intros x Hx. cbn. unfold memset, frame_of in *.
  destruct (Z.leb_spec a x), (Z.ltb_spec x (a + n)); cbn [andb]; try done. lia.
Qed.
Lemma memset_at (m : Mem) a v n x : memset m a v n x = if decide (a <= x < a + n) then v else m x.
Proof. unfold memset. destruct (Z.leb_spec a x), (Z.ltb_spec x (a + n)); cbn [andb]; destruct decide; try done; lia. Qed.
Lemma memmove_at (m : Mem) d s n x : memmove m d s n x = if decide (d <= x < d + n) then m (s + (x - d)) else m x.
Proof. unfold memmove. destruct (Z.leb_spec d x), (Z.ltb_spec x (d + n)); cbn [andb]; destruct decide; try done; lia. Qed.
Lemma fillzero_ok w q : 0 <= q < 2 ^ 50 -> at_frame q w (fillzero w q) /\ forall i, 0 <= i < 4096 -> mem (fillzero w q) (q * 4096 + i) = 0.
Proof.
  intros Hq. unfold fillzero. rewrite pn2addr_small by done. change pageSize with 4096. split; [by apply at_frame_memset|].
  intros i Hi. cbn. by rewrite memset_at, decide_True by lia.
Qed.
Lemma fillwith_ok w q p :
  0 <= q < 2 ^ 50 -> 0 <= p < 2 ^ 50 ->
  at_frame q w (fillwith w q p) /\ forall i, 0 <= i < 4096 -> mem (fillwith w q p) (q * 4096 + i) = mem w (p * 4096 + i).
Proof.
  intros Hq Hp. unfold fillwith. rewrite !pn2addr_small by done. change pageSize with 4096. split.
  - split; [by eexists|]. intros x Hx. cbn. unfold frame_of in Hx. by rewrite memmove_at, decide_False by lia.
  - intros i Hi. cbn. rewrite memmove_at, decide_True by lia. f_equal. lia.
Qed.
Lemma at_frame_Inv N H q w w' : at_frame q w w' -> Inv N H w -> Inv N H w'.
Proof. intros [[m ->] _] [I1 I2 I3 I4 I5]. by constructor. Qed.
Lemma at_frame_ext H q w w1 w2 : q ∈ H -> ext H q w w1 -> at_frame q w1 w2 -> ext H q w w2.
Proof.
  intros Hq [E1 E2 E3 E4 E5 E6] [[m ->] Hm]. constructor; try done.
  - intros p i Hp Hne Hi. rewrite Hm; [by apply E3|]. unfold frame_of. lia.
  - intros g off p Hc Hn. destruct (E4 g off p Hc Hn) as [Hp Hv]. split; [done|]. intros f i b Hi Hb.
    rewrite Hm; [by eapply Hv|]. unfold frame_of. assert (p <> q) by (by intros ->). lia.
Qed.
Lemma ext_refl H q w : ext H q w w.
Proof.
  constructor; try done.
  - intros g x Hx. exists x. split; [done|]. by destruct x.
Qed.
Lemma PageBuf_ok N H w :
  Inv N H w -> Z.of_nat (size H) < N ->
  exists q a, PageBuf_new w = Done (q, mkPW (mem w) a (nods w) (pagers w) (nextpg w) (vmos w) (nextvm w)) /\
    q ∉ H /\ 0 < q < 2 ^ 44 /\ PagePool.pool_ok N a ({[q]} ∪ H) /\ size ({[q]} ∪ H) = Datatypes.S (size H).
Proof.
  intros I Hs. destruct (PagePool.pool_alloc N (pmgr w) H (in_pool _ _ _ I) Hs) as (q & a & Ha & Hq & Ho).
  exists q, a. unfold PageBuf_new. rewrite Ha. cbn [obind]. split; [done|]. split; [done|].
  split; [apply (pool_range _ _ _ _ Ho); set_solver|]. split; [done|]. rewrite size_union, size_singleton by set_solver. done.
Qed.
Lemma uncached_ext H q w w' p : ext H q w w' -> p ∈ H -> (forall g off, ~ cached w g off p) -> forall g off, ~ cached w' g off p.
Proof. intros E Hp Hn g off Hc. destruct (ex_new _ _ _ _ E g off p Hc (Hn g off)) as [Hp' _]. done. Qed.
(** One page of a file read into a frame. *)
Lemma readPage_ok (m : Mem) (s : S) n off p :
  regular s n -> 0 <= off -> off * 4096 <= zlen (content s n) < 2 ^ 31 - 8192 -> 0 < p < 2 ^ 44 ->
  exists m' s', readPages 3 junk m s n [mkSegment off off] [mkSegment p p] = Done (m', s') /\ same_files s s' /\
    (forall x, ~ frame_of p x -> m' x = m x) /\
    forall i, 0 <= i < 4096 -> off * 4096 + i < zlen (content s n) -> m' (p * 4096 + i) = vat (content s n) (off * 4096 + i).
Proof.
  intros Hreg Ho Hz Hp. set (g := mkSegment p p). assert (Hg : page_ok g) by (unfold page_ok; cbn; lia).
  destruct (page_segment_good g Hg) as (Hgood & Hlen & Hsl & Hsr). cbn [g sl sr] in Hlen, Hsl, Hsr.
  destruct (readPages_fill 3 junk m s n (mkSegment off off) g []) as (m' & s' & Hr & Hx & Hs); try done; cbn [sl sr]; try lia.
  { unfold page_ok. cbn. lia. }
  { by constructor. }
  { cbn [fmap list_fmap total]. lia. }
  { repeat constructor. intros x _. by eexists. }
  { cbn. lia. }
  exists m', s'. split; [done|]. split; [done|]. cbv zeta in Hx. cbn [sl sr] in Hx.
  set (N := Z.min _ _) in Hx. assert (HN : N = Z.min 4096 (zlen (content s n) - 4096 * off)) by (unfold N; f_equal; lia).
  assert (Hlen' : zlen (slice (content s n) (4096 * off) N) = N) by (rewrite slice_length; lia).
  assert (Hov : forall x, Some (m' x) = overlay (fun y => Some (m y)) (p * 4096) (slice (content s n) (4096 * off) N) x).
  { intros x. specialize (Hx x). cbn [fmap list_fmap] in Hx. rewrite fill_short in Hx; [|done|rewrite Hlen'; lia].
    rewrite Hsl in Hx. replace (p * 4096) with (4096 * p) by lia. exact Hx. }
  unfold overlay in Hov. rewrite Hlen' in Hov. split.
  - intros x Hn. specialize (Hov x). unfold frame_of in Hn. rewrite decide_False in Hov by lia. by injection Hov.
  - intros i Hi Hlt. specialize (Hov (p * 4096 + i)). rewrite decide_True in Hov by lia. injection Hov as ->.
    rewrite vat_slice by lia. f_equal. lia.
Qed.
(** What a load that made a new buffer leaves. *)
Definition loaded N H w (g off p : Z) H' w' : Prop :=
  cached w' g off p /\ Inv N H' w' /\ H ⊆ H' /\ forall q, ext H q w w'.
Lemma cached_set_pager w g x off' p' g0 off0 p0 y :
  pagers w !! g = Some y -> pg_pages x = <[off' := p']> (pg_pages y) ->
  cached (set_pager w g x) g0 off0 p0 <-> (g0 = g /\ off0 = off' /\ p0 = p') \/ (~ (g0 = g /\ off0 = off') /\ cached w g0 off0 p0).
Proof.
  intros Hy Hx. unfold cached. cbn. destruct (decide (g0 = g)) as [->|Hg].
  - rewrite lookup_insert_eq. split.
    + intros (z & [= <-] & Hz). rewrite Hx in Hz. destruct (decide (off0 = off')) as [->|Ho].
      * rewrite lookup_insert_eq in Hz. injection Hz as <-. by left.
      * rewrite lookup_insert_ne in Hz by done. right. split; [by intros [_ ?]|]. by exists y.
    + intros [(_ & -> & ->)|(Hn & z & Hz & Hp)]; eexists; (split; [done|]); rewrite Hx; [apply lookup_insert_eq|].
      rewrite lookup_insert_ne by (intros ->; by apply Hn). congruence.
  - rewrite lookup_insert_ne by done. split; [intros ?; right; split; [by intros [? _]|done]|by intros [(? & _)|[_ ?]]].
Qed.
Definition with_pmgr w a : PW := mkPW (mem w) a (nods w) (pagers w) (nextpg w) (vmos w) (nextvm w).
Lemma view_pmgr f w a g off i : view f (with_pmgr w a) g off i = view f w g off i.
Proof.
  revert g off. induction f as [|f IH]; intros g off; [done|]. cbn. destruct (pagers w !! g) as [x|]; [|done].
  destruct (pg_pages x !! off); [done|]. destruct x as [n ps rc|[b|] rg ps]; [done| |done]. by destruct (_ && _).
Qed.
Lemma grows_pages x y off p : grows x y -> pg_pages x !! off = Some p -> pg_pages y !! off = Some p.
Proof.
  intros Hg Hp. destruct x, y; cbn in *; try done; [destruct Hg as [_ Hs]|destruct Hg as (_ & _ & Hs)]; by eapply lookup_weaken.
Qed.
Lemma pg_grows_trans x y z : grows x y -> grows y z -> grows x z.
Proof.
  destruct x, y, z; cbn; try done.
  - intros [-> H1] [-> H2]. split; [done|]. by transitivity pages0.
  - intros (-> & -> & H1) (-> & -> & H2). split_and!; [done..|]. by transitivity pages0.
Qed.
(** The last step of a load: the buffer that holds the page joins its pager. *)
Lemma add_page N H H1 w a w1 g off p x y :
  Inv N H w -> p ∉ H -> {[p]} ∪ H ⊆ H1 -> Inv N H1 w1 -> ext ({[p]} ∪ H) p (with_pmgr w a) w1 ->
  pagers w1 !! g = Some y -> pg_pages y !! off = None -> grows y x -> pg_pages x = <[off := p]> (pg_pages y) ->
  (forall f i b, 0 <= i < 4096 -> view f w g off i = Some b -> mem w1 (p * 4096 + i) = b) ->
  loaded N H w g off p H1 (set_pager w1 g x).
Proof.
  intros I Hp HH I1 E Hy Hno Hgr Hpx Hv. set (w' := set_pager w1 g x).
  assert (Hca := fun g0 o0 p0 => cached_set_pager w1 g x off p g0 o0 p0 y Hy Hpx). fold w' in Hca.
  assert (Hnp : forall g0 o0, ~ cached w1 g0 o0 p).
  { apply (uncached_ext _ _ _ _ _ E); [set_solver|]. intros g0 o0 Hc. apply Hp. by apply (in_held _ _ _ I g0 o0). }
  split; [apply Hca; auto|]. split; [|split; [set_solver|]].
  - constructor.
    + apply I1.
    + intros g0 o0 p0. rewrite Hca. intros [(_ & _ & ->)|[_ Hc]]; [set_solver|by apply (in_held _ _ _ I1 g0 o0)].
    + intros g0 o0 g1 o1 p0. rewrite !Hca. intros [(-> & -> & ->)|[_ Hc]] [(-> & -> & E2)|[_ Hc']]; subst; try done;
        [by destruct (Hnp _ _ Hc')|by destruct (Hnp _ _ Hc)|by eapply (in_inj _ _ _ I1)].
    + intros g0 x0. cbn. rewrite lookup_insert_Some. intros [[<- <-]|[_ Hx0]]; [|by apply (in_pager _ _ _ I1 g0)].
      pose proof (in_pager _ _ _ I1 g _ Hy) as Hok. destruct x, y; cbn in *; try done; destruct Hgr as [<- Hgr]; [done|].
      by destruct Hgr as [<- _].
    + intros g0 x0. cbn. rewrite lookup_insert_Some. intros [[<- _]|[_ Hx0]]; [exact (in_fresh _ _ _ I1 _ _ Hy)|exact (in_fresh _ _ _ I1 _ _ Hx0)].
  - intros q. constructor.
    + intros g0 x0 Hx0. destruct (ex_grow _ _ _ _ E g0 x0 Hx0) as (y0 & Hy0 & Hg0). cbn. destruct (decide (g0 = g)) as [->|].
      * rewrite lookup_insert_eq. exists x. split; [done|]. rewrite Hy in Hy0. injection Hy0 as <-. by eapply pg_grows_trans.
      * rewrite lookup_insert_ne by done. eauto.
    + intros g0 Hg0. cbn. destruct (decide (g0 = g)) as [->|].
      * pose proof (ex_dom _ _ _ _ E g Hg0). congruence.
      * rewrite lookup_insert_ne by done. by apply (ex_dom _ _ _ _ E).
    + intros p0 i Hp0 _ Hi. apply (ex_mem _ _ _ _ E p0 i); [set_solver|by intros ->|done].
    + intros g0 o0 p0. rewrite Hca. intros [(-> & -> & ->)|[_ Hc]] Hn; [done|].
      destruct (ex_new _ _ _ _ E g0 o0 p0 Hc Hn) as [Hp0 Hv0]. split; [set_solver|]. intros f i b Hi Hb.
      apply (Hv0 f); [done|]. by rewrite view_pmgr.
    + apply (ex_files _ _ _ _ E).
    + apply (ex_rest _ _ _ _ E).
Qed.
Lemma at_file_ext H p w m s :
  same_files (nods w) s -> (forall x, ~ frame_of p x -> m x = mem w x) ->
  ext H p w (mkPW m (pmgr w) s (pagers w) (nextpg w) (vmos w) (nextvm w)).
Proof.
  intros Hs Hm. constructor; try done.
  - intros g x Hx. exists x. split; [done|]. by destruct x.
  - intros q i _ Hne Hi. apply Hm. unfold frame_of. lia.
Qed.
Lemma files_Inv N H w m a s :
  Inv N H w -> same_files (nods w) s -> forall H', PagePool.pool_ok N a H' -> H ⊆ H' ->
  Inv N H' (mkPW m a s (pagers w) (nextpg w) (vmos w) (nextvm w)).
Proof.
  intros [I1 I2 I3 I4 I5] Hs H' Hp HH. constructor; try done.
  - intros g off p Hc. apply HH. by apply (I2 g off).
  - intros g x Hx. specialize (I4 g x Hx). destruct x; [|done]. destruct I4 as [Hr Hz]. cbn. destruct (Hs _ Hr) as [? ->]. done.
Qed.
Lemma vnode_load_ok N H w g off n ps rc :
  Inv N H w -> pagers w !! g = Some (VnodePager n ps rc) -> ps !! off = None -> 0 <= off -> off * 4096 <= zlen (content (nods w) n) ->
  Z.of_nat (size H) < N ->
  exists p w' H', vnode_load junk w g off = Done (p, w') /\ loaded N H w g off p H' w' /\ size H' = Datatypes.S (size H) /\
    forall g', g' <> g -> pagers w' !! g' = pagers w !! g'.
Proof.
  intros I Hg Hps Ho Hz Hs. destruct (PageBuf_ok N H w I Hs) as (p & a & Hb & Hp & Hpr & Hpool & Hsz).
  destruct (in_pager _ _ _ I g _ Hg) as [Hreg Hn]. destruct (readPage_ok (mem w) (nods w) n off p Hreg Ho) as (m & s & Hr & Hf & Hm & Hc); [lia|done|].
  unfold vnode_load, pager_get. rewrite Hg. cbn [obind]. rewrite Hps, Hb. cbn [obind mem nods pmgr]. rewrite Hr. cbn [obind pagers].
  rewrite Hg. cbn [obind]. eexists p, _, ({[p]} ∪ H). split; [done|]. split_and!; [|done|].
  - apply (add_page N H _ w a _ g off p _ (VnodePager n ps rc)); try done.
    + by apply (files_Inv N H w m a s I Hf); [|set_solver].
    + by apply (at_file_ext _ p (with_pmgr w a)).
    + cbn. split; [done|]. by apply insert_subseteq.
    + intros [|f] i b Hi; cbn; [done|]. rewrite Hg. cbn. rewrite Hps. destruct (Z.ltb_spec (off * 4096 + i) (zlen (content (nods w) n))); [|done].
      intros [= <-]. by apply Hc.
  - intros g' Hne. cbn. by rewrite lookup_insert_ne.
Qed.
(** A step that changes neither buffers nor views may come first. *)
Lemma ext_pre H q w w0 w' :
  (forall g x, pagers w !! g = Some x -> exists y, pagers w0 !! g = Some y /\ grows x y) ->
  (forall g, pagers w !! g = None -> pagers w0 !! g = None) ->
  (forall g off p, cached w0 g off p -> cached w g off p) -> (forall f g off i, view f w0 g off i = view f w g off i) ->
  mem w0 = mem w -> nods w0 = nods w -> vmos w0 = vmos w /\ nextpg w0 = nextpg w /\ nextvm w0 = nextvm w ->
  ext H q w0 w' -> ext H q w w'.
Proof.
  intros Hg Hd Hc Hv Hm Hn Hr [E1 E2 E3 E4 E5 E6]. constructor.
  - intros g x Hx. destruct (Hg g x Hx) as (y & Hy & G1). destruct (E1 g y Hy) as (z & Hz & G2). exists z. split; [done|by eapply pg_grows_trans].
  - intros g Hx. by apply E2, Hd.
  - by rewrite <- Hm.
  - intros g off p H1 H2. destruct (E4 g off p H1) as [E4a E4b]; [by intros ?%Hc|]. split; [done|]. intros f i b Hi Hb.
    apply (E4b f); [done|]. by rewrite Hv.
  - by rewrite <- Hn.
  - destruct E6 as (-> & -> & ->). done.
Qed.
Definition bump w (g n : Z) (ps : gmap Z Z) (rc : Z) : PW := set_pager w g (VnodePager n ps rc).
Lemma bump_cached w g n ps rc rc' g0 off p :
  pagers w !! g = Some (VnodePager n ps rc) -> cached (bump w g n ps rc') g0 off p <-> cached w g0 off p.
Proof.
  intros Hg. unfold cached. cbn. destruct (decide (g0 = g)) as [->|]; [rewrite lookup_insert_eq|by rewrite lookup_insert_ne].
  split; intros (x & Hx & Hp); eexists; (split; [done|]); [by injection Hx as <-|]. rewrite Hg in Hx. by injection Hx as <-.
Qed.
Lemma bump_view w g n ps rc rc' f g0 off i :
  pagers w !! g = Some (VnodePager n ps rc) -> view f (bump w g n ps rc') g0 off i = view f w g0 off i.
Proof.
  intros Hg. revert g0 off. induction f as [|f IH]; intros g0 off; [done|]. cbn. destruct (decide (g0 = g)) as [->|].
  - rewrite lookup_insert_eq, Hg. done.
  - rewrite lookup_insert_ne by done. destruct (pagers w !! g0) as [x|]; [|done]. destruct (pg_pages x !! off); [done|].
    destruct x as [m qs r|[b|] rg qs]; [done| |done]. by destruct (_ && _).
Qed.
Lemma bump_Inv N H w g n ps rc rc' : pagers w !! g = Some (VnodePager n ps rc) -> Inv N H w -> Inv N H (bump w g n ps rc').
Proof.
  intros Hg [I1 I2 I3 I4 I5]. constructor; [done|..].
  - intros g0 off p. rewrite (bump_cached _ _ _ _ rc) by done. apply I2.
  - intros g0 off g1 off1 p. rewrite !(bump_cached _ _ _ _ rc) by done. apply I3.
  - intros g0 x. cbn. rewrite lookup_insert_Some. intros [[<- <-]|[_ Hx]]; [exact (I4 _ _ Hg)|exact (I4 _ _ Hx)].
  - intros g0 x. cbn. rewrite lookup_insert_Some. intros [[<- _]|[_ Hx]]; [exact (I5 _ _ Hg)|exact (I5 _ _ Hx)].
Qed.
Lemma bump_ext H q w g n ps rc rc' w' : pagers w !! g = Some (VnodePager n ps rc) -> ext H q (bump w g n ps rc') w' -> ext H q w w'.
Proof.
  intros Hg. apply ext_pre; try done.
  - intros g0 x Hx. cbn. destruct (decide (g0 = g)) as [->|]; [rewrite lookup_insert_eq|rewrite lookup_insert_ne by done].
    + rewrite Hg in Hx. injection Hx as <-. eexists. split; [done|]. done.
    + exists x. split; [done|]. by destruct x.
  - intros g0 Hx. cbn. rewrite lookup_insert_ne; [done|]. intros ->. congruence.
  - intros g0 off p. by rewrite (bump_cached _ _ _ _ rc).
  - intros. by apply (bump_view _ _ _ _ rc).
Qed.
Lemma zero_partial_ok w region off q :
  0 <= q < 2 ^ 50 -> 0 <= off -> 0 <= sl region <= sr region -> sr region < 2 ^ 50 ->
  let bo := sl region / 4096 + off in
  bo <= sr region / 4096 ->
  let w' := zero_partial w region off bo q in
  at_frame q w w' /\ forall i, 0 <= i < 4096 ->
    mem w' (q * 4096 + i) = if (sl region <=? bo * 4096 + i) && (bo * 4096 + i <? sr region) then mem w (q * 4096 + i) else 0.
Proof.
  intros Hq Ho Hr Hb bo Hbo w'. unfold w', zero_partial. assert (Ebo : bo = sl region / 4096 + off) by done. clearbody bo. clear w'.
  pose proof (Z.div_mod (sl region) 4096 ltac:(lia)). pose proof (Z.mod_pos_bound (sl region) 4096 ltac:(lia)).
  pose proof (Z.div_mod (sr region) 4096 ltac:(lia)). pose proof (Z.mod_pos_bound (sr region) 4096 ltac:(lia)).
  rewrite addr2pn_div, !pn2addr_small by lia.
  change pageSize with 4096. set (w1 := if off =? 0 then _ else w).
  assert (Hw1 : at_frame q w w1 /\ forall i, 0 <= i < 4096 -> mem w1 (q * 4096 + i) = if sl region <=? bo * 4096 + i then mem w (q * 4096 + i) else 0).
  { unfold w1. destruct (Z.eqb_spec off 0) as [->|Hn].
    - rewrite u64_small by lia. split; [apply at_frame_memset; lia|].
      intros i Hi. cbn. rewrite memset_at. destruct decide, (Z.leb_spec (sl region) (bo * 4096 + i)); try done; lia.
    - split; [apply at_frame_refl|]. intros i Hi. destruct (Z.leb_spec (sl region) (bo * 4096 + i)); [done|].
      lia. }
  destruct Hw1 as [Ha Hm]. destruct (Z.eqb_spec bo (sr region / 4096)) as [Hl|Hl].
  - rewrite !u64_small by lia. split.
    + eapply at_frame_trans; [exact Ha|]. apply at_frame_memset; lia.
    + intros i Hi. cbn. rewrite memset_at. destruct decide, (Z.ltb_spec (bo * 4096 + i) (sr region)); try lia;
        rewrite ?andb_false_r, ?andb_true_r; [done|by apply Hm].
  - split; [done|]. intros i Hi. destruct (Z.ltb_spec (bo * 4096 + i) (sr region)); [by rewrite andb_true_r; apply Hm|].
    lia.
Qed.
(** What loadTo into the frame [q] leaves. *)
Definition is_swap (x : Pager) : Prop := match x with SwapPager _ _ _ => True | VnodePager _ _ _ => False end.
Definition loadedTo N H w (g off q : Z) H' w' : Prop :=
  Inv N H' w' /\ H ⊆ H' /\ (size H' <= Datatypes.S (size H))%nat /\ ext H q w w' /\
  (forall f i b, 0 <= i < 4096 -> view f w g off i = Some b -> mem w' (q * 4096 + i) = b) /\
  (forall g' x, pagers w !! g' = Some x -> g < g' \/ (g' = g /\ is_swap x) -> pagers w' !! g' = Some x).
(** Nothing but the frame is written. *)
Lemma loadedTo_frame N H w g off q w' :
  Inv N H w -> q ∈ H -> at_frame q w w' ->
  (forall f i b, 0 <= i < 4096 -> view f w g off i = Some b -> mem w' (q * 4096 + i) = b) ->
  loadedTo N H w g off q H w'.
Proof.
  intros I Hq Ha Hv. split_and!; [by eapply at_frame_Inv|done|lia|by eapply at_frame_ext; [done|apply ext_refl|]|done|].
  intros g' x Hx _. destruct Ha as [[m ->] _]. done.
Qed.
Lemma vnode_loadTo_ok N H w g off q n ps rc :
  Inv N H w -> pagers w !! g = Some (VnodePager n ps rc) -> q ∈ H -> 0 <= off ->
  is_Some (ps !! off) \/ off * 4096 <= zlen (content (nods w) n) -> (forall g off, ~ cached w g off q) -> Z.of_nat (size H) < N ->
  exists w' H', vnode_loadTo junk w g off q = Done w' /\ loadedTo N H w g off q H' w'.
Proof.
  intros I Hg Hq Ho Hz Hqc Hs. unfold vnode_loadTo, pager_get. rewrite Hg. cbn [obind]. set (w0 := set_pager w g _).
  pose proof (pool_range _ _ _ _ (in_pool _ _ _ I) Hq) as Hqr.
  assert (Hg0 : pagers w0 !! g = Some (VnodePager n ps (u64 (rc + 1)))) by (cbn; apply lookup_insert_eq).
  assert (I0 : Inv N H w0) by by apply (bump_Inv N H w g n ps rc).
  assert (Hv0 : forall f g0 o i, view f w0 g0 o i = view f w g0 o i) by (intros; by apply (bump_view w g n ps rc)).
  assert (He0 : forall w', ext H q w0 w' -> ext H q w w') by (intros; by apply (bump_ext H q w g n ps rc (u64 (rc + 1)))).
  assert (Hp0 : forall g' x, pagers w !! g' = Some x -> g < g' \/ (g' = g /\ is_swap x) -> pagers w0 !! g' = Some x).
  { intros g' x Hx Hg'. cbn. rewrite lookup_insert_ne; [done|]. intros ->. destruct Hg' as [|[_ Hsw]]; [lia|]. rewrite Hg in Hx. by injection Hx as <-. }
  destruct (ps !! off) as [p|] eqn:Hp.
  - unfold vnode_load, pager_get. rewrite Hg0. cbn [obind]. rewrite Hp. cbn [obind].
    assert (Hpr : 0 < p < 2 ^ 44).
    { apply (pool_range _ _ _ _ (in_pool _ _ _ I)). apply (in_held _ _ _ I g off). by exists (VnodePager n ps rc). }
    destruct (fillwith_ok w0 q p) as [Ha Hm]; [lia..|]. exists (fillwith w0 q p), H. split; [done|].
    destruct (loadedTo_frame N H w0 g off q (fillwith w0 q p)) as (L1 & L2 & L3 & L4 & L5 & L6); [done|done|done| |].
    { intros [|f] i b Hi; cbn [view]; [done|]. rewrite Hg0. cbn [pg_pages]. rewrite Hp. intros [= <-]. by apply Hm. }
    split_and!; [done|done|done|by apply He0| |].
    + intros f i b Hi Hb. apply (L5 f); [done|]. by rewrite Hv0.
    + intros g' x Hx Hg'. apply L6; [by apply Hp0|done].
  - destruct Hz as [[? [=]]|Hz]. destruct (vnode_load_ok N H w0 g off n ps _ I0 Hg0 Hp Ho Hz Hs) as (p & w1 & H1 & Hl & (Hc & I1 & HH & E) & Hsz & Hoth).
    rewrite Hl. cbn [obind]. assert (Hpr : 0 < p < 2 ^ 44).
    { apply (pool_range _ _ _ _ (in_pool _ _ _ I1)). by apply (in_held _ _ _ I1 g off). }
    destruct (fillwith_ok w1 q p) as [Ha Hm]; [lia..|]. exists (fillwith w1 q p), H1. split; [done|].
    split_and!; [by eapply at_frame_Inv|done|lia|apply He0; by eapply at_frame_ext; [done|apply E|]| |].
    + intros f i b Hi Hb. rewrite Hm by done. destruct (ex_new _ _ _ _ (E q) g off p Hc) as [_ Hn].
      { intros (x & Hx & Hpx). rewrite Hg0 in Hx. injection Hx as <-. cbn in Hpx. congruence. }
      apply (Hn f); [done|]. by rewrite Hv0.
    + intros g' x Hx Hg'. destruct Ha as [[m ->] _]. cbn. rewrite Hoth; [by apply Hp0|]. intros ->.
      destruct Hg' as [|[_ Hsw]]; [lia|]. rewrite Hg in Hx. by injection Hx as <-.
Qed.

Lemma loadTo_ok fuel : forall N H w g off q,
  Inv N H w -> loadable fuel w g off -> off < 2 ^ 50 -> q ∈ H -> (forall g off, ~ cached w g off q) -> Z.of_nat (size H) < N ->
  exists w' H', loadTo junk fuel w g off q = Done w' /\ loadedTo N H w g off q H' w'.
Proof.
  induction fuel as [|fuel IH]; intros N H w g off q I Hl Hob Hq Hqc Hs; [done|]. cbn [loadTo loadable] in *. unfold pager_get.
  destruct (pagers w !! g) as [x|] eqn:Hg; [|done]. cbn [obind]. destruct Hl as [Ho Hl].
  pose proof (pool_range _ _ _ _ (in_pool _ _ _ I) Hq) as Hqr.
  destruct x as [n ps rc|b region ps]; [by apply (vnode_loadTo_ok N H w g off q n ps rc)|]. cbn [pg_pages] in Hl.
  destruct (in_pager _ _ _ I g _ Hg) as (Hb & Hr & Hr2). destruct (ps !! off) as [p|] eqn:Hp.
  { assert (Hpr : 0 < p < 2 ^ 44).
    { apply (pool_range _ _ _ _ (in_pool _ _ _ I)). apply (in_held _ _ _ I g off). by exists (SwapPager b region ps). }
    destruct (fillwith_ok w q p) as [Ha Hm]; [lia..|]. exists (fillwith w q p), H. split; [done|]. apply loadedTo_frame; try done.
    intros [|f] i b' Hi; cbn [view]; [done|]. rewrite Hg. cbn [pg_pages]. rewrite Hp. intros [= <-]. by apply Hm. }
  destruct Hl as [[? [=]]|Hl]. destruct (fillzero_ok w q) as [Haz Hmz]; [lia|].
  destruct b as [b|].
  2: { exists (fillzero w q), H. split; [done|]. apply loadedTo_frame; try done. intros [|f] i b' Hi; cbn [view]; [done|]. rewrite Hg.
       cbn [pg_pages]. rewrite Hp. intros [= <-]. by apply Hmz. }
  rewrite !addr2pn_div. pose proof (Z.div_mod (sl region) 4096 ltac:(lia)). pose proof (Z.mod_pos_bound (sl region) 4096 ltac:(lia)).
  pose proof (Z.div_mod (sr region) 4096 ltac:(lia)). pose proof (Z.mod_pos_bound (sr region) 4096 ltac:(lia)).
  rewrite u64_small by lia. set (bo := sl region / 4096 + off) in *. destruct (Z.leb_spec bo (sr region / 4096)) as [Hle|Hgt].
  - destruct (IH N H w b bo q I (Hl Hle)) as (w1 & HA & Hload & (I1 & HH & Hsz & E & Hv & Hoth)); [lia|done..|]. rewrite Hload. cbn [obind].
    destruct (zero_partial_ok w1 region off q) as [Ha Hm]; [lia..|]. fold bo in Ha, Hm.
    exists (zero_partial w1 region off bo q), HA. split; [done|].
    split_and!; [by eapply at_frame_Inv|done|done|by eapply at_frame_ext| |].
    + intros [|f] i b' Hi; cbn [view]; [done|]. rewrite Hg. cbn [pg_pages]. rewrite Hp. fold bo. rewrite Hm by done.
      destruct (_ && _); [|by intros [= <-]]. by apply Hv.
    + intros g' x Hx Hg'. destruct Ha as [[m ->] _]. apply Hoth; [done|]. specialize (Hb b eq_refl). lia.
  - exists (fillzero w q), H. split; [done|]. apply loadedTo_frame; try done. intros [|f] i b' Hi; cbn [view]; [done|]. rewrite Hg.
    cbn [pg_pages]. rewrite Hp. fold bo. destruct (Z.ltb_spec (bo * 4096 + i) (sr region)); [lia|]. rewrite andb_false_r. intros [= <-]. by apply Hmz.
Qed.
Lemma loadable_pmgr f w a g off : loadable f w g off -> loadable f (with_pmgr w a) g off.
Proof.
  revert g off. induction f as [|f IH]; intros g off; [done|]. cbn. destruct (pagers w !! g) as [x|]; [|done]. intros [Ho [Hl|Hl]];
    (split; [done|]); [by left|right]. destruct x as [n ps rc|[b|] rg ps]; [done| |done]. intros Hle. by apply IH, Hl.
Qed.
(** A load: it ends, the buffer is in the pager, at most two frames are taken. *)
Lemma load_ok fuel N H w g off :
  Inv N H w -> loadable fuel w g off -> off < 2 ^ 50 -> Z.of_nat (size H) + 1 < N ->
  exists p w' H', load junk fuel w g off = Done (p, w') /\ loaded N H w g off p H' w' /\ (size H' <= 2 + size H)%nat.
Proof.
  intros I Hl Hob Hs. destruct fuel as [|fuel]; [done|]. pose proof Hl as Hl'. cbn [loadable] in Hl'. unfold load, pager_get.
  destruct (pagers w !! g) as [x|] eqn:Hg; [|done]. cbn [obind]. destruct Hl' as [Ho Hc]. destruct (pg_pages x !! off) as [p|] eqn:Hp.
  - exists p, w, H. split; [|split; [|lia]].
    + destruct x; cbn in Hp; [|by rewrite Hp]. unfold vnode_load, pager_get. rewrite Hg. cbn [obind]. by rewrite Hp.
    + split; [by exists x|]. split; [done|]. split; [done|]. intros q. apply ext_refl.
  - destruct Hc as [[? [=]]|Hc]. destruct x as [n ps rc|b region ps].
    + destruct (vnode_load_ok N H w g off n ps rc I Hg Hp Ho Hc) as (p & w' & H' & E & L & Hsz & _); [lia|]. exists p, w', H'. rewrite Hsz. auto with lia.
    + cbn in Hp. rewrite Hp. destruct (PageBuf_ok N H w I) as (p & a & Hb & Hpn & Hpr & Hpool & Hsz); [lia|]. rewrite Hb. cbn [obind].
      change (mkPW (mem w) a (nods w) (pagers w) (nextpg w) (vmos w) (nextvm w)) with (with_pmgr w a).
      assert (I0 : Inv N ({[p]} ∪ H) (with_pmgr w a)) by (apply (files_Inv N H w (mem w) a (nods w) I); [by intros ? ?|done|set_solver]).
      destruct (loadTo_ok (Datatypes.S fuel) N ({[p]} ∪ H) (with_pmgr w a) g off p I0) as (w1 & H1 & -> & (I1 & HH & Hsz1 & E & Hv & Hoth));
        [by apply loadable_pmgr|done|set_solver| |lia|].
      { intros g0 o0 Hc0. apply Hpn. by apply (in_held _ _ _ I g0 o0). }
      cbn [obind]. rewrite (Hoth g (SwapPager b region ps)) by (done || by right). cbn [obind]. eexists p, _, H1. split; [done|].
      split; [|lia]. apply (add_page N H H1 w a w1 g off p _ (SwapPager b region ps)); try done.
      * apply Hoth; [done|by right].
      * cbn. split_and!; [done..|]. by apply insert_subseteq.
      * intros f i b' Hi Hb'. apply (Hv f); [done|]. by rewrite view_pmgr.
Qed.
(** Loading keeps what can be loaded loadable. *)
Lemma loadable_ext N H q w w' f g off : Inv N H w -> ext H q w w' -> loadable f w g off -> loadable f w' g off.
Proof.
  intros I E. revert g off. induction f as [|f IH]; intros g off; [done|]. cbn. destruct (pagers w !! g) as [x|] eqn:Hx; [|done].
  destruct (ex_grow _ _ _ _ E g x Hx) as (y & Hy & Hg). rewrite Hy. intros [Ho [[p Hl]|Hl]]; (split; [done|]).
  - left. exists p. by eapply grows_pages.
  - right. destruct x as [n ps rc|b rg ps], y as [m qs rc'|b' rg' qs]; cbn in Hg; try done.
    + destruct Hg as [<- _]. destruct (in_pager _ _ _ I g _ Hx) as [Hr _]. by destruct (ex_files _ _ _ _ E n Hr) as [_ ->].
    + destruct Hg as (<- & <- & _). destruct b; [|done]. intros Hle. by apply IH, Hl.
Qed.
(** ** VMOs *)
Definition coherent w : Prop := forall v ps g off p,
  vmos w !! v = Some (VMOPaged ps g) -> 0 <= off -> ps !! Z.to_nat off = Some (Some p) -> cached w g off p.
Lemma coherent_ext H q w w' : ext H q w w' -> coherent w -> coherent w'.
Proof.
  intros E Hc v ps g off p Hv Ho Hp. destruct (ex_rest _ _ _ _ E) as (Ev & _). rewrite Ev in Hv.
  eapply cached_grow; [done|]. by apply (Hc v ps).
Qed.
Lemma req_ok fuel N H w v ps g off :
  Inv N H w -> coherent w -> vmos w !! v = Some (VMOPaged ps g) -> 0 <= off < Z.of_nat (length ps) -> off < 2 ^ 50 ->
  loadable fuel w g off -> Z.of_nat (size H) + 1 < N ->
  exists p w1 H' ps', req junk fuel w v off = Done (off, p, 1, set_vmo w1 v (VMOPaged ps' g)) /\ length ps' = length ps /\
    loaded N H w g off p H' w1 /\ (size H' <= 2 + size H)%nat /\ coherent (set_vmo w1 v (VMOPaged ps' g)).
Proof.
  intros I Hco Hv Ho Hob Hl Hs. unfold req, vmo_get. rewrite Hv. cbn [obind]. destruct (Z.ltb_spec off (Z.of_nat (length ps))); [|lia].
  cbn [passert obind]. unfold aget. destruct (Z.ltb_spec off 0); [lia|]. destruct (ps !! Z.to_nat off) as [e|] eqn:He.
  2: { apply lookup_ge_None_1 in He. lia. }
  cbn [obind]. destruct e as [p|].
  - exists p, w, H, ps. assert (set_vmo w v (VMOPaged ps g) = w) as ->.
    { destruct w as [m a s pg np vm nv]. unfold set_vmo. cbn in *. by rewrite insert_id. }
    split; [done|]. split; [done|]. split; [|split; [lia|done]]. split; [apply (Hco v ps); [done|lia|done]|]. split; [done|]. split; [done|].
    intros q. apply ext_refl.
  - destruct (load_ok fuel N H w g off I Hl Hob Hs) as (p & w1 & H' & -> & L & Hsz). cbn [obind].
    exists p, w1, H', (<[Z.to_nat off := Some p]> ps). split; [done|]. split; [apply length_insert|]. split; [done|]. split; [done|].
    destruct L as (Hc & _ & _ & E). pose proof (coherent_ext _ _ _ _ (E 0) Hco) as Hco'.
    intros v0 ps0 g0 o0 p0. cbn. rewrite lookup_insert_Some. intros [[<- [= <- <-]]|[_ Hv0]] Ho0 Hp0; [|by apply (Hco' v0 ps0)].
    destruct (ex_rest _ _ _ _ (E 0)) as (Ev & _). destruct (decide (o0 = off)) as [->|].
    + rewrite list_lookup_insert_eq in Hp0 by lia. by injection Hp0 as <-.
    + rewrite list_lookup_insert_ne in Hp0 by lia. apply (Hco' v ps); [by rewrite Ev|done|done].
Qed.
(** The frame of a loaded page shows what the pager showed before. *)
Lemma loaded_view N H w g off p H' w1 f i b :
  Inv N H w -> loaded N H w g off p H' w1 -> 0 <= i < 4096 -> view f w g off i = Some b -> mem w1 (p * 4096 + i) = b.
Proof.
  intros I ((x & Hx & Hp) & I1 & _ & E) Hi Hb. assert (Hq : forall g off, ~ cached w g off (-1)).
  { intros g0 o0 Hc. apply (in_held _ _ _ I) in Hc. apply (pool_range _ _ _ _ (in_pool _ _ _ I)) in Hc. lia. }
  pose proof (view_ext N H (-1) w w1 f g off i b I (E (-1)) Hq Hi Hb) as Hv. destruct f as [|f]; [done|]. cbn [view] in Hv. rewrite Hx, Hp in Hv.
  by injection Hv.
Qed.
(** ** New pagers and VMOs *)
Lemma new_pager_cached w x g off p : pg_pages x = ∅ -> pagers w !! nextpg w = None -> cached (snd (new_pager w x)) g off p <-> cached w g off p.
Proof.
  intros Hx Hn. unfold cached. cbn. destruct (decide (g = nextpg w)) as [->|]; [|by rewrite lookup_insert_ne].
  rewrite lookup_insert_eq. split; intros (y & Hy & Hp); [|congruence]. injection Hy as <-. by rewrite Hx in Hp.
Qed.
Lemma fresh_pager N H w : Inv N H w -> pagers w !! nextpg w = None.
Proof. intros I. destruct (pagers w !! nextpg w) eqn:E; [|done]. apply (in_fresh _ _ _ I) in E. lia. Qed.
Lemma new_pager_Inv N H w x : Inv N H w -> pg_pages x = ∅ -> pager_ok w (nextpg w) x -> Inv N H (snd (new_pager w x)).
Proof.
  intros I Hx Hok. pose proof (fresh_pager _ _ _ I) as Hn. destruct I as [I1 I2 I3 I4 I5]. constructor; [done|..].
  - intros g off p. rewrite new_pager_cached by done. apply I2.
  - intros g off g' off' p. rewrite !new_pager_cached by done. apply I3.
  - intros g y. cbn. rewrite lookup_insert_Some. intros [[<- <-]|[_ Hy]]; [done|exact (I4 _ _ Hy)].
  - intros g y. cbn. rewrite lookup_insert_Some. intros [[<- <-]|[_ Hy]]; [lia|]. specialize (I5 _ _ Hy). lia.
Qed.
Lemma new_pager_view N H w x f g off i b : Inv N H w -> view f w g off i = Some b -> view f (snd (new_pager w x)) g off i = Some b.
Proof.
  intros I. pose proof (fresh_pager _ _ _ I) as Hn. revert g off. induction f as [|f IH]; intros g off; [done|]. cbn.
  destruct (pagers w !! g) as [y|] eqn:Hy; [|done]. rewrite lookup_insert_ne, Hy by congruence. destruct (pg_pages y !! off); [done|].
  destruct y as [m qs r|[b'|] rg qs]; [done| |done]. destruct (_ && _); [apply IH|done].
Qed.
Lemma new_pager_loadable N H w x f g off : Inv N H w -> loadable f w g off -> loadable f (snd (new_pager w x)) g off.
Proof.
  intros I. pose proof (fresh_pager _ _ _ I) as Hn. revert g off. induction f as [|f IH]; intros g off; [done|]. cbn.
  destruct (pagers w !! g) as [y|] eqn:Hy; [|done]. rewrite lookup_insert_ne, Hy by congruence. intros [Ho [?|Hl]]; (split; [done|]); [by left|right].
  destruct y as [m qs r|[b'|] rg qs]; [done| |done]. intros ?. by apply IH, Hl.
Qed.
(** Views, caches and the invariant do not depend on the VMOs. *)
Definition with_vmos w (vm : gmap Z VMO) (nv : Z) : PW := mkPW (mem w) (pmgr w) (nods w) (pagers w) (nextpg w) vm nv.
Lemma view_vmos f w vm nv g off i : view f (with_vmos w vm nv) g off i = view f w g off i.
Proof.
  revert g off. induction f as [|f IH]; intros g off; [done|]. cbn. destruct (pagers w !! g) as [x|]; [|done].
  destruct (pg_pages x !! off); [done|]. destruct x as [n ps rc|[b|] rg ps]; [done| |done]. by destruct (_ && _).
Qed.
Lemma loadable_vmos f w vm nv g off : loadable f (with_vmos w vm nv) g off <-> loadable f w g off.
Proof.
  revert g off. induction f as [|f IH]; intros g off; [done|]. cbn. destruct (pagers w !! g) as [x|]; [|done].
  destruct x as [n ps rc|[b|] rg ps]; [done| |done]. by rewrite IH.
Qed.
Lemma Inv_vmos N H w vm nv : Inv N H w -> Inv N H (with_vmos w vm nv).
Proof. intros [I1 I2 I3 I4 I5]. by constructor. Qed.

(** ** Private pages of a file region

    A page of a VMO over a swap pager with the file behind it: the file's bytes
    where the page meets the region, zeros elsewhere. *)
Lemma segment_page fuel N H w v ps g g0 region n qs rc off :
  Inv N H w -> coherent w -> vmos w !! v = Some (VMOPaged ps g) -> pagers w !! g = Some (SwapPager (Some g0) region ∅) ->
  pagers w !! g0 = Some (VnodePager n qs rc) ->
  (forall o p i, qs !! o = Some p -> 0 <= i < 4096 -> o * 4096 + i < zlen (content (nods w) n) ->
    mem w (p * 4096 + i) = vat (content (nods w) n) (o * 4096 + i)) ->
  sr region <= zlen (content (nods w) n) -> 0 <= off < Z.of_nat (length ps) -> off < 2 ^ 50 -> Z.of_nat (size H) + 1 < N ->
  exists p w', req junk (2 + fuel) w v off = Done (off, p, 1, w') /\ forall i, 0 <= i < 4096 ->
    let a := (sl region / 4096 + off) * 4096 + i in
    mem w' (p * 4096 + i) = if (sl region <=? a) && (a <? sr region) then vat (content (nods w) n) a else 0.
Proof.
  intros I Hco Hv Hg Hg0 Hcl Hsr Ho Hob Hs. destruct (in_pager _ _ _ I g _ Hg) as (_ & Hr & _).
  assert (Hl : loadable (2 + fuel) w g off).
  { cbn. rewrite Hg. split; [lia|]. right. intros Hle. rewrite Hg0. split; [Z.to_euclidean_division_equations; lia|]. right.
    Z.to_euclidean_division_equations; lia. }
  destruct (req_ok (2 + fuel) N H w v ps g off I Hco Hv Ho Hob Hl Hs) as (p & w1 & H' & ps' & -> & _ & L & _).
  exists p, (set_vmo w1 v (VMOPaged ps' g)). split; [done|]. intros i Hi a. cbn [set_vmo mem].
  apply (loaded_view N H w g off p H' w1 2 i _ I L Hi). cbn [view]. rewrite Hg. cbn [pg_pages]. rewrite lookup_empty. fold a.
  destruct (Z.leb_spec (sl region) a), (Z.ltb_spec a (sr region)); cbn [andb]; try done. rewrite Hg0. cbn [pg_pages].
  destruct (qs !! (sl region / 4096 + off)) as [q|] eqn:Hq.
  - f_equal. apply Hcl; [done|done|]. fold a. lia.
  - fold a. destruct (Z.ltb_spec a (zlen (content (nods w) n))); [done|lia].
Qed.

(** ** Copies of a VMO: what the copy constructor of VMAR makes of a private
    mapping, a clone all of whose pages are requested *)
Fixpoint req_all (fuel : nat) w (v : Z) (offs : list Z) : outcome (list Z * PW) :=
  match offs with
  | [] => Done ([], w)
  | off :: offs =>
      let* (_, p, _, w) := req junk fuel w v off in
      let* (l, w) := req_all fuel w v offs in
      Done (p :: l, w)
  end.
Lemma no_frame N H w : Inv N H w -> forall g off, ~ cached w g off (-1).
Proof. intros I g off Hc. apply (in_held _ _ _ I) in Hc. apply (pool_range _ _ _ _ (in_pool _ _ _ I)) in Hc. lia. Qed.
Lemma ext_trans N H H1 w w1 w2 :
  Inv N H w -> Inv N H1 w1 -> H ⊆ H1 -> ext H (-1) w w1 -> ext H1 (-1) w1 w2 -> ext H (-1) w w2.
Proof.
  intros I I1 HH E F. constructor.
  - intros g x Hx. destruct (ex_grow _ _ _ _ E g x Hx) as (y & Hy & G1). destruct (ex_grow _ _ _ _ F g y Hy) as (z & Hz & G2).
    exists z. split; [done|by eapply pg_grows_trans].
  - intros g Hx. by apply (ex_dom _ _ _ _ F), (ex_dom _ _ _ _ E).
  - intros p i Hp Hne Hi. rewrite (ex_mem _ _ _ _ F), (ex_mem _ _ _ _ E) by (done || set_solver). done.
  - intros g off p Hc Hn. destruct (pagers w1 !! g ≫= fun x => pg_pages x !! off) as [p'|] eqn:Hc1.
    + apply bind_Some in Hc1 as (x1 & Hx1 & Hp1). assert (Hcc : cached w1 g off p') by by exists x1.
      pose proof (cached_grow _ _ _ _ _ _ _ F Hcc) as (y & Hy & Hpy). destruct Hc as (y' & Hy' & Hpy').
      assert (p' = p) as -> by congruence. destruct (ex_new _ _ _ _ E g off p Hcc Hn) as [H3 H4]. split; [done|]. intros f i b Hi Hb.
      rewrite (ex_mem _ _ _ _ F); [by apply (H4 f)|by apply (in_held _ _ _ I1 g off)| |done]. intros ->. by apply (no_frame _ _ _ I1 g off).
    + assert (Hn1 : ~ cached w1 g off p) by (intros (x & Hx & Hp); rewrite Hx in Hc1; cbn in Hc1; congruence).
      destruct (ex_new _ _ _ _ F g off p Hc Hn1) as [H3 H4]. split; [set_solver|]. intros f i b Hi Hb. apply (H4 f); [done|].
      by apply (view_ext N H (-1) w w1 f g off i b I E (no_frame _ _ _ I)).
  - eapply same_files_trans; [apply (ex_files _ _ _ _ E)|apply (ex_files _ _ _ _ F)].
  - destruct (ex_rest _ _ _ _ E) as (<- & <- & <-). apply (ex_rest _ _ _ _ F).
Qed.
Lemma ext_vmos_l H q w vm nv w' : ext H q (with_vmos w vm nv) w' -> ext H q w (with_vmos w' (vmos w) (nextvm w)).
Proof.
  intros [E1 E2 E3 E4 E5 (_ & E6 & _)]. constructor; try done.
  intros g off p Hc Hn. destruct (E4 g off p Hc Hn) as [H3 H4]. split; [done|]. intros f i b Hi Hb. apply (H4 f); [done|]. by rewrite view_vmos.
Qed.
Lemma req_all_ok offs : forall fuel N H w v ps g,
  Inv N H w -> coherent w -> vmos w !! v = Some (VMOPaged ps g) ->
  Forall (fun off => 0 <= off < Z.of_nat (length ps) /\ off < 2 ^ 50 /\ loadable fuel w g off) offs ->
  Z.of_nat (size H) + 2 * Z.of_nat (length offs) <= N ->
  exists l w' H', req_all fuel w v offs = Done (l, w') /\ Inv N H' w' /\ H ⊆ H' /\
    Forall2 (fun off p => cached w' g off p) offs l /\ ext H (-1) w (with_vmos w' (vmos w) (nextvm w)).
Proof.
  induction offs as [|off offs IH]; intros fuel N H w v ps g I Hco Hv Hf Hs.
  { exists [], w, H. split_and!; try done. replace (with_vmos w (vmos w) (nextvm w)) with w by (by destruct w). apply ext_refl. }
  apply Forall_cons in Hf as [(Ho & Hob & Hl) Hf]. cbn [length] in Hs. cbn [req_all].
  destruct (req_ok fuel N H w v ps g off I Hco Hv Ho Hob Hl) as (p & w1 & H1 & ps' & -> & Hps & (Hc & I1 & HH & E) & Hsz & Hco1); [lia|].
  cbn [obind]. set (w1' := set_vmo w1 v (VMOPaged ps' g)) in *.
  assert (I1' : Inv N H1 w1') by apply (Inv_vmos N H1 w1 _ _ I1).
  destruct (IH fuel N H1 w1' v ps' g I1' Hco1) as (l & w2 & H2 & -> & I2 & HH2 & Hl2 & E2).
  - cbn. apply lookup_insert_eq.
  - eapply Forall_impl; [exact Hf|]. cbn beta. rewrite Hps. intros o (H3 & H4 & H5). split; [lia|]. split; [lia|].
    apply (loadable_vmos fuel w1 (<[v := VMOPaged ps' g]> (vmos w1)) (nextvm w1)). apply (loadable_ext N H (-1) w w1); [done|apply E|done].
  - lia.
  - cbn [obind]. exists (p :: l), w2, H2. split; [done|]. split; [done|]. split; [set_solver|]. split.
    + constructor; [|done]. assert (Hc' : cached w1' g off p) by exact Hc. pose proof (cached_grow _ _ _ _ _ _ _ E2 Hc') as Hc2. exact Hc2.
    + destruct (ex_rest _ _ _ _ (E (-1))) as (Ev & _ & Env). rewrite <- Ev, <- Env. apply (ext_trans N H H1 w w1); [done|done|done|apply E|].
      change w1' with (with_vmos w1 (<[v := VMOPaged ps' g]> (vmos w1)) (nextvm w1)) in E2. apply ext_vmos_l in E2. exact E2.
Qed.

(** C14. Copying an address space (fork) snapshots its private pages: for a paged
    VMO all of whose pages can be loaded, VMOPaged::clone followed by the
    requests that VMAR::map makes ends, and every page of the copy is a frame that
    was not in use, distinct from the others, that holds, byte for byte, what the
    original showed at that moment (buffered and changed pages as they are,
    untouched pages as their backing has them). The original shows what it
    showed before. *)
Theorem clone_snapshot fuel N H w v ps g :
  Inv N H w -> coherent w -> vmos w !! v = Some (VMOPaged ps g) -> vmos w !! nextvm w = None -> is_Some (pagers w !! g) ->
  Z.of_nat (length ps) < 2 ^ 37 -> (forall off, 0 <= off < Z.of_nat (length ps) -> loadable fuel w g off) ->
  Z.of_nat (size H) + 2 * Z.of_nat (length ps) <= N ->
  exists v' w1 l w2, clone w v = Done (v', w1) /\
    req_all (Datatypes.S fuel) w1 v' (seqZ 0 (Z.of_nat (length ps))) = Done (l, w2) /\ length l = length ps /\ NoDup l /\
    (forall k p, l !! k = Some p -> p ∉ H /\
      forall f i b, 0 <= i < 4096 -> view f w g (Z.of_nat k) i = Some b -> mem w2 (p * 4096 + i) = b) /\
    (forall f g' off i b, 0 <= i < 4096 -> view f w g' off i = Some b -> view f w2 g' off i = Some b).
Proof.
  intros I Hco Hv Hnv Hg Hlen Hl Hs. unfold clone, vmo_get. rewrite Hv. cbn [obind]. set (n := length ps) in *.
  set (x := SwapPager (Some g) (mkSegment 0 (pn2addr (Z.of_nat n))) ∅). set (wp := snd (new_pager w x)).
  change (new_pager w x) with (nextpg w, wp). cbv beta iota. set (w1 := snd (new_vmo wp (VMOPaged (replicate n None) (nextpg w)))).
  exists (nextvm w), w1. assert (Hpn : pn2addr (Z.of_nat n) = Z.of_nat n * 4096) by (apply pn2addr_small; lia).
  assert (Hlt : g < nextpg w) by (destruct Hg as [y Hy]; exact (in_fresh _ _ _ I _ _ Hy)).
  assert (Ip : Inv N H wp).
  { apply new_pager_Inv; [done|done|]. cbn. rewrite Hpn. split; [by intros b' [= <-]|]. lia. }
  assert (I1 : Inv N H w1) by exact (Inv_vmos N H wp (<[nextvm w := _]> (vmos w)) (nextvm w + 1) Ip).
  assert (Hpg : pagers w1 !! nextpg w = Some x) by (cbn; apply lookup_insert_eq).
  assert (Hld : forall off, 0 <= off < Z.of_nat n -> loadable (Datatypes.S fuel) w1 (nextpg w) off).
  { intros off Ho. apply (loadable_vmos (Datatypes.S fuel) wp). cbn [loadable]. change (pagers wp !! nextpg w) with (pagers w1 !! nextpg w). rewrite Hpg.
    split; [lia|]. right. cbn [x sl sr]. intros _. change (0 / 4096 + off) with off. by apply (new_pager_loadable N H w), Hl. }
  assert (Hco1 : coherent w1).
  { intros v0 ps0 g0 o0 p0. cbn. rewrite lookup_insert_Some. intros [[<- [= <- <-]]|[_ Hv0]] Ho0 Hp0.
    - apply lookup_replicate in Hp0 as [[=] _].
    - apply (new_pager_cached w x); [done|by eapply fresh_pager|]. by apply (Hco v0 ps0). }
  destruct (req_all_ok (seqZ 0 (Z.of_nat n)) (Datatypes.S fuel) N H w1 (nextvm w) (replicate n None) (nextpg w) I1 Hco1)
    as (l & w2 & H2 & Hr & I2 & HH & Hl2 & E).
  - cbn. apply lookup_insert_eq.
  - rewrite length_replicate. apply Forall_forall. intros off Ho%elem_of_seqZ. split_and!; [lia..|apply Hld; lia].
  - rewrite length_seqZ. lia.
  - exists l, w2. split; [done|]. split; [done|]. pose proof (Forall2_length _ _ _ Hl2) as Hll. rewrite length_seqZ in Hll. split; [lia|].
    assert (Hk : forall k p, l !! k = Some p -> cached w2 (nextpg w) (Z.of_nat k) p).
    { intros k p Hp. assert (Hkl : (k < n)%nat) by (apply lookup_lt_Some in Hp; lia).
      apply (Forall2_lookup_lr _ (seqZ 0 (Z.of_nat n)) l k (Z.of_nat k) p Hl2); [|done]. by rewrite lookup_seqZ_lt by lia. }
    split; [|split].
    + apply NoDup_alt. intros a b p Ha Hb. destruct (in_inj _ _ _ I2 _ _ _ _ p (Hk a p Ha) (Hk b p Hb)). lia.
    + intros k p Hp. pose proof (Hk k p Hp) as Hc. destruct (ex_new _ _ _ _ E (nextpg w) (Z.of_nat k) p Hc) as [Hnp Hn].
      { intros (y & Hy & Hpy). rewrite Hpg in Hy. injection Hy as <-. by cbn in Hpy. }
      split; [done|]. intros f i b Hi Hb. apply (Hn (Datatypes.S f)); [done|].
      rewrite <- (new_pager_view N H w x f g (Z.of_nat k) i b I Hb).
      change w1 with (with_vmos wp (vmos w1) (nextvm w1)). rewrite view_vmos. cbn [view]. change (pagers wp !! nextpg w) with (pagers w1 !! nextpg w). rewrite Hpg.
      cbn [pg_pages x sl sr]. rewrite lookup_empty. change (0 / 4096 + Z.of_nat k) with (Z.of_nat k). rewrite Hpn.
      assert (Hkl : (k < n)%nat) by (apply lookup_lt_Some in Hp; lia).
      destruct (Z.leb_spec 0 (Z.of_nat k * 4096 + i)); [|lia]. destruct (Z.ltb_spec (Z.of_nat k * 4096 + i) (Z.of_nat n * 4096)); [done|lia].
    + intros f g' off i b Hi Hb. rewrite <- (view_vmos f w2 (vmos w1) (nextvm w1)). apply (view_ext N H (-1) w1 _ f g' off i b I1 E (no_frame _ _ _ I1) Hi).
      change w1 with (with_vmos wp (vmos w1) (nextvm w1)). rewrite view_vmos. by apply (new_pager_view N H w).
Qed.
End Views.

(** ** A concrete file of 5001 bytes and 200 frames *)
Definition ex_s : Ramfs.SuperBlock := Ramfs.mkSuper {[2 := Ramfs.mkINode false (replicate 5000 7 ++ [9]) ∅]} 2 7.
Definition ex_w0 : PW := mkPW (fun _ => 85) Bcache.Bcache.ex_pm ex_s ∅ 0 ∅ 0.
Definition ex_w : PW := snd (file_vmo ex_w0 2).
Lemma ex_content : content (nods ex_w) 2 = replicate 5000 7 ++ [9].
Proof. reflexivity. Qed.
Lemma ex_size : zlen (content (nods ex_w) 2) = 5001.
Proof. vm_compute. reflexivity. Qed.
Lemma ex_regular : regular ex_s 2.
Proof. eexists. split; [apply lookup_singleton_eq|done]. Qed.
Lemma ex_pager_inv : Inv 200 ∅ ex_w.
Proof.
  assert (I0 : Inv 200 ∅ ex_w0).
  { constructor; cbn; try (by intros ? ? ?).
    - apply (PagePool.pool_new 0 100 300 7); [unfold PageAlloc.good_range; lia|vm_compute; reflexivity].
    - by intros g off p (x & Hx & _).
    - by intros g off g' off' p (x & Hx & _). }
  apply (Inv_vmos 200 ∅ (snd (new_pager ex_w0 (VnodePager 2 ∅ 0)))), new_pager_Inv; [done|done|].
  split; [apply ex_regular|]. pose proof ex_size as E. change (nods ex_w) with (nods ex_w0) in E. rewrite E. lia.
Qed.
Lemma ex_coherent : coherent ex_w.
Proof.
  intros v ps g off p. cbn. rewrite lookup_insert_Some, lookup_empty. intros [[<- [= <- <-]]|[_ [=]]] _ Hp.
  by apply lookup_replicate in Hp as [[=] _].
Qed.
Lemma ex_loadable off : 0 <= off < 2 -> loadable 1 ex_w 0 off.
Proof.
  intros Ho. cbn [loadable]. change (pagers ex_w !! 0) with (Some (VnodePager 2 ∅ 0)). split; [lia|]. right. rewrite ex_size. lia.
Qed.
Lemma clone_snapshot_witness :
  exists v' w1 l w2, clone ex_w 0 = Done (v', w1) /\
    req_all (mkSegment 1 0) 2 w1 v' [0; 1] = Done (l, w2) /\ length l = 2%nat /\ NoDup l /\
    (forall k p, l !! k = Some p -> p ∉ (∅ : gset Z) /\
      forall f i b, 0 <= i < 4096 -> view f ex_w 0 (Z.of_nat k) i = Some b -> mem w2 (p * 4096 + i) = b) /\
    (forall f g' off i b, 0 <= i < 4096 -> view f ex_w g' off i = Some b -> view f w2 g' off i = Some b).
Proof.
  apply (clone_snapshot (mkSegment 1 0) 1 200 ∅ ex_w 0 [None; None] 0); try reflexivity.
  - apply ex_pager_inv.
  - apply ex_coherent.
  - by eexists.
  - intros off Ho. by apply ex_loadable.
  - rewrite size_empty. cbn. lia.
Defined.
End PagerClaims.
