(* ===== verification/PagerFree.v ===== *)
(** * PagerFree: the lifetime of memory objects and of their frames
    (include/vm/pager.hh, include/vm/vmo.hh, include/vm/pcache.hh, kernel/vm/vm.cc)

    Memory objects, pagers and page buffers are shared: a VMO dies with the last
    mapping or file that refers to it, a pager with the last VMO or pager on it, a
    buffer with the last of its pager and the VMOs that loaded it; its frame then
    goes back to the page allocator. The counts of the shared pointers are computed
    from the state. A dying VMOPaged lets its pager go before its pages (members are
    destroyed in the reverse order of their declaration): [held] are the frames it
    still refers to meanwhile. A dying pager lets its buffers go before its backing
    pager. *)

From S2P Require Import Prelude Klib Buddy PageAlloc PageTable Bcache Bytes Path Vfs Ramfs Scatter ScatterClaims Pager PagerClaims.
Local Open Scope Z_scope.

Module PagerFree.
Import PageTable Scatter Pager.
Import PagerClaims (cached, coherent).

Section Ops.
Context {S : Type} `{!INodeOps S} (junk : Segment) (depth : nat).
Notation PW := (@PW S).
Implicit Types w : PW.

Definition with_pmgr w a : PW := mkPW (mem w) a (nods w) (pagers w) (nextpg w) (vmos w) (nextvm w).
Definition del_pager w (g : Z) : PW := mkPW (mem w) (pmgr w) (nods w) (delete g (pagers w)) (nextpg w) (vmos w) (nextvm w).
Definition del_vmo w (v : Z) : PW := mkPW (mem w) (pmgr w) (nods w) (pagers w) (nextpg w) (delete v (vmos w)) (nextvm w).

(** ** The counts of shared pointers *)
Definition vmo_on (g : Z) (x : VMO) : bool := match x with VMOPaged _ g' => g' =? g | VMOContiguous _ _ => false end.
Definition backed_by (g : Z) (x : Pager) : bool := match x with SwapPager (Some b) _ _ => b =? g | _ => false end.
Definition pager_refs w (g : Z) : nat :=
  (length (filter (fun e => Is_true (vmo_on g e.2)) (map_to_list (vmos w))) +
   length (filter (fun e => Is_true (backed_by g e.2)) (map_to_list (pagers w))))%nat.
Definition vmo_pages (x : VMO) : list (option Z) := match x with VMOPaged ps _ => ps | VMOContiguous _ _ => [] end.
Definition buf_refs w (p : Z) : nat :=
  (length (filter (fun e => e.2 = p) (map_to_list (pagers w) ≫= fun e => map_to_list (pg_pages e.2))) +
   length (filter (fun e => e = Some p) (map_to_list (vmos w) ≫= fun e => vmo_pages e.2)))%nat.

(** ** Destructors *)
(** A reference to the buffer of frame [p] goes; ~PageBuf frees the frame. *)
Definition drop_buf w (held : list Z) (p : Z) : outcome PW :=
  if (0 <? buf_refs w p)%nat || bool_decide (p ∈ held) then Done w
  else let* a := Buddy.Buddy.free (pmgr w) p 0 in Done (with_pmgr w a).
(** The references of a container, one after the other: the later ones still count. *)
Fixpoint drop_bufs w (held l : list Z) : outcome PW :=
  match l with
  | [] => Done w
  | p :: l => let* w := drop_buf w (l ++ held) p in drop_bufs w held l
  end.
(** A reference to pager [g] has gone. [fuel] bounds the chain of backing pagers. *)
Fixpoint drop_pager (fuel : nat) w (held : list Z) (g : Z) : outcome PW :=
  match fuel with
  | O => Diverge
  | Datatypes.S fuel =>
      if (0 <? pager_refs w g)%nat then Done w
      else
        let* x := pager_get w g in
        let* w := drop_bufs (del_pager w g) held (map_to_list (pg_pages x)).*2 in
        match x with
        | SwapPager (Some b) _ _ => drop_pager fuel w held b
        | _ => Done w
        end
  end.
Definition vmo_delete w (v : Z) : outcome PW :=
  let* x := vmo_get w v in
  let w := del_vmo w v in
  match x with
  | VMOPaged ps g =>
      let held := omap id ps in
      let* w := drop_pager (Datatypes.S (size (pagers w))) w held g in
      drop_bufs w [] held
  | VMOContiguous ppn n =>
      let* a := Buddy.Buddy.freeUnaligned (pmgr w) ppn n in Done (with_pmgr w a)
  end.

(** ** Owners: the VMOs that mappings and files refer to, with repetitions *)
Record Owned : Type := mkOwned { ow : PW; roots : list Z }.
Fixpoint remove_root (v : Z) (l : list Z) : list Z :=
  match l with [] => [] | x :: l => if x =? v then l else x :: remove_root v l end.
Definition drop_root (o : Owned) (v : Z) : outcome Owned :=
  let r := remove_root v (roots o) in
  if bool_decide (v ∈ r) then Done (mkOwned (ow o) r)
  else let* w := vmo_delete (ow o) v in Done (mkOwned w r).

(** What the kernel does with paged objects: File::vmo, a heap or anonymous area
    ([SwapPager(nullptr, ...)]), a private area of an object ([SwapPager(vmo->pager,
    ...)]), clone, a page fault, another mapping of an object and the end of one. *)
Inductive mop : Type :=
| MFile (n : Z)
| MAnon (pages : Z)
| MPrivate (v : Z) (region : Segment) (pages : Z)
| MClone (v : Z)
| MTouch (v off : Z)
| MShare (v : Z)
| MDrop (v : Z).
Definition paged_on w (b : option Z) (region : Segment) (pages : Z) : Z * PW :=
  let (g, w) := new_pager w (SwapPager b region ∅) in
  new_vmo w (VMOPaged (replicate (Z.to_nat pages) None) g).
Definition mstep (o : Owned) (x : mop) : outcome Owned :=
  let rooted v (k : outcome Owned) := if bool_decide (v ∈ roots o) then k else Undef in
  match x with
  | MFile n => let (v, w) := file_vmo (ow o) n in Done (mkOwned w (v :: roots o))
  | MAnon pages =>
      let (v, w) := paged_on (ow o) None (mkSegment 0 (pn2addr pages)) pages in
      Done (mkOwned w (v :: roots o))
  | MPrivate v region pages =>
      rooted v
        (let* y := vmo_get (ow o) v in
         match y with
         | VMOPaged _ g => let (v', w) := paged_on (ow o) (Some g) region pages in Done (mkOwned w (v' :: roots o))
         | VMOContiguous _ _ => Undef
         end)
  | MClone v => rooted v (let* (v', w) := clone (ow o) v in Done (mkOwned w (v' :: roots o)))
  | MTouch v off => rooted v (let* (_, _, _, w) := req junk depth (ow o) v off in Done (mkOwned w (roots o)))
  | MShare v => rooted v (Done (mkOwned (ow o) (v :: roots o)))
  | MDrop v => rooted v (drop_root o v)
  end.
Fixpoint mrun (o : Owned) (l : list mop) : outcome Owned :=
  match l with
  | [] => Done o
  | x :: l => let* o := mstep o x in mrun o l
  end.
End Ops.

(** ** Who refers to what *)
Section Proofs.
Context {S : Type} `{!INodeOps S} (junk : Segment) (depth : nat).
Notation PW := (@PW S).
Implicit Types w : PW.

Definition incache w (p : Z) : Prop := exists g off, cached w g off p.
Definition used w (g : Z) : Prop :=
  (exists v ps, vmos w !! v = Some (VMOPaged ps g)) \/
  (exists g' r ps, pagers w !! g' = Some (SwapPager (Some g) r ps)).

(** Frames [H] of the allocator are held: those of the buffers and, besides, [K].
    Every object has an owner, except pager [x] for a moment. *)
Record Own (N : Z) (K H : gset Z) (x : option Z) w : Prop := {
  o_pool : PagePool.pool_ok N (pmgr w) H;
  o_held : forall p, p ∈ H <-> p ∈ K \/ incache w p;
  o_disj : forall p, p ∈ K -> ~ incache w p;
  o_inj : forall g off g' off' p, cached w g off p -> cached w g' off' p -> g = g' /\ off = off';
  o_coh : coherent w;
  o_on : forall v y, vmos w !! v = Some y -> exists ps g, y = VMOPaged ps g /\ is_Some (pagers w !! g);
  o_back : forall g b r ps, pagers w !! g = Some (SwapPager (Some b) r ps) -> b < g /\ is_Some (pagers w !! b);
  o_used : forall g, is_Some (pagers w !! g) -> x <> Some g -> used w g;
  o_freshg : forall g, is_Some (pagers w !! g) -> g < nextpg w;
  o_freshv : forall v, is_Some (vmos w !! v) -> v < nextvm w
}.

Lemma filter_pos {A} (P : A -> Prop) `{!forall x, Decision (P x)} (l : list A) :
  (0 < length (filter P l))%nat <-> exists x, x ∈ l /\ P x.
Proof.
  split.
  - destruct (filter P l) as [|x k] eqn:E; cbn; [lia|]. intros _. exists x.
    assert (Hx : x ∈ filter P l) by (rewrite E; left). by apply list_elem_of_filter in Hx as [? ?].
  - intros (x & Hx & HP). assert (Hf : x ∈ filter P l) by by apply list_elem_of_filter.
    destruct (filter P l); [by apply not_elem_of_nil in Hf|]. cbn. lia.
Qed.
Lemma pager_refs_used w g : (0 <? pager_refs w g)%nat = true <-> used w g.
Proof.
  rewrite Nat.ltb_lt. unfold pager_refs.
  transitivity ((0 < length (filter (fun e => Is_true (vmo_on g e.2)) (map_to_list (vmos w))))%nat \/
                (0 < length (filter (fun e => Is_true (backed_by g e.2)) (map_to_list (pagers w))))%nat); [lia|].
  rewrite !filter_pos. unfold used. split.
  - intros [([v y] & Hv & Hp)|([g' y] & Hg & Hp)]; cbn in Hp.
    + left. apply elem_of_map_to_list in Hv. destruct y as [ps g0|]; [|done]. cbn in Hp.
      apply Is_true_true, Z.eqb_eq in Hp as ->. eauto.
    + right. apply elem_of_map_to_list in Hg. destruct y as [|[b|] r ps]; [done| |done]. cbn in Hp.
      apply Is_true_true, Z.eqb_eq in Hp as ->. eauto.
  - intros [(v & ps & Hv)|(g' & r & ps & Hg)].
    + left. exists (v, VMOPaged ps g). split; [by apply elem_of_map_to_list|]. cbn. by rewrite Z.eqb_refl.
    + right. exists (g', SwapPager (Some g) r ps). split; [by apply elem_of_map_to_list|]. cbn. by rewrite Z.eqb_refl.
Qed.
Lemma buf_refs_cached w p : coherent w -> (forall v y, vmos w !! v = Some y -> exists ps g, y = VMOPaged ps g /\ is_Some (pagers w !! g)) ->
  (0 <? buf_refs w p)%nat = true <-> incache w p.
Proof.
  intros Hc Ho. rewrite Nat.ltb_lt. unfold buf_refs.
  set (l1 := _ ≫= _). set (l2 := map_to_list (vmos w) ≫= _).
  transitivity ((0 < length (filter (fun e => e.2 = p) l1))%nat \/ (0 < length (filter (fun e => e = Some p) l2))%nat); [lia|].
  rewrite !filter_pos. subst l1 l2. split.
  - intros [([off q] & Hq & Ep)|(e & He & ->)].
    + cbn in Ep. subst q. apply list_elem_of_bind in Hq as ([g x] & Hq & Hg). apply elem_of_map_to_list in Hg, Hq.
      exists g, off, x. by split.
    + apply list_elem_of_bind in He as ([v y] & Hp & Hv). apply elem_of_map_to_list in Hv. cbn in Hp.
      destruct (Ho v y Hv) as (ps & g & -> & _). cbn in Hp. apply list_elem_of_lookup in Hp as [i Hi].
      exists g, (Z.of_nat i). apply (Hc v ps); [done|lia|by rewrite Nat2Z.id].
  - intros (g & off & x & Hg & Hp). left. exists (off, p). split; [|done]. apply list_elem_of_bind. exists (g, x). cbn.
    split; by apply elem_of_map_to_list.
Qed.

(** ** Letting buffers go *)
Lemma drop_bufs_ok N l : forall w held H,
  PagePool.pool_ok N (pmgr w) H -> NoDup l -> (forall p, p ∈ l -> p ∈ H) ->
  exists a H', drop_bufs w held l = Done (with_pmgr w a) /\ PagePool.pool_ok N a H' /\
    forall p, p ∈ H' <-> p ∈ H /\ (p ∈ l -> (0 <? buf_refs w p)%nat = true \/ p ∈ held).
Proof.
  induction l as [|q l IH]; intros w held H Hp Hnd Hl.
  { exists (pmgr w), H. cbn. split; [by destruct w|]. split; [done|]. intros p. split; [|tauto].
    intros Hpp. split; [done|]. by intros ?%not_elem_of_nil. }
  apply NoDup_cons in Hnd as [Hq Hnd]. cbn [drop_bufs]. unfold drop_buf.
  destruct ((0 <? buf_refs w q)%nat || bool_decide (q ∈ l ++ held)) eqn:E.
  - cbn [obind]. destruct (IH w held H Hp Hnd) as (a & H' & -> & Ha & HH); [set_solver|].
    exists a, H'. split; [done|]. split; [done|]. intros p. rewrite HH. apply orb_true_iff in E. rewrite bool_decide_eq_true in E.
    split; intros [H1 H2]; (split; [done|]); intros H3; [|apply H2; by right].
    apply elem_of_cons in H3 as [->|H3]; [|auto]. destruct E as [E|E]; [by left|]. apply elem_of_app in E as [E|E]; [done|by right].
  - apply orb_false_iff in E as [E1 E2]. rewrite bool_decide_eq_false in E2.
    destruct (PagePool.pool_free N (pmgr w) H q Hp) as (a & -> & Ha); [apply Hl; left|]. cbn [obind].
    destruct (IH (with_pmgr w a) held (H ∖ {[q]}) Ha Hnd) as (a' & H' & -> & Ha' & HH).
    { intros p Hpl. apply elem_of_difference. split; [apply Hl; by right|]. intros ->%elem_of_singleton. done. }
    exists a', H'. split; [done|]. split; [done|]. intros p. rewrite HH. change (buf_refs (with_pmgr w a) p) with (buf_refs w p).
    rewrite elem_of_difference, elem_of_singleton, elem_of_cons. rewrite elem_of_app in E2. split.
    + intros [[H1 H2] H3]. split; [done|]. intros [->|H4]; [done|auto].
    + intros [H1 H2]. destruct (decide (p = q)) as [->|Hn].
      * destruct H2 as [H2|H2]; [by left|congruence|tauto].
      * split; [done|]. auto.
Qed.
Lemma NoDup_some (l : list (option Z)) :
  (forall i j p, l !! i = Some (Some p) -> l !! j = Some (Some p) -> i = j) -> NoDup (omap id l).
Proof.
  induction l as [|e l IH]; intros Hi; cbn; [constructor|].
  assert (IH' : NoDup (omap id l)).
  { apply IH. intros i j p H1 H2. specialize (Hi (Datatypes.S i) (Datatypes.S j) p H1 H2). lia. }
  destruct e as [p|]; cbn; [|done]. apply NoDup_cons. split; [|done]. intros Hp.
  apply list_elem_of_omap in Hp as (e & He & Ee). cbn in Ee. subst e. apply list_elem_of_lookup in He as [j Hj].
  specialize (Hi 0%nat (Datatypes.S j) p eq_refl Hj). lia.
Qed.

(** ** Letting a pager go *)
Definition back_of (x : Pager) : option Z := match x with SwapPager b _ _ => b | VnodePager _ _ _ => None end.
Definition frames_of (x : Pager) : list Z := (map_to_list (pg_pages x)).*2.
Lemma frames_of_cached w g x p : pagers w !! g = Some x -> p ∈ frames_of x <-> exists off, cached w g off p.
Proof.
  intros Hx. unfold frames_of, cached. rewrite list_elem_of_fmap. split.
  - intros ([off q] & -> & Hq%elem_of_map_to_list). eauto.
  - intros (off & y & Hy & Hp). assert (y = x) as -> by congruence. exists (off, p). split; [done|by apply elem_of_map_to_list].
Qed.
Lemma frames_NoDup N K H x w g y : Own N K H x w -> pagers w !! g = Some y -> NoDup (frames_of y).
Proof.
  intros O Hy. unfold frames_of. apply NoDup_fmap_2_strong; [|apply NoDup_map_to_list].
  intros [o1 p1] [o2 p2] H1%elem_of_map_to_list H2%elem_of_map_to_list. cbn. intros <-.
  destruct (o_inj _ _ _ _ _ O g o1 g o2 p1) as [_ ->]; [by exists y..|done].
Qed.
Lemma cached_del w g a g' off p :
  cached (with_pmgr (del_pager w g) a) g' off p <-> g' <> g /\ cached w g' off p.
Proof.
  unfold cached. cbn. split.
  - intros (x & Hx & Hp). apply lookup_delete_Some in Hx as [? ?]. split; [done|]. eauto.
  - intros [Hn (x & Hx & Hp)]. exists x. split; [|done]. by rewrite lookup_delete_ne.
Qed.

(** A pager that nobody refers to dies, with the frames that are not held. *)
Lemma pager_dies N K H w g x (held : list Z) (K1 H1 : gset Z) a :
  Own N K H (Some g) w -> pagers w !! g = Some x -> ~ used w g ->
  (forall p, p ∈ K1 <-> p ∈ K \/ p ∈ held /\ p ∈ frames_of x) ->
  PagePool.pool_ok N a H1 -> (forall p, p ∈ H1 <-> p ∈ H /\ (p ∈ frames_of x -> p ∈ held)) ->
  Own N K1 H1 (back_of x) (with_pmgr (del_pager w g) a).
Proof.
  intros O Hx Hu HK Hp HH. pose proof (frames_of_cached w g x) as HF.
  assert (Hin : forall p, incache (with_pmgr (del_pager w g) a) p <-> incache w p /\ p ∉ frames_of x).
  { intros p. rewrite HF by done. unfold incache. split.
    - intros (g' & off & Hc). apply cached_del in Hc as [Hn Hc]. split; [eauto|]. intros (o' & Hc').
      by destruct (o_inj _ _ _ _ _ O _ _ _ _ _ Hc Hc').
    - intros [(g' & off & Hc) Hn]. exists g', off. apply cached_del. split; [|done]. intros ->. eauto. }
  assert (Hne : forall g', used w g' -> g' <> g) by (intros g' Hg' ->; done).
  split.
  - done.
  - intros p. rewrite HH, HK, Hin, (o_held _ _ _ _ _ O). pose proof (o_disj _ _ _ _ _ O p) as Hd.
    assert (p ∈ frames_of x -> incache w p) by (rewrite HF by done; intros [off Hc]; by exists g, off).
    destruct (decide (p ∈ frames_of x)), (decide (p ∈ held)); tauto.
  - intros p. rewrite HK, Hin. pose proof (o_disj _ _ _ _ _ O p). tauto.
  - intros g1 o1 g2 o2 p H1' H2'. apply cached_del in H1' as [_ H1'], H2' as [_ H2']. by apply (o_inj _ _ _ _ _ O) with p.
  - intros v ps g' off p Hv Ho Hps. cbn in Hv. apply cached_del. split; [apply Hne; left; eauto|]. by apply (o_coh _ _ _ _ _ O v ps).
  - intros v y Hv. cbn in Hv. destruct (o_on _ _ _ _ _ O v y Hv) as (ps & g' & -> & Hg'). exists ps, g'. split; [done|]. cbn.
    rewrite lookup_delete_ne; [done|]. apply not_eq_sym, Hne. left. eauto.
  - intros g' b r ps. cbn. intros [Hn Hg']%lookup_delete_Some. destruct (o_back _ _ _ _ _ O _ _ _ _ Hg') as [? ?]. split; [done|].
    rewrite lookup_delete_ne; [done|]. apply not_eq_sym, Hne. right. eauto.
  - intros g' [y Hg'] Hxg. cbn in Hg'. apply lookup_delete_Some in Hg' as [Hn Hg'].
    destruct (o_used _ _ _ _ _ O g') as [Hv|(g2 & r & ps & Hg2)]; [eauto|congruence|by left|]. right. exists g2, r, ps. cbn.
    rewrite lookup_delete_ne; [done|]. intros <-. apply Hxg. by replace x with (SwapPager (Some g') r ps) by congruence.
  - intros g' [y Hg']. cbn in Hg' |- *. apply lookup_delete_Some in Hg' as [_ Hg']. apply (o_freshg _ _ _ _ _ O). eauto.
  - intros v Hv. by apply (o_freshv _ _ _ _ _ O).
Qed.
(** What a destructor leaves alone. *)
Record rest w w' : Prop := {
  r_pagers : pagers w' ⊆ pagers w;
  r_vmos : vmos w' = vmos w;
  r_mem : mem w' = mem w;
  r_nods : nods w' = nods w;
  r_nextpg : nextpg w' = nextpg w;
  r_nextvm : nextvm w' = nextvm w
}.
Lemma rest_refl w : rest w w.
Proof. by split. Qed.
Lemma rest_del w g a w' : rest (with_pmgr (del_pager w g) a) w' -> rest w w'.
Proof. intros [H1 H2 H3 H4 H5 H6]. split; try done. etrans; [exact H1|]. apply delete_subseteq. Qed.
Lemma Own_used N K H g w : Own N K H (Some g) w -> used w g -> Own N K H None w.
Proof.
  intros O Hu. destruct O. split; try done. intros g' Hg' _. destruct (decide (g' = g)) as [->|]; [done|]. apply o_used0; congruence.
Qed.

Lemma drop_pager_ok N (held : list Z) : forall fuel K H g w,
  Own N K H (Some g) w -> is_Some (pagers w !! g) -> (size (pagers w) < fuel)%nat ->
  (forall p, p ∈ held -> p ∈ K \/ exists off, cached w g off p) ->
  exists w' K' H', drop_pager fuel w held g = Done w' /\ Own N K' H' None w' /\
    (forall p, p ∈ K' <-> p ∈ K \/ p ∈ held /\ ~ incache w' p) /\ rest w w'.
Proof.
  induction fuel as [|fuel IH]; intros K H g w O [x Hx] Hf Hh; [lia|]. cbn [drop_pager].
  destruct (0 <? pager_refs w g)%nat eqn:E.
  { apply pager_refs_used in E. exists w, K, H. split; [done|]. split; [by eapply Own_used|]. split; [|apply rest_refl].
    intros p. split; [tauto|]. intros [?|[Hp Hn]]; [done|]. destruct (Hh p Hp) as [?|[off Hc]]; [done|]. destruct Hn. by exists g, off. }
  assert (Hu : ~ used w g) by (rewrite <- pager_refs_used; congruence).
  unfold pager_get. rewrite Hx. cbn [obind]. fold (frames_of x).
  destruct (drop_bufs_ok N (frames_of x) (del_pager w g) held H) as (a & H1 & -> & Ha & HH1).
  { apply O. } { by eapply frames_NoDup. }
  { intros p Hp. apply (frames_of_cached w g x p Hx) in Hp as [off Hc]. apply (o_held _ _ _ _ _ O). right. by exists g, off. }
  cbn [obind]. set (K1 := K ∪ list_to_set (filter (fun p => p ∈ frames_of x) held)).
  assert (HK1 : forall p, p ∈ K1 <-> p ∈ K \/ p ∈ held /\ p ∈ frames_of x).
  { intros p. unfold K1. rewrite elem_of_union, elem_of_list_to_set, list_elem_of_filter. tauto. }
  assert (O0 : Own N K1 H1 (back_of x) (with_pmgr (del_pager w g) a)).
  { apply (pager_dies N K H w g x held); try done. intros p. rewrite HH1. split; (intros [H2 H3]; split; [done|]); intros Hp; [|right; auto].
    destruct (H3 Hp) as [Hb|?]; [|done]. exfalso. rewrite buf_refs_cached in Hb.
    - destruct Hb as (g' & off & Hc). apply (cached_del w g (pmgr w)) in Hc as [Hn Hc].
      apply (frames_of_cached w g x p Hx) in Hp as [off' Hc']. by destruct (o_inj _ _ _ _ _ O _ _ _ _ _ Hc Hc').
    - intros v ps g' off q Hv Ho Hq. apply (cached_del w g (pmgr w)). split; [intros ->; apply Hu; left; eauto|]. by apply (o_coh _ _ _ _ _ O v ps).
    - intros v y Hv. destruct (o_on _ _ _ _ _ O v y Hv) as (ps & g' & -> & Hg'). exists ps, g'. split; [done|]. cbn.
      rewrite lookup_delete_ne; [done|]. intros <-. apply Hu. left. eauto. }
  assert (Hh1 : forall p, p ∈ held -> p ∈ K1).
  { intros p Hp. apply HK1. destruct (Hh p Hp) as [?|Hc]; [by left|]. right. split; [done|]. by apply (frames_of_cached w g x p Hx). }
  set (w2 := with_pmgr (del_pager w g) a) in *.
  assert (Hlast : back_of x = None -> exists w' K' H', Done w2 = Done w' /\ Own N K' H' None w' /\
    (forall p, p ∈ K' <-> p ∈ K \/ p ∈ held /\ ~ incache w' p) /\ rest w w').
  { intros Eb. rewrite Eb in O0. exists w2, K1, H1. split; [done|]. split; [done|]. split; [|apply (rest_del w g a), rest_refl].
    intros p. pose proof (o_disj _ _ _ _ _ O0 p) as Hd. pose proof (HK1 p). pose proof (Hh1 p). tauto. }
  destruct x as [n ps rc|[b|] r ps]; [by apply Hlast| |by apply Hlast].
  destruct (o_back _ _ _ _ _ O _ _ _ _ Hx) as [Hb Hbs].
  destruct (IH K1 H1 b w2) as (w' & K' & H' & E' & O' & HK' & R').
  { exact O0. } { cbn. rewrite lookup_delete_ne; [done|lia]. }
  { cbn. rewrite map_size_delete, Hx. assert (size (pagers w) <> 0%nat) by (apply (map_size_ne_0_lookup_2 _ g); by eexists). lia. }
  { intros p Hp. left. auto. }
  exists w', K', H'. split; [done|]. split; [done|]. split; [|by apply (rest_del w g a)].
  intros p. pose proof (HK' p). pose proof (o_disj _ _ _ _ _ O' p) as Hd. pose proof (HK1 p). pose proof (Hh1 p). tauto.
Qed.

(** ** Letting a memory object go *)
Lemma vmo_delete_ok N K H w v y :
  Own N K H None w -> vmos w !! v = Some y ->
  exists w' H', vmo_delete w v = Done w' /\ Own N K H' None w' /\ rest (del_vmo w v) w'.
Proof.
  intros O Hv. destruct (o_on _ _ _ _ _ O v y Hv) as (ps & g & -> & Hg). unfold vmo_delete, vmo_get. rewrite Hv. cbn [obind].
  set (w0 := del_vmo w v). set (held := omap id ps).
  assert (Hh : forall p, p ∈ held -> exists off, cached w g off p).
  { intros p Hp. apply list_elem_of_omap in Hp as (e & He & Ee). cbn in Ee. subst e. apply list_elem_of_lookup in He as [i Hi].
    exists (Z.of_nat i). apply (o_coh _ _ _ _ _ O v ps); [done|lia|by rewrite Nat2Z.id]. }
  assert (O0 : Own N K H (Some g) w0).
  { destruct O. split; try done; cbn.
    - intros v' ps' g' off p Hv' Ho Hp. cbn in Hv'. apply lookup_delete_Some in Hv' as [_ Hv']. by apply (o_coh0 v' ps').
    - intros v' y' [_ Hv']%lookup_delete_Some. by apply o_on0 with v'.
    - intros g' Hg' Hne. destruct (o_used0 g' Hg') as [(v' & ps' & Hv')|Hp]; [done| |by right]. left. exists v', ps'. cbn.
      rewrite lookup_delete_ne; [done|]. intros <-. apply Hne. congruence.
    - intros v' [y' [_ Hv']%lookup_delete_Some]. apply o_freshv0. eauto. }
  destruct (drop_pager_ok N held (Datatypes.S (size (pagers w0))) K H g w0 O0 Hg ltac:(lia)) as (w1 & K1 & H1 & -> & O1 & HK1 & R1).
  { intros p Hp. right. by apply Hh. }
  cbn [obind]. destruct (drop_bufs_ok N held w1 [] H1) as (a & H2 & -> & Ha & HH2).
  { apply O1. }
  { apply NoDup_some. intros i j p Hi Hj. destruct (o_inj _ _ _ _ _ O g (Z.of_nat i) g (Z.of_nat j) p) as [_ ?]; [..|lia];
      (apply (o_coh _ _ _ _ _ O v ps); [done|lia|by rewrite Nat2Z.id]). }
  { intros p Hp. apply (o_held _ _ _ _ _ O1). pose proof (HK1 p).
    destruct (decide (p ∈ K1)); [by left|]. right. destruct (decide (p ∈ H1)) as [Hp1|Hp1].
    - apply (o_held _ _ _ _ _ O1) in Hp1. tauto.
    - rewrite (o_held _ _ _ _ _ O1) in Hp1. tauto. }
  exists (with_pmgr w1 a), H2. split; [done|]. split; [|destruct R1; by split].
  assert (Hb : forall p, (0 <? buf_refs w1 p)%nat = true <-> incache w1 p) by (intros p; apply buf_refs_cached; [apply O1|apply (o_on _ _ _ _ _ O1)]).
  assert (Hnk : forall p, p ∈ held -> p ∉ K) by (intros p Hp Hk; destruct (Hh p Hp) as [off Hc]; apply (o_disj _ _ _ _ _ O p Hk); by exists g, off).
  destruct O1. split; try done.
  - intros p. change (incache (with_pmgr w1 a) p) with (incache w1 p). rewrite HH2, o_held0, HK1, Hb. pose proof (Hnk p).
    pose proof (not_elem_of_nil p). split; [|intros [Hk|Hc]; tauto]. intros [[[?|[Hp Hn]]|?] Hi]; [by left| |by right]. tauto.
  - intros p Hk. change (incache (with_pmgr w1 a) p) with (incache w1 p). apply o_disj0, HK1. by left.
Qed.

(** ** Making and loading *)
Lemma pool_alloc_done N s (Q : gset Z) q s' :
  PagePool.pool_ok N s Q -> Buddy.Buddy.alloc s 1 = Done (q, s') -> q ∉ Q /\ PagePool.pool_ok N s' ({[q]} ∪ Q).
Proof.
  intros (Hn & k & l & r & L) E. pose proof (PageAlloc.ld_inv _ _ _ _ _ L) as I.
  destruct (PageAlloc.Led_alloc s (PagePool.ones Q) s' 1 q k l r L ltac:(lia) E) as (l' & r' & L' & Es & Ee).
  destruct (PageAlloc.alloc_view s k l r 1 q s' I ltac:(lia) E) as (l1 & r1 & _ & _ & _ & AR & _). split.
  - intros Hq. assert (HL : PagePool.ones Q !! q = Some 0%nat) by by apply lookup_gset_to_gmap_Some.
    destruct (PageAlloc.ld_used _ _ _ _ _ L _ _ HL) as [Hu _]. apply PageAlloc.used_in in Hu as (_ & _ & Hu); [|apply I].
    apply (Hu q); [cbn; lia|]. destruct AR as [_ _ _ _ F _ _]. unfold Buddy.free_page. apply F. right. cbn. lia.
  - split; [by rewrite Es, Ee|]. exists k, l', r'. unfold PagePool.ones. by rewrite gset_to_gmap_union_singleton.
Qed.

(** The same pager with other pages. *)
Definition with_pages (x : Pager) (ps : gmap Z Z) : Pager :=
  match x with VnodePager n _ rc => VnodePager n ps rc | SwapPager b r _ => SwapPager b r ps end.
Lemma back_of_Some x b : back_of x = Some b <-> exists r ps, x = SwapPager (Some b) r ps.
Proof. split; [|by intros (r & ps & ->)]. destruct x as [|[c|] r ps]; cbn; intros [=]. subst. eauto. Qed.
Lemma cached_set w g x g' off p :
  cached (set_pager w g x) g' off p <-> (g' = g /\ pg_pages x !! off = Some p) \/ (g' <> g /\ cached w g' off p).
Proof.
  unfold cached. cbn. split.
  - intros (y & Hy & Hp). apply lookup_insert_Some in Hy as [[<- <-]|[Hn Hy]]; [by left|right; split; [done|eauto]].
  - intros [[-> Hp]|[Hn (y & Hy & Hp)]]; [exists x; by rewrite lookup_insert_eq|exists y; by rewrite lookup_insert_ne].
Qed.
Lemma set_pager_used w g x y g' : pagers w !! g = Some x -> back_of y = back_of x -> used (set_pager w g y) g' <-> used w g'.
Proof.
  intros Hx Hb. unfold used. cbn. split; (intros [Hv|(g2 & r & ps & Hg2)]; [by left|]; right).
  - apply lookup_insert_Some in Hg2 as [[<- ->]|[Hn Hg2]]; [|eauto].
    symmetry in Hb. apply back_of_Some in Hb as (r' & ps' & ->). eauto.
  - destruct (decide (g2 = g)) as [->|Hn]; [|exists g2, r, ps; by rewrite lookup_insert_ne].
    assert (back_of y = Some g') as (r' & ps' & ->)%back_of_Some by (rewrite Hb; by replace x with (SwapPager (Some g') r ps) by congruence).
    exists g, r', ps'. by rewrite lookup_insert_eq.
Qed.
(** A pager is replaced: its pages and the frames of the state change together. *)
Lemma set_pager_Own N (K K' H : gset Z) z w g x y :
  Own N K H z w -> pagers w !! g = Some x -> back_of y = back_of x ->
  (forall off p, pg_pages x !! off = Some p -> pg_pages y !! off = Some p) ->
  (forall p, p ∈ K <-> p ∈ K' \/ exists off, pg_pages y !! off = Some p /\ pg_pages x !! off = None) ->
  (forall p off, p ∈ K' -> pg_pages y !! off <> Some p) ->
  (forall o1 o2 p, pg_pages y !! o1 = Some p -> pg_pages y !! o2 = Some p -> o1 = o2) ->
  Own N K' H z (set_pager w g y).
Proof.
  intros O Hx Hb Hsub HK Hd Hi.
  assert (Hold : forall off p, pg_pages y !! off = Some p -> pg_pages x !! off = Some p \/ (p ∈ K /\ pg_pages x !! off = None)).
  { intros off p Hp. destruct (pg_pages x !! off) as [q|] eqn:E; [left; apply Hsub in E; congruence|]. right. split; [|done]. apply HK. eauto. }
  assert (Hin : forall p, incache (set_pager w g y) p <-> incache w p \/ exists off, pg_pages y !! off = Some p /\ pg_pages x !! off = None).
  { intros p. unfold incache. split.
    - intros (g' & off & Hc). apply cached_set in Hc as [[-> Hp]|[Hn Hc]]; [|left; eauto].
      destruct (Hold off p Hp) as [Hp'|[_ Hp']]; [left; exists g, off; by exists x|right; eauto].
    - intros [(g' & off & Hc)|(off & Hp & _)]; [|exists g, off; apply cached_set; by left].
      exists g', off. apply cached_set. destruct (decide (g' = g)) as [->|]; [left|by right]. split; [done|].
      destruct Hc as (x' & Hx' & Hp). apply Hsub. congruence. }
  assert (Hdom : forall g', is_Some (pagers (set_pager w g y) !! g') <-> is_Some (pagers w !! g')).
  { intros g'. cbn. destruct (decide (g' = g)) as [->|]; [rewrite lookup_insert_eq, Hx|by rewrite lookup_insert_ne]. split; by eexists. }
  split.
  - apply O.
  - intros p. rewrite (o_held _ _ _ _ _ O), Hin, HK. tauto.
  - intros p Hp. rewrite Hin. intros [Hc|(off & Hc & _)]; [|by apply (Hd p off)].
    apply (o_disj _ _ _ _ _ O p); [apply HK; by left|done].
  - assert (Hx2 : forall g' off off' p, cached w g' off p -> g' <> g -> pg_pages y !! off' = Some p -> False).
    { intros g' off off' p Hc Hn Hp. destruct (Hold off' p Hp) as [Hp'|[Hk _]].
      - destruct (o_inj _ _ _ _ _ O g' off g off' p) as [? _]; [done|by exists x|done].
      - apply (o_disj _ _ _ _ _ O p Hk). by exists g', off. }
    intros g1 o1 g2 o2 p H1 H2. apply cached_set in H1 as [[-> H1]|[Hn1 H1]], H2 as [[-> H2]|[Hn2 H2]].
    + split; [done|eauto]. + by edestruct Hx2. + by edestruct Hx2. + by eapply (o_inj _ _ _ _ _ O).
  - intros v ps g' off p Hv Ho Hp. apply cached_set. cbn in Hv. pose proof (o_coh _ _ _ _ _ O v ps g' off p Hv Ho Hp) as Hc.
    destruct (decide (g' = g)) as [->|]; [left|by right]. split; [done|]. destruct Hc as (x' & Hx' & Hq). apply Hsub. congruence.
  - intros v z' Hv. destruct (o_on _ _ _ _ _ O v z' Hv) as (ps & g' & -> & Hg'). exists ps, g'. split; [done|]. by apply Hdom.
  - intros g' b r ps Hg'. cbn in Hg'. rewrite Hdom. apply lookup_insert_Some in Hg' as [[<- ->]|[Hn Hg']].
    + symmetry in Hb. apply back_of_Some in Hb as (r' & ps' & ->). by apply (o_back _ _ _ _ _ O _ _ _ _ Hx).
    + by apply (o_back _ _ _ _ _ O _ _ _ _ Hg').
  - intros g' Hg' Hz. rewrite Hdom in Hg'. apply (set_pager_used w g x y g' Hx Hb). by apply (o_used _ _ _ _ _ O).
  - intros g' Hg'. rewrite Hdom in Hg'. by apply (o_freshg _ _ _ _ _ O).
  - intros v Hv. by apply (o_freshv _ _ _ _ _ O).
Qed.
Lemma Own_memory N K H z w m n : Own N K H z w -> Own N K H z (mkPW m (pmgr w) n (pagers w) (nextpg w) (vmos w) (nextvm w)).
Proof. intros O. destruct O. by split. Qed.
(** A buffer is made. *)
Lemma PageBuf_Own N K H z w p w' :
  Own N K H z w -> PageBuf_new w = Done (p, w') ->
  p ∉ H /\ (exists a, w' = with_pmgr w a) /\ Own N ({[p]} ∪ K) ({[p]} ∪ H) z w'.
Proof.
  intros O E. unfold PageBuf_new in E. destruct (Buddy.Buddy.alloc (pmgr w) 1) as [[q a]| | |] eqn:Ea; cbn in E; try done.
  injection E as <- <-. destruct (pool_alloc_done N (pmgr w) H q a) as [Hq Hp]; [apply O|done|]. split; [done|]. split; [by exists a|].
  destruct O. split; try done; intros p; rewrite ?elem_of_union, ?elem_of_singleton.
  - rewrite o_held0. change (incache _ p) with (incache w p). tauto.
  - intros [->|Hk]; [|by apply o_disj0]. intros Hc. apply Hq, o_held0. by right.
Qed.
(** The new buffer becomes page [off] of pager [g]. *)
Lemma enter_Own N K H z w g x off p :
  Own N ({[p]} ∪ K) H z w -> p ∉ K -> pagers w !! g = Some x -> pg_pages x !! off = None ->
  Own N K H z (set_pager w g (with_pages x (<[off := p]> (pg_pages x)))).
Proof.
  intros O Hp Hx Hn.
  assert (Epg : pg_pages (with_pages x (<[off := p]> (pg_pages x))) = <[off := p]> (pg_pages x)) by by destruct x.
  assert (Hnew : forall o q, pg_pages x !! o = Some q -> q ∉ {[p]} ∪ K).
  { intros o q Hq Hk. apply (o_disj _ _ _ _ _ O q Hk). exists g, o. by exists x. }
  apply (set_pager_Own N ({[p]} ∪ K) K H z w g x); [done|done|by destruct x|..].
  - intros o q Hq. rewrite Epg, lookup_insert_ne; [done|]. intros <-. congruence.
  - intros q. rewrite Epg, elem_of_union, elem_of_singleton. split.
    + intros [->|?]; [right; exists off; by rewrite lookup_insert_eq|by left].
    + intros [?|(o & Ho & Hno)]; [by right|]. apply lookup_insert_Some in Ho as [[<- <-]|[_ Ho]]; [by left|congruence].
  - intros q o Hk. rewrite Epg. intros [[<- <-]|[_ Ho]]%lookup_insert_Some; [done|]. apply (Hnew o q Ho). set_solver.
  - intros o1 o2 q. rewrite Epg. intros [[<- <-]|[? H1]]%lookup_insert_Some [[<- ?]|[? H2]]%lookup_insert_Some; [done|..].
    + destruct (Hnew o2 p H2). set_solver.
    + subst q. destruct (Hnew o1 p H1). set_solver.
    + destruct (o_inj _ _ _ _ _ O g o1 g o2 q) as [_ ?]; [by exists x..|done].
Qed.

(** What loading keeps: the accounts, the swap pagers and the memory objects. *)
Record fair w w' : Prop := {
  f_own : forall N K H z, Own N K H z w -> exists H', Own N K H' z w';
  f_swap : forall g b r ps, pagers w !! g = Some (SwapPager b r ps) -> pagers w' !! g = Some (SwapPager b r ps);
  f_vmos : vmos w' = vmos w
}.
Lemma fair_refl w : fair w w.
Proof. split; eauto. Qed.
Lemma fair_trans w1 w2 w3 : fair w1 w2 -> fair w2 w3 -> fair w1 w3.
Proof.
  intros [A1 B1 C1] [A2 B2 C2]. split; [|eauto|congruence]. intros N K H z O. destruct (A1 _ _ _ _ O) as [H' O']. eauto.
Qed.
Lemma fair_mem w m : fair w (with_mem w m).
Proof. split; [|done|done]. intros N K H z O. exists H. by apply (Own_memory N K H z w m (nods w)). Qed.
Lemma vnode_load_fair w g off p w' : vnode_load junk w g off = Done (p, w') -> fair w w' /\ cached w' g off p.
Proof.
  unfold vnode_load, pager_get. destruct (pagers w !! g) as [x|] eqn:Hx; [|done]. cbn [obind].
  destruct x as [n ps rc|b r ps]; [|done]. destruct (ps !! off) as [q|] eqn:Hq.
  { intros [= <- <-]. split; [apply fair_refl|]. by exists (VnodePager n ps rc). }
  destruct (PageBuf_new w) as [[q w1]| | |] eqn:Ep; cbn [obind]; try done.
  assert (Hpg : exists a, w1 = with_pmgr w a).
  { unfold PageBuf_new in Ep. destruct Buddy.Buddy.alloc as [[q' a]| | |]; cbn in Ep; try done. injection Ep as _ <-. by exists a. }
  destruct (readPages _ _ _ _ _ _ _) as [[m s]| | |]; cbn [obind]; try done. cbn [pagers].
  destruct Hpg as [a Ea]. assert (Hx1 : pagers w1 !! g = Some (VnodePager n ps rc)) by by subst w1.
  rewrite Hx1. cbn [obind]. intros [= <- <-]. set (w2 := mkPW m (pmgr w1) s (pagers w1) (nextpg w1) (vmos w1) (nextvm w1)). split.
  - split; [|intros g' b r ps' Hg'; subst w1; cbn; rewrite lookup_insert_ne; [done|congruence]|by subst w1].
    intros N K H z O. destruct (PageBuf_Own _ _ _ _ _ _ _ O Ep) as (Hp & _ & O1). exists ({[q]} ∪ H).
    apply (enter_Own N K _ z w2 g (VnodePager n ps rc) off q); [by apply Own_memory| |by subst w1|done].
    intros Hk. apply Hp, (o_held _ _ _ _ _ O). by left.
  - apply cached_set. left. split; [done|]. cbn. by rewrite lookup_insert_eq.
Qed.
Lemma vnode_loadTo_fair w g off q w' : vnode_loadTo junk w g off q = Done w' -> fair w w'.
Proof.
  unfold vnode_loadTo, pager_get. destruct (pagers w !! g) as [x|] eqn:Hx; [|done]. cbn [obind].
  destruct x as [n ps rc|b r ps]; [|done]. set (y := VnodePager n ps _).
  destruct (vnode_load junk (set_pager w g y) g off) as [[p w1]| | |] eqn:E; cbn [obind]; try done. intros [= <-].
  eapply fair_trans; [|eapply fair_trans; [exact (proj1 (vnode_load_fair _ _ _ _ _ E))|apply fair_mem]].
  split; [|intros g' b r ps' Hg'; cbn; rewrite lookup_insert_ne; [done|congruence]|done].
  intros N K H z O. exists H. apply (set_pager_Own N K K H z w g (VnodePager n ps rc)); try done.
  - intros p1. cbn. split; [by left|]. intros [?|(o & ? & ?)]; [done|congruence].
  - intros p1 o Hk Ho. apply (o_disj _ _ _ _ _ O p1 Hk). exists g, o. by exists (VnodePager n ps rc).
  - intros o1 o2 p1 H1 H2. destruct (o_inj _ _ _ _ _ O g o1 g o2 p1) as [_ ?]; [by exists (VnodePager n ps rc)..|done].
Qed.
Lemma loadTo_fair fuel : forall w g off q w', loadTo junk fuel w g off q = Done w' -> fair w w'.
Proof.
  induction fuel as [|fuel IH]; intros w g off q w'; [done|]. cbn [loadTo]. unfold pager_get.
  destruct (pagers w !! g) as [[n ps rc|b r ps]|]; cbn [obind]; [apply vnode_loadTo_fair| |done].
  destruct (ps !! off); [intros [= <-]; apply fair_mem|]. destruct b as [b|]; [|intros [= <-]; apply fair_mem].
  destruct (_ <=? _); [|intros [= <-]; apply fair_mem].
  destruct (loadTo junk fuel w b _ q) as [w1| | |] eqn:E; cbn [obind]; try done. intros [= <-].
  eapply fair_trans; [by eapply IH|]. unfold zero_partial.
  destruct (off =? 0), (_ =? _); [|apply fair_mem|apply fair_mem|apply fair_refl].
  eapply fair_trans; [|apply fair_mem]. apply fair_mem.
Qed.
Lemma load_fair fuel w g off p w' : load junk fuel w g off = Done (p, w') -> 
  (forall N K H z, Own N K H z w -> exists H', Own N K H' z w') /\ vmos w' = vmos w /\ cached w' g off p.
Proof.
  unfold load, pager_get. destruct (pagers w !! g) as [[n ps rc|b r ps]|] eqn:Hx; cbn [obind]; [| |done].
  { intros E. destruct (vnode_load_fair _ _ _ _ _ E) as [[A B C] D]. eauto. }
  destruct (ps !! off) as [q|] eqn:Hq.
  { intros [= <- <-]. split; [eauto|]. split; [done|]. by exists (SwapPager b r ps). }
  destruct (PageBuf_new w) as [[q w1]| | |] eqn:Ep; cbn [obind]; try done.
  destruct (loadTo junk fuel w1 g off q) as [w2| | |] eqn:El; cbn [obind]; try done.
  assert (Hx1 : pagers w1 !! g = Some (SwapPager b r ps) /\ vmos w1 = vmos w).
  { unfold PageBuf_new in Ep. destruct Buddy.Buddy.alloc as [[q' a]| | |]; cbn in Ep; try done. by injection Ep as _ <-. }
  destruct Hx1 as [Hx1 Ev]. apply loadTo_fair in El as [A B C]. pose proof (B _ _ _ _ Hx1) as Hx2. rewrite Hx2. cbn [obind].
  intros [= <- <-]. split; [|split; [by cbn; congruence|apply cached_set; left; split; [done|]; cbn; by rewrite lookup_insert_eq]].
  intros N K H z O. destruct (PageBuf_Own _ _ _ _ _ _ _ O Ep) as (Hp & _ & O1). destruct (A _ _ _ _ O1) as [H2 O2]. exists H2.
  apply (enter_Own N K H2 z w2 g (SwapPager b r ps) off q); [done| |done|done]. intros Hk. apply Hp, (o_held _ _ _ _ _ O). by left.
Qed.
Lemma req_fair w v off r w' : req junk depth w v off = Done (r, w') ->
  (forall N K H, Own N K H None w -> exists H', Own N K H' None w') /\ (forall v', is_Some (vmos w' !! v') <-> is_Some (vmos w !! v')).
Proof.
  unfold req, vmo_get. destruct (vmos w !! v) as [[ps g|ppn n]|] eqn:Hv; cbn [obind]; [| |done].
  2: { intros [= _ <-]. split; [eauto|done]. }
  unfold aget. destruct (off <? Z.of_nat (length ps)) eqn:Hlt; cbn [passert obind]; [|done]. destruct (Z.ltb_spec off 0) as [|Hge]; [done|].
  destruct (ps !! Z.to_nat off) as [[p|]|] eqn:Hp; cbn [obind]; [| |done].
  { intros [= _ <-]. split; [eauto|done]. }
  destruct (load junk depth w g off) as [[p w1]| | |] eqn:El; cbn [obind]; try done. intros [= _ <-].
  apply load_fair in El as (A & B & C). split.
  2: { intros v'. cbn. rewrite B. destruct (decide (v' = v)) as [->|]; [rewrite lookup_insert_eq, Hv|by rewrite lookup_insert_ne]. split; by eexists. }
  intros N K H O. destruct (A _ _ _ _ O) as [H' O']. exists H'. rewrite <- B in Hv. destruct O'. split; try done.
  - intros v' ps' g' o q. cbn. rewrite lookup_insert_Some. intros [[<- [= <- <-]]|[_ Hv']] Ho Hq; [|by apply (o_coh0 v' ps')].
    destruct (decide (o = off)) as [->|].
    + rewrite list_lookup_insert_eq in Hq; [by injection Hq as <-|]. apply lookup_lt_Some in Hp. done.
    + rewrite list_lookup_insert_ne in Hq by lia. by apply (o_coh0 v ps).
  - intros v' y. cbn. rewrite lookup_insert_Some. intros [[<- <-]|[_ Hv']]; [|by apply o_on0 with v'].
    destruct (o_on0 v _ Hv) as (ps' & g' & [= <- <-] & Hg'). eauto.
  - intros g' Hg' Hz. destruct (o_used0 g' Hg' Hz) as [(v' & ps' & Hv')|Hp']; [left|by right]. cbn.
    destruct (decide (v' = v)) as [->|]; [|exists v', ps'; by rewrite lookup_insert_ne]. rewrite Hv in Hv'. injection Hv' as <- <-.
    eexists v, _. by rewrite lookup_insert_eq.
  - intros v' [y Hv']. cbn in Hv' |- *. apply lookup_insert_Some in Hv' as [[<- _]|[_ Hv']]; eauto.
Qed.
(** A new pager with a new memory object on it. *)
Lemma new_paged_Own N K H w x n :
  Own N K H None w -> pg_pages x = ∅ -> (forall b, back_of x = Some b -> is_Some (pagers w !! b)) ->
  Own N K H None (new_vmo (new_pager w x).2 (VMOPaged (replicate n None) (nextpg w))).2.
Proof.
  intros O Hpg Hb. cbn.
  assert (Hfg : forall g, is_Some (pagers w !! g) -> g <> nextpg w) by (intros g Hg ->; apply (o_freshg _ _ _ _ _ O) in Hg; lia).
  set (w' := mkPW _ _ _ _ _ _ _).
  assert (Hc : forall g off p, cached w' g off p <-> cached w g off p).
  { intros g off p. unfold cached, w'. cbn. split.
    - intros (y & Hy & Hp). apply lookup_insert_Some in Hy as [[_ <-]|[_ Hy]]; [by rewrite Hpg in Hp|eauto].
    - intros (y & Hy & Hp). exists y. split; [|done]. rewrite lookup_insert_ne; [done|]. apply not_eq_sym, Hfg. eauto. }
  assert (Hin : forall p, incache w' p <-> incache w p) by (intros p; unfold incache; by setoid_rewrite Hc).
  assert (Hm : forall g, is_Some (pagers w !! g) -> is_Some (pagers w' !! g)) by (intros g Hg; cbn; rewrite lookup_insert_ne; [done|]; by apply not_eq_sym, Hfg).
  assert (Hfv : vmos w !! nextvm w = None).
  { destruct (vmos w !! nextvm w) eqn:E; [|done]. assert (Hv : is_Some (vmos w !! nextvm w)) by (rewrite E; eauto). apply (o_freshv _ _ _ _ _ O) in Hv. lia. }
  split.
  - apply O.
  - intros p. rewrite Hin. apply O.
  - intros p. rewrite Hin. apply O.
  - intros g o g' o' p. rewrite !Hc. apply O.
  - intros v ps g off p Hv Ho Hp. apply Hc. cbn in Hv. apply lookup_insert_Some in Hv as [[_ [= <- <-]]|[_ Hv]].
    + by apply lookup_replicate in Hp as [[=] _]. + by apply (o_coh _ _ _ _ _ O v ps).
  - intros v y Hv. cbn in Hv. apply lookup_insert_Some in Hv as [[_ <-]|[_ Hv]].
    + eexists _, _. split; [done|]. cbn. rewrite lookup_insert_eq. by eexists.
    + destruct (o_on _ _ _ _ _ O v y Hv) as (ps & g & -> & Hg). eauto.
  - intros g b r ps Hg. cbn in Hg. apply lookup_insert_Some in Hg as [[<- ->]|[_ Hg]].
    + specialize (Hb b eq_refl). split; [by apply (o_freshg _ _ _ _ _ O)|by apply Hm].
    + destruct (o_back _ _ _ _ _ O _ _ _ _ Hg) as [? ?]. split; [done|by apply Hm].
  - intros g [y Hg] Hz. cbn in Hg. apply lookup_insert_Some in Hg as [[<- _]|[Hn Hg]].
    + left. eexists (nextvm w), _. cbn. by rewrite lookup_insert_eq.
    + destruct (o_used _ _ _ _ _ O g) as [(v & ps & Hv)|(g' & r & ps & Hg')]; [eauto|done|left; exists v, ps|right; exists g', r, ps]; cbn;
        (rewrite lookup_insert_ne; [done|]); [congruence|]. apply not_eq_sym, Hfg. eauto.
  - intros g [y Hg]. cbn in Hg |- *. apply lookup_insert_Some in Hg as [[<- _]|[_ Hg]]; [lia|].
    assert (is_Some (pagers w !! g)) as Hs by eauto. apply (o_freshg _ _ _ _ _ O) in Hs. lia.
  - intros v [y Hv]. cbn in Hv |- *. apply lookup_insert_Some in Hv as [[<- _]|[_ Hv]]; [lia|].
    assert (is_Some (vmos w !! v)) as Hs by eauto. apply (o_freshv _ _ _ _ _ O) in Hs. lia.
Qed.

(** ** Sequences *)
Definition OInv (N : Z) (K : gset Z) (o : Owned) : Prop :=
  exists H, Own N K H None (ow o) /\ forall v, v ∈ roots o <-> is_Some (vmos (ow o) !! v).

Lemma remove_root_other v v' l : v' <> v -> v' ∈ remove_root v l <-> v' ∈ l.
Proof.
  intros Hn. induction l as [|x l IH]; cbn; [done|]. destruct (Z.eqb_spec x v) as [->|]; rewrite !elem_of_cons; [|by rewrite IH].
  split; [by right|]. by intros [?|?].
Qed.
Lemma drop_root_ok N K o v :
  OInv N K o -> v ∈ roots o ->
  exists o', drop_root o v = Done o' /\ OInv N K o' /\ pagers (ow o') ⊆ pagers (ow o) /\ vmos (ow o') ⊆ vmos (ow o) /\
    mem (ow o') = mem (ow o) /\ nods (ow o') = nods (ow o).
Proof.
  intros (H & O & HR) Hv. unfold drop_root. pose proof (proj1 (HR v) Hv) as [y Hy]. case_bool_decide as Hin.
  { eexists. split; [done|]. split; [|done]. exists H. split; [done|]. intros v'. cbn. rewrite <- HR.
    destruct (decide (v' = v)) as [->|]; [tauto|by apply remove_root_other]. }
  destruct (vmo_delete_ok N K H (ow o) v y O Hy) as (w' & H' & -> & O' & [R1 R2 R3 R4 _ _]). cbn [obind].
  eexists. split; [done|]. cbn in *. split; [|rewrite R2; split_and!; [done|apply delete_subseteq|done|done]].
  exists H'. split; [done|]. intros v'. cbn. rewrite R2. destruct (decide (v' = v)) as [->|].
  - rewrite lookup_delete_eq. split; [done|]. by intros [? [=]].
  - rewrite lookup_delete_ne, <- HR by done. by apply remove_root_other.
Qed.
Lemma new_paged_OInv N K o x n :
  OInv N K o -> pg_pages x = ∅ -> (forall b, back_of x = Some b -> is_Some (pagers (ow o) !! b)) ->
  OInv N K (mkOwned (new_vmo (new_pager (ow o) x).2 (VMOPaged (replicate n None) (nextpg (ow o)))).2 (nextvm (ow o) :: roots o)).
Proof.
  intros (H & O & HR) Hp Hb. exists H. split; [by apply new_paged_Own|]. intros v. cbn. rewrite elem_of_cons, HR.
  destruct (decide (v = nextvm (ow o))) as [->|].
  - rewrite lookup_insert_eq. split; [by eexists|by left].
  - rewrite lookup_insert_ne by done. tauto.
Qed.
Lemma mstep_ok N K o x o' : OInv N K o -> mstep junk depth o x = Done o' -> OInv N K o'.
Proof.
  intros I. destruct x as [n|pages|v region pages|v|v off|v|v]; cbn [mstep].
  - intros [= <-]. by apply (new_paged_OInv N K o (VnodePager n ∅ 0)).
  - intros [= <-]. by apply (new_paged_OInv N K o (SwapPager None (mkSegment 0 (pn2addr pages)) ∅)).
  - case_bool_decide as Hv; [|done]. destruct I as (H & O & HR). apply HR in Hv as [y Hy]. unfold vmo_get. rewrite Hy. cbn [obind].
    destruct (o_on _ _ _ _ _ O v y Hy) as (ps & g & -> & Hg). intros [= <-].
    apply (new_paged_OInv N K o (SwapPager (Some g) region ∅)); [by exists H|done|]. by intros b [= <-].
  - case_bool_decide as Hv; [|done]. destruct I as (H & O & HR). apply HR in Hv as [y Hy]. unfold clone, vmo_get. rewrite Hy. cbn [obind].
    destruct (o_on _ _ _ _ _ O v y Hy) as (ps & g & -> & Hg). cbn [obind]. intros [= <-].
    apply (new_paged_OInv N K o (SwapPager (Some g) (mkSegment 0 (pn2addr (Z.of_nat (length ps)))) ∅)); [by exists H|done|]. by intros b [= <-].
  - case_bool_decide as Hv; [|done]. destruct (req junk depth (ow o) v off) as [[[[a b] c] w]| | |] eqn:E; cbn [obind]; try done. intros [= <-].
    apply req_fair in E as [A B]. destruct I as (H & O & HR). destruct (A _ _ _ O) as [H' O']. exists H'. split; [done|].
    intros v'. cbn. by rewrite B.
  - case_bool_decide as Hv; [|done]. intros [= <-]. destruct I as (H & O & HR). exists H. split; [done|]. intros v'. cbn.
    rewrite elem_of_cons, <- HR. split; [|by right]. by intros [->|?].
  - case_bool_decide as Hv; [|done]. destruct (drop_root_ok N K o v I Hv) as (o1 & -> & I1 & _). by intros [= <-].
Qed.
Lemma mrun_ok N K l : forall o o', OInv N K o -> mrun junk depth o l = Done o' -> OInv N K o'.
Proof.
  induction l as [|x l IH]; intros o o' I; cbn [mrun]; [by intros [= <-]|].
  destruct (mstep junk depth o x) as [o1| | |] eqn:E; cbn [obind]; try done. apply IH. by eapply mstep_ok.
Qed.
(** Without memory objects there are no pagers: each is used by one or by a newer pager. *)
Lemma no_pagers N K H w : Own N K H None w -> vmos w = ∅ -> forall g, pagers w !! g = None.
Proof.
  intros O Hv. assert (Hn : forall n g, is_Some (pagers w !! g) -> (Z.to_nat (nextpg w - g) < n)%nat -> False).
  { induction n as [|n IH]; intros g Hg Hlt; [lia|]. pose proof (o_freshg _ _ _ _ _ O g Hg).
    destruct (o_used _ _ _ _ _ O g Hg ltac:(done)) as [(v & ps & Hv')|(g' & r & ps & Hg')]; [by rewrite Hv in Hv'|].
    destruct (o_back _ _ _ _ _ O _ _ _ _ Hg') as [Hlt' _]. apply (IH g'); [by eexists|].
    assert (is_Some (pagers w !! g')) as Hs by by eexists. apply (o_freshg _ _ _ _ _ O) in Hs. lia. }
  intros g. destruct (pagers w !! g) eqn:E; [|done]. destruct (Hn (Datatypes.S (Z.to_nat (nextpg w - g))) g); [by rewrite E|lia].
Qed.
End Proofs.

(** ** The claim *)
Section Claims.
Context {S : Type} `{!INodeOps S} `{!INodeLaws S} (junk : Segment) (depth : nat).
Implicit Types w : @PW S.
Lemma view_sub N K H w w' : Own N K H None w' -> pagers w' ⊆ pagers w -> mem w' = mem w -> nods w' = nods w ->
  forall f g off i, is_Some (pagers w' !! g) -> PagerClaims.view f w' g off i = PagerClaims.view f w g off i.
Proof.
  intros O Hp Hm Hs. induction f as [|f IH]; intros g off i [x Hx]; [done|]. cbn [PagerClaims.view].
  rewrite Hx, (lookup_weaken _ _ _ _ Hx Hp), Hm, Hs. destruct (pg_pages x !! off); [done|].
  destruct x as [n ps rc|[b|] r ps]; [done| |done]. destruct (_ && _); [|done]. apply IH. by apply (o_back _ _ _ _ _ O _ _ _ _ Hx).
Qed.

(** C15. No frame of a memory object is lost or freed twice. Whatever the kernel did
    with paged memory objects (files, anonymous and private areas, clones, page
    faults, sharing and dropping), the frames that the page allocator has given out
    are those given out before and exactly the frames of the buffers that pagers
    still keep; when the last reference to the last object is gone they are exactly
    those given out before. Dropping a reference never fails, and every object that
    remains shows the same bytes as before. *)
Theorem paged_frames_exact N (K : gset Z) (w0 : @PW S) l o :
  PagePool.pool_ok N (pmgr w0) K -> pagers w0 = ∅ -> vmos w0 = ∅ ->
  mrun junk depth (mkOwned w0 []) l = Done o ->
  (exists H : gset Z, PagePool.pool_ok N (pmgr (ow o)) H /\
     (forall p, p ∈ H <-> p ∈ K \/ incache (ow o) p) /\
     (forall p, p ∈ K -> ~ incache (ow o) p) /\ (roots o = [] -> H = K)) /\
  (forall v, v ∈ roots o -> exists o', mstep junk depth o (MDrop v) = Done o' /\
     forall v' ps g, vmos (ow o') !! v' = Some (VMOPaged ps g) ->
       vmos (ow o) !! v' = Some (VMOPaged ps g) /\ mem (ow o') = mem (ow o) /\
       forall f off i, PagerClaims.view f (ow o') g off i = PagerClaims.view f (ow o) g off i).
Proof.
  intros Hpool Hpg Hvm Hrun.
  assert (I0 : OInv N K (mkOwned w0 [])).
  { assert (Hn : forall g off p, ~ cached w0 g off p) by (intros g off p (x & Hx & _); by rewrite Hpg in Hx).
    exists K. split; [|intros v; cbn; rewrite Hvm; split; [by intros ?%not_elem_of_nil|by intros [? ?]]]. cbn. split.
    - done.
    - intros p. split; [by left|]. intros [?|(g & off & Hc)]; [done|by destruct (Hn g off p)].
    - intros p _ (g & off & Hc). by destruct (Hn g off p).
    - intros g off g' off' p Hc. by destruct (Hn g off p).
    - intros v ps g off p Hv. by rewrite Hvm in Hv.
    - intros v y Hv. by rewrite Hvm in Hv.
    - intros g b r ps Hg. by rewrite Hpg in Hg.
    - intros g [x Hg]. by rewrite Hpg in Hg.
    - intros g [x Hg]. by rewrite Hpg in Hg.
    - intros v [x Hv]. by rewrite Hvm in Hv. }
  pose proof (mrun_ok junk depth N K l _ _ I0 Hrun) as I. split.
  - destruct I as (H & O & HR). exists H. split_and!; [apply O|apply O|apply O|]. intros Hr.
    assert (Hv : vmos (ow o) = ∅).
    { apply map_empty. intros v. destruct (vmos (ow o) !! v) eqn:E; [|done].
      assert (Hs : v ∈ roots o) by (apply HR; rewrite E; by eexists). rewrite Hr in Hs. by apply not_elem_of_nil in Hs. }
    apply set_eq. intros p. rewrite (o_held _ _ _ _ _ O). split; [|by left]. intros [?|(g & off & x & Hx & _)]; [done|].
    by rewrite (no_pagers N K H (ow o) O Hv g) in Hx.
  - intros v Hv. destruct (drop_root_ok N K o v I Hv) as (o' & E & (H' & O' & _) & Hp & Hs & Hm & Hn). exists o'. cbn [mstep].
    rewrite bool_decide_true by done. split; [done|]. intros v' ps g Hv'. split; [by eapply lookup_weaken|]. split; [done|].
    intros f off i. apply (view_sub N K H' (ow o) (ow o')); try done.
    destruct (o_on _ _ _ _ _ O' v' _ Hv') as (ps' & g' & [= <- <-] & Hg). done.
Qed.
End Claims.

(** A file of two pages, a private clone of it; pages of both are loaded, the file's
    own object goes while the clone still needs its pager, then the clone goes. *)
Definition ex_junk : Segment := mkSegment 1 0.
Definition ex_ops : list mop := [MFile 2; MTouch 0 0; MClone 0; MTouch 1 0; MTouch 1 1; MShare 1; MDrop 0; MDrop 1].
Definition ex_start : Owned := mkOwned PagerClaims.ex_w0 [].
Definition ex_state : Owned := match mrun ex_junk 3 ex_start ex_ops with Done o => o | _ => ex_start end.
Lemma ex_ran : mrun ex_junk 3 ex_start ex_ops = Done ex_state.
Proof.
  assert (E : match mrun ex_junk 3 ex_start ex_ops with Done _ => true | _ => false end = true) by (vm_compute; reflexivity).
  unfold ex_state. by destruct (mrun ex_junk 3 ex_start ex_ops).
Qed.
Lemma ex_last : roots ex_state = [1] /\ size (pagers (ow ex_state)) = 2%nat.
Proof. vm_compute. done. Qed.
(** After the last object every page is free again. *)
Example ex_all_free :
  match mstep ex_junk 3 ex_state (MDrop 1) with
  | Done o => pagers (ow o) = ∅ /\ vmos (ow o) = ∅ /\
      forallb (PageAlloc.page_free (pmgr (ow o))) (seqZ 100 200) = true
  | _ => False
  end.
Proof. vm_compute. done. Qed.
Lemma paged_frames_exact_witness :
  (exists H : gset Z, PagePool.pool_ok 200 (pmgr (ow ex_state)) H /\ (forall p, p ∈ H <-> p ∈ (∅ : gset Z) \/ incache (ow ex_state) p) /\
     (forall p, p ∈ (∅ : gset Z) -> ~ incache (ow ex_state) p) /\ (roots ex_state = [] -> H = ∅)) /\
  (exists o', mstep ex_junk 3 ex_state (MDrop 1) = Done o').
Proof.
  destruct (paged_frames_exact ex_junk 3 200 ∅ PagerClaims.ex_w0 ex_ops ex_state) as [A B].
  - apply (PagePool.pool_new 0 100 300 7); [unfold PageAlloc.good_range; lia|vm_compute; reflexivity].
  - reflexivity.
  - reflexivity.
  - apply ex_ran.
  - split; [exact A|]. destruct (B 1) as (o' & E & _); [rewrite (proj1 ex_last); left|]. by exists o'.
Defined.
End PagerFree.
