(* ===== verification/Ld.v ===== *)
(** * Ld: the program loader (include/ld.hh, kernel/ld.cc)

    A program is a file whose VMO is mapped into the kernel while it is loaded:
    [buff] are the bytes that the window shows. Integers are read from it in the
    layout of elf.h (64-bit, little endian). A loadable segment becomes a mapping
    of a new VMO whose swap pager has the file behind it. The search for the
    interpreter's file, which gives its VMO and bytes, is the argument [find]. *)

From S2P Require Import Prelude Klib Buddy PageAlloc PageTable Vmar Bcache Bytes Path Vfs File FileSys Ramfs Scatter ScatterClaims Pager PagerClaims.
Local Open Scope Z_scope.

Module Ld.
Import PageTable Vmar Pager.

Definition PT_LOAD : Z := 1.
Definition PT_INTERP : Z := 3.
Definition PT_PHDR : Z := 6.
Definition interpreterBase : Z := 1879048192.
(** A read outside the window. *)
Definition rd (n : Z) (get : list Z -> Z -> Z) (buff : list Z) (o : Z) : outcome Z :=
  if (0 <=? o) && (o + n <=? zlen buff) then Done (get buff o) else Undef.
Definition rd16 := rd 2 get16.
Definition rd32 := rd 4 get32.
Definition rd64 := rd 8 (fun l o => get32 l o + 4294967296 * get32 l (o + 4)).

Record Ehdr : Type := mkEhdr { e_entry : Z; e_phoff : Z; e_phentsize : Z; e_phnum : Z }.
Record Phdr : Type := mkPhdr { p_type : Z; p_flags : Z; p_offset : Z; p_vaddr : Z; p_filesz : Z; p_memsz : Z }.
Definition read_ehdr (buff : list Z) : outcome Ehdr :=
  let* a := rd64 buff 24 in
  let* b := rd64 buff 32 in
  let* c := rd16 buff 54 in
  let* d := rd16 buff 56 in
  Done (mkEhdr a b c d).
(** phdrTable[i]: entries of sizeof(Elf64_Phdr) bytes, whatever e_phentsize is. *)
Definition read_phdr (buff : list Z) (phoff i : Z) : outcome Phdr :=
  let o := phoff + 56 * i in
  let* a := rd32 buff o in
  let* b := rd32 buff (o + 4) in
  let* c := rd64 buff (o + 8) in
  let* d := rd64 buff (o + 16) in
  let* e := rd64 buff (o + 32) in
  let* f := rd64 buff (o + 40) in
  Done (mkPhdr a b c d e f).
(** ld::elf::flags2perm with the bits v, r, w, x and u of an entry. *)
Definition flags2perm (flags : Z) : Z :=
  Z.lor (Z.lor (Z.lor (Z.lor (if Z.land flags 1 =? 0 then 0 else 8) (if Z.land flags 2 =? 0 then 0 else 4))
    (if Z.land flags 4 =? 0 then 0 else 2)) 1) 16.
Record ElfInfo : Type := mkElfInfo { phdr : Z; i_entry : Z; i_phentsize : Z; i_phnum : Z }.
Definition seg_pages (e : Phdr) : Z :=
  u64 (addr2pn (u64 (p_vaddr e + p_memsz e - 1)) - addr2pn (p_vaddr e) + 1).
(** The C string at an offset of the window. *)
Fixpoint cstr_at (fuel : nat) (buff : list Z) (o : Z) : outcome (list Z) :=
  match fuel with
  | O => Undef
  | S fuel =>
      let* c := aget buff o in
      if c =? 0 then Done [] else let* l := cstr_at fuel buff (o + 1) in Done (c :: l)
  end.
(** "/lib/ld-musl-riscv64-sf.so.1" and "libc.so". *)
Definition musl_sf : list Z :=
  [47; 108; 105; 98; 47; 108; 100; 45; 109; 117; 115; 108; 45; 114; 105; 115; 99; 118; 54; 52; 45; 115; 102; 46; 115; 111; 46; 49].
Definition libc_so : list Z := [108; 105; 98; 99; 46; 115; 111].
Definition interp_name (s : list Z) : list Z := if decide (s = musl_sf) then libc_so else s.

Section Load.
Context {S : Type} `{!INodeOps S} (junk : Segment) (depth : nat).
Notation PW := (@PW S).
Context (find : PW -> list Z -> outcome (Z * list Z * PW)).

(** The page allocator and VMO::req as the address space uses them. *)
Definition pw_alloc (w : PW) (n : Z) : outcome (Z * PW) :=
  let* (p, a) := Buddy.Buddy.alloc (pmgr w) n in
  Done (p, mkPW (mem w) a (nods w) (pagers w) (nextpg w) (vmos w) (nextvm w)).
Definition pw_req (w : PW) (v off : Z) : outcome (Z * Z * Z * PW) := req junk depth w v off.
Definition vmar_map (v : VMAR PW) (m : PageMapping) : outcome (VMAR PW) := Vmar.map pw_alloc pw_req v m false.
Definition set_pw (v : VMAR PW) (w : PW) : VMAR PW := mkVMAR (mappings v) (root v) (mkPT (pmem (pt v)) w).

(** What a loadable segment becomes: a swap pager over the pager of the file's
    VMO, a VMO on it, and a private mapping. *)
Definition shadow (w : PW) (fv : Z) (base : Z) (e : Phdr) : outcome (PageMapping * PW) :=
  let* x := vmo_get w fv in
  match x with
  | VMOContiguous _ _ => Undef
  | VMOPaged _ g0 =>
      let pages := seg_pages e in
      let (g, w) := new_pager w (SwapPager (Some g0) (mkSegment (p_offset e) (u64 (p_offset e + p_filesz e))) ∅) in
      let (v, w) := new_vmo w (VMOPaged (replicate (Z.to_nat pages) None) g) in
      Done (mkMapping (addr2pn (u64 (base + p_vaddr e))) pages 0 v (flags2perm (p_flags e)) file privt, w)
  end.
(** [!perm&mask::w]: the negation is 0 or 1, the bit of w is 4. *)
Definition map_segment (v : VMAR PW) (fv base : Z) (e : Phdr) : outcome (VMAR PW) :=
  let perm := flags2perm (p_flags e) in
  if negb (Z.land (if perm =? 0 then 1 else 0) 4 =? 0) then
    vmar_map v (mkMapping (addr2pn (u64 (base + p_vaddr e))) (seg_pages e) (addr2pn (p_offset e)) fv perm file shared)
  else
    let* (m, w) := shadow (PageTable.pmgr (pt v)) fv base e in
    vmar_map (set_pw v w) m.
Definition find_phdr (info : ElfInfo) (h : Ehdr) (e : Phdr) : ElfInfo :=
  if negb (phdr info =? 0) then info
  else if seg_bool (seg_and (mkSegment (p_offset e) (u64 (p_offset e + p_filesz e))) (mkSegment (e_phoff h) (e_phoff h))) then
    mkElfInfo (u64 (p_vaddr e + e_phoff h - p_offset e)) (i_entry info) (i_phentsize info) (i_phnum info)
  else info.

Fixpoint ph_loop (n : nat) (load : VMAR PW -> Z -> list Z -> Z -> outcome (Z * Z * ElfInfo * VMAR PW))
    (v : VMAR PW) (fv : Z) (buff : list Z) (base : Z) (h : Ehdr) (i brk entry : Z) (info : ElfInfo) :
    outcome (Z * Z * ElfInfo * VMAR PW) :=
  match n with
  | O => Done (brk, entry, info, v)
  | Datatypes.S n =>
      let* e := read_phdr buff (e_phoff h) i in
      if p_type e =? PT_INTERP then
        let* s := cstr_at (length buff) buff (p_offset e) in
        let* (fv', buff', w) := find (PageTable.pmgr (pt v)) (interp_name s) in
        let* (ientry, _, _, v) := load (set_pw v w) fv' buff' interpreterBase in
        ph_loop n load v fv buff base h (i + 1) brk ientry info
      else if p_type e =? PT_LOAD then
        let* v := map_segment v fv base e in
        ph_loop n load v fv buff base h (i + 1) (kmax brk (u64 (p_vaddr e + p_memsz e))) entry (find_phdr info h e)
      else if p_type e =? PT_PHDR then
        ph_loop n load v fv buff base h (i + 1) brk entry
          (mkElfInfo (u64 (base + p_vaddr e)) (i_entry info) (i_phentsize info) (i_phnum info))
      else ph_loop n load v fv buff base h (i + 1) brk entry info
  end.
(** [fuel] bounds the chain of interpreters. *)
Fixpoint loadElf (fuel : nat) (v : VMAR PW) (fv : Z) (buff : list Z) (base : Z) : outcome (Z * Z * ElfInfo * VMAR PW) :=
  match fuel with
  | O => Diverge
  | Datatypes.S fuel =>
      let* h := read_ehdr buff in
      let info := mkElfInfo 0 (e_entry h) (e_phentsize h) (e_phnum h) in
      let* (brk, entry, info, v) := ph_loop (Z.to_nat (e_phnum h)) (loadElf fuel) v fv buff base h 0 0 (e_entry h) info in
      Done (u64 (base + entry), u64 (base + brk), info, v)
  end.

(** loadElf(buff): a program in memory; fresh frames, the file's bytes copied in
    after the mapping is made. *)
Definition copy_segment (w : PW) (buff : list Z) (e : Phdr) (ppn : Z) : outcome PW :=
  if (0 <=? p_offset e) && (p_offset e + p_filesz e <=? zlen buff) then
    Done (with_mem w (Scatter.mwrite (mem w) (pn2addr ppn + addr2offset (p_vaddr e)) (slice buff (p_offset e) (p_filesz e))))
  else Undef.
Definition place_segment (v : VMAR PW) (buff : list Z) (e : Phdr) : outcome (VMAR PW) :=
  let pages := seg_pages e in
  let* (ppn, w) := pw_alloc (PageTable.pmgr (pt v)) pages in
  let (o, w) := new_vmo w (VMOContiguous ppn pages) in
  let* v := vmar_map (set_pw v w) (mkMapping (addr2pn (p_vaddr e)) pages 0 o (flags2perm (p_flags e)) file privt) in
  let* w := copy_segment (PageTable.pmgr (pt v)) buff e ppn in
  Done (set_pw v w).
Fixpoint place_loop (n : nat) (v : VMAR PW) (buff : list Z) (h : Ehdr) (i brk : Z) : outcome (Z * VMAR PW) :=
  match n with
  | O => Done (brk, v)
  | Datatypes.S n =>
      let* e := read_phdr buff (e_phoff h) i in
      if negb (p_type e =? PT_LOAD) then place_loop n v buff h (i + 1) brk
      else let* v := place_segment v buff e in place_loop n v buff h (i + 1) (kmax brk (u64 (p_vaddr e + p_memsz e)))
  end.
Definition loadElf_buff (v : VMAR PW) (buff : list Z) : outcome (Z * Z * VMAR PW) :=
  let* h := read_ehdr buff in
  let* (brk, v) := place_loop (Z.to_nat (e_phnum h)) v buff h 0 0 in
  Done (e_entry h, brk, v).
(** The memory of a segment past its file bytes is not cleared. *)
Theorem bss_not_cleared w buff e ppn w' x :
  copy_segment w buff e ppn = Done w' -> 0 <= p_filesz e ->
  pn2addr ppn + addr2offset (p_vaddr e) + p_filesz e <= x -> mem w' x = mem w x.
Proof.
  unfold copy_segment. destruct (_ && _) eqn:E; [|done]. intros [= <-] Hf Hx. cbn. unfold Scatter.mwrite.
  apply andb_true_iff in E as [E1%Z.leb_le E2%Z.leb_le]. rewrite slice_length by lia. destruct (Z.ltb_spec x (pn2addr ppn + addr2offset (p_vaddr e) + p_filesz e)); [lia|].
  by rewrite andb_false_r.
Qed.
End Load.

(** isElf: the first 64 bytes of the file, "\177ELF" at their start. *)
Definition isElf_bytes (rdbytes : Z) (hdr : list Z) : bool :=
  (rdbytes =? 64) && bool_decide (take 4 hdr = [127; 69; 76; 70]).

(** ** The bytes of a segment *)
Section Claims.
Context {S : Type} `{!INodeOps S} `{!INodeLaws S} (junk : Segment).
Notation PW := (@PW S).
Implicit Types w : PW.

(** A segment that the file holds, placed at [base] as it is in the file. *)
Record segment_ok (base fsize : Z) (e : Phdr) : Prop := {
  so_off : 0 <= p_offset e;
  so_file : 0 <= p_filesz e <= p_memsz e;
  so_mem : 1 <= p_memsz e;
  so_in : p_offset e + p_filesz e <= fsize;
  so_vaddr : 0 <= p_vaddr e /\ 0 <= base /\ base + p_vaddr e + p_memsz e < 2 ^ 38;
  so_base : base mod 4096 = 0;
  so_congr : p_vaddr e mod 4096 = p_offset e mod 4096
}.
Lemma seg_pages_eq base fsize e :
  segment_ok base fsize e ->
  seg_pages e = (p_vaddr e + p_memsz e - 1) / 4096 - p_vaddr e / 4096 + 1 /\ 1 <= seg_pages e < 2 ^ 37 /\
  addr2pn (u64 (base + p_vaddr e)) = (base + p_vaddr e) / 4096.
Proof.
  intros [H1 H2 H3 H4 H5 H6 H7]. unfold seg_pages. rewrite !PagerClaims.addr2pn_div.
  rewrite (u64_small (p_vaddr e + p_memsz e - 1)), (u64_small (base + p_vaddr e)) by lia.
  rewrite u64_small by (Z.to_euclidean_division_equations; lia). split; [done|]. split; [|done].
  Z.to_euclidean_division_equations; lia.
Qed.
(** The page of the segment's VMO that byte [j] lies in, and where. *)
Lemma segment_place base fsize e j :
  segment_ok base fsize e -> 0 <= j < p_memsz e ->
  let a := base + p_vaddr e + j in
  let k := a / 4096 - (base + p_vaddr e) / 4096 in
  0 <= k < seg_pages e /\ 0 <= a mod 4096 < 4096 /\ (p_offset e / 4096 + k) * 4096 + a mod 4096 = p_offset e + j.
Proof.
  intros Hok Hj a k. destruct (seg_pages_eq base fsize e Hok) as (-> & _ & _). destruct Hok as [H1 H2 H3 H4 H5 H6 H7].
  unfold k, a. split; [Z.to_euclidean_division_equations; lia|]. split; [apply Z.mod_pos_bound; lia|].
  Z.to_euclidean_division_equations; lia.
Qed.
Lemma map_segment_private depth v fv base e :
  map_segment (S := S) junk depth v fv base e =
  (let* (m, w) := shadow (PageTable.pmgr (pt v)) fv base e in vmar_map junk depth (set_pw v w) m).
Proof. unfold map_segment. by destruct (flags2perm (p_flags e) =? 0). Qed.

(** C20. Loading a segment maps exactly its pages, privately whatever its flags
    are, and the memory behind them is the segment: reading byte [j] of it (at the
    address base+p_vaddr+j) ends and gives byte p_offset+j of the file below
    p_filesz and zero from there to p_memsz, for a segment whose address and
    file offset are congruent modulo the page size. *)
Theorem segment_bytes depth fuel N H w v fv fps g0 n qs rc base e :
  PagerClaims.Inv N H w -> PagerClaims.coherent w -> vmos w !! fv = Some (VMOPaged fps g0) -> pagers w !! g0 = Some (VnodePager n qs rc) ->
  (forall o p i, qs !! o = Some p -> 0 <= i < 4096 -> o * 4096 + i < zlen (content (nods w) n) ->
    mem w (p * 4096 + i) = vat (content (nods w) n) (o * 4096 + i)) ->
  segment_ok base (zlen (content (nods w) n)) e -> Z.of_nat (size H) + 1 < N -> PageTable.pmgr (pt v) = w ->
  exists m w1, map_segment junk depth v fv base e = vmar_map junk depth (set_pw v w1) m /\
    vpn m = (base + p_vaddr e) / 4096 /\ vpn m + len m - 1 = (base + p_vaddr e + p_memsz e - 1) / 4096 /\ sharing m = privt /\
    forall j, 0 <= j < p_memsz e ->
      let a := base + p_vaddr e + j in
      exists p w2, req junk (2 + fuel) w1 (vmo m) (offset m + (a / 4096 - vpn m)) = Done (a / 4096 - vpn m, p, 1, w2) /\
        mem w2 (p * 4096 + a mod 4096) = if j <? p_filesz e then vat (content (nods w) n) (p_offset e + j) else 0.
Proof.
  intros I Hco Hfv Hg0 Hcl Hok Hs <-. rewrite map_segment_private. set (w := PageTable.pmgr (pt v)) in *.
  destruct (seg_pages_eq _ _ _ Hok) as (Hpg & Hpr & Hvpn). pose proof Hok as [H1 H2 H3 H4 H5 H6 H7].
  destruct (PagerClaims.in_pager _ _ _ I g0 _ Hg0) as [_ Hsz].
  unfold shadow, vmo_get. rewrite Hfv. cbn [obind]. rewrite (u64_small (p_offset e + p_filesz e)) by lia.
  set (x := SwapPager _ _ _). set (wp := snd (new_pager w x)). change (new_pager w x) with (nextpg w, wp). cbv beta iota.
  set (y := VMOPaged _ _). set (w1 := snd (new_vmo wp y)). change (new_vmo wp y) with (nextvm w, w1). cbv beta iota. cbn [obind].
  eexists _, w1. split; [done|]. cbn [vpn len sharing vmo offset]. rewrite Hvpn. split; [done|].
  split; [rewrite Hpg; Z.to_euclidean_division_equations; lia|]. split; [done|]. intros j Hj. set (a := base + p_vaddr e + j).
  destruct (segment_place _ _ _ j Hok Hj) as (Hk & Ha & Hpl). fold a in Hk, Ha, Hpl. rewrite Z.add_0_l.
  assert (Ip : PagerClaims.Inv N H wp).
  { apply PagerClaims.new_pager_Inv; [done|done|]. cbn. split; [|lia]. intros b' [= <-]. exact (PagerClaims.in_fresh _ _ _ I _ _ Hg0). }
  assert (I1 : PagerClaims.Inv N H w1) by exact (PagerClaims.Inv_vmos N H wp (vmos w1) (nextvm w1) Ip).
  assert (Hco1 : PagerClaims.coherent w1).
  { intros v0 ps0 g1 o0 p0. cbn. rewrite lookup_insert_Some. intros [[<- [= <- <-]]|[_ Hv0]] Ho0 Hp0.
    - apply lookup_replicate in Hp0 as [[=] _].
    - apply (PagerClaims.new_pager_cached w x); [done|by eapply PagerClaims.fresh_pager|]. by apply (Hco v0 ps0). }
  destruct (PagerClaims.segment_page junk fuel N H w1 (nextvm w) (replicate (Z.to_nat (seg_pages e)) None) (nextpg w) g0
    (mkSegment (p_offset e) (p_offset e + p_filesz e)) n qs rc (a / 4096 - (base + p_vaddr e) / 4096) I1 Hco1) as (p & w2 & Hr & Hm);
    [apply lookup_insert_eq|apply lookup_insert_eq| |done|done|rewrite length_replicate; lia|lia|done|].
  { cbn. rewrite lookup_insert_ne; [done|]. pose proof (PagerClaims.in_fresh _ _ _ I _ _ Hg0). lia. }
  exists p, w2. split; [done|]. rewrite Hm by done. cbn [sl sr]. rewrite Hpl.
  destruct (Z.leb_spec (p_offset e) (p_offset e + j)); [|lia].
  destruct (Z.ltb_spec (p_offset e + j) (p_offset e + p_filesz e)), (Z.ltb_spec j (p_filesz e)); try lia; done.
Qed.
End Claims.

(** ** A concrete segment: 5000 bytes of the file from offset 1, at address
    0x11001, with 9000 bytes of memory *)
Definition ex_e : Phdr := mkPhdr PT_LOAD 6 1 69633 5000 9000.
Definition ex_v : VMAR (PW (S := Ramfs.SuperBlock)) := mkVMAR [] 50 (mkPT ∅ PagerClaims.ex_w).
Lemma segment_bytes_witness :
  exists m w1, map_segment (mkSegment 1 0) 2 ex_v 0 0 ex_e = vmar_map (mkSegment 1 0) 2 (set_pw ex_v w1) m /\
    vpn m = 17 /\ vpn m + len m - 1 = 19 /\ sharing m = privt /\
    forall j, 0 <= j < 9000 ->
      let a := 69633 + j in
      exists p w2, req (mkSegment 1 0) 2 w1 (vmo m) (offset m + (a / 4096 - vpn m)) = Done (a / 4096 - vpn m, p, 1, w2) /\
        mem w2 (p * 4096 + a mod 4096) = if j <? 5000 then vat (replicate 5000 7 ++ [9]) (1 + j) else 0.
Proof.
  rewrite <- PagerClaims.ex_content.
  apply (segment_bytes (mkSegment 1 0) 2 0 200 ∅ PagerClaims.ex_w ex_v 0 [None; None] 0 2 ∅ 0 0 ex_e); try reflexivity.
  - apply PagerClaims.ex_pager_inv.
  - apply PagerClaims.ex_coherent.
  - intros o p i Hq. by rewrite lookup_empty in Hq.
  - rewrite PagerClaims.ex_size. constructor; unfold ex_e; cbn [p_offset p_filesz p_memsz p_vaddr]; first [lia|reflexivity].
Defined.
End Ld.
