(* ===== verification/Umem.v ===== *)
(** * Umem: the kernel's access to user memory (VMOMapper, VMAR::copyin,
    copyinstr, copyout and VMAR::Writer of include/vm.hh and kernel/vm/vm.cc)

    The kernel reads user memory through the physical address of the first byte
    and writes it through a window: VMOMapper maps a memory object on demand
    behind the other kernel mappings, the store faults, pagefaultHandler
    (kernel/trap.cc) lets the kernel's VMAR map the page, and the window is
    unmapped at the end of the scope. Both address spaces live in one state: the
    page tables and the objects of [Pager]. The translation of a store is the
    Sv39 walk [walk] of [PtMap]; physical memory is mapped one to one. *)

From S2P Require Import Prelude Klib Buddy PageAlloc PageTable PtMap PtUnmap Vmar Bcache Bytes Path Vfs Ramfs Scatter ScatterClaims Pager PagerClaims Ld.
Local Open Scope Z_scope.

Module Umem.
Import PageTable PtMap Vmar Pager Ld.

Section Access.
Context {S : Type} `{!INodeOps S} (junk : Segment) (depth : nat).
Notation PW := (@PW S).

(** The address space of the process, the one of the kernel and
    kInfo.segments.mapper.second. *)
Record US : Type := mkUS {
  u_maps : list PageMapping;
  u_root : Z;
  k_maps : list PageMapping;
  k_root : Z;
  mapper_second : Z;
  tabs : PT PW
}.
Implicit Types u : US.
Definition world u : PW := PageTable.pmgr (tabs u).
Definition kvmar u : VMAR PW := mkVMAR (k_maps u) (k_root u) (tabs u).
Definition set_kvmar u (v : VMAR PW) (second : Z) : US := mkUS (u_maps u) (u_root u) (mappings v) (root v) second (pt v).
Definition pw_free (w : PW) (p o : Z) : outcome PW :=
  let* a := Buddy.Buddy.free (pmgr w) p o in
  Done (mkPW (mem w) a (nods w) (pagers w) (nextpg w) (vmos w) (nextvm w)).

(** ** The copy of an address space (fork): PageMapping::clone and the copy
    constructor of VMAR, on a new root table *)
Definition mapping_clone (w : PW) (m : PageMapping) : outcome (PageMapping * PW) :=
  if sharing m =? shared then Done (m, w)
  else
    let* (o, w) := Pager.clone w (vmo m) in
    Done (mkMapping (vpn m) (len m) (offset m) o (perm m) (mapping m) (sharing m), w).
Fixpoint copy_loop (l : list PageMapping) (v : VMAR PW) : outcome (VMAR PW) :=
  match l with
  | [] => Done v
  | m :: l =>
      let* (m', w) := mapping_clone (PageTable.pmgr (pt v)) m in
      let* v := vmar_map junk depth (set_pw v w) m' in
      copy_loop l v
  end.
Definition VMAR_copy (other : list PageMapping) (s : PT PW) : outcome (VMAR PW) :=
  let* (r, s) := createPTNode pw_alloc s in copy_loop other (mkVMAR [] r s).

(** ** VMOMapper *)
Definition VMOMapper_new u (o : Z) : outcome (Segment * US) :=
  let* x := vmo_get (world u) o in
  let m := mkMapping (mapper_second u) (vmo_len x) 0 o 7 file shared in
  let* v := Vmar.map pw_alloc (pw_req junk depth) (kvmar u) m true in
  Done (vsegment m, set_kvmar u v (u64 (mapper_second u + vmo_len x))).
Definition VMOMapper_drop u (region : Segment) : outcome US :=
  let* v := Vmar.unmap pw_alloc pw_free (pw_req junk depth) (kvmar u) region in
  Done (set_kvmar u v (u64 (mapper_second u - seg_length region))).
Definition mapper_start (region : Segment) : Z := pn2addr (sl region).
Definition mapper_end (region : Segment) : Z := u64 (pn2addr (sr region) + pageSize - 1).

(** ** Stores of the kernel *)

(** A store to a kernel address: the MMU's translation, for a page that is
    valid and writable; otherwise a page fault and the store again. *)
Definition store_pa u (addr : Z) : option Z :=
  match walk 2 (pmem (tabs u)) (k_root u) (addr2pn addr) with
  | Some (_, p, q) => if Z.testbit q 2 then Some (p * 4096 + addr2offset addr) else None
  | None => None
  end.
Definition pagefaultHandler u (addr : Z) : outcome US :=
  let* v := Vmar.pfhandler pw_alloc (pw_req junk depth) (kvmar u) addr in Done (set_kvmar u v (mapper_second u)).
Definition set_byte u (pa b : Z) : US :=
  let w := world u in
  mkUS (u_maps u) (u_root u) (k_maps u) (k_root u) (mapper_second u)
    (mkPT (pmem (tabs u)) (with_mem w (fun x => if x =? pa then b else mem w x))).
Definition kstore u (addr b : Z) : outcome US :=
  match store_pa u addr with
  | Some pa => Done (set_byte u pa b)
  | None =>
      let* u := pagefaultHandler u addr in
      match store_pa u addr with Some pa => Done (set_byte u pa b) | None => Diverge end
  end.
(** memmove from a kernel buffer to the window. *)
Fixpoint kmove u (addr : Z) (bs : list Z) : outcome US :=
  match bs with
  | [] => Done u
  | b :: bs => let* u := kstore u addr b in kmove u (u64 (addr + 1)) bs
  end.

(** ** VMAR *)
Definition bytes_at (m : Z -> Z) (a n : Z) : list Z := m <$> seqZ a n.
Definition copyin u (addr len : Z) : outcome (list Z) :=
  let* pa := transaddr (tabs u) (u_root u) addr in Done (bytes_at (mem (world u)) pa len).
(** The buffer that strncpy and the last assignment leave. *)
Fixpoint strncpy_from (n : nat) (m : Z -> Z) (a : Z) : list Z :=
  match n with
  | O => []
  | Datatypes.S n => if m a =? 0 then replicate (Datatypes.S n) 0 else m a :: strncpy_from n m (a + 1)
  end.
Definition copyinstr u (addr len : Z) : outcome (list Z) :=
  let* pa := transaddr (tabs u) (u_root u) addr in
  Done (strncpy_from (Z.to_nat len) (mem (world u)) pa ++ [0]).
Fixpoint copyout_loop (fuel : nat) u (va_begin : Z) (bs : list Z) : outcome US :=
  match bs with
  | [] => Done u
  | _ =>
      match fuel with
      | O => Diverge
      | Datatypes.S fuel =>
          let* r := find (u_maps u) va_begin in
          match r with
          | None => Panic
          | Some m =>
              let* (region, u) := VMOMapper_new u (vmo m) in
              let off := u64 (va_begin - pn2addr (vpn m) + pn2addr (offset m)) in
              let pa_begin := u64 (mapper_start region + off) in
              let pa_end := u64 (pa_begin + zlen bs - 1) in
              let pa_bound := mapper_end region in
              let pa_end := if pa_bound <? pa_end then pa_bound else pa_end in
              let cpylen := u64 (pa_end - pa_begin + 1) in
              if zlen bs <? cpylen then Undef
              else
                let* u := kmove u pa_begin (take (Z.to_nat cpylen) bs) in
                let* u := VMOMapper_drop u region in
                copyout_loop fuel u (u64 (va_begin + cpylen)) (drop (Z.to_nat cpylen) bs)
          end
      end
  end.
(** Every turn copies at least a byte, when the mapping lies in its object. *)
Definition copyout u (addr : Z) (bs : list Z) : outcome US := copyout_loop (length bs) u addr bs.

(** ** VMAR::Writer *)
Record Writer : Type := mkWriter { vaddr : Z; reverse : bool }.
Definition writer_put u (x : Writer) (bs : list Z) : outcome (Writer * US) :=
  if negb (reverse x) then
    let* u := copyout u (vaddr x) bs in Done (mkWriter (u64 (vaddr x + zlen bs)) (reverse x), u)
  else
    let a := u64 (vaddr x - zlen bs) in
    let* u := copyout u a bs in Done (mkWriter a (reverse x), u).
Definition writer_get u (x : Writer) (size : Z) : outcome (list Z * Writer) :=
  let a := if reverse x then u64 (vaddr x - size) else vaddr x in
  let* bs := copyin u a size in Done (bs, mkWriter (if reverse x then a else u64 (a + size)) (reverse x)).
End Access.
End Umem.
