(* ===== verification/UmemClaims.v ===== *)
(** * UmemClaims: what the kernel's access to user memory does

    The store of copyout is followed through the page fault, the kernel's page
    table and the removal of the window. [KOK] is what holds of the kernel's
    address space between two calls: its table is a tree of nodes that are handed
    out, its mappings lie below the place for windows and nothing above it is
    translated. *)

From S2P Require Import Prelude Klib Buddy PageAlloc PageTable PtMap PtUnmap Vmar Bcache Bytes Path Vfs Ramfs Scatter ScatterClaims Pager PagerClaims Ld Umem.
Local Open Scope Z_scope.

Module UmemClaims.
Import PageTable PtMap PtUnmap.

#[local] Arguments isValid : simpl never.
#[local] Arguments isLeaf : simpl never.

(** ** What runs on page tables do to the allocator *)
Section Keep.
Context {A : Type} (palloc : A -> Z -> outcome (Z * A)) (pfree : A -> Z -> Z -> outcome A) (P : A -> Prop).

Definition keeps_P (m : outcome (PT A)) : Prop := rets m (fun s => P (pmgr s)).
Lemma entry_set_keeps (s : PT A) t i e : P (pmgr s) -> keeps_P (entry_set s t i e).
Proof.
  intros Hp. unfold keeps_P, entry_set. destruct (pmem s !! t); [|done]. apply rets_skip. intros es _. exact Hp.
Qed.
Lemma map_whole_keeps n : forall (s : PT A) t i p q b, P (pmgr s) -> keeps_P (map_whole n s t i p q b).
Proof.
  induction n as [|n IH]; intros s t i p q b Hp; [done|]. cbn [map_whole]. apply rets_skip. intros e _.
  apply (rets_bind _ _ (fun s => P (pmgr s))); [by apply entry_set_keeps|]. intros s1 _ Hp1. by apply IH.
Qed.
Lemma createMapping_keeps l :
  (forall a q a', P a -> palloc a 1 = Done (q, a') -> P a') ->
  forall s t v p n q, P (pmgr s) -> keeps_P (createMapping palloc l s t v p n q).
Proof.
  intros Ha.
  assert (Hsub : forall cm s t i a b c, (forall s t v p n q, P (pmgr s) -> keeps_P (cm s t v p n q)) -> P (pmgr s) ->
    rets (sub_table palloc cm s t i a b c) (fun x => P (pmgr (snd x)))).
  { intros cm s t i a b c Hcm Hp. unfold sub_table. apply rets_skip. intros e _. destruct (_ && _); [exact Hp|].
    apply (rets_bind _ _ (fun x => P (pmgr (snd x)))).
    - unfold createPTNode. apply (rets_bind _ _ (fun x => P (snd x))); [|by intros [ppn m] _].
      destruct (palloc (pmgr s) 1) as [[ppn m]| | |] eqn:E; try done. by apply (Ha _ _ _ Hp E).
    - intros [sub s1] _ Hp1. apply (rets_bind _ _ (fun s => P (pmgr s))).
      + destruct (_ && _); [|done]. apply (rets_bind _ _ (fun s => P (pmgr s))); [by apply entry_set_keeps|].
        intros s' _ Hp'. by apply Hcm.
      + intros s2 _ Hp2. apply rets_skip. intros e2 _. apply (rets_bind _ _ (fun s => P (pmgr s))); [by apply entry_set_keeps|].
        by intros s3 _ Hp3. }
  assert (Hpart : forall cm s t i a b c v p n q, (forall s t v p n q, P (pmgr s) -> keeps_P (cm s t v p n q)) -> P (pmgr s) ->
    keeps_P (let* (sub, s1) := sub_table palloc cm s t i a b c in cm s1 sub v p n q)).
  { intros cm s t i a b c v p n q Hcm Hp. apply (rets_bind _ _ (fun x => P (pmgr (snd x)))); [by apply Hsub|].
    intros [sub s1] _ Hp1. by apply Hcm. }
  induction l as [|l IH]; intros s t v p n q Hp; rewrite createMapping_phases; unfold phase1, phase23.
  all: apply (rets_bind _ _ (fun x => P (pmgr (fst (fst (fst x)))))).
  1,3: destruct (_ =? 0); [exact Hp|]; apply (rets_bind _ _ (fun x => P (pmgr (snd x)))); [by apply Hsub|];
    intros [sub s1] _ Hp1; apply (rets_bind _ _ (fun s => P (pmgr s))); [|by intros s2 _ Hp2].
  1: done. 1: by apply IH.
  all: intros [[[s1 v1] p1] n1] _ Hp1; apply (rets_bind _ _ (fun s => P (pmgr s))); [by apply map_whole_keeps|];
    intros s2 _ Hp2; destruct (_ =? 0); [exact Hp2|]; by apply Hpart.
Qed.
Lemma removeMapping_keeps l :
  (forall a q o a', P a -> pfree a q o = Done a' -> P a') ->
  forall s t v n, P (pmgr s) -> keeps_P (removeMapping pfree l s t v n).
Proof.
  intros Hf.
  assert (Hfree : forall s t, P (pmgr s) -> rets (freePTNode pfree s t) (fun x => P (pmgr (snd x)))).
  { intros s t Hp. unfold freePTNode. destruct (pmem s !! t); [|done]. destruct (existsb _ _); [exact Hp|].
    apply (rets_bind _ _ P); [|done]. destruct (pfree (pmgr s) t 0) eqn:E; try done. by apply (Hf _ _ _ _ Hp E). }
  assert (Hclr : forall s t i, P (pmgr s) -> keeps_P (let* e := entry_get s t i in entry_set s t i (setInvalid e))).
  { intros s t i Hp. apply rets_skip. intros e _. by apply entry_set_keeps. }
  assert (Hpart : forall rm s t i v n, (forall s t v n, P (pmgr s) -> keeps_P (rm s t v n)) -> P (pmgr s) ->
    keeps_P (remove_part pfree rm s t i v n)).
  { intros rm s t i v n Hrm Hp. unfold remove_part. apply rets_skip. intros e _. destruct (isValid e); [|exact Hp].
    apply rets_skip. intros _ _. apply (rets_bind _ _ (fun s => P (pmgr s))); [by apply Hrm|]. intros s1 _ Hp1.
    apply (rets_bind _ _ (fun x => P (pmgr (snd x)))); [by apply Hfree|]. intros [[] s2] _ Hp2; [by apply Hclr|exact Hp2]. }
  assert (Hwhole : forall k rm s t i v b, (forall s t v n, P (pmgr s) -> keeps_P (rm s t v n)) -> P (pmgr s) ->
    keeps_P (remove_whole pfree k rm s t i v b)).
  { induction k as [|k IHk]; intros rm s t i v b Hrm Hp; [done|]. cbn [remove_whole]. apply rets_skip. intros e _.
    apply (rets_bind _ _ (fun s => P (pmgr s))); [|intros s1 _ Hp1; by apply IHk].
    destruct (isValid e); [|exact Hp]. destruct (isLeaf e); [by apply entry_set_keeps|].
    apply (rets_bind _ _ (fun s => P (pmgr s))); [by apply Hrm|]. intros s1 _ Hp1.
    apply (rets_bind _ _ (fun x => P (pmgr (snd x)))); [by apply Hfree|]. intros [f s2] _ Hp2.
    apply rets_skip. intros _ _. by apply Hclr. }
  induction l as [|l IH]; intros s t v n Hp; rewrite removeMapping_phases; unfold rphase1, rphase23.
  all: apply (rets_bind _ _ (fun x => P (pmgr (fst (fst x))))).
  1,3: destruct (_ =? 0); [exact Hp|]; apply (rets_bind _ _ (fun s => P (pmgr s))); [by apply Hpart|by intros s1 _ Hp1].
  all: intros [[s1 v1] n1] _ Hp1; apply (rets_bind _ _ (fun s => P (pmgr s))); [by apply Hwhole|];
    intros s2 _ Hp2; destruct (_ =? 0); [exact Hp2|]; by apply Hpart.
Qed.
End Keep.

(** ** Leaves and the pages they translate *)
Lemma div_up (lv l : nat) v v' : (lv <= l)%nat -> v / big lv = v' / big lv -> v / big l = v' / big l.
Proof.
  intros Hl E. pose proof (big_pos lv) as HB.
  assert (Hc : exists c, 0 < c /\ big l = big lv * c).
  { exists (2 ^ (9 * (Z.of_nat l - Z.of_nat lv))). split; [apply Z.pow_pos_nonneg; lia|].
    unfold big. rewrite <- Z.pow_add_r by lia. f_equal. lia. }
  destruct Hc as (c & Hc & ->). by rewrite <- !Z.div_div, E by lia.
Qed.
Lemma walk_block l m t v v' lv p q :
  walk l m t v = Some (lv, p, q) -> v / big lv = v' / big lv ->
  walk l m t v' = Some (lv, p - v mod big lv + v' mod big lv, q).
Proof.
  revert t. induction l as [|l IH]; intros t W E; pose proof (walk_level _ _ _ _ _ _ _ W) as Hl;
    cbn in W |- *; (destruct (m !! t) as [es|]; [|done]);
    (match goal with |- context [idx ?k v'] => replace (idx k v') with (idx k v) by (unfold idx; by rewrite (div_up lv k v v' Hl E)) end);
    (destruct (es !! _) as [e|]; [|done]); (destruct (isValid e); [|done]);
    (destruct (isLeaf e); [injection W as <- <- <-; do 3 f_equal; lia|]).
  - done.
  - by apply IH.
Qed.
(** A page translated after everything else stayed has a leaf of its own. *)
Lemma walk_single m m' t v lv p q :
  0 <= v < 2 ^ 27 -> walk 2 m t v = None -> walk 2 m' t v = Some (lv, p, q) ->
  (forall x, 0 <= x < 2 ^ 27 -> x <> v -> walk 2 m' t x = walk 2 m t x) -> lv = 0%nat.
Proof.
  intros Hv Hn W Hsame. destruct lv as [|lv]; [done|exfalso]. pose proof (walk_level _ _ _ _ _ _ _ W) as Hl.
  pose proof (big_pos lv). assert (HD : 0 < big (S lv)) by apply big_pos. pose proof (Z.mod_pos_bound v (big (S lv)) HD).
  assert (Hb : 512 <= big (S lv)) by (rewrite big_S; lia).
  set (x := if decide (v mod big (S lv) = 0) then v + 1 else v - v mod big (S lv)).
  assert (Hx : x / big (S lv) = v / big (S lv) /\ x <> v).
  { unfold x. destruct decide; (split; [apply div_same; [done|]; lia|lia]). }
  destruct Hx as [Ex Hne]. assert (Hr : 0 <= x < 2 ^ 27).
  { pose proof (div_up (S lv) 3 x v ltac:(lia) Ex) as E3. destruct (sv39_span v Hv) as [E0 _]. rewrite E0 in E3.
    change (big 3) with (2 ^ 27) in E3. pose proof (Z.div_mod x (2 ^ 27) ltac:(lia)). pose proof (Z.mod_pos_bound x (2 ^ 27) ltac:(lia)). lia. }
  pose proof (walk_block 2 m' t v x _ _ _ W (eq_sym Ex)) as Wx. rewrite (Hsame x Hr Hne) in Wx.
  pose proof (walk_block 2 m t x v _ _ _ Wx Ex). congruence.
Qed.
(** A range whose pages are not translated, or by leaves of their own, is crossed
    by no big page. *)
Lemma small_clear m t v n :
  0 <= v -> 0 < n -> v + n <= 2 ^ 27 -> (forall x lv p q, v <= x < v + n -> walk 2 m t x = Some (lv, p, q) -> lv = 0%nat) ->
  no_straddle 2 m t v n.
Proof.
  intros Hv Hn0 Hn Hs x lv p q Ex W. unfold clear. pose proof (big_pos lv) as HD. pose proof (Z.mod_pos_bound x (big lv) HD).
  set (b := x - x mod big lv). destruct (Z.le_gt_cases (b + big lv) v); [lia|]. destruct (Z.le_gt_cases (v + n) b); [lia|].
  destruct (decide (lv = 0%nat)) as [->|Hne]; [change (big 0) with 1 in *; lia|exfalso]. apply Hne.
  assert (E : x / big lv = Z.max b v / big lv) by (symmetry; apply div_same; lia).
  apply (Hs (Z.max b v) lv (p - x mod big lv + Z.max b v mod big lv) q); [lia|]. by apply (walk_block 2 m t x).
Qed.

Import Vmar Pager Ld Umem.
Section Kernel.
Context {S : Type} `{!INodeOps S} (junk : Segment) (depth : nat).
Notation PW := (@PW S).
Notation with_pmgr := (@PagerClaims.with_pmgr S).
Implicit Types (w : PW) (u : US (S := S)) (s : PT PW).

(** ** The page allocator inside the state of the pagers *)
Definition pw_avail w (p : Z) : Prop := PageAlloc.page_free (pmgr w) p = true.
Definition pw_ok w : Prop := PageAlloc.pm_ok (pmgr w).
Definition pw_held (N : Z) w (H : gset Z) : Prop := PagePool.pool_ok N (pmgr w) H.
#[export] Instance pw_page_allocator : PageAlloc.PageAllocator (pw_alloc (S := S)) pw_avail pw_ok.
Proof.
  split.
  - intros w p. exact (@PageAlloc.pa_range _ _ _ _ PageAlloc.buddy_page_allocator (pmgr w) p).
  - intros w n Ho Hn. unfold pw_alloc. destruct (@PageAlloc.pa_outcome _ _ _ _ PageAlloc.buddy_page_allocator (pmgr w) n Ho Hn) as [->|(p & a & ->)]; [by left|].
    right. by do 2 eexists.
  - intros w n p w' Ho Hn. unfold pw_alloc. destruct (Buddy.Buddy.alloc (pmgr w) n) as [[q a]| | |] eqn:E; try done.
    intros [= <- <-]. exact (@PageAlloc.pa_done _ _ _ _ PageAlloc.buddy_page_allocator (pmgr w) n q a Ho Hn E).
  - intros w Ho. unfold pw_alloc. destruct (Buddy.Buddy.alloc (pmgr w) 1) as [[q a]| | |] eqn:E; try done. intros _.
    exact (@PageAlloc.pa_single _ _ _ _ PageAlloc.buddy_page_allocator (pmgr w) Ho E).
Qed.
#[export] Instance pw_page_return N : PageReturn (pw_free (S := S)) (pw_held N).
Proof.
  intros w H q Hh Hq. destruct (PagePool.pool_free N (pmgr w) H q Hh Hq) as (a & E & Ha). unfold pw_free. rewrite E. cbn [obind]. eauto.
Qed.
Lemma pool_pm n a H : PagePool.pool_ok n a H -> PageAlloc.pm_ok a.
Proof. intros (_ & k & l & r & L). exists k, l, r. apply L. Qed.
Lemma pool_pages n a H p :
  PagePool.pool_ok n a H -> PageAlloc.page_free a p = true <-> Buddy.start a <= p < Buddy.end_ a /\ p ∉ H.
Proof.
  intros (_ & k & l & r & L). pose proof (PageAlloc.ld_inv _ _ _ _ _ L) as I. rewrite (PageAlloc.page_free_iff a k l r p I). split.
  - intros Hf. split; [apply (PageAlloc.ld_cover _ _ _ _ _ L); by left|]. intros Hp.
    assert (HL : PagePool.ones H !! p = Some 0%nat) by by apply lookup_gset_to_gmap_Some.
    destruct (PageAlloc.ld_used _ _ _ _ _ L _ _ HL) as [Hu _]. apply PageAlloc.used_in in Hu as (_ & _ & Hu); [|apply I].
    apply (Hu p); [cbn; lia|done].
  - intros [Hr Hp]. apply (PageAlloc.ld_cover _ _ _ _ _ L) in Hr as [?|Hh]; [done|]. by apply PagePool.held_ones in Hh.
Qed.
(** [w'] is [w] with another allocator state, in which the pages [H'] are handed
    out. *)
Definition grown (N : Z) (H : gset Z) w w' (H' : gset Z) : Prop :=
  exists a, w' = with_pmgr w a /\ H ⊆ H' /\ PagePool.pool_ok N a H' /\
    Buddy.start a = Buddy.start (pmgr w) /\ Buddy.end_ a = Buddy.end_ (pmgr w).
Lemma grown_alloc N H w0 w q w' :
  (exists H', grown N H w0 w H') -> pw_alloc w 1 = Done (q, w') -> exists H', grown N H w0 w' H'.
Proof.
  intros (H' & a & -> & HH & Hp & Hs & He). unfold pw_alloc. cbn.
  destruct (Buddy.Buddy.alloc a 1) as [[p b]| | |] eqn:E; try done. intros [= <- <-].
  destruct Hp as (Hn & k & l & r & L). destruct (PageAlloc.Led_alloc a _ b 1 p k l r L ltac:(lia) E) as (l' & r' & L' & Es & Ee).
  exists ({[p]} ∪ H'), b. split; [done|]. split; [set_solver|]. split; [|split; congruence]. split; [by rewrite Es, Ee|].
  exists k, l', r'. unfold PagePool.ones. by rewrite gset_to_gmap_union_singleton.
Qed.

(** The table at [r] belongs to the kernel. *)
Definition Tab (N : Z) (r : Z) s (H : gset Z) : Prop :=
  Owned (pw_held N) 2 r s H /\ ~ pw_avail (PageTable.pmgr s) r.
Lemma Tab_Own N r s H : Tab N r s H -> Own pw_avail pw_ok 2 r s.
Proof.
  intros ((T & Hh & Ho) & Hr). split; [done|]. split; [by eapply pool_pm|]. intros x Hx.
  destruct (decide (x = r)) as [->|Hne]; [done|]. unfold pw_avail. rewrite (pool_pages _ _ _ _ Hh). intros [_ Hn]. by apply Hn, Ho.
Qed.
Notation few := (few pw_avail).
Notation spends := (spends pw_avail).

(** One page is mapped into the kernel's table: the table grows by pages that
    were free, everything else stays. *)
Lemma map_page N r s H v p :
  Tab N r s H -> 0 <= v < 2 ^ 27 -> 0 <= p -> p + 1 <= 2 ^ 44 -> walk 2 (pmem s) r v = None ->
  (createMapping pw_alloc 2 s r v p 1 7 = Panic /\ few 6 s) \/
  exists s' H', createMapping pw_alloc 2 s r v p 1 7 = Done s' /\ Tab N r s' H' /\ spends 6 s s' /\
    grown N H (PageTable.pmgr s) (PageTable.pmgr s') H' /\ walk 2 (pmem s') r v = Some (0%nat, p, 7) /\
    (forall x, 0 <= x < 2 ^ 27 -> x <> v -> walk 2 (pmem s') r x = walk 2 (pmem s) r x) /\
    (forall x, x ∈ H -> ~ inn 2 (pmem s) r x -> ~ inn 2 (pmem s') r x /\ pmem s' !! x = pmem s !! x).
Proof.
  intros HT Hv Hp0 Hp1 Hw. pose proof (Tab_Own N r s H HT) as HO. destruct HT as ((T & Hh & Ho) & Hr).
  destruct (sv39_span v Hv) as [S1 S2].
  assert (Hgr : keeps_P (fun w => exists H', grown N H (PageTable.pmgr s) w H') (createMapping pw_alloc 2 s r v p 1 7)).
  { apply createMapping_keeps; [intros a q a' Ha Hq; by apply (grown_alloc N H _ a q)|]. exists H, (pmgr (PageTable.pmgr s)).
    split; [by destruct (PageTable.pmgr s)|]. done. }
  destruct (createMapping_CM pw_alloc pw_avail pw_ok 2 s r v p 1 7 HO) as [?|(s' & E & (HO' & Ha & Hn & Hf) & M & Sp)]; try lia.
  { split; [lia|]. by split. }
  { rewrite S2. change (big 3) with (2 ^ 27). lia. }
  { apply small_clear; try lia. intros x lv p0 q Hx Wx. replace x with v in Wx by lia. congruence. }
  { by left. }
  right. rewrite E in Hgr |- *. destruct Hgr as (H' & Hg). pose proof Hg as (a & Ea & HH & Hpool & Hst & Hen).
  assert (Hh' : pw_held N (PageTable.pmgr s') H') by (by rewrite Ea).
  assert (Hsame : forall x, 0 <= x < 2 ^ 27 -> x <> v -> walk 2 (pmem s') r x = walk 2 (pmem s) r x).
  { intros x Hx Hne. destruct (M x) as [_ ->]; [|done|lia]. rewrite S1. by apply sv39_span. }
  destruct (M v eq_refl) as [[lv W] _]; [lia|]. rewrite Z.sub_diag, Z.add_0_r in W.
  pose proof (walk_single _ _ _ _ _ _ _ Hv Hw W Hsame) as ->.
  exists s', H'. split; [done|]. split; [|split; [exact Sp|split; [done|split; [done|split; [done|]]]]].
  - split; [|intros Hx; by apply Hr, Ha]. split; [apply HO'|]. split; [done|]. intros x Hx Hne.
    destruct (Hn x Hx) as [Hi|Hi]; [by apply HH, Ho|]. destruct (decide (x ∈ H')) as [|Hni]; [done|exfalso].
    apply (proj2 (proj2 HO') x Hx). unfold pw_avail in *. rewrite (pool_pages _ _ _ _ Hh) in Hi.
    rewrite Ea. cbn. rewrite (pool_pages _ _ _ _ Hpool), Hst, Hen. split; [apply Hi|done].
  - intros x Hx Hni. assert (~ pw_avail (PageTable.pmgr s) x).
    { unfold pw_avail. rewrite (pool_pages _ _ _ _ Hh). by intros [_ ?]. }
    split; [|by apply Hf]. intros Hi. by destruct (Hn x Hi).
Qed.

(** ** Stores through the window *)

(** [u] is a state in which a window of the object [o] is open at page [ws]; [u0]
    is the state in which it was opened. *)
Record Win (N : Z) (H0 : gset Z) u0 (o ws g : Z) (ps : list (option Z)) u : Prop := {
  wi_maps : u_maps u = u_maps u0 /\ u_root u = u_root u0 /\ k_maps u = k_maps u0 /\ k_root u = k_root u0 /\
    mapper_second u = mapper_second u0;
  wi_world : exists a m, world u = with_mem (with_pmgr (world u0) a) m /\ Buddy.start a = Buddy.start (pmgr (world u0)) /\
    Buddy.end_ a = Buddy.end_ (pmgr (world u0));
  wi_vmo : vmos (world u0) !! o = Some (VMOPaged ps g);
  wi_tab : exists H, H0 ⊆ H /\ Tab N (k_root u0) (tabs u) H;
  wi_out : forall v, 0 <= v < 2 ^ 27 -> ~ ws <= v < ws + Z.of_nat (length ps) ->
    walk 2 (pmem (tabs u)) (k_root u0) v = walk 2 (pmem (tabs u0)) (k_root u0) v;
  wi_in : forall k, 0 <= k < Z.of_nat (length ps) -> walk 2 (pmem (tabs u)) (k_root u0) (ws + k) = None \/
    exists p, ps !! Z.to_nat k = Some (Some p) /\ walk 2 (pmem (tabs u)) (k_root u0) (ws + k) = Some (0%nat, p, 7);
  wi_frame : forall x, x ∈ H0 -> ~ inn 2 (pmem (tabs u0)) (k_root u0) x ->
    ~ inn 2 (pmem (tabs u)) (k_root u0) x /\ pmem (tabs u) !! x = pmem (tabs u0) !! x;
  wi_spent : exists F : list Z, NoDup F /\ spends (6 * length F) (tabs u0) (tabs u) /\
    forall k, k ∈ F -> 0 <= k < Z.of_nat (length ps) /\ walk 2 (pmem (tabs u)) (k_root u0) (ws + k) <> None
}.
(** Where byte [o] of the object lies. *)
Definition tgt (ps : list (option Z)) (o : Z) : Z :=
  default 0 (default None (ps !! Z.to_nat (o / 4096))) * 4096 + o mod 4096.

Lemma page_of ws o : 0 <= ws < 2 ^ 27 -> 0 <= o < 2 ^ 39 ->
  addr2pn (ws * 4096 + o) = ws + o / 4096 /\ addr2offset (ws * 4096 + o) = o mod 4096.
Proof.
  intros Hw Ho. split.
  - rewrite PagerClaims.addr2pn_div, Z.add_comm, Z.div_add by lia. lia.
  - unfold addr2offset. change (pageSize - 1) with (Z.ones 12). rewrite Z.land_ones by lia. change (2 ^ 12) with 4096.
    by rewrite Z.add_comm, Z.mod_add by lia.
Qed.
(** The kernel's find on an address of the window. *)
Lemma find_window pre m addr :
  Forall (fun x => vpn x < vpn m) pre -> wfm m -> vpn m <= addr2pn addr < vpn m + len m ->
  find (pre ++ [m]) addr = Done (Some m).
Proof.
  intros Hp Hm Ha. unfold find. rewrite filter_app.
  assert (Hl : filter (fun x => vpn x <= addr2pn addr) [m] = [m]).
  { unfold filter, list_filter. by rewrite decide_True by lia. }
  rewrite Hl, last_snoc. unfold m_contains. rewrite vend_wf by done.
  destruct (Z.leb_spec (vpn m) (addr2pn addr)); [|lia]. destruct (Z.leb_spec (addr2pn addr) (vpn m + len m - 1)); [done|lia].
Qed.

Section Window.
Context (N : Z) (H0 : gset Z) (u0 : US (S := S)) (o ws g : Z) (ps : list (option Z)) (pre : list PageMapping).
Notation n := (Z.of_nat (length ps)).
Notation wm := (mkMapping ws n 0 o 7 file shared).
Context (Hmaps : k_maps u0 = pre ++ [wm]) (Hpre : Forall (fun x => vpn x < ws) pre)
  (Hws : 0 < ws) (Hend : ws + n <= 2 ^ 27) (Hn : 0 < n).
Notation Win := (Win N H0 u0 o ws g ps).

Lemma wm_wf : wfm wm.
Proof. unfold wfm. cbn. lia. Qed.
(** At most six pages were taken for each page of the window that has been touched. *)
Lemma touched_fewer (F : list Z) : NoDup F -> (forall k, k ∈ F -> 0 <= k < n) -> (length F <= length ps)%nat.
Proof.
  intros Hd Hr. assert (F ⊆+ seqZ 0 n) as H%submseteq_length.
  { apply NoDup_submseteq; [done|]. intros k Hk%Hr. apply elem_of_seqZ. lia. }
  rewrite length_seqZ in H. lia.
Qed.
Lemma Win_few u k : Win u -> 0 <= k < n -> walk 2 (pmem (tabs u)) (k_root u0) (ws + k) = None -> few 6 (tabs u) -> few (6 * length ps) (tabs u0).
Proof.
  intros W Hk Hw Hf. destruct (wi_spent _ _ _ _ _ _ _ _ W) as (F & Hd & Sp & HF).
  pose proof (touched_fewer (k :: F)) as Hl. cbn [length] in Hl. eapply few_le; [|exact (spends_few _ _ _ _ _ Sp Hf)].
  assert (Datatypes.S (length F) <= length ps)%nat; [apply Hl|lia].
  - constructor; [|done]. intros Hin. by destruct (HF k Hin).
  - intros j [->|Hj]%elem_of_cons; [done|by apply HF].
Qed.
Lemma store_hit u off p b :
  Win u -> 0 <= off < n * 4096 -> ps !! Z.to_nat (off / 4096) = Some (Some p) ->
  walk 2 (pmem (tabs u)) (k_root u0) (ws + off / 4096) = Some (0%nat, p, 7) ->
  store_pa u (ws * 4096 + off) = Some (tgt ps off) /\ Win (set_byte u (tgt ps off) b).
Proof.
  intros W Ho Hp Hw. destruct (page_of ws off) as [E1 E2]; [lia..|].
  pose proof (wi_maps _ _ _ _ _ _ _ _ W) as (M1 & M2 & M3 & M4 & M5). split.
  - unfold store_pa. rewrite M4, E1, E2, Hw. unfold tgt. by rewrite Hp.
  - destruct W as [W1 (a & m & Ea & Es) W3 W4 W5 W6 W7 W8]. split; auto.
    cbn. unfold world in *. cbn. rewrite Ea. by exists a, (fun x => if x =? tgt ps off then b else m x).
Qed.

Lemma kstore_ok u off p b :
  Win u -> pw_held N (world u0) H0 -> 0 <= off < n * 4096 -> ps !! Z.to_nat (off / 4096) = Some (Some p) -> 0 <= p < 2 ^ 44 ->
  (kstore junk depth u (ws * 4096 + off) b = Panic /\ few (6 * length ps) (tabs u0)) \/
  exists u', kstore junk depth u (ws * 4096 + off) b = Done u' /\ Win u' /\
    forall y, mem (world u') y = if y =? tgt ps off then b else mem (world u) y.
Proof.
  intros W Hh Ho Hp Hpr. destruct (page_of ws off) as [E1 E2]; [lia..|]. set (k := off / 4096) in *.
  assert (Hk : 0 <= k < n) by (subst k; pose proof (Z.div_mod off 4096 ltac:(lia)); pose proof (Z.mod_pos_bound off 4096 ltac:(lia)); lia).
  pose proof (wi_maps _ _ _ _ _ _ _ _ W) as (M1 & M2 & M3 & M4 & M5). unfold kstore.
  destruct (wi_in _ _ _ _ _ _ _ _ W k Hk) as [Hw|(p' & Hp' & Hw)].
  2:{ right. assert (p' = p) as -> by congruence. destruct (store_hit u off p b W Ho Hp Hw) as [-> W']. by eexists. }
  assert (store_pa u (ws * 4096 + off) = None) as ->.
  { unfold store_pa. by rewrite M4, E1, Hw. }
  unfold pagefaultHandler, pfhandler. cbn [kvmar mappings root pt]. rewrite M3, Hmaps.
  rewrite (find_window pre wm) by (try exact wm_wf; try exact Hpre; cbn; lia). cbn [obind].
  unfold m_req, pw_req. cbn [vmo offset vpn perm].
  destruct (wi_world _ _ _ _ _ _ _ _ W) as (a & m & Ea & Es & Ee). pose proof (wi_vmo _ _ _ _ _ _ _ _ W) as Hvmo.
  unfold req, vmo_get. fold (world u). rewrite Ea. cbn [vmos with_mem PagerClaims.with_pmgr]. rewrite Hvmo. cbn [obind].
  rewrite E1. replace (u64 (0 + u64 (ws + k - ws))) with k by (rewrite !u64_small; rewrite ?u64_small; lia).
  destruct (Z.ltb_spec k n) as [_|?]; [|lia]. cbn [passert obind]. unfold aget. destruct (Z.ltb_spec k 0) as [?|_]; [lia|]. rewrite Hp. cbn [obind].
  rewrite Z.sub_0_r, !u64_small by (rewrite ?u64_small; lia).
  destruct (wi_tab _ _ _ _ _ _ _ _ W) as (H & HH & HT).
  replace (mkPT (pmem (tabs u)) _) with (tabs u).
  2:{ unfold world in Ea. destruct (tabs u) as [pm w]. cbn in *. by rewrite Ea. }
  rewrite M4.
  destruct (map_page N (k_root u0) (tabs u) H (ws + k) p HT) as [[-> Hoom]|(s' & H' & -> & HT' & Sp & Hg & Wk & Wo & Wf)]; try lia; [done|..].
  { left. split; [done|]. by apply (Win_few u k). }
  right. cbn [obind mappings root pt set_kvmar]. set (u1 := mkUS (u_maps u) (u_root u) (pre ++ [wm]) (k_root u0) (mapper_second u) s').
  destruct Hg as (a' & Ea' & HHg & Hpool & Es' & Ee').
  assert (Hmem : mem (world u1) = mem (world u)) by (unfold u1, world; cbn; by rewrite Ea').
  assert (W1 : Win u1).
  { split; [by rewrite Hmaps| |done| | | | |].
    - exists a', m. unfold world in *. cbn. rewrite Ea'. rewrite Ea in *. cbn in *. split; [done|]. split; congruence.
    - exists H'. split; [set_solver|exact HT'].
    - intros v Hv Hout. change (tabs u1) with s'. rewrite Wo by lia. by apply W.
    - intros j Hj. change (tabs u1) with s'. destruct (decide (j = k)) as [->|Hne]; [right; by exists p|]. rewrite Wo by lia. by apply W.
    - intros x Hx Hni. change (tabs u1) with s'. destruct (wi_frame _ _ _ _ _ _ _ _ W x Hx Hni) as [F1 F2].
      destruct (Wf x (HH x Hx) F1) as [F3 F4]. split; [done|]. by rewrite F4.
    - destruct (wi_spent _ _ _ _ _ _ _ _ W) as (F & Hd & SpF & HF). exists (k :: F). change (tabs u1) with s'. split_and!.
      + constructor; [|done]. intros Hin. by destruct (HF k Hin).
      + replace (6 * length (k :: F))%nat with (6 * length F + 6)%nat by (cbn [length]; lia). by eapply spends_trans.
      + intros j Hj. destruct (decide (j = k)) as [->|Hne]; [split; [done|congruence]|]. apply elem_of_cons in Hj as [?|Hj]; [done|].
        destruct (HF j Hj). rewrite Wo by lia. done. }
  destruct (store_hit u1 off p b W1 Ho Hp) as [Es1 W2]; [exact Wk|].
  change (set_kvmar u _ _) with u1. exists (set_byte u1 (tgt ps off) b). rewrite Es1. split; [done|]. split; [done|].
  intros y. rewrite <- Ea, <- Hmem. reflexivity.
Qed.

(** Byte [x] of the object is in memory. *)
Definition present (x : Z) : Prop := exists p, ps !! Z.to_nat (x / 4096) = Some (Some p) /\ 0 <= p < 2 ^ 44.
Context (Hinj : forall i j p, ps !! i = Some (Some p) -> ps !! j = Some (Some p) -> i = j).
Lemma tgt_inj x y : 0 <= x -> 0 <= y -> present x -> present y -> tgt ps x = tgt ps y -> x = y.
Proof.
  intros Hx Hy (p & Hp & Rp) (q & Hq & Rq). unfold tgt. rewrite Hp, Hq. cbn. intros E.
  pose proof (Z.mod_pos_bound x 4096 ltac:(lia)). pose proof (Z.mod_pos_bound y 4096 ltac:(lia)).
  assert (p = q) as <- by lia. pose proof (Hinj _ _ p Hp Hq) as Ei.
  assert (x / 4096 = y / 4096) by (apply Z2Nat.inj; [apply Z.div_pos; lia..|done]).
  pose proof (Z.div_mod x 4096 ltac:(lia)). pose proof (Z.div_mod y 4096 ltac:(lia)). lia.
Qed.
Lemma kmove_ok bs : forall u off,
  Win u -> pw_held N (world u0) H0 -> 0 <= off -> off + zlen bs <= n * 4096 ->
  (forall x, off <= x < off + zlen bs -> present x) ->
  (kmove junk depth u (ws * 4096 + off) bs = Panic /\ few (6 * length ps) (tabs u0)) \/
  exists u', kmove junk depth u (ws * 4096 + off) bs = Done u' /\ Win u' /\
    (forall j, 0 <= j < zlen bs -> mem (world u') (tgt ps (off + j)) = vat bs j) /\
    forall y, (forall j, 0 <= j < zlen bs -> y <> tgt ps (off + j)) -> mem (world u') y = mem (world u) y.
Proof.
  induction bs as [|b bs IH]; intros u off W Hh Ho Hoff Hpr.
  { right. exists u. split; [done|]. split; [done|]. split; [change (zlen []) with 0; lia|done]. }
  assert (Hz : zlen (b :: bs) = zlen bs + 1) by (unfold zlen; cbn; lia). rewrite Hz in *. assert (0 <= zlen bs) by (unfold zlen; lia).
  cbn [kmove]. destruct (Hpr off) as (p & Hp & Rp); [lia|].
  destruct (kstore_ok u off p b W Hh) as [[-> ?]|(u1 & -> & W1 & Hm1)]; [lia|done..|by left|]. cbn [obind].
  rewrite u64_small by lia. replace (ws * 4096 + off + 1) with (ws * 4096 + (off + 1)) by lia.
  destruct (IH u1 (off + 1) W1 Hh) as [?|(u' & -> & W' & Hin & Hout)]; [lia|lia|intros x Hx; apply Hpr; lia|by left|].
  right. exists u'. split; [done|]. split; [done|]. split.
  - intros j Hj. destruct (decide (j = 0)) as [->|Hne].
    + rewrite Z.add_0_r. rewrite Hout, Hm1, Z.eqb_refl; [done|]. intros i Hi E.
      apply tgt_inj in E; [lia|lia|lia|apply Hpr; lia|apply Hpr; lia].
    + replace (off + j) with (off + 1 + (j - 1)) by lia. rewrite Hin by lia. unfold vat. f_equal.
      replace (Z.to_nat j) with (Datatypes.S (Z.to_nat (j - 1))) by lia. done.
  - intros y Hy. rewrite Hout, Hm1.
    + destruct (Z.eqb_spec y (tgt ps off)) as [->|]; [|done]. destruct (Hy 0); [lia|]. f_equal. lia.
    + intros j Hj ->. apply (Hy (j + 1)); [lia|]. f_equal. lia.
Qed.
End Window.

(** ** Opening and closing the window *)
Record KOK (N : Z) (H : gset Z) u : Prop := {
  ko_tab : Tab N (k_root u) (tabs u) H;
  ko_maps : wfl (k_maps u);
  ko_below : Forall (fun m => vend m < mapper_second u) (k_maps u);
  ko_clear : forall v, mapper_second u <= v < 2 ^ 27 -> walk 2 (pmem (tabs u)) (k_root u) v = None;
  ko_second : 0 < mapper_second u
}.
Lemma below_vpn l x : wfl l -> Forall (fun m => vend m < x) l -> Forall (fun m => vpn m < x) l.
Proof.
  intros [Hw _] Hb. rewrite Forall_forall in *. intros m Hm. specialize (Hw m Hm). specialize (Hb m Hm).
  rewrite vend_wf in Hb by done. destruct Hw as (? & ? & ?). lia.
Qed.
Lemma set_insert_last m l : Forall (fun x => vpn x < vpn m) l -> set_insert m l = l ++ [m].
Proof.
  induction 1 as [|x l Hx Hl IH]; [done|]. cbn. destruct (Z.ltb_spec (vpn m) (vpn x)); [lia|].
  destruct (Z.ltb_spec (vpn x) (vpn m)); [|lia]. by rewrite IH.
Qed.
Lemma set_next_at pre m post : wfl (pre ++ m :: post) -> set_next (vpn m) (pre ++ m :: post) = head post.
Proof.
  intros Hw. unfold set_next. rewrite filter_app, (filter_none _ pre).
  2:{ intros x Hx. pose proof (proj1 (wfl_vpn pre m post x Hw) Hx). lia. }
  cbn [app]. rewrite filter_cons_False by lia. rewrite filter_all; [done|]. intros x Hx. pose proof (proj2 (wfl_vpn pre m post x Hw) Hx).
  assert (wfm m) as Hm by (apply wfl_app in Hw as (_ & [Hf _] & _); by inversion Hf). rewrite vend_wf in H by done. destruct Hm as (? & ? & ?). lia.
Qed.
(** unmap of the last mapping. *)
Lemma unmap_last pre m (v v1 : VMAR PW) :
  mappings v = pre ++ [m] -> wfl (pre ++ [m]) -> remove_mapping pw_free v m = Done v1 ->
  unmap pw_alloc pw_free (pw_req junk depth) v (vsegment m) = Done (mkVMAR pre (root v1) (pt v1)).
Proof.
  intros Hv Hw Hr. unfold unmap. rewrite Hv.
  assert (Hm : wfm m) by (apply wfl_app in Hw as (_ & [Hf _] & _); by inversion Hf).
  assert (Hseg : forall x, x ∈ pre -> seg_bool (seg_and (vsegment x) (vsegment m)) = false).
  { intros x Hx. apply wfl_app in Hw as (_ & _ & Hc). pose proof (Hc x m Hx ltac:(set_solver)) as Ha. unfold apart in Ha.
    unfold seg_bool, seg_and. cbn [vsegment sl sr]. rewrite kmin_spec, kmax_spec. apply Z.leb_gt. lia. }
  assert (Hend : forall f, unmap_loop pw_alloc pw_free (pw_req junk depth) (Datatypes.S f) v (vsegment m) (Some m) =
    Done (mkVMAR pre (root v1) (pt v1))).
  { intros f. cbn [unmap_loop]. assert (seg_and (vsegment m) (vsegment m) = vsegment m) as ->.
    { unfold seg_and. cbn [vsegment sl sr]. rewrite kmin_spec, kmax_spec, Z.max_id, Z.min_id. done. }
    unfold seg_bool at 1. cbn [vsegment sl sr]. pose proof Hm as (M1 & M2 & M3). rewrite vend_wf by done.
    destruct (Z.leb_spec (vpn m) (vpn m + len m - 1)); [|lia].
    unfold left_part, right_part, seg_bool. cbn [vsegment sl sr]. rewrite !vend_wf by done. rewrite (u64_small (vpn m - 1)), (u64_small (vpn m + len m - 1 + 1)) by lia.
    destruct (Z.leb_spec (vpn m) (vpn m - 1)); [lia|]. cbn [obind].
    destruct (Z.leb_spec (vpn m + len m - 1 + 1) (vpn m + len m - 1)); [lia|]. cbn [obind]. rewrite Hr. cbn [obind].
    assert (Hm1 : mappings v1 = pre ++ [m]).
    { unfold remove_mapping in Hr. destruct (removeMapping _ _ _ _ _ _); try done. injection Hr as <-. exact Hv. }
    assert (He : erase v1 m = mkVMAR pre (root v1) (pt v1)).
    { unfold erase. f_equal. unfold set_erase. rewrite Hm1, filter_app, filter_all.
      - rewrite filter_cons_False by naive_solver. apply app_nil_r.
      - intros x Hx. pose proof (proj1 (wfl_vpn pre m [] x Hw) Hx). lia. }
    rewrite He. cbn [mappings]. unfold set_next. rewrite filter_none; [by destruct f|].
    intros x Hx. pose proof (proj1 (wfl_vpn pre m [] x Hw) Hx). lia. }
  assert (Hgo : forall post pre1 f, pre = pre1 ++ post -> (length post < f)%nat ->
    unmap_loop pw_alloc pw_free (pw_req junk depth) f v (vsegment m) (head (post ++ [m])) = Done (mkVMAR pre (root v1) (pt v1))).
  { induction post as [|x post IH]; intros pre1 f Hpre Hf; (destruct f as [|f]; [cbn in Hf; lia|]); [apply Hend|].
    cbn [head app hd_error unmap_loop]. rewrite (Hseg x) by (subst pre; set_solver). rewrite Hv.
    replace (set_next (vpn x) (pre ++ [m])) with (head (post ++ [m])).
    - apply (IH (pre1 ++ [x])); [by rewrite <- app_assoc|cbn in Hf; lia].
    - subst pre. rewrite <- app_assoc in *. cbn [app] in *. by rewrite set_next_at. }
  apply (Hgo pre []); [done|]. rewrite length_app. cbn. lia.
Qed.

Lemma free_bounds a q r b : Buddy.Buddy.free a q r = Done b -> Buddy.start b = Buddy.start a /\ Buddy.end_ b = Buddy.end_ a.
Proof.
  unfold Buddy.Buddy.free. destruct (aget _ _) as [v| | |]; try done. cbn [obind]. destruct (passert _); try done. cbn [obind].
  destruct (aset _ _ _) as [l| | |]; try done. cbn [obind]. destruct (Buddy.Buddy.free_up _ _ _ _) as [l2| | |]; try done. cbn [obind].
  destruct (Buddy.Buddy.alloc_node _ _) as [l3| | |]; try done. by intros [= <-].
Qed.
(** Another allocator state over the same pages. *)
Definition shifted w w' : Prop := exists a, w' = with_pmgr w a /\
  Buddy.start a = Buddy.start (pmgr w) /\ Buddy.end_ a = Buddy.end_ (pmgr w).
Lemma shifted_free w0 w q r w' : shifted w0 w -> pw_free w q r = Done w' -> shifted w0 w'.
Proof.
  intros (a & -> & Es & Ee). unfold pw_free. cbn. destruct (Buddy.Buddy.free a q r) as [b| | |] eqn:E; try done. intros [= <-].
  apply free_bounds in E as [E1 E2]. exists b. split; [done|]. split; congruence.
Qed.
Lemma shifted_refl w : shifted w w.
Proof. exists (pmgr w). by destruct w. Qed.

(** A range of own leaves is removed from the kernel's table. *)
Lemma unmap_pages N r s H v n :
  Tab N r s H -> 0 <= v -> 0 < n -> v + n <= 2 ^ 27 ->
  (forall x lv p q, v <= x < v + n -> walk 2 (pmem s) r x = Some (lv, p, q) -> lv = 0%nat) ->
  exists s' H', removeMapping pw_free 2 s r v n = Done s' /\ Tab N r s' H' /\ shifted (PageTable.pmgr s) (PageTable.pmgr s') /\
    Rem (pw_held N) 2 r s H s' H' /\
    (forall x, v <= x < v + n -> walk 2 (pmem s') r x = None) /\
    (forall x, 0 <= x < 2 ^ 27 -> ~ v <= x < v + n -> walk 2 (pmem s') r x = walk 2 (pmem s) r x).
Proof.
  intros (HO & Hr) Hv Hn Hend Hleaf. destruct (sv39_span v) as [S1 S2]; [lia|].
  assert (Hk : keeps_P (shifted (PageTable.pmgr s)) (removeMapping pw_free 2 s r v n)).
  { apply removeMapping_keeps; [intros a q o a' Ha Hq; by apply (shifted_free _ a q o)|apply shifted_refl]. }
  destruct (removeMapping_RM pw_free (pw_held N) 2 s r v n H HO Hv ltac:(lia) Hn) as (s' & H' & E & R & M & _).
  { rewrite S2. change (big 3) with (2 ^ 27). lia. } { by apply small_clear. }
  rewrite E in Hk. cbn in Hk. exists s', H'. split; [done|]. split; [|split; [done|split; [done|split]]].
  - split; [apply R|]. destruct Hk as (a & Ea & Es & Ee). pose proof (rm_own _ _ _ _ _ _ _ R) as (_ & Hh' & _).
    destruct HO as (_ & Hh & _). unfold pw_avail, pw_held in *. rewrite Ea in *. cbn in *. rewrite (pool_pages _ _ _ _ Hh') , Es, Ee.
    rewrite (pool_pages _ _ _ _ Hh) in Hr. intros [Hb Hx]. apply Hr. split; [done|]. intros Hy.
    by destruct (rm_gone _ _ _ _ _ _ _ R r Hy Hx).
  - intros x Hx. apply M; [|done]. rewrite S1. apply sv39_span. lia.
  - intros x Hx Hne. apply M; [|done]. rewrite S1. by apply sv39_span.
Qed.

Section Round.
Context (N : Z) (H : gset Z) (u : US (S := S)) (o g : Z) (ps : list (option Z)).
Notation n := (Z.of_nat (length ps)).
Notation ws := (mapper_second u).
Notation wm := (mkMapping ws n 0 o 7 file shared).
Context (HK : KOK N H u) (Hvmo : vmos (world u) !! o = Some (VMOPaged ps g)) (Hn : 0 < n) (Hend : ws + n <= 2 ^ 27).
Definition opened : US := mkUS (u_maps u) (u_root u) (k_maps u ++ [wm]) (k_root u) (ws + n) (tabs u).

Lemma window_open :
  VMOMapper_new junk depth u o = Done (mkSegment ws (ws + n - 1), opened) /\ Win N H opened o ws g ps opened.
Proof.
  pose proof (ko_second _ _ _ HK). split.
  - unfold VMOMapper_new, vmo_get. rewrite Hvmo. cbn [obind vmo_len]. unfold Vmar.map. cbn [obind kvmar mappings root pt].
    rewrite set_insert_last by (apply below_vpn; apply HK). unfold vsegment, set_kvmar, opened. cbn [mappings root pt].
    rewrite vend_wf by (unfold wfm; cbn; lia). cbn [vpn len]. by rewrite u64_small by lia.
  - split; cbn [opened k_root tabs u_maps u_root k_maps mapper_second]; try done.
    + exists (pmgr (world u)), (mem (world u)). unfold opened, world. cbn. by destruct (PageTable.pmgr (tabs u)).
    + exists H. split; [done|]. apply HK.
    + intros k Hk. left. apply (ko_clear _ _ _ HK). lia.
    + exists []. split; [constructor|]. split; [by apply spends_refl|]. by intros k ?%elem_of_nil.
Qed.

Lemma window_close u1 :
  Win N H opened o ws g ps u1 ->
  exists u2 H2, VMOMapper_drop junk depth u1 (mkSegment ws (ws + n - 1)) = Done u2 /\ KOK N H2 u2 /\
    u_maps u2 = u_maps u /\ u_root u2 = u_root u /\ k_maps u2 = k_maps u /\ k_root u2 = k_root u /\ mapper_second u2 = ws /\
    mem (world u2) = mem (world u1) /\ vmos (world u2) = vmos (world u) /\
    (forall v, 0 <= v < 2 ^ 27 -> walk 2 (pmem (tabs u2)) (k_root u) v = walk 2 (pmem (tabs u)) (k_root u) v) /\
    forall x, x ∈ H -> ~ inn 2 (pmem (tabs u)) (k_root u) x -> x ∈ H2 /\ pmem (tabs u2) !! x = pmem (tabs u) !! x.
Proof.
  intros W. pose proof (ko_second _ _ _ HK) as Hs0. pose proof (wi_maps _ _ _ _ _ _ _ _ W) as (M1 & M2 & M3 & M4 & M5). cbn in M1, M2, M3, M4, M5.
  destruct (wi_tab _ _ _ _ _ _ _ _ W) as (H1 & HH & HT). cbn [opened k_root] in HT.
  destruct (unmap_pages N (k_root u) (tabs u1) H1 ws n HT) as (s' & H' & Er & HT' & Hsh & R & Win' & Wout); [lia..| |].
  { intros x lv p q Hx Wx. pose proof (wi_in _ _ _ _ _ _ _ _ W (x - ws) ltac:(lia)) as Hw. cbn [opened k_root] in Hw.
    replace (ws + (x - ws)) with x in Hw by lia. destruct Hw as [Hw|(p' & _ & Hw)]; congruence. }
  assert (Hwf : wfl (k_maps u ++ [wm])).
  { apply wfl_app. split; [apply HK|]. split; [split; [repeat constructor; cbn; lia|repeat constructor]|].
    intros a b Ha ->%list_elem_of_singleton. pose proof (ko_below _ _ _ HK) as Hb. rewrite Forall_forall in Hb. by apply Hb. }
  assert (Hall : forall v, 0 <= v < 2 ^ 27 -> walk 2 (pmem s') (k_root u) v = walk 2 (pmem (tabs u)) (k_root u) v).
  { intros v Hv. destruct (decide (ws <= v < ws + n)) as [Hi|Hi].
    - rewrite Win' by done. symmetry. apply (ko_clear _ _ _ HK). lia.
    - rewrite Wout by done. by apply (wi_out _ _ _ _ _ _ _ _ W). }
  unfold VMOMapper_drop.
  assert (Hu : unmap pw_alloc pw_free (pw_req junk depth) (kvmar u1) (mkSegment ws (ws + n - 1)) =
    Done (mkVMAR (k_maps u) (k_root u) s')).
  { pose proof (unmap_last (k_maps u) wm (kvmar u1) (mkVMAR (k_maps u ++ [wm]) (k_root u) s')) as Hx.
    unfold vsegment in Hx. rewrite vend_wf in Hx by (unfold wfm; cbn; lia). apply Hx; [done|done|].
    unfold remove_mapping. cbn [kvmar root pt vpn len mappings]. by rewrite M3, M4, Er. }
  rewrite Hu. cbn [obind]. unfold seg_length. cbn [sl sr]. rewrite M5, !u64_small by (rewrite ?u64_small; lia).
  replace (ws + n - (ws + n - 1 - ws + 1)) with ws by lia.
  destruct Hsh as (a & Ea & _). destruct (wi_world _ _ _ _ _ _ _ _ W) as (a1 & m1 & Ew & _).
  eexists _, H'. split; [reflexivity|]. unfold set_kvmar, world in *. cbn [u_maps u_root k_maps k_root mapper_second tabs mappings root pt opened] in *.
  split; [|split; [done|split; [done|split; [done|split; [done|split; [done|split; [by rewrite Ea|split; [by rewrite Ea, Ew|split; [done|]]]]]]]]].
  - split; cbn [k_root tabs k_maps mapper_second]; [exact HT'|apply HK|apply HK| |done].
    intros v Hv. rewrite Hall by lia. by apply HK.
  - intros x Hx Hni. destruct (wi_frame _ _ _ _ _ _ _ _ W x Hx Hni) as [F1 F2]. cbn [opened k_root tabs] in F1, F2. split.
    + destruct (decide (x ∈ H')) as [|Hy]; [done|]. by destruct (rm_gone _ _ _ _ _ _ _ R x (HH x Hx) Hy).
    + rewrite (rm_frame _ _ _ _ _ _ _ R) by done. exact F2.
Qed.
End Round.

(** ** The claims *)

(** The byte that the process sees at [x]. *)
Definition ubyte u (x : Z) : outcome Z :=
  let* pa := transaddr (tabs u) (u_root u) x in Done (mem (world u) pa).
(** The process maps the object [ps] with [m], as VMAR::map leaves it: the pages of
    the mapping are in frames of their own and the process's table, which shares no
    node with the kernel's, leads to them. *)
Record Shows (H : gset Z) u (m : PageMapping) (ps : list (option Z)) (g : Z) : Prop := {
  sh_map : 0 < vpn m /\ 0 < len m /\ vpn m + len m <= 2 ^ 27;
  sh_vmo : vmos (world u) !! vmo m = Some (VMOPaged ps g);
  sh_range : 0 <= offset m /\ offset m + len m <= Z.of_nat (length ps);
  sh_frames : forall i j p, ps !! i = Some (Some p) -> ps !! j = Some (Some p) -> i = j;
  sh_tree : tree 2 (pmem (tabs u)) (u_root u);
  sh_apart : forall x, inn 2 (pmem (tabs u)) (u_root u) x -> x ∈ H /\ ~ inn 2 (pmem (tabs u)) (k_root u) x;
  sh_page : forall k, vpn m <= k < vpn m + len m -> exists p,
    ps !! Z.to_nat (offset m + (k - vpn m)) = Some (Some p) /\ 0 <= p < 2 ^ 44 /\ trans (tabs u) (u_root u) k = Done p
}.
Lemma transaddr_at s r x p : trans s r (x / 4096) = Done p -> 0 <= p < 2 ^ 44 -> 0 <= x -> transaddr s r x = Done (p * 4096 + x mod 4096).
Proof.
  intros E Hp Hx. unfold transaddr. rewrite PagerClaims.addr2pn_div, E. cbn [obind]. rewrite PagerClaims.pn2addr_small by lia.
  unfold addr2offset. change (pageSize - 1) with (Z.ones 12). rewrite Z.land_ones by lia. change (2 ^ 12) with 4096.
  pose proof (Z.mod_pos_bound x 4096 ltac:(lia)). by rewrite u64_small by lia.
Qed.
(** Byte [x] of the process is byte [x - vpn * 4096 + offset * 4096] of the object. *)
Lemma shown_at H u m ps g x :
  Shows H u m ps g -> vpn m * 4096 <= x < (vpn m + len m) * 4096 ->
  let off := x - vpn m * 4096 + offset m * 4096 in
  present ps off /\ transaddr (tabs u) (u_root u) x = Done (tgt ps off).
Proof.
  intros Sh Hx off. pose proof (Z.div_mod x 4096 ltac:(lia)). pose proof (Z.mod_pos_bound x 4096 ltac:(lia)).
  destruct (sh_map _ _ _ _ _ Sh) as (M1 & M2 & M3).
  assert (Ho : off = (offset m + (x / 4096 - vpn m)) * 4096 + x mod 4096) by (subst off; lia).
  assert (Ed : off / 4096 = offset m + (x / 4096 - vpn m)) by (rewrite Ho, Z.div_add_l, (Z.div_small (x mod 4096)) by lia; lia).
  assert (Em : off mod 4096 = x mod 4096) by (rewrite Ho, Z.add_comm, Z.mod_add, Z.mod_mod by lia; done).
  destruct (sh_page _ _ _ _ _ Sh (x / 4096)) as (p & Hp & Rp & Ht); [lia|]. split.
  - exists p. by rewrite Ed.
  - unfold tgt. rewrite Ed, Em, Hp. cbn [default]. apply transaddr_at; [done|done|lia].
Qed.
Lemma trans_frame (s s' : PT PW) r v :
  tree 2 (pmem s) r -> (forall x, inn 2 (pmem s) r x -> pmem s' !! x = pmem s !! x) -> 0 <= v -> trans s' r v = trans s r v.
Proof.
  intros T Hf Hv. rewrite !trans_walk; [by rewrite (walk_frame 2 (pmem s) (pmem s'))|done|done|by apply (tree_frame 2 (pmem s))|done].
Qed.

Lemma copyout_loop_S f u a bs : bs <> [] ->
  copyout_loop junk depth (Datatypes.S f) u a bs =
  let* r := find (u_maps u) a in
  match r with
  | None => Panic
  | Some m =>
      let* (region, u) := VMOMapper_new junk depth u (vmo m) in
      let off := u64 (a - pn2addr (vpn m) + pn2addr (offset m)) in
      let pa_begin := u64 (mapper_start region + off) in
      let pa_end := u64 (pa_begin + zlen bs - 1) in
      let pa_bound := mapper_end region in
      let pa_end := if pa_bound <? pa_end then pa_bound else pa_end in
      let cpylen := u64 (pa_end - pa_begin + 1) in
      if zlen bs <? cpylen then Undef
      else
        let* u := kmove junk depth u pa_begin (take (Z.to_nat cpylen) bs) in
        let* u := VMOMapper_drop junk depth u region in
        copyout_loop junk depth f u (u64 (a + cpylen)) (drop (Z.to_nat cpylen) bs)
  end.
Proof. by destruct bs. Qed.

(** copyout writes the object behind the mapping, from the byte that the first
    address is, as far as the object goes. *)
Lemma copyout_object N H u a bs m ps g :
  KOK N H u -> find (u_maps u) a = Done (Some m) -> vmos (world u) !! vmo m = Some (VMOPaged ps g) ->
  (forall i j p, ps !! i = Some (Some p) -> ps !! j = Some (Some p) -> i = j) ->
  0 <= vpn m < 2 ^ 27 -> 0 <= offset m -> vpn m * 4096 <= a -> bs <> [] ->
  let off := a - vpn m * 4096 + offset m * 4096 in
  off + zlen bs <= Z.of_nat (length ps) * 4096 -> mapper_second u + Z.of_nat (length ps) <= 2 ^ 27 ->
  (forall x, off <= x < off + zlen bs -> present ps x) ->
  (copyout junk depth u a bs = Panic /\ few (6 * length ps) (tabs u)) \/
  exists u' H', copyout junk depth u a bs = Done u' /\ KOK N H' u' /\
    (forall j, 0 <= j < zlen bs -> mem (world u') (tgt ps (off + j)) = vat bs j) /\
    (forall y, (forall j, 0 <= j < zlen bs -> y <> tgt ps (off + j)) -> mem (world u') y = mem (world u) y) /\
    u_root u' = u_root u /\ k_root u' = k_root u /\ k_maps u' = k_maps u /\ mapper_second u' = mapper_second u /\
    (forall v, 0 <= v < 2 ^ 27 -> walk 2 (pmem (tabs u')) (k_root u) v = walk 2 (pmem (tabs u)) (k_root u) v) /\
    forall x, x ∈ H -> ~ inn 2 (pmem (tabs u)) (k_root u) x -> pmem (tabs u') !! x = pmem (tabs u) !! x.
Proof.
  intros HK Hfind Hvmo Hinj M1 R1 Ha Hne off Hb Hend Hpr. pose proof (ko_second _ _ _ HK) as Hs0.
  assert (Hoff : off = a - vpn m * 4096 + offset m * 4096) by reflexivity.
  set (n := Z.of_nat (length ps)) in *. set (ws := mapper_second u) in *.
  assert (Hz : 0 < zlen bs) by (destruct bs; [done|unfold zlen; cbn; lia]).
  destruct (window_open N H u (vmo m) g ps HK Hvmo ltac:(lia) ltac:(lia)) as [Eo W0]. fold n ws in Eo.
  destruct (kmove_ok N H (opened u (vmo m) ps) (vmo m) ws g ps (k_maps u) eq_refl (below_vpn _ _ (ko_maps _ _ _ HK) (ko_below _ _ _ HK))
    Hs0 ltac:(lia) ltac:(lia) Hinj bs (opened u (vmo m) ps) off W0) as [[Ek Hoom]|(u1 & Ek & W1 & Hin & Hout)]; [apply (ko_tab _ _ _ HK)|lia|lia|done|..].
  all: unfold copyout; (destruct (length bs) as [|f] eqn:Ef; [unfold zlen in Hz; lia|]); rewrite copyout_loop_S by done;
    rewrite Hfind; cbn [obind]; rewrite Eo; cbn [obind]; cbv zeta; unfold mapper_start, mapper_end; cbn [sl sr];
    rewrite !PagerClaims.pn2addr_small by lia; change pageSize with 4096;
    rewrite (u64_small (a - vpn m * 4096 + offset m * 4096)) by lia; fold off;
    rewrite (u64_small (ws * 4096 + off)), (u64_small (ws * 4096 + off + zlen bs - 1)), (u64_small ((ws + n - 1) * 4096 + 4096 - 1)) by lia;
    (destruct (Z.ltb_spec ((ws + n - 1) * 4096 + 4096 - 1) (ws * 4096 + off + zlen bs - 1)); [lia|]);
    replace (ws * 4096 + off + zlen bs - 1 - (ws * 4096 + off) + 1) with (zlen bs) by lia; rewrite (u64_small (zlen bs)) by lia;
    (destruct (Z.ltb_spec (zlen bs) (zlen bs)); [lia|]); rewrite firstn_all2 by (unfold zlen; lia); rewrite Ek; cbn [obind].
  { by left. }
  destruct (window_close N H u (vmo m) g ps HK ltac:(lia) ltac:(lia) u1 W1) as
    (u2 & H2 & Ed & HK2 & C1 & C2 & C3 & C4 & C5 & C6 & C7 & C8 & C9).
  fold n ws in Ed. rewrite Ed. cbn [obind]. rewrite skipn_all2 by (unfold zlen; lia).
  right. exists u2, H2. split; [by destruct f|]. split; [done|]. rewrite C6.
  split; [done|]. split; [done|]. repeat (split; [done|]). intros x Hx Hni. by apply C9.
Qed.

(** C16. copyout of a buffer that is not empty into one mapping of a process, where the
    mapping shows a paged object (VMOPaged, one of the two kinds of object) whose pages
    are in memory in frames of their own and the window fits below page 2^27 of the
    kernel: the call ends, and panics only when fewer than six pages for each page of the
    object are free (pages for the kernel's table); otherwise the process sees the bytes
    of the buffer in the range, no other byte of physical memory changes, the process's
    translations stay, and the kernel's address space is what it was: the window is gone,
    its place is free again and every translation is as before. *)
Theorem copyout_exact N H u a bs m ps g :
  KOK N H u -> Shows H u m ps g -> find (u_maps u) a = Done (Some m) -> vpn m * 4096 <= a -> bs <> [] ->
  a + zlen bs <= (vpn m + len m) * 4096 -> mapper_second u + Z.of_nat (length ps) <= 2 ^ 27 ->
  (copyout junk depth u a bs = Panic /\ few (6 * length ps) (tabs u)) \/
  exists u' H', copyout junk depth u a bs = Done u' /\
    (forall x, a <= x < a + zlen bs -> ubyte u' x = Done (vat bs (x - a))) /\
    (forall y, (forall x, a <= x < a + zlen bs -> transaddr (tabs u) (u_root u) x <> Done y) -> mem (world u') y = mem (world u) y) /\
    (forall v, 0 <= v -> trans (tabs u') (u_root u') v = trans (tabs u) (u_root u) v) /\
    KOK N H' u' /\ k_maps u' = k_maps u /\ mapper_second u' = mapper_second u /\
    (forall v, 0 <= v < 2 ^ 27 -> trans (tabs u') (k_root u') v = trans (tabs u) (k_root u) v).
Proof.
  intros HK Sh Hfind Ha Hne Hb Hend. destruct (sh_map _ _ _ _ _ Sh) as (M1 & M2 & M3). destruct (sh_range _ _ _ _ _ Sh) as (R1 & R2).
  set (off := a - vpn m * 4096 + offset m * 4096). assert (Hoff : off = a - vpn m * 4096 + offset m * 4096) by reflexivity.
  destruct (copyout_object N H u a bs m ps g HK Hfind (sh_vmo _ _ _ _ _ Sh) (sh_frames _ _ _ _ _ Sh)) as
    [?|(u' & H' & E & HK' & Hin & Hout & C2 & C4 & C3 & C5 & C8 & C9)]; try lia; try done.
  { intros x Hx. fold off in Hx. replace x with (x - off + a - vpn m * 4096 + offset m * 4096) by lia.
    destruct (shown_at H u m ps g (x - off + a) Sh) as [Hp _]; [lia|done]. }
  { by left. }
  fold off in Hin, Hout. right. exists u', H'. split; [done|].
  assert (Htr : forall v, 0 <= v -> trans (tabs u') (u_root u') v = trans (tabs u) (u_root u) v).
  { intros v Hv. rewrite C2. apply trans_frame; [apply Sh| |done]. intros x Hx. destruct (sh_apart _ _ _ _ _ Sh x Hx) as [X1 X2].
    by apply C9. }
  split; [|split; [|split; [done|split; [done|split; [done|split; [done|]]]]]].
  - intros x Hx. destruct (shown_at H u m ps g x Sh) as [_ Ht]; [lia|]. unfold ubyte, transaddr in *.
    rewrite Htr by (rewrite PagerClaims.addr2pn_div; apply Z.div_pos; lia). rewrite Ht. cbn [obind]. f_equal.
    replace (x - vpn m * 4096 + offset m * 4096) with (off + (x - a)) by lia. apply Hin. lia.
  - intros y Hy. apply Hout. intros j Hj ->. destruct (shown_at H u m ps g (a + j) Sh) as [_ Ht]; [lia|].
    apply (Hy (a + j)); [lia|]. rewrite Ht. do 2 f_equal. lia.
  - intros v Hv. rewrite !trans_walk; [by rewrite C4, C8|apply HK|lia|apply HK'|lia].
Qed.

(** copyout looks at the end of the object and not at the end of the mapping: a
    byte behind the mapping is written to the object although the process sees
    other memory there, which keeps what it held. *)
Theorem copyout_overruns_mapping N H u a bs m ps g x y :
  KOK N H u -> Shows H u m ps g -> find (u_maps u) a = Done (Some m) -> vpn m * 4096 <= a < (vpn m + len m) * 4096 -> bs <> [] ->
  mapper_second u + Z.of_nat (length ps) <= 2 ^ 27 ->
  let off := a - vpn m * 4096 + offset m * 4096 in
  off + zlen bs <= Z.of_nat (length ps) * 4096 -> (forall z, off <= z < off + zlen bs -> present ps z) ->
  (vpn m + len m) * 4096 <= x < a + zlen bs -> transaddr (tabs u) (u_root u) x = Done y ->
  (forall z, off <= z < off + zlen bs -> y <> tgt ps z) ->
  (copyout junk depth u a bs = Panic /\ few (6 * length ps) (tabs u)) \/
  exists u', copyout junk depth u a bs = Done u' /\ ubyte u' x = ubyte u x /\
    mem (world u') (tgt ps (off + (x - a))) = vat bs (x - a).
Proof.
  intros HK Sh Hfind Ha Hne Hend off Hb Hpr Hx Hy Hny. destruct (sh_map _ _ _ _ _ Sh) as (M1 & M2 & M3). destruct (sh_range _ _ _ _ _ Sh) as (R1 & R2).
  destruct (copyout_object N H u a bs m ps g HK Hfind (sh_vmo _ _ _ _ _ Sh) (sh_frames _ _ _ _ _ Sh)) as
    [?|(u' & H' & E & HK' & Hin & Hout & C2 & C4 & C3 & C5 & C8 & C9)]; try lia; try done; [by left|].
  right. exists u'. split; [done|]. split; [|apply Hin; lia].
  assert (Htr : transaddr (tabs u') (u_root u') x = Done y).
  { unfold transaddr in *. rewrite C2, (trans_frame (tabs u)); [done|apply Sh| |rewrite PagerClaims.addr2pn_div; apply Z.div_pos; lia].
    intros z Hz. destruct (sh_apart _ _ _ _ _ Sh z Hz). by apply C9. }
  unfold ubyte. rewrite Htr, Hy. cbn [obind]. f_equal. apply Hout. intros j Hj. apply Hny. fold off. lia.
Qed.

(** C37. copyin reads through the translation of the first byte only: within one
    page it returns what the process sees; behind the end of the page it returns
    the bytes of the next physical frame, so that a copy into the next page is
    wrong as soon as a byte there differs. *)
Theorem copyin_first_page u a n p :
  0 <= a -> 0 < n -> trans (tabs u) (u_root u) (a / 4096) = Done p -> 0 <= p < 2 ^ 44 ->
  exists bs, copyin u a n = Done bs /\ zlen bs = n /\
    (forall j, 0 <= j < n -> a mod 4096 + j < 4096 -> ubyte u (a + j) = Done (vat bs j)) /\
    (forall j q, 0 <= j < n -> 4096 <= a mod 4096 + j < 8192 ->
      trans (tabs u) (u_root u) (a / 4096 + 1) = Done q -> 0 <= q < 2 ^ 44 ->
      mem (world u) (q * 4096 + (a + j) mod 4096) <> mem (world u) ((p + 1) * 4096 + (a + j) mod 4096) ->
      ubyte u (a + j) <> Done (vat bs j)).
Proof.
  intros Ha Hn Ht Hp. unfold copyin. rewrite (transaddr_at _ _ _ p) by (done || lia). cbn [obind]. eexists. split; [done|].
  pose proof (Z.div_mod a 4096 ltac:(lia)) as Da. pose proof (Z.mod_pos_bound a 4096 ltac:(lia)) as Ma.
  split; [unfold bytes_at, zlen; rewrite length_fmap, length_seqZ; lia|].
  assert (Hv : forall j, 0 <= j < n -> vat (bytes_at (mem (world u)) (p * 4096 + a mod 4096) n) j = mem (world u) (p * 4096 + a mod 4096 + j)).
  { intros j Hj. unfold vat, bytes_at. rewrite list_lookup_fmap, lookup_seqZ_lt by lia. cbn. f_equal. lia. }
  split.
  - intros j Hj Hin. rewrite Hv by done. unfold ubyte.
    assert (Ed : (a + j) / 4096 = a / 4096) by (symmetry; apply (Z.div_unique_pos _ _ _ (a mod 4096 + j)); lia).
    rewrite (transaddr_at _ _ _ p) by (rewrite ?Ed; done || lia). cbn [obind]. do 2 f_equal.
    pose proof (Z.div_mod (a + j) 4096 ltac:(lia)). lia.
  - intros j q Hj Hin Hq Rq Hne. rewrite Hv by done. unfold ubyte.
    assert (Ed : (a + j) / 4096 = a / 4096 + 1) by (symmetry; apply (Z.div_unique_pos _ _ _ (a mod 4096 + j - 4096)); lia).
    rewrite (transaddr_at _ _ _ q) by (rewrite ?Ed; done || lia). cbn [obind]. intros [= E]. apply Hne. rewrite E. f_equal.
    pose proof (Z.div_mod (a + j) 4096 ltac:(lia)). lia.
Qed.

(** ** The copy of an address space has the layout of the original *)
Definition copy_of (m m' : PageMapping) : Prop :=
  vpn m' = vpn m /\ len m' = len m /\ offset m' = offset m /\ perm m' = perm m /\ mapping m' = mapping m /\
  sharing m' = sharing m /\ (sharing m = shared -> vmo m' = vmo m).
Lemma mapping_clone_copy w m : rets (mapping_clone w m) (fun x => copy_of m (fst x)).
Proof.
  unfold mapping_clone. destruct (Z.eqb_spec (sharing m) shared) as [E|E]; [done|]. apply rets_skip. intros [o w'] _. by repeat split.
Qed.
Lemma copy_loop_layout l : forall (v : VMAR PW) pre,
  wfl (pre ++ l) -> Forall2 copy_of pre (mappings v) ->
  rets (copy_loop junk depth l v) (fun v' => Forall2 copy_of (pre ++ l) (mappings v')).
Proof.
  induction l as [|m l IH]; intros v pre Hw Hv; cbn [copy_loop]; [by rewrite app_nil_r|].
  apply (rets_bind _ _ (fun x => copy_of m (fst x))); [apply mapping_clone_copy|]. intros [m' w] _ Hm. cbn [fst] in Hm.
  apply (rets_bind _ _ (fun v' => mappings v' = mappings v ++ [m'])).
  - unfold vmar_map, Vmar.map. apply rets_skip. intros s _. cbn [rets mappings set_pw]. apply set_insert_last.
    destruct Hm as (-> & _). apply Forall_forall. intros x' (i & Hi)%list_elem_of_lookup.
    destruct (Forall2_lookup_r _ _ _ _ _ Hv Hi) as (x & Hx & (-> & _)).
    apply (proj1 (wfl_vpn pre m l x Hw)). by eapply list_elem_of_lookup_2.
  - intros v' _ Hv'. replace (pre ++ m :: l) with ((pre ++ [m]) ++ l) in * by by rewrite <- app_assoc.
    apply IH; [done|]. rewrite Hv'. apply Forall2_app; [done|]. by constructor.
Qed.
(** The copy that fork makes has the mappings of the original at the same places
    with the same permissions; shared ones show the same object. *)
Theorem VMAR_copy_layout maps s : wfl maps -> rets (VMAR_copy junk depth maps s) (fun v => Forall2 copy_of maps (mappings v)).
Proof. intros Hw. unfold VMAR_copy. apply rets_skip. intros [r s'] _. by apply (copy_loop_layout maps _ []). Qed.
End Kernel.

(** ** Witnesses: a process with a two-page object behind a big page *)
Definition ex_ul : Z := setPPN (setPerm (setValid 0) 31) 262144.
Definition ex_um : gmap Z (list Z) := <[50 := replicate 512 0]> (<[104 := <[0%nat := ex_ul]> (replicate 512 0)]> ∅).
Definition ex_ps : list (option Z) := [Some 262160; Some 262161].
Definition ex_uw : PW (S := Ramfs.SuperBlock) :=
  mkPW (fun x => u8 x) PtUnmap.ex_a (nods PagerClaims.ex_w) ∅ 1 {[7 := VMOPaged ex_ps 0]} 8.
Definition ex_mp : PageMapping := mkMapping 16 2 0 7 31 anon privt.
Definition ex_u : US (S := Ramfs.SuperBlock) := mkUS [ex_mp] 104 [] 50 541186 (mkPT ex_um ex_uw).

Lemma ex_utable : tree 2 ex_um 104 /\ (forall x, inn 2 ex_um 104 x -> x = 104) /\
  forall v, idx 2 v = 0%nat -> walk 2 ex_um 104 v = Some (2%nat, 262144 + v mod big 2, 31).
Proof.
  set (m0 := <[50 := replicate 512 0]> (<[104 := replicate 512 0]> (∅ : gmap Z (list Z)))).
  assert (L1 : isValid ex_ul = true) by reflexivity. assert (L2 : isLeaf ex_ul = true) by reflexivity.
  destruct (zeros_tree 2 m0 104) as (T0 & I0 & W0); [reflexivity|].
  assert (Hl : forall l m u, ~ einn l m ex_ul u) by (intros; apply not_node; by right).
  assert (Hz : forall l m i e u, replicate 512 0 !! i = Some e -> ~ einn l m e u).
  { intros l m i e u [-> _]%lookup_replicate. apply not_node. by left. }
  destruct (retable 2 m0 ex_um 104 (replicate 512 0) 0 ex_ul) as (T1 & I1 & V1 & V2); auto; try done; try lia.
  { intros i e u _ Hi Hu. by destruct (Hz _ _ i e u Hi Hu). }
  split; [done|]. split.
  - intros x Hx. destruct (I1 x Hx) as [?|Hu]; [by apply I0|by apply Hl in Hu].
  - intros v Hv. rewrite (V2 v Hv). unfold ewalk. rewrite L1, L2. reflexivity.
Qed.
Lemma ex_utrans k : 0 <= k < 2 ^ 18 -> trans (mkPT ex_um ex_uw) 104 k = Done (262144 + k).
Proof.
  intros Hk. destruct ex_utable as (T & _ & W). rewrite trans_walk by (exact T || lia). cbn [pmem]. rewrite W.
  - change (big 2) with (2 ^ 18). by rewrite Z.mod_small, u64_small by lia.
  - unfold idx. change (big 2) with (2 ^ 18). by rewrite (Z.div_small k) by lia.
Qed.
Lemma ex_kok : KOK 6 {[104]} ex_u.
Proof.
  destruct (zeros_tree 2 ex_um 50) as (T & I & W); [reflexivity|]. split; try done.
  - split; [|vm_compute; discriminate]. split; [exact T|]. split; [exact PtUnmap.ex_held|]. intros x Hx Hne. by apply I in Hx.
  - split; constructor.
Qed.
Lemma ex_shows : Shows {[104]} ex_u ex_mp ex_ps 0.
Proof.
  destruct ex_utable as (T & I & _). destruct (zeros_tree 2 ex_um 50) as (_ & I0 & _); [reflexivity|]. split.
  - cbn. lia.
  - reflexivity.
  - cbn. lia.
  - intros i j p Hi Hj. destruct i as [|[|]], j as [|[|]]; cbn in Hi, Hj; simplify_eq/=; done.
  - exact T.
  - intros x ->%I. split; [set_solver|]. intros Hx%I0. done.
  - cbn [vpn len offset ex_mp]. intros k Hk. exists (262144 + k).
    split; [assert (k = 16 \/ k = 17) as [->| ->] by lia; done|]. split; [lia|]. apply (ex_utrans k). lia.
Qed.
Lemma copyout_exact_witness :
  exists u', copyout (mkSegment 0 0) 1 ex_u 69630 [1; 2; 3; 4] = Done u' /\
    ubyte u' 69631 = Done 2 /\ ubyte u' 69632 = Done 3 /\ k_maps u' = [] /\ mapper_second u' = 541186.
Proof.
  destruct (copyout_exact (mkSegment 0 0) 1 6 {[104]} ex_u 69630 [1; 2; 3; 4] ex_mp ex_ps 0 ex_kok ex_shows) as
    [[E _]|(u' & H' & E & B & _ & _ & _ & K1 & K2 & _)].
  - reflexivity.
  - vm_compute. discriminate.
  - discriminate.
  - vm_compute. discriminate.
  - vm_compute. discriminate.
  - exfalso. revert E. vm_compute. discriminate.
  - change (zlen [1; 2; 3; 4]) with 4 in B. exists u'. split; [exact E|]. split; [exact (B 69631 ltac:(lia))|].
    split; [exact (B 69632 ltac:(lia))|]. split; [exact K1|exact K2].
Defined.

(** The frames of pages 16 and 17 the other way round. *)
Definition ex_two : gmap Z (list Z) :=
  <[104 := <[0%nat := setPPN (setValid 0) 105]> (replicate 512 0)]>
  (<[105 := <[0%nat := setPPN (setValid 0) 106]> (replicate 512 0)]>
  (<[106 := <[16%nat := setPPN (setPerm (setValid 0) 31) 300]> (<[17%nat := setPPN (setPerm (setValid 0) 31) 200]> (replicate 512 0))]> ∅)).
Definition ex_u2 : US (S := Ramfs.SuperBlock) := mkUS [ex_mp] 104 [] 50 541186
  (mkPT ex_two (with_mem ex_uw (fun x => if x =? 819200 then 9 else 0))).
Lemma copyin_first_page_witness :
  exists bs, copyin ex_u2 69631 2 = Done bs /\ ubyte ex_u2 69632 = Done 9 /\ bs = [0; 0] /\
    ubyte ex_u2 69631 = Done (vat bs 0) /\ ubyte ex_u2 69632 <> Done (vat bs 1).
Proof.
  destruct (copyin_first_page ex_u2 69631 2 300) as (bs & E & _ & B1 & B2).
  - lia.
  - lia.
  - vm_compute. reflexivity.
  - lia.
  - exists bs. split; [exact E|]. split; [vm_compute; reflexivity|]. split.
    + assert (copyin ex_u2 69631 2 = Done [0; 0]) as Ec by (vm_compute; reflexivity). rewrite Ec in E. by injection E.
    + split; [apply (B1 0); [lia|vm_compute; reflexivity]|]. apply (B2 1 200); [lia|vm_compute; split; discriminate || reflexivity|vm_compute; reflexivity|lia|].
      vm_compute. discriminate.
Defined.
End UmemClaims.
