(* ===== verification/Exec.v ===== *)
(** * Exec: the initial stack of a program (execve_ and execve of
    kernel/syscall/proc.cc, VMAR::Writer of include/vm.hh)

    execve collects the argument and environment strings of the caller and, in
    the new address space, writes them below the top of the stack followed by the
    auxiliary vector, the pointers and the count. The writer runs downwards. *)

From S2P Require Import Prelude Klib Bytes Path Vfs File FileSys Ramfs FdInv FdCalls FileClaims Scatter ScatterClaims Signal.
From S2P Require Import Buddy PageAlloc PageTable Vmar Bcache Pager PagerClaims Ld.
Local Open Scope Z_scope.

Module Exec.
Import Scatter ScatterClaims Signal Ld.

Definition UserStackDefault : Z := 134217728.
Definition UstackSize : Z := 131072.
Definition AT_NULL : Z := 0.
Definition AT_PHDR : Z := 3.
Definition AT_PHENT : Z := 4.
Definition AT_PHNUM : Z := 5.
Definition AT_PAGESZ : Z := 6.
Definition AT_BASE : Z := 7.
Definition AT_ENTRY : Z := 9.
Definition AT_RANDOM : Z := 25.

Section Stack.
Context {U : Type} `{!UserMem U}.

(** Writer::operator<< of an array aligns the address down first. *)
Definition push_array (u : U) (addr : Z) (bytes : list Z) : outcome (Z * U) := push u (u64 (addr - addr mod 8)) bytes.
(** Strings one after the other, with their addresses. *)
Fixpoint push_strings (u : U) (addr : Z) (l : list (list Z)) : outcome (list Z * Z * U) :=
  match l with
  | [] => Done ([], addr, u)
  | s :: l =>
      let* (a, u) := push u addr s in
      let* (r, b, u) := push_strings u a l in
      Done (a :: r, b, u)
  end.
Definition auxv (info : ElfInfo) (dlRandomAddr : Z) : list Z :=
  (if phdr info =? 0 then [] else [AT_PHDR; phdr info; AT_PHENT; i_phentsize info; AT_PHNUM; i_phnum info]) ++
  [AT_PAGESZ; 4096; AT_BASE; interpreterBase; AT_ENTRY; i_entry info; AT_RANDOM; dlRandomAddr; AT_NULL; 0].
Definition exec_stack (u : U) (info : ElfInfo) (args envs : list (list Z)) : outcome (Z * U) :=
  let* (a, u) := push u UserStackDefault (enc [1131796]) in
  let* (dlRandomAddr, u) := push u a (enc [0]) in
  let* (argv, a, u) := push_strings u dlRandomAddr args in
  let* (envps, a, u) := push_strings u a envs in
  let* (a, u) := push_array u a (enc (auxv info dlRandomAddr)) in
  let* (a, u) := push u a (enc [0]) in
  let* (a, u) := push u a (enc envps) in
  let* (a, u) := push_array u a (enc (argv ++ [0])) in
  push u a (enc [Z.of_nat (length args)]).

(** ** Collecting the strings: copyinstr fills a buffer of [n]+1 bytes *)
Definition str_bytes (n : Z) (s : list Z) : list Z := take (Z.to_nat n) s ++ replicate (Z.to_nat (n + 1) - length (take (Z.to_nat n) s)) 0.
Fixpoint exec_strings (fuel : nat) (u : U) (n argv : Z) : outcome (list (list Z)) :=
  match fuel with
  | O => Diverge
  | Datatypes.S fuel =>
      let* b := copyin u argv 8 in
      let str := word b 0 in
      if str =? 0 then Done []
      else
        let* s := copyinstr u str n in
        let* l := exec_strings fuel u n (u64 (argv + 8)) in
        Done (str_bytes n s :: l)
  end.
(** A file that is not ELF is run by "/busybox" with "sh" put before. *)
Definition exec_args (fuel : nat) (u : U) (elf : bool) (argv envp : Z) : outcome (list (list Z) * list (list Z)) :=
  let* args := exec_strings fuel u 200 argv in
  let* envs := (if envp =? 0 then Done [] else exec_strings fuel u 100 envp) in
  Done ((if elf then args else [115; 104; 0] :: args), envs).
End Stack.

(** ** What the program finds *)
Section Claims.
Context {U : Type} `{!UserMem U} `{!KMemLaws U}.
Implicit Types u : U.

Definition holds u (a : Z) (bs : list Z) : Prop := forall i, 0 <= i < zlen bs -> byte u (a + i) = Some (vat bs i).
Definition keeps (a : Z) u u' : Prop := forall x, a <= x -> byte u' x = byte u x.
Definition backs u (lo hi : Z) : Prop := forall x, lo <= x < hi -> is_Some (byte u x).
Lemma keeps_trans a b u1 u2 u3 : a <= b -> keeps b u1 u2 -> keeps a u2 u3 -> keeps b u1 u3.
Proof. intros Hab H1 H2 x Hx. rewrite H2 by lia. by apply H1. Qed.
Lemma holds_keeps a b u u' bs : keeps a u u' -> a <= b -> holds u b bs -> holds u' b bs.
Proof. intros Hk Hab Hh i Hi. rewrite Hk by lia. by apply Hh. Qed.
Lemma holds_app u a b1 b2 : holds u a b1 -> holds u (a + zlen b1) b2 -> holds u a (b1 ++ b2).
Proof.
  intros H1 H2 i Hi. rewrite zlen_app in Hi. rewrite vat_app by lia. destruct (Z.ltb_spec i (zlen b1)); [apply H1; lia|].
  replace (a + i) with (a + zlen b1 + (i - zlen b1)) by lia. apply H2. lia.
Qed.
Lemma enc_app l1 l2 : enc (l1 ++ l2) = enc l1 ++ enc l2.
Proof. unfold enc. by rewrite fmap_app, concat_app. Qed.
Lemma push_bytes_ok u lo a bs :
  bs <> [] \/ a < UserStackDefault -> backs u lo UserStackDefault -> 0 <= lo -> lo <= a - zlen bs -> a <= UserStackDefault ->
  exists u', push u a bs = Done (a - zlen bs, u') /\ holds u' (a - zlen bs) bs /\ keeps a u u' /\ backs u' lo UserStackDefault.
Proof.
  intros Hne Hb Hlo Hl Ha. assert (0 <= zlen bs) by (unfold zlen; lia). unfold push. unfold UserStackDefault in *.
  rewrite u64_small by lia. destruct (law_kwrite u (a - zlen bs) bs) as (u' & Hw & Hx).
  { destruct Hne as [|Hne]; [by left|right]. apply Hb. lia. }
  { intros x Hx. apply Hb. lia. }
  cbn in Hw. rewrite Hw. cbn [obind]. exists u'. split; [done|]. split_and!.
  - intros i Hi. rewrite Hx, decide_True by lia. do 2 f_equal. lia.
  - intros x Hi. by rewrite Hx, decide_False by lia.
  - intros x Hi. rewrite Hx. destruct decide; [by eexists|by apply Hb].
Qed.
Definition sizes (l : list (list Z)) : Z := zlen (concat l).
Lemma push_strings_ok l : forall u lo a,
  Forall (fun s => s <> []) l -> backs u lo UserStackDefault -> 0 <= lo -> lo <= a - sizes l -> a <= UserStackDefault ->
  exists r u', push_strings u a l = Done (r, a - sizes l, u') /\ keeps a u u' /\ backs u' lo UserStackDefault /\
    Forall2 (fun p s => a - sizes l <= p /\ holds u' p s) r l.
Proof.
  induction l as [|s l IH]; intros u lo a Hne Hb Hlo Hl Ha; cbn [push_strings].
  { exists [], u. change (sizes []) with 0. rewrite Z.sub_0_r. split_and!; [done|done|done|constructor]. }
  apply Forall_cons in Hne as [Hs Hne]. unfold sizes in *. cbn [concat] in *. rewrite zlen_app in *. assert (0 <= zlen (concat l)) by (unfold zlen; lia).
  destruct (push_bytes_ok u lo a s (or_introl Hs) Hb Hlo) as (u1 & -> & Hh & Hk & Hb1); [lia|lia|]. cbn [obind]. assert (0 <= zlen s) by (unfold zlen; lia).
  destruct (IH u1 lo (a - zlen s) Hne Hb1 Hlo) as (r & u2 & -> & Hk2 & Hb2 & Hf); [lia|lia|]. cbn [obind].
  exists ((a - zlen s) :: r), u2. split; [do 3 f_equal; lia|]. split; [by apply (keeps_trans (a - zlen s) a u u1); [lia|..]|]. split; [done|].
  constructor; [split; [lia|by apply (holds_keeps (a - zlen s) _ u1); [|lia|]]|]. eapply Forall2_impl; [exact Hf|]. cbn. intros p t [Hp Ht]. split; [lia|done].
Qed.
Lemma holds_nil u a : holds u a [].
Proof. intros i Hi. change (zlen []) with 0 in Hi. lia. Qed.
Lemma enc_nil (l : list Z) : l <> [] -> enc l <> [].
Proof. destruct l as [|x l]; [done|]. intros _ E. apply (f_equal zlen) in E. rewrite zlen_enc in E. unfold zlen in E. cbn [length] in E. lia. Qed.
(** One more block of words below what is there. *)
Lemma push_words u lo a ws bs :
  ws <> [] \/ a < UserStackDefault -> backs u lo UserStackDefault -> 0 <= lo -> lo <= a - 8 * zlen ws -> a <= UserStackDefault -> holds u a bs ->
  exists u', push u a (enc ws) = Done (a - 8 * zlen ws, u') /\ holds u' (a - 8 * zlen ws) (enc ws ++ bs) /\ keeps a u u' /\
    backs u' lo UserStackDefault.
Proof.
  intros Hne Hb Hlo Hl Ha Hh. rewrite <- (zlen_enc ws) in *.
  destruct (push_bytes_ok u lo a (enc ws)) as (u' & -> & Hh' & Hk & Hb'); [destruct Hne; [left; by apply enc_nil|by right]|done..|].
  exists u'. split; [done|]. split; [|done]. apply holds_app; [done|]. replace (a - zlen (enc ws) + zlen (enc ws)) with a by lia.
  by apply (holds_keeps a a u).
Qed.
Lemma push_array_aligned u a bs : 0 <= a < 2 ^ 63 -> push_array u a bs = push u (a - a mod 8) bs.
Proof. intros Ha. unfold push_array. rewrite u64_small; [done|]. Z.to_euclidean_division_equations; lia. Qed.
(** The words that the program finds at its stack pointer. *)
Definition frame (info : ElfInfo) (dlr : Z) (argv envps : list Z) : list Z :=
  [zlen argv] ++ (argv ++ [0]) ++ envps ++ [0] ++ auxv info dlr.
Definition frame_size (args envs : list (list Z)) : Z :=
  sizes args + sizes envs + 8 * (Z.of_nat (length args) + Z.of_nat (length envs)) + 176.

Lemma push_frame u lo a info dlr argv envps :
  backs u lo UserStackDefault -> 0 <= lo -> a < UserStackDefault -> lo <= a - 8 * (zlen argv + zlen envps) - 160 ->
  exists sp u',
    (let* (a, u) := push_array u a (enc (auxv info dlr)) in
     let* (a, u) := push u a (enc [0]) in
     let* (a, u) := push u a (enc envps) in
     let* (a, u) := push_array u a (enc (argv ++ [0])) in
     push u a (enc [zlen argv])) = Done (sp, u') /\
    sp mod 8 = 0 /\ lo <= sp <= a /\ keeps a u u' /\ holds u' sp (enc (frame info dlr argv envps)).
Proof.
  intros Hb Hlo Ha Hl. assert (Hz : 0 <= zlen argv /\ 0 <= zlen envps) by (unfold zlen; lia). unfold UserStackDefault in Ha.
  assert (Haux : 10 <= zlen (auxv info dlr) <= 16) by (unfold auxv; destruct (_ =? 0); unfold zlen; cbn [length app]; lia).
  pose proof (Z.mod_pos_bound a 8 ltac:(lia)) as Hm. set (a0 := a - a mod 8). rewrite push_array_aligned by lia. fold a0.
  assert (Hd : a0 mod 8 = 0) by (unfold a0; Z.to_euclidean_division_equations; lia).
  destruct (push_words u lo a0 (auxv info dlr) []) as (u1 & -> & H1 & K1 & B1); [right; unfold UserStackDefault; lia|done|lia|lia|unfold UserStackDefault; lia|apply holds_nil|].
  cbn [obind]. set (a1 := a0 - _) in *. destruct (push_words u1 lo a1 [0] (enc (auxv info dlr) ++ [])) as (u2 & -> & H2 & K2 & B2);
    [by left|done|lia|change (zlen [0]) with 1; lia|unfold UserStackDefault; lia|done|]. change (zlen [0]) with 1 in *. cbn [obind].
  set (a2 := a1 - _) in *. destruct (push_words u2 lo a2 envps (enc [0] ++ enc (auxv info dlr) ++ [])) as (u3 & -> & H3 & K3 & B3);
    [right; unfold UserStackDefault; lia|done|lia|lia|unfold UserStackDefault; lia|done|]. cbn [obind]. set (a3 := a2 - _) in *.
  assert (Hd3 : a3 mod 8 = 0) by (unfold a3, a2, a1; Z.to_euclidean_division_equations; lia).
  rewrite push_array_aligned, Hd3, Z.sub_0_r by lia.
  destruct (push_words u3 lo a3 (argv ++ [0]) (enc envps ++ enc [0] ++ enc (auxv info dlr) ++ [])) as (u4 & -> & H4 & K4 & B4);
    [right; unfold UserStackDefault; lia|done|lia|rewrite zlen_app; change (zlen [0]) with 1; lia|unfold UserStackDefault; lia|done|].
  rewrite zlen_app in *. change (zlen [0]) with 1 in *. cbn [obind]. set (a4 := a3 - _) in *.
  destruct (push_words u4 lo a4 [zlen argv] (enc (argv ++ [0]) ++ enc envps ++ enc [0] ++ enc (auxv info dlr) ++ [])) as (u5 & -> & H5 & K5 & B5);
    [by left|done|lia|change (zlen [zlen argv]) with 1; lia|unfold UserStackDefault; lia|done|]. change (zlen [zlen argv]) with 1 in *.
  eexists _, u5. split; [done|]. split; [unfold a4; Z.to_euclidean_division_equations; lia|]. split; [lia|]. split.
  - intros x Hx. rewrite K5, K4, K3, K2, K1 by lia. done.
  - rewrite app_nil_r in H5. unfold frame. rewrite !enc_app in *. exact H5.
Qed.

(** C21. execve leaves the stack that a program expects: for non-empty strings
    that fit the stack, building it ends, the stack pointer is a multiple of 8,
    and from it upwards lie the count, one pointer for each argument, a null
    pointer, one pointer for each environment string, a null pointer and the
    auxiliary vector; every pointer points to the bytes of its string. *)
Theorem exec_stack_layout u info args envs :
  backs u (UserStackDefault - UstackSize) UserStackDefault -> Forall (fun s => s <> []) args -> Forall (fun s => s <> []) envs ->
  frame_size args envs <= UstackSize ->
  exists sp u' argv envps, exec_stack u info args envs = Done (sp, u') /\ sp mod 8 = 0 /\
    UserStackDefault - UstackSize <= sp < UserStackDefault /\
    holds u' sp (enc (frame info (UserStackDefault - 16) argv envps)) /\
    Forall2 (holds u') argv args /\ Forall2 (holds u') envps envs.
Proof.
  intros Hb Hna Hne Hs. set (top := UserStackDefault) in *. assert (Ht : top = 134217728) by done.
  assert (Hz : 0 <= sizes args /\ 0 <= sizes envs) by (unfold sizes, zlen; lia). unfold frame_size, UstackSize in *.
  assert (Hlo : 0 <= top - 131072) by lia. unfold exec_stack. fold top.
  destruct (push_words u (top - 131072) top [1131796] []) as (u1 & -> & _ & K1 & B1); [by left|done|lia|change (zlen [1131796]) with 1; lia|lia|apply holds_nil|].
  change (zlen [1131796]) with 1. cbn [obind].
  destruct (push_words u1 (top - 131072) (top - 8 * 1) [0] []) as (u2 & -> & _ & K2 & B2); [by left|done|lia|change (zlen [0]) with 1; lia|lia|apply holds_nil|].
  change (zlen [0]) with 1. cbn [obind]. replace (top - 8 * 1 - 8 * 1) with (top - 16) by lia.
  destruct (push_strings_ok args u2 (top - 131072) (top - 16)) as (argv & u3 & -> & K3 & B3 & Fa); [done..|lia|lia|]. cbn [obind].
  destruct (push_strings_ok envs u3 (top - 131072) (top - 16 - sizes args)) as (envps & u4 & -> & K4 & B4 & Fe); [done..|lia|lia|]. cbn [obind].
  assert (Hla : zlen argv = Z.of_nat (length args)) by (unfold zlen; by rewrite (Forall2_length _ _ _ Fa)).
  assert (Hle : zlen envps = Z.of_nat (length envs)) by (unfold zlen; by rewrite (Forall2_length _ _ _ Fe)).
  rewrite <- Hla. destruct (push_frame u4 (top - 131072) (top - 16 - sizes args - sizes envs) info (top - 16) argv envps) as (sp & u5 & -> & Hm & Hsp & K5 & Hh);
    [done|lia|fold top; lia|lia|]. exists sp, u5, argv, envps. split; [done|]. split; [done|]. split; [|split; [done|]].
  - unfold top in *. unfold UstackSize. lia.
  - split.
    + eapply Forall2_impl; [exact Fa|]. cbn. intros p s [Hp Hh']. apply (holds_keeps (top - 16 - sizes args - sizes envs) _ u4); [done|lia|].
      by apply (holds_keeps (top - 16 - sizes args) _ u3).
    + eapply Forall2_impl; [exact Fe|]. cbn. intros p s [Hp Hh']. by apply (holds_keeps (top - 16 - sizes args - sizes envs) _ u4).
Qed.
End Claims.

(** ** A concrete memory: every address is mapped *)
Definition total_mem : UserMem Mem := {|
  copyin m a n := Done (mread m a n);
  copyinstr m a n := Done (mread m a n);
  copyout m a bs := Done (mwrite m a bs)
|}.
Definition total_laws : @KMemLaws Mem (@user_mem Mem total_mem).
Proof.
  refine (@mkKMemLaws Mem (@user_mem Mem total_mem) (fun m x => Some (m x)) _ _).
  - intros m a n _ _. reflexivity.
  - exact (@law_kwrite Mem phys_mem phys_laws).
Defined.
(** Two arguments, one environment string. *)
Lemma exec_stack_layout_witness :
  exists sp u' argv envps,
    @exec_stack Mem total_mem (fun _ => 0) (mkElfInfo 64 4096 56 3) [str_bytes 200 [108; 115]; str_bytes 200 [45; 97]] [str_bytes 100 [65; 61; 66]] =
      Done (sp, u') /\ sp mod 8 = 0 /\ UserStackDefault - UstackSize <= sp < UserStackDefault /\
    @holds Mem total_mem total_laws u' sp (enc (frame (mkElfInfo 64 4096 56 3) (UserStackDefault - 16) argv envps)) /\
    Forall2 (@holds Mem total_mem total_laws u') argv [str_bytes 200 [108; 115]; str_bytes 200 [45; 97]] /\
    Forall2 (@holds Mem total_mem total_laws u') envps [str_bytes 100 [65; 61; 66]].
Proof.
  apply (@exec_stack_layout Mem total_mem total_laws).
  - intros x _. by eexists.
  - repeat constructor; discriminate.
  - repeat constructor; discriminate.
  - vm_compute. discriminate.
Defined.
End Exec.
