(* ===== verification/Proc.v ===== *)
(** * Proc: processes and tasks (include/resmgr.hh, include/proc.hh,
    kernel/proc.cc, clone, exit, exitGroup and waitpid of
    kernel/syscall/proc.cc)

    Objects are known by the identifiers their managers give out, which are never
    used again. The address space, the files and the registers other than sp, a0
    and tp of a process are left to the other files; stores to user memory and the
    futex wake-up of an exiting task are kept in the log [stores]. [begin] is the
    element that *tasks.begin() of an unordered_set gives. The processor goes on
    with another task at the [kyield] in which an exit ends, and waits in waitpid
    turn by turn: [WBlock] is a turn that went to sleep. *)

From S2P Require Import Prelude Klib Sched.
Local Open Scope Z_scope.

Module Proc.
Import Sched.

Definition CLONE_VM : Z := 256.
Definition CLONE_SIGHAND : Z := 2048.
Definition CLONE_THREAD : Z := 65536.
Definition CLONE_SETTLS : Z := 524288.
Definition CLONE_PARENT_SETTID : Z := 1048576.
Definition CLONE_CHILD_CLEARTID : Z := 2097152.
Definition CLONE_CHILD_SETTID : Z := 16777216.
Definition hasf (flags bit : Z) : bool := negb (Z.land flags bit =? 0).
Definition UserStackDefault : Z := 134217728.
(** vDSOfuncAddr: the sum is taken before the mask. *)
Definition vDSOBase : Z := 150994944.
Definition vDSOfuncAddr (func : Z) : Z := Z.land (u64 (vDSOBase + func)) 4095.

Record Process : Type := mkProcess {
  parent : Z; p_prior : Z; p_tasks : gset Z; p_zombie : bool; exitstatus : Z; heapTop : Z; heapBottom : Z
}.
Record Task : Type := mkTask { t_proc : Z; t_sp : Z; t_a0 : Z; t_tp : Z; clearChildTid : Z; t_exit : Z }.
Inductive store : Type := Store (pid addr v : Z) | FutexWake (addr n : Z) | SigChld (pid : Z).

Section Ops.
Context (begin : gset Z -> Z).

Record PS : Type := mkPS {
  procs : gmap Z Process; idCnt : Z; tsks : gmap Z Task; tidCnt : Z; sched : Scheduler; stores : list store
}.
Implicit Types k : PS.
Definition with_proc k (i : Z) (p : Process) : PS := mkPS (<[i := p]> (procs k)) (idCnt k) (tsks k) (tidCnt k) (sched k) (stores k).
Definition with_task k (t : Z) (x : Task) : PS := mkPS (procs k) (idCnt k) (<[t := x]> (tsks k)) (tidCnt k) (sched k) (stores k).
Definition with_sched k (s : Scheduler) : PS := mkPS (procs k) (idCnt k) (tsks k) (tidCnt k) s (stores k).
Definition log k (e : store) : PS := mkPS (procs k) (idCnt k) (tsks k) (tidCnt k) (sched k) (stores k ++ [e]).
Definition proc_get k (i : Z) : outcome Process := match procs k !! i with Some p => Done p | None => Undef end.
Definition task_get k (t : Z) : outcome Task := match tsks k !! t with Some x => Done x | None => Undef end.
Definition set_tasks (p : Process) (s : gset Z) : Process :=
  mkProcess (parent p) (p_prior p) s (p_zombie p) (exitstatus p) (heapTop p) (heapBottom p).
Definition set_parent (p : Process) (i : Z) : Process :=
  mkProcess i (p_prior p) (p_tasks p) (p_zombie p) (exitstatus p) (heapTop p) (heapBottom p).
(** Process::defaultTask and parentProc. *)
Definition defaultTask (p : Process) : outcome Z := passert (negb (bool_decide (p_tasks p = ∅))) ;;; Done (begin (p_tasks p)).
Definition parentProc k (p : Process) : outcome Process := proc_get k (parent p).

(** ** ObjManager: operator new gives the next identifier *)
Definition new_process k (p : Process) : Z * PS :=
  let i := idCnt k + 1 in (i, mkPS (<[i := p]> (procs k)) i (tsks k) (tidCnt k) (sched k) (stores k)).
(** Task::createTask, addTask and Scheduler::add. *)
Definition add_task k (pid prior : Z) (x : Task) : outcome (Z * PS) :=
  let t := tidCnt k + 1 in
  let* p := proc_get k pid in
  let* s := Sched.new_task (sched k) t prior in
  Done (t, mkPS (<[pid := set_tasks p ({[t]} ∪ p_tasks p)]> (procs k)) (idCnt k) (<[t := x]> (tsks k)) t s (stores k)).
Definition newTask k (pid : Z) : outcome (Z * PS) := add_task k pid 0 (mkTask pid UserStackDefault 0 0 0 0).
(** newTask(other, ustack): the context is copied. *)
Definition newTask_from k (pid : Z) (o : Task) (oprior ustack : Z) : outcome (Z * PS) :=
  add_task k pid oprior (mkTask pid (if ustack =? 0 then UserStackDefault else ustack) (t_a0 o) (t_tp o) 0 0).
Definition createProcess k : outcome (Z * PS) :=
  let (i, k) := new_process k (mkProcess 0 0 ∅ false 0 0 0) in
  let* (_, k) := newTask k i in
  Done (i, k).
(** proc::clone and Process(const Process&). *)
Definition prior_of k (t : Z) : Z := match tasks (sched k) !! t with Some x => prior x | None => 0 end.
Definition proc_clone k (t : Z) : outcome (Z * PS) :=
  let* x := task_get k t in
  let* p := proc_get k (t_proc x) in
  let (i, k) := new_process k (mkProcess (t_proc x) (p_prior p) ∅ false 0 (heapBottom p) (heapBottom p)) in
  let* (_, k) := newTask_from k i x (prior_of k t) (t_sp x) in
  let* q := proc_get k i in
  let* d := defaultTask q in
  let* y := task_get k d in
  Done (i, with_task k d (mkTask (t_proc y) (t_sp y) 0 (t_tp y) (clearChildTid y) (t_exit y))).
Definition set_sp (x : Task) (v : Z) : Task := mkTask (t_proc x) v (t_a0 x) (t_tp x) (clearChildTid x) (t_exit x).
Definition set_a0 (x : Task) (v : Z) : Task := mkTask (t_proc x) (t_sp x) v (t_tp x) (clearChildTid x) (t_exit x).
Definition set_tp (x : Task) (v : Z) : Task := mkTask (t_proc x) (t_sp x) (t_a0 x) v (clearChildTid x) (t_exit x).
Definition set_clear (x : Task) (v : Z) : Task := mkTask (t_proc x) (t_sp x) (t_a0 x) (t_tp x) v (t_exit x).
(** syscall::clone. *)
Definition clone k (flags stack parent_tid tls child_tid : Z) : outcome (Z * PS) :=
  let cur := curtask (sched k) in
  let* c := task_get k cur in
  let* (thrd, k) :=
    (if hasf flags (Z.lor (Z.lor CLONE_VM CLONE_THREAD) CLONE_SIGHAND) then
       let* (t, k) := newTask_from k (t_proc c) c (prior_of k cur) stack in
       let* x := task_get k t in
       Done (t, with_task k t (set_a0 x 0))
     else
       let* (i, k) := proc_clone k cur in
       let* q := proc_get k i in
       let* t := defaultTask q in
       let* x := task_get k t in
       Done (t, if stack =? 0 then k else with_task k t (set_sp x stack))) in
  let* x := task_get k thrd in
  let k := if hasf flags CLONE_CHILD_SETTID && negb (child_tid =? 0) then log k (Store (t_proc x) child_tid thrd) else k in
  let k := if hasf flags CLONE_PARENT_SETTID && negb (parent_tid =? 0) then log k (Store (t_proc c) parent_tid thrd) else k in
  let x := if hasf flags CLONE_SETTLS then set_tp x tls else x in
  let x := if hasf flags CLONE_CHILD_CLEARTID then set_clear x child_tid else x in
  Done (if hasf flags CLONE_THREAD then thrd else t_proc x, with_task k thrd x).

(** ** The end of tasks and processes *)
Definition proc_exit k (pid status : Z) : outcome PS :=
  let* p := proc_get k pid in
  let k := with_proc k pid (mkProcess (parent p) (p_prior p) (p_tasks p) true status (heapTop p) (heapBottom p)) in
  let* q := parentProc k p in
  let* t := defaultTask q in
  let* s := wakeup (sched k) t in
  let* s := kyield s in
  Done (with_sched k s).
Definition task_exit k (status : Z) : outcome PS :=
  let t := curtask (sched k) in
  let* x := task_get k t in
  let k := with_task k t (mkTask (t_proc x) (t_sp x) (t_a0 x) (t_tp x) (clearChildTid x) status) in
  let* s := remove (set_state (sched k) t Zombie) t in
  let k := with_sched k s in
  let* p := proc_get k (t_proc x) in
  let rest := p_tasks p ∖ {[t]} in
  let k := with_proc k (t_proc x) (set_tasks p rest) in
  let k := if clearChildTid x =? 0 then k else log (log k (Store (t_proc x) (clearChildTid x) 0)) (FutexWake (clearChildTid x) 1) in
  if bool_decide (rest = ∅) then proc_exit k (t_proc x) status
  else let* s := kyield (sched (log k (SigChld (t_proc x)))) in Done (with_sched (log k (SigChld (t_proc x))) s).
Definition setTidAddress k (tidptr : Z) : outcome (Z * PS) :=
  let t := curtask (sched k) in
  let* x := task_get k t in
  Done (t, with_task k t (mkTask (t_proc x) (t_sp x) (t_a0 x) (t_tp x) tidptr (t_exit x))).
(** exitGroup: the tasks stay in the set of the process. *)
Fixpoint zombies (s : Scheduler) (l : list Z) : outcome Scheduler :=
  match l with
  | [] => Done s
  | t :: l => let* s := remove (set_state s t Zombie) t in zombies s l
  end.
Definition exitGroup k (status : Z) : outcome PS :=
  let* x := task_get k (curtask (sched k)) in
  let* p := proc_get k (t_proc x) in
  let* s := zombies (sched k) (elements (p_tasks p)) in
  proc_exit (with_sched k s) (t_proc x) status.

(** ** Waiting *)
Definition getChilds k (pid : Z) : list Z :=
  filter (fun i => parent <$> procs k !! i = Some pid) (seqZ 0 512).
Definition zombieExit k (pid : Z) : outcome PS :=
  let* p := proc_get k pid in
  let m := foldr (fun i m => match m !! i with Some q => <[i := set_parent q (parent p)]> m | None => m end) (procs k) (getChilds k pid) in
  Done (mkPS (delete pid m) (idCnt k) (tsks k) (tidCnt k) (sched k) (stores k)).
Inductive wres : Type := WRet (v : Z) | WBlock.
Definition is_zombie k (i : Z) : bool := match procs k !! i with Some p => p_zombie p | None => false end.
Definition block k : outcome (wres * PS) := let* s := ksleep (sched k) in Done (WBlock, with_sched k s).
Definition reap k (cur wstatus target : Z) : outcome (wres * PS) :=
  let* p := proc_get k target in
  let k := if wstatus =? 0 then k else log k (Store cur wstatus (i32 (exitstatus p * 256))) in
  let* k := zombieExit k target in
  Done (WRet target, k).
Definition waitpid k (pid wstatus : Z) : outcome (wres * PS) :=
  let* x := task_get k (curtask (sched k)) in
  let cur := t_proc x in
  if pid =? -1 then
    match getChilds k cur with
    | [] => Done (WRet (-1), k)
    | childs => match filter (fun i => is_zombie k i = true) childs with
                | target :: _ => reap k cur wstatus target
                | [] => block k
                end
    end
  else if 0 <? pid then
    match procs k !! pid with
    | None => Panic
    | Some p => if p_zombie p then reap k cur wstatus pid else block k
    end
  else Panic.

(** ** The process tree *)
(** Identifiers are given out once, a parent is older than its child and is
    still there (0: none), the tasks of a process belong to it. *)
Record Tree k : Prop := {
  tr_id : forall i p, procs k !! i = Some p -> 1 <= i <= idCnt k;
  tr_parent : forall i p, procs k !! i = Some p -> 0 <= parent p < i /\ (parent p = 0 \/ is_Some (procs k !! parent p));
  tr_tid : forall t x, tsks k !! t = Some x -> 1 <= t <= tidCnt k;
  tr_task : forall i p t, procs k !! i = Some p -> t ∈ p_tasks p -> exists x, tsks k !! t = Some x /\ t_proc x = i;
  tr_cnt : 0 <= idCnt k /\ 0 <= tidCnt k
}.
(** What happens in a system: calls of the running task, and creations. *)
Inductive pcall : Type :=
| PCreate
| PClone (flags stack parent_tid tls child_tid : Z)
| PExit (status : Z)
| PExitGroup (status : Z)
| PWait (pid wstatus : Z)
| PSetTid (tidptr : Z)
| PYield.
Definition pexec k (c : pcall) : outcome PS :=
  match c with
  | PCreate => let* (_, k) := createProcess k in Done k
  | PClone f s p t c => let* (_, k) := clone k f s p t c in Done k
  | PExit st => task_exit k st
  | PExitGroup st => exitGroup k st
  | PWait p w => let* (_, k) := waitpid k p w in Done k
  | PSetTid a => let* (_, k) := setTidAddress k a in Done k
  | PYield => let* s := kyield (sched k) in Done (with_sched k s)
  end.
Definition pstep k k' : Prop := exists c, pexec k c = Done k'.

(** Parts of the state that the tree does not look at. *)
Lemma Tree_eq k k' :
  procs k' = procs k -> idCnt k' = idCnt k -> tsks k' = tsks k -> tidCnt k' = tidCnt k -> Tree k -> Tree k'.
Proof. intros E1 E2 E3 E4 [T1 T2 T3 T4 T5]. constructor; rewrite ?E1, ?E2, ?E3, ?E4; auto. Qed.
(** A process that keeps its parent and whose tasks are its own. *)
Lemma Tree_with_proc k i p p' :
  Tree k -> procs k !! i = Some p -> parent p' = parent p -> p_tasks p' ⊆ p_tasks p -> Tree (with_proc k i p').
Proof.
  intros [T1 T2 T3 T4 T5] Hp He Ht. constructor; cbn; try done.
  - intros j q. rewrite lookup_insert_Some. intros [[<- <-]|[_ Hq]]; eauto.
  - intros j q. rewrite lookup_insert_Some. intros Hq.
    assert (Hq' : 0 <= parent q < j /\ (parent q = 0 \/ is_Some (procs k !! parent q))).
    { destruct Hq as [[<- <-]|[_ Hq]]; [rewrite He; eauto|eauto]. }
    destruct Hq' as [H1 H2]. split; [done|]. destruct H2 as [H2|H2]; [by left|right]. apply lookup_insert_is_Some'. auto.
  - intros j q t. rewrite lookup_insert_Some. intros [[<- <-]|[_ Hq]] Hin; [|by eapply T4]. eapply T4; [done|]. set_solver.
Qed.
Lemma Tree_with_task k t x x' : Tree k -> tsks k !! t = Some x -> t_proc x' = t_proc x -> Tree (with_task k t x').
Proof.
  intros [T1 T2 T3 T4 T5] Hx He. constructor; cbn; try done.
  - intros u y. rewrite lookup_insert_Some. intros [[<- <-]|[_ Hy]]; eauto.
  - intros i p u Hp Hu. destruct (T4 i p u Hp Hu) as (y & Hy & Hi). destruct (decide (u = t)) as [->|].
    + rewrite lookup_insert_eq. eexists. split; [done|]. congruence.
    + rewrite lookup_insert_ne by done. eauto.
Qed.
Lemma Tree_new_process k p : Tree k -> p_tasks p = ∅ -> 0 <= parent p -> (parent p = 0 \/ is_Some (procs k !! parent p)) ->
  Tree (snd (new_process k p)).
Proof.
  intros [T1 T2 T3 T4 T5] Ht Hge Hpar. assert (Hle : parent p <= idCnt k).
  { destruct Hpar as [->|[q Hq]]; [lia|]. apply T1 in Hq. lia. }
  constructor; cbn; try done.
  - intros j q. rewrite lookup_insert_Some. intros [[<- <-]|[_ Hq]]; [lia|]. apply T1 in Hq. lia.
  - intros j q. rewrite lookup_insert_Some. intros [[<- <-]|[_ Hq]].
    + split; [lia|]. destruct Hpar as [|[q Hq]]; [by left|right]. rewrite lookup_insert_ne by lia. by exists q.
    + destruct (T2 j q Hq) as [H1 [H2|[r Hr]]]; (split; [done|]); [by left|right]. apply lookup_insert_is_Some'. right. by exists r.
  - intros j q t. rewrite lookup_insert_Some. intros [[<- <-]|[_ Hq]] Hin; [set_solver|by eapply T4].
  - lia.
Qed.
Lemma Tree_add_task k pid prior x t k' :
  Tree k -> t_proc x = pid -> add_task k pid prior x = Done (t, k') ->
  Tree k' /\ tidCnt k' = tidCnt k + 1 /\ idCnt k' = idCnt k /\ tsks k' !! t = Some x /\
  exists p, procs k !! pid = Some p /\ procs k' = <[pid := set_tasks p ({[t]} ∪ p_tasks p)]> (procs k).
Proof.
  intros T Hx H. unfold add_task, proc_get in H. destruct (procs k !! pid) as [p|] eqn:Hp; [|done]. cbn [obind] in H.
  odestr H. injection H as <- <-. pose proof T as [T1 T2 T3 T4 T5]. split; [|cbn; rewrite lookup_insert_eq; eauto 10]. constructor; cbn.
  - intros j q. rewrite lookup_insert_Some. intros [[<- <-]|[_ Hq]]; eauto.
  - intros j q. rewrite lookup_insert_Some. intros Hq.
    assert (Hq' : 0 <= parent q < j /\ (parent q = 0 \/ is_Some (procs k !! parent q))) by (destruct Hq as [[<- <-]|[_ Hq]]; cbn; eauto).
    destruct Hq' as [H1 [H2|H2]]; (split; [done|]); [by left|right]. apply lookup_insert_is_Some'. auto.
  - intros u y. rewrite lookup_insert_Some. intros [[<- <-]|[_ Hy]]; [lia|]. apply T3 in Hy. lia.
  - intros j q u. rewrite lookup_insert_Some. intros Hq Hu. destruct (decide (u = tidCnt k + 1)) as [->|Hne].
    + rewrite lookup_insert_eq. exists x. split; [done|]. destruct Hq as [[<- <-]|[Hj Hq]]; [done|].
      destruct (T4 j q _ Hq Hu) as (y & Hy & _). apply T3 in Hy. lia.
    + rewrite lookup_insert_ne by done. destruct Hq as [[<- <-]|[_ Hq]]; [|by eapply T4]. apply (T4 pid p); [done|]. cbn in Hu. set_solver.
  - lia.
Qed.
Lemma Tree_sched k s : Tree k -> Tree (with_sched k s).
Proof. by apply Tree_eq. Qed.
Lemma Tree_log k e : Tree k -> Tree (log k e).
Proof. by apply Tree_eq. Qed.
Hint Resolve Tree_sched Tree_log : luo.
Lemma task_get_Done k t x : task_get k t = Done x -> tsks k !! t = Some x.
Proof. unfold task_get. destruct (tsks k !! t); [|done]. by intros [= ->]. Qed.
Lemma proc_got k i p : proc_get k i = Done p -> procs k !! i = Some p.
Proof. unfold proc_get. destruct (procs k !! i); [|done]. by intros [= ->]. Qed.

Lemma Tree_create k i k' : Tree k -> createProcess k = Done (i, k') -> Tree k'.
Proof.
  intros T H. unfold createProcess, new_process in H. odestr H. destruct a as [t k1]. injection H as <- <-.
  eapply Tree_add_task in E; [tauto| |done]. apply (Tree_new_process k (mkProcess 0 0 ∅ false 0 0 0)); [done|done|done|by left].
Qed.
Lemma Tree_proc_clone k t i k' : Tree k -> proc_clone k t = Done (i, k') -> Tree k' /\ i = idCnt k + 1.
Proof.
  intros T H. unfold proc_clone in H. odestr H. apply task_get_Done in E. odestr H. apply proc_got in E0. unfold new_process in H.
  odestr H. destruct a1 as [t' k1]. odestr H. odestr H. odestr H. injection H as <- <-. split; [|done].
  eapply Tree_add_task in E1; [| |done].
  - apply task_get_Done in E4. by eapply Tree_with_task; [apply E1|exact E4|].
  - apply (Tree_new_process k (mkProcess (t_proc a) (p_prior a0) ∅ false 0 (heapBottom a0) (heapBottom a0))); [done|done| |].
    + cbn. apply (tr_id _ T) in E0. lia.
    + right. by exists a0.
Qed.
Lemma Tree_clone k f s p tl c v k' : Tree k -> clone k f s p tl c = Done (v, k') -> Tree k'.
Proof.
  intros T H. unfold clone in H. odestr H. odestr H. destruct a0 as [thrd k1]. odestr H. apply task_get_Done in E1.
  assert (T1 : Tree k1).
  { clear H E1. destruct (hasf f _).
    - odestr E0. destruct a1 as [t k2]. odestr E0. apply task_get_Done in E2. injection E0 as <- <-.
      eapply Tree_add_task in E1; [|done|done]. by eapply Tree_with_task; [apply E1|exact E2|].
    - odestr E0. destruct a1 as [i k2]. odestr E0. odestr E0. odestr E0. apply task_get_Done in E4. injection E0 as <- <-.
      apply Tree_proc_clone in E1 as [T1 _]; [|done]. destruct (s =? 0); [done|]. by eapply Tree_with_task. }
  injection H as _ <-.
  destruct (hasf f CLONE_CHILD_SETTID && negb (c =? 0)), (hasf f CLONE_PARENT_SETTID && negb (p =? 0)), (hasf f CLONE_SETTLS),
    (hasf f CLONE_CHILD_CLEARTID); apply (Tree_with_task _ thrd a0); auto with luo.
Qed.
Lemma Tree_proc_exit k pid st k' : Tree k -> proc_exit k pid st = Done k' -> Tree k'.
Proof.
  intros T H. unfold proc_exit in H. odestr H. apply proc_got in E. odestr H. odestr H. odestr H. odestr H. injection H as <-.
  apply Tree_sched. by eapply Tree_with_proc.
Qed.
Lemma Tree_task_exit k st k' : Tree k -> task_exit k st = Done k' -> Tree k'.
Proof.
  intros T H. unfold task_exit in H. odestr H. apply task_get_Done in E. odestr H. odestr H. apply proc_got in E1.
  set (k1 := with_proc _ _ _) in H. assert (T1 : Tree k1).
  { apply (Tree_with_proc _ _ a1); [|done|done|set_solver]. apply Tree_sched. by eapply Tree_with_task. }
  set (k2 := if clearChildTid a =? 0 then k1 else _) in H. assert (T2 : Tree k2) by (unfold k2; destruct (_ =? 0); auto with luo).
  destruct (bool_decide _); [by eapply Tree_proc_exit|]. odestr H. injection H as <-. auto with luo.
Qed.
Lemma Tree_exitGroup k st k' : Tree k -> exitGroup k st = Done k' -> Tree k'.
Proof. intros T H. unfold exitGroup in H. odestr H. odestr H. odestr H. eapply Tree_proc_exit; [|exact H]. auto with luo. Qed.

(** ** Reaping *)
Lemma reparent_lookup (g : Process -> Process) l : forall (m : gmap Z Process) j,
  NoDup l -> foldr (fun i m => match m !! i with Some q => <[i := g q]> m | None => m end) m l !! j =
  if decide (j ∈ l) then g <$> m !! j else m !! j.
Proof.
  induction l as [|i l IH]; intros m j Hnd; cbn [foldr]; [by rewrite decide_False by set_solver|].
  apply NoDup_cons in Hnd as [Hi Hnd]. set (m' := foldr _ m l). assert (Hm : forall j, m' !! j = if decide (j ∈ l) then g <$> m !! j else m !! j) by (intros; by apply IH).
  clearbody m'. destruct (m' !! i) as [q|] eqn:Hq.
  - rewrite Hm, decide_False in Hq by done. destruct (decide (j = i)) as [->|Hne].
    + rewrite lookup_insert_eq, decide_True, Hq by set_solver. done.
    + rewrite lookup_insert_ne, Hm by done. destruct (decide (j ∈ l)); [rewrite decide_True by set_solver|rewrite decide_False by set_solver]; done.
  - rewrite Hm, decide_False in Hq by done. rewrite Hm. destruct (decide (j = i)) as [->|Hne].
    + rewrite decide_False, decide_True, Hq by set_solver. done.
    + destruct (decide (j ∈ l)); [rewrite decide_True by set_solver|rewrite decide_False by set_solver]; done.
Qed.
Lemma elem_getChilds k pid j : j ∈ getChilds k pid <-> 0 <= j < 512 /\ exists q, procs k !! j = Some q /\ parent q = pid.
Proof.
  unfold getChilds. rewrite list_elem_of_filter, elem_of_seqZ. rewrite fmap_Some. split.
  - intros [(q & Hq & ->) ?]. split; [lia|eauto].
  - intros [? (q & Hq & <-)]. split; [eauto|lia].
Qed.
Lemma NoDup_getChilds k pid : NoDup (getChilds k pid).
Proof. apply NoDup_filter, NoDup_seqZ. Qed.
(** The table after a reaping. *)
Lemma zombieExit_lookup k pid p k' j :
  procs k !! pid = Some p -> zombieExit k pid = Done k' ->
  procs k' !! j = if decide (j = pid) then None else if decide (j ∈ getChilds k pid) then (fun q => set_parent q (parent p)) <$> procs k !! j else procs k !! j.
Proof.
  intros Hp H. unfold zombieExit, proc_get in H. rewrite Hp in H. cbn [obind] in H. injection H as <-. cbn.
  destruct (decide (j = pid)) as [->|]; [apply lookup_delete_eq|]. rewrite lookup_delete_ne by done.
  apply (reparent_lookup (fun q => set_parent q (parent p))), NoDup_getChilds.
Qed.
Lemma Tree_zombieExit k pid k' : Tree k -> idCnt k <= 511 -> zombieExit k pid = Done k' -> Tree k'.
Proof.
  intros T Hc H. destruct (procs k !! pid) as [p|] eqn:Hp; [|unfold zombieExit, proc_get in H; by rewrite Hp in H].
  pose proof (fun j => zombieExit_lookup k pid p k' j Hp H) as Hl. unfold zombieExit, proc_get in H. rewrite Hp in H. cbn [obind] in H.
  injection H as H. assert (E : idCnt k' = idCnt k /\ tsks k' = tsks k /\ tidCnt k' = tidCnt k) by (by rewrite <- H). destruct E as (E1 & E2 & E3). clear H.
  pose proof T as [T1 T2 T3 T4 T5]. destruct (T2 pid p Hp) as [Hpp Hpe].
  assert (Hback : forall j q', procs k' !! j = Some q' -> j <> pid /\ exists q, procs k !! j = Some q /\ p_tasks q' = p_tasks q /\
    ((parent q = pid /\ parent q' = parent p) \/ (parent q <> pid /\ parent q' = parent q))).
  { intros j q' Hj. rewrite Hl in Hj. destruct (decide (j = pid)); [done|]. split; [done|]. destruct (decide (j ∈ getChilds k pid)) as [Hin|Hin].
    - apply fmap_Some in Hj as (q & Hq & ->). exists q. split; [done|]. split; [done|]. left. apply elem_getChilds in Hin as (_ & q0 & Hq0 & Hpq).
      split; [congruence|done].
    - exists q'. split; [done|]. split; [done|]. right. split; [|done]. intros Hpq. apply Hin, elem_getChilds. pose proof (T1 _ _ Hj). split; [lia|eauto]. }
  assert (Hkeep : forall j, j <> pid -> is_Some (procs k !! j) -> is_Some (procs k' !! j)).
  { intros j Hne [q Hq]. rewrite Hl, decide_False by done. destruct decide; rewrite Hq; by eexists. }
  constructor; rewrite ?E1, ?E2, ?E3; try done.
  - intros j q' Hj. destruct (Hback j q' Hj) as (_ & q & Hq & _). eauto.
  - intros j q' Hj. destruct (Hback j q' Hj) as (Hne & q & Hq & _ & [[Hpq ->]|[Hpq ->]]); destruct (T2 j q Hq) as [H1 H2].
    + split; [lia|]. destruct Hpe as [|Hpe]; [by left|right]. apply Hkeep; [lia|done].
    + split; [done|]. destruct H2 as [|H2]; [by left|right]. by apply Hkeep.
  - intros j q' t Hj Ht. destruct (Hback j q' Hj) as (_ & q & Hq & Hts & _). rewrite Hts in Ht. eauto.
Qed.
Lemma Tree_reap k cur ws t r k' : Tree k -> idCnt k <= 511 -> reap k cur ws t = Done (r, k') -> Tree k'.
Proof.
  intros T Hc H. unfold reap in H. odestr H. odestr H. injection H as _ <-. eapply Tree_zombieExit; [| |exact E0]; destruct (ws =? 0); auto with luo.
Qed.
Lemma Tree_waitpid k pid ws r k' : Tree k -> idCnt k <= 511 -> waitpid k pid ws = Done (r, k') -> Tree k'.
Proof.
  intros T Hc H. unfold waitpid in H. odestr H.
  assert (Hblock : forall r k', block k = Done (r, k') -> Tree k').
  { intros r0 k0 Hb. unfold block in Hb. odestr Hb. injection Hb as _ <-. auto with luo. }
  destruct (pid =? -1).
  - destruct (getChilds k (t_proc a)) as [|c l]; [by injection H as _ <-|]. destruct (filter _ _); [by eapply Hblock|by eapply Tree_reap].
  - destruct (0 <? pid); [|done]. destruct (procs k !! pid) as [p|]; [|done]. destruct (p_zombie p); [by eapply Tree_reap|by eapply Hblock].
Qed.
(** Identifiers only grow. *)
Lemma cnt_exit k pid st k' : proc_exit k pid st = Done k' -> idCnt k' = idCnt k.
Proof. intros H. unfold proc_exit in H. odestr H. odestr H. odestr H. odestr H. odestr H. by injection H as <-. Qed.
Lemma cnt_add k pid prior x t k' : add_task k pid prior x = Done (t, k') -> idCnt k' = idCnt k.
Proof. intros H. unfold add_task in H. odestr H. odestr H. by injection H as _ <-. Qed.
Lemma cnt_proc_clone k t i k' : proc_clone k t = Done (i, k') -> idCnt k' = idCnt k + 1.
Proof.
  intros H. unfold proc_clone, new_process in H. odestr H. odestr H. odestr H. destruct a1 as [t1 k1]. odestr H. odestr H. odestr H.
  injection H as _ <-. by apply cnt_add in E1.
Qed.
Lemma cnt_clone k f s p tl c v k' : clone k f s p tl c = Done (v, k') -> idCnt k <= idCnt k'.
Proof.
  intros H. unfold clone in H. odestr H. odestr H. destruct a0 as [thrd k1]. odestr H. injection H as _ <-. cbn.
  assert (Hk : idCnt k <= idCnt k1).
  { destruct (hasf f _).
    - odestr E0. destruct a1 as [t k2]. odestr E0. injection E0 as <- <-. apply cnt_add in E2. cbn. lia.
    - odestr E0. destruct a1 as [i k2]. odestr E0. odestr E0. odestr E0. injection E0 as <- <-. apply cnt_proc_clone in E2. destruct (s =? 0); cbn; lia. }
  repeat (destruct (_ && _); cbn); done.
Qed.
Lemma cnt_wait k pid ws r k' : waitpid k pid ws = Done (r, k') -> idCnt k' = idCnt k.
Proof.
  intros H. unfold waitpid in H. odestr H.
  assert (Hb : forall r k', block k = Done (r, k') -> idCnt k' = idCnt k).
  { intros r0 k0 Hb. unfold block in Hb. odestr Hb. by injection Hb as _ <-. }
  assert (Hr : forall cur t r k', reap k cur ws t = Done (r, k') -> idCnt k' = idCnt k).
  { intros cur t r0 k0 Hr. unfold reap in Hr. odestr Hr. odestr Hr. injection Hr as _ <-. unfold zombieExit in E1. odestr E1. injection E1 as <-. cbn.
    by destruct (ws =? 0). }
  destruct (pid =? -1).
  - destruct (getChilds k (t_proc a)) as [|c l]; [by injection H as _ <-|]. destruct (filter _ _); [by eapply Hb|by eapply Hr].
  - destruct (0 <? pid); [|done]. destruct (procs k !! pid) as [p|]; [|done]. destruct (p_zombie p); [by eapply Hr|by eapply Hb].
Qed.
Lemma pexec_cnt k c k' : pexec k c = Done k' -> idCnt k <= idCnt k'.
Proof.
  intros H. destruct c; cbn [pexec] in H.
  - odestr H. destruct a as [i k1]. injection H as <-. unfold createProcess, new_process in E. odestr E. destruct a as [t k2].
    injection E as _ <-. apply cnt_add in E0. cbn in E0. lia.
  - odestr H. destruct a as [v k1]. injection H as <-. by eapply cnt_clone.
  - unfold task_exit in H. odestr H. odestr H. odestr H. destruct (bool_decide _).
    + apply cnt_exit in H. rewrite H. by destruct (clearChildTid a =? 0).
    + odestr H. injection H as <-. by destruct (clearChildTid a =? 0).
  - unfold exitGroup in H. odestr H. odestr H. odestr H. apply cnt_exit in H. by rewrite H.
  - odestr H. destruct a as [r k1]. injection H as <-. apply cnt_wait in E. lia.
  - odestr H. destruct a as [r k1]. injection H as <-. unfold setTidAddress in E. odestr E. by injection E as _ <-.
  - odestr H. by injection H as <-.
Qed.
Lemma pexec_Tree k c k' : Tree k -> pexec k c = Done k' -> idCnt k' <= 511 -> Tree k'.
Proof.
  intros T H Hc. pose proof (pexec_cnt k c k' H). destruct c; cbn [pexec] in H.
  - odestr H. destruct a as [i k1]. injection H as <-. by eapply Tree_create.
  - odestr H. destruct a as [v k1]. injection H as <-. by eapply Tree_clone.
  - by eapply Tree_task_exit.
  - by eapply Tree_exitGroup.
  - odestr H. destruct a as [r k1]. injection H as <-. eapply Tree_waitpid; [done| |done]. lia.
  - odestr H. destruct a as [r k1]. injection H as <-. unfold setTidAddress in E. odestr E. injection E as _ <-.
    eapply Tree_with_task; [done|by apply task_get_Done|done].
  - odestr H. injection H as <-. auto with luo.
Qed.
Definition boot k : Prop := procs k = ∅ /\ tsks k = ∅ /\ idCnt k = 0 /\ tidCnt k = 0.

Lemma reach_Tree k0 k : boot k0 -> rtc pstep k0 k -> idCnt k <= 511 -> Tree k.
Proof.
  intros (E1 & E2 & E3 & E4) Hr Hc. assert (T0 : Tree k0).
  { constructor; rewrite ?E1, ?E2, ?E3, ?E4; try lia; intros *; by rewrite lookup_empty. }
  clear E1 E2 E3 E4. induction Hr as [k|k1 k2 k3 [c Hs] Hr IH]; [done|]. apply IH; [done|]. eapply pexec_Tree; [done|exact Hs|].
  clear IH T0 Hs. induction Hr as [|k k' k3 [c' Hs'] _ IH]; [done|]. apply pexec_cnt in Hs'. specialize (IH Hc). lia.
Qed.
(** C13. After any sequence of process creations, clones (of processes and
    threads), exits of tasks and of groups, waits and yields since boot, as long
    as no more than 511 process identifiers were given out: every process has an
    identifier of its own in 1..idCnt, its parent is older and still in the table
    (or it has none), so the processes form a forest, and every task of a process
    belongs to it. *)
Theorem process_tree k0 k : boot k0 -> rtc pstep k0 k -> idCnt k <= 511 -> Tree k.
Proof. apply reach_Tree. Qed.

(** ** waitpid *)
Definition child k (cur j : Z) : Prop := exists q, procs k !! j = Some q /\ parent q = cur.
Lemma childs_all k cur j : Tree k -> idCnt k <= 511 -> j ∈ getChilds k cur <-> child k cur j.
Proof. intros T Hc. rewrite elem_getChilds. split; [tauto|]. intros (q & Hq & Hp). split; [apply (tr_id _ T) in Hq; lia|]. by exists q. Qed.
(** C5. One call of waitpid(-1) by the running task, in a system whose processes
    form a tree and that has given out at most 511 process identifiers: without
    children it returns -1; with children and no zombie among them it goes to
    sleep (what it does when woken is another call); otherwise it returns a zombie
    child, stores its exit status shifted by
    8 when asked to, removes it from the table, hands its children to the parent
    it had, and changes no other process (the times of a child, which are added to
    those of its parent, are not part of the model). *)
Theorem waitpid_any k ws x :
  Tree k -> idCnt k <= 511 -> tsks k !! curtask (sched k) = Some x ->
  let cur := t_proc x in
  ((forall j, ~ child k cur j) /\ waitpid k (-1) ws = Done (WRet (-1), k)) \/
  ((exists j, child k cur j) /\ (forall j, child k cur j -> is_zombie k j = false) /\ waitpid k (-1) ws = block k) \/
  exists t q k', procs k !! t = Some q /\ parent q = cur /\ p_zombie q = true /\ waitpid k (-1) ws = Done (WRet t, k') /\
    stores k' = (if ws =? 0 then stores k else stores k ++ [Store cur ws (i32 (exitstatus q * 256))]) /\
    procs k' !! t = None /\
    forall j r, j <> t -> procs k !! j = Some r -> procs k' !! j = Some (if parent r =? t then set_parent r cur else r).
Proof.
  intros T Hc Hx cur. unfold waitpid, task_get. rewrite Hx. cbn [obind]. change (-1 =? -1) with true. cbv iota. fold cur.
  destruct (getChilds k cur) as [|c l] eqn:Hl.
  { left. split; [|done]. intros j Hj. apply childs_all in Hj; [|done..]. rewrite Hl in Hj. set_solver. }
  right. destruct (filter (fun i => is_zombie k i = true) (c :: l)) as [|t f] eqn:Hf.
  - left. split; [|split; [|done]].
    + exists c. apply childs_all; [done..|]. rewrite Hl. set_solver.
    + intros j Hj. apply childs_all in Hj; [|done..]. rewrite Hl in Hj. destruct (is_zombie k j) eqn:Ez; [|done].
      assert (Hin : j ∈ filter (fun i => is_zombie k i = true) (c :: l)) by (by apply list_elem_of_filter). rewrite Hf in Hin. set_solver.
  - right. assert (Hin : t ∈ filter (fun i => is_zombie k i = true) (c :: l)) by (rewrite Hf; set_solver).
    apply list_elem_of_filter in Hin as [Hz Hin]. rewrite <- Hl in Hin. apply childs_all in Hin as (q & Hq & Hp); [|done..].
    unfold is_zombie in Hz. rewrite Hq in Hz. unfold reap, proc_get. rewrite Hq. cbn [obind].
    set (k1 := if ws =? 0 then k else _). assert (E1 : procs k1 = procs k) by (unfold k1; by destruct (ws =? 0)).
    assert (Hq1 : procs k1 !! t = Some q) by (by rewrite E1). destruct (zombieExit k1 t) as [k'| | |] eqn:Hze; cycle 1;
      [unfold zombieExit, proc_get in Hze; rewrite Hq1 in Hze; discriminate..|]. cbn [obind].
    exists t, q, k'. split_and!; try done.
    + unfold zombieExit, proc_get in Hze. rewrite Hq1 in Hze. cbn [obind] in Hze. injection Hze as <-. unfold k1. cbn. by destruct (ws =? 0).
    + rewrite (zombieExit_lookup k1 t q k' t Hq1 Hze). by rewrite decide_True.
    + intros j r Hne Hr. rewrite (zombieExit_lookup k1 t q k' j Hq1 Hze), decide_False by done. rewrite E1, Hr.
      assert (HT1 : Tree k1 /\ idCnt k1 <= 511) by (unfold k1; destruct (ws =? 0); auto with luo). destruct HT1 as [T1 Hc1].
      destruct (decide (j ∈ getChilds k1 t)) as [Hin|Hin]; rewrite (childs_all k1 t j T1 Hc1) in Hin.
      * destruct Hin as (r' & Hr' & Hpr). rewrite E1, Hr in Hr'. injection Hr' as <-. rewrite Hpr, Z.eqb_refl, Hp. done.
      * destruct (Z.eqb_spec (parent r) t); [|done]. destruct Hin. exists r. by rewrite E1.
Qed.
(** A child with an identifier from 512 on is not seen: with no other children
    waitpid(-1) says at once that there are none. *)
Theorem waitpid_misses_512 k ws x :
  tsks k !! curtask (sched k) = Some x -> (forall j, child k (t_proc x) j -> 512 <= j) -> waitpid k (-1) ws = Done (WRet (-1), k).
Proof.
  intros Hx Hj. unfold waitpid, task_get. rewrite Hx. cbn [obind]. change (-1 =? -1) with true. cbv iota.
  destruct (getChilds k (t_proc x)) as [|c l] eqn:Hl; [done|]. assert (Hc : c ∈ getChilds k (t_proc x)) by (rewrite Hl; set_solver).
  apply elem_getChilds in Hc as [Hr Hc]. specialize (Hj c Hc). lia.
Qed.
(** A process whose parent has exited through its last task and was not
    waited for yet brings the kernel down when its own last task exits: the
    parent it wants to wake has no task left. *)
Theorem orphan_exit_panics k st x p q s :
  let t := curtask (sched k) in
  tsks k !! t = Some x -> procs k !! t_proc x = Some p -> p_tasks p = {[t]} -> procs k !! parent p = Some q -> p_tasks q = ∅ ->
  remove (set_state (sched k) t Zombie) t = Done s -> task_exit k st = Panic.
Proof.
  intros t Hx Hp Ht Hq Hqt Hs. assert (Hne : parent p <> t_proc x) by (intros E; rewrite E, Hp in Hq; injection Hq as <-; set_solver).
  unfold task_exit, task_get, proc_get. fold t. rewrite Hx. cbn [obind sched with_task]. rewrite Hs. cbn [obind procs with_sched with_task].
  rewrite Hp. cbn [obind]. rewrite Ht. rewrite bool_decide_true by set_solver.
  set (k1 := with_proc _ _ _). set (k2 := if _ =? 0 then k1 else _).
  assert (E2 : procs k2 = <[t_proc x := set_tasks p ({[t]} ∖ {[t]})]> (procs k)) by (unfold k2; by destruct (_ =? 0)).
  unfold proc_exit, proc_get. rewrite E2, lookup_insert_eq. cbn [obind]. unfold parentProc, proc_get. cbn [procs with_proc parent set_tasks].
  rewrite lookup_insert_ne, E2, lookup_insert_ne, Hq by done. cbn [obind]. unfold defaultTask. rewrite Hqt. by rewrite bool_decide_true.
Qed.
End Ops.

(** ** A concrete run: process 1 clones 2, which clones 3 and exits *)
Definition begin0 (s : gset Z) : Z := hd 0 (elements s).
Definition ex_k0 : PS :=
  mkPS ∅ 0 ∅ 0 (mkScheduler {[9 := mkScheduable 1 Running]} [[]; []] ∅ 9 8 false) [].
Fixpoint run (k : PS) (l : list pcall) : outcome PS :=
  match l with [] => Done k | c :: l => let* k := pexec begin0 k c in run k l end.
Lemma run_steps l : forall k k', run k l = Done k' -> rtc (pstep begin0) k k'.
Proof.
  induction l as [|c l IH]; intros k k' H; cbn [run] in H; [injection H as ->; apply rtc_refl|].
  odestr H. apply (rtc_l _ _ a); [by exists c|by apply IH].
Qed.
Definition fork : pcall := PClone 0 0 0 0 0.
Definition ex_l : list pcall := [PCreate; PYield; fork; PYield; fork; PYield; PYield; PYield; PExit 5].
Definition ex_at (l : list pcall) : PS := match run ex_k0 l with Done k => k | _ => ex_k0 end.
Definition ex_k1 : PS := ex_at ex_l.
Definition ex_k2 : PS := ex_at (ex_l ++ [PYield]).
Lemma ex_ps_boot : boot ex_k0.
Proof. by split_and!. Qed.
Lemma ex_ps_reach : rtc (pstep begin0) ex_k0 ex_k1.
Proof. apply (run_steps ex_l). vm_compute. reflexivity. Qed.
Lemma process_tree_witness : idCnt ex_k1 = 3 /\ Tree ex_k1.
Proof.
  split; [vm_compute; reflexivity|]. apply (process_tree begin0 ex_k0 ex_k1 ex_ps_boot ex_ps_reach). vm_compute. discriminate.
Defined.
Definition ex_t1 : Task := default (mkTask 0 0 0 0 0 0) (tsks ex_k1 !! 1).
Lemma waitpid_any_witness :
  is_zombie ex_k1 2 = true /\
  (((forall j, ~ child ex_k1 1 j) /\ waitpid ex_k1 (-1) 64 = Done (WRet (-1), ex_k1)) \/
  ((exists j, child ex_k1 1 j) /\ (forall j, child ex_k1 1 j -> is_zombie ex_k1 j = false) /\ waitpid ex_k1 (-1) 64 = block ex_k1) \/
  exists t q k', procs ex_k1 !! t = Some q /\ parent q = 1 /\ p_zombie q = true /\ waitpid ex_k1 (-1) 64 = Done (WRet t, k') /\
    stores k' = stores ex_k1 ++ [Store 1 64 (i32 (exitstatus q * 256))] /\
    procs k' !! t = None /\
    forall j r, j <> t -> procs ex_k1 !! j = Some r -> procs k' !! j = Some (if parent r =? t then set_parent r 1 else r)).
Proof.
  split; [vm_compute; reflexivity|].
  apply (waitpid_any ex_k1 64 ex_t1).
  - apply (reach_Tree begin0 ex_k0 ex_k1 ex_ps_boot ex_ps_reach). vm_compute. discriminate.
  - vm_compute. discriminate.
  - vm_compute. reflexivity.
Defined.
Definition ex_s2 : Scheduler :=
  match remove (set_state (sched ex_k2) 3 Zombie) 3 with Done s => s | _ => sched ex_k2 end.
(** Process 2 is a zombie without tasks; its child 3 exits. *)
Lemma orphan_exit_panics_witness : rtc (pstep begin0) ex_k0 ex_k2 /\ task_exit begin0 ex_k2 0 = Panic.
Proof.
  split; [apply (run_steps (ex_l ++ [PYield])); vm_compute; reflexivity|].
  apply (orphan_exit_panics begin0 ex_k2 0 (default ex_t1 (tsks ex_k2 !! 3)) (default (mkProcess 0 0 ∅ false 0 0 0) (procs ex_k2 !! 3))
    (default (mkProcess 0 0 ∅ false 0 0 0) (procs ex_k2 !! 2)) ex_s2); vm_compute; reflexivity.
Defined.
(** vDSOfuncAddr gives an address in the first page, not in the vDSO. *)
Theorem vdso_address_low func : 0 <= vDSOfuncAddr func < 4096.
Proof.
  unfold vDSOfuncAddr. change 4095 with (Z.ones 12). rewrite Z.land_ones by lia. apply Z.mod_pos_bound. lia.
Qed.
End Proc.
