(* ===== verification/Cred.v ===== *)
(** * Cred: identities, groups and limits (kernel/syscall/procmisc.cc, the
    members of proc::Process they use)

    A process is what these calls see of it. [order] is the order in which the
    unordered_set of supplementary groups is walked; [after] are the bytes that
    follow the limits in memory. *)

From S2P Require Import Prelude Klib Bytes Path Vfs File FileSys Ramfs FdInv FdCalls FileClaims Scatter ScatterClaims.
Local Open Scope Z_scope.

Module Cred.
Import FileSys Scatter ScatterClaims.

Definition EPERM : Z := 1.
Definition ESRCH : Z := 3.
Definition EFAULT : Z := 14.
Definition RLIMIT_NLIMITS : Z := 16.
Record RLim : Type := mkRLim { rlim_cur : Z; rlim_max : Z }.

Section Calls.
Context {U : Type} `{!UserMem U} (order : gset Z -> list Z) (after : list Z).

Record Proc : Type := mkProc {
  parent : Z; m_pgid : Z; m_sid : Z; m_ruid : Z; m_euid : Z; m_suid : Z; m_rgid : Z; m_egid : Z; m_sgid : Z;
  supgids : gset Z; umask : Z; rlimits : list RLim; vmar : U
}.
Notation Tbl := (gmap Z Proc).
Implicit Types (k : Tbl) (p : Proc).
Definition cur k (pid : Z) : outcome Proc := match k !! pid with Some p => Done p | None => Undef end.

Definition getPid (pid : Z) : sysrt := RtOk pid.
(** parentProc() is followed without a check. *)
Definition getPPid k (pid : Z) : outcome sysrt :=
  let* p := cur k pid in
  let* _ := cur k (parent p) in
  Done (RtOk (parent p)).
Definition getUid k (pid : Z) : outcome sysrt := let* p := cur k pid in Done (RtOk (m_ruid p)).
Definition getEuid k (pid : Z) : outcome sysrt := let* p := cur k pid in Done (RtOk (m_euid p)).
Definition getGid k (pid : Z) : outcome sysrt := let* p := cur k pid in Done (RtOk (m_rgid p)).
Definition getEgid k (pid : Z) : outcome sysrt := let* p := cur k pid in Done (RtOk (m_egid p)).
Definition with_gids p (g : Z) : Proc :=
  mkProc (parent p) (m_pgid p) (m_sid p) (m_ruid p) (m_euid p) (m_suid p) g g g (supgids p) (umask p) (rlimits p) (vmar p).
Definition with_uids p (u : Z) : Proc :=
  mkProc (parent p) (m_pgid p) (m_sid p) u u u (m_rgid p) (m_egid p) (m_sgid p) (supgids p) (umask p) (rlimits p) (vmar p).
Definition with_pgid p (g : Z) : Proc :=
  mkProc (parent p) g (m_sid p) (m_ruid p) (m_euid p) (m_suid p) (m_rgid p) (m_egid p) (m_sgid p) (supgids p) (umask p) (rlimits p) (vmar p).
Definition with_sid p (s : Z) : Proc :=
  mkProc (parent p) (m_pgid p) s (m_ruid p) (m_euid p) (m_suid p) (m_rgid p) (m_egid p) (m_sgid p) (supgids p) (umask p) (rlimits p) (vmar p).
Definition with_groups p (s : gset Z) : Proc :=
  mkProc (parent p) (m_pgid p) (m_sid p) (m_ruid p) (m_euid p) (m_suid p) (m_rgid p) (m_egid p) (m_sgid p) s (umask p) (rlimits p) (vmar p).
Definition with_umask p (m : Z) : Proc :=
  mkProc (parent p) (m_pgid p) (m_sid p) (m_ruid p) (m_euid p) (m_suid p) (m_rgid p) (m_egid p) (m_sgid p) (supgids p) m (rlimits p) (vmar p).
Definition with_rlimits p (l : list RLim) : Proc :=
  mkProc (parent p) (m_pgid p) (m_sid p) (m_ruid p) (m_euid p) (m_suid p) (m_rgid p) (m_egid p) (m_sgid p) (supgids p) (umask p) l (vmar p).
Definition with_vmar p (u : U) : Proc :=
  mkProc (parent p) (m_pgid p) (m_sid p) (m_ruid p) (m_euid p) (m_suid p) (m_rgid p) (m_egid p) (m_sgid p) (supgids p) (umask p) (rlimits p) u.

Definition setGid k (pid a_gid : Z) : outcome (sysrt * Tbl) := let* p := cur k pid in Done (RtOk 0, <[pid := with_gids p a_gid]> k).
Definition setUid k (pid a_uid : Z) : outcome (sysrt * Tbl) := let* p := cur k pid in Done (RtOk 0, <[pid := with_uids p a_uid]> k).
(** Three identities to user memory, four bytes each. *)
Definition put3 (k : Tbl) (pid : Z) p (a1 a2 a3 v1 v2 v3 : Z) : outcome (sysrt * Tbl) :=
  let* u := copyout (vmar p) a1 (le32 v1) in
  let* u := copyout u a2 (le32 v2) in
  let* u := copyout u a3 (le32 v3) in
  Done (RtOk 0, <[pid := with_vmar p u]> k).
Definition getRESgid k (pid a_rgid a_egid a_sgid : Z) : outcome (sysrt * Tbl) :=
  if (a_rgid =? 0) || (a_egid =? 0) || (a_sgid =? 0) then Done (RtErr EFAULT, k)
  else let* p := cur k pid in put3 k pid p a_rgid a_egid a_sgid (m_rgid p) (m_egid p) (m_sgid p).
Definition getRESuid k (pid a_ruid a_euid a_suid : Z) : outcome (sysrt * Tbl) :=
  if (a_ruid =? 0) || (a_euid =? 0) || (a_suid =? 0) then Done (RtErr EFAULT, k)
  else let* p := cur k pid in put3 k pid p a_ruid a_euid a_suid (m_ruid p) (m_euid p) (m_suid p).
Definition target (pid a_pid : Z) : Z := if a_pid =? 0 then pid else a_pid.
Definition setPGid k (pid a_pid a_pgid : Z) : outcome (sysrt * Tbl) :=
  match k !! target pid a_pid with
  | None => Done (RtErr ESRCH, k)
  | Some p => Done (RtOk 0, <[target pid a_pid := with_pgid p (if a_pgid =? 0 then target pid a_pid else a_pgid)]> k)
  end.
Definition getPGid k (pid a_pid : Z) : outcome sysrt :=
  match k !! target pid a_pid with None => Done (RtErr ESRCH) | Some p => Done (RtOk (m_pgid p)) end.
Definition getSid k (pid a_pid : Z) : outcome sysrt :=
  match k !! target pid a_pid with None => Done (RtErr ESRCH) | Some p => Done (RtOk (m_sid p)) end.
Definition setSid k (pid : Z) : outcome (sysrt * Tbl) :=
  let* p := cur k pid in
  if m_pgid p =? pid then Done (RtErr EPERM, k) else Done (RtOk pid, <[pid := with_pgid (with_sid p pid) pid]> k).

(** ** Supplementary groups *)
Definition gids_bytes (l : list Z) : list Z := concat (le32 <$> l).
Definition bytes_gids (n : nat) (b : list Z) : list Z := (fun i => get32 b (4 * i)) <$> seqZ 0 (Z.of_nat n).
Definition proc_getGroups p (a_size : Z) : list Z := take (Z.to_nat a_size) (order (supgids p)).
Definition getGroups k (pid a_size a_list : Z) : outcome (sysrt * Tbl) :=
  if a_list =? 0 then Done (RtErr EFAULT, k)
  else
    let* p := cur k pid in
    if a_size =? 0 then Done (RtOk (Z.of_nat (size (supgids p))), k)
    else if a_size <? 0 then Undef
    else
      let l := proc_getGroups p a_size in
      let* u := copyout (vmar p) a_list (gids_bytes l) in
      Done (RtOk (zlen l), <[pid := with_vmar p u]> k).
Definition setGroups k (pid a_size a_list : Z) : outcome (sysrt * Tbl) :=
  if a_list =? 0 then Done (RtErr EFAULT, k)
  else
    let* p := cur k pid in
    if a_size <? 0 then Undef
    else
      let* b := copyin (vmar p) a_list (4 * a_size) in
      Done (RtOk 0, <[pid := with_groups p (list_to_set (bytes_gids (Z.to_nat a_size) b))]> k).

(** ** Limits and the file mode mask *)
Definition rlim_bytes (l : list RLim) : list Z := concat ((fun r => le64 (rlim_cur r) ++ le64 (rlim_max r)) <$> l).
(** Process::getRLimit: sizeof(rlimits) bytes from the element on. *)
Definition proc_getRLimit p (a_rsrc : Z) : list Z := slice (rlim_bytes (rlimits p) ++ after) (16 * a_rsrc) 256.
Definition bad_rsrc (a_rsrc a_rlim : Z) : bool := (a_rlim =? 0) || (a_rsrc <? 0) || (RLIMIT_NLIMITS <=? a_rsrc).
Definition getRLimit k (pid a_rsrc a_rlim : Z) : outcome (sysrt * Tbl) :=
  if bad_rsrc a_rsrc a_rlim then Done (RtErr EFAULT, k)
  else
    let* p := cur k pid in
    let* u := copyout (vmar p) a_rlim (proc_getRLimit p a_rsrc) in
    Done (RtOk 0, <[pid := with_vmar p u]> k).
Definition proc_setRLimit p (a_rsrc : Z) (r : RLim) : outcome (Z * Proc) :=
  let* o := aget (rlimits p) a_rsrc in
  if negb (m_euid p =? 0) && ((rlim_max o <? rlim_cur r) || (rlim_max o <? rlim_max r)) then Done (-1, p)
  else Done (0, with_rlimits p (<[Z.to_nat a_rsrc := r]> (rlimits p))).
Definition setRLimit k (pid a_rsrc a_rlim : Z) : outcome (sysrt * Tbl) :=
  if bad_rsrc a_rsrc a_rlim then Done (RtErr EFAULT, k)
  else
    let* p := cur k pid in
    let* b := copyin (vmar p) a_rlim 16 in
    let r := mkRLim (word b 0) (word b 1) in
    if rlim_max r <? rlim_cur r then Done (RtOk (-1), k)
    else let* (v, p) := proc_setRLimit p a_rsrc r in Done (RtOk v, <[pid := p]> k).
Definition uMask k (pid a_mask : Z) : outcome (sysrt * Tbl) :=
  let* p := cur k pid in Done (RtOk (umask p), <[pid := with_umask p (Z.land a_mask 511)]> k).

(** ** Round trips *)
Context `{!KMemLaws U}.
Definition stored (u u' : U) (a : Z) (bs : list Z) : Prop :=
  forall x, byte u' x = if decide (a <= x < a + zlen bs) then Some (vat bs (x - a)) else byte u x.
Definition mapped (u : U) (a n : Z) : Prop := forall x, a <= x < a + n -> is_Some (byte u x).
Lemma copyout_stored u a bs : bs <> [] -> mapped u a (zlen bs) -> exists u', copyout u a bs = Done u' /\ stored u u' a bs.
Proof. intros Hne Hm. destruct (law_kwrite u a bs (or_introl Hne) Hm) as (u' & Hw & Hx). by exists u'. Qed.
Lemma copyin_piece u a n : 0 < n -> mapped u a n -> copyin u a n = Done (piece (byte u) a n).
Proof. intros Hn Hm. exact (law_kread u a n Hn Hm). Qed.

Lemma rlim_bytes_app l1 l2 : rlim_bytes (l1 ++ l2) = rlim_bytes l1 ++ rlim_bytes l2.
Proof. unfold rlim_bytes. by rewrite fmap_app, concat_app. Qed.
Lemma rlim_bytes_len l : zlen (rlim_bytes l) = 16 * Z.of_nat (length l).
Proof.
  induction l as [|r l IH]; [done|]. change (rlim_bytes (r :: l)) with ((le64 (rlim_cur r) ++ le64 (rlim_max r)) ++ rlim_bytes l).
  rewrite !zlen_app, !zlen_le64, IH. cbn [length]. lia.
Qed.
(** The limits with one replaced, as bytes. *)
Lemma rlim_bytes_insert l (i : nat) o r tl :
  l !! i = Some o ->
  rlim_bytes (<[i := r]> l) ++ tl = rlim_bytes (take i l) ++ (le64 (rlim_cur r) ++ le64 (rlim_max r)) ++ rlim_bytes (drop (S i) l) ++ tl.
Proof.
  intros Hi. assert (Hlt : (i < length l)%nat) by (by eapply lookup_lt_Some). rewrite insert_take_drop by done. rewrite rlim_bytes_app.
  change (r :: drop (S i) l) with ([r] ++ drop (S i) l). rewrite rlim_bytes_app. rewrite <- !app_assoc. do 2 f_equal.
Qed.
(** The bytes that Process::getRLimit gives after the limit was set. *)
Lemma getRLimit_bytes p (i : Z) o r :
  length (rlimits p) = 16%nat -> 0 <= i < 16 -> rlimits p !! Z.to_nat i = Some o -> 240 <= zlen after ->
  let bs := proc_getRLimit (with_rlimits p (<[Z.to_nat i := r]> (rlimits p))) i in
  zlen bs = 256 /\ (forall j, 0 <= j < 16 -> vat bs j = vat (le64 (rlim_cur r) ++ le64 (rlim_max r)) j) /\
  (forall j, 16 <= j < 256 -> vat bs j = vat (rlim_bytes (rlimits p) ++ after) (16 * i + j)).
Proof.
  intros Hl Hi Ho Ha bs. set (l := rlimits p) in *. set (n := Z.to_nat i) in *.
  assert (Hold : rlim_bytes l ++ after = rlim_bytes (take n l) ++ (le64 (rlim_cur o) ++ le64 (rlim_max o)) ++ rlim_bytes (drop (S n) l) ++ after).
  { rewrite <- (rlim_bytes_insert l n o o after Ho). by rewrite list_insert_id. }
  assert (Ht : zlen (rlim_bytes (take n l)) = 16 * i) by (rewrite rlim_bytes_len, length_take; lia).
  assert (Hd : zlen (rlim_bytes (drop (S n) l)) = 16 * (15 - i)) by (rewrite rlim_bytes_len, length_drop; lia).
  unfold bs, proc_getRLimit. cbn [rlimits with_rlimits]. fold l. rewrite (rlim_bytes_insert l n o r after Ho). rewrite Hold.
  set (T := rlim_bytes (take n l)) in *. set (D := rlim_bytes (drop (S n) l)) in *. set (new := le64 (rlim_cur r) ++ le64 (rlim_max r)).
  set (old := le64 (rlim_cur o) ++ le64 (rlim_max o)). assert (Hn : zlen new = 16) by done. assert (Hod : zlen old = 16) by done.
  split; [apply slice_length; rewrite ?zlen_app; lia|]. split; intros j Hj; rewrite vat_slice by lia; rewrite vat_app by lia.
  - destruct (Z.ltb_spec (16 * i + j) (zlen T)); [lia|]. rewrite vat_app by lia. destruct (Z.ltb_spec (16 * i + j - zlen T) (zlen new)); [|lia]. f_equal. lia.
  - rewrite (vat_app T) by lia. destruct (Z.ltb_spec (16 * i + j) (zlen T)); [lia|]. rewrite !vat_app by lia.
    destruct (Z.ltb_spec (16 * i + j - zlen T) (zlen new)); [lia|]. destruct (Z.ltb_spec (16 * i + j - zlen T) (zlen old)); [lia|]. by rewrite Hn, Hod.
Qed.

(** A limit that was set is the limit that is got: setrlimit of a limit with
    rlim_cur <= rlim_max, by a process that is root or does not raise it,
    succeeds, and getrlimit then stores the same pair. But it stores 256 bytes,
    not 16: the 240 bytes behind the caller's struct are overwritten with the
    following limits and with what lies behind the process object. *)
Theorem rlimit_roundtrip_overruns k pid rsrc a b p o :
  k !! pid = Some p -> length (rlimits p) = 16%nat -> 0 <= rsrc < 16 -> rlimits p !! Z.to_nat rsrc = Some o -> 240 <= zlen after ->
  a <> 0 -> b <> 0 -> mapped (vmar p) a 16 -> mapped (vmar p) b 256 ->
  let w := piece (byte (vmar p)) a 16 in
  let r := mkRLim (word w 0) (word w 1) in
  rlim_cur r <= rlim_max r -> m_euid p = 0 \/ rlim_max r <= rlim_max o ->
  exists k1 k2 p2, setRLimit k pid rsrc a = Done (RtOk 0, k1) /\ getRLimit k1 pid rsrc b = Done (RtOk 0, k2) /\ k2 !! pid = Some p2 /\
    (forall i, 0 <= i < 16 -> byte (vmar p2) (b + i) = Some (vat (le64 (rlim_cur r) ++ le64 (rlim_max r)) i)) /\
    (forall i, 16 <= i < 256 -> byte (vmar p2) (b + i) = Some (vat (rlim_bytes (rlimits p) ++ after) (16 * rsrc + i))) /\
    (forall x, x < b \/ b + 256 <= x -> byte (vmar p2) x = byte (vmar p) x).
Proof.
  intros Hp Hl Hr Ho Haf Ha Hb Hma Hmb w r Hle Hroot. unfold setRLimit, getRLimit, bad_rsrc, cur, RLIMIT_NLIMITS.
  assert (Hz : forall c, c <> 0 -> (c =? 0) || (rsrc <? 0) || (16 <=? rsrc) = false) by (intros; repeat bdestr; try lia; done).
  rewrite !Hz by done. rewrite Hp. cbn [obind]. rewrite (copyin_piece (vmar p) a 16 ltac:(lia) Hma). cbn [obind]. fold w. fold r.
  destruct (Z.ltb_spec (rlim_max r) (rlim_cur r)); [lia|]. unfold proc_setRLimit, aget. destruct (Z.ltb_spec rsrc 0); [lia|]. rewrite Ho. cbn [obind].
  assert (negb (m_euid p =? 0) && ((rlim_max o <? rlim_cur r) || (rlim_max o <? rlim_max r)) = false) as ->.
  { destruct Hroot as [->|Hm]; [done|]. destruct (Z.ltb_spec (rlim_max o) (rlim_cur r)); [lia|]. destruct (Z.ltb_spec (rlim_max o) (rlim_max r)); [lia|].
    by rewrite andb_false_r. }
  cbn [obind]. set (p1 := with_rlimits p _).
  destruct (getRLimit_bytes p rsrc o r Hl Hr Ho Haf) as (Hlen & H1 & H2). fold p1 in Hlen, H1, H2.
  destruct (copyout_stored (vmar p1) b (proc_getRLimit p1 rsrc)) as (u' & Hu & Hst); [intros E; rewrite E in Hlen; done|by rewrite Hlen|].
  exists (<[pid := p1]> k), (<[pid := with_vmar p1 u']> (<[pid := p1]> k)), (with_vmar p1 u'). split; [done|].
  rewrite lookup_insert_eq. cbn [obind]. rewrite Hu. cbn [obind]. split; [done|].
  split; [apply lookup_insert_eq|]. cbn [vmar with_vmar]. unfold stored in Hst. rewrite Hlen in Hst. split_and!.
  - intros i Hi. rewrite Hst, decide_True by lia. f_equal. rewrite <- H1 by lia. f_equal. lia.
  - intros i Hi. rewrite Hst, decide_True by lia. f_equal. rewrite <- H2 by lia. f_equal. lia.
  - intros x Hx. by rewrite Hst, decide_False by lia.
Qed.

(** The supplementary groups that were set are the ones that are got, each
    once, in the order of the set; the count is that of the distinct groups. *)
Lemma gids_bytes_len l : zlen (gids_bytes l) = 4 * zlen l.
Proof.
  induction l as [|x l IH]; [done|]. change (gids_bytes (x :: l)) with (le32 x ++ gids_bytes l). rewrite zlen_app, zlen_le32, IH.
  unfold zlen. cbn [length]. lia.
Qed.
(** setgroups followed by getgroups with room for them: the call returns the
    number of distinct groups and stores each of them once, in some order. *)
Theorem groups_roundtrip k pid n m a b p :
  (forall s, order s ≡ₚ elements s) -> k !! pid = Some p -> 1 <= n <= m -> a <> 0 -> b <> 0 ->
  mapped (vmar p) a (4 * n) -> mapped (vmar p) b (4 * m) ->
  let gids := bytes_gids (Z.to_nat n) (piece (byte (vmar p)) a (4 * n)) in
  exists l k1 k2 p2, setGroups k pid n a = Done (RtOk 0, k1) /\ getGroups k1 pid m b = Done (RtOk (zlen l), k2) /\ k2 !! pid = Some p2 /\
    l ≡ₚ elements (list_to_set gids : gset Z) /\ stored (vmar p) (vmar p2) b (gids_bytes l).
Proof.
  intros Hord Hp Hn Ha Hb Hma Hmb gids. unfold setGroups, getGroups, cur. destruct (Z.eqb_spec a 0); [done|]. destruct (Z.eqb_spec b 0); [done|].
  rewrite Hp. cbn [obind]. destruct (Z.ltb_spec n 0); [lia|]. rewrite (copyin_piece (vmar p) a (4 * n) ltac:(lia) Hma). cbn [obind]. fold gids.
  set (G := list_to_set gids : gset Z). set (p1 := with_groups p G). pose proof (Hord G) as Hperm.
  assert (Hlg : length gids = Z.to_nat n) by (unfold gids, bytes_gids; rewrite length_fmap, length_seqZ; lia).
  assert (Hlen : (1 <= length (order G) <= Z.to_nat n)%nat).
  { rewrite Hperm. change (length (elements G)) with (size G). split.
    - destruct gids as [|x l] eqn:Eg; [cbn in Hlg; lia|]. assert (Hx : x ∈ G) by (apply elem_of_list_to_set, elem_of_cons; by left).
      destruct (size G) eqn:Es; [|lia]. apply size_empty_inv in Es. by apply Es in Hx.
    - unfold G. rewrite <- Hlg. clear. induction gids as [|x l IH]; [done|]. cbn [list_to_set length]. rewrite size_union_alt, size_singleton.
      assert (size ((list_to_set l : gset Z) ∖ {[x]}) <= size (list_to_set l : gset Z))%nat by (apply subseteq_size, subseteq_difference_l; done). lia. }
  assert (Htk : proc_getGroups p1 m = order G) by (unfold proc_getGroups; cbn [supgids p1 with_groups]; apply take_ge; lia).
  destruct (copyout_stored (vmar p1) b (gids_bytes (order G))) as (u' & Hu & Hst).
  { intros E. apply (f_equal zlen) in E. rewrite gids_bytes_len in E. unfold zlen in E. cbn [length] in E. lia. }
  { intros x Hx. apply Hmb. rewrite gids_bytes_len in Hx. unfold zlen in Hx. lia. }
  exists (order G), (<[pid := p1]> k), (<[pid := with_vmar p1 u']> (<[pid := p1]> k)), (with_vmar p1 u'). split; [done|].
  rewrite lookup_insert_eq. cbn [obind]. destruct (Z.eqb_spec m 0); [lia|]. destruct (Z.ltb_spec m 0); [lia|]. rewrite Htk, Hu. cbn [obind].
  split; [done|]. split; [apply lookup_insert_eq|]. split; [done|]. exact Hst.
Qed.
End Calls.

(** ** A concrete process with a flat memory of 600 bytes *)
Definition ex_u : list Z := splice (splice (replicate 600 0) 16 (enc [100; 200])) 64 (le32 7 ++ le32 9 ++ le32 7).
Definition ex_p : Proc :=
  mkProc 0 1 1 0 0 0 0 0 0 ∅ 18 (replicate 16 (mkRLim 5 10)) ex_u.
Definition ex_k : gmap Z Proc := {[1 := ex_p]}.
Lemma ex_mapped a n : 0 <= a -> a + n <= 600 -> mapped ex_u a n.
Proof.
  intros Ha Hn x Hx. cbn. assert (E : zlen ex_u = 600) by (vm_compute; reflexivity). rewrite E, decide_True by lia. by eexists.
Qed.
Lemma rlimit_roundtrip_overruns_witness :
  exists k1 k2 p2, setRLimit ex_k 1 3 16 = Done (RtOk 0, k1) /\ getRLimit (replicate 240 0) k1 1 3 300 = Done (RtOk 0, k2) /\ k2 !! 1 = Some p2 /\
    (forall i, 0 <= i < 16 -> byte (vmar p2) (300 + i) = Some (vat (le64 100 ++ le64 200) i)) /\
    (forall i, 16 <= i < 256 -> byte (vmar p2) (300 + i) = Some (vat (rlim_bytes (rlimits ex_p) ++ replicate 240 0) (16 * 3 + i))) /\
    (forall x, x < 300 \/ 300 + 256 <= x -> byte (vmar p2) x = byte (vmar ex_p) x).
Proof.
  assert (E : piece (byte (vmar ex_p)) 16 16 = enc [100; 200]) by (vm_compute; reflexivity).
  pose proof (rlimit_roundtrip_overruns (replicate 240 0) ex_k 1 3 16 300 ex_p (mkRLim 5 10)) as H. cbv zeta in H. rewrite E in H.
  apply H; [reflexivity|reflexivity|lia|reflexivity|vm_compute; discriminate|lia|lia|apply ex_mapped; lia|apply ex_mapped; lia|vm_compute; discriminate|by left].
Defined.
Lemma groups_roundtrip_witness :
  exists l k1 k2 p2, setGroups ex_k 1 3 64 = Done (RtOk 0, k1) /\ getGroups elements k1 1 4 300 = Done (RtOk (zlen l), k2) /\ k2 !! 1 = Some p2 /\
    l ≡ₚ elements (list_to_set [7; 9; 7] : gset Z) /\ stored ex_u (vmar p2) 300 (gids_bytes l).
Proof.
  assert (E : bytes_gids (Z.to_nat 3) (piece (byte (vmar ex_p)) 64 (4 * 3)) = [7; 9; 7]) by (vm_compute; reflexivity).
  pose proof (groups_roundtrip elements ex_k 1 3 4 64 300 ex_p) as H. cbv zeta in H. rewrite E in H.
  apply H; [done|reflexivity|lia|lia|lia|apply ex_mapped; lia|apply ex_mapped; lia].
Defined.
End Cred.
